(* ===== verification/_CoqProject ===== *)
-Q . S2P
Prelude.v
CMonad.v
CLib.v
Decimal.v
Common.v
Restart.v
FileSys.v
RawSock.v
Primegen.v
Mysh.v
PreMt.v
SelectServer.v
SemV.v
CpuSvr.v
XferFile.v
Finger.v
FileCopy.v
Threads.v
Tsig.v
ShmMtx.v
BankAcc.v
Mmap.v
Transfer.v
Pipe2.v
FileLock.v
ChldSig.v
Strerror.v
SemCount.v
Cleanup.v
RobustMtx.v
ErrFns.v
HxDump.v
ShmPair.v
ClientAny.v
Proc.v
ForkDemo.v
Fork2c.v
SigDemo.v
SigCrit.v
MqPair.v
IpcSys.v
IpcPosix.v
IpcSysV.v
IpcMore.v
Segv.v
SavedIds.v
SigQueue.v
MyshSimple.v
UnixSock.v
Nano.v
ShowIp.v
Pipes.v
SemSimple.v
Envp.v
EthFrame.v
Strtoul.v
StackMem.v
Zombies.v
ThrdDemos.v
Sanodef.v
