(* ===== verification/Prelude.v ===== *)
(** * Verification of the system programming examples of L1_sysprg_trg

    The repository is a collection of Linux system programs in C: a shared support
    library, servers and their clients, shells, programs on processes, signals,
    credentials, semaphores, message queues, shared and mapped memory, pipes and
    pthreads.  They share one structure: a program is straight-line code and loops
    around system calls, it checks (or does not check) what they answer, it copies
    data between descriptors and fixed-size buffers, and it prints.  What makes
    such a program right is the same everywhere: it copies exactly the data it
    should in spite of short transfers and interruptions, it stays in its buffers,
    it ends in the ways it means to, and threads and processes that share data
    exclude each other.

    ** How the programs are modelled

    [CMonad] is the abstract machine.  A C function is a state transformer
    [C K A] over a world: the kernel's state, [errno] and the trace of the
    program's calls and output.  The kernel is a parameter, a type with a step
    function (class [Kernel]); [PosixKernel] states what POSIX documents of read,
    write, open, close and malloc, [LiveKernel] (in [Restart]) adds that signals
    come finitely often, that the input is finite and that a write makes
    progress.  A function either returns or halts: exit, exec, the end of a
    thread, undefined behaviour (an out-of-bounds or uninitialised access, a null
    pointer, a signed overflow), or running out of fuel.  [wp] is the weakest
    precondition calculus with which the proofs run programs; [loop] is C's
    while, with a fuel that bounds its iterations: every theorem that says a
    program ends proves that the fuel it names is enough, from a measure.
    [CLib] has the C library functions in use (printf's conversions, C strings,
    atoi) and memory objects whose bytes may be unwritten; [Decimal] has the digits
    of printed numbers and that atoi reads them back.  Integers are Z with the
    wrap-around of their width written out ([to_int], [to_size_t], ...).
    [FileSys] is a concrete kernel: names, inodes, descriptors and mappings, on
    which the file programs run to their final files.  Mapped memory belongs to
    the kernel: a store to it is a call.

    Two more machines are for programs whose processes meet.  In [Proc] a program
    is a tree of its calls, a system is a list of processes with their memory, signal
    masks, pending signals and handlers, and a schedule is a list of moves; a handler
    runs in the middle of whatever it interrupts.  In [IpcSys] processes share
    semaphores, segments, queues and fifos, and a call has several possible answers,
    failures included; the programs there read no input, so that the set of their runs
    is finite and [explore] computes it level by level until a level is empty (its fuel
    is checked by that: a level that is left over makes the exploration answer false);
    [explore_sound] carries what was evaluated over to every schedule.

    Values of library functions the programs only print (inet_ntoa, inet_ntop,
    strerror, the text of %g and %f) and the page size are parameters.

    ** The components

    - [Common]: src/common.c and src/common.h: error reporting, timeval
      subtraction, dec2bin, r_sleep, hex_dump.
    - [Restart]: src/restart_lib-Robbins.c: calls restarted after EINTR, complete
      writes, lines and blocks, copies and timed waits.  The restart_lib.h next to
      xfer_file.c and rdwr_fileio.c is the same code.
    - [RawSock]: raw_eth_ipv4_udp_tx.c: Ethernet/IPv4/UDP frames and checksums.
    - [Primegen]: primegen.c, the prime generator.
    - [Mysh]: mysh.c, the shell.
    - [PreMt]: svr_pre_mt.c, the pre-threaded HTTP server: request lines, URL
      decoding, file transfer and the pool of threads as a step relation, which has
      the locking, accept and the endings of [enter_server_loop].
    - [SelectServer]: selectserver.c, the chat server around select.
    - [SemV]: sem1.c, sem2.c, sem_lib.h and beej/semdemo.c: the programs, and the
      System V semaphore protocol of each as a transition system of processes.
    - [CpuSvr]: cpudtl_tstsvr.c, the forking server that sends lscpu's output.
    - [XferFile]: xfer_file.c, file server and client, with a read/write loop or
      with sendfile.
    - [Finger]: sfingr.c, cfingr.c and mt_sfingr.c, finger servers and client.
    - [FileCopy]: rdwr_fileio.c, the read/write file copy.
    - [Threads]: pt4-condvar.c and pt3-matrixmul.c as interleaving automata, with
      spurious wakeups.
    - [Tsig]: tsig.c: signals blocked, handled and waited for in a program with
      threads.
    - [ShmMtx]: appdemo_shm_sem_as_mtx.c: two processes on shared memory, with and
      without a semaphore, as a program and as interleaved byte stores.
    - [BankAcc]: bankacc_datarace.c: two threads on two balances, with and without
      the mutex.
    - [Mmap]: mmap_fileio.c and mmap_simple.c: a copy through two mappings, a dump
      of a mapped file.
    - [Transfer]: server and client of [XferFile] joined by a connection.
    - [Pipe2]: pipe2.c, a line from parent to child.
    - [FileLock]: the record locking demo: the program, and any number of processes
      that run it call by call on one file with one lock, whatever calls fail.
    - [ChldSig]: chld_sig.c: children that are reaped and reported.
    - [Strerror]: strerror with a static, a thread-local and a thread-specific
      buffer, and the programs that use them.  Class [ThreadSafe] is what a client
      relies on; the two safe functions are instances, the client's theorems are
      proved from the class.
    - [SemCount]: the server and the clients around a counting semaphore and a
      message queue.  Class [MqKernel] says that any number of client steps come
      before a call of the server; the client steps are those of the client
      program.
    - [Cleanup]: thread_cleanup.c: cancellation, a condition variable and a cleanup
      handler as an interleaving automaton.
    - [RobustMtx]: mutex_debugcheck.c: an error-checking robust mutex whose owner dies.
    - [ErrFns]: error_functions.c, error reporting for the thread programs; its writes
      to streams are calls that may fail and change errno.
    - [ShmPair]: shm1_w.c, shm1_r.c and hdr_shm.h: lines written to a System V segment
      and read back by another program.
    - [ClientAny]: client_any.c, a client that tries all addresses of a host.
    - [HxDump]: hxdump_buggy.c, an exercise with seeded bugs, on [FileSys] with the
      bytes of a data file that fgets takes line by line.
    - [ForkDemo] (on [Proc]): fork_data_addr.c, orphan.c and zombie.c; [Fork2c]: fork2c.c,
      a parent that reaps two children.
    - [SigDemo] (on [Proc]): killer.c, a signal sent to a child; [SigCrit]: sigcrit.c, a
      critical section with signals blocked, and the delay loop of src/convenient.h.
    - [MqPair]: sender_mq.c and recv_mq.c, a POSIX message queue with priorities.
    - [IpcPosix], [IpcSysV] (on [IpcSys]): the parent and child programs of
      hildstrom_ipc_sysv_posix at semaphores, shared memory and message queues of both
      kinds; [IpcMore]: opencsf_sem_posix_3.11.c, opencsf_shm_posix_3.10.c, writer.c and
      reader.c, named_sem_demo.c, wr_fifo.c and rd_fifo.c, msg1_w.c and msg1_r.c.
    - [Segv]: handle_segv.c and handle_segv_altstack.c, handlers of a fault.
    - [SavedIds]: savedset_ids.c, privilege given up and taken back, on a kernel with
      the credentials of POSIX.
    - [SigQueue]: sigq_snd.c and sigq_rcv.c, values sent with queued signals.
    - [MyshSimple]: mysh_simple.c, the shell without arguments.
    - [UnixSock]: unix_svr.c and unix_cli.c, a forking server on a Unix domain socket.
    - [Nano]: nano.c and sleepsafe.c, sleeps that signals interrupt.
    - [ShowIp]: showip.c, the addresses of a host.
    - [Pipes]: pipe1.c, and pipe-dup2.c on a kernel with a table of descriptors.
    - [SemSimple]: simple/sem1.c, the first version of the semaphore program.
    - [Envp]: envp.c, a program executed with a changed environment.
    - [EthFrame]: raw_sock_ethframe.c, one Ethernet frame with a text.
    - [Strtoul]: strtoul of the C library, and that it reads back what %x printed.
    - [StackMem]: stackmem_corrupt.c, the stack overwritten and the fault reported.
    - [Zombies] (on [Proc]): zombies_clear_traditional.c, a parent whose SIGCHLD handler
      fetches its child, and zombies_clear_linux26.c, SA_NOCLDWAIT; [Sanodef]: sanodef.c, a
      slow handler with and without SA_NODEFER.
    - [ThrdDemos]: thread programs whose threads only call the system:
      sched_pthrd_rtprio.c, cr8ManyThrds.c (and its buggy version), stacksz.c,
      attr_setget.c (also on a system that keeps thread attributes), rlim_threads.c,
      mt_fork_exec.c.

    In each file the definitions come first and carry the names of the source
    (a part of a long main has a name of its own); the theorems follow.

    ** What the theorems show

    - Data is moved exactly, and an end of file or a failure is reported only when a
      call answered so: [Restart.r_write_complete], [readline_correct],
      [copyfile_copies], [readblock_correct]; the file server and its client
      ([XferFile]); the file copy ([FileCopy]); the chat broadcast
      ([SelectServer]); a request line is taken whole ([PreMt]); the transferred
      file is the server's file, or what one sendfile sent of it
      ([Transfer.transfer_end_to_end]); the copy by read
      and write and the copy by mapping leave the same file ([Mmap.copies_agree]);
      the hex dump prints the first bytes of the files whose names end in the newline
      that fgets leaves there, and fails at any other ([HxDump]); lines go through
      a shared segment unchanged ([ShmPair.shm_roundtrip]); messages come by priority
      ([MqPair.mq_by_priority]), values of queued signals in order
      ([SigQueue.sigq_in_order]), a greeting over a socket and a line over a pipe as
      they were sent ([UnixSock.unix_greeting], [Pipes.Pipe1.pipe1_line]), one frame
      with its text ([EthFrame.eth_frame_sent]); the attributes a thread is given are the
      ones it shows ([ThrdDemos.AttrGetSet.attrs_round_trip]).
    - Functions compute what they should: the RFC 1071 checksum and frames that
      verify ([RawSock]), the primes ([Primegen]), the shell's words ([Mysh]),
      URL decoding ([PreMt]), hex_dump, dec2bin and time differences ([Common]).
    - Buffers are respected, or the exact input that overruns them is named
      ([PreMt], [CpuSvr], [XferFile], [Finger], [Mysh], [Pipe2], [SemCount],
      [HxDump], [UnixSock], [Pipes], [MyshSimple], [SemSimple],
      [ThrdDemos.ManyThrds]); priorities stay below the highest
      ([ThrdDemos.RtPrio.rt_priorities_in_range]).
    - Every ending is listed with what it says of the calls made (the error
      theorems of [PreMt], [Finger], [Primegen], [ErrFns], [Segv], [StackMem], [ShowIp],
      [ThrdDemos]); calls come
      in the order that makes them safe ([Tsig.tsig_main_order]); descriptors and
      credentials are what they should be when another program or a sleep starts
      ([Pipes.Dup2.dup2_pipeline], [SavedIds.saved_ids_regained]), and the environment
      is what it was but for one variable ([Envp.envp_replaces_term]).
    - Loops end: under finitely many signals ([Restart], [Common.r_sleep_total]),
      within an explicit number of steps ([Threads], [ShmMtx], [Cleanup],
      [RobustMtx]), until the last child is reaped ([ChldSig], [Fork2c]), until the
      whole time was slept ([Nano.nano_sleeps_through]).
    - Concurrency, over every interleaving: mutual exclusion of the thread pool, of
      the semaphore protocols, of the record lock and of the pthread programs; the
      condition variable's wakeup is never lost; sem2.c's protocol deadlocks; the
      books of the counting semaphore balance ([SemCount.server_capacity]); a
      thread's string stays its own ([Strerror.strerror_isolated]); a cancelled
      thread leaves the mutex free ([Cleanup.cleanup_correct]); the mutex of a dead owner
      is taken over and lost only by the lock whose result is ignored
      ([RobustMtx.robust_mutex]); without the lock
      exactly the stated wrong results are possible ([BankAcc.bank_race],
      [ShmMtx.shm_race], [RobustMtx.robust_mutex_lost]).
    - Processes and signals, over every schedule: after fork memory is not shared, every
      child is fetched once ([Fork2c.fork2c_reaps_all]), a signal reaches its handler
      ([SigDemo.Killer]), no handler runs inside the critical section however many
      signals are sent ([SigCrit.sigcrit_uninterrupted]), a handler is not interrupted
      by its own signal ([Sanodef.handlers_deferred]), a zombie is fetched before main
      goes on ([Zombies.Traditional.zombie_cleared]) or never appears
      ([Zombies.NoCldWait.no_zombie_ever]).
    - Processes at IPC objects, over every schedule and whichever of the calls fail
      that [IpcSys] lists as calls that can: order and exclusion ([IpcPosix.Sem];
      [IpcMore.NamedSem] as long as no sem_wait fails, for its program does not look at
      what sem_wait returns), what one writes is what the
      other prints, which objects are left behind, and the runs in which a process
      waits for ever or is killed, exactly ([IpcPosix], [IpcSysV], [IpcMore]).

    ** What is not modelled

    Processes and threads interleave in the transition systems of [PreMt], [SemV],
    [Threads], [ShmMtx], [BankAcc], [FileLock], [Cleanup] and [RobustMtx], in the
    programs on [Proc] and [IpcSys], and between the calls of [SemCount] and [SigQueue];
    in the other program models a fork or thread creation is a call whose answer the
    kernel chooses, and in [Strerror] the calls of the threads follow each other.  In
    [Cleanup] the pthread calls do not fail; on [IpcSys] the calls that close an object
    do not, receiving calls are not interrupted, and the programs of [IpcPosix] start
    without an object of the name they create.  Threads load and store in a sequentially
    consistent order, also where the C program has a data race ([BankAcc], [ShmMtx]).  Signal handlers run in the middle of other
    code on [Proc] only; in [Nano], [SigQueue] and [UnixSock] they run inside the call
    that the program waits in (in [SigQueue] one signal in each pause), in [Segv] and [StackMem] at the access that faults, and in the
    other models they are definitions of their own and show only as the EINTR they
    cause.  Double arithmetic is not modelled: the double arguments of the restart
    library are taken after their conversion, and the values of the dot products
    ([Threads], [RobustMtx]) are integers that doubles represent exactly.  The indices
    and counters of the thread programs and the time_t sums of add2currenttime are
    unbounded integers.  Debug output (MSG and the like, compiled out by
    default) is left out.  What is left of the repository is listed in the manifest with
    the reasons: copies and earlier versions of programs that are modelled (the restart
    library and convenient.h next to the programs, the bkp directories), debug macros,
    programs whose one act is undefined in C, and small demonstrations of a call that
    other programs here make as well. *)
From stdpp Require Export base tactics numbers list strings pretty gmap sets.
From Stdlib Require Export ZArith Lia Bool.

#[global] Set Default Goal Selector "!".
#[global] Set Warnings "-clear-no-such-hyp".
#[global] Open Scope Z_scope.

(** ** Hint databases and tactics of the development *)

Create HintDb csem.
Create HintDb cbytes.
Create Rewrite HintDb cbytes.

(** Destruct every boolean test of the goal or of the context, keeping the
    arithmetic fact it decides. *)
Ltac zbool :=
  repeat match goal with
  | |- context [Z.eqb ?a ?b] => destruct (Z.eqb_spec a b)
  | |- context [Z.ltb ?a ?b] => destruct (Z.ltb_spec a b)
  | |- context [Z.leb ?a ?b] => destruct (Z.leb_spec a b)
  | H : context [Z.eqb ?a ?b] |- _ => destruct (Z.eqb_spec a b)
  | H : context [Z.ltb ?a ?b] |- _ => destruct (Z.ltb_spec a b)
  | H : context [Z.leb ?a ?b] |- _ => destruct (Z.leb_spec a b)
  end.

(** ** Machine integers

    A [w]-bit C integer is a [Z]; conversions wrap explicitly. *)

Definition wrapu (w z : Z) : Z := z mod 2 ^ w.

Definition wraps (w z : Z) : Z := (z + 2 ^ (w - 1)) mod 2 ^ w - 2 ^ (w - 1).

Definition in_u (w z : Z) : Prop := 0 <= z < 2 ^ w.

Definition in_s (w z : Z) : Prop := - 2 ^ (w - 1) <= z < 2 ^ (w - 1).

(** [(int)z], [(long)z], [(unsigned char)z], [(char)z], ... *)
Definition to_int (z : Z) : Z := wraps 32 z.
Definition to_long (z : Z) : Z := wraps 64 z.
Definition to_uchar (z : Z) : Z := wrapu 8 z.
Definition to_char (z : Z) : Z := wraps 8 z.
Definition to_size_t (z : Z) : Z := wrapu 64 z.

Definition INT_MAX : Z := 2147483647.
Definition INT_MIN : Z := - 2147483648.
Definition LONG_MAX : Z := 9223372036854775807.
Definition LONG_MIN : Z := - 9223372036854775808.

Lemma wrapu_id w z : in_u w z -> wrapu w z = z.
Proof. unfold in_u, wrapu. intros. apply Z.mod_small. lia. Qed.

Lemma wrapu_range w z : 0 <= w -> in_u w (wrapu w z).
Proof.
  intros. unfold wrapu, in_u. apply Z.mod_pos_bound. apply Z.pow_pos_nonneg; lia.
Qed.

Lemma wraps_id w z : 0 < w -> in_s w z -> wraps w z = z.
Proof.
  unfold in_s, wraps. intros Hw Hz.
  assert (2 ^ w = 2 * 2 ^ (w - 1)).
  { rewrite <- (Z.pow_succ_r 2) by lia. f_equal. lia. }
  rewrite Z.mod_small by lia. lia.
Qed.

Lemma wraps_range w z : 0 < w -> in_s w (wraps w z).
Proof.
  intros Hw. unfold in_s, wraps.
  assert (2 ^ w = 2 * 2 ^ (w - 1)).
  { rewrite <- (Z.pow_succ_r 2) by lia. f_equal. lia. }
  pose proof (Z.pow_pos_nonneg 2 (w - 1)).
  pose proof (Z.mod_pos_bound (z + 2 ^ (w - 1)) (2 ^ w)). lia.
Qed.

Lemma to_int_id z : INT_MIN <= z <= INT_MAX -> to_int z = z.
Proof.
  unfold INT_MIN, INT_MAX, to_int. intros.
  apply wraps_id; [lia|]. unfold in_s. simpl. lia.
Qed.

Lemma to_int_range z : INT_MIN <= to_int z <= INT_MAX.
Proof.
  pose proof (wraps_range 32 z ltac:(lia)) as H.
  unfold in_s in H. simpl in H. unfold to_int, INT_MIN, INT_MAX. lia.
Qed.

Lemma to_uchar_id z : 0 <= z < 256 -> to_uchar z = z.
Proof. intros. apply wrapu_id. unfold in_u. lia. Qed.

Lemma to_char_id z : -128 <= z < 128 -> to_char z = z.
Proof. intros. apply wraps_id; [lia|]. unfold in_s. simpl. lia. Qed.

Lemma to_uchar_range z : 0 <= to_uchar z < 256.
Proof. apply (wrapu_range 8 z). lia. Qed.

Lemma to_char_uchar b : to_uchar (to_char b) = to_uchar b.
Proof.
  unfold to_char, to_uchar, wraps, wrapu. change (2 ^ (8 - 1)) with 128.
  change (2 ^ 8) with 256.
  rewrite Zminus_mod, Zmod_mod, <- Zminus_mod. f_equal. lia.
Qed.

Lemma to_uchar_char b : to_char (to_uchar b) = to_char b.
Proof.
  unfold to_char, to_uchar, wraps, wrapu. change (2 ^ (8 - 1)) with 128.
  change (2 ^ 8) with 256. rewrite Zplus_mod_idemp_l. reflexivity.
Qed.

#[export] Hint Rewrite to_char_uchar to_uchar_char : cbytes.
#[export] Hint Resolve to_int_id to_int_range wraps_range wrapu_range : cbytes.

Lemma div_pos_le d p : 0 <= d -> 0 < p -> 0 < d / p -> p <= d.
Proof.
  intros. destruct (Z.lt_ge_cases d p); [|done].
  rewrite Z.div_small in * by lia. lia.
Qed.

(** ** Lists indexed by [Z], as C arrays are *)

Definition zlen {A} (l : list A) : Z := Z.of_nat (length l).

Definition znth {A} (l : list A) (i : Z) : option A :=
  if i <? 0 then None else l !! Z.to_nat i.

Definition zset {A} (l : list A) (i : Z) (x : A) : list A :=
  if i <? 0 then l else <[Z.to_nat i := x]> l.

Definition ztake {A} (n : Z) (l : list A) : list A := take (Z.to_nat n) l.

Definition zdrop {A} (n : Z) (l : list A) : list A := drop (Z.to_nat n) l.

Lemma zlen_nonneg {A} (l : list A) : 0 <= zlen l.
Proof. unfold zlen. lia. Qed.

Lemma zlen_neg {A} (l : list A) : zlen l = -1 -> False.
Proof. unfold zlen. lia. Qed.

Lemma zlen_app {A} (l k : list A) : zlen (l ++ k) = zlen l + zlen k.
Proof. unfold zlen. rewrite length_app. lia. Qed.

Lemma zlen_cons {A} (x : A) (l : list A) : zlen (x :: l) = zlen l + 1.
Proof. unfold zlen. cbn [length]. lia. Qed.

Lemma zlen_nil {A} : zlen (@nil A) = 0.
Proof. reflexivity. Qed.

Lemma zlen_snoc {A} (l : list A) (x : A) : zlen (l ++ [x]) = zlen l + 1.
Proof. by rewrite zlen_app. Qed.

Lemma zlen_zset {A} (l : list A) i x : zlen (zset l i x) = zlen l.
Proof. unfold zset, zlen. destruct (i <? 0); [done|]. by rewrite length_insert. Qed.

Lemma zlen_ztake {A} (n : Z) (l : list A) : 0 <= n <= zlen l -> zlen (ztake n l) = n.
Proof. unfold zlen, ztake. rewrite length_take. lia. Qed.

Lemma zlen_zdrop {A} (n : Z) (l : list A) :
  0 <= n <= zlen l -> zlen (zdrop n l) = zlen l - n.
Proof. unfold zlen, zdrop. rewrite length_drop. lia. Qed.

Lemma zlen_0 {A} (l : list A) : zlen l = 0 -> l = [].
Proof. destruct l; [done|]. rewrite zlen_cons. pose proof (zlen_nonneg l). lia. Qed.

Lemma ztake_zdrop {A} (n : Z) (l : list A) : ztake n l ++ zdrop n l = l.
Proof. unfold ztake, zdrop. apply take_drop. Qed.

Lemma ztake_all {A} (n : Z) (l : list A) : zlen l <= n -> ztake n l = l.
Proof. unfold ztake, zlen. intros. apply take_ge. lia. Qed.

Lemma ztake_self {A} (n : Z) (l : list A) : ztake (zlen (ztake n l)) l = ztake n l.
Proof.
  unfold ztake, zlen. rewrite Nat2Z.id, length_take.
  destruct (Nat.min_spec (Z.to_nat n) (length l)) as [[_ ->]|[H ->]]; [done|].
  by rewrite !take_ge.
Qed.

Lemma zdrop_all {A} (n : Z) (l : list A) : zlen l <= n -> zdrop n l = [].
Proof. unfold zdrop, zlen. intros. apply drop_ge. lia. Qed.

Lemma zdrop_0 {A} (l : list A) : zdrop 0 l = l.
Proof. reflexivity. Qed.

Lemma zdrop_zdrop {A} (n m : Z) (l : list A) :
  0 <= n -> 0 <= m -> zdrop m (zdrop n l) = zdrop (n + m) l.
Proof. unfold zdrop. intros. rewrite drop_drop. f_equal. lia. Qed.

Lemma ztake_add {A} (n m : Z) (l : list A) :
  0 <= n -> 0 <= m -> ztake n l ++ ztake m (zdrop n l) = ztake (n + m) l.
Proof.
  unfold ztake, zdrop. intros. rewrite Z2Nat.inj_add by lia.
  by rewrite take_take_drop.
Qed.

Lemma znth_Some {A} (l : list A) i : 0 <= i < zlen l -> exists x, znth l i = Some x.
Proof.
  unfold znth, zlen. intros. destruct (Z.ltb_spec i 0); [lia|].
  apply lookup_lt_is_Some_2. lia.
Qed.

Lemma znth_zset_eq {A} (l : list A) i x :
  0 <= i < zlen l -> znth (zset l i x) i = Some x.
Proof.
  unfold znth, zset, zlen. intros. destruct (Z.ltb_spec i 0); [lia|].
  apply list_lookup_insert_eq. lia.
Qed.

Lemma znth_zset_ne {A} (l : list A) i j x :
  i <> j -> 0 <= i -> 0 <= j -> znth (zset l i x) j = znth l j.
Proof.
  unfold znth, zset. intros.
  destruct (Z.ltb_spec i 0); [lia|]. destruct (Z.ltb_spec j 0); [lia|].
  apply list_lookup_insert_ne. lia.
Qed.

#[export] Hint Rewrite @zlen_app @zlen_cons @zlen_nil @zlen_zset : cbytes.
#[export] Hint Resolve zlen_nonneg : cbytes.

Lemma znth_ext {A} (l k : list A) :
  zlen l = zlen k -> (forall i, 0 <= i < zlen l -> znth l i = znth k i) -> l = k.
Proof.
  unfold zlen, znth. intros Hl H. apply list_eq_same_length with (length l); [lia|lia|].
  intros i x y Hi Hx Hy. specialize (H (Z.of_nat i)).
  destruct (Z.ltb_spec (Z.of_nat i) 0); [lia|]. rewrite Nat2Z.id in H.
  rewrite H in Hx by lia. congruence.
Qed.

Lemma znth_app {A} (l k : list A) i :
  0 <= i -> znth (l ++ k) i = if i <? zlen l then znth l i else znth k (i - zlen l).
Proof.
  unfold znth, zlen. intros Hi. destruct (Z.ltb_spec i 0); [lia|].
  destruct (Z.ltb_spec i (Z.of_nat (length l))).
  - apply lookup_app_l. lia.
  - destruct (Z.ltb_spec (i - Z.of_nat (length l)) 0); [lia|].
    rewrite lookup_app_r by lia. f_equal. lia.
Qed.

Lemma znth_ztake {A} (l : list A) n i : 0 <= i < n -> znth (ztake n l) i = znth l i.
Proof.
  unfold znth, ztake. intros Hi. destruct (i <? 0); [done|]. apply lookup_take_lt. lia.
Qed.

Lemma znth_zdrop {A} (l : list A) n i : 0 <= i -> 0 <= n -> znth (zdrop n l) i = znth l (n + i).
Proof.
  unfold znth, zdrop. intros Hi Hn. destruct (Z.ltb_spec i 0); [lia|].
  destruct (Z.ltb_spec (n + i) 0); [lia|]. rewrite lookup_drop. f_equal. lia.
Qed.
