(* ===== verification/CMonad.v ===== *)
(** The C abstract machine the programs are written in.

    A C function is a state transformer over a [world]: the kernel (an abstract
    state [K] with a step function, class [Kernel]), the thread's [errno] and the
    trace of everything the process did that is visible outside it.  A function
    either returns ([Done]) or ends the process or leaves defined behaviour
    ([Halt]).  The kernel is a parameter: a theorem about a program holds for
    every kernel, or for every kernel that keeps the documented promises of
    POSIX (class [PosixKernel]). *)
From S2P Require Import Prelude.

(** ** Calls, answers, events *)

Inductive arg :=
| AI (z : Z)
| AS (s : string)
| AB (bs : list Z).

(** The calls a program makes.  The ones whose data the theorems follow have a
    constructor of their own; the others are named. *)
Inductive call :=
| Cread (fd n : Z)
| Cwrite (fd : Z) (data : list Z)
| Copen (path : string) (flags mode : Z)
| Cclose (fd : Z)
| Cmalloc (n : Z)
| Cfree (p : Z)
| Csys (fn : string) (args : list arg).

(** What a call gives back: its return value, the error number it sets when it
    fails, and the data it stores through its pointer arguments. *)
Record resp := Resp { ret : Z; err : Z; out : list Z }.

Inductive stream := stdout | stderr.

Inductive event :=
| EvCall (c : call) (r : resp)
| EvOut (s : stream) (txt : string)
| EvPerror (msg : string) (eno : Z)
| EvFlush (s : stream).

#[export] Instance arg_eq_dec : EqDecision arg.
Proof. solve_decision. Defined.
#[export] Instance call_eq_dec : EqDecision call.
Proof. solve_decision. Defined.
#[export] Instance resp_eq_dec : EqDecision resp.
Proof. solve_decision. Defined.
#[export] Instance stream_eq_dec : EqDecision stream.
Proof. solve_decision. Defined.
#[export] Instance event_eq_dec : EqDecision event.
Proof. solve_decision. Defined.

(** Undefined behaviour the programs can run into. *)
Inductive ub :=
| UB_bounds (obj : string) (idx : Z)
| UB_uninit (obj : string) (idx : Z)
| UB_overflow (what : string)
| UB_null (obj : string).

Inductive halt :=
| HExit (code : Z)
| H_exit (code : Z)
| HExec (file : option string) (argv : list string)
| HAbort
| HKilled (sig : Z)
| HThreadExit
| HUB (u : ub)
| HFuel.

Inductive outcome (A : Type) :=
| Done (a : A)
| Halt (h : halt).
Arguments Done {A} a.
Arguments Halt {A} h.

Definition EINTR : Z := 4.
Definition EIO : Z := 5.
Definition EBADF : Z := 9.
Definition EAGAIN : Z := 11.
Definition ENOMEM : Z := 12.
Definition EEXIST : Z := 17.
Definition EINVAL : Z := 22.
Definition ETIME : Z := 62.

(** Functions that return a pointer report failure with NULL; the pthread
    functions, [getaddrinfo], [getpwnam_r] and [sigwait] return an error number and leave
    [errno] alone; every other call returns -1. *)
Definition ptr_calls : list string :=
  ["popen"; "fopen"; "fgets"; "getpwnam"; "sem_open"; "getenv"; "calloc"].

Definition code_calls : list string :=
  ["getaddrinfo"; "pthread_create"; "pthread_join"; "pthread_sigmask";
   "pthread_mutex_lock"; "pthread_mutex_unlock"; "pthread_attr_init";
   "pthread_attr_setdetachstate"; "pthread_attr_setstacksize"; "pthread_detach";
   "pthread_mutex_init"; "pthread_cond_init"; "pthread_attr_destroy";
   "pthread_mutex_destroy"; "pthread_cond_destroy"; "getpwnam_r"; "sigwait";
   "pthread_setschedparam"; "pthread_attr_getdetachstate"; "pthread_attr_getscope";
   "pthread_attr_getinheritsched"; "pthread_attr_getschedpolicy"; "pthread_attr_getschedparam";
   "pthread_attr_getguardsize"; "pthread_attr_getstack"; "pthread_attr_getstacksize";
   "pthread_attr_setinheritsched"; "pthread_attr_setstack"; "pthread_getattr_np";
   "posix_memalign"; "pthread_cancel"].

Definition call_failed (c : call) (r : Z) : bool :=
  match c with
  | Cmalloc _ => r =? 0
  | Cfree _ => false
  | Csys fn _ =>
      if decide (fn ∈ ptr_calls) then r =? 0
      else if decide (fn ∈ code_calls) then false
      else r =? -1
  | _ => r =? -1
  end.

(** ** Kernels *)

Class Kernel (K : Type) := kstep : call -> K -> resp * K.

Record world (K : Type) := World { kern : K; errno : Z; trace : list event }.
Arguments World {K} _ _ _.
Arguments kern {K} _.
Arguments errno {K} _.
Arguments trace {K} _.

Definition byte_ok (b : Z) : Prop := 0 <= b < 256.

(** What POSIX documents of the calls above: [read] stores as many bytes as it
    returns and never more than asked, [write] accepts a prefix, [open] returns
    a descriptor or -1, a failing call sets a positive error number. *)
Definition resp_ok (c : call) (r : resp) : Prop :=
  (call_failed c (ret r) = true -> 0 < err r) /\
  match c with
  | Cread _ n =>
      ret r = -1 \/ (0 <= ret r <= n /\ zlen (out r) = ret r /\ Forall byte_ok (out r))
  | Cwrite _ d => ret r = -1 \/ 0 <= ret r <= zlen d
  | Copen _ _ _ => -1 <= ret r
  | Cclose _ => ret r = -1 \/ ret r = 0
  | Cmalloc _ => 0 <= ret r
  | _ => True
  end.

Class PosixKernel (K : Type) {HK : Kernel K} :=
  kstep_ok : forall c k, resp_ok c (fst (kstep c k)).

Lemma kstep_resp_ok {K} `{PosixKernel K} c (k : K) r k' : kstep c k = (r, k') -> resp_ok c r.
Proof. intros E. pose proof (kstep_ok c k) as H'. by rewrite E in H'. Qed.

(** A kernel with some of its answers fixed in advance. *)
Definition override {K} (answer : call -> option resp) (HK : Kernel K) : Kernel K :=
  fun c k => match answer c with Some r => (r, k) | None => HK c k end.

Lemma override_posix {K} (answer : call -> option resp) (HK : Kernel K) :
  @PosixKernel K HK -> (forall c r, answer c = Some r -> resp_ok c r) ->
  @PosixKernel K (override answer HK).
Proof.
  intros HP Ha c k. unfold kstep, override. destruct (answer c) as [r|] eqn:E; [by apply Ha|].
  apply (@kstep_ok K HK HP).
Qed.

(** A kernel that answers from a script, used to run programs on concrete
    inputs; past the end every call fails with EIO. *)
Definition script := list resp.

#[export] Instance script_kernel : Kernel script :=
  fun c k => match k with
             | r :: k' => (r, k')
             | [] => (Resp (if call_failed c 0 then 0 else -1) EIO [], [])
             end.

(** ** The monad *)

Definition C (K A : Type) : Type := world K -> outcome A * world K.

#[export] Instance C_ret K : MRet (C K) := fun A a w => (Done a, w).
#[export] Instance C_bind K : MBind (C K) :=
  fun A B f m w =>
    match m w with
    | (Done a, w') => f a w'
    | (Halt h, w') => (Halt h, w')
    end.

Section Operations.
Context {K : Type} {HK : Kernel K}.

Definition halt_with {A} (h : halt) : C K A := fun w => (Halt h, w).

Definition exit {A} (code : Z) : C K A := halt_with (HExit code).

Definition undefined {A} (u : ub) : C K A := halt_with (HUB u).

Definition emit (e : event) : C K unit :=
  fun w => (Done tt, World (kern w) (errno w) (trace w ++ [e])).

Definition get_errno : C K Z := fun w => (Done (errno w), w).

Definition set_errno (e : Z) : C K unit :=
  fun w => (Done tt, World (kern w) e (trace w)).

(** The world after the kernel answered [r] to [c] and went to [k]. *)
Definition after (c : call) (r : resp) (k : K) (w : world K) : world K :=
  World k (if call_failed c (ret r) then err r else errno w)
        (trace w ++ [EvCall c r]).

Definition syscall (c : call) : C K resp :=
  fun w => let '(r, k) := kstep c (kern w) in (Done r, after c r k w).

Definition sys (fn : string) (args : list arg) : C K Z :=
  r ← syscall (Csys fn args); mret (ret r).

Definition printf (txt : string) : C K unit := emit (EvOut stdout txt).

Definition fprintf (s : stream) (txt : string) : C K unit := emit (EvOut s txt).

Definition fflush (s : stream) : C K unit := emit (EvFlush s).

Definition perror (msg : string) : C K unit :=
  e ← get_errno; emit (EvPerror msg e).

(** [while]: run [body] until it breaks with [inr]; [fuel] bounds the number of
    iterations of the model. *)
Fixpoint loop {S R} (fuel : nat) (body : S -> C K (S + R)) (s : S) : C K R :=
  match fuel with
  | O => halt_with HFuel
  | S fuel' =>
      x ← body s;
      match x with
      | inl s' => loop fuel' body s'
      | inr r => mret r
      end
  end.

Definition when (b : bool) (m : C K unit) : C K unit :=
  if b then m else mret tt.

End Operations.

(** ** Weakest preconditions *)

Definition wp {K A} (m : C K A) (Q : outcome A -> world K -> Prop) (w : world K) : Prop :=
  Q (fst (m w)) (snd (m w)).

(** A postcondition on normal return only; [H] judges the ways of halting. *)
Definition post {K A} (R : A -> world K -> Prop) (H : halt -> world K -> Prop)
    (o : outcome A) (w : world K) : Prop :=
  match o with Done a => R a w | Halt h => H h w end.

Section Wp.
Context {K : Type} {HK : Kernel K}.

Lemma wp_mono {A} (m : C K A) (Q Q' : outcome A -> world K -> Prop) w :
  (forall o w', Q o w' -> Q' o w') -> wp m Q w -> wp m Q' w.
Proof. unfold wp. auto. Qed.

(** The result of running, from its weakest precondition. *)
Lemma wp_run {A} (m : C K A) (Q : outcome A -> world K -> Prop) w :
  wp m Q w -> exists o w', m w = (o, w') /\ Q o w'.
Proof. unfold wp. destruct (m w) as [o w']. eauto. Qed.

(** A run and what it adds to the trace. *)
Lemma wp_trace {A} (m : C K A) (P : outcome A -> list event -> Prop) (w : world K) :
  wp m (fun o w' => exists tr, trace w' = trace w ++ tr /\ P o tr) w ->
  exists o w' tr, m w = (o, w') /\ trace w' = trace w ++ tr /\ P o tr.
Proof. intros (o & w' & E & tr & H)%wp_run. by exists o, w', tr. Qed.

(** The run adds to the trace of [w] what [P] says. *)
Definition adds {A} (w : world K) (P : outcome A -> list event -> Prop) : outcome A -> world K -> Prop :=
  fun o w' => exists tr, trace w' = trace w ++ tr /\ P o tr.

Lemma wp_adds {A} (m : C K A) P w (Q : outcome A -> world K -> Prop) :
  wp m (adds w P) w -> (forall o w' tr, trace w' = trace w ++ tr -> P o tr -> Q o w') -> wp m Q w.
Proof. intros Hm HQ. eapply wp_mono; [|exact Hm]. intros o w' (tr & E & HP). eauto. Qed.

Lemma wp_run_eq {A} (m : C K A) o w' w :
  wp m (fun o1 w1 => o1 = o /\ w1 = w') w -> m w = (o, w').
Proof. intros (? & ? & -> & -> & ->)%wp_run. done. Qed.

Lemma wp_of_run {A} (m : C K A) o w' (Q : outcome A -> world K -> Prop) w :
  m w = (o, w') -> Q o w' -> wp m Q w.
Proof. unfold wp. by intros ->. Qed.

Lemma wp_ret {A} (a : A) (Q : outcome A -> world K -> Prop) w :
  Q (Done a) w -> wp (mret a) Q w.
Proof. done. Qed.

Lemma wp_bind {A B} (m : C K A) (f : A -> C K B) Q w :
  wp m (post (fun a w' => wp (f a) Q w') (fun h w' => Q (Halt h) w')) w ->
  wp (m ≫= f) Q w.
Proof.
  unfold wp, post, mbind, C_bind. destruct (m w) as [[a|h] w']; auto.
Qed.

Lemma wp_halt {A} h (Q : outcome A -> world K -> Prop) w :
  Q (Halt h) w -> wp (halt_with h) Q w.
Proof. done. Qed.

Lemma wp_exit {A} c (Q : outcome A -> world K -> Prop) w :
  Q (Halt (HExit c)) w -> wp (exit c) Q w.
Proof. done. Qed.

Lemma wp_emit e (Q : outcome unit -> world K -> Prop) w :
  Q (Done tt) (World (kern w) (errno w) (trace w ++ [e])) -> wp (emit e) Q w.
Proof. done. Qed.

Lemma wp_syscall c (Q : outcome resp -> world K -> Prop) w :
  (forall r k, kstep c (kern w) = (r, k) -> Q (Done r) (after c r k w)) ->
  wp (syscall c) Q w.
Proof. unfold wp, syscall. destruct (kstep c (kern w)) as [r k]. simpl. auto. Qed.

Lemma wp_syscall_posix `{!PosixKernel K} c (Q : outcome resp -> world K -> Prop) w :
  (forall r k, resp_ok c r -> kstep c (kern w) = (r, k) -> Q (Done r) (after c r k w)) ->
  wp (syscall c) Q w.
Proof.
  intros HQ. apply wp_syscall. intros r k E. apply HQ; [|done].
  pose proof (kstep_ok c (kern w)) as H. by rewrite E in H.
Qed.

Lemma wp_get_errno (Q : outcome Z -> world K -> Prop) w :
  Q (Done (errno w)) w -> wp get_errno Q w.
Proof. done. Qed.

Lemma wp_set_errno e (Q : outcome unit -> world K -> Prop) w :
  Q (Done tt) (World (kern w) e (trace w)) -> wp (set_errno e) Q w.
Proof. done. Qed.

(** Partial correctness of a loop: an invariant [I] that the body keeps until it
    breaks; running out of fuel is one of the outcomes. *)
Lemma wp_loop {S R} (I : S -> world K -> Prop) (Q : outcome R -> world K -> Prop)
    (body : S -> C K (S + R)) :
  (forall s w, I s w -> Q (Halt HFuel) w) ->
  (forall s w, I s w ->
     wp (body s) (post (fun x w' => match x with
                                    | inl s' => I s' w'
                                    | inr r => Q (Done r) w'
                                    end)
                       (fun h w' => Q (Halt h) w')) w) ->
  forall fuel s w, I s w -> wp (loop fuel body s) Q w.
Proof.
  intros HF HB fuel. induction fuel as [|fuel IH]; intros s w HI; simpl.
  - apply wp_halt. eauto.
  - apply wp_bind. eapply wp_mono; [|apply HB, HI].
    by intros [[s'|r]|h] w' H; simpl in *; auto.
Qed.

(** Total correctness: a measure that every iteration that continues decreases,
    and that the fuel exceeds. *)
Lemma wp_loop_total {S R} (I : S -> world K -> Prop) (m : S -> world K -> nat)
    (Q : outcome R -> world K -> Prop) (body : S -> C K (S + R)) :
  (forall s w, I s w ->
     wp (body s) (post (fun x w' => match x with
                                    | inl s' => I s' w' /\ (m s' w' < m s w)%nat
                                    | inr r => Q (Done r) w'
                                    end)
                       (fun h w' => Q (Halt h) w')) w) ->
  forall fuel s w, I s w -> (m s w < fuel)%nat -> wp (loop fuel body s) Q w.
Proof.
  intros HB fuel. induction fuel as [|fuel IH]; intros s w HI Hm; simpl; [lia|].
  apply wp_bind. eapply wp_mono; [|apply HB, HI].
  intros [[s'|r]|h] w' H; simpl in *; auto.
  destruct H. apply IH; [done|lia].
Qed.

(** Printing changes neither the kernel nor [errno]. *)
Definition prints_only (m : C K unit) : Prop :=
  forall w, exists tr, m w = (Done tt, World (kern w) (errno w) (trace w ++ tr)).

Lemma wp_prints_only m (Q : outcome unit -> world K -> Prop) w :
  prints_only m -> (forall tr, Q (Done tt) (World (kern w) (errno w) (trace w ++ tr))) -> wp m Q w.
Proof. intros Hm HQ. destruct (Hm w) as (tr & E). unfold wp. rewrite E. apply HQ. Qed.

Lemma prints_only_ret : prints_only (mret tt).
Proof. intros [k e tr]. exists []. cbn [kern errno trace]. by rewrite app_nil_r. Qed.

Lemma prints_only_emit ev : prints_only (emit ev).
Proof. intros w. by exists [ev]. Qed.

Lemma prints_only_bind m f : prints_only m -> prints_only f -> prints_only (m ;; f).
Proof.
  intros Hm Hf w. destruct (Hm w) as (tr & E). unfold mbind, C_bind. rewrite E.
  destruct (Hf (World (kern w) (errno w) (trace w ++ tr))) as (tr' & E'). rewrite E'.
  exists (tr ++ tr'). cbn [kern errno trace]. by rewrite app_assoc.
Qed.

Lemma prints_only_when b m : prints_only m -> prints_only (when b m).
Proof. destruct b; [done|]. intros _. apply prints_only_ret. Qed.

End Wp.

(** One step of symbolic execution; [wp_go] runs to the next loop or
    hand-written specification, splitting on the conditions it meets. *)
Ltac wp_step1 :=
  match goal with
  | |- wp (_ ≫= _) _ _ => apply wp_bind
  | |- wp (mret _) _ _ => apply wp_ret
  | |- wp (halt_with _) _ _ => apply wp_halt
  | |- wp (exit _) _ _ => apply wp_exit
  | |- wp (undefined _) _ _ => apply wp_halt
  | |- wp (emit _) _ _ => apply wp_emit
  | |- wp (printf _) _ _ => apply wp_emit
  | |- wp (fprintf _ _) _ _ => apply wp_emit
  | |- wp (fflush _) _ _ => apply wp_emit
  | |- wp get_errno _ _ => apply wp_get_errno
  | |- wp (set_errno _) _ _ => apply wp_set_errno
  | |- wp (perror _) _ _ => unfold perror
  | |- wp (sys _ _) _ _ => unfold sys
  | |- wp (when _ _) _ _ => unfold when
  | |- wp (syscall _) _ _ =>
      let r := fresh "r" in let k := fresh "k" in let E := fresh "Hk" in
      apply wp_syscall; intros r k E
  | |- wp (if true then _ else _) _ _ => cbv iota
  | |- wp (if false then _ else _) _ _ => cbv iota
  | |- wp (if ?b then _ else _) _ _ => let E := fresh "Hb" in destruct b eqn:E
  | |- wp (match ?x with _ => _ end) _ _ => let E := fresh "Hm" in destruct x eqn:E
  | |- post _ _ _ _ => cbn [post]
  end.

Ltac wp_step := wp_step1; cbn [post].

Ltac wp_go := repeat wp_step.

(** Decide which return value of a given call means failure. *)
Ltac failed_simp :=
  repeat match goal with
  | |- context [call_failed ?c ?z] =>
      first [ change (call_failed c z) with (z =? -1)
            | change (call_failed c z) with (z =? 0)
            | change (call_failed c z) with false ]
  | H : context [call_failed ?c ?z] |- _ =>
      first [ change (call_failed c z) with (z =? -1) in H
            | change (call_failed c z) with (z =? 0) in H
            | change (call_failed c z) with false in H ]
  end.

(** Read [errno], the kernel and the trace of a world built by [after]. *)
Ltac world_simp :=
  cbn [after errno kern trace] in *; failed_simp.

(** Run to the next branch. *)
Ltac wp_seq :=
  repeat lazymatch goal with
         | |- wp (if true then _ else _) _ _ => wp_step
         | |- wp (if false then _ else _) _ _ => wp_step
         | |- wp (match _ with _ => _ end) _ _ => fail
         | _ => wp_step
         end.

(** Run to the next branch or the next call. *)
Ltac wp_call :=
  repeat lazymatch goal with
         | |- wp (if true then _ else _) _ _ => wp_step
         | |- wp (if false then _ else _) _ _ => wp_step
         | |- wp (match _ with _ => _ end) _ _ => fail
         | |- wp (syscall _) _ _ => fail
         | _ => wp_step
         end.

(** The trace of a finished run, as an extension of the initial one. *)
Ltac leaf :=
  eexists; split; [cbn [after trace]; rewrite <- ?app_assoc; reflexivity|].

(** A member of a literal list of events. *)
Ltac ev_in :=
  cbn [app]; repeat first [by apply list_elem_of_here | apply list_elem_of_further].
