(* ===== verification/CLib.v ===== *)
(** The part of the C library the programs use: text and its conversions,
    printf's conversions, C strings, [atoi], and memory objects (arrays and
    malloc'd blocks) with their bounds. *)
From S2P Require Import Prelude CMonad.

(** ** Text *)

Definition cat (l : list string) : string := foldr String.append EmptyString l.

Definition chr (c : Z) : string :=
  String (Ascii.ascii_of_N (Z.to_N (to_uchar c))) EmptyString.

Definition nl : string := chr 10.
Definition tab : string := chr 9.
Definition dquote : string := chr 34.

Definition strlen (s : string) : Z := Z.of_nat (String.length s).

Definition byte_of_ascii (a : Ascii.ascii) : Z := Z.of_N (Ascii.N_of_ascii a).

Fixpoint bytes_of (s : string) : list Z :=
  match s with
  | EmptyString => []
  | String a s' => byte_of_ascii a :: bytes_of s'
  end.

Fixpoint text_of (bs : list Z) : string :=
  match bs with
  | [] => EmptyString
  | b :: bs' => String (Ascii.ascii_of_N (Z.to_N (to_uchar b))) (text_of bs')
  end.

(** ** printf's conversions *)

Fixpoint rep (n : nat) (c : Z) : string :=
  match n with O => EmptyString | S n' => chr c +:+ rep n' c end.

Definition padl (c : Z) (w : nat) (s : string) : string :=
  rep (w - String.length s) c +:+ s.

(** [%d], [%6d], [%06d] *)
Definition fmt_d (z : Z) : string := pretty z.

Definition fmt_wd (w : nat) (z : Z) : string := padl 32 w (fmt_d z).

Definition fmt_0wd (w : nat) (z : Z) : string :=
  if z <? 0 then "-" +:+ padl 48 (w - 1) (fmt_d (- z)) else padl 48 w (fmt_d z).

Definition hexdigit (d : Z) : Z := if d <? 10 then 48 + d else 87 + d.

Fixpoint hex_digits (fuel : nat) (z : Z) : list Z :=
  match fuel with
  | O => []
  | S fuel' => (if z / 16 =? 0 then [] else hex_digits fuel' (z / 16)) ++ [hexdigit (z mod 16)]
  end.

(** [%x] of an unsigned int (at most eight digits), [%02x], [%04x] *)
Definition fmt_x (z : Z) : list Z := hex_digits 8 (wrapu 32 z).

Definition fmt_0wx (w : nat) (z : Z) : list Z :=
  replicate (w - length (fmt_x z)) 48 ++ fmt_x z.

(** [%p] *)
Definition fmt_p (p : Z) : string :=
  if p =? 0 then "(nil)" else "0x" +:+ text_of (hex_digits 16 (wrapu 64 p)).

(** [snprintf(buf, n, ...)] keeps at most [n - 1] characters. *)
Definition snprintf (n : Z) (s : string) : string := String.substring 0 (Z.to_nat (n - 1)) s.

(** ** C strings *)

Fixpoint strncmp (n : nat) (a b : string) : Z :=
  match n with
  | O => 0
  | S n' =>
      match a, b with
      | EmptyString, EmptyString => 0
      | EmptyString, String y _ => - byte_of_ascii y
      | String x _, EmptyString => byte_of_ascii x
      | String x a', String y b' =>
          if byte_of_ascii x =? byte_of_ascii y then strncmp n' a' b'
          else byte_of_ascii x - byte_of_ascii y
      end
  end.

Definition strcmp (a b : string) : Z :=
  strncmp (S (String.length a + String.length b)) a b.

Definition argc (argv : list string) : Z := zlen argv.

Definition arg_n (argv : list string) (i : nat) : string := nth i argv EmptyString.

Definition isspace (c : Z) : bool := (c =? 32) || ((9 <=? c) && (c <=? 13)).

Definition isdigit (c : Z) : bool := (48 <=? c) && (c <=? 57).

Definition tolower (c : Z) : Z := if (65 <=? c) && (c <=? 90) then c + 32 else c.

Fixpoint skip_space (bs : list Z) : list Z :=
  match bs with
  | b :: bs' => if isspace b then skip_space bs' else bs
  | [] => []
  end.

Fixpoint digits_val (acc : Z) (bs : list Z) : Z :=
  match bs with
  | b :: bs' => if isdigit b then digits_val (10 * acc + (b - 48)) bs' else acc
  | [] => acc
  end.

(** [strtol(s, NULL, 10)]: saturates at the bounds of [long]. *)
Definition strtol10 (s : string) : Z :=
  let clamp z := Z.max LONG_MIN (Z.min LONG_MAX z) in
  match skip_space (bytes_of s) with
  | 45 :: ds => clamp (- digits_val 0 ds)
  | 43 :: ds => clamp (digits_val 0 ds)
  | ds => clamp (digits_val 0 ds)
  end.

Definition atol (s : string) : Z := strtol10 s.

Definition atoi (s : string) : Z := to_int (strtol10 s).

(** ** Memory objects

    A byte of an object is [None] until it is written. *)

Definition mem := list (option Z).

Definition uninit (n : Z) : mem := replicate (Z.to_nat n) None.

Definition init (bs : list Z) : mem := map Some bs.

(** The macros of <sys/wait.h> on a wait status. *)
Definition WIFEXITED (stat : Z) : bool := Z.land stat 127 =? 0.
Definition WEXITSTATUS (stat : Z) : Z := Z.shiftr (Z.land stat 65280) 8.
Definition WIFSIGNALED (stat : Z) : bool :=
  0 <? Z.shiftr (to_char (Z.land stat 127 + 1)) 1.
Definition WTERMSIG (stat : Z) : Z := Z.land stat 127.
Definition WIFSTOPPED (stat : Z) : bool := Z.land stat 255 =? 127.
Definition WSTOPSIG (stat : Z) : Z := WEXITSTATUS stat.
Definition WCOREDUMP (stat : Z) : bool := negb (Z.land stat 128 =? 0).
Definition WIFCONTINUED (stat : Z) : bool := stat =? 65535.

Section Memory.
Context {K : Type}.

(** [obj[i]] and [obj[i] = v]: undefined outside the object, and undefined when
    an unwritten byte is read. *)
Definition rd (obj : string) (m : mem) (i : Z) : C K Z :=
  match znth m i with
  | None => undefined (UB_bounds obj i)
  | Some None => undefined (UB_uninit obj i)
  | Some (Some b) => mret b
  end.

Definition wr (obj : string) (m : mem) (i : Z) (v : Z) : C K mem :=
  match znth m i with
  | None => undefined (UB_bounds obj i)
  | Some _ => mret (zset m i (Some v))
  end.

(** [memcpy(obj + off, bs, |bs|)] *)
Definition blit (m : mem) (off : Z) (bs : list Z) : mem :=
  ztake off m ++ init bs ++ zdrop (off + zlen bs) m.

Definition copy_in (obj : string) (m : mem) (off : Z) (bs : list Z) : C K mem :=
  if (off <? 0) || (zlen m <? off + zlen bs)
  then undefined (UB_bounds obj (off + zlen bs - 1))
  else mret (blit m off bs).

(** [memset(obj + off, c, n)] *)
Definition memset (obj : string) (m : mem) (off c n : Z) : C K mem :=
  copy_in obj m off (replicate (Z.to_nat n) c).

(** The bytes of the C string that starts at [off]. *)
Fixpoint cstr_of (m : mem) : option (list Z) :=
  match m with
  | [] | None :: _ => None
  | Some b :: m' => if b =? 0 then Some [] else (b ::.) <$> cstr_of m'
  end.

Definition cstr (obj : string) (m : mem) (off : Z) : C K (list Z) :=
  match cstr_of (zdrop off m) with
  | Some bs => mret bs
  | None => undefined (UB_bounds obj (zlen m))
  end.

End Memory.

(** ** Lemmas *)

Lemma byte_of_ascii_range a : byte_ok (byte_of_ascii a).
Proof.
  unfold byte_ok, byte_of_ascii. pose proof (Ascii.N_ascii_bounded a). lia.
Qed.

Lemma bytes_of_range s : Forall byte_ok (bytes_of s).
Proof. induction s; simpl; constructor; auto using byte_of_ascii_range. Qed.

Lemma zlen_bytes_of s : zlen (bytes_of s) = strlen s.
Proof. unfold zlen, strlen. f_equal.
  induction s as [|a s IH]; [done|]. cbn [bytes_of length String.length]. by rewrite IH.
Qed.

Lemma bytes_of_app s t : bytes_of (s +:+ t) = bytes_of s ++ bytes_of t.
Proof.
  induction s as [|a s IH]; [done|].
  change (String a s +:+ t) with (String a (s +:+ t)). cbn [bytes_of app]. by rewrite IH.
Qed.

Lemma text_of_app bs cs : text_of (bs ++ cs) = text_of bs +:+ text_of cs.
Proof.
  induction bs as [|b bs IH]; [done|]. cbn [text_of app]. by rewrite IH.
Qed.

Lemma text_of_bytes_of s : text_of (bytes_of s) = s.
Proof.
  induction s as [|a s IH]; [done|]. cbn [bytes_of text_of]. rewrite IH. f_equal.
  pose proof (byte_of_ascii_range a) as H. unfold byte_ok in H.
  rewrite to_uchar_id by lia.
  unfold byte_of_ascii. rewrite N2Z.id. apply Ascii.ascii_N_embedding.
Qed.

Lemma bytes_of_text_of bs : Forall byte_ok bs -> bytes_of (text_of bs) = bs.
Proof.
  induction 1 as [|b bs Hb _ IH]; [done|]. cbn [bytes_of text_of]. rewrite IH. f_equal.
  unfold byte_ok in Hb. rewrite to_uchar_id by lia. unfold byte_of_ascii.
  rewrite Ascii.N_ascii_embedding by lia. lia.
Qed.

Lemma strlen_app a b : strlen (a +:+ b) = strlen a + strlen b.
Proof. rewrite <- !zlen_bytes_of, bytes_of_app. apply zlen_app. Qed.

Lemma strlen_nonneg s : 0 <= strlen s.
Proof. unfold strlen. lia. Qed.

Lemma substring_all n s : (String.length s <= n)%nat -> String.substring 0 n s = s.
Proof.
  revert n. induction s as [|a s IH]; intros [|n]; cbn; try done; [lia|].
  intros. by rewrite IH by lia.
Qed.

Lemma strlen_substring n s : strlen (String.substring 0 n s) <= Z.of_nat n.
Proof.
  unfold strlen. revert n. induction s as [|a s IH]; intros [|n]; cbn; try lia.
  specialize (IH n). lia.
Qed.

Lemma snprintf_all n s : strlen s < n -> snprintf n s = s.
Proof. unfold snprintf, strlen. intros. apply substring_all. lia. Qed.

Lemma byte_of_ascii_inj a b : byte_of_ascii a = byte_of_ascii b -> a = b.
Proof.
  unfold byte_of_ascii. intros H%N2Z.inj.
  rewrite <- (Ascii.ascii_N_embedding a), <- (Ascii.ascii_N_embedding b). by f_equal.
Qed.

(** [strncmp] with a bound that covers both strings decides equality (the
    strings hold no NUL). *)
Definition no_nul (s : string) : Prop := Forall (fun b => b <> 0) (bytes_of s).

Lemma strncmp_eq n a b :
  no_nul a -> no_nul b -> (String.length a < n)%nat -> strncmp n a b = 0 <-> a = b.
Proof.
  revert a b. induction n as [|n IH]; intros a b Ha Hb Hn; [lia|].
  destruct a as [|x a], b as [|y b]; cbn [strncmp].
  - done.
  - inversion Hb; subst. split; [lia|done].
  - inversion Ha; subst. split; [lia|done].
  - inversion Ha; inversion Hb; subst. cbn in Hn.
    destruct (Z.eqb_spec (byte_of_ascii x) (byte_of_ascii y)) as [E|E].
    + rewrite IH by (auto; lia). apply byte_of_ascii_inj in E. subst. split; [by intros ->|by intros [= ->]].
    + split; [lia|]. congruence.
Qed.

Lemma strcmp_eq a b : no_nul a -> no_nul b -> strcmp a b = 0 <-> a = b.
Proof. intros. apply strncmp_eq; [done..|lia]. Qed.

Lemma init_app a b : init (a ++ b) = init a ++ init b.
Proof. apply map_app. Qed.

Lemma length_init bs : length (init bs) = length bs.
Proof. apply length_map. Qed.

Lemma zlen_init bs : zlen (init bs) = zlen bs.
Proof. unfold zlen. by rewrite length_init. Qed.

Lemma znth_init bs i b : znth bs i = Some b -> znth (init bs) i = Some (Some b).
Proof.
  unfold znth, init. destruct (i <? 0); [done|]. intros E. by rewrite list_lookup_fmap, E.
Qed.

Lemma zlen_uninit n : 0 <= n -> zlen (uninit n) = n.
Proof. unfold zlen, uninit. rewrite length_replicate. lia. Qed.

Lemma zlen_replicate {A} n (x : A) : zlen (replicate n x) = Z.of_nat n.
Proof. unfold zlen. by rewrite length_replicate. Qed.

Lemma zlen_blit m off bs :
  0 <= off -> off + zlen bs <= zlen m -> zlen (blit m off bs) = zlen m.
Proof.
  intros. pose proof (zlen_nonneg bs). unfold blit.
  rewrite !zlen_app, zlen_init, zlen_ztake, zlen_zdrop by lia. lia.
Qed.

#[export] Hint Rewrite zlen_init @zlen_replicate : cbytes.

(** Byte [i] of a block after a copy into it. *)
Lemma znth_blit m off bs i :
  0 <= off -> off + zlen bs <= zlen m -> 0 <= i ->
  znth (blit m off bs) i =
    if (off <=? i) && (i <? off + zlen bs) then Some <$> znth bs (i - off) else znth m i.
Proof.
  intros Ho Hl Hi. pose proof (zlen_nonneg bs). unfold blit.
  rewrite znth_app, zlen_ztake by lia.
  destruct (Z.ltb_spec i off) as [H1|H1].
  { rewrite znth_ztake by lia. by destruct (Z.leb_spec off i); [lia|]. }
  rewrite znth_app, zlen_init by lia.
  destruct (Z.leb_spec off i); [|lia]. cbn [andb].
  destruct (Z.ltb_spec (i - off) (zlen bs)); destruct (Z.ltb_spec i (off + zlen bs)); try lia.
  - unfold znth, init. destruct (i - off <? 0); [done|]. apply list_lookup_fmap.
  - rewrite znth_zdrop by lia. f_equal. lia.
Qed.

(** *** Objects filled from the front

    [overlay xs m] is [m] with its first bytes overwritten by [xs]: the shape of
    every buffer the programs fill left to right. *)
Definition overlay (xs : list Z) (m : mem) : mem := init xs ++ drop (length xs) m.

Lemma overlay_nil m : overlay [] m = m.
Proof. reflexivity. Qed.

Lemma zlen_overlay xs m : zlen xs <= zlen m -> zlen (overlay xs m) = zlen m.
Proof.
  unfold overlay, zlen. intros. rewrite length_app, length_init, length_drop. lia.
Qed.

Lemma znth_overlay xs m i x :
  znth xs i = Some x -> znth (overlay xs m) i = Some (Some x).
Proof.
  unfold znth, overlay, init. destruct (i <? 0); [done|]. intros H.
  rewrite lookup_app_l.
  - by rewrite list_lookup_fmap, H.
  - rewrite length_fmap. by eapply lookup_lt_Some.
Qed.

Lemma zset_overlay xs m v :
  zlen xs < zlen m -> zset (overlay xs m) (zlen xs) (Some v) = overlay (xs ++ [v]) m.
Proof.
  unfold zset, overlay, zlen. intros H.
  destruct (Z.ltb_spec (Z.of_nat (length xs)) 0); [lia|].
  rewrite Nat2Z.id. unfold init. rewrite map_app, length_app, Nat.add_1_r.
  rewrite insert_app_r_alt by (rewrite length_map; lia). rewrite length_map, Nat.sub_diag.
  destruct (drop (length xs) m) as [|o l] eqn:E.
  { apply (f_equal length) in E. rewrite length_drop in E. simpl in E. lia. }
  rewrite <- app_assoc. simpl. do 2 f_equal.
  apply (f_equal (drop 1)) in E. by rewrite drop_drop, Nat.add_1_r in E.
Qed.

Lemma overlay_blit xs bs m :
  zlen xs + zlen bs <= zlen m ->
  blit (overlay xs m) (zlen xs) bs = overlay (xs ++ bs) m.
Proof.
  intros. unfold blit, overlay, ztake, zdrop, zlen in *.
  rewrite Nat2Z.id, take_app_length' by (by rewrite length_init).
  unfold init. rewrite map_app, length_app, <- app_assoc. do 2 f_equal.
  rewrite drop_app_ge by (rewrite length_map; lia). rewrite length_map, drop_drop.
  f_equal. lia.
Qed.

Lemma cstr_overlay s xs m :
  Forall (fun b => b <> 0) s -> cstr_of (overlay (s ++ 0 :: xs) m) = Some s.
Proof.
  unfold overlay, init. rewrite map_app. simpl. rewrite <- app_assoc. simpl.
  generalize (map Some xs ++ drop (length (s ++ 0 :: xs)) m) as r.
  induction 1 as [|b s Hb _ IH]; [done|]. intros. simpl.
  destruct (Z.eqb_spec b 0); [done|]. by rewrite IH.
Qed.

(** The text of a C string. *)
Definition nonzero (s : list Z) : Prop := Forall (fun b => b <> 0) s.

Lemma cstr_of_app a b t : cstr_of a = Some t -> cstr_of (a ++ b) = Some t.
Proof.
  revert t. induction a as [|[x|] a IH]; intros t; [done| |done]. cbn [cstr_of app].
  destruct (x =? 0); [done|]. destruct (cstr_of a) as [t'|]; [|done].
  intros [= <-]. by rewrite (IH t').
Qed.

Lemma cstr_of_init t m : nonzero t -> cstr_of (init t ++ Some 0 :: m) = Some t.
Proof.
  induction 1 as [|b t Hb _ IH]; [done|]. cbn [init map app cstr_of].
  destruct (Z.eqb_spec b 0); [done|]. unfold init in IH. by rewrite IH.
Qed.

Lemma cstr_terminated bs : exists name, cstr_of (init bs ++ [Some 0]) = Some name.
Proof.
  induction bs as [|b l [t IH]]; [by exists []|].
  cbn [init map app cstr_of]. destruct (b =? 0); [by exists []|].
  unfold init in IH. rewrite IH. by exists (b :: t).
Qed.

(** A C string found in bytes followed by unwritten memory ends within the bytes. *)
Lemma cstr_of_uninit bs n t : cstr_of (init bs ++ uninit n) = Some t -> 0 ∈ bs.
Proof.
  revert t. induction bs as [|b bs IH]; intros t.
  { unfold uninit. by destruct (Z.to_nat n). }
  cbn [init map app cstr_of]. destruct (Z.eqb_spec b 0) as [->|]; [set_solver|].
  fold (init bs). destruct (cstr_of (init bs ++ uninit n)) as [t'|] eqn:E; [|done].
  intros _. apply elem_of_cons. right. by eapply IH.
Qed.

(** ** Memory operations under [wp] *)
Section MemoryWp.
Context {K : Type}.

Lemma wp_rd obj m i b (Q : outcome Z -> world K -> Prop) w :
  znth m i = Some (Some b) -> Q (Done b) w -> wp (rd obj m i) Q w.
Proof. unfold wp, rd. intros ->. done. Qed.

Lemma wp_wr obj m i v (Q : outcome mem -> world K -> Prop) w :
  0 <= i < zlen m -> Q (Done (zset m i (Some v))) w -> wp (wr obj m i v) Q w.
Proof. unfold wp, wr. intros H. by destruct (znth_Some m i H) as [x ->]. Qed.

Lemma wp_wr_overlay obj xs m i v (Q : outcome mem -> world K -> Prop) w :
  i = zlen xs -> zlen xs < zlen m ->
  Q (Done (overlay (xs ++ [v]) m)) w -> wp (wr obj (overlay xs m) i v) Q w.
Proof.
  intros -> H HQ. pose proof (zlen_nonneg xs). apply wp_wr.
  - rewrite zlen_overlay; lia.
  - by rewrite zset_overlay by done.
Qed.

Lemma wp_rd_overlay obj xs m i b (Q : outcome Z -> world K -> Prop) w :
  znth xs i = Some b -> Q (Done b) w -> wp (rd obj (overlay xs m) i) Q w.
Proof. intros H HQ. eapply wp_rd; [by apply znth_overlay|done]. Qed.

Lemma wp_copy_in obj m off bs (Q : outcome mem -> world K -> Prop) w :
  0 <= off -> off + zlen bs <= zlen m ->
  Q (Done (blit m off bs)) w -> wp (copy_in obj m off bs) Q w.
Proof.
  unfold wp, copy_in. intros.
  destruct (Z.ltb_spec off 0); [lia|].
  destruct (Z.ltb_spec (zlen m) (off + zlen bs)); [lia|]. done.
Qed.

Lemma wp_cstr obj m off bs (Q : outcome (list Z) -> world K -> Prop) w :
  cstr_of (zdrop off m) = Some bs -> Q (Done bs) w -> wp (cstr obj m off) Q w.
Proof. unfold wp, cstr. intros ->. done. Qed.

(** Bytes read into a block of [size] bytes and terminated: [bs] may fill the
    block but for its last byte. *)
Lemma wp_terminated_then {A} obj size bs (f : list Z -> C K A) (Q : outcome A -> world K -> Prop) w :
  zlen bs <= size ->
  (forall name, zlen bs < size -> cstr_of (init bs ++ [Some 0]) = Some name -> wp (f name) Q w) ->
  (zlen bs = size -> Q (Halt (HUB (UB_bounds obj size))) w) ->
  wp (m ← copy_in obj (uninit size) 0 bs; m ← wr obj m (zlen bs) 0; s ← cstr obj m 0; f s) Q w.
Proof.
  intros Hl HQ HU. pose proof (zlen_nonneg bs). assert (Hsz := zlen_uninit size ltac:(lia)).
  wp_step. apply wp_copy_in; [lia|lia|]. cbn [post].
  assert (E : blit (uninit size) 0 bs = overlay bs (uninit size)).
  { by rewrite <- (overlay_blit [] bs) by (rewrite (@zlen_nil Z); lia). }
  rewrite E. clear E. wp_step. destruct (Z.eq_dec (zlen bs) size) as [Ez|Ez].
  - unfold wr, znth. destruct (Z.ltb_spec (zlen bs) 0); [lia|]. rewrite lookup_ge_None_2.
    + wp_step. rewrite Ez. auto.
    + assert (Hz : zlen (overlay bs (uninit size)) = size) by (rewrite zlen_overlay; lia).
      unfold zlen, mem in *. lia.
  - apply wp_wr_overlay; [done|lia|]. cbn [post]. wp_step.
    destruct (cstr_terminated bs) as [name Hname]. eapply wp_cstr.
    { unfold overlay. rewrite zdrop_0, init_app. change (init [0]) with [Some 0].
      apply cstr_of_app. exact Hname. }
    cbn [post]. apply HQ; [lia|done].
Qed.

Lemma wp_terminated obj size bs (Q : outcome string -> world K -> Prop) w :
  zlen bs <= size ->
  (forall name, zlen bs < size -> cstr_of (init bs ++ [Some 0]) = Some name ->
     Q (Done (text_of name)) w) ->
  (zlen bs = size -> Q (Halt (HUB (UB_bounds obj size))) w) ->
  wp (m ← copy_in obj (uninit size) 0 bs; m ← wr obj m (zlen bs) 0; s ← cstr obj m 0;
      mret (text_of s)) Q w.
Proof. intros Hl HQ HU. by apply wp_terminated_then. Qed.

End MemoryWp.

(** ** Streams *)

(** What fgets takes from a stream that still holds [bs], and what it leaves: the
    bytes up to and with the first newline, but at most [n]. *)
Fixpoint fgets_of (n : nat) (bs : list Z) : list Z * list Z :=
  match n, bs with
  | O, _ => ([], bs)
  | _, [] => ([], [])
  | S n', b :: bs' => if b =? 10 then ([b], bs') else let '(l, r) := fgets_of n' bs' in (b :: l, r)
  end.

(** All the lines a program gets that calls fgets until the end of the stream. *)
Fixpoint fgets_lines (fuel n : nat) (bs : list Z) : list (list Z) :=
  match fuel, bs with
  | S fuel', _ :: _ => let '(l, r) := fgets_of n bs in l :: fgets_lines fuel' n r
  | _, _ => []
  end.

Lemma fgets_of_app n bs : let '(l, r) := fgets_of n bs in l ++ r = bs.
Proof.
  revert bs. induction n as [|n IH]; intros [|b bs]; [done..|]. cbn.
  destruct (b =? 10); [done|]. specialize (IH bs). destruct (fgets_of n bs). cbn. by rewrite IH.
Qed.

Lemma fgets_of_progress n b bs : fst (fgets_of (S n) (b :: bs)) <> [].
Proof. cbn. destruct (b =? 10); [done|]. by destruct (fgets_of n bs). Qed.

Lemma fgets_of_shorter n b bs : (length (snd (fgets_of (S n) (b :: bs))) < length (b :: bs))%nat.
Proof.
  pose proof (fgets_of_app (S n) (b :: bs)) as H. pose proof (fgets_of_progress n b bs) as Hp.
  destruct (fgets_of (S n) (b :: bs)) as [l r]. cbn [fst snd] in *. rewrite <- H, length_app.
  destruct l; [done|]. simpl. lia.
Qed.

Lemma fgets_of_line t more n : 10 ∉ t -> (length t < n)%nat -> fgets_of n (t ++ 10 :: more) = (t ++ [10], more).
Proof.
  revert n. induction t as [|b t IH]; intros n Hn Hl; (destruct n as [|n]; [cbn in Hl; lia|]); [done|].
  cbn [app fgets_of]. apply not_elem_of_cons in Hn as [Hb Hn].
  destruct (Z.eqb_spec b 10) as [->|]; [done|]. rewrite IH; [done|done|cbn in Hl; lia].
Qed.
