(* ===== verification/Decimal.v ===== *)
(** Decimal text: what [%d] and [%06d] print is the decimal digits of the number,
    of a known length, and [strtol] and [atoi] read the number back. *)
From S2P Require Import Prelude CMonad CLib.

Definition is_dec (bs : list Z) : Prop := Forall (fun b => isdigit b = true) bs.

Lemma digit_char d : (d < 10)%N ->
  isdigit (byte_of_ascii (pretty_N_char d)) = true /\ byte_of_ascii (pretty_N_char d) - 48 = Z.of_N d.
Proof.
  intros. assert (d = 0 \/ d = 1 \/ d = 2 \/ d = 3 \/ d = 4 \/ d = 5 \/ d = 6 \/ d = 7 \/ d = 8 \/ d = 9)%N
    as Hd by lia. by destruct Hd as [->|[->|[->|[->|[->|[->|[->|[->|[->| ->]]]]]]]]].
Qed.

Lemma digits_val_dec a bs rest :
  is_dec bs -> digits_val a (bs ++ rest) = digits_val (a * 10 ^ zlen bs + digits_val 0 bs) rest.
Proof.
  intros H. revert a. assert (forall a, digits_val a bs = a * 10 ^ zlen bs + digits_val 0 bs) as Hv.
  { induction H as [|b l Hb Hl IH]; intros a; cbn [digits_val]; [rewrite zlen_nil; lia|].
    rewrite Hb, IH, (IH (10 * 0 + _)), zlen_cons, Z.pow_add_r by (auto with cbytes; lia). lia. }
  intros a. rewrite <- Hv. clear Hv. revert a.
  induction H as [|b l Hb Hl IH]; intros a; cbn [app digits_val]; [done|]. by rewrite Hb.
Qed.

Lemma digits_val_snoc bs b :
  is_dec bs -> isdigit b = true -> digits_val 0 (bs ++ [b]) = 10 * digits_val 0 bs + (b - 48).
Proof. intros H Hb. rewrite digits_val_dec by done. cbn [digits_val]. rewrite Hb. lia. Qed.

Lemma pretty_go_dec x : forall s, exists ds,
  bytes_of (pretty_N_go x s) = ds ++ bytes_of s /\ is_dec ds /\ digits_val 0 ds = Z.of_N x /\
  forall n, 0 <= n -> Z.of_N x < 10 ^ n -> zlen ds <= n.
Proof.
  induction (N.lt_wf_0 x) as [x _ IH]. intros s.
  destruct (decide (x = 0)%N) as [->|Hx].
  { exists []. rewrite pretty_N_go_0. split_and!; [done|constructor|done|]. intros. rewrite zlen_nil. lia. }
  rewrite pretty_N_go_step by lia.
  destruct (IH (x / 10)%N (N.div_lt x 10 ltac:(lia) eq_refl) (String (pretty_N_char (x mod 10)) s))
    as (ds & E & Hd & Hv & Hn).
  destruct (digit_char (x mod 10)) as [Hc Hcv]; [by apply N.mod_lt|].
  exists (ds ++ [byte_of_ascii (pretty_N_char (x mod 10))]). split_and!.
  - rewrite E. cbn [bytes_of]. by rewrite <- app_assoc.
  - apply Forall_app. by split; [|constructor].
  - rewrite digits_val_snoc, Hv, Hcv by done. pose proof (N.div_mod x 10). lia.
  - intros n H0 H1. rewrite zlen_snoc. destruct (Z.eq_dec n 0) as [->|]; [cbn in H1; lia|].
    enough (zlen ds <= n - 1) by lia. apply Hn; [lia|]. rewrite N2Z.inj_div.
    apply Z.div_lt_upper_bound; [lia|]. change (Z.of_N 10 * 10 ^ (n - 1)) with (10 * 10 ^ (n - 1)).
    rewrite <- Z.pow_succ_r by lia. by replace (Z.succ (n - 1)) with n by lia.
Qed.

(** [%d] prints the decimal digits of a number, no more than it needs. *)
Lemma fmt_d_dec z : 0 <= z ->
  is_dec (bytes_of (fmt_d z)) /\ digits_val 0 (bytes_of (fmt_d z)) = z /\ fmt_d z <> EmptyString /\
  forall n, 1 <= n -> z < 10 ^ n -> strlen (fmt_d z) <= n.
Proof.
  intros Hz. assert (fmt_d z = pretty (Z.to_N z)) as -> by (destruct z; [done|reflexivity|lia]).
  unfold pretty, pretty_N. case_decide as H0.
  { assert (z = 0) as -> by lia. split_and!; [by constructor|done|done|]. intros n Hn _. by change (strlen _) with 1. }
  destruct (pretty_go_dec (Z.to_N z) "") as (ds & E & Hd & Hv & Hn).
  rewrite app_nil_r in E. rewrite Z2N.id in Hv, Hn by done. split_and!.
  - by rewrite E.
  - by rewrite E.
  - intros E'. rewrite E' in E. cbn in E. subst ds. cbn in Hv. lia.
  - intros n H1 H2. rewrite <- zlen_bytes_of, E. apply Hn; lia.
Qed.

Lemma strtol10_dec s : is_dec (bytes_of s) -> s <> EmptyString ->
  strtol10 s = Z.max LONG_MIN (Z.min LONG_MAX (digits_val 0 (bytes_of s))).
Proof.
  intros Hd Hs. unfold strtol10. destruct (bytes_of s) as [|b l] eqn:E; [by destruct s|].
  apply Forall_inv in Hd. unfold isdigit in Hd.
  assert (b = 48 \/ b = 49 \/ b = 50 \/ b = 51 \/ b = 52 \/ b = 53 \/ b = 54 \/ b = 55 \/ b = 56 \/ b = 57)
    as Hb by lia.
  by destruct Hb as [->|[->|[->|[->|[->|[->|[->|[->|[->| ->]]]]]]]]].
Qed.

(** What [%d] prints, [strtol] and [atoi] read back. *)
Lemma strtol10_fmt_d z : LONG_MIN <= z <= LONG_MAX -> strtol10 (fmt_d z) = z.
Proof.
  intros Hz. destruct (Z.le_gt_cases 0 z) as [H|H].
  - destruct (fmt_d_dec z H) as (Hd & Hv & Hne & _). rewrite strtol10_dec, Hv by done. lia.
  - destruct (fmt_d_dec (- z) ltac:(lia)) as (_ & Hv & _).
    assert (fmt_d z = String (Ascii.ascii_of_N 45) (fmt_d (- z))) as -> by (destruct z; [done|done|reflexivity]).
    unfold strtol10. cbn [bytes_of]. change (byte_of_ascii (Ascii.ascii_of_N 45)) with 45.
    change (skip_space (45 :: ?l)) with (45 :: l). cbv iota. rewrite Hv. lia.
Qed.

Lemma atoi_fmt_d z : INT_MIN <= z <= INT_MAX -> atoi (fmt_d z) = z.
Proof.
  intros. unfold atoi. rewrite strtol10_fmt_d by (unfold INT_MIN, INT_MAX, LONG_MIN, LONG_MAX in *; lia).
  by apply to_int_id.
Qed.

(** [%06d] and the like: at least [w] digits, of the same value. *)
Lemma bytes_of_rep n c : byte_ok c -> bytes_of (rep n c) = replicate n c.
Proof.
  intros Hc. induction n as [|n IH]; [done|]. cbn [rep replicate]. rewrite bytes_of_app, IH.
  unfold chr, byte_ok in *. cbn [bytes_of app]. rewrite to_uchar_id by done. f_equal.
  unfold byte_of_ascii. rewrite Ascii.N_ascii_embedding by lia. lia.
Qed.

Lemma digits_val_zeros n bs : digits_val 0 (replicate n 48 ++ bs) = digits_val 0 bs.
Proof. by induction n. Qed.

Lemma fmt_0wd_dec w z : 0 <= z ->
  is_dec (bytes_of (fmt_0wd w z)) /\ digits_val 0 (bytes_of (fmt_0wd w z)) = z /\
  Z.of_nat w <= strlen (fmt_0wd w z) /\
  (z < 10 ^ Z.of_nat w -> (1 <= w)%nat -> strlen (fmt_0wd w z) = Z.of_nat w).
Proof.
  intros Hz. unfold fmt_0wd. destruct (Z.ltb_spec z 0); [lia|]. unfold padl.
  destruct (fmt_d_dec z Hz) as (Hd & Hv & _ & Hn).
  rewrite strlen_app, <- (zlen_bytes_of (rep _ _)), bytes_of_app, bytes_of_rep, zlen_replicate by done.
  unfold is_dec. rewrite Forall_app, digits_val_zeros. unfold strlen in *.
  split_and!; [by apply Forall_replicate|done|done|lia|].
  intros H1 H2. specialize (Hn (Z.of_nat w)). lia.
Qed.

(** Decimal text holds no NUL. *)
Lemma fmt_d_no_nul z : no_nul (fmt_d z).
Proof.
  assert (forall x, 0 <= x -> no_nul (fmt_d x)) as Hpos.
  { intros x Hx. destruct (fmt_d_dec x Hx) as (Hd & _). eapply Forall_impl; [exact Hd|].
    unfold isdigit. lia. }
  destruct (Z.le_gt_cases 0 z) as [H|H]; [auto|].
  assert (fmt_d z = String (Ascii.ascii_of_N 45) (fmt_d (- z))) as -> by (destruct z; [done|done|reflexivity]).
  constructor; [done|]. apply Hpos. lia.
Qed.

Lemma no_nul_app s t : no_nul s -> no_nul t -> no_nul (s +:+ t).
Proof. intros. unfold no_nul. rewrite bytes_of_app. by apply Forall_app. Qed.

Lemma bytes_of_substring n s : bytes_of (String.substring 0 n s) = take n (bytes_of s).
Proof.
  revert n. induction s as [|a s IH]; intros [|n]; cbn; try done. by rewrite IH.
Qed.
