(* ===== verification/Common.v ===== *)
(** src/common.c and src/common.h: the code linked into every program of the
    repository: error reporting, time subtraction, decimal to binary, the
    restarting sleep, the hex dump, and the delay loop. *)
From S2P Require Import Prelude CMonad CLib.

(** ** Data *)

Record timeval := Timeval { tv_sec : Z; tv_usec : Z }.

(** Checked signed arithmetic: [None] is the overflow C leaves undefined. *)
Definition ck_long (z : Z) : option Z :=
  if (LONG_MIN <=? z) && (z <=? LONG_MAX) then Some z else None.

Definition ck_int (z : Z) : option Z :=
  if (INT_MIN <=? z) && (z <=? INT_MAX) then Some z else None.

(** [timeval_subtract(result, x, y)]: the new [*result], the new [*y] (the carry
    is performed on it) and the return value. *)
Definition timeval_subtract (x y : timeval) : option (timeval * timeval * Z) :=
  y1 ← (if tv_usec x <? tv_usec y then
          d ← ck_long (tv_usec y - tv_usec x);
          let nsec := to_int (Z.quot d 1000000 + 1) in
          m ← ck_int (1000000 * nsec);
          us ← ck_long (tv_usec y - m);
          s ← ck_long (tv_sec y + nsec);
          Some (Timeval s us)
        else Some y);
  y2 ← (d ← ck_long (tv_usec x - tv_usec y1);
        if 1000000 <? d then
          let nsec := to_int (Z.quot d 1000000) in
          m ← ck_int (1000000 * nsec);
          us ← ck_long (tv_usec y1 + m);
          s ← ck_long (tv_sec y1 - nsec);
          Some (Timeval s us)
        else Some y1);
  s ← ck_long (tv_sec x - tv_sec y2);
  us ← ck_long (tv_usec x - tv_usec y2);
  Some (Timeval s us, y2, if tv_sec x <? tv_sec y2 then 1 else 0).

Section Code.
Context {K : Type} {HK : Kernel K}.

Definition ERRSTRMAX : Z := 512.

(** [handle_err(fatal, fmt, ...)]; [msg] is the text [fmt] and its arguments
    expand to. *)
Definition handle_err (fatal : Z) (msg : string) : C K Z :=
  p ← syscall (Cmalloc ERRSTRMAX);
  if ret p =? 0 then mret (-1)
  else
    fprintf stderr (snprintf (ERRSTRMAX - 1) msg);;
    e ← get_errno;
    when (negb (e =? 0)) (perror "perror says");;
    syscall (Cfree (ret p));;
    if fatal =? 0 then mret 0 else exit fatal.

Definition NON_FATAL : Z := 0.
Definition EXIT_FAILURE : Z := 1.
Definition EXIT_SUCCESS : Z := 0.

(** The [WARN] and [FATAL] macros of common.h, at a place of the program. *)
Definition WARN (file func : string) (line : Z) (warnmsg : string) : C K unit :=
  handle_err NON_FATAL
    (cat ["!WARNING! "; file; ":"; func; ":"; fmt_d line; ": "; warnmsg]);;
  mret tt.

Definition FATAL (file func : string) (line : Z) (errmsg : string) : C K unit :=
  handle_err EXIT_FAILURE
    (cat ["FATAL:"; file; ":"; func; ":"; fmt_d line; ": "; errmsg]);;
  mret tt.

(** [temp[--k]] of [dec2bin]: the loop reads one byte below the array.  [below]
    is the byte the machine has there; with [None] the read is judged by the
    C standard. *)
Definition temp_at (below : option Z) (temp : mem) (i : Z) : C K Z :=
  match below with
  | Some b => if i =? -1 then mret b else rd "temp" temp i
  | None => rd "temp" temp i
  end.

(** The two loops of [dec2bin]: the do-while that stores the digits, low bit
    first, and the loop that reverses them into [binary]. *)
Definition dec2bin_digits (fuel : nat) (decimal k : Z) (temp : mem) : C K (Z * mem) :=
  loop fuel (fun '(decimal, k, temp) =>
    let remain := Z.rem decimal 2 in
    let decimal := Z.quot decimal 2 in
    temp ← wr "temp" temp k (remain + 48);
    mret (if 0 <? decimal then inl (decimal, k + 1, temp) else inr (k + 1, temp)))
  (decimal, k, temp).

Definition dec2bin_reverse (fuel : nat) (below : option Z) (temp : mem) (k n : Z)
    (binary : mem) : C K (Z * mem) :=
  loop fuel (fun '(k, n, binary) =>
    if 0 <=? k then
      let k := k - 1 in
      c ← temp_at below temp k;
      binary ← wr "binary" binary n c;
      mret (inl (k, n + 1, binary))
    else mret (inr (n, binary)))
  (k, n, binary).

(** [dec2bin(decimal, binary)]: the new contents of [binary]. *)
Definition dec2bin (below : option Z) (decimal : Z) (binary : mem) : C K mem :=
  let neg_flag := decimal <? 0 in
  decimal ← (if neg_flag then
               if decimal =? LONG_MIN then undefined (UB_overflow "-decimal")
               else mret (- decimal)
             else mret decimal);
  '(k, temp) ← dec2bin_digits 64 decimal 0 (uninit 80);
  temp ← wr "temp" temp k (if neg_flag then 45 else 32);
  let k := k + 1 in
  '(n, binary) ← dec2bin_reverse 82 below temp k 0 binary;
  wr "binary" binary (n - 1) 0.

(** [r_sleep(sec, nsec)]: nanosleep, restarted with the remaining time. *)
Definition r_sleep_iter (req : Z * Z) : C K ((Z * Z) + Z) :=
  r ← syscall (Csys "nanosleep" [AI (fst req); AI (snd req)]);
  if ret r =? -1 then
    e ← get_errno;
    if negb (e =? EINTR) then mret (inr (-1))
    else mret (inl (nth 0 (out r) 0, nth 1 (out r) 0))
  else mret (inr 0).

Definition r_sleep (fuel : nat) (sec nsec : Z) : C K Z :=
  loop fuel r_sleep_iter (sec, nsec).

Definition ruler : string :=
  cat ["        +0          +4          +8          +c            0   4   8   c   "; nl].

(** One iteration of [hex_dump]'s for loop, at [i] with line position [j]; [label]
    is the text it copies to the start of a new line. *)
Definition dump_iter (label : Z -> C K (list Z)) (data : list Z) (size : Z) (st : Z * Z * mem)
    : C K ((Z * Z * mem) + (Z * mem)) :=
  let '(i, j, buffer) := st in
  if i <? size then
    '(j, buffer) ←
      (if j =? 16 then
         line ← cstr "buffer" buffer 0;
         printf (text_of line);;
         buffer ← memset "buffer" buffer 0 32 (58 + 16);
         temp ← label i;
         buffer ← copy_in "buffer" buffer 0 temp;
         mret (0, buffer)
       else mret (j, buffer));
    d ← rd "data" (init data) i;
    let temp := fmt_0wx 2 (Z.land 255 d) in
    buffer ← copy_in "buffer" buffer (8 + j * 3) (take 2 temp);
    buffer ← wr "buffer" buffer (58 + j) (if (31 <? d) && (d <? 127) then d else 46);
    mret (inl (i + 1, j + 1, buffer))
  else mret (inr (j, buffer)).

Definition hex_dump_iter : list Z -> Z -> Z * Z * mem -> C K ((Z * Z * mem) + (Z * mem)) :=
  dump_iter (fun i => mret (take 5 (43 :: fmt_0wx 4 i))).

(** [hex_dump(data, size, caption, verbose)]; [addr] is the text [%p] prints for
    [data]. *)
Definition hex_dump (data : list Z) (size : Z) (caption : option string) (verbose : Z)
    (addr : string) : C K unit :=
  buffer ← memset "buffer" (uninit 128) 0 0 128;
  match caption with
  | Some cap =>
      when (negb (verbose =? 0))
        (printf (cat ["---------> "; cap; " <--------- ("; fmt_d size; " bytes from ";
                      addr; ")"; nl]))
  | None => mret tt
  end;;
  printf ruler;;
  buffer ← memset "buffer" buffer 0 32 (58 + 16);
  buffer ← wr "buffer" buffer (58 + 16) 10;
  buffer ← wr "buffer" buffer (58 + 17) 0;
  buffer ← wr "buffer" buffer 0 43;
  buffer ← wr "buffer" buffer 1 48;
  buffer ← wr "buffer" buffer 2 48;
  buffer ← wr "buffer" buffer 3 48;
  buffer ← wr "buffer" buffer 4 48;
  '(j, buffer) ← loop (S (Z.to_nat size)) (hex_dump_iter data size) (0, 0, buffer);
  if negb (j =? 0) then
    line ← cstr "buffer" buffer 0;
    printf (text_of line)
  else mret tt.

(** [Dprint(fmt, ...)], compiled with or without DEBUG. *)
Definition Dprint (debug : bool) (txt : string) : C K unit :=
  when debug (fprintf stderr txt).

Definition STDOUT_FILENO : Z := 1.

Definition beep (what : Z) : C K unit :=
  syscall (Cwrite STDOUT_FILENO [to_uchar what]);; mret tt.

(** [DELAY_LOOP(val, loop_count)]: the inner counting loops have no effect
    outside the macro. *)
Definition DELAY_LOOP (val loop_count : Z) : C K unit :=
  loop (S (Z.to_nat loop_count)) (fun for_index =>
    if for_index <? loop_count then beep val;; mret (inl (for_index + 1))
    else mret (inr tt)) 0.

End Code.


(** ** timeval_subtract *)

Definition tv_value (t : timeval) : Z := tv_sec t * 1000000 + tv_usec t.

(** A time as [gettimeofday] fills it, far from the limits of [long]. *)
Definition tv_normal (t : timeval) : Prop :=
  0 <= tv_usec t < 1000000 /\ - 2 ^ 62 < tv_sec t < 2 ^ 62.

Lemma ck_long_ok z : LONG_MIN <= z <= LONG_MAX -> ck_long z = Some z.
Proof. unfold ck_long. intros. zbool; simpl; auto; lia. Qed.

Lemma ck_int_ok z : INT_MIN <= z <= INT_MAX -> ck_int z = Some z.
Proof. unfold ck_int. intros. zbool; simpl; auto; lia. Qed.

(** Discharge the overflow checks in order. *)
Ltac ck_step :=
  cbn [mbind option_bind tv_sec tv_usec];
  first [ rewrite ck_long_ok by (unfold LONG_MIN, LONG_MAX; lia)
        | rewrite ck_int_ok by (unfold INT_MIN, INT_MAX; lia) ].

(** On normal times the subtraction never overflows, the result is the exact
    difference in normal form, [*y] still denotes the same time, and the return
    value says whether the difference is negative. *)
Theorem timeval_subtract_correct (x y : timeval) :
  tv_normal x -> tv_normal y ->
  exists res y' r,
    timeval_subtract x y = Some (res, y', r) /\
    tv_value res = tv_value x - tv_value y /\
    0 <= tv_usec res < 1000000 /\
    tv_value y' = tv_value y /\
    (r = 1 <-> tv_value x < tv_value y) /\ (r = 0 \/ r = 1).
Proof.
  unfold tv_normal, tv_value. intros Hx Hy. unfold timeval_subtract.
  destruct (Z.ltb_spec (tv_usec x) (tv_usec y)) as [Hc|Hc].
  - ck_step. cbn [mbind option_bind]. rewrite (Z.quot_small (tv_usec y - tv_usec x) 1000000) by lia.
    change (to_int (0 + 1)) with 1. do 4 ck_step. cbn [mbind option_bind].
    destruct (Z.ltb_spec 1000000 (tv_usec x - (tv_usec y - 1000000 * 1))); [lia|].
    do 2 ck_step. do 3 eexists. split; [reflexivity|]. simpl. zbool; lia.
  - ck_step. cbn [mbind option_bind].
    destruct (Z.ltb_spec 1000000 (tv_usec x - tv_usec y)); [lia|].
    do 2 ck_step. do 3 eexists. split; [reflexivity|]. simpl. zbool; lia.
Qed.

Lemma timeval_subtract_correct_witness :
  exists res y' r,
    timeval_subtract (Timeval 7 300) (Timeval 5 999999) = Some (res, y', r) /\
    tv_value res = tv_value (Timeval 7 300) - tv_value (Timeval 5 999999) /\
    0 <= tv_usec res < 1000000 /\
    tv_value y' = tv_value (Timeval 5 999999) /\
    (r = 1 <-> tv_value (Timeval 7 300) < tv_value (Timeval 5 999999)) /\ (r = 0 \/ r = 1).
Proof.
  apply (timeval_subtract_correct (Timeval 7 300) (Timeval 5 999999));
    unfold tv_normal; simpl; lia.
Defined.

(** ** dec2bin *)

(** The character of bit [i] of [d], and the first [n] of them, low bit first. *)
Definition bit_char (d i : Z) : Z := 48 + Z.b2z (Z.testbit d i).

Definition lsb_chars (d n : Z) : list Z := map (bit_char d) (seqZ 0 n).

(** The number a text of binary digits (high bit first) with a leading sign
    character denotes. *)
Definition msb_value (acc : Z) (cs : list Z) : Z := foldl (fun a c => 2 * a + (c - 48)) acc cs.

Definition parse_bin (cs : list Z) : option Z :=
  match cs with
  | 45 :: ds => Some (- msb_value 0 ds)
  | 32 :: ds => Some (msb_value 0 ds)
  | _ => None
  end.

Lemma lsb_chars_S d n : 0 <= n -> lsb_chars d (n + 1) = lsb_chars d n ++ [bit_char d n].
Proof.
  intros. unfold lsb_chars. rewrite seqZ_app by lia. rewrite map_app. do 2 f_equal.
Qed.

Lemma zlen_lsb_chars d n : 0 <= n -> zlen (lsb_chars d n) = n.
Proof. intros. unfold zlen, lsb_chars. rewrite length_map, length_seqZ. lia. Qed.

Lemma msb_value_reverse d (n : nat) acc :
  msb_value acc (reverse (lsb_chars d (Z.of_nat n)))
  = acc * 2 ^ Z.of_nat n + d mod 2 ^ Z.of_nat n.
Proof.
  revert acc. induction n as [|n IH]; intros acc.
  - simpl. rewrite Z.mod_1_r. change (msb_value acc []) with acc. lia.
  - replace (Z.of_nat (S n)) with (Z.of_nat n + 1) by lia.
    rewrite lsb_chars_S by lia. rewrite reverse_app. cbn [reverse rev_append app].
    unfold msb_value. cbn [foldl app]. fold (msb_value (2 * acc + (bit_char d (Z.of_nat n) - 48))).
    change (foldl _ ?a ?l) with (msb_value a l). rewrite IH. unfold bit_char.
    rewrite Z.testbit_spec' by lia. rewrite Z.pow_add_r by lia. change (2 ^ 1) with 2.
    rewrite (Z.rem_mul_r d) by lia. lia.
Qed.

Section Dec2bin.
Context {K : Type} {HK : Kernel K}.

Lemma dec2bin_digits_spec d (Q : outcome (Z * mem) -> world K -> Prop) w :
  0 <= d < 2 ^ 63 ->
  (forall n, 1 <= n <= 63 -> d < 2 ^ n -> n = 1 \/ 2 ^ (n - 1) <= d ->
     Q (Done (n, overlay (lsb_chars d n) (uninit 80))) w) ->
  wp (dec2bin_digits 64 d 0 (uninit 80)) Q w.
Proof.
  intros Hd HQ. unfold dec2bin_digits.
  eapply (wp_loop_total
    (fun '(dec, k, temp) w' => w' = w /\ 0 <= k <= 62 /\ dec = d / 2 ^ k /\
       temp = overlay (lsb_chars d k) (uninit 80) /\ (k = 0 \/ 0 < dec))
    (fun '(_, k, _) _ => Z.to_nat (63 - k))).
  2: { rewrite Z.div_1_r. repeat split; auto; lia. }
  2: { simpl. lia. }
  intros [[dec k] temp] w' (-> & Hk & -> & -> & Hpos).
  assert (0 < 2 ^ k) by (apply Z.pow_pos_nonneg; lia).
  assert (0 <= d / 2 ^ k) by (apply Z.div_pos; lia).
  wp_step. apply wp_wr_overlay; cbn [post].
  { by rewrite zlen_lsb_chars by lia. }
  { rewrite zlen_lsb_chars, zlen_uninit by lia. lia. }
  assert (lsb_chars d k ++ [Z.rem (d / 2 ^ k) 2 + 48] = lsb_chars d (k + 1)) as ->.
  { rewrite lsb_chars_S by lia. unfold bit_char. rewrite Z.testbit_spec' by lia.
    rewrite Z.rem_mod_nonneg by lia. do 2 f_equal. lia. }
  assert (Z.quot (d / 2 ^ k) 2 = d / 2 ^ (k + 1)) as ->.
  { rewrite Z.quot_div_nonneg by lia. rewrite Z.div_div by lia.
    by rewrite Z.pow_add_r by lia. }
  wp_step. destruct (Z.ltb_spec 0 (d / 2 ^ (k + 1))) as [H1|H1]; cbn [post].
  - assert (2 ^ (k + 1) <= d).
    { apply div_pos_le; [lia| |done]. apply Z.pow_pos_nonneg; lia. }
    assert (k + 1 < 63) by (apply (Z.pow_lt_mono_r_iff 2); lia).
    repeat split; auto; lia.
  - apply HQ; [lia| |].
    + destruct (Z.lt_ge_cases d (2 ^ (k + 1))); [done|].
      assert (0 < d / 2 ^ (k + 1)); [|lia].
      apply Z.div_str_pos. split; [apply Z.pow_pos_nonneg; lia|done].
    + destruct Hpos as [->|Hpos]; [by left|right].
      replace (k + 1 - 1) with k by lia.
      apply div_pos_le; lia.
Qed.

(** What the reversal ends with: the reversed text followed by the byte below
    [temp], or the out-of-bounds read. *)
Definition reversed (below : option Z) (ts : list Z) (buf : mem)
    (Q : outcome (Z * mem) -> world K -> Prop) (w : world K) : Prop :=
  match below with
  | Some b => Q (Done (zlen ts + 1, overlay (reverse ts ++ [b]) buf)) w
  | None => Q (Halt (HUB (UB_bounds "temp" (-1)))) w
  end.

Lemma temp_at_spec below ts tm k (Q : outcome Z -> world K -> Prop) w :
  0 <= k <= zlen ts ->
  (forall c, (reverse ts ++ [default 0 below]) !! Z.to_nat (zlen ts - k) = Some c ->
     (k = 0 -> below <> None) -> Q (Done c) w) ->
  (below = None -> k = 0 -> Q (Halt (HUB (UB_bounds "temp" (-1)))) w) ->
  wp (temp_at below (overlay ts tm) (k - 1)) Q w.
Proof.
  intros Hk HQ HN. destruct (Z.eqb_spec (k - 1) (-1)) as [E|E].
  - destruct below as [b|]; unfold temp_at; [|by rewrite E; apply HN; [|lia]].
    rewrite E, Z.eqb_refl.
    wp_step. apply HQ; [|done].
    rewrite lookup_app_r by (rewrite length_reverse; unfold zlen; lia).
    rewrite length_reverse. replace (_ - _)%nat with 0%nat by (unfold zlen; lia). done.
  - destruct (znth_Some ts (k - 1)) as [c Hc]; [lia|].
    assert (wp (rd "temp" (overlay ts tm) (k - 1)) Q w) as Hr.
    { apply (wp_rd_overlay _ _ _ _ c); [done|]. apply HQ; [|lia].
      unfold zlen in *. unfold znth in Hc. destruct (Z.ltb_spec (k - 1) 0); [lia|].
      rewrite lookup_app_l by (rewrite length_reverse; lia).
      rewrite reverse_lookup by lia. rewrite <- Hc. f_equal. lia. }
    unfold temp_at. destruct below; [|done]. by destruct (Z.eqb_spec (k - 1) (-1)).
Qed.

Lemma dec2bin_reverse_spec below ts tm buf (Q : outcome (Z * mem) -> world K -> Prop) w :
  zlen ts < 81 -> zlen ts < zlen buf -> reversed below ts buf Q w ->
  wp (dec2bin_reverse 82 below (overlay ts tm) (zlen ts) 0 buf) Q w.
Proof.
  intros Ht Hb HQ. unfold dec2bin_reverse. pose proof (zlen_nonneg ts).
  eapply (wp_loop_total
    (fun '(k, n, bin) w' => w' = w /\ -1 <= k <= zlen ts /\ n = zlen ts - k /\
       (k = -1 -> below <> None) /\
       bin = overlay (take (Z.to_nat n) (reverse ts ++ [default 0 below])) buf)
    (fun '(k, _, _) _ => Z.to_nat (k + 1))).
  2: { repeat split; auto; lia. }
  2: { simpl. lia. }
  intros [[k n] bin] w' (-> & Hk & -> & HN & ->). wp_step.
  - assert (0 <= k) by lia. wp_step. apply temp_at_spec; [lia| |].
    2: { intros -> ->. cbn [post]. done. }
    intros c Hc HN'. cbn [post].
    wp_step. apply wp_wr_overlay; cbn [post].
    + unfold zlen in *. rewrite length_take, length_app, length_reverse. simpl. lia.
    + unfold zlen in *. rewrite length_take, length_app, length_reverse. simpl. lia.
    + wp_step. rewrite <- (take_S_r _ _ _ Hc).
      replace (S (Z.to_nat (zlen ts - k))) with (Z.to_nat (zlen ts - k + 1)) by lia.
      repeat split; auto; try lia. intros. apply HN'. lia.
  - assert (k = -1) as -> by lia. wp_step. unfold reversed in HQ.
    destruct below as [b|]; [|by destruct HN].
    rewrite take_ge by (rewrite length_app, length_reverse; unfold zlen in *; simpl; lia).
    by replace (zlen ts - -1) with (zlen ts + 1) by lia.
Qed.

Lemma zset_overlay_last xs b v m :
  zlen xs < zlen m ->
  zset (overlay (xs ++ [b]) m) (zlen xs) (Some v) = overlay (xs ++ [v]) m.
Proof.
  intros H. unfold zset, overlay. pose proof (zlen_nonneg xs).
  destruct (Z.ltb_spec (zlen xs) 0); [lia|]. unfold zlen, init.
  rewrite Nat2Z.id, !map_app, !length_app. cbn [map length].
  rewrite <- !app_assoc, insert_app_r_alt by (rewrite length_map; lia).
  by rewrite length_map, Nat.sub_diag.
Qed.

Lemma dec2bin_spec below d buf (Q : outcome mem -> world K -> Prop) w :
  LONG_MIN < d <= LONG_MAX -> 65 <= zlen buf ->
  (forall n m, 1 <= n <= 63 -> Z.abs d < 2 ^ n -> n = 1 \/ 2 ^ (n - 1) <= Z.abs d ->
     m = overlay ((if d <? 0 then 45 else 32) :: reverse (lsb_chars (Z.abs d) n) ++ [0]) buf ->
     below <> None -> Q (Done m) w) ->
  (below = None -> Q (Halt (HUB (UB_bounds "temp" (-1)))) w) ->
  wp (dec2bin below d buf) Q w.
Proof.
  intros Hd Hb HQ HN. unfold dec2bin. unfold LONG_MIN, LONG_MAX in Hd.
  set (sgn := if d <? 0 then 45 else 32) in *.
  assert (Habs : 0 <= Z.abs d < 2 ^ 63) by lia.
  wp_step. apply (wp_mono _ (fun o w' => o = Done (Z.abs d) /\ w' = w)).
  2: { destruct (Z.ltb_spec d 0).
       - destruct (Z.eqb_spec d LONG_MIN); [unfold LONG_MIN in *; lia|].
         apply wp_ret. split; [f_equal; lia|done].
       - apply wp_ret. split; [f_equal; lia|done]. }
  intros ? ? [-> ->]. cbn [post]. wp_step.
  apply dec2bin_digits_spec; [done|]. intros n Hn H1 H2. cbn [post].
  assert (Hz : zlen (lsb_chars (Z.abs d) n) = n) by (apply zlen_lsb_chars; lia).
  wp_step. apply wp_wr_overlay; [done|rewrite zlen_uninit by lia; lia|]. cbn [post].
  fold sgn. wp_step.
  replace (n + 1) with (zlen (lsb_chars (Z.abs d) n ++ [sgn]))
    by (rewrite zlen_app, zlen_cons, zlen_nil; lia).
  assert (zlen (lsb_chars (Z.abs d) n ++ [sgn]) = n + 1)
    by (rewrite zlen_app, zlen_cons, zlen_nil; lia).
  apply dec2bin_reverse_spec; [lia|lia|]. unfold reversed.
  destruct below as [b|]; cbn [post]; [|by apply HN].
  rewrite reverse_app. cbn [reverse rev_append app].
  set (xs := sgn :: reverse (lsb_chars (Z.abs d) n)).
  assert (zlen xs = n + 1).
  { unfold xs. rewrite zlen_cons. unfold zlen in *. rewrite length_reverse. lia. }
  replace (zlen _ + 1 - 1) with (zlen xs) by lia.
  apply wp_wr.
  { change (sgn :: reverse ?l ++ [b]) with ((sgn :: reverse l) ++ [b]). fold xs.
    rewrite zlen_overlay; rewrite ?zlen_app, ?zlen_cons, ?zlen_nil; lia. }
  change (sgn :: reverse ?l ++ [b]) with ((sgn :: reverse l) ++ [b]).
  apply (HQ n); auto. by apply zset_overlay_last; lia.
Qed.

End Dec2bin.

(** Dec2bin writes the text of its argument: for every [long] but LONG_MIN, a
    buffer of 65 bytes suffices, and whatever byte lies below [temp], what it
    leaves there is a C string whose sign and binary digits denote the argument,
    with no leading zero. *)
Theorem dec2bin_roundtrip {K} (b d : Z) (buf : mem) (w : world K) :
  LONG_MIN < d <= LONG_MAX -> 65 <= zlen buf ->
  exists m cs,
    dec2bin (Some b) d buf w = (Done m, w) /\ zlen m = zlen buf /\
    cstr_of m = Some cs /\ parse_bin cs = Some d /\
    (zlen cs = 2 \/ nth 1 cs 0 = 49).
Proof.
  intros Hd Hb.
  enough (wp (dec2bin (Some b) d buf) (fun o w' => w' = w /\ exists m cs, o = Done m /\
    zlen m = zlen buf /\ cstr_of m = Some cs /\ parse_bin cs = Some d /\
    (zlen cs = 2 \/ nth 1 cs 0 = 49)) w) as H.
  { destruct (wp_run _ _ _ H) as (o & w' & E & -> & m & cs & -> & H'). by exists m, cs. }
  apply dec2bin_spec; [done|done| |done]. intros n m Hn H1 H2 -> _. split; [done|].
  eexists _, _. split; [done|].
  set (sgn := if d <? 0 then 45 else 32).
  set (ds := reverse (lsb_chars (Z.abs d) n)).
  assert (Hl : zlen ds = n).
  { unfold ds, zlen. rewrite length_reverse. by apply zlen_lsb_chars; lia. }
  assert (Hnz : Forall (fun c => c <> 0) (sgn :: ds)).
  { constructor; [unfold sgn; destruct (d <? 0); lia|]. unfold ds. apply Forall_reverse.
    unfold lsb_chars. apply Forall_fmap, Forall_true. intros i. unfold bit_char, compose.
    destruct (Z.testbit _ i); simpl; lia. }
  split; [|split; [by apply (cstr_overlay (sgn :: ds) [])|split]].
  - apply zlen_overlay. rewrite zlen_cons, zlen_app, zlen_cons, zlen_nil. lia.
  - assert (msb_value 0 ds = Z.abs d).
    { unfold ds. rewrite <- (Z2Nat.id n) by lia. rewrite msb_value_reverse.
      rewrite Z2Nat.id by lia. rewrite Z.mod_small by lia. lia. }
    unfold sgn. destruct (Z.ltb_spec d 0); [change (Some (- msb_value 0 ds) = Some d)
      |change (Some (msb_value 0 ds) = Some d)]; f_equal; lia.
  - destruct H2 as [->|H2]; [left; rewrite zlen_cons; fold ds; lia|right].
    unfold ds. replace n with (n - 1 + 1) by lia. rewrite lsb_chars_S by lia.
    rewrite reverse_app. simpl. unfold bit_char.
    rewrite Z.testbit_spec' by lia.
    assert (2 ^ n = 2 * 2 ^ (n - 1)) by (rewrite <- Z.pow_succ_r by lia; f_equal; lia).
    rewrite <- (Z.div_unique_pos (Z.abs d) (2 ^ (n - 1)) 1 (Z.abs d - 2 ^ (n - 1)));
      [done|lia..].
Qed.

Lemma dec2bin_roundtrip_witness :
  exists m cs,
    dec2bin (Some 7) (-10) (uninit 80) (World tt 0 []) = (Done m, World tt 0 []) /\
    zlen m = zlen (uninit 80) /\ cstr_of m = Some cs /\ parse_bin cs = Some (-10) /\
    (zlen cs = 2 \/ nth 1 cs 0 = 49).
Proof.
  apply (dec2bin_roundtrip 7 (-10) (uninit 80) (World tt 0 [])); [by vm_compute|vm_compute; discriminate].
Defined.

(** judged by the C standard, the reversal loop of dec2bin always reads
    [temp[-1]], outside the array. *)
Theorem dec2bin_reads_below_temp {K} (d : Z) (buf : mem) (w : world K) :
  LONG_MIN < d <= LONG_MAX -> 65 <= zlen buf ->
  dec2bin None d buf w = (Halt (HUB (UB_bounds "temp" (-1))), w).
Proof.
  intros Hd Hb.
  apply wp_run_eq. apply dec2bin_spec; auto. done.
Qed.

Lemma dec2bin_reads_below_temp_witness :
  dec2bin None 10 (uninit 80) (World tt 0 [])
  = (Halt (HUB (UB_bounds "temp" (-1))), World tt 0 []).
Proof.
  apply (dec2bin_reads_below_temp 10 (uninit 80) (World tt 0 [])); [by vm_compute|vm_compute; discriminate].
Defined.

(** ** hex_dump *)

Definition hex2 (b : Z) : list Z := [hexdigit (b / 16); hexdigit (b mod 16)].

Definition hex4 (z : Z) : list Z :=
  [hexdigit (z / 4096 mod 16); hexdigit (z / 256 mod 16);
   hexdigit (z / 16 mod 16); hexdigit (z mod 16)].

Definition printable (b : Z) : Z := if (31 <? b) && (b <? 127) then b else 46.

Definition pad_to (n : nat) (l : list Z) : list Z := l ++ replicate (n - length l) 32.

(** The line for the bytes [chunk] (sixteen at most): the label, the bytes in
    hexadecimal in columns 8 to 56, their characters from column 58. *)
Definition line_of (label : list Z) (hex : list (list Z)) (chars : list Z) : list Z :=
  pad_to 8 label ++ pad_to 48 (concat (map (.++ [32]) hex))
  ++ replicate 2 32 ++ pad_to 16 chars ++ [10].

Definition dump_line (label chunk : list Z) : list Z :=
  line_of label (map hex2 chunk) (map printable chunk).

Definition chunk_at (data : list Z) (k : nat) : list Z := take 16 (drop (16 * k) data).

(** The lines of a dump: one per sixteen bytes, the last one possibly shorter. *)
Definition dump_lines (label : Z -> list Z) (data : list Z) : list string :=
  map (fun k => text_of (dump_line (label (16 * Z.of_nat k)) (chunk_at data k)))
      (seq 0 ((length data + 15) / 16)).

(** [hex_dump] labels a line with its offset in hexadecimal. *)
Definition hex_label (off : Z) : list Z := 43 :: hex4 off.

Definition hex_lines : list Z -> list string := dump_lines hex_label.

(** The 128 bytes of [buffer] that print as a line. *)
Definition line_buf (l : list Z) : mem := init (l ++ replicate 53 0).

Lemma fmt_0wx_2 b : byte_ok b -> fmt_0wx 2 b = hex2 b.
Proof.
  intros Hb.
  assert (forallb (fun b => bool_decide (fmt_0wx 2 b = hex2 b)) (seqZ 0 256) = true) as H
    by (vm_compute; reflexivity).
  rewrite forallb_forall in H. specialize (H b).
  rewrite bool_decide_eq_true in H. apply H, list_elem_of_In, elem_of_seqZ.
  unfold byte_ok in Hb. lia.
Qed.

Lemma hex4_div z : 0 <= z -> z / 4096 mod 16 = z / 16 / 16 / 16 mod 16 /\ z / 256 mod 16 = z / 16 / 16 mod 16.
Proof. intros. rewrite !Z.div_div by lia. done. Qed.

Lemma fmt_0wx_4 z : 0 <= z < 65536 -> fmt_0wx 4 z = hex4 z.
Proof.
  intros Hz. unfold fmt_0wx, fmt_x. rewrite wrapu_id by (unfold in_u; lia).
  unfold hex4. destruct (hex4_div z) as [-> ->]; [lia|].
  assert (z / 16 / 16 / 16 / 16 = 0).
  { rewrite !Z.div_div by lia. apply Z.div_small. lia. }
  assert (0 <= z / 16 / 16 / 16) by (repeat apply Z.div_pos; lia).
  cbn [hex_digits].
  destruct (Z.eqb_spec (z / 16) 0) as [E|E].
  { rewrite E. done. }
  destruct (Z.eqb_spec (z / 16 / 16) 0) as [E2|E2].
  { rewrite E2. done. }
  destruct (Z.eqb_spec (z / 16 / 16 / 16) 0) as [E3|E3].
  { rewrite E3. done. }
  destruct (Z.eqb_spec (z / 16 / 16 / 16 / 16) 0) as [E4|E4]; [|lia].
  done.
Qed.

Lemma land_255 b : byte_ok b -> Z.land 255 b = b.
Proof.
  intros. rewrite Z.land_comm. change 255 with (Z.ones 8).
  rewrite Z.land_ones by lia. apply Z.mod_small. done.
Qed.


(** Writing the two hexadecimal digits and the character of the next byte turns
    the buffer of a line into the buffer of the line with that byte. *)
Lemma line_buf_step (label : list Z) (h l c : Z) (cells : list (Z * Z * Z)) :
  (length label <= 8)%nat -> (length cells < 16)%nat ->
  let line cs := line_of label (map (fun '(h, l, _) => [h; l]) cs) (map snd cs) in
  zset (blit (line_buf (line cells)) (8 + zlen cells * 3) [h; l])
       (58 + zlen cells) (Some c)
  = line_buf (line (cells ++ [(h, l, c)])).
Proof.
  intros Hlab Hlen. unfold line_of. cbv zeta.
  assert (length (pad_to 8 label) = 8%nat) as H8.
  { unfold pad_to. rewrite length_app, length_replicate. lia. }
  revert H8. generalize (pad_to 8 label). intros t H8.
  do 8 (destruct t as [|? t]; [discriminate|]). destruct t; [|discriminate].
  do 16 (destruct cells as [|[[? ?] ?] cells]; [cbv; reflexivity|]).
  simpl in Hlen. lia.
Qed.

(** Blanking a line and writing a new label gives the buffer of an empty line. *)
Lemma line_buf_reset (label label' : list Z) (cells : list (Z * Z * Z)) :
  (length label <= 8)%nat -> (length label' <= 8)%nat -> length cells = 16%nat ->
  let line cs := line_of label (map (fun '(h, l, _) => [h; l]) cs) (map snd cs) in
  blit (blit (line_buf (line cells)) 0 (replicate 74 32)) 0 label'
  = line_buf (line_of label' [] []).
Proof.
  intros Hlab Hlab' Hlen. unfold line_of at 1. cbv zeta.
  assert (length (pad_to 8 label) = 8%nat) as H8.
  { unfold pad_to. rewrite length_app, length_replicate. lia. }
  revert H8. generalize (pad_to 8 label). intros t H8.
  do 8 (destruct t as [|? t]; [discriminate|]). destruct t; [|discriminate].
  do 16 (destruct cells as [|[[? ?] ?] cells]; [discriminate|]).
  destruct cells; [|discriminate].
  do 9 (destruct label' as [|? label']; [cbv; reflexivity|]). simpl in Hlab'. lia.
Qed.

Definition cell (b : Z) : Z * Z * Z := (hexdigit (b / 16), hexdigit (b mod 16), printable b).

Lemma dump_line_cells label chunk :
  dump_line label chunk
  = line_of label (map (fun '(h, l, _) => [h; l]) (map cell chunk)) (map snd (map cell chunk)).
Proof. unfold dump_line. by rewrite !map_map. Qed.

Lemma place_byte label chunk d :
  (length label <= 8)%nat -> (length chunk < 16)%nat -> byte_ok d ->
  zset (blit (line_buf (dump_line label chunk)) (8 + zlen chunk * 3)
             (take 2 (fmt_0wx 2 (Z.land 255 d))))
       (58 + zlen chunk) (Some (printable d))
  = line_buf (dump_line label (chunk ++ [d])).
Proof.
  intros Hlab Hl Hd. rewrite land_255, fmt_0wx_2, !dump_line_cells by done.
  rewrite map_app. replace (zlen chunk) with (zlen (map cell chunk))
    by (unfold zlen; by rewrite length_map).
  apply line_buf_step; [done|by rewrite length_map].
Qed.

Lemma new_line label label' chunk :
  (length label <= 8)%nat -> (length label' <= 8)%nat -> length chunk = 16%nat ->
  blit (blit (line_buf (dump_line label chunk)) 0 (replicate (Z.to_nat (58 + 16)) 32)) 0 label'
  = line_buf (dump_line label' []).
Proof.
  intros. rewrite dump_line_cells. apply line_buf_reset; [done..|by rewrite length_map].
Qed.

Lemma hexdigit_nz d : 0 <= d -> hexdigit d <> 0.
Proof. unfold hexdigit. intros. destruct (Z.ltb_spec d 10); lia. Qed.

Lemma blanks_nz n : nonzero (replicate n 32).
Proof. by apply Forall_replicate. Qed.

Lemma dump_line_nz label chunk :
  nonzero label -> Forall byte_ok chunk -> nonzero (dump_line label chunk).
Proof.
  intros Ho Hc. unfold dump_line, line_of, pad_to, nonzero in *.
  assert (forall a, 0 <= a mod 16) by (intros; by apply Z.mod_pos_bound).
  rewrite !Forall_app. repeat split; auto using blanks_nz; try apply blanks_nz.
  - induction Hc as [|b l Hb _ IH]; [constructor|]. simpl. unfold byte_ok in Hb.
    constructor; [apply hexdigit_nz; apply Z.div_pos; lia|].
    constructor; [by apply hexdigit_nz|]. by constructor.
  - apply Forall_map. eapply Forall_impl; [done|]. intros b Hb. unfold printable.
    destruct (Z.ltb_spec 31 b), (Z.ltb_spec b 127); simpl; lia.
Qed.

Lemma zlen_dump_line label chunk :
  (length label <= 8)%nat -> (length chunk <= 16)%nat -> zlen (dump_line label chunk) = 75.
Proof.
  intros. unfold dump_line, line_of, pad_to.
  assert (length (concat (map (.++ [32]) (map hex2 chunk))) = (3 * length chunk)%nat) as E.
  { clear. induction chunk; simpl in *; [done|]. lia. }
  rewrite !zlen_app, !zlen_replicate, E, length_map.
  unfold zlen. rewrite E, length_map. simpl. lia.
Qed.

Lemma cstr_line_buf label chunk :
  nonzero label -> Forall byte_ok chunk ->
  cstr_of (zdrop 0 (line_buf (dump_line label chunk))) = Some (dump_line label chunk).
Proof.
  intros. rewrite zdrop_0. unfold line_buf.
  pose proof (cstr_overlay (dump_line label chunk) (replicate 52 0) []) as H1.
  unfold overlay in H1. rewrite drop_nil, app_nil_r in H1. apply H1. by apply dump_line_nz.
Qed.

(** The for loop over the bytes [data] of an object that may go on after them, for
    any way of labelling the lines that fits the eight columns. *)
Section Dump.
Context {K : Type} {HK : Kernel K}.
Context (data : list Z) (Hbytes : Forall byte_ok data) (beyond : list Z).
Context (code : Z -> C K (list Z)) (label : Z -> list Z).
Hypothesis label_fits : forall i, 0 <= i < zlen data \/ i = 0 ->
  (length (label i) <= 8)%nat /\ nonzero (label i).
Hypothesis code_label : forall i w, 0 <= i < zlen data -> code i w = (Done (label i), w).

Definition printed (q : nat) : list event :=
  map (fun k => EvOut stdout (text_of (dump_line (label (16 * Z.of_nat k)) (chunk_at data k))))
      (seq 0 q).

(** The state of the for loop: [q] lines are out, [j] bytes of the next one are
    in the buffer. *)
Definition dump_inv (w0 : world K) (st : Z * Z * mem) (w : world K) : Prop :=
  exists q : nat,
    st.1.1 = 16 * Z.of_nat q + st.1.2 /\ 0 <= st.1.2 <= 16 /\ st.1.1 <= zlen data /\
    (st.1.2 = 0 -> q = 0%nat) /\
    st.2 = line_buf (dump_line (label (16 * Z.of_nat q))
             (take (Z.to_nat st.1.2) (drop (16 * q) data))) /\
    w = World (kern w0) (errno w0) (trace w0 ++ printed q).

Lemma chunk_bytes (q j : nat) : Forall byte_ok (take j (drop (16 * q) data)).
Proof. by apply Forall_take, Forall_drop. Qed.

Lemma printed_S q :
  printed (S q) = printed q ++
    [EvOut stdout (text_of (dump_line (label (16 * Z.of_nat q)) (chunk_at data q)))].
Proof. unfold printed. by rewrite seq_S, map_app. Qed.

(** Storing byte [i] of the data at position [j] of line [q]. *)
Lemma store_byte (q : nat) (i j : Z) (Q : outcome (Z * Z * mem + Z * mem) -> world K -> Prop) w :
  i = 16 * Z.of_nat q + j -> 0 <= j < 16 -> i < zlen data ->
  Q (Done (inl (i + 1, j + 1,
       line_buf (dump_line (label (16 * Z.of_nat q)) (take (Z.to_nat (j + 1)) (drop (16 * q) data)))))) w ->
  wp (d ← rd "data" (init (data ++ beyond)) i;
      let temp := fmt_0wx 2 (Z.land 255 d) in
      buffer ← copy_in "buffer"
        (line_buf (dump_line (label (16 * Z.of_nat q)) (take (Z.to_nat j) (drop (16 * q) data))))
        (8 + j * 3) (take 2 temp);
      buffer ← wr "buffer" buffer (58 + j) (if (31 <? d) && (d <? 127) then d else 46);
      mret (inl (i + 1, j + 1, buffer))) Q w.
Proof.
  intros Hi Hj Hd HQ. pose proof (zlen_nonneg data).
  destruct (label_fits (16 * Z.of_nat q)) as [Hlab _]; [lia|].
  destruct (znth_Some data i) as [d Ed]; [lia|].
  assert (Hl : drop (16 * q) data !! Z.to_nat j = Some d).
  { unfold znth in Ed. destruct (Z.ltb_spec i 0); [lia|].
    rewrite lookup_drop, <- Ed. f_equal. lia. }
  assert (Hb : byte_ok d).
  { eapply Forall_lookup_1; [exact (Forall_drop _ (16 * q) _ Hbytes)|exact Hl]. }
  set (chunk := take (Z.to_nat j) (drop (16 * q) data)) in *.
  assert (Hc : zlen chunk = j).
  { unfold chunk, zlen. rewrite length_take. apply lookup_lt_Some in Hl. lia. }
  assert (Hbuf : zlen (line_buf (dump_line (label (16 * Z.of_nat q)) chunk)) = 128).
  { unfold line_buf. rewrite zlen_init, zlen_app, zlen_dump_line, zlen_replicate; [done|done|].
    unfold zlen in Hc. lia. }
  wp_step. eapply wp_rd.
  { apply znth_init. rewrite znth_app by lia. destruct (Z.ltb_spec i (zlen data)); [done|lia]. }
  cbn [post]. wp_step. rewrite land_255, fmt_0wx_2 by done.
  apply wp_copy_in; [lia|rewrite Hbuf; unfold zlen; simpl; lia|]. cbn [post].
  wp_step. apply wp_wr.
  { rewrite zlen_blit; [lia|lia|]. rewrite Hbuf. unfold zlen; simpl; lia. }
  cbn [post]. wp_step. revert HQ.
  replace (take (Z.to_nat (j + 1)) (drop (16 * q) data)) with (chunk ++ [d]).
  2: { unfold chunk. rewrite <- (take_S_r _ _ _ Hl). f_equal. lia. }
  rewrite <- place_byte by (done || (unfold zlen in Hc; lia)).
  by rewrite land_255, fmt_0wx_2, Hc by done.
Qed.

Lemma dump_iter_inv w0 st w :
  dump_inv w0 st w ->
  wp (dump_iter code (data ++ beyond) (zlen data) st)
     (post (fun x w' => match x with
              | inl st' => dump_inv w0 st' w' /\
                  (Z.to_nat (zlen data - st'.1.1) < Z.to_nat (zlen data - st.1.1))%nat
              | inr (j, buf) => dump_inv w0 (zlen data, j, buf) w'
              end) (fun _ _ => False)) w.
Proof.
  destruct st as [[i j] buf]. intros (q & Hi & Hj & Hle & H0 & Hb & ->).
  cbn [fst snd] in *. subst buf.
  unfold dump_iter. wp_step.
  2: { assert (i = zlen data) by lia. wp_step. exists q. simpl. repeat split; auto; lia. }
  destruct (label_fits (16 * Z.of_nat q)) as [Hlab Hnz]; [lia|].
  wp_step. destruct (Z.eqb_spec j 16) as [->|Hne].
  - assert (Hc : length (take (Z.to_nat 16) (drop (16 * q) data)) = 16%nat).
    { rewrite length_take, length_drop. unfold zlen in *. lia. }
    assert (Hlen : zlen (line_buf (dump_line (label (16 * Z.of_nat q))
                     (take (Z.to_nat 16) (drop (16 * q) data)))) = 128).
    { unfold line_buf. rewrite zlen_init, zlen_app, zlen_dump_line, zlen_replicate by lia. done. }
    destruct (label_fits i) as [Hlab' _]; [lia|].
    wp_step. eapply wp_cstr; [apply cstr_line_buf; [done|apply chunk_bytes]|]. cbn [post].
    do 2 wp_step. wp_step. unfold memset. apply wp_copy_in; [lia| |].
    { rewrite Hlen, zlen_replicate. lia. }
    cbn [post]. wp_step. eapply wp_of_run; [by apply code_label; lia|]. cbn [post].
    wp_step. apply wp_copy_in; [lia| |].
    { rewrite zlen_blit by (rewrite ?Hlen, ?zlen_replicate; lia).
      rewrite Hlen. unfold zlen. lia. }
    cbn [post]. wp_step. rewrite new_line by lia.
    replace i with (16 * Z.of_nat (S q)) by lia.
    change (dump_line (label (16 * Z.of_nat (S q))) [])
      with (dump_line (label (16 * Z.of_nat (S q))) (take (Z.to_nat 0) (drop (16 * S q) data))).
    apply store_byte; [lia|lia|lia|]. cbn [post]. split; [|simpl; lia].
    exists (S q). cbn [fst snd]. repeat split; try lia.
    simpl trace. by rewrite <- app_assoc, printed_S.
  - wp_step. apply store_byte; [lia|lia|lia|]. cbn [post].
    split; [|simpl; lia]. exists q. cbn [fst snd]. repeat split; lia.
Qed.

Lemma dump_loop_spec w0 buf (Q : outcome (Z * mem) -> world K -> Prop) w :
  dump_inv w0 (0, 0, buf) w ->
  (forall j buf' w', dump_inv w0 (zlen data, j, buf') w' -> Q (Done (j, buf')) w') ->
  wp (loop (S (Z.to_nat (zlen data))) (dump_iter code (data ++ beyond) (zlen data)) (0, 0, buf)) Q w.
Proof.
  intros HI HQ.
  apply (wp_loop_total (dump_inv w0) (fun st _ => Z.to_nat (zlen data - st.1.1)));
    [|done|simpl; lia].
  intros st w' H. eapply wp_mono; [|by apply dump_iter_inv].
  intros [[st'|[j b]]|h] w''; cbn [post]; [done|apply HQ|done].
Qed.

(** The lines of the data, once [q] full lines and a last one of [j] bytes are known. *)
Lemma dump_lines_last (q : nat) (j : Z) :
  zlen data = 16 * Z.of_nat q + j -> 0 < j <= 16 ->
  map (EvOut stdout) (dump_lines label data) = printed (S q) /\
  take (Z.to_nat j) (drop (16 * q) data) = chunk_at data q.
Proof.
  unfold zlen. intros Hl Hj. split.
  - unfold dump_lines, printed. rewrite map_map.
    replace ((length data + 15) / 16)%nat with (S q); [done|].
    apply (Nat.div_unique _ _ _ (Z.to_nat j - 1)); lia.
  - unfold chunk_at. rewrite !take_ge; rewrite ?length_drop; [done|lia..].
Qed.

(** The loop from an empty first line, and the print of the last line after it. *)
Lemma wp_dump_body (w : world K) (Q : outcome unit -> world K -> Prop) :
  Q (Done tt) (World (kern w) (errno w) (trace w ++ map (EvOut stdout) (dump_lines label data))) ->
  wp ('(j, buffer) ← loop (S (Z.to_nat (zlen data))) (dump_iter code (data ++ beyond) (zlen data))
                       (0, 0, line_buf (dump_line (label 0) []));
      if negb (j =? 0) then line ← cstr "buffer" buffer 0; printf (text_of line)
      else mret tt) Q w.
Proof.
  intros HQ. wp_step. apply (dump_loop_spec w).
  { exists 0%nat. cbn [fst snd]. unfold printed. cbn [seq map]. rewrite app_nil_r.
    pose proof (zlen_nonneg data). destruct w. repeat split; cbn; lia. }
  intros j buf w' (q & Hi & Hj & _ & H0 & Hbuf & ->). cbn [fst snd] in *. subst buf. cbn [post].
  destruct (Z.eqb_spec j 0) as [->|Hne]; cbn [negb].
  - wp_step. rewrite H0 in * by done. unfold dump_lines in HQ.
    rewrite (zlen_0 data) in HQ by lia. done.
  - destruct (label_fits (16 * Z.of_nat q)) as [_ Hnz]; [lia|].
    wp_step. eapply wp_cstr; [apply cstr_line_buf; [done|by apply chunk_bytes]|]. cbn [post].
    wp_step. cbn [kern errno trace].
    destruct (dump_lines_last q j) as [E1 ->]; [lia|lia|].
    rewrite E1, printed_S in HQ. by rewrite <- app_assoc.
Qed.

End Dump.

Lemma hex_label_fits i : 0 <= i -> (length (hex_label i) <= 8)%nat /\ nonzero (hex_label i).
Proof.
  intros. split; [cbn; lia|]. unfold hex_label, hex4. repeat constructor; try done;
    apply hexdigit_nz; by apply Z.mod_pos_bound.
Qed.

(** On at most 64 KiB of data, hex_dump never leaves its 128-byte line buffer
    and prints the ruler followed by exactly the lines of the data, sixteen
    bytes a line, each byte in hexadecimal and as a character. *)
Theorem hex_dump_correct {K} (data : list Z) (addr : string) (w : world K) :
  Forall byte_ok data -> zlen data <= 65536 ->
  hex_dump data (zlen data) None 0 addr w
  = (Done tt, World (kern w) (errno w)
       (trace w ++ EvOut stdout ruler :: map (EvOut stdout) (hex_lines data))).
Proof.
  intros Hb Hs.
  apply wp_run_eq. unfold hex_dump. wp_step. unfold memset at 1.
  apply wp_copy_in; [done|done|]. cbn [post]. do 4 wp_step.
  wp_step. unfold memset. apply wp_copy_in; [done|done|]. cbn [post].
  do 7 (wp_step; apply wp_wr; [by vm_compute|]; cbn [post]).
  rewrite <- (app_nil_r data) at 2. apply (wp_dump_body data Hb [] _ hex_label).
  - intros i Hi. apply hex_label_fits. lia.
  - intros i w' Hi. by rewrite fmt_0wx_4 by lia.
  - cbn [kern errno trace]. split; [done|]. by rewrite <- app_assoc.
Qed.

Lemma hex_dump_correct_witness :
  hex_dump (bytes_of "a dump of some bytes") 20 None 0 EmptyString (World tt 0 [])
  = (Done tt, World tt 0 ([] ++ EvOut stdout ruler
       :: map (EvOut stdout) (hex_lines (bytes_of "a dump of some bytes")))).
Proof.
  apply (hex_dump_correct (bytes_of "a dump of some bytes") EmptyString (World tt 0 [])).
  - apply bytes_of_range.
  - vm_compute. discriminate.
Defined.

(** ** r_sleep *)

Definition nanosleep (req : Z * Z) : call := Csys "nanosleep" [AI req.1; AI req.2].

Definition remaining (r : resp) : Z * Z := (nth 0 (out r) 0, nth 1 (out r) 0).

Definition nanoseconds (t : Z * Z) : Z := t.1 * 1000000000 + t.2.

(** The calls [r_sleep] makes: it asks for the time that remained whenever it was
    interrupted, and stops at the first answer that is not an interruption. *)
Inductive sleep_chain : Z * Z -> list event -> Z -> Prop :=
| chain_slept req r :
    ret r <> -1 -> sleep_chain req [EvCall (nanosleep req) r] 0
| chain_error req r :
    ret r = -1 -> err r <> EINTR -> sleep_chain req [EvCall (nanosleep req) r] (-1)
| chain_intr req r tr z :
    ret r = -1 -> err r = EINTR -> sleep_chain (remaining r) tr z ->
    sleep_chain req (EvCall (nanosleep req) r :: tr) z.

Section Sleep.
Context {K : Type} {HK : Kernel K}.

(** What interrupts a sleep leaves less time to sleep than was asked for. *)
Context (progress : forall req k,
  ret (fst (kstep (nanosleep req) k)) = -1 -> err (fst (kstep (nanosleep req) k)) = EINTR ->
  0 <= nanoseconds (remaining (fst (kstep (nanosleep req) k))) < nanoseconds req).

Lemma r_sleep_chain fuel : forall req (w : world K),
  0 <= nanoseconds req < Z.of_nat fuel ->
  wp (loop fuel r_sleep_iter req)
     (fun o w' => exists z tr, o = Done z /\ trace w' = trace w ++ tr /\ sleep_chain req tr z) w.
Proof.
  induction fuel as [|fuel IH]; intros req w Hf; [lia|].
  cbn [loop]. wp_step. unfold r_sleep_iter at 1. do 2 wp_step.
  specialize (progress req (kern w)). unfold nanosleep in progress. rewrite Hk in progress.
  cbn [fst] in progress. wp_step.
  - do 2 wp_step. world_simp. rewrite Hb. destruct (Z.eqb_spec (err r) EINTR); cbn [negb].
    + wp_step. eapply wp_mono; [|apply IH].
      * intros o w' (z & tr & -> & Htr & Hc).
        exists z, (EvCall (nanosleep req) r :: tr). split; [done|]. split.
        -- rewrite Htr. cbn [trace after]. by rewrite <- app_assoc.
        -- apply chain_intr; [lia|done|done].
      * assert (ret r = -1) as E by lia. specialize (progress E e). unfold remaining in progress. lia.
    + wp_step. wp_step. do 2 eexists. split; [done|]. split; [done|].
      apply chain_error; [lia|done].
  - wp_step. wp_step. do 2 eexists. split; [done|]. split; [done|].
    apply chain_slept. lia.
Qed.

End Sleep.

(** Interrupted any number of times, r_sleep keeps asking for exactly the time
    that remained, returns 0 once a sleep completes and -1 only on an error that
    is not an interruption; as long as an interrupted sleep leaves less time than
    it was asked for, it returns. *)
Theorem r_sleep_total {K} `{Kernel K} (sec nsec : Z) (fuel : nat) (w : world K) :
  (forall req k,
     ret (fst (kstep (nanosleep req) k)) = -1 -> err (fst (kstep (nanosleep req) k)) = EINTR ->
     0 <= nanoseconds (remaining (fst (kstep (nanosleep req) k))) < nanoseconds req) ->
  0 <= nanoseconds (sec, nsec) < Z.of_nat fuel ->
  exists z w' tr,
    r_sleep fuel sec nsec w = (Done z, w') /\ trace w' = trace w ++ tr /\
    sleep_chain (sec, nsec) tr z.
Proof.
  intros Hp Hf.
  destruct (wp_run _ _ _ (r_sleep_chain Hp fuel (sec, nsec) w Hf))
    as (o & w' & E & z & tr & -> & ?).
  by exists z, w', tr.
Qed.

(** A kernel whose sleeps are interrupted once a millisecond. *)
#[local] Instance ticking_kernel : Kernel unit :=
  fun c k =>
    match c with
    | Csys "nanosleep" [AI s; AI ns] =>
        if nanoseconds (s, ns) <=? 1000000 then (Resp 0 0 [], k)
        else let left := nanoseconds (s, ns) - 1000000 in
             (Resp (-1) EINTR [left / 1000000000; left mod 1000000000], k)
    | _ => (Resp 0 0 [], k)
    end.

Lemma r_sleep_total_witness :
  exists z w' tr,
    r_sleep (Z.to_nat 3000001) 0 3000000 (World tt 0 []) = (Done z, w') /\ trace w' = [] ++ tr /\
    sleep_chain (0, 3000000) tr z.
Proof.
  apply (r_sleep_total 0 3000000 (Z.to_nat 3000001) (World tt 0 [])).
  - intros [s ns] k. cbn. destruct (Z.leb_spec (nanoseconds (s, ns)) 1000000); cbn; [done|].
    intros _ _. unfold nanoseconds, remaining. cbn [out nth fst snd].
    pose proof (Z.div_mod (nanoseconds (s, ns) - 1000000) 1000000000 ltac:(lia)).
    unfold nanoseconds in *. cbn [fst snd] in *. lia.
  - rewrite Z2Nat.id by lia. vm_compute. by split.
Defined.

(** ** handle_err *)

Section HandleErr.
Context {K : Type} {HK : Kernel K}.

(** What [handle_err] does once its buffer is allocated: the message, cut to 510
    characters, the text of [errno] if one is set, the release of the buffer. *)
Definition err_report (msg : string) (e p : Z) (r : resp) : list event :=
  EvOut stderr (snprintf (ERRSTRMAX - 1) msg)
  :: (if e =? 0 then [] else [EvPerror "perror says" e]) ++ [EvCall (Cfree p) r].

Lemma handle_err_spec fatal msg (w : world K) p k :
  kstep (Cmalloc ERRSTRMAX) (kern w) = (p, k) ->
  wp (handle_err fatal msg)
     (fun o w' =>
        if ret p =? 0
        then o = Done (-1) /\ trace w' = trace w ++ [EvCall (Cmalloc ERRSTRMAX) p]
        else o = (if fatal =? 0 then Done 0 else Halt (HExit fatal)) /\
             exists r, trace w' = trace w ++ EvCall (Cmalloc ERRSTRMAX) p
                                  :: err_report msg (errno w) (ret p) r) w.
Proof.
  intros E. unfold handle_err, err_report. do 2 wp_step. rewrite E in Hk.
  injection Hk as <- <-. cbn [post].
  destruct (Z.eqb_spec (ret p) 0) as [E0|E0]; [by wp_step|].
  wp_go; world_simp; destruct (Z.eqb_spec (ret p) 0); try done;
    destruct (errno w =? 0); try done; (split; [done|]); eexists; by rewrite <- !app_assoc.
Qed.

End HandleErr.

(** FATAL ends the process with status EXIT_FAILURE unless its own message
    buffer cannot be allocated; then it prints nothing and returns. *)
Theorem FATAL_exits_iff_memory {K} `{Kernel K} file func line msg (w : world K) :
  let p := fst (kstep (Cmalloc ERRSTRMAX) (kern w)) in
  (ret p <> 0 -> fst (FATAL file func line msg w) = Halt (HExit EXIT_FAILURE)) /\
  (ret p = 0 -> fst (FATAL file func line msg w) = Done tt /\
                trace (snd (FATAL file func line msg w))
                = trace w ++ [EvCall (Cmalloc ERRSTRMAX) p]).
Proof.
  destruct (kstep (Cmalloc ERRSTRMAX) (kern w)) as [p k] eqn:E. cbn [fst].
  pose proof (handle_err_spec EXIT_FAILURE
    (cat ["FATAL:"; file; ":"; func; ":"; fmt_d line; ": "; msg]) w p k E) as Hw.
  unfold wp in Hw. unfold FATAL, mbind, C_bind.
  destruct (handle_err _ _ w) as [o w']. cbn [fst snd] in Hw.
  split; intros Hp.
  - destruct (Z.eqb_spec (ret p) 0); [done|]. by destruct Hw as [-> _].
  - destruct (Z.eqb_spec (ret p) 0); [|done]. by destruct Hw as [-> ?].
Qed.

Lemma FATAL_exits_iff_memory_witness :
  fst (FATAL "a.c" "main" 7 "no space" (World [Resp 64 0 []] ENOMEM []))
    = Halt (HExit EXIT_FAILURE) /\
  fst (FATAL "a.c" "main" 7 "no space" (World [Resp 0 ENOMEM []] 0 [])) = Done tt.
Proof.
  split.
  - apply (FATAL_exits_iff_memory "a.c" "main" 7 "no space" (World [Resp 64 0 []] ENOMEM [])).
    done.
  - apply (FATAL_exits_iff_memory "a.c" "main" 7 "no space" (World [Resp 0 ENOMEM []] 0 [])).
    done.
Defined.

(** ** The delay loop *)

Lemma DELAY_LOOP_writes {K} `{Kernel K} val count (w : world K) :
  0 <= count ->
  wp (DELAY_LOOP val count)
     (fun o w' => o = Done tt /\ exists rs, length rs = Z.to_nat count /\
        trace w' = trace w ++ map (EvCall (Cwrite STDOUT_FILENO [to_uchar val])) rs) w.
Proof.
  intros Hc. unfold DELAY_LOOP.
  apply (wp_loop_total
    (fun i w' => 0 <= i <= count /\ exists rs, length rs = Z.to_nat i /\
       trace w' = trace w ++ map (EvCall (Cwrite STDOUT_FILENO [to_uchar val])) rs)
    (fun i _ => Z.to_nat (count - i))).
  - intros i w' (Hi & rs & Hl & Ht). wp_step.
    + unfold beep. wp_go. split; [|lia]. split; [lia|].
      exists (rs ++ [r]). rewrite length_app, map_app. cbn [length map after trace].
      split; [lia|]. by rewrite Ht, <- app_assoc.
    + assert (i = count) as -> by lia. wp_step. split; [done|]. by exists rs.
  - split; [lia|]. exists []. by rewrite app_nil_r.
  - lia.
Qed.
