(* ===== verification/Restart.v ===== *)
(** src/restart_lib-Robbins.c: the restart library.  System calls that a signal
    interrupts are made again, partial writes are continued, and blocks, lines
    and whole files are read and copied on top of that. *)
From S2P Require Import Prelude CMonad CLib Common.

(** ** Data that crossed a descriptor *)

(** The bytes the kernel accepted on [fd], and the bytes it delivered from it. *)
Definition accepted1 (fd : Z) (e : event) : list Z :=
  match e with
  | EvCall (Cwrite fd' d) r => if (fd' =? fd) && (0 <? ret r) then ztake (ret r) d else []
  | _ => []
  end.

Definition received1 (fd : Z) (e : event) : list Z :=
  match e with
  | EvCall (Cread fd' _) r => if (fd' =? fd) && (0 <? ret r) then ztake (ret r) (out r) else []
  | _ => []
  end.

Definition accepted (fd : Z) (tr : list event) : list Z := concat (map (accepted1 fd) tr).

Definition received (fd : Z) (tr : list event) : list Z := concat (map (received1 fd) tr).

Section Code.
Context {K : Type} {HK : Kernel K}.

Definition MILLION : Z := 1000000.
Definition BLKSIZE : Z := 4096.
Definition FD_SETSIZE : Z := 1024.

Definition gettimeout (endt : timeval) : C K (Z * timeval) :=
  r ← syscall (Csys "gettimeofday" []);
  let s := tv_sec endt - nth 0 (out r) 0 in
  let us := tv_usec endt - nth 1 (out r) 0 in
  let '(s, us) := if MILLION <=? us then (s + 1, us - MILLION) else (s, us) in
  let '(s, us) := if us <? 0 then (s - 1, us + MILLION) else (s, us) in
  if (s <? 0) || ((s =? 0) && (us =? 0)) then
    set_errno ETIME;; mret (-1, Timeval s us)
  else mret (0, Timeval s us).

(** [while (retval = call, retval == -1 && errno == EINTR) ;] *)
Definition restart_iter (c : call) (_ : unit) : C K (unit + resp) :=
  r ← syscall c;
  e ← get_errno;
  if (ret r =? -1) && (e =? EINTR) then mret (inl tt) else mret (inr r).

Definition restart (fuel : nat) (c : call) : C K resp := loop fuel (restart_iter c) tt.

Definition r_close (fuel : nat) (fildes : Z) : C K Z :=
  r ← restart fuel (Cclose fildes); mret (ret r).

Definition r_dup2 (fuel : nat) (fildes fildes2 : Z) : C K Z :=
  r ← restart fuel (Csys "dup2" [AI fildes; AI fildes2]); mret (ret r).

Definition r_open2 (fuel : nat) (path : string) (oflag : Z) : C K Z :=
  r ← restart fuel (Copen path oflag 0); mret (ret r).

Definition r_open3 (fuel : nat) (path : string) (oflag mode : Z) : C K Z :=
  r ← restart fuel (Copen path oflag mode); mret (ret r).

(** The return value, and what [read] stored at the start of [buf]. *)
Definition r_read (fuel : nat) (fd size : Z) : C K (Z * list Z) :=
  r ← restart fuel (Cread fd size); mret (ret r, out r).

Definition r_wait (fuel : nat) : C K Z :=
  r ← restart fuel (Csys "wait" []); mret (ret r).

Definition r_waitpid (fuel : nat) (pid options : Z) : C K Z :=
  r ← restart fuel (Csys "waitpid" [AI pid; AI options]); mret (ret r).

(** [write(fd, buf + off, n)]: the bytes must lie inside the object. *)
Definition write_from (fd : Z) (buf : list Z) (off n : Z) : C K Z :=
  if zlen buf <? off + n then undefined (UB_bounds "buf" (zlen buf))
  else r ← syscall (Cwrite fd (ztake n (zdrop off buf))); mret (ret r).

Definition r_write_iter (fd : Z) (buf : list Z) (st : Z * Z * Z) : C K ((Z * Z * Z) + Z) :=
  let '(bufp, bytestowrite, totalbytes) := st in
  if 0 <? bytestowrite then
    byteswritten ← write_from fd buf bufp bytestowrite;
    e ← get_errno;
    if (byteswritten =? -1) && negb (e =? EINTR) then mret (inr (-1))
    else
      let byteswritten := if byteswritten =? -1 then 0 else byteswritten in
      mret (inl (bufp + byteswritten, to_size_t (bytestowrite - byteswritten),
                 to_size_t (totalbytes + byteswritten)))
  else mret (inr (to_long totalbytes)).

Definition r_write (fuel : nat) (fd : Z) (buf : list Z) (size : Z) : C K Z :=
  loop fuel (r_write_iter fd buf) (0, to_size_t size, 0).

(** [add2currenttime(seconds)]: [isec] is [(int)seconds] and [iusec] the rounded
    microseconds, the two conversions from double the function makes. *)
Definition add2currenttime (isec iusec : Z) : C K timeval :=
  r ← syscall (Csys "gettimeofday" []);
  let s := nth 0 (out r) 0 + isec in
  let us := nth 1 (out r) 0 + iusec in
  if MILLION <=? us then mret (Timeval (s + 1) (us - MILLION))
  else mret (Timeval s us).

Definition readwrite (fuel : nat) (fromfd tofd : Z) : C K Z :=
  '(bytesread, buf) ← r_read fuel fromfd BLKSIZE;
  if bytesread <? 0 then mret (-1)
  else if bytesread =? 0 then mret 0
  else
    n ← r_write fuel tofd buf bytesread;
    if n <? 0 then mret (-1) else mret bytesread.

Definition copyfile (fuel : nat) (fromfd tofd : Z) : C K Z :=
  loop fuel (fun totalbytes =>
    bytesread ← readwrite fuel fromfd tofd;
    if 0 <? bytesread then
      if INT_MAX <? totalbytes + bytesread then undefined (UB_overflow "totalbytes")
      else mret (inl (totalbytes + bytesread))
    else mret (inr totalbytes)) 0.

(** [readblock(fd, buf, size)]: the return value and the new contents of [buf]. *)
Definition readblock_iter (fd : Z) (st : Z * Z * Z * mem) : C K ((Z * Z * Z * mem) + (Z * mem)) :=
  let '(bufp, bytestoread, totalbytes, buf) := st in
  if 0 <? bytestoread then
    r ← syscall (Cread fd bytestoread);
    let bytesread := ret r in
    if (bytesread =? 0) && (totalbytes =? 0) then mret (inr (0, buf))
    else if bytesread =? 0 then set_errno EINVAL;; mret (inr (-1, buf))
    else
      e ← get_errno;
      if (bytesread =? -1) && negb (e =? EINTR) then mret (inr (-1, buf))
      else if bytesread =? -1 then mret (inl (bufp, bytestoread, totalbytes, buf))
      else
        buf ← copy_in "buf" buf bufp (out r);
        mret (inl (bufp + bytesread, to_size_t (bytestoread - bytesread),
                   to_size_t (totalbytes + bytesread), buf))
  else mret (inr (to_long totalbytes, buf)).

Definition readblock (fuel : nat) (fd : Z) (buf : mem) (size : Z) : C K (Z * mem) :=
  loop fuel (readblock_iter fd) (0, to_size_t size, 0, buf).

Definition readline_iter (fd nbytes : Z) (st : Z * mem) : C K ((Z * mem) + (Z * mem)) :=
  let '(numread, buf) := st in
  if numread <? nbytes - 1 then
    r ← syscall (Cread fd 1);
    let returnval := ret r in
    buf ← (if 0 <? returnval then copy_in "buf" buf numread (out r) else mret buf);
    e ← get_errno;
    if (returnval =? -1) && (e =? EINTR) then mret (inl (numread, buf))
    else if (returnval =? 0) && (numread =? 0) then mret (inr (0, buf))
    else if returnval =? 0 then set_errno EINVAL;; mret (inr (-1, buf))
    else if returnval =? -1 then mret (inr (-1, buf))
    else
      let numread := numread + 1 in
      c ← rd "buf" buf (numread - 1);
      if c =? 10 then
        buf ← wr "buf" buf numread 0;
        mret (inr (numread, buf))
      else mret (inl (numread, buf))
  else set_errno EINVAL;; mret (inr (-1, buf)).

(** [readline(fd, buf, nbytes)]: the return value and the new contents of [buf]. *)
Definition readline (fuel : nat) (fd : Z) (buf : mem) (nbytes : Z) : C K (Z * mem) :=
  loop fuel (readline_iter fd nbytes) (0, buf).

Definition waitfdtimed (fuel : nat) (fd : Z) (endt : timeval) : C K Z :=
  if (fd <? 0) || (FD_SETSIZE <=? fd) then set_errno EINVAL;; mret (-1)
  else
    '(r, timeout) ← gettimeout endt;
    if r =? -1 then mret (-1)
    else
      retval ← loop fuel (fun timeout =>
        retval ← sys "select" [AI (fd + 1); AI fd; AI (tv_sec timeout); AI (tv_usec timeout)];
        e ← get_errno;
        if (retval =? -1) && (e =? EINTR) then
          '(r, timeout) ← gettimeout endt;
          if r =? -1 then mret (inr None) else mret (inl timeout)
        else mret (inr (Some retval))) timeout;
      match retval with
      | None => mret (-1)
      | Some retval =>
          if retval =? 0 then set_errno ETIME;; mret (-1)
          else if retval =? -1 then mret (-1)
          else mret 0
      end.

Definition readtimed (fuel : nat) (fd nbyte isec iusec : Z) : C K (Z * list Z) :=
  timedone ← add2currenttime isec iusec;
  w ← waitfdtimed fuel fd timedone;
  if w =? -1 then mret (-1, [])
  else r_read fuel fd nbyte.

Definition readwriteblock (fuel : nat) (fromfd tofd : Z) (buf : mem) (size : Z)
    : C K (Z * mem) :=
  '(bytesread, buf) ← readblock fuel fromfd buf size;
  if negb (bytesread =? size) then mret (bytesread, buf)
  else
    match mapM id (ztake size buf) with
    | None => undefined (UB_uninit "buf" size)
    | Some bs => n ← r_write fuel tofd bs size; mret (n, buf)
    end.

End Code.

(** ** Kernels under a finite number of signals

    [patience] bounds the interruptions still to come and [pending] the bytes
    still to be read from a descriptor; a write of some bytes that succeeds takes
    at least one. *)
Class LiveKernel (K : Type) {HK : Kernel K} {HP : PosixKernel K} := {
  patience : K -> nat;
  patience_le : forall c k, (patience (snd (kstep c k)) <= patience k)%nat;
  patience_lt : forall c k,
    ret (fst (kstep c k)) = -1 -> err (fst (kstep c k)) = EINTR ->
    (patience (snd (kstep c k)) < patience k)%nat;
  pending : Z -> K -> nat;
  pending_le : forall c k fd, (pending fd (snd (kstep c k)) <= pending fd k)%nat;
  pending_read : forall fd n k,
    (pending fd (snd (kstep (Cread fd n) k)) + Z.to_nat (ret (fst (kstep (Cread fd n) k)))
     <= pending fd k)%nat;
  write_progress : forall fd d k, d <> [] -> ret (fst (kstep (Cwrite fd d) k)) <> 0
}.

(** [k'] is not further from the end of its signals and of its input than [k]. *)
Definition calmer {K} `{LiveKernel K} (k k' : K) : Prop :=
  (patience k' <= patience k)%nat /\ forall fd, (pending fd k' <= pending fd k)%nat.

(** A kernel with one input and one output, a list of signals to deliver and a
    limit on the bytes one call moves. *)
Record pipe := Pipe { p_in : list Z; p_out : list Z; p_sigs : list bool; p_chunk : nat }.

Definition pipe_next (k : pipe) : bool * pipe :=
  match p_sigs k with
  | b :: bs => (b, Pipe (p_in k) (p_out k) bs (p_chunk k))
  | [] => (false, k)
  end.

#[export] Instance pipe_kernel : Kernel pipe :=
  fun c k =>
    let '(intr, k) := pipe_next k in
    if intr && call_failed c (-1) then (Resp (-1) EINTR [], k)
    else
      match c with
      | Cread _ n =>
          if n <? 0 then (Resp (-1) EINVAL [], k) else
          let bs := map to_uchar (take (Nat.min (S (p_chunk k)) (Z.to_nat n)) (p_in k)) in
          (Resp (zlen bs) 0 bs,
           Pipe (drop (length bs) (p_in k)) (p_out k) (p_sigs k) (p_chunk k))
      | Cwrite _ d =>
          let bs := take (S (p_chunk k)) d in
          (Resp (zlen bs) 0 [], Pipe (p_in k) (p_out k ++ bs) (p_sigs k) (p_chunk k))
      | Copen _ _ _ => (Resp 3 0 [], k)
      | Cmalloc _ => (Resp 4096 0 [], k)
      | Csys fn _ => (Resp (if call_failed c 0 then 1 else 0) 0 [], k)
      | _ => (Resp 0 0 [], k)
      end.

Lemma pipe_not_failed fn args :
  call_failed (Csys fn args) (if call_failed (Csys fn args) 0 then 1 else 0) = false.
Proof.
  simpl. destruct (decide (fn ∈ ptr_calls)); [done|].
  by destruct (decide (fn ∈ code_calls)).
Qed.

#[export] Instance pipe_posix : PosixKernel pipe.
Proof.
  intros c k. unfold kstep, pipe_kernel. destruct (pipe_next k) as [intr k'].
  destruct (intr && call_failed c (-1)) eqn:E.
  - unfold resp_ok. cbn [ret err out fst]. split; [done|].
    apply andb_true_iff in E as [_ E]. destruct c; cbn in *; auto with lia.
  - destruct c; unfold resp_ok; try (destruct (Z.ltb_spec n 0); [by split; [|left]|]);
      cbn [ret err out fst]; (split; [|auto with lia]).
    + unfold call_failed. rewrite Z.eqb_eq. by intros ?%zlen_neg.
    + right. split_and!; [apply zlen_nonneg| |done|].
      * unfold zlen. rewrite length_map, length_take. lia.
      * apply Forall_map, Forall_true. intros. apply to_uchar_range.
    + unfold call_failed. rewrite Z.eqb_eq. by intros ?%zlen_neg.
    + right. split; [apply zlen_nonneg|]. unfold zlen. rewrite length_take. lia.
    + done.
    + done.
    + done.
    + done.
    + by rewrite pipe_not_failed.
Qed.

Lemma pipe_next_sigs k : (length (p_sigs (pipe_next k).2) <= length (p_sigs k))%nat.
Proof. unfold pipe_next. destruct (p_sigs k) eqn:E; simpl; rewrite ?E; simpl; lia. Qed.

Lemma pipe_next_in k : p_in (pipe_next k).2 = p_in k.
Proof. unfold pipe_next. by destruct (p_sigs k). Qed.

#[export] Program Instance pipe_live : LiveKernel pipe :=
  {| patience k := length (p_sigs k); pending fd k := length (p_in k) |}.
Next Obligation.
  intros c k. unfold kstep, pipe_kernel. pose proof (pipe_next_sigs k).
  destruct (pipe_next k) as [intr k']. destruct (intr && _); [done|].
  destruct c; try done. by destruct (n <? 0).
Qed.
Next Obligation.
  intros c k. unfold kstep, pipe_kernel, pipe_next.
  destruct (p_sigs k) as [|b bs] eqn:E.
  - destruct c; cbn [andb fst ret err]; try done. by destruct (n <? 0).
  - destruct (b && call_failed c (-1)) eqn:Eb; [simpl; lia|].
    destruct c; try (destruct (n <? 0)); simpl; intros; lia || done.
Qed.
Next Obligation.
  intros c k fd. unfold kstep, pipe_kernel. rewrite <- (pipe_next_in k).
  destruct (pipe_next k) as [intr k']. destruct (intr && _); [done|].
  destruct c; try done. destruct (n <? 0); [done|]. cbn. rewrite length_drop. simpl. lia.
Qed.
Next Obligation.
  intros fd n k. unfold kstep, pipe_kernel. rewrite <- (pipe_next_in k).
  destruct (pipe_next k) as [intr k']. destruct (intr && _); [simpl; lia|].
  destruct (n <? 0); [simpl; lia|]. cbn [fst snd ret p_in]. unfold zlen.
  rewrite Nat2Z.id, length_drop, length_map, length_take. lia.
Qed.
Next Obligation.
  intros fd d k Hd. unfold kstep, pipe_kernel. destruct (pipe_next k) as [intr k'].
  destruct (intr && _); [done|]. destruct d; [done|]. cbn. unfold zlen. simpl. lia.
Qed.

(** ** Specifications of the wrappers *)

Definition interrupted (r : resp) : Prop := ret r = -1 /\ err r = EINTR.

(** The calls of a restarted system call: interruptions, then the answer. *)
Definition restarted (c : call) (tr : list event) (r : resp) : Prop :=
  exists ints, Forall interrupted ints /\ ~ interrupted r /\ tr = map (EvCall c) (ints ++ [r]).

Lemma restarted_last c r : ~ interrupted r -> restarted c [EvCall c r] r.
Proof. exists []. auto. Qed.

Lemma restarted_cons c r tr r' :
  interrupted r -> restarted c tr r' -> restarted c (EvCall c r :: tr) r'.
Proof. intros Hr (ints & H1 & H2 & ->). exists (r :: ints). auto. Qed.

Lemma accepted_app fd t1 t2 : accepted fd (t1 ++ t2) = accepted fd t1 ++ accepted fd t2.
Proof. unfold accepted. by rewrite map_app, concat_app. Qed.

Lemma received_app fd t1 t2 : received fd (t1 ++ t2) = received fd t1 ++ received fd t2.
Proof. unfold received. by rewrite map_app, concat_app. Qed.

Lemma restarted_accepted fd c tr r :
  restarted c tr r -> accepted fd tr = accepted1 fd (EvCall c r).
Proof.
  intros (ints & H & _ & ->). induction H as [|i ints [Hi _] _ IH].
  - unfold accepted. simpl. apply app_nil_r.
  - unfold accepted in *. simpl. rewrite IH. destruct c; try done.
    rewrite Hi. by rewrite andb_false_r.
Qed.

Lemma restarted_received fd c tr r :
  restarted c tr r -> received fd tr = received1 fd (EvCall c r).
Proof.
  intros (ints & H & _ & ->). induction H as [|i ints [Hi _] _ IH].
  - unfold received. simpl. apply app_nil_r.
  - unfold received in *. simpl. rewrite IH. destruct c; try done.
    rewrite Hi. by rewrite andb_false_r.
Qed.

Lemma restarted_in c tr r : restarted c tr r -> EvCall c r ∈ tr.
Proof. intros (ints & _ & _ & ->). rewrite map_app. set_solver. Qed.

(** The last thing a run did, and the three endings that stop a transfer: a read
    of some bytes that finds the end of the input, and a read or a write that
    fails with the error [e], which is no interruption. *)
Definition ends_with (P : event -> Prop) (tr : list event) : Prop :=
  exists pre ev, tr = pre ++ [ev] /\ P ev.

Definition read_eof (fd : Z) (ev : event) : Prop :=
  match ev with EvCall (Cread fd' n) r => fd' = fd /\ 0 < n /\ ret r = 0 | _ => False end.

Definition read_error (fd e : Z) (ev : event) : Prop :=
  match ev with
  | EvCall (Cread fd' _) r => fd' = fd /\ ret r = -1 /\ err r = e /\ e <> EINTR
  | _ => False
  end.

Definition write_error (fd e : Z) (ev : event) : Prop :=
  match ev with
  | EvCall (Cwrite fd' _) r => fd' = fd /\ ret r = -1 /\ err r = e /\ e <> EINTR
  | _ => False
  end.

(** A call of [read], or of [write], on [fd]. *)
Definition read_call (fd : Z) (ev : event) : Prop :=
  match ev with EvCall (Cread fd' _) _ => fd' = fd | _ => False end.

Definition write_call (fd : Z) (ev : event) : Prop :=
  match ev with EvCall (Cwrite fd' _) _ => fd' = fd | _ => False end.

Lemma ends_with_last P tr ev : P ev -> ends_with P (tr ++ [ev]).
Proof. by exists tr, ev. Qed.

Lemma ends_with_app P t1 t2 : ends_with P t2 -> ends_with P (t1 ++ t2).
Proof. intros (pre & ev & -> & H). exists (t1 ++ pre), ev. by rewrite app_assoc. Qed.

Lemma ends_with_mono (P Q : event -> Prop) tr :
  (forall ev, P ev -> Q ev) -> ends_with P tr -> ends_with Q tr.
Proof. intros HPQ (pre & ev & E & H). exists pre, ev. auto. Qed.

Lemma restarted_ends c tr r (P : event -> Prop) : restarted c tr r -> P (EvCall c r) -> ends_with P tr.
Proof. intros (ints & _ & _ & ->) H. rewrite map_app. by apply ends_with_last. Qed.

Lemma restarted_calls c tr r (P : event -> Prop) :
  restarted c tr r -> (forall r', P (EvCall c r')) -> Forall P tr.
Proof. intros (ints & _ & _ & ->) H. by apply Forall_map, Forall_true. Qed.

Section Live.
Context {K : Type} {HK : Kernel K} {HP : PosixKernel K} {HL : LiveKernel K}.

#[export] Instance calmer_preorder : PreOrder (@calmer K HK HP HL).
Proof.
  split; [by split|]. intros k1 k2 k3 [H1 H2] [H3 H4]. split; [lia|].
  intros fd. specialize (H2 fd). specialize (H4 fd). lia.
Qed.

Lemma kstep_calmer c k r k' : kstep c k = (r, k') -> calmer k k'.
Proof.
  intros E. split; intros.
  - pose proof (patience_le c k) as H. by rewrite E in H.
  - pose proof (pending_le c k fd) as H. by rewrite E in H.
Qed.

Lemma wp_syscall_live c (Q : outcome resp -> world K -> Prop) w :
  (forall r k, resp_ok c r -> calmer (kern w) k ->
     (interrupted r -> (patience k < patience (kern w))%nat) ->
     kstep c (kern w) = (r, k) -> Q (Done r) (after c r k w)) ->
  wp (syscall c) Q w.
Proof.
  intros HQ. apply wp_syscall_posix. intros r k Hr E. apply HQ; auto.
  - by eapply kstep_calmer.
  - intros [H1 H2]. pose proof (patience_lt c (kern w)) as H. rewrite E in H. auto.
Qed.

(** A restarted call returns, with the first answer that is no interruption. *)
Lemma wp_restart c : call_failed c (-1) = true ->
  forall fuel (Q : outcome resp -> world K -> Prop) w,
  (patience (kern w) < fuel)%nat ->
  (forall r tr w' k, restarted c tr r -> resp_ok c r -> trace w' = trace w ++ tr ->
     calmer (kern w) k -> kstep c k = (r, kern w') -> (ret r = -1 -> errno w' = err r) ->
     Q (Done r) w') ->
  wp (restart fuel c) Q w.
Proof.
  intros Hc fuel. induction fuel as [|fuel IH]; intros Q w Hf HQ; [lia|].
  unfold restart. cbn [loop]. wp_step. unfold restart_iter at 1. wp_step.
  apply wp_syscall_live. intros r k Hr Hle Hlt E. cbn [post]. do 2 wp_step.
  assert (ret r = -1 -> errno (after c r k w) = err r) as He.
  { intros E1. cbn [after errno]. by rewrite E1, Hc. }
  destruct (Z.eqb_spec (ret r) (-1)) as [E1|E1]; cbn [andb].
  2: { wp_step. wp_step. apply (HQ r [EvCall c r] (after c r k w) (kern w)); auto; [|done].
       apply restarted_last. unfold interrupted. tauto. }
  rewrite He by done. destruct (Z.eqb_spec (err r) EINTR) as [E2|E2].
  - wp_step. apply IH.
    { cbn [after kern]. specialize (Hlt (conj E1 E2)). lia. }
    intros r' tr w' k' H1 H2 H3 H4 H5 H6. cbn [after kern trace] in *.
    eapply HQ; [by apply (restarted_cons c r)|done| |by etrans|done|done].
    rewrite H3. by rewrite <- app_assoc.
  - wp_step. wp_step. apply (HQ r [EvCall c r] (after c r k w) (kern w)); auto; [|done].
    apply restarted_last. unfold interrupted. tauto.
Qed.

(** What a run of [r_write] on [size] bytes of [buf] does to the descriptors. *)
Definition wrote (fd : Z) (buf : list Z) (size : Z) (z e : Z) (tr : list event) : Prop :=
  ((z = size /\ accepted fd tr = ztake size buf) \/
   (z = -1 /\ ends_with (write_error fd e) tr /\
      exists n, 0 <= n < size /\ accepted fd tr = ztake n buf)) /\
  (forall fd', fd' <> fd -> accepted fd' tr = []) /\ (forall fd', received fd' tr = []) /\
  Forall (write_call fd) tr.

Definition r_write_inv (fd : Z) (buf : list Z) (size : Z) (w0 : world K)
    (st : Z * Z * Z) (w : world K) : Prop :=
  let '(p, b, t) := st in
  0 <= p <= size /\ b = size - p /\ t = p /\
  calmer (kern w0) (kern w) /\
  exists tr, trace w = trace w0 ++ tr /\ accepted fd tr = ztake p buf /\
    (forall fd', fd' <> fd -> accepted fd' tr = []) /\ (forall fd', received fd' tr = []) /\
    Forall (write_call fd) tr.

Lemma r_write_step fd buf size w0 st w :
  0 <= size <= zlen buf -> size < 2 ^ 63 -> r_write_inv fd buf size w0 st w ->
  wp (r_write_iter fd buf st)
     (post (fun x w' => match x with
              | inl st' => r_write_inv fd buf size w0 st' w' /\
                 (Z.to_nat st'.1.2 + patience (kern w') < Z.to_nat st.1.2 + patience (kern w))%nat
              | inr z => calmer (kern w0) (kern w') /\
                 exists tr, trace w' = trace w0 ++ tr /\ wrote fd buf size z (errno w') tr
              end) (fun _ _ => False)) w.
Proof.
  intros Hs Hmax. destruct st as [[p b] t].
  intros (Hp & -> & -> & Hpat & tr & Ht & Ha & Ho & Hr & Hwc). unfold r_write_iter.
  destruct (Z.ltb_spec 0 (size - p)) as [Hlt|Hge].
  2: { assert (p = size) as -> by lia. wp_step. split; [done|]. exists tr. split; [done|].
       split; [left|done]. split; [|done].
       unfold to_long. apply wraps_id; [lia|]. unfold in_s. simpl. lia. }
  wp_step. unfold write_from. destruct (Z.ltb_spec (zlen buf) (p + (size - p))); [lia|].
  set (d := ztake (size - p) (zdrop p buf)).
  assert (Hd : zlen d = size - p).
  { apply zlen_ztake. rewrite zlen_zdrop; lia. }
  wp_step. apply wp_syscall_live. intros r k Hok Hle Hint E. pose proof (proj1 Hle) as Hle1. cbn [post]. do 3 wp_step.
  cbn [post]. assert (Hext : forall a, accepted1 fd (EvCall (Cwrite fd d) r) = a ->
    accepted fd (tr ++ [EvCall (Cwrite fd d) r]) = ztake p buf ++ a).
  { intros a <-. rewrite accepted_app, Ha. unfold accepted. simpl. by rewrite app_nil_r. }
  assert (Hoth : forall fd', fd' <> fd -> accepted fd' (tr ++ [EvCall (Cwrite fd d) r]) = []).
  { intros fd' Hne. rewrite accepted_app, Ho by done. unfold accepted. simpl.
    destruct (Z.eqb_spec fd fd'); [congruence|done]. }
  assert (Hrec : forall fd', received fd' (tr ++ [EvCall (Cwrite fd d) r]) = []).
  { intros fd'. by rewrite received_app, Hr. }
  assert (Hcall : Forall (write_call fd) (tr ++ [EvCall (Cwrite fd d) r])).
  { apply Forall_app. split; [done|]. by constructor. }
  destruct (Z.eqb_spec (ret r) (-1)) as [E1|E1]; cbn [andb].
  - assert (accepted fd (tr ++ [EvCall (Cwrite fd d) r]) = ztake p buf) as Hacc.
    { rewrite (Hext []); [by rewrite app_nil_r|]. cbn. rewrite E1. by rewrite andb_false_r. }
    world_simp. rewrite E1. cbn [Z.eqb Pos.eqb].
    destruct (Z.eqb_spec (err r) EINTR) as [E2|E2]; cbn [negb]; wp_step; cbn [post].
    + rewrite Z.add_0_r, Z.sub_0_r.
      unfold to_size_t. rewrite !wrapu_id by (unfold in_u; lia).
      specialize (Hint (conj E1 E2)). cbn [after kern fst snd] in *. split; [|lia].
      split_and!; try lia; [by etrans|]. exists (tr ++ [EvCall (Cwrite fd d) r]).
      split_and!; auto. cbn [trace after]. by rewrite Ht, <- app_assoc.
    + cbn [after kern]. split; [by etrans|]. exists (tr ++ [EvCall (Cwrite fd d) r]).
      split; [cbn [after trace]; by rewrite Ht, <- app_assoc|]. split; [|done]. right.
      split; [done|]. split; [|exists p; split; [lia|done]]. apply ends_with_last.
      cbn [errno after write_error]. failed_simp. rewrite E1. auto.
  - destruct Hok as [_ [Hbad|Hok]]; [done|]. rewrite Hd in Hok.
    assert (ret r <> 0) as Hnz.
    { pose proof (write_progress fd d (kern w)) as H1. rewrite E in H1. apply H1.
      intros ->. rewrite zlen_nil in Hd. lia. }
    wp_step. unfold to_size_t. rewrite !wrapu_id by (unfold in_u; lia).
    cbn [after kern fst snd]. split; [|lia].
    split_and!; try lia; [by etrans|]. exists (tr ++ [EvCall (Cwrite fd d) r]).
    split_and!; auto; [cbn [after trace]; by rewrite Ht, <- app_assoc|].
    rewrite (Hext (ztake (ret r) d)).
    + unfold d. rewrite <- (ztake_add p (ret r)) by lia. f_equal.
      unfold ztake. rewrite take_take. f_equal. lia.
    + cbn. rewrite Z.eqb_refl. destruct (Z.ltb_spec 0 (ret r)); [done|lia].
Qed.

Lemma wp_r_write fd buf size fuel (Q : outcome Z -> world K -> Prop) w :
  0 <= size <= zlen buf -> size < 2 ^ 63 ->
  (Z.to_nat size + patience (kern w) < fuel)%nat ->
  (forall z tr w', trace w' = trace w ++ tr -> wrote fd buf size z (errno w') tr ->
     calmer (kern w) (kern w') -> Q (Done z) w') ->
  wp (r_write fuel fd buf size) Q w.
Proof.
  intros Hs Hm Hf HQ. unfold r_write, to_size_t. rewrite wrapu_id by (unfold in_u; lia).
  apply (wp_loop_total (r_write_inv fd buf size w)
    (fun st w' => (Z.to_nat st.1.2 + patience (kern w'))%nat)); [| |done].
  - intros st w' HI. eapply wp_mono; [|by apply r_write_step].
    intros [[st'|z]|h] w''; cbn [post]; [done| |done].
    intros (Hp & tr & Ht & Hw). by apply (HQ z tr).
  - split_and!; try lia; [done|]. exists []. by rewrite app_nil_r.
Qed.

End Live.

(** C1: r_write writes everything: on any kernel that keeps POSIX's promises and
    interrupts only finitely often, it returns, and either it returns [size]
    with exactly the bytes of the buffer accepted in order, or -1 with an error
    that is not EINTR, that of the last write it made, and a proper prefix
    accepted; it makes no call but write on that descriptor. *)
Theorem r_write_complete {K} `{HL : LiveKernel K} fd buf fuel (w : world K) :
  zlen buf < 2 ^ 63 -> (length buf + patience (kern w) < fuel)%nat ->
  exists z w' tr,
    r_write fuel fd buf (zlen buf) w = (Done z, w') /\ trace w' = trace w ++ tr /\
    wrote fd buf (zlen buf) z (errno w') tr.
Proof.
  intros Hm Hf. pose proof (zlen_nonneg buf).
  enough (wp (r_write fuel fd buf (zlen buf)) (fun o w' => exists z tr,
    o = Done z /\ trace w' = trace w ++ tr /\ wrote fd buf (zlen buf) z (errno w') tr) w)
    as (o & w' & E & z & tr & -> & H')%wp_run by (by exists z, w', tr).
  apply wp_r_write; [lia|done|unfold zlen; lia|]. eauto 10.
Qed.

Lemma r_write_complete_witness :
  exists z w' tr,
    r_write 20 1 (bytes_of "hello, world") 12 (World (Pipe [] [] [true; false; true] 4) 0 [])
      = (Done z, w') /\ trace w' = [] ++ tr /\
    wrote 1 (bytes_of "hello, world") 12 z (errno w') tr.
Proof.
  apply (r_write_complete 1 (bytes_of "hello, world") 20
           (World (Pipe [] [] [true; false; true] 4) 0 [])).
  - vm_compute. reflexivity.
  - vm_compute. lia.
Defined.

(** ** readline *)

Definition no_newline (bs : list Z) : Prop := Forall (fun b => b <> 10) bs.

(** What [readline] leaves: a line with its newline, NUL-terminated, of exactly
    the bytes it consumed; nothing, when the first read that was not interrupted
    found the end of the file; or a failure, which never swallowed a newline and
    whose cause is a read that failed, the end of the file in the middle of a
    line, or a line that does not fit. *)
Definition line_result (fd nbytes : Z) (buf : mem) (z e : Z) (m : mem) (tr : list event) : Prop :=
  let bs := received fd tr in
  (0 < z < nbytes /\ zlen bs = z /\ m = overlay (bs ++ [0]) buf /\
     exists l, bs = l ++ [10] /\ no_newline l) \/
  (z = 0 /\ bs = [] /\ m = buf /\ ends_with (read_eof fd) tr) \/
  (z = -1 /\ no_newline bs /\ zlen bs < nbytes /\ m = overlay bs buf /\
     (ends_with (read_error fd e) tr \/
      e = EINVAL /\ bs <> [] /\ ends_with (read_eof fd) tr \/
      e = EINVAL /\ zlen bs = nbytes - 1)).

Section Readline.
Context {K : Type} {HK : Kernel K} {HP : PosixKernel K} {HL : LiveKernel K}.
Context (fd nbytes : Z) (buf : mem) (Hn : 0 < nbytes <= zlen buf).

Definition readline_inv (w0 : world K) (st : Z * mem) (w : world K) : Prop :=
  exists tr, trace w = trace w0 ++ tr /\
    st.1 = zlen (received fd tr) /\ st.2 = overlay (received fd tr) buf /\
    st.1 < nbytes /\ no_newline (received fd tr) /\
    calmer (kern w0) (kern w).

Lemma readline_iter_spec w0 st w :
  readline_inv w0 st w ->
  wp (readline_iter fd nbytes st)
     (post (fun x w' => match x with
              | inl st' => readline_inv w0 st' w' /\
                 (Z.to_nat (nbytes - st'.1) + patience (kern w')
                  < Z.to_nat (nbytes - st.1) + patience (kern w))%nat
              | inr (z, m) => exists tr, trace w' = trace w0 ++ tr /\
                 line_result fd nbytes buf z (errno w') m tr
              end) (fun _ _ => False)) w.
Proof.
  destruct st as [n m]. intros (tr & Ht & Hz & Hm & Hlt & Hnl & Hp). cbn [fst snd] in *.
  unfold readline_iter. pose proof (zlen_nonneg (received fd tr)).
  destruct (Z.ltb_spec n (nbytes - 1)) as [Hlt'|Hge].
  2: { do 3 wp_step. exists tr. split; [done|]. right. right. subst.
       split_and!; auto. right. right. split; [done|]. lia. }
  wp_step. apply wp_syscall_live. intros r k Hok Hle Hint E. pose proof (proj1 Hle) as Hle1. cbn [post].
  destruct Hok as [_ Hok].
  assert (Hrec : received fd (tr ++ [EvCall (Cread fd 1) r])
                 = received fd tr ++ (if 0 <? ret r then ztake (ret r) (out r) else [])).
  { rewrite received_app. unfold received. simpl. rewrite Z.eqb_refl. simpl.
    by rewrite app_nil_r. }
  assert (Htr : trace (after (Cread fd 1) r k w) = trace w0 ++ (tr ++ [EvCall (Cread fd 1) r])).
  { cbn [after trace]. by rewrite Ht, app_assoc. }
  destruct Hok as [Hr|(Hr & Hlo & Hby)].
  - (* the read failed *)
    rewrite Hr in *. cbn [Z.ltb Z.compare] in *. rewrite app_nil_r in Hrec. do 4 wp_step.
    cbn [post Z.eqb Pos.eqb andb]. cbn [after errno]. failed_simp. rewrite Hr. cbn [Z.eqb Pos.eqb].
    destruct (Z.eqb_spec (err r) EINTR) as [E2|E2]; wp_step; cbn [post].
    + specialize (Hint (conj Hr E2)). split; [|cbn [after kern fst]; lia].
      exists (tr ++ [EvCall (Cread fd 1) r]). rewrite Hrec. cbn [fst snd].
      split_and!; auto. by etrans.
    + eexists. split; [exact Htr|]. right. right. rewrite Hrec. subst.
      split_and!; auto; try lia. left. apply ends_with_last.
      cbn [after errno read_error]. failed_simp. rewrite Hr. auto.
  - assert (Heof : ret r = 0 -> ends_with (read_eof fd) (tr ++ [EvCall (Cread fd 1) r])).
    { intros E0. by apply ends_with_last. }
    destruct (Z.eqb_spec (ret r) 0) as [E0|E0].
    + (* end of file *)
      rewrite E0 in *. cbn [Z.ltb Z.compare] in *. rewrite app_nil_r in Hrec. do 4 wp_step.
      cbn [post Z.eqb Pos.eqb andb]. destruct (Z.eqb_spec n 0) as [En|En].
      * wp_step. eexists. split; [exact Htr|]. right. left. rewrite Hrec.
        assert (received fd tr = []) as Er by (apply zlen_0; lia). rewrite Er in *. subst.
        split_and!; auto.
      * do 3 wp_step. eexists. split; [exact Htr|]. right. right. rewrite Hrec.
        subst. split_and!; auto. right. left. split_and!; auto.
        intros Er. apply En. by rewrite Er.
    + (* one byte *)
      assert (ret r = 1) as E1 by lia. rewrite E1 in *.
      destruct (out r) as [|b [|? ?]] eqn:Eo;
        [done| |rewrite !zlen_cons in Hlo; pose proof (zlen_nonneg l); lia].
      cbn [Z.ltb Z.compare] in *. change (ztake 1 [b]) with [b] in Hrec.
      wp_step. apply wp_copy_in; [lia| |].
      { subst m. rewrite zlen_overlay by lia. change (zlen [b]) with 1. lia. }
      cbn [post]. subst n m. rewrite overlay_blit by (change (zlen [b]) with 1; lia). do 2 wp_step.
      cbn [post Z.eqb Pos.eqb andb]. wp_step.
      replace (zlen (received fd tr) + 1 - 1) with (zlen (received fd tr)) by lia.
      eapply wp_rd_overlay.
      { unfold znth, zlen. destruct (Z.ltb_spec (Z.of_nat (length (received fd tr))) 0); [lia|].
        rewrite Nat2Z.id, lookup_app_r, Nat.sub_diag by done. reflexivity. }
      cbn [post]. destruct (Z.eqb_spec b 10) as [->|Hb].
      * wp_step. apply wp_wr_overlay.
        { by rewrite zlen_app. }
        { rewrite zlen_app, zlen_cons, zlen_nil. lia. }
        cbn [post]. wp_step. eexists. split; [exact Htr|]. left. rewrite Hrec.
        split_and!; [lia|lia|by rewrite zlen_app|done|]. by exists (received fd tr).
      * wp_step. split; [|cbn [after kern fst]; lia].
        eexists. split; [exact Htr|]. cbn [fst snd]. rewrite Hrec.
        split_and!; [by rewrite zlen_app|done|lia| |by etrans].
        apply Forall_app. split; [done|]. by constructor.
Qed.

End Readline.

(** C2: readline reads one line: given room for [nbytes] bytes and finitely many
    interruptions it returns without leaving the buffer; a positive result is
    the length of a newline-terminated, NUL-terminated line made of exactly the
    bytes consumed; 0 is returned only when a read returned 0 and nothing was
    consumed before it; -1 is returned only for a read that failed with an error
    other than an interruption, for an end of file in the middle of a line, or
    for a line that does not fit, and never after a newline was consumed. *)
Theorem readline_correct {K} `{HL : LiveKernel K} fd nbytes buf fuel (w : world K) :
  0 < nbytes <= zlen buf -> (Z.to_nat nbytes + patience (kern w) < fuel)%nat ->
  exists z m w' tr,
    readline fuel fd buf nbytes w = (Done (z, m), w') /\ trace w' = trace w ++ tr /\
    line_result fd nbytes buf z (errno w') m tr.
Proof.
  intros Hn Hf.
  enough (wp (readline fuel fd buf nbytes) (fun o w' => exists z m tr,
    o = Done (z, m) /\ trace w' = trace w ++ tr /\
    line_result fd nbytes buf z (errno w') m tr) w)
    as (o & w' & E & z & m & tr & -> & H')%wp_run by (by exists z, m, w', tr).
  apply (wp_loop_total (readline_inv fd nbytes buf w)
    (fun st w' => (Z.to_nat (nbytes - st.1) + patience (kern w'))%nat)).
  - intros st w' HI. eapply wp_mono; [|by apply readline_iter_spec].
    intros [[st'|[z m]]|h] w''; cbn [post]; [done| |done].
    intros (tr & Ht & Hr). eauto 10.
  - exists []. rewrite app_nil_r. split_and!; try done; [cbn [fst]; lia|constructor].
  - cbn [fst]. lia.
Qed.

Lemma readline_correct_witness :
  exists z m w' tr,
    readline 30 0 (uninit 16) 16 (World (Pipe (bytes_of ("ab" +:+ nl +:+ "c")) [] [false; true] 9) 0 [])
      = (Done (z, m), w') /\ trace w' = [] ++ tr /\
    line_result 0 16 (uninit 16) z (errno w') m tr.
Proof.
  apply (readline_correct 0 16 (uninit 16) 30
           (World (Pipe (bytes_of ("ab" +:+ nl +:+ "c")) [] [false; true] 9) 0 [])).
  - vm_compute. by split.
  - vm_compute. lia.
Defined.

(** ** readwrite and copyfile *)

(** A block copied from [fromfd] to [tofd]. *)
Definition block_result (fromfd tofd z e : Z) (tr : list event) : Prop :=
  (0 < z <= BLKSIZE /\ zlen (received fromfd tr) = z /\
     accepted tofd tr = received fromfd tr) \/
  (z = 0 /\ received fromfd tr = [] /\ accepted tofd tr = [] /\ ends_with (read_eof fromfd) tr) \/
  (z = -1 /\ received fromfd tr = [] /\ accepted tofd tr = [] /\
     ends_with (read_error fromfd e) tr) \/
  (z = -1 /\ (exists n, 0 <= n < zlen (received fromfd tr) /\ zlen (received fromfd tr) <= BLKSIZE /\
                accepted tofd tr = ztake n (received fromfd tr)) /\
     ends_with (write_error tofd e) tr).

Lemma ztake_prefix {A} n (l : list A) : ztake n l `prefix_of` l.
Proof. exists (zdrop n l). by rewrite ztake_zdrop. Qed.

Section Copy.
Context {K : Type} {HK : Kernel K} {HP : PosixKernel K} {HL : LiveKernel K}.

Lemma wp_r_read fd n fuel (Q : outcome (Z * list Z) -> world K -> Prop) w :
  (patience (kern w) < fuel)%nat ->
  (forall z bs tr w', trace w' = trace w ++ tr ->
     (z = -1 /\ received fd tr = [] /\ ends_with (read_error fd (errno w')) tr \/
      0 <= z <= n /\ zlen bs = z /\ received fd tr = bs /\
        (z = 0 -> 0 < n -> ends_with (read_eof fd) tr)) ->
     (forall fd', accepted fd' tr = []) -> Forall (read_call fd) tr ->
     calmer (kern w) (kern w') ->
     (pending fd (kern w') + Z.to_nat z <= pending fd (kern w))%nat ->
     Q (Done (z, bs)) w') ->
  wp (r_read fuel fd n) Q w.
Proof.
  intros Hf HQ. unfold r_read. wp_step. apply wp_restart; [done|done|].
  intros r tr w' k Hr Hok Ht Hc Hk He. wp_step. apply wp_ret.
  assert (calmer (kern w) (kern w')) as Hc' by (etrans; [done|by eapply kstep_calmer]).
  pose proof (pending_read fd n k) as Hp. rewrite Hk in Hp. cbn [fst snd] in Hp.
  pose proof (proj2 Hc fd). destruct Hok as [_ Hok].
  apply (HQ _ _ tr); [done| | |by eapply restarted_calls|done|lia].
  - rewrite (restarted_received fd _ _ _ Hr). cbn. rewrite Z.eqb_refl.
    destruct Hok as [E|(H1 & H2 & _)]; [left|right].
    { rewrite E. split_and!; [done..|]. eapply restarted_ends; [done|].
      split_and!; [done|done|by rewrite He|]. rewrite He by done.
      destruct Hr as (_ & _ & Hni & _). unfold interrupted in Hni. tauto. }
    split; [lia|]. split; [done|]. split.
    + destruct (Z.ltb_spec 0 (ret r)); cbn [andb]; [by apply ztake_all; lia|].
      symmetry. apply zlen_0. lia.
    + intros E0 Hn. by eapply restarted_ends.
  - intros fd'. by rewrite (restarted_accepted fd' _ _ _ Hr).
Qed.

Lemma wp_readwrite fromfd tofd fuel (Q : outcome Z -> world K -> Prop) w :
  fromfd <> tofd -> (Z.to_nat BLKSIZE + patience (kern w) < fuel)%nat ->
  (forall z tr w', trace w' = trace w ++ tr -> block_result fromfd tofd z (errno w') tr ->
     calmer (kern w) (kern w') ->
     (pending fromfd (kern w') + Z.to_nat z <= pending fromfd (kern w))%nat ->
     Q (Done z) w') ->
  wp (readwrite fuel fromfd tofd) Q w.
Proof.
  intros Hne Hf HQ. unfold readwrite. wp_step. apply wp_r_read; [lia|].
  intros z bs tr w' Ht Hz Ha _ Hc Hp. cbn [post].
  destruct (Z.ltb_spec z 0) as [Hn|Hn].
  { wp_step. apply (HQ _ tr); auto; [|simpl; lia]. right. right. left.
    destruct Hz as [(_ & Hr & He)|(? & _)]; [auto|lia]. }
  destruct Hz as [[? _]|(Hz & Hl & Hrec & Heof)]; [lia|].
  destruct (Z.eqb_spec z 0) as [->|Hz0].
  { wp_step. apply (HQ _ tr); auto. right. left. rewrite Hrec. apply zlen_0 in Hl as ->.
    split_and!; auto. by apply Heof. }
  wp_step. apply wp_r_write; [lia|unfold BLKSIZE in *; lia| |].
  { pose proof (proj1 Hc). lia. }
  intros z' tr' w'' Ht' (Hw & Ho & Hr & _) Hc'. cbn [post].
  assert (Htr : trace w'' = trace w ++ (tr ++ tr')) by (by rewrite Ht', Ht, app_assoc).
  assert (Hrecv : received fromfd (tr ++ tr') = bs).
  { by rewrite received_app, Hr, Hrec, app_nil_r. }
  assert (Hacc : accepted tofd (tr ++ tr') = accepted tofd tr').
  { by rewrite accepted_app, Ha. }
  assert (Hpend : (pending fromfd (kern w'') <= pending fromfd (kern w'))%nat) by apply Hc'.
  destruct Hw as [[-> Hacc']|(-> & He & n & Hn' & Hacc')].
  - destruct (Z.ltb_spec z 0); [lia|]. wp_step. eapply HQ; eauto; [|by etrans|lia].
    left. rewrite Hrecv, Hacc, Hacc', ztake_all by lia. split_and!; auto; lia.
  - change (-1 <? 0) with true. cbv iota. wp_step. eapply HQ; eauto; [|by etrans|simpl; lia]. right. right. right.
    split; [done|]. split; [|by apply ends_with_app]. exists n. rewrite Hrecv, Hacc, Hacc', Hl. split_and!; auto; lia.
Qed.

Definition copy_inv (fromfd tofd : Z) (w0 : world K) (total : Z) (w : world K) : Prop :=
  exists tr, trace w = trace w0 ++ tr /\ total = zlen (received fromfd tr) /\
    accepted tofd tr = received fromfd tr /\ calmer (kern w0) (kern w) /\
    (pending fromfd (kern w) + Z.to_nat total <= pending fromfd (kern w0))%nat.

(** Everything up to the end of the input was copied; or a read failed, and all
    that was read before it was copied; or a write failed, and all blocks but the
    last, of which a proper prefix was accepted, were copied. *)
Definition copy_result (fromfd tofd total e : Z) (tr : list event) : Prop :=
  (total = zlen (received fromfd tr) /\ accepted tofd tr = received fromfd tr /\
     (ends_with (read_eof fromfd) tr \/ ends_with (read_error fromfd e) tr)) \/
  (ends_with (write_error tofd e) tr /\
     exists whole last n, received fromfd tr = whole ++ last /\ total = zlen whole /\
       0 <= n < zlen last /\ zlen last <= BLKSIZE /\ accepted tofd tr = whole ++ ztake n last).

End Copy.

(** C3: copyfile copies to the end of the input: it returns, the last thing it did
    is a read that returned 0, a read that failed or a write that failed, and in
    no other way does it stop.  The bytes accepted on [tofd] are the bytes read
    from [fromfd], in order: all of them unless a write failed, and then all
    blocks before the one that write belonged to and a proper prefix of it; the
    result counts the bytes of the blocks copied whole. *)
Theorem copyfile_copies {K} `{HL : LiveKernel K} fromfd tofd fuel (w : world K) :
  fromfd <> tofd -> Z.of_nat (pending fromfd (kern w)) <= INT_MAX ->
  (Z.to_nat BLKSIZE + patience (kern w) + pending fromfd (kern w) < fuel)%nat ->
  exists total w' tr,
    copyfile fuel fromfd tofd w = (Done total, w') /\ trace w' = trace w ++ tr /\
    copy_result fromfd tofd total (errno w') tr.
Proof.
  intros Hne Hmax Hf.
  enough (wp (copyfile fuel fromfd tofd) (fun o w' => exists z tr,
    o = Done z /\ trace w' = trace w ++ tr /\ copy_result fromfd tofd z (errno w') tr) w)
    as (o & w' & E & z & tr & -> & H')%wp_run by (by exists z, w', tr).
  unfold copyfile.
  apply (wp_loop_total (copy_inv fromfd tofd w)
    (fun _ w' => pending fromfd (kern w'))); [| |lia].
  2: { exists []. rewrite app_nil_r. split_and!; try done. simpl. lia. }
  intros total w' (tr & Ht & Htot & Hacc & Hc & Hp). wp_step.
  apply wp_readwrite; [done|pose proof (proj1 Hc); lia|].
  intros z tr' w'' Ht' Hz Hc' Hp'. cbn [post].
  assert (Htr : trace w'' = trace w ++ (tr ++ tr')) by (by rewrite Ht', Ht, app_assoc).
  assert (Hcc : accepted tofd (tr ++ tr') = received fromfd tr ++ accepted tofd tr').
  { by rewrite accepted_app, Hacc. }
  pose proof (zlen_nonneg (received fromfd tr)) as Hnn.
  destruct (Z.ltb_spec 0 z) as [Hz0|Hz0].
  - destruct (Z.ltb_spec INT_MAX (total + z)); [lia|]. wp_step. split; [|lia].
    destruct Hz as [(Hb & Hl & Ha)|[(? & _)|[(? & _)|(? & _)]]]; [|lia..].
    exists (tr ++ tr'). rewrite Hcc, received_app, Ha.
    split_and!; auto; [rewrite zlen_app; lia|by etrans|lia].
  - wp_step. do 2 eexists. split; [done|]. split; [exact Htr|].
    destruct Hz as [(? & _)|[(_ & Hr & Ha & He)|[(_ & Hr & Ha & He)|(_ & (n & Hn & Hb & Ha) & He)]]]; [lia| | |].
    + left. rewrite Hcc, received_app, Ha, Hr, app_nil_r. split_and!; auto using ends_with_app.
    + left. rewrite Hcc, received_app, Ha, Hr, app_nil_r. split_and!; auto using ends_with_app.
    + right. split; [by apply ends_with_app|]. exists (received fromfd tr), (received fromfd tr'), n.
      rewrite Hcc, received_app, Ha. split_and!; auto; try lia.
Qed.

Lemma copyfile_copies_witness :
  exists total w' tr,
    copyfile 4200 0 1 (World (Pipe (bytes_of "copy me") [] [true; false; true] 2) 0 [])
      = (Done total, w') /\ trace w' = [] ++ tr /\
    copy_result 0 1 total (errno w') tr.
Proof.
  apply (copyfile_copies 0 1 4200 (World (Pipe (bytes_of "copy me") [] [true; false; true] 2) 0 [])).
  - done.
  - vm_compute. discriminate.
  - vm_compute. lia.
Defined.

(** ** Runs that move no data *)

(** Nothing but [to] is written to. *)
Definition only_to (to : Z) (tr : list event) : Prop :=
  forall fd, fd <> to -> accepted fd tr = [].

Lemma only_to_app to t1 t2 : only_to to t1 -> only_to to t2 -> only_to to (t1 ++ t2).
Proof. intros H1 H2 fd Hfd. by rewrite accepted_app, H1, H2. Qed.

(** A call that moves data, and a run without one. *)
Definition data_call (c : call) : bool :=
  match c with
  | Cread _ _ | Cwrite _ _ => true
  | Csys fn _ => bool_decide (fn = "sendfile")
  | _ => false
  end.

Definition moves_data (e : event) : bool :=
  match e with EvCall c _ => data_call c | _ => false end.

Definition silent (tr : list event) : Prop := Forall (fun e => moves_data e = false) tr.

Lemma silent_app t1 t2 : silent t1 -> silent t2 -> silent (t1 ++ t2).
Proof. intros. by apply Forall_app. Qed.

Lemma silent_one e : moves_data e = false -> silent [e].
Proof. intros. by constructor. Qed.

Lemma silent_moves tr : silent tr -> forall fd, accepted fd tr = [] /\ received fd tr = [].
Proof.
  intros H fd. induction H as [|e tr He _ [IH1 IH2]]; [done|].
  unfold accepted, received in *. simpl. rewrite IH1, IH2, !app_nil_r.
  destruct e as [[]| | |]; done.
Qed.

Lemma silent_restarted c tr r : data_call c = false -> restarted c tr r -> silent tr.
Proof. intros Hc Hr. by eapply restarted_calls. Qed.

Lemma silent_nil_l sd tr : silent tr -> accepted sd tr = [].
Proof. intros H. by apply silent_moves. Qed.

(** The input of [fd] was read to its end, and nothing was read from it since. *)
Definition stops_at_eof (fd : Z) (tr : list event) : Prop :=
  exists t1 t2, tr = t1 ++ t2 /\ ends_with (read_eof fd) t1 /\ received fd t2 = [].

Lemma stops_at_eof_app fd t0 t1 t2 :
  stops_at_eof fd t1 -> received fd t2 = [] -> stops_at_eof fd (t0 ++ t1 ++ t2).
Proof.
  intros (a & b & -> & He & Hb) H2. exists (t0 ++ a), (b ++ t2). rewrite <- !app_assoc.
  split_and!; [done|by apply ends_with_app|]. by rewrite received_app, Hb, H2.
Qed.

Section Silent.
Context {K : Type} {HK : Kernel K} {HP : PosixKernel K} {HL : LiveKernel K}.

Lemma wp_restart_silent c fuel (Q : outcome resp -> world K -> Prop) w :
  call_failed c (-1) = true -> data_call c = false -> (patience (kern w) < fuel)%nat ->
  (forall r tr w' k, trace w' = trace w ++ tr -> silent tr -> EvCall c r ∈ tr ->
     kstep c k = (r, kern w') -> calmer (kern w) (kern w') -> Q (Done r) w') ->
  wp (restart fuel c) Q w.
Proof.
  intros Hc Hd Hf HQ. apply wp_restart; [done..|]. intros r tr w' k Hr _ Ht Hk E _.
  eapply HQ; eauto.
  - by eapply silent_restarted.
  - by apply restarted_in.
  - etrans; [done|by eapply kstep_calmer].
Qed.

Lemma wp_r_close fd fuel (Q : outcome Z -> world K -> Prop) w :
  (patience (kern w) < fuel)%nat ->
  (forall z tr w', trace w' = trace w ++ tr -> silent tr -> calmer (kern w) (kern w') -> Q (Done z) w') ->
  wp (r_close fuel fd) Q w.
Proof.
  intros Hf HQ. unfold r_close. wp_step. apply wp_restart_silent; [done..|].
  intros. wp_step. wp_step. eauto.
Qed.

End Silent.

(** A kernel whose files are small enough for the byte counters and the fuel. *)
Definition roomy {K} `{LiveKernel K} (fuel : nat) (k : K) : Prop :=
  forall fd, Z.of_nat (pending fd k) <= INT_MAX /\ (pending fd k + patience k < fuel)%nat.

Lemma roomy_calmer {K} `{HL : LiveKernel K} fuel (k k' : K) :
  roomy fuel k -> calmer k k' -> roomy fuel k'.
Proof.
  intros Hr [Hp Hpend] fd. destruct (Hr fd). pose proof (Hpend fd). lia.
Qed.

(** Open never returns the descriptor of the connection, which is in use. *)
Definition open_is_fresh (K : Type) `{Kernel K} (sd flags mode : Z) : Prop :=
  forall path (k k' : K) r, kstep (Copen path flags mode) k = (r, k') -> ret r <> sd.

Lemma roomy_patience {K} `{HL : LiveKernel K} fuel (k : K) : roomy fuel k -> (patience k < fuel)%nat.
Proof. intros H. destruct (H 0). lia. Qed.

(** ** readblock *)

(** What [readblock] leaves: all [size] bytes; nothing, when the first read that
    was not interrupted found the end of the file; or the bytes of the partial
    block in the buffer and a failure, because a read failed or because the file
    ended in the middle of the block. *)
Definition read_block_result (fd size : Z) (buf : mem) (z e : Z) (m : mem)
    (tr : list event) : Prop :=
  let bs := received fd tr in
  m = overlay bs buf /\
  ((z = size /\ zlen bs = size) \/
   (z = 0 /\ bs = [] /\ 0 < size /\ ends_with (read_eof fd) tr) \/
   (z = -1 /\ zlen bs < size /\
      (ends_with (read_error fd e) tr \/
       e = EINVAL /\ bs <> [] /\ ends_with (read_eof fd) tr))).

Section Readblock.
Context {K : Type} {HK : Kernel K} {HP : PosixKernel K} {HL : LiveKernel K}.
Context (fd size : Z) (buf : mem) (Hs : 0 <= size <= zlen buf) (Hmax : size < 2 ^ 63).

Definition readblock_inv (w0 : world K) (st : Z * Z * Z * mem) (w : world K) : Prop :=
  exists tr, trace w = trace w0 ++ tr /\
    let n := zlen (received fd tr) in
    st = (n, size - n, n, overlay (received fd tr) buf) /\ n <= size /\
    calmer (kern w0) (kern w).

Lemma readblock_iter_spec w0 st w :
  readblock_inv w0 st w ->
  wp (readblock_iter fd st)
     (post (fun x w' => match x with
              | inl st' => readblock_inv w0 st' w' /\
                 (Z.to_nat st'.1.1.2 + patience (kern w')
                  < Z.to_nat st.1.1.2 + patience (kern w))%nat
              | inr (z, m) => exists tr, trace w' = trace w0 ++ tr /\
                 read_block_result fd size buf z (errno w') m tr
              end) (fun _ _ => False)) w.
Proof.
  intros (tr & Ht & -> & Hle & Hc). unfold readblock_iter.
  pose proof (zlen_nonneg (received fd tr)) as Hnn. set (n := zlen (received fd tr)) in *.
  destruct (Z.ltb_spec 0 (size - n)) as [Hlt|Hge].
  2: { wp_step. exists tr. split; [done|]. split; [done|]. left.
       unfold to_long. rewrite wraps_id by (unfold in_s; simpl; lia). lia. }
  wp_step. apply wp_syscall_live. intros r k [_ Hok] Hca Hint E. cbn [post].
  pose proof (proj1 Hca) as Hca1. set (ev := EvCall (Cread fd (size - n)) r).
  assert (Hrec : received fd (tr ++ [ev])
                 = received fd tr ++ (if 0 <? ret r then ztake (ret r) (out r) else [])).
  { rewrite received_app. unfold received. simpl. rewrite Z.eqb_refl. simpl.
    by rewrite app_nil_r. }
  assert (Htr : trace (after (Cread fd (size - n)) r k w) = trace w0 ++ (tr ++ [ev])).
  { cbn [after trace]. by rewrite Ht, app_assoc. }
  destruct (Z.eqb_spec (ret r) 0) as [E0|E0]; cbn [andb].
  { assert (Heof : ends_with (read_eof fd) (tr ++ [ev])) by (by apply ends_with_last).
    rewrite E0, app_nil_r in Hrec. destruct (Z.eqb_spec n 0) as [En|En].
    - wp_step. exists (tr ++ [ev]). split; [done|]. unfold read_block_result.
      rewrite Hrec. split; [done|]. right. left. split_and!; auto; [by apply zlen_0|lia].
    - do 3 wp_step. exists (tr ++ [ev]). split; [done|]. unfold read_block_result.
      rewrite Hrec. split; [done|]. right. right. split; [done|]. split; [lia|]. right.
      split_and!; auto. intros Er. apply En. unfold n. by rewrite Er. }
  do 2 wp_step. cbn [after errno]. failed_simp.
  destruct (Z.eqb_spec (ret r) (-1)) as [E1|E1]; cbn [andb].
  - rewrite E1, app_nil_r in Hrec.
    destruct (Z.eqb_spec (err r) EINTR) as [E2|E2]; cbn [negb]; wp_step.
    + specialize (Hint (conj E1 E2)). cbn [after kern fst snd]. split; [|lia].
      exists (tr ++ [ev]). cbn zeta. rewrite Hrec. split_and!; auto. by etrans.
    + exists (tr ++ [ev]). split; [done|]. unfold read_block_result. rewrite Hrec.
      split; [done|]. right. right. split; [done|]. split; [lia|]. left.
      apply ends_with_last. cbn [after errno read_error]. failed_simp. rewrite E1. split_and!; auto.
  - destruct Hok as [?|(Hr & Hlo & _)]; [done|].
    destruct (Z.ltb_spec 0 (ret r)); [|lia]. rewrite ztake_all in Hrec by lia.
    wp_step. apply wp_copy_in; [lia|rewrite zlen_overlay by lia; lia|].
    cbn [post]. wp_step. unfold n. rewrite overlay_blit by lia. split.
    2: { cbn [after kern fst snd]. unfold to_size_t. rewrite wrapu_id by (unfold in_u; lia).
         fold n. lia. }
    exists (tr ++ [ev]). split; [done|]. cbn zeta. rewrite Hrec, zlen_app, Hlo.
    unfold to_size_t. rewrite !wrapu_id by (unfold in_u; lia). fold n.
    split_and!; [|lia|by etrans]. do 3 f_equal; lia.
Qed.

End Readblock.

(** C4: readblock returns, never writes outside the block, and reports the full
    size only when exactly that many bytes were read into the buffer in order;
    0 only when a read returned 0 before any byte was read; every other ending
    is -1, after a read that failed with an error other than an interruption or
    after the end of the file in the middle of the block. *)
Theorem readblock_correct {K} `{HL : LiveKernel K} fd size buf fuel (w : world K) :
  0 <= size <= zlen buf -> size < 2 ^ 63 ->
  (Z.to_nat size + patience (kern w) < fuel)%nat ->
  exists z m w' tr,
    readblock fuel fd buf size w = (Done (z, m), w') /\ trace w' = trace w ++ tr /\
    read_block_result fd size buf z (errno w') m tr.
Proof.
  intros Hs Hmax Hf.
  enough (wp (readblock fuel fd buf size) (fun o w' => exists z m tr,
    o = Done (z, m) /\ trace w' = trace w ++ tr /\
    read_block_result fd size buf z (errno w') m tr) w)
    as (o & w' & E & z & m & tr & -> & H')%wp_run by (by exists z, m, w', tr).
  unfold readblock, to_size_t. rewrite wrapu_id by (unfold in_u; lia).
  apply (wp_loop_total (readblock_inv fd size buf w)
    (fun st w' => (Z.to_nat st.1.1.2 + patience (kern w'))%nat)); [| |cbn [fst snd]; lia].
  - intros st w' HI. eapply wp_mono; [|by apply readblock_iter_spec].
    intros [[st'|[z m]]|h] w''; cbn [post]; [done| |done].
    intros (tr & Ht & Hr). eauto 10.
  - exists []. rewrite app_nil_r. cbn zeta. rewrite Z.sub_0_r.
    split_and!; try done. change (0 <= size). lia.
Qed.

Lemma readblock_correct_witness :
  exists z m w' tr,
    readblock 30 0 (uninit 8) 6 (World (Pipe (bytes_of "abcdefgh") [] [false; true] 3) 0 [])
      = (Done (z, m), w') /\ trace w' = [] ++ tr /\
    read_block_result 0 6 (uninit 8) z (errno w') m tr.
Proof.
  apply (readblock_correct 0 6 (uninit 8) 30
           (World (Pipe (bytes_of "abcdefgh") [] [false; true] 3) 0 [])).
  - vm_compute. split; discriminate.
  - done.
  - vm_compute. lia.
Defined.

(** ** Timed waiting *)

Definition gettimeofday : call := Csys "gettimeofday" [].

Definition now_of (r : resp) : timeval := Timeval (nth 0 (out r) 0) (nth 1 (out r) 0).

Definition usec_ok (t : timeval) : Prop := 0 <= tv_usec t < MILLION.

(** A wait for [fd] with a timeout that is positive and in normal form. *)
Definition proper_wait (fd : Z) (e : event) : Prop :=
  match e with
  | EvCall (Csys "gettimeofday" _) _ => True
  | EvCall (Csys "select" [AI nfds; AI fd'; AI s; AI us]) _ =>
      nfds = fd + 1 /\ fd' = fd /\ usec_ok (Timeval s us) /\ 0 < tv_value (Timeval s us)
  | _ => False
  end.

Definition ready (tr : list event) : Prop :=
  exists pre args r, tr = pre ++ [EvCall (Csys "select" args) r] /\ ret r <> 0 /\ ret r <> -1.

Section Timed.
Context {K : Type} {HK : Kernel K} {HP : PosixKernel K} {HL : LiveKernel K}.
Context (Hclock : forall k, usec_ok (now_of (fst (kstep gettimeofday k)))).

Lemma wp_gettimeout endt (Q : outcome (Z * timeval) -> world K -> Prop) w :
  usec_ok endt ->
  (forall z t r w', trace w' = trace w ++ [EvCall gettimeofday r] ->
     calmer (kern w) (kern w') -> usec_ok t ->
     tv_value t = tv_value endt - tv_value (now_of r) ->
     (z = 0 /\ 0 < tv_value t \/ z = -1 /\ tv_value t <= 0 /\ errno w' = ETIME) ->
     Q (Done (z, t)) w') ->
  wp (gettimeout endt) Q w.
Proof.
  intros He HQ. unfold gettimeout. wp_step. apply wp_syscall_live.
  intros r k _ Hc _ E. cbn [post]. fold gettimeofday in *.
  pose proof (Hclock (kern w)) as Hn. rewrite E in Hn. unfold usec_ok, now_of in *.
  cbn [fst tv_usec] in Hn. unfold tv_value in HQ. cbn [tv_sec tv_usec] in HQ.
  destruct (Z.leb_spec MILLION (tv_usec endt - nth 1 (out r) 0)); [lia|].
  unfold MILLION in *. destruct (Z.ltb_spec (tv_usec endt - nth 1 (out r) 0) 0);
    destruct (Z.ltb_spec (tv_sec endt - nth 0 (out r) 0) 0);
    try destruct (Z.ltb_spec (tv_sec endt - nth 0 (out r) 0 - 1) 0);
    cbn [orb]; try destruct (Z.eqb_spec (tv_sec endt - nth 0 (out r) 0) 0);
    try destruct (Z.eqb_spec (tv_sec endt - nth 0 (out r) 0 - 1) 0);
    try destruct (Z.eqb_spec (tv_usec endt - nth 1 (out r) 0) 0);
    try destruct (Z.eqb_spec (tv_usec endt - nth 1 (out r) 0 + 1000000) 0);
    cbn [andb]; wp_go;
    (eapply (HQ _ _ r); cbn [after trace kern errno tv_sec tv_usec]; [done|done|lia|lia|lia]).
Qed.

Definition wait_inv (fd : Z) (w0 : world K) (t : timeval) (w : world K) : Prop :=
  exists tr, trace w = trace w0 ++ tr /\ Forall (proper_wait fd) tr /\
    calmer (kern w0) (kern w) /\ usec_ok t /\ 0 < tv_value t.

Lemma wp_waitfdtimed fd endt fuel w :
  usec_ok endt -> 0 <= fd < FD_SETSIZE -> (patience (kern w) < fuel)%nat ->
  wp (waitfdtimed fuel fd endt) (fun o w' => exists z tr,
    o = Done z /\ trace w' = trace w ++ tr /\ Forall (proper_wait fd) tr /\
    (z = 0 /\ ready tr \/ z = -1 /\ errno w' <> EINTR)) w.
Proof.
  intros He Hfd Hf. unfold waitfdtimed.
  destruct (Z.ltb_spec fd 0); [lia|]. destruct (Z.leb_spec FD_SETSIZE fd); [lia|].
  cbn [orb]. wp_step. apply wp_gettimeout; [done|].
  intros z t r w' Ht Hc Hu Hv Hz. cbn [post].
  destruct Hz as [[-> Hpos]|(-> & _ & Herr)].
  2: { change (-1 =? -1) with true. cbv iota. wp_step. exists (-1), [EvCall gettimeofday r].
       split_and!; auto; [by constructor|]. right. by rewrite Herr. }
  change (0 =? -1) with false. cbv iota. wp_step.
  apply (wp_loop_total (wait_inv fd w) (fun _ w1 => patience (kern w1))).
  2: { exists [EvCall gettimeofday r]. split_and!; auto. by constructor. }
  2: { pose proof (proj1 Hc). lia. }
  clear dependent t r w'. intros t w' (tr & Ht & HF & Hc & Hu & Hpos).
  do 3 wp_step. apply wp_syscall_live. intros r k _ Hc' Hint E. cbn [post]. do 3 wp_step.
  match goal with |- context [after ?c _ _ _] => set (ev := EvCall c r) end.
  assert (HF' : Forall (proper_wait fd) (tr ++ [ev])).
  { apply Forall_app. split; [done|]. constructor; [|done]. done. }
  destruct (Z.eqb_spec (ret r) (-1)) as [E1|E1]; cbn [andb].
  - rewrite E1. cbn [after errno]. failed_simp. rewrite E1. change (-1 =? -1) with true. cbv iota.
    destruct (Z.eqb_spec (err r) EINTR) as [E2|E2].
    + specialize (Hint (conj E1 E2)). wp_step. apply wp_gettimeout; [done|].
      intros z t' r' w'' Ht' Hc'' Hu' _ Hz. cbn [after kern] in Hc''. cbn [post].
      assert (Htr : trace w'' = trace w ++ (tr ++ [ev]) ++ [EvCall gettimeofday r']).
      { rewrite Ht'. cbn [after trace]. by rewrite Ht, !app_assoc. }
      assert (HF'' : Forall (proper_wait fd) ((tr ++ [ev]) ++ [EvCall gettimeofday r'])).
      { apply Forall_app. split; [done|]. by constructor. }
      destruct Hz as [[-> Hp]|(-> & _ & Herr)].
      * change (0 =? -1) with false. cbv iota. wp_step. split; [|pose proof (proj1 Hc''); lia].
        eexists. split; [exact Htr|]. split_and!; auto. etrans; [done|]. by etrans.
      * change (-1 =? -1) with true. cbv iota. do 2 wp_step.
        do 2 eexists. split; [done|]. split; [exact Htr|]. split; [done|].
        right. by rewrite Herr.
    + wp_step. change (-1 =? 0) with false. change (-1 =? -1) with true.
      cbv iota. wp_step. exists (-1), (tr ++ [ev]). split; [done|]. split.
      { cbn [after trace]. by rewrite Ht, app_assoc. }
      split; [done|]. right. split; [done|]. cbn [after errno]. failed_simp. by rewrite E1.
  - wp_step. assert (Htr : forall w1 : world K, trace w1 = trace w' ++ [ev] -> trace w1 = trace w ++ (tr ++ [ev])).
    { intros w1 ->. by rewrite Ht, app_assoc. }
    destruct (Z.eqb_spec (ret r) 0) as [E0|E0].
    + do 3 wp_step. exists (-1), (tr ++ [ev]). split_and!; auto.
    + destruct (Z.eqb_spec (ret r) (-1)); [done|]. wp_step. exists 0, (tr ++ [ev]).
      split_and!; auto. left. split; [done|]. by do 3 eexists.
Qed.

End Timed.

(** C5: a timed wait on a descriptor that an fd_set can hold returns, however
    often signals interrupt it: every select it makes watches that descriptor
    with a positive, normalised timeout; 0 is returned only right after select
    reported the descriptor, and -1 never for an interruption.  Any other
    descriptor is refused with EINVAL before any call is made. *)
Theorem waitfdtimed_correct {K} `{HL : LiveKernel K} fd endt fuel (w : world K) :
  (forall k : K, usec_ok (now_of (fst (kstep gettimeofday k)))) -> usec_ok endt ->
  (patience (kern w) < fuel)%nat ->
  exists z w' tr,
    waitfdtimed fuel fd endt w = (Done z, w') /\ trace w' = trace w ++ tr /\
    (0 <= fd < FD_SETSIZE /\ Forall (proper_wait fd) tr /\
       (z = 0 /\ ready tr \/ z = -1 /\ errno w' <> EINTR) \/
     ~ 0 <= fd < FD_SETSIZE /\ z = -1 /\ errno w' = EINVAL /\ tr = []).
Proof.
  intros Hclock He Hf.
  destruct (decide (0 <= fd < FD_SETSIZE)) as [Hfd|Hfd].
  - destruct (wp_run _ _ _ (wp_waitfdtimed Hclock fd endt fuel w He Hfd Hf))
      as (o & w' & E & z & tr & -> & H1 & H2 & H3).
    exists z, w', tr. split_and!; auto.
  - exists (-1), (World (kern w) EINVAL (trace w)), []. split_and!; [|by rewrite app_nil_r|auto].
    unfold waitfdtimed. destruct (Z.ltb_spec fd 0); [done|].
    destruct (Z.leb_spec FD_SETSIZE fd); [done|]. lia.
Qed.

Lemma waitfdtimed_correct_witness :
  exists z w' tr,
    waitfdtimed 9 5 (Timeval 3 500) (World (Pipe [] [] [false; true] 3) 0 []) = (Done z, w') /\
    trace w' = [] ++ tr /\
    (0 <= 5 < FD_SETSIZE /\ Forall (proper_wait 5) tr /\
       (z = 0 /\ ready tr \/ z = -1 /\ errno w' <> EINTR) \/
     ~ 0 <= 5 < FD_SETSIZE /\ z = -1 /\ errno w' = EINVAL /\ tr = []).
Proof.
  apply (waitfdtimed_correct 5 (Timeval 3 500) 9 (World (Pipe [] [] [false; true] 3) 0 [])).
  - intros k. unfold kstep, pipe_kernel. destruct (pipe_next k) as [b k'].
    by destruct (b && _).
  - done.
  - vm_compute. lia.
Defined.
