(* ===== verification/FileSys.v ===== *)
(** A file system as a kernel: names lead to inodes, descriptors and mappings to an
    inode each, so that two names, two descriptors or a descriptor and a mapping
    can share one file.  It is the concrete kernel on which the file programs are
    run to their final files; a call never fails except for a name or a descriptor
    that does not exist. *)
From S2P Require Import Prelude CMonad CLib Common Restart.

Record fs := FS {
  dir : gmap string nat;
  inodes : gmap nat (list Z);
  fds : gmap Z (nat * Z);
  maps : gmap Z (nat * Z);
  next : Z }.

Definition ENOENT : Z := 2.

Definition set_inode (i : nat) (c : list Z) (k : fs) : fs :=
  FS (dir k) (<[i := c]> (inodes k)) (fds k) (maps k) (next k).

Definition set_fd (fd : Z) (i : nat) (pos : Z) (k : fs) : fs :=
  FS (dir k) (inodes k) (<[fd := (i, pos)]> (fds k)) (maps k) (next k).

Definition link (path : string) (i : nat) (k : fs) : fs :=
  FS (<[path := i]> (dir k)) (inodes k) (fds k) (maps k) (next k).

(** A new descriptor on inode [i], and a new mapping of its first [len] bytes. *)
Definition new_fd (i : nat) (k : fs) : fs :=
  FS (dir k) (inodes k) (<[next k := (i, 0)]> (fds k)) (maps k) (next k + 1).

Definition new_map (i : nat) (len : Z) (k : fs) : fs :=
  FS (dir k) (inodes k) (fds k) (<[next k := (i, len)]> (maps k)) (next k + 1).

Definition fresh_inode (k : fs) : nat := fresh (dom (inodes k)).

(** Writing [d] at [pos]: the gap after the end of the file reads as zeroes. *)
Definition pwrite (c : list Z) (pos : Z) (d : list Z) : list Z :=
  ztake pos (c ++ replicate (Z.to_nat (pos - zlen c)) 0) ++ d ++ zdrop (pos + zlen d) c.

Definition fails (e : Z) (k : fs) : resp * fs := (Resp (-1) e [], k).

Definition file_of (k : fs) (fd : Z) : option (nat * Z * list Z) :=
  '(i, pos) ← fds k !! fd; c ← inodes k !! i; Some (i, pos, c).

Definition mapped (k : fs) (a : Z) : option (nat * Z * list Z) :=
  '(i, len) ← maps k !! a; c ← inodes k !! i; Some (i, len, c).

Definition do_open (path : string) (flags : Z) (k : fs) : resp * fs :=
  match dir k !! path with
  | Some i => (Resp (next k) 0 [], new_fd i k)
  | None =>
      if Z.testbit flags 6 then
        let i := fresh_inode k in
        (Resp (next k) 0 [], new_fd i (set_inode i [] (link path i k)))
      else fails ENOENT k
  end.

Definition do_read (fd n : Z) (k : fs) : resp * fs :=
  match file_of k fd with
  | Some (i, pos, c) =>
      let d := ztake n (zdrop pos c) in
      (Resp (zlen d) 0 d, set_fd fd i (pos + zlen d) k)
  | None => fails EBADF k
  end.

Definition do_write (fd : Z) (d : list Z) (k : fs) : resp * fs :=
  match file_of k fd with
  | Some (i, pos, c) =>
      (Resp (zlen d) 0 [], set_fd fd i (pos + zlen d) (set_inode i (pwrite c pos d) k))
  | None => fails EBADF k
  end.

Definition do_stat (path : string) (k : fs) : resp * fs :=
  match dir k !! path ≫= (inodes k !!.) with
  | Some c => (Resp 0 0 [zlen c], k)
  | None => fails ENOENT k
  end.

Definition do_lseek (fd off : Z) (k : fs) : resp * fs :=
  match fds k !! fd with
  | Some (i, _) => (Resp off 0 [], set_fd fd i off k)
  | None => fails EBADF k
  end.

(** mmap returns an address and shows the bytes that are mapped there. *)
Definition do_mmap (len fd : Z) (k : fs) : resp * fs :=
  match file_of k fd with
  | Some (i, _, c) => (Resp (next k) 0 (ztake len c), new_map i len k)
  | None => fails EBADF k
  end.

(** Stores through a shared mapping are stores to the file, and loads see it as it
    is at that time. *)
Definition do_memcpy (dst src n : Z) (k : fs) : resp * fs :=
  match mapped k dst, mapped k src with
  | Some (i, _, c), Some (_, _, d) => (Resp dst 0 [], set_inode i (pwrite c 0 (ztake n d)) k)
  | _, _ => (Resp dst 0 [], k)
  end.

#[export] Instance fs_kernel : Kernel fs := fun c k =>
  match c with
  | Cread fd n => do_read fd n k
  | Cwrite fd d => do_write fd d k
  | Copen path flags _ => do_open path flags k
  | Cclose fd => if decide (fds k !! fd = None) then fails EBADF k
                 else (Resp 0 0 [], FS (dir k) (inodes k) (delete fd (fds k)) (maps k) (next k))
  | Csys "stat" [AS path] => do_stat path k
  | Csys "fstat" [AI fd] =>
      match file_of k fd with
      | Some (_, _, c) => (Resp 0 0 [zlen c], k)
      | None => fails EBADF k
      end
  | Csys "lseek" [AI fd; AI off; AI 0] => do_lseek fd off k
  | Csys "mmap" [AI len; _; _; AI fd] => do_mmap len fd k
  | Csys "memcpy" [AI dst; AI src; AI n] => do_memcpy dst src n k
  | Cmalloc _ => (Resp 1 0 [], k)
  | _ => (Resp 0 0 [], k)
  end.

(** The contents of the file a name leads to. *)
Definition contents (k : fs) (path : string) : option (list Z) := dir k !! path ≫= (inodes k !!.).

(** ** Lemmas *)

Section Lemmas.
Implicit Types (k : fs).

Lemma pwrite_end c d : pwrite c (zlen c) d = c ++ d.
Proof.
  unfold pwrite. rewrite Z.sub_diag, app_nil_r, ztake_all, zdrop_all by (pose proof (zlen_nonneg d); lia).
  by rewrite app_nil_r.
Qed.

(** Overwriting the front of a file. *)
Lemma pwrite_front c d : pwrite c 0 d = d ++ zdrop (zlen d) c.
Proof. done. Qed.

(** Writing the next part of [d] after its first [p] bytes are in place. *)
Lemma pwrite_next c d p n :
  0 <= p -> 0 <= n -> p + n <= zlen d ->
  pwrite (ztake p d ++ zdrop p c) p (ztake n (zdrop p d)) = ztake (p + n) d ++ zdrop (p + n) c.
Proof.
  intros Hp Hn Hd. unfold pwrite.
  assert (Ht : zlen (ztake p d) = p) by (apply zlen_ztake; lia).
  assert (Hz : zlen (ztake n (zdrop p d)) = n) by (apply zlen_ztake; rewrite zlen_zdrop; lia).
  rewrite Hz, zlen_app, Ht. replace (Z.to_nat (p - (p + zlen (zdrop p c)))) with 0%nat
    by (pose proof (zlen_nonneg (zdrop p c)); lia).
  cbn [replicate]. rewrite app_nil_r. unfold ztake at 1. rewrite take_app_length'
    by (unfold zlen in Ht; lia).
  rewrite app_assoc, ztake_add by lia. f_equal. unfold zdrop at 1.
  rewrite drop_app_ge by (unfold zlen in Ht; lia).
  unfold zdrop. rewrite drop_drop. f_equal. unfold zlen in Ht. lia.
Qed.

Lemma wp_fs_call c r k' (Q : outcome resp -> world fs -> Prop) (w : world fs) :
  fs_kernel c (kern w) = (r, k') -> Q (Done r) (after c r k' w) -> wp (syscall c) Q w.
Proof. intros E HQ. apply wp_syscall. intros r0 k0 E0. unfold kstep in E0. congruence. Qed.

(** No call of this kernel is interrupted. *)
Lemma wp_fs_restart fuel c r k' (Q : outcome resp -> world fs -> Prop) (w : world fs) :
  fs_kernel c (kern w) = (r, k') -> ret r <> -1 \/ err r <> EINTR /\ call_failed c (ret r) = true ->
  Q (Done r) (after c r k' w) -> wp (restart (S fuel) c) Q w.
Proof.
  intros E Hr HQ. unfold restart. cbn [loop]. wp_step. unfold restart_iter. wp_step.
  eapply wp_fs_call; [done|]. cbn [post]. do 2 wp_step.
  destruct Hr as [Hr|[He Hf]].
  - destruct (Z.eqb_spec (ret r) (-1)); [done|]. cbn [andb]. by wp_seq.
  - cbn [after errno]. rewrite Hf. destruct (Z.eqb_spec (err r) EINTR); [done|].
    rewrite andb_false_r. by wp_seq.
Qed.

Lemma wp_fs_r_write fuel fd d i pos c (Q : outcome Z -> world fs -> Prop) (w : world fs) :
  file_of (kern w) fd = Some (i, pos, c) -> 0 < zlen d <= INT_MAX ->
  Q (Done (zlen d)) (after (Cwrite fd d) (Resp (zlen d) 0 [])
       (set_fd fd i (pos + zlen d) (set_inode i (pwrite c pos d) (kern w))) w) ->
  wp (r_write (S (S fuel)) fd d (zlen d)) Q w.
Proof.
  intros Hf Hd HQ. unfold r_write, INT_MAX in *.
  assert (to_size_t (zlen d) = zlen d) as Ed by (apply wrapu_id; unfold in_u; lia). rewrite Ed.
  cbn [loop]. wp_step. unfold r_write_iter at 1. destruct (Z.ltb_spec 0 (zlen d)); [|lia]. wp_step.
  unfold write_from. destruct (Z.ltb_spec (zlen d) (0 + zlen d)); [lia|].
  rewrite zdrop_0, ztake_all by lia. wp_step. eapply wp_fs_call.
  { unfold fs_kernel, do_write. by rewrite Hf. }
  cbn [post ret]. do 3 wp_step. destruct (Z.eqb_spec (zlen d) (-1)); [lia|]. cbn [andb]. do 2 wp_step.
  rewrite Z.sub_diag, Z.add_0_l, Ed. change (to_size_t 0) with 0. unfold r_write_iter.
  change (0 <? 0) with false. wp_seq. assert (to_long (zlen d) = zlen d) as ->; [|done].
  apply wraps_id; [lia|]. unfold in_s. lia.
Qed.

(** Two open files, distinct or not: descriptors [from] and [to] at positions
    [p] and [q] of inodes [i] and [j]. *)
Record opened (src dst : string) (from to : Z) (i j : nat) (p q : Z) (k : fs) : Prop := Opened {
  o_src : dir k !! src = Some i;
  o_dst : dir k !! dst = Some j;
  o_from : fds k !! from = Some (i, p);
  o_to : fds k !! to = Some (j, q);
  o_apart : from <> to }.

(** What open with O_CREAT finds or makes. *)
Definition target (dst : string) (j : nat) (old : list Z) (k : fs) : Prop :=
  dir k !! dst = Some j /\ inodes k !! j = Some old \/
  dir k !! dst = None /\ j = fresh_inode k /\ old = [].

Lemma opened_inode src dst from to i j p q l c k :
  opened src dst from to i j p q k -> opened src dst from to i j p q (set_inode l c k).
Proof. by intros []. Qed.

Lemma opened_from src dst from to i j p p' q k :
  opened src dst from to i j p q k -> opened src dst from to i j p' q (set_fd from i p' k).
Proof. intros [H1 H2 H3 H4 H5]. constructor; cbn; [done|done|by rewrite lookup_insert_eq|by rewrite lookup_insert_ne|done]. Qed.

Lemma opened_to src dst from to i j p q q' k :
  opened src dst from to i j p q k -> opened src dst from to i j p q' (set_fd to j q' k).
Proof. intros [H1 H2 H3 H4 H5]. constructor; cbn; [done|done|by rewrite lookup_insert_ne|by rewrite lookup_insert_eq|done]. Qed.

Lemma opened_map src dst from to i j p q l n k :
  opened src dst from to i j p q k -> opened src dst from to i j p q (new_map l n k).
Proof. by intros []. Qed.

Lemma file_of_from src dst from to i j p q c k :
  opened src dst from to i j p q k -> inodes k !! i = Some c -> file_of k from = Some (i, p, c).
Proof. intros [H1 H2 H3 H4 H5] Hc. unfold file_of. by rewrite H3; cbn; rewrite Hc. Qed.

Lemma file_of_to src dst from to i j p q c k :
  opened src dst from to i j p q k -> inodes k !! j = Some c -> file_of k to = Some (j, q, c).
Proof. intros [H1 H2 H3 H4 H5] Hc. unfold file_of. by rewrite H4; cbn; rewrite Hc. Qed.

Lemma fs_close_keeps fd k r k' :
  fs_kernel (Cclose fd) k = (r, k') -> dir k' = dir k /\ inodes k' = inodes k.
Proof. unfold fs_kernel. case_decide; intros [= <- <-]; done. Qed.

(** Opening the source and then the destination. *)
Lemma open_source src i flags k :
  dir k !! src = Some i -> do_open src flags k = (Resp (next k) 0 [], new_fd i k).
Proof. intros E. unfold do_open. by rewrite E. Qed.

Lemma open_target src dst flags i j cs old k :
  dir k !! src = Some i -> inodes k !! i = Some cs -> Z.testbit flags 6 = true ->
  target dst j old k ->
  exists k2, do_open dst flags (new_fd i k) = (Resp (next k + 1) 0 [], k2) /\
    opened src dst (next k) (next k + 1) i j 0 0 k2 /\
    inodes k2 !! j = Some old /\ (inodes k2 !! i = Some cs) /\ next k2 = next k + 2.
Proof.
  intros Hs Hi Hf Ht. unfold do_open. cbn [dir new_fd]. destruct Ht as [[Hd Hj]|(Hd & -> & ->)]; rewrite Hd.
  - eexists. split; [done|]. split_and!; cbn; [|done|done|lia]. constructor; cbn; [done|done| |by rewrite lookup_insert_eq|lia].
    rewrite lookup_insert_ne by lia. by rewrite lookup_insert_eq.
  - rewrite Hf. change (fresh_inode (new_fd i k)) with (fresh_inode k).
    assert (Hfr : fresh_inode k <> i).
    { intros <-. assert (fresh_inode k ∈ dom (inodes k)) as Hin by (by apply elem_of_dom).
      by apply (is_fresh (dom (inodes k))). }
    assert (src <> dst) by (intros ->; congruence).
    eexists. split; [done|]. split_and!; cbn; [|by rewrite lookup_insert_eq|by rewrite lookup_insert_ne|lia].
    constructor; cbn; [by rewrite lookup_insert_ne|by rewrite lookup_insert_eq| |by rewrite lookup_insert_eq|lia].
    rewrite lookup_insert_ne by lia. by rewrite lookup_insert_eq.
Qed.

End Lemmas.
