(* ===== verification/RawSock.v ===== *)
(** src/ipc/net_sockets/raw_sock/raw_eth_ipv4_udp_tx.c: builds an Ethernet frame
    with an IPv4 and a UDP header by hand and sends it on a packet socket.  The
    Internet checksum is compared with RFC 1071's one's complement sum. *)
From S2P Require Import Prelude CMonad CLib Common.

Definition PAYLOAD : string := "Hello, UDP!".
Definition ETH_HDR_LEN : Z := 14.
Definition IP_HDR_LEN : Z := 20.
Definition UDP_HDR_LEN : Z := 8.
Definition ETH_FRAME_LEN : Z := 1514.
Definition IPPROTO_UDP : Z := 17.

(** The bytes of a 16-bit value in network order, and of a host-order (little
    endian) one. *)
Definition htons (z : Z) : list Z := [Z.shiftr z 8 mod 256; z mod 256].
Definition le16 (z : Z) : list Z := [z mod 256; Z.shiftr z 8 mod 256].

(** The bytes, in memory order, of [inet_addr] of a dotted quad. *)
Fixpoint quad_bytes (acc : Z) (bs : list Z) : list Z :=
  match bs with
  | [] => [acc]
  | b :: bs' => if b =? 46 then acc :: quad_bytes 0 bs' else quad_bytes (10 * acc + (b - 48)) bs'
  end.

Definition inet_addr (s : string) : list Z := quad_bytes 0 (bytes_of s).

Record pseudo_header := PseudoHeader {
  src_addr : list Z; dst_addr : list Z; zero : Z; protocol : Z; udp_length : list Z
}.

(** The twelve bytes of the structure. *)
Definition psh_bytes (p : pseudo_header) : list Z :=
  src_addr p ++ dst_addr p ++ [zero p; protocol p] ++ udp_length p.

Section Code.
Context {K : Type} {HK : Kernel K}.

(** The word-summing while loop of [checksum]: the sum, the position and the
    length that remains. *)
Definition checksum_words (buf : mem) (p len : Z) : C K (Z * Z * Z) :=
  loop (S (Z.to_nat len)) (fun '(sum, p, len) =>
    if 1 <? len then
      lo ← rd "buf" buf p;
      hi ← rd "buf" buf (p + 1);
      mret (inl (wrapu 64 (sum + (lo + 256 * hi)), p + 2, len - 2))
    else mret (inr (sum, p, len))) (0, p, len).

Definition checksum (buf : mem) (p len : Z) : C K Z :=
  '(sum, p, len) ← checksum_words buf p len;
  sum ← (if negb (len =? 0) then b ← rd "buf" buf p; mret (wrapu 64 (sum + b)) else mret sum);
  let sum := Z.shiftr sum 16 + Z.land sum 65535 in
  let sum := sum + Z.shiftr sum 16 in
  mret (wrapu 16 (Z.lnot sum)).

(** Bytes [off, off + n) of an object, which must have been written. *)
Definition slice (obj : string) (m : mem) (off n : Z) : C K (list Z) :=
  match mapM id (ztake n (zdrop off m)) with
  | Some bs => if zlen bs =? n then mret bs else undefined (UB_bounds obj (off + n - 1))
  | None => undefined (UB_uninit obj off)
  end.

Definition eth_header (sendbuf : mem) (sa_data : list Z) : C K (mem * Z) :=
  let dest_mac := replicate 6 255 in
  sendbuf ← copy_in "sendbuf" sendbuf 0 dest_mac;
  let tx_len := 6 in
  sendbuf ← copy_in "sendbuf" sendbuf tx_len sa_data;
  let tx_len := tx_len + 6 in
  sendbuf ← wr "sendbuf" sendbuf tx_len 8;
  let tx_len := tx_len + 1 in
  sendbuf ← wr "sendbuf" sendbuf tx_len 0;
  mret (sendbuf, tx_len + 1).

(** The fields of [struct iphdr] are stored at their offsets; [ihl] and
    [version] share byte 0. *)
Definition ip_header (sendbuf : mem) (data_len : Z) : C K mem :=
  let iph := ETH_HDR_LEN in
  sendbuf ← wr "sendbuf" sendbuf iph (Z.lor 5 (Z.shiftl 4 4));
  sendbuf ← wr "sendbuf" sendbuf (iph + 1) 0;
  sendbuf ← copy_in "sendbuf" sendbuf (iph + 2) (htons (IP_HDR_LEN + UDP_HDR_LEN + data_len));
  sendbuf ← copy_in "sendbuf" sendbuf (iph + 4) (htons 12345);
  sendbuf ← copy_in "sendbuf" sendbuf (iph + 6) (le16 0);
  sendbuf ← wr "sendbuf" sendbuf (iph + 8) 64;
  sendbuf ← wr "sendbuf" sendbuf (iph + 9) IPPROTO_UDP;
  sendbuf ← copy_in "sendbuf" sendbuf (iph + 10) (le16 0);
  sendbuf ← copy_in "sendbuf" sendbuf (iph + 12) (inet_addr "192.168.0.100");
  sendbuf ← copy_in "sendbuf" sendbuf (iph + 16) (inet_addr "192.168.0.255");
  c ← checksum sendbuf iph IP_HDR_LEN;
  copy_in "sendbuf" sendbuf (iph + 10) (le16 c).

Definition udp_header (sendbuf : mem) (data : list Z) (data_len : Z) : C K mem :=
  let udph := ETH_HDR_LEN + IP_HDR_LEN in
  sendbuf ← copy_in "sendbuf" sendbuf udph (htons 12345);
  sendbuf ← copy_in "sendbuf" sendbuf (udph + 2) (htons 54321);
  sendbuf ← copy_in "sendbuf" sendbuf (udph + 4) (htons (UDP_HDR_LEN + data_len));
  sendbuf ← copy_in "sendbuf" sendbuf (udph + 6) (le16 0);
  copy_in "sendbuf" sendbuf (udph + UDP_HDR_LEN) data.

(** The pseudo header, the heap block for it and the UDP checksum.  The result
    of [malloc] is not tested before it is written through. *)
Definition udp_checksum (sendbuf : mem) (data_len : Z) : C K mem :=
  let iph := ETH_HDR_LEN in
  let udph := ETH_HDR_LEN + IP_HDR_LEN in
  saddr ← slice "sendbuf" sendbuf (iph + 12) 4;
  daddr ← slice "sendbuf" sendbuf (iph + 16) 4;
  let psh := PseudoHeader saddr daddr 0 IPPROTO_UDP (htons (UDP_HDR_LEN + data_len)) in
  let psize := 12 + UDP_HDR_LEN + data_len in
  p ← syscall (Cmalloc psize);
  if ret p =? 0 then undefined (UB_null "pseudogram")
  else
    pseudogram ← copy_in "pseudogram" (uninit psize) 0 (psh_bytes psh);
    seg ← slice "sendbuf" sendbuf udph (UDP_HDR_LEN + data_len);
    pseudogram ← copy_in "pseudogram" pseudogram 12 seg;
    c ← checksum pseudogram 0 psize;
    sendbuf ← copy_in "sendbuf" sendbuf (udph + 6) (le16 c);
    syscall (Cfree (ret p));;
    mret sendbuf.

(** The six bytes of [if_mac.ifr_hwaddr.sa_data] after the ioctl: what the kernel
    stored, on top of the zeroes of memset. *)
Definition sa_data (r : resp) : list Z := take 6 (map to_uchar (out r) ++ replicate 6 0).

Definition main : C K Z :=
  let ifname := "wlo1" in
  let data := bytes_of PAYLOAD in
  let data_len := strlen PAYLOAD in
  sockfd ← sys "socket" [AI 17; AI 3; AI 768];
  if sockfd =? -1 then perror "socket";; exit EXIT_FAILURE
  else
    if_idx ← syscall (Csys "ioctl" [AI sockfd; AS "SIOCGIFINDEX"; AS ifname]);
    if ret if_idx <? 0 then perror "SIOCGIFINDEX";; exit EXIT_FAILURE
    else
      if_mac ← syscall (Csys "ioctl" [AI sockfd; AS "SIOCGIFHWADDR"; AS ifname]);
      if ret if_mac <? 0 then perror "SIOCGIFHWADDR";; exit EXIT_FAILURE
      else
        '(sendbuf, tx_len) ← eth_header (uninit ETH_FRAME_LEN) (sa_data if_mac);
        sendbuf ← ip_header sendbuf data_len;
        sendbuf ← udp_header sendbuf data data_len;
        sendbuf ← udp_checksum sendbuf data_len;
        let tx_len := ETH_HDR_LEN + IP_HDR_LEN + UDP_HDR_LEN + data_len in
        frame ← slice "sendbuf" sendbuf 0 tx_len;
        s ← sys "sendto" [AI sockfd; AB frame; AI 0;
                          AI (nth 0 (out if_idx) 0); AI 6; AB (replicate 6 255)];
        if s <? 0 then
          perror "sendto";; syscall (Cclose sockfd);; exit EXIT_FAILURE
        else
          printf (cat ["Ethernet + IP + UDP packet sent successfully"; nl]);;
          syscall (Cclose sockfd);;
          mret 0.

End Code.

(** ** RFC 1071 *)

(** One's complement addition of 16-bit words, end-around carry included. *)
Definition ocadd (a b : Z) : Z := if a + b <? 65536 then a + b else a + b - 65535.

(** The 16-bit words of a byte sequence, an odd last byte padded with zero. *)
Fixpoint words (bs : list Z) : list Z :=
  match bs with
  | lo :: hi :: bs' => (lo + 256 * hi) :: words bs'
  | [b] => [b]
  | [] => []
  end.

Definition rfc1071 (bs : list Z) : Z := 65535 - foldl ocadd 0 (words bs).

Definition zsum (l : list Z) : Z := foldr Z.add 0 l.

Definition word_ok (x : Z) : Prop := 0 <= x < 65536.

(** [a] is the one's complement representative of the natural sum [s]. *)
Definition oc_rep (a s : Z) : Prop :=
  0 <= a <= 65535 /\ (exists q, s = a + 65535 * q /\ 0 <= q) /\ (a = 0 -> s = 0).

Lemma oc_rep_unique a b s : oc_rep a s -> oc_rep b s -> a = b.
Proof.
  intros (Ha & (q & Eq & Hq) & Za) (Hb & (p & Ep & Hp) & Zb).
  destruct (decide (a = 0)) as [->|]; [lia|]. destruct (decide (b = 0)) as [->|]; [lia|].
  assert (q = p) by lia. lia.
Qed.

Lemma ocadd_rep a s x : oc_rep a s -> word_ok x -> oc_rep (ocadd a x) (s + x).
Proof.
  intros (Ha & (q & Eq & Hq) & Za) Hx. unfold ocadd, word_ok in *.
  destruct (Z.ltb_spec (a + x) 65536).
  - split; [lia|]. split; [exists q; lia|]. intros. assert (s = 0) by (apply Za; lia). lia.
  - split; [lia|]. split; [exists (q + 1); lia|]. lia.
Qed.

Lemma oc_fold_rep l : Forall word_ok l -> forall a s, oc_rep a s ->
  oc_rep (foldl ocadd a l) (s + zsum l).
Proof.
  induction 1 as [|x l Hx _ IH]; intros a s Ha; cbn [foldl zsum foldr].
  - by rewrite Z.add_0_r.
  - rewrite Z.add_assoc. apply IH. by apply ocadd_rep.
Qed.

Lemma zsum_nonneg l : Forall word_ok l -> 0 <= zsum l.
Proof. unfold zsum. induction 1 as [|x l Hx _ IH]; simpl; [lia|]. unfold word_ok in *. lia. Qed.

Lemma words_ok bs : Forall byte_ok bs -> Forall word_ok (words bs).
Proof.
  revert bs. fix IH 1. intros [|a [|b bs]] H.
  - constructor.
  - inversion H; subst. unfold byte_ok in *. constructor; [|constructor]. unfold word_ok. lia.
  - inversion H as [|?? Ha H']; subst. inversion H' as [|?? Hb H'']; subst.
    unfold byte_ok in *. cbn [words]. constructor; [unfold word_ok; lia|]. by apply IH.
Qed.

(** The folding of [checksum], on a sum that fits 32 bits. *)
Lemma fold_rep s : 0 <= s < 2 ^ 32 ->
  let s1 := Z.shiftr s 16 + Z.land s 65535 in
  wrapu 16 (Z.lnot (s1 + Z.shiftr s1 16)) = 65535 - (s1 + Z.shiftr s1 16) mod 65536 /\
  oc_rep ((s1 + Z.shiftr s1 16) mod 65536) s.
Proof.
  intros Hs s1. assert (Es1 : s1 = s / 65536 + s mod 65536).
  { unfold s1. rewrite Z.shiftr_div_pow2 by lia. change 65535 with (Z.ones 16).
    by rewrite Z.land_ones by lia. }
  pose proof (Z.mod_pos_bound s 65536 ltac:(lia)). pose proof (Z.div_mod s 65536 ltac:(lia)).
  assert (0 <= s / 65536 < 65536).
  { split; [apply Z.div_pos; lia|]. apply Z.div_lt_upper_bound; lia. }
  rewrite Z.shiftr_div_pow2 by lia. change (2 ^ 16) with 65536.
  assert (Hd : s1 / 65536 = if s1 <? 65536 then 0 else 1).
  { destruct (Z.ltb_spec s1 65536); [apply Z.div_small; lia|].
    symmetry. apply (Z.div_unique _ _ _ (s1 - 65536)); lia. }
  rewrite Hd. set (t := s1 + (if s1 <? 65536 then 0 else 1)).
  assert (Ht : t mod 65536 = if s1 <? 65536 then s1 else s1 - 65535).
  { unfold t. destruct (Z.ltb_spec s1 65536); [rewrite Z.mod_small; lia|].
    symmetry. apply (Z.mod_unique _ _ 1); lia. }
  split.
  - unfold wrapu, Z.lnot. change (2 ^ 16) with 65536. rewrite Ht.
    destruct (Z.ltb_spec s1 65536); unfold t; symmetry.
    + apply (Z.mod_unique _ _ (-1)); lia.
    + apply (Z.mod_unique _ _ (-2)); lia.
  - rewrite Ht. destruct (Z.ltb_spec s1 65536).
    + split; [lia|]. split; [exists (s / 65536); lia|]. lia.
    + split; [lia|]. split; [exists (s / 65536 + 1); lia|]. lia.
Qed.

Lemma zsum_words_bound bs :
  Forall byte_ok bs -> 2 * zsum (words bs) <= 65535 * (zlen bs + 1).
Proof.
  revert bs. fix IH 1. intros [|a [|b bs]] H.
  - done.
  - inversion H; subst. change (zlen [a]) with 1. change (zsum (words [a])) with (a + 0). unfold byte_ok in *. lia.
  - inversion H as [|?? Ha H']; subst. inversion H' as [|?? Hb H'']; subst.
    unfold byte_ok in *. specialize (IH bs H''). cbn [words].
    unfold zsum in *. cbn [foldr]. rewrite !zlen_cons. lia.
Qed.

(** ** checksum *)
Section Checksum.
Context {K : Type} {HK : Kernel K}.

(** The bytes [bs] lie at [off] in [m]. *)
Definition bytes_at (m : mem) (off : Z) (bs : list Z) : Prop :=
  0 <= off /\ ztake (zlen bs) (zdrop off m) = init bs.

Lemma bytes_at_nth m off bs i b :
  bytes_at m off bs -> 0 <= i -> bs !! Z.to_nat i = Some b -> znth m (off + i) = Some (Some b).
Proof.
  intros (Ho & Hb) Hi Hl. unfold znth. destruct (Z.ltb_spec (off + i) 0); [lia|].
  pose proof (lookup_lt_Some _ _ _ Hl) as Hlen.
  assert (init bs !! Z.to_nat i = Some (Some b)) as Hin.
  { unfold init, mem. by rewrite list_lookup_fmap, Hl. }
  rewrite <- Hb in Hin. unfold ztake, zdrop, mem in Hin.
  rewrite lookup_take in Hin. destruct (decide _); [|unfold zlen in *; lia].
  rewrite lookup_drop in Hin. rewrite Z2Nat.inj_add by lia. exact Hin.
Qed.

Lemma bytes_at_drop2 m off a b bs :
  bytes_at m off (a :: b :: bs) -> bytes_at m (off + 2) bs.
Proof.
  intros (Ho & Hb). split; [lia|].
  rewrite <- zdrop_zdrop by lia. unfold ztake, zdrop, zlen in *. cbn [length] in Hb.
  rewrite Nat2Z.id in *. destruct (drop (Z.to_nat off) m) as [|x [|y l]]; try done.
  by inversion Hb.
Qed.

Lemma wp_checksum_words m (Q : outcome (Z * Z * Z) -> world K -> Prop) w :
  forall bs fuel s off, (length bs < fuel)%nat -> Forall byte_ok bs ->
  0 <= s -> s + zsum (words bs) < 2 ^ 64 -> bytes_at m off bs ->
  (forall s' off' tl, 0 <= s' -> s' + zsum tl = s + zsum (words bs) ->
     (tl = [] \/ exists b, tl = [b] /\ byte_ok b) -> bytes_at m off' tl ->
     Q (Done (s', off', zlen tl)) w) ->
  wp (loop fuel (fun '(sum, p, len) =>
    if 1 <? len then
      lo ← rd "buf" m p;
      hi ← rd "buf" m (p + 1);
      mret (inl (wrapu 64 (sum + (lo + 256 * hi)), p + 2, len - 2))
    else mret (inr (sum, p, len))) (s, off, zlen bs)) Q w.
Proof.
  fix IH 1. intros [|a [|b bs]] [|fuel] s off Hf Hb Hs Hsum Hat HQ; cbn [length] in Hf;
    try lia; cbn [loop]; wp_step.
  - change (1 <? zlen []) with false. do 3 wp_step. apply (HQ s off []); auto.
  - change (1 <? zlen [a]) with false. do 3 wp_step. inversion Hb; subst. apply (HQ s off [a]); eauto.
  - destruct (Z.ltb_spec 1 (zlen (a :: b :: bs))) as [_|Hl];
      [|rewrite !zlen_cons in Hl; pose proof (zlen_nonneg bs); lia].
    inversion Hb as [|?? Ha Hb']; subst. inversion Hb' as [|?? Hb0 Hb'']; subst.
    pose proof (zsum_nonneg _ (words_ok _ Hb'')) as Hnn. unfold byte_ok in Ha, Hb0.
    cbn [words zsum foldr] in Hsum. fold (zsum (words bs)) in Hsum.
    wp_step. eapply wp_rd.
    { rewrite <- (Z.add_0_r off). by apply (bytes_at_nth m off (a :: b :: bs)). }
    cbn [post]. wp_step. eapply wp_rd; [by apply (bytes_at_nth m off (a :: b :: bs))|].
    cbn [post]. wp_step. rewrite wrapu_id by (unfold in_u; lia).
    replace (zlen (a :: b :: bs) - 2) with (zlen bs) by (rewrite !zlen_cons; lia).
    apply IH; [lia|done|lia|lia|by eapply bytes_at_drop2|].
    intros s' off' tl Hs' Heq. apply HQ; [done|]. cbn [words zsum foldr].
    fold (zsum (words bs)). lia.
Qed.

Lemma wp_checksum m off bs (Q : outcome Z -> world K -> Prop) w :
  Forall byte_ok bs -> zlen bs <= 131072 -> bytes_at m off bs ->
  Q (Done (rfc1071 bs)) w -> wp (checksum m off (zlen bs)) Q w.
Proof.
  intros Hb Hl Hat HQ. unfold checksum, checksum_words. wp_step.
  pose proof (zsum_words_bound bs Hb) as Hbd. pose proof (zsum_nonneg _ (words_ok bs Hb)) as Hnn.
  apply wp_checksum_words; auto; [unfold zlen; lia|lia|lia|].
  intros s' off' tl Hs' Heq Htl Hat'. cbn [post].
  assert (Hfin : forall s, s = zsum (words bs) ->
    wp (mret (wrapu 16 (Z.lnot (Z.shiftr s 16 + Z.land s 65535
          + Z.shiftr (Z.shiftr s 16 + Z.land s 65535) 16)))) Q w).
  { intros s ->. destruct (fold_rep (zsum (words bs))) as [E1 E2]; [lia|].
    apply wp_ret. rewrite E1. unfold rfc1071 in HQ.
    rewrite <- (oc_rep_unique _ _ _ E2
      (oc_fold_rep (words bs) (words_ok bs Hb) 0 0 ltac:(split; [lia|split; [by exists 0|done]]))) in HQ.
    exact HQ. }
  destruct Htl as [->|(b & -> & Hb0)].
  - change (zlen [] =? 0) with true. cbn [negb]. do 2 wp_step. apply Hfin.
    unfold zsum in Heq at 1. cbn in Heq. lia.
  - change (zlen [b] =? 0) with false. cbn [negb]. wp_step. wp_step. eapply wp_rd.
    { rewrite <- (Z.add_0_r off'). by apply (bytes_at_nth m off' [b]). }
    cbn [post]. wp_step. apply Hfin. unfold zsum in Heq at 1. cbn in Heq.
    unfold byte_ok in Hb0. rewrite wrapu_id by (unfold in_u; lia). lia.
Qed.

End Checksum.

(** C8: on any buffer of at most 128 KiB, odd lengths included, checksum returns
    the complement of the RFC 1071 one's complement sum of its 16-bit words,
    reads nothing outside the buffer and has no effect. *)
Theorem checksum_is_rfc1071 {K} (bs : list Z) (w : world K) :
  Forall byte_ok bs -> zlen bs <= 131072 ->
  checksum (init bs) 0 (zlen bs) w = (Done (rfc1071 bs), w).
Proof.
  intros Hb Hl. apply wp_run_eq. apply wp_checksum; auto. split; [done|].
  rewrite zdrop_0. apply ztake_all. by rewrite zlen_init.
Qed.

Lemma checksum_is_rfc1071_witness :
  checksum (init (bytes_of "odd number")) 0 10 (World tt 0 [])
  = (Done (rfc1071 (bytes_of "odd number")), World tt 0 []).
Proof.
  apply (checksum_is_rfc1071 (bytes_of "odd number") (World tt 0 [])).
  - apply bytes_of_range.
  - vm_compute. discriminate.
Defined.

Lemma words_app_even a b :
  Nat.even (length a) = true -> words (a ++ b) = words a ++ words b.
Proof.
  revert a. fix IH 1. intros [|x [|y a]] H; [done|done|].
  cbn [words app]. f_equal. by apply IH.
Qed.

Lemma rfc1071_rep bs : Forall byte_ok bs -> oc_rep (65535 - rfc1071 bs) (zsum (words bs)).
Proof.
  intros Hb. unfold rfc1071. replace (65535 - (65535 - _)) with (foldl ocadd 0 (words bs)) by lia.
  apply (oc_fold_rep (words bs) (words_ok bs Hb) 0 0). split; [lia|]. split; [by exists 0|done].
Qed.

Lemma le16_word c : 0 <= c < 65536 -> words (le16 c) = [c] /\ Forall byte_ok (le16 c).
Proof.
  intros Hc. unfold le16. rewrite Z.shiftr_div_pow2 by lia. change (2 ^ 8) with 256.
  assert (0 <= c / 256 < 256).
  { split; [apply Z.div_pos; lia|apply Z.div_lt_upper_bound; lia]. }
  rewrite (Z.mod_small (c / 256)) by lia. split.
  - cbn [words]. f_equal. pose proof (Z.div_mod c 256 ltac:(lia)). lia.
  - pose proof (Z.mod_pos_bound c 256 ltac:(lia)). repeat constructor; unfold byte_ok; lia.
Qed.

Lemma zsum_app a b : zsum (a ++ b) = zsum a + zsum b.
Proof. unfold zsum. induction a as [|x a IH]; cbn; lia. Qed.

(** C9: the checksum makes the packet verify: storing the value checksum computed
    over data whose (even-aligned) checksum field was zero into that field makes
    the checksum of the whole zero, which is what a receiver tests. *)
Theorem checksum_inserted_verifies {K} (pre suf : list Z) (w : world K) :
  Forall byte_ok pre -> Forall byte_ok suf -> Nat.even (length pre) = true ->
  zlen pre + 2 + zlen suf <= 131072 ->
  exists c,
    checksum (init (pre ++ le16 0 ++ suf)) 0 (zlen (pre ++ le16 0 ++ suf)) w = (Done c, w) /\
    checksum (init (pre ++ le16 c ++ suf)) 0 (zlen (pre ++ le16 c ++ suf)) w = (Done 0, w).
Proof.
  intros Hpre Hsuf Hev Hlen. set (d c := pre ++ le16 c ++ suf).
  assert (Hd : forall c, 0 <= c < 65536 -> Forall byte_ok (d c) /\
     zsum (words (d c)) = zsum (words pre) + c + zsum (words suf)).
  { intros c Hc. destruct (le16_word c Hc) as [E1 E2]. unfold d. split.
    - apply Forall_app. split; [done|]. apply Forall_app. by split.
    - rewrite (words_app_even pre), (words_app_even (le16 c)) by done. rewrite E1, !zsum_app. cbn [zsum foldr]. lia. }
  assert (Hl : forall c, zlen (d c) <= 131072).
  { intros c. unfold d. rewrite !zlen_app. change (zlen (le16 c)) with 2. lia. }
  destruct (Hd 0) as [Hb0 Hs0]; [lia|].
  pose proof (rfc1071_rep (d 0) Hb0) as (Hr & (q & Eq & Hq) & Hz).
  set (c := rfc1071 (d 0)) in *. exists c.
  assert (Hbyte : forall bs, Forall byte_ok bs -> zlen bs <= 131072 ->
    checksum (init bs) 0 (zlen bs) w = (Done (rfc1071 bs), w)).
  { intros bs ? ?. apply wp_run_eq. apply wp_checksum; auto. split; [done|].
    rewrite zdrop_0. apply ztake_all. by rewrite zlen_init. }
  split; [by apply (Hbyte (d 0))|]. destruct (Hd c) as [Hbc Hsc]; [lia|].
  fold (d c); rewrite (Hbyte (d c)) by auto. do 2 f_equal.
  pose proof (rfc1071_rep (d c) Hbc) as Hc.
  assert (oc_rep 65535 (zsum (words (d c)))) as H1.
  { split; [lia|]. split; [exists q; lia|done]. }
  pose proof (oc_rep_unique _ _ _ Hc H1). lia.
Qed.

Lemma checksum_inserted_verifies_witness :
  exists c,
    checksum (init (bytes_of "head" ++ le16 0 ++ bytes_of "tail!")) 0 11 (World tt 0 [])
      = (Done c, World tt 0 []) /\
    checksum (init (bytes_of "head" ++ le16 c ++ bytes_of "tail!")) 0 11 (World tt 0 [])
      = (Done 0, World tt 0 []).
Proof.
  apply (checksum_inserted_verifies (bytes_of "head") (bytes_of "tail!") (World tt 0 [])).
  - apply bytes_of_range.
  - apply bytes_of_range.
  - done.
  - vm_compute. discriminate.
Defined.

(** ** The frame *)

(** A frame a receiver accepts: broadcast, EtherType IPv4, an IP header and a
    UDP segment whose checksums (the latter over the pseudo header) verify, and
    the payload. *)
Definition good_frame (f : list Z) : Prop :=
  zlen f = ETH_HDR_LEN + IP_HDR_LEN + UDP_HDR_LEN + strlen PAYLOAD /\
  ztake 6 f = replicate 6 255 /\ ztake 2 (zdrop 12 f) = [8; 0] /\
  rfc1071 (ztake 20 (zdrop 14 f)) = 0 /\
  rfc1071 (ztake 8 (zdrop 26 f) ++ [0; IPPROTO_UDP] ++ ztake 2 (zdrop 38 f) ++ zdrop 34 f) = 0 /\
  zdrop 42 f = bytes_of PAYLOAD.

Definition sends_good (e : event) : Prop :=
  match e with
  | EvCall (Csys "sendto" args) _ =>
      match args with
      | [AI _; AB f; AI _; AI _; AI _; AB mac] => good_frame f /\ mac = replicate 6 255
      | _ => False
      end
  | _ => True
  end.

Definition sent (tr : list event) : Prop :=
  exists args r, EvCall (Csys "sendto" args) r ∈ tr /\ 0 <= ret r.

(** Run a command that makes no system call on concrete sizes. *)
Ltac wp_eval :=
  match goal with
  | |- wp ?m ?Q ?w =>
      let H := fresh in
      eassert (m w = (Done _, w)) as H by (vm_compute; reflexivity);
      unfold wp at 1; rewrite H; clear H; cbn [fst snd post]; cbv beta iota
  end.

Section Main.
Context {K : Type} {HK : Kernel K}.

Lemma sa_data_six r : exists a b c d e f, sa_data r = [a; b; c; d; e; f].
Proof.
  unfold sa_data. assert (length (take 6 (map to_uchar (out r) ++ replicate 6 0)) = 6%nat) as H.
  { rewrite length_take, length_app, length_replicate. lia. }
  destruct (take 6 _) as [|a [|b [|c [|d [|e [|f [|g l]]]]]]]; try done. by do 6 eexists.
Qed.

Lemma main_spec (w : world K) :
  wp main (fun o w' => exists tr, trace w' = trace w ++ tr /\ Forall sends_good tr /\
    (o = Done 0 /\ sent tr \/ o = Halt (HExit EXIT_FAILURE) \/
     o = Halt (HUB (UB_null "pseudogram")))) w.
Proof.
  unfold main. wp_seq. wp_step.
  { wp_go. eexists. split; [cbn [trace after]; by rewrite <- app_assoc|].
    split; [by repeat constructor|auto]. }
  wp_seq. wp_step.
  { wp_go. eexists. split; [cbn [trace after]; by rewrite <- !app_assoc|].
    split; [by repeat constructor|auto]. }
  wp_seq. wp_step.
  { wp_go. eexists. split; [cbn [trace after]; by rewrite <- !app_assoc|].
    split; [by repeat constructor|auto]. }
  destruct (sa_data_six r1) as (a & b & c & d & e & f & ->).
  wp_step. wp_eval. wp_step. wp_eval. wp_step. wp_eval.
  wp_step. unfold udp_checksum. wp_step. wp_eval. wp_step. wp_eval. wp_seq. wp_step.
  { wp_go. eexists. split; [cbn [trace after]; by rewrite <- !app_assoc|].
    split; [by repeat constructor|auto]. }
  wp_step. wp_eval. wp_step. wp_eval. wp_step. wp_eval. wp_step. wp_eval.
  wp_step. wp_eval. wp_seq. wp_eval. wp_seq. wp_step.
  - wp_go. eexists. split; [cbn [trace after]; by rewrite <- !app_assoc|].
    split; [|auto]. repeat constructor.
  - wp_go. eexists. split; [cbn [trace after]; by rewrite <- !app_assoc|].
    split; [repeat constructor|]. left. split; [done|].
    do 2 eexists. split; [|by apply Z.ltb_ge].
    cbn [app]. do 5 apply list_elem_of_further. apply list_elem_of_here.
Qed.

End Main.

