(* ===== verification/Primegen.v ===== *)
(** src/containers/podman_try/primegen/primegen.c: the prime number generator run
    under CPU constraints: trial division up to half the limit, with checks on
    its two arguments and an alarm that ends it. *)
From S2P Require Import Prelude CMonad CLib Common.
From Stdlib Require Import Znumtheory Sorted.

Definition MAX : Z := 10000000.
Definition MAX_TIME : Z := 60.
Definition WRAP : Z := 16.
Definition SIGALRM : Z := 14.
Definition SIGTERM : Z := 15.

(** The inner loop, from [j]: [n] is the number of iterations left. *)
Fixpoint trial (n : nat) (i j : Z) : bool :=
  match n with
  | O => true
  | S n' => if negb (i =? j) && (Z.rem i j =? 0) then false else trial n' i (j + 1)
  end.

Definition isprime (i limit : Z) : bool := trial (Z.to_nat (Z.quot limit 2 - 2)) i 2.

Section Code.
Context {K : Type} {HK : Kernel K}.

Definition primegen_iter (limit : Z) (st : Z * Z) : C K ((Z * Z) + unit) :=
  let '(i, num) := st in
  if i <=? limit then
    if isprime i limit then
      let num := num + 1 in
      printf (cat [fmt_wd 6 i; ", "]);;
      (if Z.rem num WRAP =? 0 then fflush stdout;; printf nl else mret tt);;
      mret (inl (i + 1, num))
    else mret (inl (i + 1, num))
  else mret (inr tt).

Definition simple_primegen (limit : Z) : C K unit :=
  printf "  2,  3, ";;
  loop (Z.to_nat limit) (primegen_iter limit) (4, 2);;
  printf nl;;
  fflush stdout.

(** The SIGALRM handler. *)
Definition buzz (signo : Z) : C K unit :=
  printf (cat ["primegen.c:buzz()"; nl]);;
  fflush stdout;;
  sys "raise" [AI SIGTERM];;
  mret tt.

(** [signal(..) < 0] compares a pointer, an unsigned quantity, with 0. *)
Definition ptr_lt_0 (p : Z) : bool := to_size_t p <? 0.

Definition main (argv : list string) : C K Z :=
  if argc argv <? 3 then
    fprintf stderr (cat ["Usage: "; arg_n argv 0;
      " limit-to-generate-primes-upto time-allowed-to-run(in seconds)"; nl;
      " DEFAULT max allowed values for:"; nl;
      "  first parameter is "; fmt_d MAX; " numbers"; nl;
      "  second parameter is "; fmt_d MAX_TIME; "s"; nl]);;
    exit EXIT_FAILURE
  else
    let limit := atoi (arg_n argv 1) in
    if (limit <? 4) || (MAX <? limit) then
      fprintf stderr (cat [arg_n argv 0; ": param 1, invalid value ("; fmt_d limit;
        "); pl pass a value within "; "the range [4 - "; fmt_d MAX; "]."; nl]);;
      exit EXIT_FAILURE
    else
      let time_allowed := atoi (arg_n argv 2) in
      if (time_allowed <? 1) || (MAX_TIME <? time_allowed) then
        fprintf stderr (cat [arg_n argv 0; ": param 2, invalid value ("; fmt_d time_allowed;
          "); pl pass a value within "; "the range [1 - "; fmt_d MAX_TIME; "]."; nl]);;
        exit EXIT_FAILURE
      else
        h ← sys "signal" [AI SIGALRM; AS "buzz"];
        if ptr_lt_0 h then perror "signal";; exit EXIT_FAILURE
        else
          sys "alarm" [AI time_allowed];;
          simple_primegen limit;;
          exit EXIT_SUCCESS.

End Code.

(** ** Trial division *)

Lemma trial_true n i j :
  trial n i j = true <-> forall d, j <= d < j + Z.of_nat n -> i = d \/ Z.rem i d <> 0.
Proof.
  revert j. induction n as [|n IH]; intros j; cbn [trial].
  - split; [intros; lia|done].
  - destruct (Z.eqb_spec i j) as [->|Hne]; cbn [negb andb].
    + rewrite IH. split; intros H d Hd; [|apply H; lia].
      destruct (decide (d = j)); [by left|apply H; lia].
    + destruct (Z.eqb_spec (Z.rem i j) 0) as [E|E].
      * split; [done|]. intros H. destruct (H j); lia.
      * rewrite IH. split; intros H d Hd; [|apply H; lia].
        destruct (decide (d = j)) as [->|]; [by right|apply H; lia].
Qed.

Lemma rem_divide i d : 2 <= d -> 0 <= i -> Z.rem i d = 0 <-> (d | i).
Proof.
  intros. rewrite Z.rem_mod_nonneg by lia. apply Z.mod_divide. lia.
Qed.

(** A composite number has a divisor no greater than its square root. *)
Lemma composite_small_divisor n :
  2 <= n -> ~ prime n -> exists d, 2 <= d /\ d * d <= n /\ (d | n).
Proof.
  intros Hn Hp. destruct (not_prime_divide n ltac:(lia) Hp) as (d & Hd & [q ->]).
  destruct (Z.le_gt_cases d q).
  - exists d. split; [lia|]. split; [nia|]. by exists q.
  - exists q. split; [nia|]. split; [nia|]. exists d. lia.
Qed.

Lemma isprime_correct i limit :
  6 <= limit -> 4 <= i <= limit -> isprime i limit = true <-> prime i.
Proof.
  intros Hl Hi. unfold isprime. rewrite trial_true, Z2Nat.id.
  2: { rewrite Z.quot_div_nonneg by lia. pose proof (Z.div_le_lower_bound limit 2 2). lia. }
  rewrite Z.quot_div_nonneg by lia. split.
  - intros H. destruct (prime_dec i) as [|Hp]; [done|]. exfalso.
    destruct (composite_small_divisor i ltac:(lia) Hp) as (d & Hd & Hdd & Hdiv).
    assert (d < limit / 2).
    { apply Z.lt_le_trans with (d + 1); [lia|]. apply Z.div_le_lower_bound; [lia|].
      destruct (decide (d = 2)); nia. }
    destruct (H d); [lia|nia|]. by apply rem_divide in Hdiv; [|lia..].
  - intros Hp d Hd. destruct (decide (i = d)) as [|Hne]; [by left|right].
    rewrite rem_divide by lia. intros Hdiv.
    destruct Hp as [_ Hrel]. pose proof (Z.divide_pos_le d i ltac:(lia) Hdiv).
    destruct (Hrel d) as [_ _ Hg]; [lia|]. specialize (Hg d (Z.divide_refl d) Hdiv).
    apply Z.divide_1_r_nonneg in Hg; lia.
Qed.

(** ** What is printed *)

(** The lines that announce the primes [ps] when [num] were printed before. *)
Fixpoint announce (num : Z) (ps : list Z) : list event :=
  match ps with
  | [] => []
  | p :: ps' =>
      EvOut stdout (cat [fmt_wd 6 p; ", "])
      :: (if Z.rem (num + 1) WRAP =? 0 then [EvFlush stdout; EvOut stdout nl] else [])
      ++ announce (num + 1) ps'
  end.

Definition listing (ps : list Z) : list event :=
  EvOut stdout "  2,  3, " :: announce 2 ps ++ [EvOut stdout nl; EvFlush stdout].

(** The numbers from [i] to [limit] that pass the test, in order. *)
Definition passing (i limit : Z) : list Z :=
  List.filter (fun i => isprime i limit) (seqZ i (limit + 1 - i)).

Lemma passing_step i limit : i <= limit ->
  passing i limit = (if isprime i limit then [i] else []) ++ passing (i + 1) limit.
Proof.
  intros. unfold passing. rewrite (seqZ_cons i) by lia. cbn [List.filter].
  replace (Z.pred (limit + 1 - i)) with (limit + 1 - (i + 1)) by lia.
  change (Z.succ i) with (i + 1). by destruct (isprime i limit).
Qed.

Lemma passing_end limit : passing (limit + 1) limit = [].
Proof. unfold passing. by rewrite Z.sub_diag. Qed.

Section Printing.
Context {K : Type} {HK : Kernel K}.

Lemma primegen_loop limit (w0 : world K) tr0 : 4 <= limit ->
  wp (loop (Z.to_nat limit) (primegen_iter limit) (4, 2))
     (fun o w' => o = Done tt /\ w' = World (kern w0) (errno w0) (tr0 ++ announce 2 (passing 4 limit)))
     (World (kern w0) (errno w0) tr0).
Proof.
  intros Hl.
  apply (wp_loop_total
    (fun '(i, num) w' => 4 <= i <= limit + 1 /\ exists tr,
       w' = World (kern w0) (errno w0) tr /\
       tr ++ announce num (passing i limit) = tr0 ++ announce 2 (passing 4 limit))
    (fun '(i, _) _ => Z.to_nat (limit + 1 - i))).
  - intros [i num] w' (Hi & tr & -> & Htr). unfold primegen_iter.
    destruct (Z.leb_spec i limit).
    2: { assert (i = limit + 1) as -> by lia. wp_step. split; [done|].
         rewrite passing_end in Htr. cbn [announce] in Htr. rewrite app_nil_r in Htr.
         by rewrite Htr. }
    rewrite (passing_step i) in Htr by done. destruct (isprime i limit).
    + cbn [app announce] in Htr. wp_seq. destruct (Z.rem (num + 1) WRAP =? 0).
      * wp_go. split; [|lia]. split; [lia|]. eexists. split; [done|].
        rewrite <- Htr. cbn [trace kern errno]. by rewrite <- !app_assoc.
      * wp_go. split; [|lia]. split; [lia|]. eexists. split; [done|].
        rewrite <- Htr. cbn [trace kern errno]. by rewrite <- !app_assoc.
    + wp_step. split; [|lia]. split; [lia|]. eexists. split; [done|]. done.
  - split; [lia|]. by exists tr0.
  - lia.
Qed.

Lemma simple_primegen_prints limit (w : world K) : 4 <= limit ->
  simple_primegen limit w
  = (Done tt, World (kern w) (errno w) (trace w ++ listing (passing 4 limit))).
Proof.
  intros Hl. apply wp_run_eq. unfold simple_primegen. do 3 wp_step.
  eapply wp_mono; [|by apply (primegen_loop limit w)].
  intros o w' [-> ->]. wp_go. split; [done|]. cbn [trace kern errno]. unfold listing.
  by rewrite <- !app_assoc.
Qed.

End Printing.

Lemma passing_sorted i limit : StronglySorted Z.lt (passing i limit).
Proof.
  unfold passing. generalize (limit + 1 - i) as n. intros n.
  remember (Z.to_nat n) as k eqn:Ek. revert i n Ek.
  induction k as [|k IH]; intros i n Ek.
  - rewrite seqZ_nil by lia. constructor.
  - rewrite seqZ_cons by lia. cbn [List.filter].
    specialize (IH (Z.succ i) (Z.pred n) ltac:(lia)).
    destruct (isprime i limit); [|done]. constructor; [done|].
    apply Forall_forall. intros x [Hx _]%list_elem_of_In%List.filter_In.
    apply list_elem_of_In, elem_of_seqZ in Hx. lia.
Qed.

Lemma passing_elem i limit x :
  x ∈ passing i limit <-> i <= x <= limit /\ isprime x limit = true.
Proof.
  unfold passing. rewrite list_elem_of_In, List.filter_In, <- list_elem_of_In, elem_of_seqZ.
  intuition lia.
Qed.

(** ** Theorems *)

(** For every limit from 6 up the generator terminates and prints the listing
    of exactly the primes from 2 to the limit, in increasing order, each once,
    sixteen to a line. *)
Theorem simple_primegen_correct {K} `{Kernel K} (limit : Z) (w : world K) :
  6 <= limit ->
  exists ps,
    simple_primegen limit w
      = (Done tt, World (kern w) (errno w) (trace w ++ listing ps)) /\
    StronglySorted Z.lt ps /\ forall p, p ∈ ps <-> prime p /\ 3 < p <= limit.
Proof.
  intros Hl. exists (passing 4 limit). split; [apply simple_primegen_prints; lia|].
  split; [apply passing_sorted|]. intros p. rewrite passing_elem. split.
  - intros [Hp Hi]. split; [|lia]. by apply (isprime_correct p limit).
  - intros [Hp Hi]. split; [lia|]. apply isprime_correct; [lia|lia|done].
Qed.

Lemma simple_primegen_correct_witness :
  exists ps,
    simple_primegen 20 (World tt 0 [])
      = (Done tt, World tt 0 ([] ++ listing ps)) /\
    StronglySorted Z.lt ps /\ forall p, p ∈ ps <-> prime p /\ 3 < p <= 20.
Proof.
  exact (@simple_primegen_correct unit (fun _ _ => (Resp 0 0 [], tt)) 20 (World tt 0 [])
    ltac:(lia)).
Defined.

(** for the two smallest limits that main accepts, 4 and 5, the inner loop
    never runs and 4 is printed as a prime. *)
Theorem primegen_prints_four {K} `{Kernel K} (limit : Z) (w : world K) :
  limit = 4 \/ limit = 5 ->
  EvOut stdout "     4, " ∈ trace (snd (simple_primegen limit w)) /\ ~ prime 4.
Proof.
  intros Hl. split.
  - rewrite simple_primegen_prints by lia. cbn [snd trace]. apply elem_of_app. right.
    destruct Hl as [-> | ->]; apply list_elem_of_further, list_elem_of_here.
  - intros [_ Hrel]. destruct (Hrel 2 ltac:(lia)) as [_ _ Hg].
    specialize (Hg 2 (Z.divide_refl 2) ltac:(by exists 2)).
    apply Z.divide_1_r_nonneg in Hg; lia.
Qed.

Lemma primegen_prints_four_witness :
  EvOut stdout "     4, " ∈ trace (snd (@simple_primegen unit 5 (World tt 0 []))) /\ ~ prime 4.
Proof.
  apply (@primegen_prints_four unit (fun _ _ => (Resp 0 0 [], tt)) 5 (World tt 0 [])). by right.
Defined.

(** The arguments main accepts. *)
Definition accepts (argv : list string) : Prop :=
  3 <= argc argv /\ 4 <= atoi (arg_n argv 1) <= MAX /\ 1 <= atoi (arg_n argv 2) <= MAX_TIME.

(** Main ends with EXIT_SUCCESS, after setting the handler, arming the alarm
    with the second argument and printing the listing for the first, exactly
    when both arguments are in range; otherwise it makes no system call, prints
    only to stderr and ends with EXIT_FAILURE. *)
Theorem primegen_main_outcome {K} `{Kernel K} (argv : list string) (w : world K) :
  exists o w' tr,
    main argv w = (o, w') /\ trace w' = trace w ++ tr /\
    ((accepts argv /\ o = Halt (HExit EXIT_SUCCESS) /\ exists r1 r2,
        tr = EvCall (Csys "signal" [AI SIGALRM; AS "buzz"]) r1
             :: EvCall (Csys "alarm" [AI (atoi (arg_n argv 2))]) r2
             :: listing (passing 4 (atoi (arg_n argv 1)))) \/
     (~ accepts argv /\ o = Halt (HExit EXIT_FAILURE) /\ exists txt, tr = [EvOut stderr txt])).
Proof.
  enough (wp (main argv) (fun o w' => exists tr, trace w' = trace w ++ tr /\
    ((accepts argv /\ o = Halt (HExit EXIT_SUCCESS) /\ exists r1 r2,
        tr = EvCall (Csys "signal" [AI SIGALRM; AS "buzz"]) r1
             :: EvCall (Csys "alarm" [AI (atoi (arg_n argv 2))]) r2
             :: listing (passing 4 (atoi (arg_n argv 1)))) \/
     (~ accepts argv /\ o = Halt (HExit EXIT_FAILURE) /\ exists txt, tr = [EvOut stderr txt]))) w)
    as (o & w' & E & tr & H')%wp_run by (by exists o, w', tr).
  unfold main, accepts.
  set (limit := atoi (arg_n argv 1)). set (tm := atoi (arg_n argv 2)).
  destruct (Z.ltb_spec (argc argv) 3).
  { wp_go. eexists. split; [done|]. right. split_and!; [lia|done|by eexists]. }
  destruct (Z.ltb_spec limit 4), (Z.ltb_spec MAX limit); cbn [orb];
    try (wp_go; eexists; (split; [done|]); right; split_and!; [lia|done|by eexists]).
  destruct (Z.ltb_spec tm 1), (Z.ltb_spec MAX_TIME tm); cbn [orb];
    try (wp_go; eexists; (split; [done|]); right; split_and!; [lia|done|by eexists]).
  wp_seq. assert (ptr_lt_0 (ret r) = false) as ->.
  { unfold ptr_lt_0. apply Z.ltb_ge. pose proof (wrapu_range 64 (ret r) ltac:(lia)) as Hr.
    unfold in_u in Hr. unfold to_size_t. lia. }
  wp_seq. unfold wp at 1. rewrite simple_primegen_prints by lia. cbn [fst snd post]. wp_seq.
  eexists. split; [cbn [trace after kern errno]; by rewrite <- !app_assoc|]. left.
  split_and!; [lia..|done|]. by do 2 eexists.
Qed.
