(* ===== verification/Mysh.v ===== *)
(** src/fork/mysh/mysh.c: the small shell.  A line is read, its last character
    chopped, split at blanks by strtok (which writes into the line), and run in
    a child by fork and execvp. *)
From S2P Require Import Prelude CMonad CLib Common.

Definition LEN : Z := 128.
Definition MAXARGS : Z := 1024.
Definition PROMPT : string := "mysh> ".
Definition SEP : Z := 32.
Definition WUNTRACED : Z := 2.
Definition sizeof_rusage : Z := 144.

(** What an element of [newargs] points to: the heap block it was given at the
    start, a position in [cmd], or nothing. *)
Inductive slot :=
| Heap (p : Z)
| Tok (off : Z)
| Null.

(** [cmd_at] is the address of [cmd]. *)
Definition slot_addr (cmd_at : Z) (s : slot) : Z :=
  match s with Heap p => p | Tok off => cmd_at + off | Null => 0 end.

Section Code.
Context {K : Type} {HK : Kernel K}.

(** [MYDEBUG], the address of [cmd], [argv[0]], [rusage] and [orig_newargs]. *)
Record env := Env {
  MYDEBUG : bool; cmd_at : Z; argv0 : string; rusage : Z; orig_newargs : list Z
}.

Definition Dprint (e : env) (txt : string) : C K unit :=
  if negb (MYDEBUG e) then mret tt else fprintf stderr txt.

Fixpoint show_args (e : env) (i : Z) (newargs : list slot) (orig : list Z) : C K unit :=
  match newargs, orig with
  | a :: newargs', o :: orig' =>
      printf (cat ["newargs["; fmt_d i; "]="; fmt_p (slot_addr (cmd_at e) a); nl;
                   "    orig_newargs["; fmt_d i; "]="; fmt_p o; nl]);;
      show_args e (i + 1) newargs' orig'
  | _, _ => mret tt
  end.

Definition SHOWARGS (e : env) (newargs : list slot) : C K unit :=
  when (MYDEBUG e) (show_args e 0 newargs (orig_newargs e)).

Fixpoint free_args (args : list Z) : C K unit :=
  match args with
  | [] => mret tt
  | p :: args' =>
      (if negb (p =? 0) then syscall (Cfree p);; mret tt else mret tt);;
      free_args args'
  end.

Definition displayChildStatus (stat cpid : Z) : C K unit :=
  printf (cat [nl; "Child "; fmt_d cpid; " just died!"; nl]);;
  when (WIFEXITED stat)
    (printf (cat [" exited normally, exit status: "; fmt_d (WEXITSTATUS stat); nl]));;
  when (WIFSIGNALED stat)
    (printf (cat [" exited abnormally, signal killed with: "; fmt_d (WTERMSIG stat); nl]));;
  when (WIFSTOPPED stat)
    (printf (cat [" stopped; stop signal: "; fmt_d (WSTOPSIG stat); nl]));;
  when (WCOREDUMP stat) (printf (cat [" dumped core."; nl]));;
  when (WIFCONTINUED stat) (printf (cat [" continued."; nl])).

(** [ru] holds the fields in the order they are printed. *)
Definition show_resusage (ptr : Z) (ru : list Z) : C K unit :=
  let f i := nth i ru 0 in
  if ptr =? 0 then undefined (UB_null "rusage")
  else
    printf (cat ["Resource usage stats ::"; nl;
      " time in user   mode       : "; fmt_wd 6 (f 0%nat); "."; fmt_0wd 6 (f 1%nat); " [s.us]"; nl;
      " time in kernel mode       : "; fmt_wd 6 (f 2%nat); "."; fmt_0wd 6 (f 3%nat); " [s.us]"; nl;
      " max RSS                   : "; fmt_wd 9 (f 4%nat); " KB"; nl;
      " minor faults (no IO)      : "; fmt_wd 9 (f 5%nat); nl;
      " major faults (IO)         : "; fmt_wd 9 (f 6%nat); nl;
      " #times fs performed i/p   : "; fmt_wd 9 (f 7%nat); nl;
      " #times fs performed o/p   : "; fmt_wd 9 (f 8%nat); nl;
      " # voluntary ctx switches  : "; fmt_wd 9 (f 9%nat); nl;
      " # involuntary ctx switches: "; fmt_wd 9 (f 10%nat); nl]).

(** [strtok] with separator SEP, from position [p] of [s]: the token's position
    if there is one, the position saved for the next call, and [s]. *)
Fixpoint strtok_skip (fuel : nat) (s : mem) (p : Z) : C K Z :=
  match fuel with
  | O => halt_with HFuel
  | S fuel' => c ← rd "cmd" s p; if c =? SEP then strtok_skip fuel' s (p + 1) else mret p
  end.

Fixpoint strtok_span (fuel : nat) (s : mem) (p : Z) : C K Z :=
  match fuel with
  | O => halt_with HFuel
  | S fuel' =>
      c ← rd "cmd" s p;
      if (c =? 0) || (c =? SEP) then mret p else strtok_span fuel' s (p + 1)
  end.

Definition strtok (s : mem) (p : Z) : C K (option Z * Z * mem) :=
  let fuel := S (length s) in
  start ← strtok_skip fuel s p;
  c ← rd "cmd" s start;
  if c =? 0 then mret (None, start, s)
  else
    stop ← strtok_span fuel s start;
    c ← rd "cmd" s stop;
    if c =? 0 then mret (Some start, stop, s)
    else s ← wr "cmd" s stop 0; mret (Some start, stop + 1, s).

Definition slot_of (t : option Z) : slot :=
  match t with Some off => Tok off | None => Null end.

(** [newargs[i] = v] *)
Definition set_slot (newargs : list slot) (i : Z) (v : slot) : C K (list slot) :=
  match znth newargs i with
  | None => undefined (UB_bounds "newargs" i)
  | Some _ => mret (zset newargs i v)
  end.

(** [while ((newargs[i++] = strtok(NULL, SEP)));] *)
Definition tokenize_iter (st : Z * Z * mem * list slot)
    : C K ((Z * Z * mem * list slot) + (Z * mem * list slot)) :=
  let '(i, saved, cmd, newargs) := st in
  '(t, saved, cmd) ← strtok cmd saved;
  newargs ← set_slot newargs i (slot_of t);
  match t with
  | Some _ => mret (inl (i + 1, saved, cmd, newargs))
  | None => mret (inr (i + 1, cmd, newargs))
  end.

(** The final value of [i], [cmd] cut at the blanks, and [newargs]. *)
Definition tokenize (cmd : mem) (newargs : list slot) : C K (Z * mem * list slot) :=
  '(t, saved, cmd) ← strtok cmd 0;
  newargs ← set_slot newargs 0 (slot_of t);
  loop (S (length cmd)) tokenize_iter (1, saved, cmd, newargs).

(** The strings [newargs] holds up to its NULL. *)
Fixpoint read_args (cmd : mem) (newargs : list slot) : C K (list (list Z)) :=
  match newargs with
  | [] => undefined (UB_bounds "newargs" MAXARGS)
  | Null :: _ => mret []
  | Heap _ :: _ => undefined (UB_uninit "newargs" 0)
  | Tok off :: newargs' =>
      s ← cstr "cmd" cmd off;
      rest ← read_args cmd newargs';
      mret (s :: rest)
  end.

Fixpoint show_newargs (i : Z) (args : list (list Z)) : C K unit :=
  match args with
  | [] => mret tt
  | a :: args' =>
      printf (cat [nl; "newargs["; fmt_d i; "]="; text_of a; nl]);;
      show_newargs (i + 1) args'
  end.

(** The child: execvp looks at the first character of the file it is given. *)
Definition child (e : env) (cmd : mem) (newargs : list slot) : C K unit :=
  free_args (orig_newargs e);;
  args ← read_args cmd newargs;
  match args with
  | [] => undefined (UB_null "execvp file")
  | file :: _ =>
      r ← sys "execvp" (AB file :: map AB args);
      if r =? -1 then perror "exec failure";; exit 1
      else halt_with (HExec (Some (text_of file)) (map text_of args))
  end.

Definition parent (e : env) (stat : Z) : C K Z :=
  r ← syscall (Csys "wait3" [AI WUNTRACED]);
  let cpid := ret r in
  if cpid =? -1 then perror "wait";; exit 1
  else
    let stat := nth 0 (out r) stat in
    displayChildStatus stat cpid;;
    show_resusage (rusage e) (drop 1 (out r));;
    mret stat.

(** From strtok to the end of the loop body: the new [cmd], [newargs], [stat]. *)
Definition run_command (e : env) (cmd : mem) (newargs : list slot) (stat : Z)
    : C K (mem * list slot * Z) :=
  '(i, cmd, newargs) ← tokenize cmd newargs;
  if MAXARGS <? i - 2 then
    fprintf stderr (cat [argv0 e; ": Too many arguments (max is "; fmt_d MAXARGS;
                         "), aborting command."; nl]);;
    mret (cmd, newargs, stat)
  else
    (if MYDEBUG e then
       args ← read_args cmd newargs; show_newargs 0 args;; printf nl
     else mret tt);;
    f ← sys "fork" [];
    if f =? -1 then perror "fork failed";; mret (cmd, newargs, stat)
    else if f =? 0 then child e cmd newargs;; mret (cmd, newargs, stat)
    else stat ← parent e stat; mret (cmd, newargs, stat).

(** One turn of [while (1)]. *)
Definition mysh_iter (e : env) (st : mem * list slot * Z) : C K ((mem * list slot * Z) + Z) :=
  let '(cmd, newargs, stat) := st in
  SHOWARGS e newargs;;
  printf PROMPT;;
  fflush stdout;;
  r ← syscall (Csys "fgets" [AI LEN]);
  if ret r =? 0 then mret (inl st)
  else
    cmd ← copy_in "cmd" cmd 0 (out r ++ [0]);
    s ← cstr "cmd" cmd 0;
    cmd ← wr "cmd" cmd (zlen s - 1) 0;
    s ← cstr "cmd" cmd 0;
    Dprint e (cat ["cmd: len="; fmt_d (zlen s); " cmd="; text_of s; nl]);;
    c ← rd "cmd" cmd 0;
    if c =? 0 then mret (inl (cmd, newargs, stat))
    else if strncmp (length s) (text_of s) "q" =? 0 then
      printf (cat ["q pressed."; nl]);;
      free_args (orig_newargs e);;
      exit 0
    else
      st ← run_command e cmd newargs stat;
      mret (inl st).

(** The allocation loop: the pointers, or the failure exit. *)
Fixpoint alloc_args (argv0 : string) (n : nat) (i : Z) : C K (list Z) :=
  match n with
  | O => mret []
  | S n' =>
      p ← syscall (Cmalloc LEN);
      if ret p =? 0 then
        fprintf stderr (cat [argv0; ": no memory for newargs["; fmt_d i; "].."]);;
        exit 1
      else
        rest ← alloc_args argv0 n' (i + 1);
        mret (ret p :: rest)
  end.

Definition main (fuel : nat) (cmd_at : Z) (argv : list string) : C K Z :=
  rusage ← syscall (Cmalloc sizeof_rusage);
  let dbg := (1 <? argc argv) && (strcmp (arg_n argv 1) "-D" =? 0) in
  ptrs ← alloc_args (arg_n argv 0) (Z.to_nat MAXARGS) 0;
  let e := Env dbg cmd_at (arg_n argv 0) (ret rusage) ptrs in
  let newargs := map Heap ptrs in
  SHOWARGS e newargs;;
  loop fuel (mysh_iter e) (uninit LEN, newargs, 0).

End Code.

(** ** Splitting a line: the specification *)

(** The words of a line, [cur] being the word under way. *)
Fixpoint split_blanks (cur : list Z) (s : list Z) : list (list Z) :=
  match s with
  | [] => match cur with [] => [] | _ => [cur] end
  | c :: s' =>
      if c =? SEP then
        match cur with [] => split_blanks [] s' | _ => cur :: split_blanks [] s' end
      else split_blanks (cur ++ [c]) s'
  end.

Definition tokens (s : list Z) : list (list Z) := split_blanks [] s.

Fixpoint lstrip (s : list Z) : list Z :=
  match s with c :: s' => if c =? SEP then lstrip s' else s | [] => [] end.

Fixpoint word (s : list Z) : list Z :=
  match s with c :: s' => if c =? SEP then [] else c :: word s' | [] => [] end.

Fixpoint after_word (s : list Z) : list Z :=
  match s with c :: s' => if c =? SEP then s else after_word s' | [] => [] end.

Lemma lstrip_split s : exists sp, s = sp ++ lstrip s /\ Forall (fun c => c = SEP) sp.
Proof.
  induction s as [|c s (sp & IH & Hsp)]; [by exists []|]. cbn [lstrip].
  destruct (Z.eqb_spec c SEP) as [->|Hc]; [|by exists []].
  exists (SEP :: sp). split; [by rewrite IH at 1|by constructor].
Qed.

Lemma word_split s : word s ++ after_word s = s.
Proof.
  induction s as [|c s IH]; [done|]. cbn [word after_word].
  destruct (c =? SEP); [done|]. cbn [app]. by rewrite IH.
Qed.

Lemma after_word_sep s : after_word s = [] \/ exists r, after_word s = SEP :: r.
Proof.
  induction s as [|c s IH]; [by left|]. cbn [after_word].
  destruct (Z.eqb_spec c SEP) as [->|]; [right; by eexists|done].
Qed.

Lemma lstrip_head s : lstrip s = [] \/ exists c r, lstrip s = c :: r /\ c <> SEP.
Proof.
  induction s as [|c s IH]; [by left|]. cbn [lstrip].
  destruct (Z.eqb_spec c SEP) as [->|]; [done|]. right. by exists c, s.
Qed.

Lemma tokens_lstrip s : tokens s = tokens (lstrip s).
Proof.
  unfold tokens. induction s as [|c s IH]; [done|]. cbn [lstrip].
  destruct (Z.eqb_spec c SEP) as [->|]; [|done]. exact IH.
Qed.

Lemma split_blanks_word cur s : cur ++ word s <> [] ->
  split_blanks cur s = (cur ++ word s) :: tokens (drop 1 (after_word s)).
Proof.
  revert cur. induction s as [|c s IH]; intros cur Hne; cbn [split_blanks word after_word].
  - rewrite app_nil_r in *. by destruct cur.
  - destruct (Z.eqb_spec c SEP) as [->|Hc].
    + cbn [word] in Hne. rewrite Z.eqb_refl, app_nil_r in Hne.
      rewrite app_nil_r. by destruct cur.
    + rewrite IH by (by destruct cur). by rewrite <- app_assoc.
Qed.

Lemma tokens_cons s : lstrip s <> [] ->
  tokens s = word (lstrip s) :: tokens (drop 1 (after_word (lstrip s))).
Proof.
  intros Hne. rewrite tokens_lstrip. unfold tokens at 1. rewrite split_blanks_word; [done|].
  destruct (lstrip_head s) as [|(c & r & -> & Hc)]; [done|]. cbn.
  destruct (Z.eqb_spec c SEP); done.
Qed.

Lemma tokens_nil s : lstrip s = [] -> tokens s = [].
Proof. intros E. by rewrite tokens_lstrip, E. Qed.

(** ** strtok on memory *)

(** The line from a position on: [pre] before it, [s] up to the NUL. *)
Definition line_at (pre : mem) (s : list Z) (tl : mem) : mem := pre ++ init s ++ Some 0 :: tl.

Lemma line_at_app pre a s tl : line_at pre (a ++ s) tl = line_at (pre ++ init a) s tl.
Proof. unfold line_at, init. by rewrite map_app, <- !app_assoc. Qed.

Lemma znth_line_at pre s tl : znth (line_at pre s tl) (zlen pre) = Some (Some (nth 0 s 0)).
Proof.
  unfold znth, line_at, zlen. destruct (Z.ltb_spec (Z.of_nat (length pre)) 0); [lia|].
  rewrite Nat2Z.id. rewrite lookup_app_r, Nat.sub_diag by done. by destruct s.
Qed.

Lemma zlen_line_at pre s tl : zlen (line_at pre s tl) = zlen pre + zlen s + 1 + zlen tl.
Proof. unfold line_at. rewrite !zlen_app, zlen_init, zlen_cons. lia. Qed.

(** A token recorded at [off], with the line split after [pre]. *)
Definition token_at (pre : mem) (s : list Z) (off : Z) (t : list Z) : Prop :=
  0 <= off /\
  (cstr_of (zdrop off pre) = Some t \/ (s = [] /\ cstr_of (zdrop off (pre ++ [Some 0])) = Some t)).

Lemma zdrop_app_cstr off (a b : mem) t :
  cstr_of (zdrop off a) = Some t -> zdrop off (a ++ b) = zdrop off a ++ b.
Proof.
  unfold zdrop. intros H. destruct (decide (Z.to_nat off <= length a)%nat).
  - by rewrite drop_app_le.
  - rewrite drop_ge in H by lia. done.
Qed.

Lemma token_at_more pre s off t x s' :
  token_at pre s off t -> s <> [] -> token_at (pre ++ x) s' off t.
Proof.
  intros (Ho & [H|[-> _]]) Hs; [|done]. split; [done|left].
  rewrite (zdrop_app_cstr _ _ _ _ H). by apply cstr_of_app.
Qed.

Lemma token_at_cstr pre s off t tl : token_at pre s off t -> cstr_of (zdrop off (line_at pre s tl)) = Some t.
Proof.
  unfold line_at. intros (Ho & [H|[-> H]]).
  - rewrite (zdrop_app_cstr _ _ _ _ H). by apply cstr_of_app.
  - change (pre ++ init [] ++ Some 0 :: tl) with (pre ++ [Some 0] ++ tl).
    rewrite app_assoc, (zdrop_app_cstr _ _ _ _ H). by apply cstr_of_app.
Qed.

Section Strtok.
Context {K : Type} {HK : Kernel K}.

Lemma wp_strtok_skip tl (Q : outcome Z -> world K -> Prop) w s :
  forall pre fuel, (length s < fuel)%nat ->
  Q (Done (zlen pre + zlen s - zlen (lstrip s))) w ->
  wp (strtok_skip fuel (line_at pre s tl) (zlen pre)) Q w.
Proof.
  induction s as [|c s IH]; intros pre [|fuel] Hf HQ; cbn [length] in Hf; try lia;
    cbn [strtok_skip]; wp_step; (eapply wp_rd; [apply znth_line_at|]); cbn [post nth lstrip] in *.
  - change (0 =? SEP) with false. wp_seq. rewrite zlen_nil in HQ.
    by replace (zlen pre + 0 - 0) with (zlen pre) in HQ by lia.
  - destruct (c =? SEP).
    + change (c :: s) with ([c] ++ s). rewrite line_at_app.
      replace (zlen pre + 1) with (zlen (pre ++ init [c])) by (by rewrite zlen_app).
      apply IH; [lia|]. rewrite zlen_app. change (zlen (init [c])) with 1.
      rewrite zlen_cons in HQ. by replace (zlen pre + 1 + zlen s) with (zlen pre + (zlen s + 1)) by lia.
    + wp_seq. by replace (zlen pre + zlen (c :: s) - zlen (c :: s)) with (zlen pre) in HQ by lia.
Qed.

Lemma wp_strtok_span tl (Q : outcome Z -> world K -> Prop) w s : nonzero s ->
  forall pre fuel, (length s < fuel)%nat ->
  Q (Done (zlen pre + zlen (word s))) w ->
  wp (strtok_span fuel (line_at pre s tl) (zlen pre)) Q w.
Proof.
  induction 1 as [|c s Hc _ IH]; intros pre [|fuel] Hf HQ; cbn [length] in Hf; try lia;
    cbn [strtok_span]; wp_step; (eapply wp_rd; [apply znth_line_at|]); cbn [post nth word] in *.
  - change ((0 =? 0) || (0 =? SEP)) with true. wp_seq. rewrite zlen_nil in HQ.
    by rewrite Z.add_0_r in HQ.
  - destruct (Z.eqb_spec c 0); [done|]. cbn [orb]. destruct (c =? SEP).
    + wp_seq. by rewrite Z.add_0_r in HQ.
    + change (c :: s) with ([c] ++ s). rewrite line_at_app.
      replace (zlen pre + 1) with (zlen (pre ++ init [c])) by (by rewrite zlen_app).
      apply IH; [lia|]. rewrite zlen_app. change (zlen (init [c])) with 1.
      rewrite zlen_cons in HQ. by replace (zlen pre + 1 + zlen (word s)) with
        (zlen pre + (zlen (word s) + 1)) by lia.
Qed.

(** strtok returns the next word of the line, terminated where it stands, and
    moves on; or it finds no word and changes nothing. *)
Lemma wp_strtok pre s tl (Q : outcome (option Z * Z * mem) -> world K -> Prop) w :
  nonzero s ->
  (lstrip s = [] -> Q (Done (None, zlen (pre ++ init s), line_at pre s tl)) w) ->
  (forall pre' s' off t, tokens s = t :: tokens s' -> nonzero s' ->
     zlen s' < zlen s -> zlen pre < zlen pre' ->
     (exists x, pre' = pre ++ x) -> zlen (line_at pre' s' tl) = zlen (line_at pre s tl) ->
     token_at pre' s' off t ->
     Q (Done (Some off, zlen pre', line_at pre' s' tl)) w) ->
  wp (strtok (line_at pre s tl) (zlen pre)) Q w.
Proof.
  intros Hnz Hnone Hsome. unfold strtok. wp_step. apply wp_strtok_skip.
  { pose proof (zlen_line_at pre s tl) as H. unfold zlen in H. lia. }
  cbn [post]. destruct (lstrip_split s) as (sp & Es & Hsp).
  assert (Hst : zlen pre + zlen s - zlen (lstrip s) = zlen (pre ++ init sp)).
  { rewrite Es at 1. rewrite !zlen_app, zlen_init. lia. }
  assert (Hm : line_at pre s tl = line_at (pre ++ init sp) (lstrip s) tl).
  { rewrite Es at 1. apply line_at_app. }
  rewrite Hst. wp_step. eapply wp_rd; [rewrite Hm; apply znth_line_at|]. cbn [post].
  destruct (lstrip_head s) as [El|(c & r & El & Hc)].
  { rewrite El in *. cbn [nth]. change (0 =? 0) with true. wp_seq.
    rewrite app_nil_r in Es. subst sp. by apply Hnone. }
  assert (Hnz' : nonzero (lstrip s)).
  { unfold nonzero in *. rewrite Es in Hnz. by apply Forall_app in Hnz as [_ ?]. }
  rewrite El at 1. cbn [nth]. assert (c <> 0).
  { rewrite El in Hnz'. by inversion Hnz'. }
  destruct (Z.eqb_spec c 0); [done|]. wp_step. rewrite Hm. apply wp_strtok_span; [done| |].
  { pose proof (zlen_line_at (pre ++ init sp) (lstrip s) tl) as H1. unfold zlen in H1. lia. }
  cbn [post]. set (wd := word (lstrip s)) in *. set (aw := after_word (lstrip s)) in *.
  assert (Hw : lstrip s = wd ++ aw) by (symmetry; apply word_split).
  assert (Hm' : line_at (pre ++ init sp) (lstrip s) tl = line_at ((pre ++ init sp) ++ init wd) aw tl).
  { rewrite Hw at 1. apply line_at_app. }
  assert (Hsp' : zlen (pre ++ init sp) + zlen wd = zlen ((pre ++ init sp) ++ init wd)).
  { by rewrite (zlen_app (pre ++ init sp)), zlen_init. }
  assert (Htok : tokens s = wd :: tokens (drop 1 aw)) by (apply tokens_cons; by rewrite El).
  assert (Hwd : nonzero wd /\ nonzero aw).
  { unfold nonzero in *. rewrite Hw in Hnz'. by apply Forall_app in Hnz'. }
  assert (Hlen : 0 < zlen wd).
  { unfold wd. rewrite El. cbn [word]. destruct (Z.eqb_spec c SEP); [done|].
    rewrite zlen_cons. pose proof (zlen_nonneg (word r)). lia. }
  assert (Hs : zlen s = zlen sp + zlen wd + zlen aw).
  { rewrite Es, Hw at 1. rewrite !zlen_app. lia. }
  pose proof (zlen_nonneg sp). pose proof (zlen_nonneg (pre ++ init sp)).
  pose proof (zlen_nonneg aw).
  assert (Hd : forall x : mem, zdrop (zlen (pre ++ init sp)) (((pre ++ init sp) ++ init wd) ++ x) = init wd ++ x).
  { intros x. unfold zdrop, zlen. rewrite Nat2Z.id, <- app_assoc. by rewrite drop_app_length. }
  rewrite Hsp'. wp_step. eapply wp_rd; [rewrite Hm'; apply znth_line_at|]. cbn [post].
  assert (Hll : zlen (line_at ((pre ++ init sp) ++ init wd) aw tl) = zlen (line_at pre s tl)).
  { by rewrite <- Hm', <- Hm. }
  destruct (after_word_sep (lstrip s)) as [Ea|(r' & Ea)]; fold aw in Ea; rewrite Ea in *.
  - cbn [nth]. change (0 =? 0) with true. wp_seq. rewrite Hm'.
    apply (Hsome _ [] _ wd); auto.
    + constructor.
    + rewrite zlen_nil in *. lia.
    + rewrite zlen_app, zlen_init, zlen_app, zlen_init. lia.
    + rewrite <- app_assoc. by eexists.
    + split; [done|right]. split; [done|]. rewrite Hd. apply cstr_of_init, Hwd.
  - cbn [nth drop] in *. change (SEP =? 0) with false. wp_seq.
    assert (Hset : zset (line_at ((pre ++ init sp) ++ init wd) (SEP :: r') tl)
                     (zlen ((pre ++ init sp) ++ init wd)) (Some 0)
                   = line_at (((pre ++ init sp) ++ init wd) ++ [Some 0]) r' tl).
    { unfold line_at, zset, zlen. destruct (Z.ltb_spec (Z.of_nat (length ((pre ++ init sp) ++ init wd))) 0); [lia|].
      rewrite Nat2Z.id. rewrite insert_app_r_alt, Nat.sub_diag by done. cbn. by rewrite <- (app_assoc _ [Some 0]). }
    rewrite Hm'. apply wp_wr.
    { pose proof (zlen_nonneg ((pre ++ init sp) ++ init wd)). rewrite zlen_line_at, zlen_cons.
      pose proof (zlen_nonneg r'). pose proof (zlen_nonneg tl). lia. }
    rewrite Hset. cbn [post]. wp_seq.
    replace (zlen ((pre ++ init sp) ++ init wd) + 1) with
      (zlen (((pre ++ init sp) ++ init wd) ++ [Some 0])) by (by rewrite (zlen_app _ [Some 0])).
    apply (Hsome _ r' _ wd); auto.
    + destruct Hwd as [_ Hwd]. by inversion Hwd.
    + rewrite zlen_cons in *. lia.
    + rewrite !zlen_app, !zlen_init, zlen_cons, zlen_nil. lia.
    + rewrite <- !app_assoc. by eexists.
    + rewrite <- Hll. rewrite !zlen_line_at, (zlen_app _ [Some 0]), !zlen_cons, zlen_nil. lia.
    + split; [done|left]. rewrite Hd. apply cstr_of_init, Hwd.
Qed.

End Strtok.

(** ** The argument vector *)

(** [newargs] holds exactly the strings [ts], then NULL. *)
Definition args_are (cmd : mem) (newargs : list slot) (ts : list (list Z)) : Prop :=
  (forall j t, ts !! j = Some t -> exists off,
     newargs !! j = Some (Tok off) /\ cstr_of (zdrop off cmd) = Some t) /\
  newargs !! length ts = Some Null.

Section Args.
Context {K : Type} {HK : Kernel K}.

Lemma wp_read_args cmd ts : forall newargs (Q : outcome (list (list Z)) -> world K -> Prop) w,
  args_are cmd newargs ts -> Q (Done ts) w -> wp (read_args cmd newargs) Q w.
Proof.
  induction ts as [|t ts IH]; intros newargs Q w [Ht Hn] HQ; cbn [length] in Hn.
  - destruct newargs as [|[]]; try done.
  - destruct (Ht 0%nat t eq_refl) as (off & H0 & Hc). destruct newargs as [|a newargs]; [done|].
    cbn in H0. injection H0 as ->. cbn [read_args]. wp_step. eapply wp_cstr; [done|].
    cbn [post]. wp_step. apply IH; [|by wp_step]. split; [|done].
    intros j t' Hj. by apply (Ht (S j)).
Qed.

Lemma wp_set_slot newargs i v (Q : outcome (list slot) -> world K -> Prop) w :
  0 <= i < zlen newargs -> Q (Done (zset newargs i v)) w -> wp (set_slot newargs i v) Q w.
Proof. unfold wp, set_slot. intros H. by destruct (znth_Some newargs i H) as [x ->]. Qed.

Lemma zset_lookup_ne {A} (l : list A) i v (j : nat) :
  0 <= i -> Z.of_nat j <> i -> zset l i v !! j = l !! j.
Proof.
  intros. unfold zset. destruct (Z.ltb_spec i 0); [done|]. apply list_lookup_insert_ne. lia.
Qed.

Lemma zset_lookup_eq {A} (l : list A) i v :
  0 <= i < zlen l -> zset l i v !! Z.to_nat i = Some v.
Proof.
  intros. unfold zset, zlen in *. destruct (Z.ltb_spec i 0); [lia|].
  apply list_lookup_insert_eq. lia.
Qed.

Variable (tl : mem).

(** The words [done] are in [newargs], and the rest of the line is [s]. *)
Definition recorded (all done : list (list Z)) (pre : mem) (s : list Z) (newargs : list slot) : Prop :=
  all = done ++ tokens s /\ nonzero s /\ zlen done <= zlen pre /\
  zlen (line_at pre s tl) < zlen newargs /\
  forall j t, done !! j = Some t -> exists off, newargs !! j = Some (Tok off) /\ token_at pre s off t.

Lemma recorded_next all done pre s newargs pre' s' off t :
  recorded all done pre s newargs -> s <> [] ->
  tokens s = t :: tokens s' -> nonzero s' -> zlen pre < zlen pre' ->
  (exists x, pre' = pre ++ x) -> zlen (line_at pre' s' tl) = zlen (line_at pre s tl) ->
  token_at pre' s' off t ->
  recorded all (done ++ [t]) pre' s' (zset newargs (zlen done) (Tok off)).
Proof.
  intros (Hall & Hnz & Hlen & Hbig & Hdone) Hs Ht Hnz' Hpre (x & ->) Hsame Htok.
  pose proof (zlen_nonneg done). split_and!; auto.
  - by rewrite Hall, Ht, <- app_assoc.
  - rewrite zlen_app, zlen_cons, zlen_nil. lia.
  - rewrite zlen_zset. lia.
  - intros j u Hj. destruct (decide (j < length done)%nat) as [Hl|Hl].
    + rewrite lookup_app_l in Hj by done. destruct (Hdone j u Hj) as (o & H1 & H2).
      exists o. split; [|by eapply token_at_more].
      rewrite zset_lookup_ne by (unfold zlen in *; lia). done.
    + assert (j = length done) as ->.
      { apply lookup_lt_Some in Hj. rewrite length_app in Hj. simpl in Hj. lia. }
      rewrite lookup_app_r, Nat.sub_diag in Hj by lia. injection Hj as ->.
      exists off. split; [|done]. rewrite <- (Nat2Z.id (length done)).
      apply zset_lookup_eq. rewrite zlen_line_at in Hbig.
      pose proof (zlen_nonneg s). pose proof (zlen_nonneg tl). unfold zlen in *. lia.
Qed.

(** When no word is left and a NULL is stored, [newargs] is the vector. *)
Lemma recorded_end all done pre s newargs :
  recorded all done pre s newargs -> lstrip s = [] ->
  args_are (line_at pre s tl) (zset newargs (zlen done) Null) all.
Proof.
  intros (Hall & Hnz & Hlen & Hbig & Hdone) Hs.
  rewrite (tokens_nil _ Hs), app_nil_r in Hall. subst all. pose proof (zlen_nonneg done).
  split.
  - intros j t Hj. destruct (Hdone j t Hj) as (off & H1 & H2). exists off.
    apply lookup_lt_Some in Hj. split; [rewrite zset_lookup_ne by (unfold zlen in *; lia); done|].
    by apply token_at_cstr.
  - rewrite <- (Nat2Z.id (length done)). apply zset_lookup_eq. rewrite zlen_line_at in Hbig.
    pose proof (zlen_nonneg s). pose proof (zlen_nonneg tl). unfold zlen in *. lia.
Qed.

Definition tokenize_inv (all : list (list Z)) (w : world K) (len n : Z)
    (st : Z * Z * mem * list slot) (w' : world K) : Prop :=
  let '(i, saved, cmd, newargs) := st in
  w' = w /\ exists done pre s,
    saved = zlen pre /\ cmd = line_at pre s tl /\ zlen cmd = len /\ zlen newargs = n /\
    i = zlen done /\ recorded all done pre s newargs.

Lemma wp_tokenize_loop all w len n fuel st (Q : outcome (Z * mem * list slot) -> world K -> Prop) :
  tokenize_inv all w len n st w -> (Z.to_nat (len - st.1.1.2) < fuel)%nat ->
  (forall i cmd newargs, args_are cmd newargs all -> 0 <= i <= len + 1 ->
     zlen cmd = len -> zlen newargs = n -> Q (Done (i, cmd, newargs)) w) ->
  wp (loop fuel tokenize_iter st) Q w.
Proof.
  intros HI Hf HQ.
  apply (wp_loop_total (tokenize_inv all w len n) (fun st _ => Z.to_nat (len - st.1.1.2)));
    [|done|done].
  clear st HI Hf. intros [[[i saved] cmd] newargs] w' (-> & done & pre & s & -> & -> & Hl & Hn & -> & Hr).
  pose proof Hr as (Hall & Hnz & Hlen & Hbig & Hdone).
  pose proof (zlen_line_at pre s tl) as Hz. pose proof (zlen_nonneg s). pose proof (zlen_nonneg tl).
  pose proof (zlen_nonneg done).
  unfold tokenize_iter. wp_step. apply wp_strtok; [done| |].
  - intros Hs. cbn [post]. wp_step. apply wp_set_slot; [lia|]. cbn [post slot_of]. wp_step.
    apply HQ; [by apply recorded_end|lia|done|by rewrite zlen_zset].
  - intros pre' s' off t Ht Hnz' Hs' Hp' Hx Hsame Htok. cbn [post]. wp_step.
    apply wp_set_slot; [lia|]. cbn [post slot_of]. wp_step.
    assert (s <> []) as Hne by (intros ->; rewrite (@zlen_nil Z) in *; pose proof (zlen_nonneg s'); lia).
    split; [|cbn [fst snd]; lia]. split; [done|]. exists (done ++ [t]), pre', s'.
    split_and!; auto; [lia|by rewrite zlen_zset|by rewrite zlen_app|]. by eapply recorded_next.
Qed.

(** Tokenizing a line of [s] puts exactly its words in [newargs]. *)
Lemma wp_tokenize s newargs (Q : outcome (Z * mem * list slot) -> world K -> Prop) w :
  nonzero s -> zlen (line_at [] s tl) + 1 < zlen newargs ->
  (forall i cmd newargs', args_are cmd newargs' (tokens s) ->
     i <= zlen (line_at [] s tl) + 1 -> zlen cmd = zlen (line_at [] s tl) ->
     zlen newargs' = zlen newargs -> Q (Done (i, cmd, newargs')) w) ->
  wp (tokenize (line_at [] s tl) newargs) Q w.
Proof.
  intros Hnz Hbig HQ. pose proof (zlen_nonneg s). pose proof (zlen_nonneg tl).
  assert (Hr0 : recorded (tokens s) [] [] s newargs).
  { split_and!; auto; [done|lia|]. intros j t Hj. done. }
  pose proof (zlen_line_at [] s tl) as Hz. rewrite zlen_nil in Hz.
  unfold tokenize. wp_step. apply (wp_strtok []); [done| |].
  - intros Hs. cbn [post]. wp_step. apply wp_set_slot; [lia|]. cbn [post slot_of loop].
    wp_step. unfold tokenize_iter. wp_step.
    assert (Em : line_at [] s tl = line_at (init s) [] tl).
    { rewrite <- (app_nil_r s) at 1. rewrite line_at_app. done. }
    rewrite Em at 1. change ([] ++ init s) with (init s).
    apply wp_strtok; [constructor| |intros; done]. intros _. cbn [post]. wp_step.
    apply wp_set_slot; [rewrite zlen_zset; lia|]. cbn [post slot_of]. do 2 wp_step.
    rewrite (tokens_nil _ Hs) in HQ.
    apply HQ; [|lia|by rewrite Em|by rewrite !zlen_zset]. split; [done|]. cbn [length].
    rewrite zset_lookup_ne by lia. apply (zset_lookup_eq _ 0). lia.
  - intros pre' s' off t Ht Hnz' Hs' Hp' Hx Hsame Htok. cbn [post]. wp_step.
    apply wp_set_slot; [lia|]. cbn [post slot_of].
    assert (s <> []) as Hne by (intros ->; rewrite (@zlen_nil Z) in *; pose proof (zlen_nonneg s'); lia).
    pose proof (recorded_next _ _ _ _ _ _ _ _ _ Hr0 Hne Ht Hnz' Hp' Hx Hsame Htok) as Hr.
    apply (wp_tokenize_loop (tokens s) w (zlen (line_at [] s tl)) (zlen newargs)).
    + split; [done|]. exists [t], pre', s'. split_and!; auto. by rewrite zlen_zset.
    + cbn [fst snd]. rewrite zlen_nil in Hp'. unfold zlen in *. lia.
    + intros i cmd newargs' H1 H2 H3 H4. apply HQ; [done|lia|done|done].
Qed.

End Args.

(** ** One turn of the shell *)

Section Turn.
Context {K : Type} {HK : Kernel K}.

Lemma wp_free_args args (Q : outcome unit -> world K -> Prop) w :
  (forall w', Q (Done tt) w') -> wp (free_args args) Q w.
Proof.
  intros HQ. revert w. induction args as [|p args IH]; intros w; cbn [free_args];
    [wp_step; apply HQ|].
  wp_step. wp_step; wp_seq; apply IH.
Qed.

Lemma prints_only_show_args e i newargs orig : prints_only (K := K) (show_args e i newargs orig).
Proof.
  revert i orig. induction newargs as [|a l IH]; intros i [|o orig]; cbn [show_args];
    try apply prints_only_ret.
  apply prints_only_bind; [apply prints_only_emit|apply IH].
Qed.

Lemma prints_only_show_newargs i args : prints_only (K := K) (show_newargs i args).
Proof.
  revert i. induction args as [|a l IH]; intros i; [apply prints_only_ret|].
  apply prints_only_bind; [apply prints_only_emit|apply IH].
Qed.

Lemma prints_only_status stat cpid : prints_only (K := K) (displayChildStatus stat cpid).
Proof.
  unfold displayChildStatus.
  repeat first [apply prints_only_bind | apply prints_only_when | apply prints_only_emit].
Qed.

Definition blank (s : list Z) : Prop := tokens s = [].

(** How the process may end while running the line [s]. *)
Definition child_end (s : list Z) (h : halt) : Prop :=
  match tokens s with
  | [] => h = HUB (UB_null "execvp file")
  | file :: _ => h = HExec (Some (text_of file)) (map text_of (tokens s)) \/ h = HExit 1
  end.

(** The answer [f] of fork decides what the turn does. *)
Definition forked (e : env) (s : list Z) (f : Z) (o : outcome ((mem * list slot * Z) + Z)) : Prop :=
  match o with
  | Done (inl (cmd, newargs, _)) => f <> 0 /\ zlen cmd = LEN /\ zlen newargs = MAXARGS
  | Done (inr _) => False
  | Halt h =>
      (f = 0 /\ child_end s h) \/
      (f <> 0 /\ f <> -1 /\ (h = HExit 1 \/ (rusage e = 0 /\ h = HUB (UB_null "rusage"))))
  end.

Lemma wp_child e cmd newargs s (Q : outcome unit -> world K -> Prop) w :
  args_are cmd newargs (tokens s) ->
  (forall h w', child_end s h -> Q (Halt h) w') -> wp (child e cmd newargs) Q w.
Proof.
  intros Ha HQ. unfold child. wp_step. apply wp_free_args. intros w'. cbn [post].
  wp_step. eapply wp_read_args; [done|]. cbn [post]. unfold child_end in HQ.
  destruct (tokens s) as [|t ts]; [by apply wp_halt, HQ|].
  wp_seq. wp_step; wp_seq; apply HQ; auto.
Qed.

Lemma wp_parent e stat (Q : outcome Z -> world K -> Prop) w :
  (forall z w', Q (Done z) w') -> (forall w', Q (Halt (HExit 1)) w') ->
  (rusage e = 0 -> forall w', Q (Halt (HUB (UB_null "rusage"))) w') ->
  wp (parent e stat) Q w.
Proof.
  intros H1 H2 H3. unfold parent. wp_seq. wp_step; [wp_seq; auto|].
  wp_step. apply wp_prints_only; [apply prints_only_status|]. intros tr. cbn [post].
  wp_step. unfold show_resusage. destruct (Z.eqb_spec (rusage e) 0).
  - by apply wp_halt, H3.
  - wp_seq. apply H1.
Qed.

Lemma wp_run_command e s tl newargs stat w f k (Q : outcome (mem * list slot * Z) -> world K -> Prop) :
  nonzero s -> zlen (line_at [] s tl) = LEN -> zlen newargs = MAXARGS ->
  kstep (Csys "fork" []) (kern w) = (f, k) ->
  (forall cmd newargs' stat' w', ret f <> 0 -> zlen cmd = LEN -> zlen newargs' = MAXARGS ->
     Q (Done (cmd, newargs', stat')) w') ->
  (forall h w', forked e s (ret f) (Halt h) -> Q (Halt h) w') ->
  wp (run_command e (line_at [] s tl) newargs stat) Q w.
Proof.
  intros Hnz Hl Hn Hk HD HH. unfold run_command. wp_step.
  apply wp_tokenize; [done|rewrite Hl, Hn; done|].
  intros i cmd newargs' Hargs Hi Hlc Hln. rewrite Hl in *. cbn [post].
  destruct (Z.ltb_spec MAXARGS (i - 2)); [unfold MAXARGS, LEN in *; lia|].
  assert (Hfork : forall tr, wp (f ← sys "fork" [];
    if f =? -1 then perror "fork failed";; mret (cmd, newargs', stat)
    else if f =? 0 then child e cmd newargs';; mret (cmd, newargs', stat)
    else stat ← parent e stat; mret (cmd, newargs', stat)) Q (World (kern w) (errno w) (trace w ++ tr))).
  { intros tr. wp_step. wp_step. wp_step. apply wp_syscall. cbn [kern]. intros f' k' E.
    rewrite Hk in E. injection E as <- <-. cbn [post]. wp_seq.
    destruct (Z.eqb_spec (ret f) (-1)).
    { wp_seq. apply HD; auto; [lia|congruence]. }
    destruct (Z.eqb_spec (ret f) 0).
    { wp_step. eapply wp_child; [done|]. intros h w' Hh. cbn [post]. apply HH. by left. }
    wp_step. apply wp_parent.
    - intros z w'. cbn [post]. wp_step. apply HD; auto. congruence.
    - intros w'. cbn [post]. apply HH. right. auto.
    - intros ? w'. cbn [post]. apply HH. right. auto. }
  wp_step. destruct (MYDEBUG e).
  - wp_step. eapply wp_read_args; [done|]. cbn [post].
    apply wp_prints_only; [|done]. apply prints_only_bind; [|apply prints_only_emit].
    apply prints_only_show_newargs.
  - apply wp_prints_only; [apply prints_only_ret|done].
Qed.

End Turn.

(** ** The shell *)

Definition fgets : call := Csys "fgets" [AI LEN].

(** What fgets(cmd, LEN, stdin) stores: a line of at most LEN - 1 bytes, never
    empty; here a text line, without NUL bytes. *)
Definition text_line (r : resp) : Prop :=
  ret r <> 0 -> 1 <= zlen (out r) <= LEN - 1 /\ nonzero (out r) /\ Forall byte_ok (out r).

(** The result of one turn that read the line [s] followed by one more byte. *)
Definition turn {K} `{Kernel K} (e : env) (s : list Z) (newargs : list slot) (k : K)
    (o : outcome ((mem * list slot * Z) + Z)) : Prop :=
  if decide (s = []) then
    exists cmd stat, o = Done (inl (cmd, newargs, stat)) /\ zlen cmd = LEN
  else if decide (s = [113]) then o = Halt (HExit 0)
  else forked e s (ret (fst (kstep (Csys "fork" []) k))) o.

Lemma byte_of_ascii_of c :
  byte_ok c -> byte_of_ascii (Ascii.ascii_of_N (Z.to_N (to_uchar c))) = c.
Proof.
  unfold byte_ok, byte_of_ascii. intros. rewrite to_uchar_id by lia.
  rewrite Ascii.N_ascii_embedding by lia. lia.
Qed.

(** [strncmp(cmd, "q", strlen(cmd)) == 0] holds of a non-empty line only for "q". *)
Lemma strncmp_q s : Forall byte_ok s -> nonzero s -> s <> [] ->
  strncmp (length s) (text_of s) "q" = 0 <-> s = [113].
Proof.
  intros Hb Hz Hne. destruct s as [|c s]; [done|]. inversion Hb as [|?? Hc Hb']; subst.
  cbn [length text_of strncmp]. rewrite byte_of_ascii_of by done.
  match goal with |- context [c =? ?q] => change q with 113 end.
  destruct (Z.eqb_spec c 113) as [->|]; [|split; [lia|congruence]].
  destruct s as [|d s]; [done|]. inversion Hb' as [|?? Hd _]; subst.
  inversion Hz as [|?? _ Hz']; subst. inversion Hz'; subst.
  cbn [length text_of strncmp]. rewrite byte_of_ascii_of by done. split; [done|congruence].
Qed.

Section Shell.
Context {K : Type} {HK : Kernel K}.

(** Storing a line and cutting its last byte off. *)
Lemma wp_chop_line {B} cmd s c (f : mem -> C K B) (Q : outcome B -> world K -> Prop) w :
  zlen cmd = LEN -> 1 <= zlen (s ++ [c]) <= LEN - 1 -> nonzero (s ++ [c]) ->
  (forall tl, zlen (line_at [] s tl) = LEN -> wp (f (line_at [] s tl)) Q w) ->
  wp (cmd ← copy_in "cmd" cmd 0 ((s ++ [c]) ++ [0]); t ← cstr "cmd" cmd 0; cmd ← wr "cmd" cmd (zlen t - 1) 0; f cmd) Q w.
Proof.
  intros Hl Hlen Hnz HQ. apply Forall_app in Hnz as [Hnz Hnzc].
  inversion Hnzc as [|?? Hc _]; subst. rewrite zlen_snoc in Hlen.
  assert (Hb : blit cmd 0 ((s ++ [c]) ++ [0]) = line_at [] (s ++ [c]) (zdrop (zlen s + 2) cmd)).
  { unfold blit, line_at. rewrite (init_app (s ++ [c])).
    replace (0 + zlen ((s ++ [c]) ++ [0])) with (zlen s + 2)
      by (rewrite !zlen_snoc; lia).
    symmetry. apply (app_assoc (init (s ++ [c])) [Some 0]). }
  wp_step. apply wp_copy_in; [lia|rewrite !zlen_snoc; unfold LEN in *; lia|].
  cbn [post]. rewrite Hb. set (tl := zdrop (zlen s + 2) cmd).
  assert (Htl : zlen tl = LEN - 2 - zlen s).
  { unfold tl. pose proof (zlen_nonneg s). rewrite zlen_zdrop by lia. lia. }
  pose proof (zlen_nonneg s).
  wp_step. eapply wp_cstr; [apply cstr_of_init; apply Forall_app; split; [done|by constructor]|].
  cbn [post]. rewrite zlen_snoc.
  replace (zlen s + 1 - 1) with (zlen s) by lia.
  wp_step. apply wp_wr; [rewrite zlen_line_at, zlen_snoc, (@zlen_nil (option Z)); lia|].
  cbn [post].
  assert (Hset : zset (line_at [] (s ++ [c]) tl) (zlen s) (Some 0) = line_at [] s (Some 0 :: tl)).
  { unfold line_at, zset, zlen, init. destruct (Z.ltb_spec (Z.of_nat (length s)) 0); [lia|].
    rewrite Nat2Z.id, map_app. cbn [app]. rewrite <- app_assoc.
    rewrite insert_app_r_alt by (by rewrite length_map). by rewrite length_map, Nat.sub_diag. }
  rewrite Hset. apply HQ. rewrite zlen_line_at, (@zlen_nil (option Z)), zlen_cons. lia.
Qed.

Lemma wp_mysh_iter e cmd newargs stat w r k s c :
  zlen cmd = LEN -> zlen newargs = MAXARGS ->
  kstep fgets (kern w) = (r, k) -> ret r <> 0 -> text_line r -> out r = s ++ [c] ->
  wp (mysh_iter e (cmd, newargs, stat)) (fun o _ => turn e s newargs k o) w.
Proof.
  intros Hl Hn Hk Hr Ht Ho. destruct (Ht Hr) as (Hlen & Hnz & Hby). rewrite Ho in *.
  unfold mysh_iter, turn.
  wp_step. apply wp_prints_only; [apply prints_only_when, prints_only_show_args|].
  intros tr. cbn [post]. do 4 wp_step. wp_step. apply wp_syscall. cbn [kern]. intros r' k' E.
  unfold fgets in Hk. rewrite Hk in E. injection E as <- <-. cbn [post].
  destruct (Z.eqb_spec (ret r) 0); [done|]. rewrite Ho.
  apply wp_chop_line; [done..|]. intros tl Hl'.
  apply Forall_app in Hnz as [Hnz _]. apply Forall_app in Hby as [Hby _].
  wp_step. eapply wp_cstr; [by apply cstr_of_init|]. cbn [post].
  wp_step. unfold Dprint. apply wp_prints_only.
  { destruct (negb (MYDEBUG e)); [apply prints_only_ret|apply prints_only_emit]. }
  intros tr'. cbn [post]. wp_step. eapply wp_rd; [apply (znth_line_at [])|]. cbn [post].
  destruct (decide (s = [])) as [->|Hs].
  { cbn [nth]. change (0 =? 0) with true. wp_seq. by do 2 eexists. }
  destruct s as [|b s]; [done|]. cbn [nth]. inversion Hnz; subst.
  destruct (Z.eqb_spec b 0); [done|].
  pose proof (strncmp_q (b :: s) Hby Hnz Hs) as Hq.
  destruct (Z.eqb_spec (strncmp (length (b :: s)) (text_of (b :: s)) "q") 0) as [Eq|Eq].
  { rewrite (proj1 Hq Eq). destruct (decide _); [|done]. wp_seq. apply wp_free_args.
    intros w'. cbn [post]. by wp_seq. }
  destruct (decide (b :: s = [113])) as [E|_]; [tauto|]. wp_step.
  cbn [after kern]. destruct (kstep (Csys "fork" []) k) as [f k2] eqn:Ef. cbn [fst].
  eapply wp_run_command; [done|done|done|exact Ef| |].
  - intros cmd' newargs' stat' w' E1 E2 E3. cbn [post]. wp_step. done.
  - intros h w' Hh. exact Hh.
Qed.

Lemma wp_alloc_args a n i (Q : outcome (list Z) -> world K -> Prop) w :
  (forall ps w', length ps = n -> Q (Done ps) w') ->
  (forall w', Q (Halt (HExit 1)) w') -> wp (alloc_args a n i) Q w.
Proof.
  revert i Q w. induction n as [|n IH]; intros i Q w HD HH; cbn [alloc_args].
  - wp_step. by apply HD.
  - wp_seq. wp_step; [wp_seq; apply HH|]. wp_step. apply IH; [|intros; apply HH].
    intros ps w' Hps. cbn [post]. wp_step. apply HD. simpl. by rewrite Hps.
Qed.

End Shell.

(** C6: a turn of the shell does what the line says.  The line loses its last
    character; an empty rest is ignored, exactly "q" ends the shell with status
    0, and anything else forks.  The child executes the blank-separated words of
    the line, in order and unchanged, as program and arguments (or exits with 1
    when that fails); the parent waits and goes on with its buffers intact. *)
Theorem mysh_turn {K} `{Kernel K} e cmd newargs stat (w : world K) r k s c :
  zlen cmd = LEN -> zlen newargs = MAXARGS ->
  kstep fgets (kern w) = (r, k) -> ret r <> 0 -> text_line r -> out r = s ++ [c] ->
  turn e s newargs k (fst (mysh_iter e (cmd, newargs, stat) w)).
Proof. intros. by eapply wp_mysh_iter. Qed.

Lemma mysh_turn_witness :
  turn (Env false 0 "mysh" 8 []) (bytes_of "ls  -l /tmp") (replicate 1024 Null)
    [Resp 0 0 []; Resp 0 0 []]
    (fst (mysh_iter (Env false 0 "mysh" 8 []) (uninit LEN, replicate 1024 Null, 0)
      (World [Resp 1 0 (bytes_of ("ls  -l /tmp" +:+ nl)); Resp 0 0 []; Resp 0 0 []] 0 []))).
Proof.
  refine (mysh_turn (Env false 0 "mysh" 8 []) (uninit LEN) (replicate 1024 Null) 0
    (World [Resp 1 0 (bytes_of ("ls  -l /tmp" +:+ nl)); Resp 0 0 []; Resp 0 0 []] 0 [])
    (Resp 1 0 (bytes_of ("ls  -l /tmp" +:+ nl))) [Resp 0 0 []; Resp 0 0 []]
    (bytes_of "ls  -l /tmp") 10 eq_refl eq_refl eq_refl _ _ eq_refl); [discriminate|].
  intros _. split; [by vm_compute|]. split; [repeat constructor; discriminate|].
  apply bytes_of_range.
Defined.

(** The same turn, run: the child executes the three words. *)
Lemma mysh_turn_example :
  fst (mysh_iter (Env false 0 "mysh" 8 []) (uninit LEN, replicate 1024 Null, 0)
        (World [Resp 1 0 (bytes_of ("ls  -l /tmp" +:+ nl)); Resp 0 0 []; Resp 0 0 []] 0 []))
  = Halt (HExec (Some "ls") ["ls"; "-l"; "/tmp"]).
Proof. reflexivity. Qed.

(** The ways the shell's process can end. *)
Definition shell_end (e_null : bool) (h : halt) : Prop :=
  h = HFuel \/ h = HExit 0 \/ h = HExit 1 \/
  (exists f args, h = HExec (Some f) (f :: args)) \/
  h = HUB (UB_null "execvp file") \/ (e_null = true /\ h = HUB (UB_null "rusage")).

Lemma forked_shell_end e s f h :
  forked e s f (Halt h) -> shell_end (rusage e =? 0) h.
Proof.
  unfold forked, child_end, shell_end.
  intros [[_ Hh]|(_ & _ & [->|[-> ->]])]; [|auto 10|auto 10].
  destruct (tokens s) as [|t ts]; [auto 10|]. destruct Hh as [->| ->]; [|auto].
  do 3 right. left. by do 2 eexists.
Qed.

Lemma wp_mysh_loop {K} `{Kernel K} e fuel (w : world K) st :
  (forall k : K, text_line (fst (kstep fgets k))) ->
  zlen st.1.1 = LEN -> zlen st.1.2 = MAXARGS ->
  wp (loop fuel (mysh_iter e) st) (fun o _ => exists h, o = Halt h /\ shell_end (rusage e =? 0) h) w.
Proof.
  intros Hf H1 H2.
  apply (wp_loop (fun st w' => zlen st.1.1 = LEN /\ zlen st.1.2 = MAXARGS)); [| |done].
  { intros. exists HFuel. split; [done|by left]. }
  clear st H1 H2 w. intros [[cmd newargs] stat] w [H1 H2]. cbn [fst snd] in *.
  destruct (kstep fgets (kern w)) as [r k] eqn:E. pose proof (Hf (kern w)) as Ht.
  rewrite E in Ht. cbn [fst] in Ht. destruct (decide (ret r = 0)) as [E0|Hr].
  - unfold mysh_iter. wp_step.
    apply wp_prints_only; [apply prints_only_when, prints_only_show_args|].
    intros tr. cbn [post]. do 4 wp_step. wp_step. apply wp_syscall. cbn [kern]. intros r' k' E'.
    unfold fgets in E. rewrite E in E'. injection E' as <- <-. cbn [post]. rewrite E0.
    change (0 =? 0) with true. wp_seq. done.
  - destruct (Ht Hr) as (Hlen & _ & _).
    destruct (exists_last (l := out r)) as (s & c & Ho); [intros E0; rewrite E0, zlen_nil in Hlen; lia|].
    eapply wp_mono; [|by eapply wp_mysh_iter]. intros o w' Ht'. unfold turn in Ht'.
    destruct (decide (s = [])).
    { destruct Ht' as (cmd' & stat' & -> & Hl). done. }
    destruct (decide (s = [113])).
    { subst o. exists (HExit 0). split; [done|right; by left]. }
    destruct o as [[[[cmd' newargs'] stat']|z]|h]; cbn [post].
    + cbn [fst snd]. by destruct Ht' as (_ & ? & ?).
    + done.
    + exists h. split; [done|]. by eapply forked_shell_end.
Qed.

(** C7: whatever lines of text are typed, for as long as the shell runs, it never
    reads or writes outside [cmd], [newargs] or a heap block; it ends only by
    "q", a failed allocation, wait or exec, or by becoming the command, whose
    argv[0] is the command itself.  The two exceptions are explicit: a line of
    blanks makes the child pass a null pointer to execvp, and a failed
    allocation of [rusage] is not checked. *)
Theorem mysh_main_safe {K} `{Kernel K} fuel cmd_at argv (w : world K) :
  (forall k : K, text_line (fst (kstep fgets k))) ->
  exists h w', main fuel cmd_at argv w = (Halt h, w') /\ exists b, shell_end b h.
Proof.
  intros Hf.
  enough (wp (main fuel cmd_at argv) (fun o _ => exists h, o = Halt h /\ exists b, shell_end b h) w)
    as (o & w' & E & h & -> & Hh)%wp_run by (by exists h, w').
  unfold main. wp_seq. apply wp_alloc_args.
  - intros ps w' Hps. cbn [post]. wp_step.
    apply wp_prints_only; [apply prints_only_when, prints_only_show_args|]. intros tr. cbn [post].
    eapply wp_mono; [|apply wp_mysh_loop; [done|done|]].
    + intros o w1 (h & -> & Hh). eauto.
    + cbn [fst snd]. unfold zlen. by rewrite length_map, Hps.
  - intros w'. exists (HExit 1). split; [done|]. exists true. unfold shell_end. auto.
Qed.

(** A user who types one command for ever. *)
Definition typist : Kernel unit := fun _ _ => (Resp 1 0 (bytes_of ("date" +:+ nl)), tt).

Lemma mysh_main_safe_witness :
  exists h w', @main unit typist 3 4096 ["mysh"] (World tt 0 []) = (Halt h, w') /\
    exists b, shell_end b h.
Proof.
  apply (@mysh_main_safe unit typist 3 4096 ["mysh"] (World tt 0 [])).
  intros k _. split; [by vm_compute|]. split; [repeat constructor; discriminate|].
  apply bytes_of_range.
Defined.

(** a line that starts with a NUL byte, which fgets delivers, makes the shell
    write [cmd[-1]]. *)
Theorem mysh_nul_line_underflow {K} `{Kernel K} e cmd newargs stat (w : world K) r k bs :
  zlen cmd = LEN -> kstep fgets (kern w) = (r, k) ->
  ret r <> 0 -> out r = 0 :: bs -> zlen bs <= LEN - 2 ->
  fst (mysh_iter e (cmd, newargs, stat) w) = Halt (HUB (UB_bounds "cmd" (-1))).
Proof.
  intros Hl E Hr Ho Hb.
  enough (wp (mysh_iter e (cmd, newargs, stat)) (fun o _ => o = Halt (HUB (UB_bounds "cmd" (-1)))) w)
    by done.
  unfold mysh_iter. wp_step.
  apply wp_prints_only; [apply prints_only_when, prints_only_show_args|].
  intros tr. cbn [post]. do 4 wp_step. wp_step. apply wp_syscall. cbn [kern]. intros r' k' E'.
  unfold fgets in E. rewrite E in E'. injection E' as <- <-. cbn [post].
  destruct (Z.eqb_spec (ret r) 0); [done|]. rewrite Ho. pose proof (zlen_nonneg bs).
  wp_step. apply wp_copy_in; [lia|rewrite zlen_snoc, zlen_cons; lia|]. cbn [post].
  wp_step. eapply wp_cstr; [reflexivity|]. cbn [post]. by wp_step.
Qed.

Lemma mysh_nul_line_underflow_witness :
  fst (mysh_iter (Env false 0 "mysh" 8 []) (uninit LEN, [], 0)
        (World [Resp 1 0 [0; 10]] 0 [])) = Halt (HUB (UB_bounds "cmd" (-1))).
Proof.
  apply (mysh_nul_line_underflow (Env false 0 "mysh" 8 []) (uninit LEN) [] 0
    (World [Resp 1 0 [0; 10]] 0 []) (Resp 1 0 [0; 10]) [] [10]);
    [reflexivity|reflexivity|discriminate|reflexivity|].
  vm_compute. discriminate.
Defined.

(** At end of input the shell never ends: it prints its prompt again on every
    turn, for ever. *)
Theorem mysh_eof_spins {K} `{Kernel K} e st fuel (w : world K) :
  (forall k : K, ret (fst (kstep fgets k)) = 0) -> MYDEBUG e = false ->
  exists w' tr,
    loop fuel (mysh_iter e) st w = (Halt HFuel, w') /\ trace w' = trace w ++ tr /\
    length (filter (fun ev => ev = EvOut stdout PROMPT) tr) = fuel.
Proof.
  intros Hf Hd. revert w. induction fuel as [|fuel IH]; intros w.
  { exists w, []. by rewrite app_nil_r. }
  destruct (kstep fgets (kern w)) as [r k] eqn:E. pose proof (Hf (kern w)) as Hr.
  rewrite E in Hr. cbn [fst] in Hr.
  assert (Hi : mysh_iter e st w = (Done (inl st), after fgets r k
    (World (kern w) (errno w) ((trace w ++ [EvOut stdout PROMPT]) ++ [EvFlush stdout])))).
  { apply wp_run_eq. unfold mysh_iter. destruct st as [[cmd newargs] stat].
    unfold SHOWARGS. rewrite Hd. wp_seq. cbn [kern] in *. unfold fgets in *.
    rewrite E in Hk. injection Hk as <- <-. rewrite Hr. change (0 =? 0) with true. by wp_seq. }
  cbn [loop]. unfold mbind, C_bind. rewrite Hi.
  destruct (IH (after fgets r k
    (World (kern w) (errno w) ((trace w ++ [EvOut stdout PROMPT]) ++ [EvFlush stdout]))))
    as (w' & tr & E1 & E2 & E3).
  exists w', (EvOut stdout PROMPT :: EvFlush stdout :: EvCall fgets r :: tr).
  split; [done|]. split; [rewrite E2; cbn [after trace]; by rewrite <- !app_assoc|].
  rewrite filter_cons_True, filter_cons_False, filter_cons_False by done. cbn [length]. by rewrite E3.
Qed.

(** An input at its end. *)
Definition at_eof : Kernel unit := fun _ _ => (Resp 0 0 [], tt).

Lemma mysh_eof_spins_witness :
  exists w' tr,
    loop 5 (@mysh_iter unit at_eof (Env false 0 "mysh" 8 [])) (uninit LEN, [], 0) (World tt 0 [])
      = (Halt HFuel, w') /\ trace w' = [] ++ tr /\
    length (filter (fun ev => ev = EvOut stdout PROMPT) tr) = 5%nat.
Proof.
  apply (@mysh_eof_spins unit at_eof (Env false 0 "mysh" 8 [])
    (uninit LEN, [], 0) 5 (World tt 0 [])); done.
Defined.
