(* ===== verification/PreMt.v ===== *)
(** src/ipc/net_sockets/inet_domain/server_pre_threaded/svr_pre_mt.c: the
    pre-threaded server.  Ten threads share a listening socket; accept is called
    under a mutex; a client is sent a file.  The HTTP helpers (line reading,
    URL decoding, file extensions) are modelled on memory. *)
From S2P Require Import Prelude CMonad CLib Common.
From stdpp Require Import relations.
#[local] Open Scope Z_scope.

Definition DEFAULT_SERVER_PORT : Z := 8000.
Definition QLEN_MAX : Z := 10.
Definition THREADS_COUNT : Z := 10.
Definition MSG_PEEK : Z := 2.
Definition S_IFREG : Z := 32768.
Definition O_RDONLY : Z := 0.
Definition PER_THRD_STACKSIZE : Z := 8 * 1024 * 1024.
Definition PTHREAD_CREATE_DETACHED : Z := 1.
Definition SIGINT : Z := 2.
Definition SIGPIPE : Z := 13.
Definition FILE_TO_TRANSFER : string := "/etc/passwd".

Definition crlf : string := chr 13 +:+ nl.

Definition unimplemented_content : string :=
  cat ["HTTP/1.0 400 Bad Request"; crlf; "Content-type: text/html"; crlf; crlf;
       "<html>"; "<head>"; "<title>ZeroHTTPd: Unimplemented</title>"; "</head>"; "<body>";
       "<h1>Bad Request (Unimplemented)</h1>";
       "<p>Your client sent a request ZeroHTTPd did not understand and it is probably not your fault.</p>";
       "</body>"; "</html>"].

Definition http_404_content : string :=
  cat ["HTTP/1.0 404 Not Found"; crlf; "Content-type: text/html"; crlf; crlf;
       "<html>"; "<head>"; "<title>ZeroHTTPd: Not Found</title>"; "</head>"; "<body>";
       "<h1>Not Found (404)</h1>";
       "<p>Your client is asking for an object that was not found on this server.</p>";
       "</body>"; "</html>"].

(** [from_hex(ch)], with [char] signed. *)
Definition from_hex (ch : Z) : Z :=
  to_char (if isdigit ch then ch - 48 else tolower ch - 97 + 10).

(** [strrchr(s, '.')]: the rest of the string from its last dot. *)
Fixpoint strrchr_dot (s : list Z) : option (list Z) :=
  match s with
  | [] => None
  | c :: s' =>
      match strrchr_dot s' with
      | Some r => Some r
      | None => if c =? 46 then Some s else None
      end
  end.

Definition get_filename_ext (filename : list Z) : list Z :=
  match strrchr_dot filename with
  | None => []
  | Some dot => if zlen dot =? zlen filename then [] else drop 1 dot
  end.

Section Code.
Context {K : Type} {HK : Kernel K}.

Definition fatal_error {A} (what : string) : C K A :=
  perror what;; e ← get_errno; exit e.

Definition recv (sock flags : Z) : C K (Z * list Z) :=
  r ← syscall (Csys "recv" [AI sock; AI 1; AI flags]); mret (ret r, out r).

(** One turn of get_line's loop: [i], [c] and [buf]. *)
Definition get_line_iter (sock size : Z) (st : Z * Z * mem) : C K ((Z * Z * mem) + (Z * mem)) :=
  let '(i, c, buf) := st in
  if (i <? size - 1) && negb (c =? 10) then
    '(n, bs) ← recv sock 0;
    let c := if 0 <? n then nth 0 bs c else c in
    if 0 <? n then
      if c =? 13 then
        '(n, bs) ← recv sock MSG_PEEK;
        let c := if 0 <? n then nth 0 bs c else c in
        if (0 <? n) && (c =? 10) then
          '(n, bs) ← recv sock 0;
          mret (inl (i, if 0 <? n then nth 0 bs c else c, buf))
        else mret (inl (i, c, buf))
      else
        buf ← wr "buf" buf i c;
        mret (inl (i + 1, c, buf))
    else mret (inr (0, buf))
  else
    buf ← wr "buf" buf i 0;
    mret (inr (i, buf)).

Definition get_line (fuel : nat) (sock : Z) (buf : mem) (size : Z) : C K (Z * mem) :=
  loop fuel (get_line_iter sock size) (0, 0, buf).

(** [strtolower(str)], from position [p]; bytes above 127 are negative chars. *)
Definition strtolower (str : mem) : C K mem :=
  loop (S (length str)) (fun '(p, str) =>
    c ← rd "str" str p;
    if c =? 0 then mret (inr str)
    else
      str ← wr "str" str p (to_uchar (tolower (to_char c)));
      mret (inl (p + 1, str))) (0, str).

Definition handle_unimplemented_method (client_socket : Z) : C K unit :=
  sys "send" [AI client_socket; AS unimplemented_content;
              AI (strlen unimplemented_content); AI 0];; mret tt.

Definition handle_http_404 (client_socket : Z) : C K unit :=
  sys "send" [AI client_socket; AS http_404_content; AI (strlen http_404_content); AI 0];;
  mret tt.

(** One turn of the decoding loop: the positions [pstr] and [pbuf], and [buf]. *)
Definition decode_iter (str : mem) (st : Z * Z * mem) : C K ((Z * Z * mem) + (Z * mem)) :=
  let '(pstr, pbuf, buf) := st in
  c ← rd "str" str pstr;
  if c =? 0 then mret (inr (pbuf, buf))
  else if c =? 37 then
    c1 ← rd "str" str (pstr + 1);
    if c1 =? 0 then mret (inl (pstr + 1, pbuf, buf))
    else
      c2 ← rd "str" str (pstr + 2);
      if c2 =? 0 then mret (inl (pstr + 1, pbuf, buf))
      else
        let v := Z.lor (Z.shiftl (from_hex (to_char c1)) 4) (from_hex (to_char c2)) in
        buf ← wr "buf" buf pbuf (to_uchar v);
        mret (inl (pstr + 2 + 1, pbuf + 1, buf))
  else if c =? 43 then
    buf ← wr "buf" buf pbuf 32;
    mret (inl (pstr + 1, pbuf + 1, buf))
  else
    buf ← wr "buf" buf pbuf c;
    mret (inl (pstr + 1, pbuf + 1, buf)).

(** [urlencoding_decode(str)]: the address and the contents of the new block. *)
Definition urlencoding_decode (str : mem) : C K (Z * mem) :=
  s ← cstr "str" str 0;
  b ← syscall (Cmalloc (zlen s + 1));
  if ret b =? 0 then undefined (UB_null "buf")
  else
    '(pbuf, buf) ← loop (S (length str)) (decode_iter str) (0, 0, uninit (zlen s + 1));
    buf ← wr "buf" buf pbuf 0;
    mret (ret b, buf).

(** [stat] stores [st_mode] and [st_size]. *)
Definition transfer_file_contents (file_path : string) (client_socket : Z) : C K Z :=
  st ← syscall (Csys "stat" [AS file_path]);
  if ret st <? 0 then perror "stat failed";; mret 1
  else if Z.land (nth 0 (out st) 0) S_IFREG =? 0 then mret 2
  else
    let filesz := nth 1 (out st) 0 in
    if filesz <=? 0 then mret 3
    else
      f ← syscall (Copen file_path O_RDONLY 0);
      let fd := ret f in
      if fd <? 0 then perror "open failed";; mret 4
      else
        r ← sys "sendfile" [AI client_socket; AI fd; AI filesz];
        if to_int r <? 0 then perror "sendfile failed";; mret 5
        else syscall (Cclose fd);; mret 0.

(** The text of the switch in [handle_client]. *)
Definition failure_msg (prg_name : string) (thrdnum r : Z) : string :=
  let head := cat [prg_name; ":"; "handle_client"; "():thread# "; fmt_d thrdnum;
                   ": transferring file "; FILE_TO_TRANSFER] in
  match r with
  | 1 => cat [head; " failed; reason: stat(2) failed"; nl]
  | 2 => cat [head; " failed; reason: file isn't a regular file"; nl]
  | 3 => cat [head; " failed; reason: empty file"; nl]
  | 4 => cat [head; " failed; reason: open failed (permissions?)"; nl]
  | 5 => cat [head; " failed; reason: sendfile(2) failed"; nl]
  | _ => cat [head; ": unknown issue ("; fmt_d r; ")"; nl]
  end.

(** [strncat(msg, s, n)] on an array of [cap] bytes that holds [msg]. *)
Definition strncat (obj : string) (cap : Z) (msg s : string) (n : Z) : C K string :=
  let msg := msg +:+ String.substring 0 (Z.to_nat n) s in
  if cap <=? strlen msg then undefined (UB_bounds obj (strlen msg)) else mret msg.

Definition handle_client (prg_name : string) (client_socket thrdnum : Z) : C K unit :=
  r ← transfer_file_contents FILE_TO_TRANSFER client_socket;
  if r =? 0 then mret tt
  else
    let msg := snprintf 512 (failure_msg prg_name thrdnum r) in
    msg ← strncat "msg" 512 msg (cat ["Lookup server log for details."; nl]) 511;
    r ← sys "send" [AI client_socket; AS msg; AI (strlen msg); AI 0];
    if r <? 0 then fatal_error "send(2) failed" else mret tt.

(** The body of the threads' [while (1)]. *)
Definition server_turn (prg_name : string) (server_socket thrdnum : Z) : C K unit :=
  sys "pthread_mutex_lock" [AS "mlock"];;
  client_socket ← sys "accept" [AI server_socket];
  (if client_socket =? -1 then
     sys "pthread_mutex_unlock" [AS "mlock"];; fatal_error "accept()"
   else mret tt);;
  sys "pthread_mutex_unlock" [AS "mlock"];;
  handle_client prg_name client_socket thrdnum.

Definition enter_server_loop (fuel : nat) (prg_name : string) (server_socket thrdnum : Z)
    : C K unit :=
  loop fuel (fun _ : unit => server_turn prg_name server_socket thrdnum;; mret (inl tt)) tt.

Definition create_thread (index : Z) : C K unit :=
  sys "pthread_attr_init" [];;
  sys "pthread_attr_setdetachstate" [AI PTHREAD_CREATE_DETACHED];;
  sys "pthread_attr_setstacksize" [AI PER_THRD_STACKSIZE];;
  r ← sys "pthread_create" [AI index; AS "enter_server_loop"];
  e ← get_errno;
  when (negb (r =? 0))
    (fprintf stderr (cat ["create_thread(): !WARNING! pthread_create() failed [index ";
                          fmt_d index; "]; errno="; fmt_d e; nl])).

Definition setup_listening_socket (port : Z) : C K Z :=
  sock ← sys "socket" [AI 2; AI 1; AI 0];
  (if sock =? -1 then fatal_error "socket()" else mret tt);;
  r ← sys "setsockopt" [AI sock; AS "SO_REUSEADDR"; AI 1];
  (if r <? 0 then fatal_error "setsockopt(SO_REUSEADDR)" else mret tt);;
  r ← sys "bind" [AI sock; AI (wrapu 16 port); AS "INADDR_ANY"];
  (if r <? 0 then fatal_error "bind()" else mret tt);;
  r ← sys "listen" [AI sock; AI QLEN_MAX];
  (if r <? 0 then fatal_error "listen()" else mret tt);;
  mret sock.

(** The SIGINT handler; [fmt_g s us] is the text %g prints for [s + us/1000000.0]. *)
Definition print_stats (fmt_g : Z -> Z -> string) (signo : Z) : C K unit :=
  r ← syscall (Csys "getrusage" [AI 0]);
  (if ret r <? 0 then fatal_error "getrusage()" else mret tt);;
  let f i := nth i (out r) 0 in
  printf (cat [nl; "user time = "; fmt_g (f 0%nat) (f 1%nat);
               ", sys time = "; fmt_g (f 2%nat) (f 3%nat); nl]);;
  exit 0.

Definition main (fuel : nat) (argv : list string) : C K Z :=
  sys "signal" [AI SIGINT; AS "print_stats"];;
  let server_port := if 1 <? argc argv then atoi (arg_n argv 1) else DEFAULT_SERVER_PORT in
  sys "signal" [AI SIGPIPE; AS "SIG_IGN"];;
  server_socket ← setup_listening_socket server_port;
  printf (cat ["Pre-MT server listening on port "; fmt_d server_port; nl]);;
  loop (S (Z.to_nat THREADS_COUNT)) (fun i =>
    if i <? THREADS_COUNT then create_thread i;; mret (inl (i + 1)) else mret (inr tt)) 0;;
  loop fuel (fun _ : unit => sys "pause" [];; mret (inl tt)) tt.

(** [prg_name] after [strncpy(prg_name, argv[0], 127)] into a zeroed array of 128. *)
Definition prg_name_of (argv0 : string) : string := String.substring 0 127 argv0.

End Code.

(** ** URL decoding *)

(** What the loop computes, on the characters of the string. *)
Fixpoint decoded (e : list Z) : list Z :=
  match e with
  | [] => []
  | c :: e1 =>
      if c =? 37 then
        match e1 with
        | c1 :: c2 :: e3 =>
            to_uchar (Z.lor (Z.shiftl (from_hex (to_char c1)) 4) (from_hex (to_char c2)))
            :: decoded e3
        | _ => decoded e1
        end
      else (if c =? 43 then 32 else c) :: decoded e1
  end.

(** The value of a hexadecimal digit of either case. *)
Definition hexval (c : Z) : option Z :=
  if (48 <=? c) && (c <=? 57) then Some (c - 48)
  else if (97 <=? c) && (c <=? 102) then Some (c - 87)
  else if (65 <=? c) && (c <=? 70) then Some (c - 55)
  else None.

(** The URL encodings of a byte string: a byte may stand for itself, a blank may
    be a plus sign, any byte may be two hexadecimal digits after a percent. *)
Inductive encodes : list Z -> list Z -> Prop :=
| enc_nil : encodes [] []
| enc_plain c s e : c <> 37 -> c <> 43 -> encodes s e -> encodes (c :: s) (c :: e)
| enc_plus s e : encodes s e -> encodes (32 :: s) (43 :: e)
| enc_hex h l vh vl s e :
    hexval h = Some vh -> hexval l = Some vl -> encodes s e ->
    encodes (16 * vh + vl :: s) (37 :: h :: l :: e).

Lemma from_hex_val c v : hexval c = Some v -> from_hex (to_char c) = v /\ 0 <= v < 16.
Proof.
  unfold hexval, from_hex, isdigit, tolower. intros H.
  assert (48 <= c <= 57 /\ v = c - 48 \/ 97 <= c <= 102 /\ v = c - 87 \/ 65 <= c <= 70 /\ v = c - 55)
    as Hc by (revert H; zbool; cbn [andb]; intros [= <-]; lia).
  rewrite (to_char_id c) by lia. clear H.
  destruct Hc as [[Hc ->]|[[Hc ->]|[Hc ->]]];
    zbool; cbn [andb]; try lia; rewrite to_char_id by lia; lia.
Qed.

Lemma nibbles a b : 0 <= a < 16 -> 0 <= b < 16 -> Z.lor (Z.shiftl a 4) b = 16 * a + b.
Proof.
  intros Ha Hb. rewrite Z.shiftl_mul_pow2 by lia. change (2 ^ 4) with 16.
  rewrite <- Z.add_lor_land, Z.mul_comm.
  assert (Z.land (16 * a) b = 0) as ->; [|lia].
  apply Z.bits_inj'. intros n Hn. rewrite Z.land_spec, Z.bits_0.
  change (16 * a) with (2 ^ 4 * a). rewrite Z.mul_comm, <- Z.shiftl_mul_pow2 by lia.
  destruct (Z.lt_ge_cases n 4).
  - by rewrite Z.shiftl_spec_low.
  - replace b with (b mod 2 ^ 4) by (apply Z.mod_small; lia).
    rewrite Z.mod_pow2_bits_high by lia. apply andb_false_r.
Qed.

Lemma decoded_encodes s e : encodes s e -> decoded e = s.
Proof.
  induction 1 as [|c s e H1 H2 _ IH|s e _ IH|h l vh vl s e Hh Hl _ IH]; [done|..]; cbn [decoded].
  - destruct (Z.eqb_spec c 37); [done|]. destruct (Z.eqb_spec c 43); [done|]. by rewrite IH.
  - by rewrite IH.
  - apply from_hex_val in Hh as [-> Hvh]. apply from_hex_val in Hl as [-> Hvl].
    cbn [Z.eqb Pos.eqb]. rewrite nibbles, to_uchar_id by lia. by rewrite IH.
Qed.

Lemma zlen_decoded e : zlen (decoded e) <= zlen e.
Proof.
  enough (forall n e, (length e <= n)%nat -> zlen (decoded e) <= zlen e) by eauto.
  clear e. induction n as [|n IH]; intros [|c e] Hn; cbn [length] in Hn; try lia; [done|done|].
  cbn [decoded]. destruct (c =? 37).
  - destruct e as [|c1 [|c2 e]].
    + done.
    + specialize (IH [c1] ltac:(simpl in *; lia)). rewrite zlen_cons. lia.
    + specialize (IH e ltac:(simpl in *; lia)). rewrite !zlen_cons. lia.
  - specialize (IH e ltac:(lia)). rewrite !zlen_cons. lia.
Qed.

Section Decode.
Context {K : Type} {HK : Kernel K}.

(** A string in memory, split at a position. *)
Definition str_at (pre e : list Z) (tl : mem) : mem := init (pre ++ e) ++ Some 0 :: tl.

Lemma rd_str_at obj pre e tl i (Q : outcome Z -> world K -> Prop) w :
  0 <= i <= zlen e -> Q (Done (nth (Z.to_nat i) e 0)) w ->
  wp (rd obj (str_at pre e tl) (zlen pre + i)) Q w.
Proof.
  intros Hi HQ. eapply wp_rd; [|done]. unfold str_at, znth, zlen in *.
  destruct (Z.ltb_spec (Z.of_nat (length pre) + i) 0); [lia|].
  rewrite Z2Nat.inj_add, Nat2Z.id by lia. unfold mem in *. rewrite init_app, <- app_assoc.
  rewrite lookup_app_r by (rewrite length_init; lia).
  rewrite length_init. replace (length pre + Z.to_nat i - length pre)%nat with (Z.to_nat i) by lia.
  remember (Z.to_nat i) as n eqn:En. assert (n <= length e)%nat as Hn by lia. clear -Hn.
  revert n Hn. induction e as [|c e IH]; intros [|n] Hn; cbn in *; try done; [lia|].
  apply IH. lia.
Qed.

Lemma str_at_shift pre a e tl : str_at pre (a ++ e) tl = str_at (pre ++ a) e tl.
Proof. unfold str_at. by rewrite <- app_assoc. Qed.

Lemma wp_decode_loop tl n (Q : outcome (Z * mem) -> world K -> Prop) w fuel :
  forall e pre ps, (length e < fuel)%nat -> nonzero e -> zlen ps + zlen (decoded e) < n ->
  Q (Done (zlen (ps ++ decoded e), overlay (ps ++ decoded e) (uninit n))) w ->
  wp (loop fuel (decode_iter (str_at pre e tl)) (zlen pre, zlen ps, overlay ps (uninit n))) Q w.
Proof.
  induction fuel as [|fuel IH]; intros e pre ps Hf Hnz Hn HQ; [lia|].
  cbn [loop]. wp_step. unfold decode_iter at 1. wp_step.
  pose proof (zlen_nonneg e). pose proof (zlen_nonneg ps).
  rewrite <- (Z.add_0_r (zlen pre)) at 1. apply rd_str_at; [lia|]. cbn [post].
  destruct e as [|c e].
  { cbn [nth Z.to_nat]. change (0 =? 0) with true. wp_seq.
    cbn [decoded] in HQ. by rewrite app_nil_r in HQ. }
  change (nth (Z.to_nat 0) (c :: e) 0) with c. inversion Hnz as [|?? Hc Hnz']; subst.
  destruct (Z.eqb_spec c 0); [done|]. cbn [length] in Hf.
  assert (Hun : zlen ps + 1 <= n -> zlen ps < zlen (uninit n)).
  { intros ?. rewrite zlen_uninit by lia. lia. }
  assert (Hgo : forall b (a e' : list Z), c :: e = a ++ e' -> (length e' < length (c :: e))%nat ->
    nonzero e' -> decoded (c :: e) = b ++ decoded e' ->
    wp (loop fuel (decode_iter (str_at pre (c :: e) tl))
          (zlen pre + zlen a, zlen ps + zlen b, overlay (ps ++ b) (uninit n))) Q w).
  { intros b a e' Ea Hl Hz Hd. rewrite Ea, str_at_shift. rewrite <- !zlen_app.
    cbn [length] in Hl. apply IH; [lia|done| |].
    - rewrite Hd, zlen_app in Hn. rewrite zlen_app. lia.
    - rewrite Hd, app_assoc in HQ. done. }
  cbn [decoded] in Hn. destruct (Z.eqb_spec c 37) as [->|Hne].
  - assert (Hstay : forall e', e = e' -> decoded (37 :: e) = decoded e' ->
      wp (loop fuel (decode_iter (str_at pre (37 :: e) tl))
            (zlen pre + 1, zlen ps, overlay ps (uninit n))) Q w).
    { intros e' -> Hd. pose proof (Hgo [] [37] e' eq_refl ltac:(simpl; lia) Hnz' Hd) as Hg.
      change (zlen []) with 0 in Hg. by rewrite app_nil_r, Z.add_0_r in Hg. }
    rewrite zlen_cons in *. pose proof (zlen_nonneg e).
    wp_step. apply rd_str_at; [rewrite zlen_cons; lia|]. cbn [post].
    destruct e as [|c1 e].
    { cbn. change (0 =? 0) with true. wp_seq.
      by apply (Hstay []). }
    change (nth (Z.to_nat 1) (37 :: c1 :: e) 0) with c1.
    inversion Hnz' as [|?? Hc1 Hnz'']; subst. destruct (Z.eqb_spec c1 0); [done|].
    wp_step. apply rd_str_at; [rewrite !zlen_cons; pose proof (zlen_nonneg e); lia|]. cbn [post].
    destruct e as [|c2 e].
    { cbn. change (0 =? 0) with true. wp_seq. by apply (Hstay [c1]). }
    change (nth (Z.to_nat 2) (37 :: c1 :: c2 :: e) 0) with c2.
    inversion Hnz'' as [|?? Hc2 Hnz3]; subst. destruct (Z.eqb_spec c2 0); [done|].
    pose proof (zlen_nonneg (decoded e)). rewrite zlen_cons in Hn.
    wp_step. apply wp_wr_overlay; [done|apply Hun; lia|]. cbn [post]. wp_seq.
    replace (zlen pre + 2 + 1) with (zlen pre + 3) by lia.
    apply (Hgo [_] [37; c1; c2] e); [done|simpl; lia|done|done].
  - pose proof (zlen_nonneg (decoded e)). rewrite zlen_cons in Hn.
    destruct (Z.eqb_spec c 43) as [->|Hp].
    + wp_step. apply wp_wr_overlay; [done|apply Hun; lia|]. cbn [post]. wp_seq.
      by apply (Hgo [32] [43] e); [|simpl; lia|..].
    + wp_step. apply wp_wr_overlay; [done|apply Hun; lia|]. cbn [post]. wp_seq.
      apply (Hgo [c] [c] e); [done|simpl; lia|done|]. cbn [decoded].
      destruct (Z.eqb_spec c 37); [done|]. by destruct (Z.eqb_spec c 43).
Qed.

End Decode.

Lemma wp_urlencoding_decode {K} `{Kernel K} e tl (w : world K) r k :
  nonzero e -> kstep (Cmalloc (zlen e + 1)) (kern w) = (r, k) -> ret r <> 0 ->
  wp (urlencoding_decode (str_at [] e tl)) (fun o _ =>
    o = Done (ret r, overlay (decoded e ++ [0]) (uninit (zlen e + 1)))) w.
Proof.
  intros Hnz Hk Hr. unfold urlencoding_decode. pose proof (zlen_nonneg e).
  pose proof (zlen_decoded e). wp_step. eapply wp_cstr; [by apply cstr_of_init|].
  cbn [post app]. wp_step. apply wp_syscall. intros r' k' E. rewrite Hk in E.
  injection E as <- <-. cbn [post]. destruct (Z.eqb_spec (ret r) 0); [done|].
  wp_step. change (0, 0, uninit (zlen e + 1)) with
    (zlen (@nil Z), zlen (@nil Z), overlay [] (uninit (zlen e + 1))).
  apply wp_decode_loop; [|done|change (zlen (@nil Z)) with 0; lia|].
  { unfold str_at. rewrite length_app, length_init. simpl. lia. }
  cbn [post app]. wp_step. apply wp_wr_overlay; [done|rewrite zlen_uninit; lia|].
  cbn [post]. by wp_step.
Qed.

(** C35: decoding any URL-encoded text gives back the text: for every byte string
    and every way of encoding it (plain bytes, plus signs, percent escapes in
    either case) urlencoding_decode returns a block that holds exactly the
    original followed by NUL. *)
Theorem urlencoding_roundtrip {K} `{Kernel K} s e tl (w : world K) r k :
  encodes s e -> nonzero e ->
  kstep (Cmalloc (zlen e + 1)) (kern w) = (r, k) -> ret r <> 0 ->
  fst (urlencoding_decode (init e ++ Some 0 :: tl) w)
  = Done (ret r, overlay (s ++ [0]) (uninit (zlen e + 1))).
Proof.
  intros He Hnz Hk Hr. rewrite <- (decoded_encodes s e He).
  by apply (wp_urlencoding_decode e tl w r k).
Qed.

Lemma urlencoding_roundtrip_witness :
  fst (urlencoding_decode (init (bytes_of "bread+%26+butter%21") ++ [Some 0])
        (World [Resp 64 0 []] 0 []))
  = Done (64, overlay (bytes_of "bread & butter!" ++ [0]) (uninit 20)).
Proof.
  apply (urlencoding_roundtrip (bytes_of "bread & butter!") (bytes_of "bread+%26+butter%21") []
    (World [Resp 64 0 []] 0 []) (Resp 64 0 []) []); [|repeat constructor; discriminate|done|done].
  repeat first [apply enc_nil | apply enc_plus
               | apply (enc_hex 50 54 2 6); [done|done|] | apply (enc_hex 50 49 2 1); [done|done|]
               | apply enc_plain; [done|done|]].
Defined.

(** On every string, well encoded or not, urlencoding_decode terminates and
    stays inside the block of strlen + 1 bytes it allocates: the result is a
    prefix of the block ended by NUL, no longer than the input. *)
Theorem urlencoding_decode_safe {K} `{Kernel K} e tl (w : world K) r k :
  nonzero e -> kstep (Cmalloc (zlen e + 1)) (kern w) = (r, k) -> ret r <> 0 ->
  exists out,
    fst (urlencoding_decode (init e ++ Some 0 :: tl) w)
    = Done (ret r, overlay (out ++ [0]) (uninit (zlen e + 1))) /\ zlen out <= zlen e.
Proof.
  intros Hnz Hk Hr. exists (decoded e). split; [|apply zlen_decoded].
  by apply (wp_urlencoding_decode e tl w r k).
Qed.

Lemma urlencoding_decode_safe_witness :
  exists out,
    fst (urlencoding_decode (init (bytes_of "100%") ++ [Some 0]) (World [Resp 64 0 []] 0 []))
    = Done (64, overlay (out ++ [0]) (uninit 5)) /\ zlen out <= 4.
Proof.
  apply (urlencoding_decode_safe (bytes_of "100%") [] (World [Resp 64 0 []] 0 [])
    (Resp 64 0 []) []); [repeat constructor; discriminate|done|done].
Defined.

(** ** get_line *)

(** A connected socket with the bytes still to be received. *)
Definition sock_kernel : Kernel (list Z) := fun c k =>
  match c, k with
  | Csys "recv" [AI _; AI 1; AI flags], b :: k' =>
      (Resp 1 0 [b], if flags =? MSG_PEEK then k else k')
  | _, _ => (Resp 0 0 [], k)
  end.

Lemma wp_get_line_safe {K} `{Kernel K} fuel sock buf size (w : world K) :
  1 <= size <= zlen buf ->
  wp (get_line fuel sock buf size) (fun o _ => o = Halt HFuel \/
    exists i m, o = Done (i, m) /\ 0 <= i < size /\ zlen m = zlen buf) w.
Proof.
  intros Hs. unfold get_line.
  apply (wp_loop (fun '(i, c, m) _ => 0 <= i < size /\ zlen m = zlen buf)); [by left| |lia].
  intros [[i c] m] w' [Hi Hm]. unfold get_line_iter.
  destruct ((i <? size - 1) && negb (c =? 10)) eqn:Ec.
  2: { wp_step. apply wp_wr; [lia|]. cbn [post]. wp_step. right. do 2 eexists.
       split; [done|]. by rewrite zlen_zset. }
  apply andb_true_iff in Ec as [Ec _]. apply Z.ltb_lt in Ec.
  wp_step. unfold recv at 1. wp_seq. destruct (0 <? ret r).
  2: { wp_step. right. do 2 eexists. split; [done|]. split; [lia|done]. }
  destruct (nth 0 (out r) c =? 13).
  - wp_step. unfold recv at 1. wp_seq. destruct ((0 <? ret r0) && _).
    + wp_step. unfold recv. wp_seq. done.
    + wp_step. done.
  - wp_step. apply wp_wr; [lia|]. cbn [post]. wp_step. rewrite zlen_zset. split; [lia|done].
Qed.

Lemma wp_recv_sock sock flags b k (Q : outcome (Z * list Z) -> world (list Z) -> Prop) w :
  kern w = b :: k ->
  (forall w', kern w' = (if flags =? MSG_PEEK then b :: k else k) -> Q (Done (1, [b])) w') ->
  wp (@recv _ sock_kernel sock flags) Q w.
Proof.
  intros Hk HQ. unfold recv. wp_step. wp_step. unfold kstep, sock_kernel in Hk0.
  rewrite Hk in Hk0. injection Hk0 as <- <-. wp_step. by apply HQ.
Qed.

Definition eol (crnl : bool) : list Z := if crnl then [13; 10] else [10].

(** The loop on a socket that holds the rest [l] of a line: [ps] is stored. *)
Lemma get_line_loop sock size buf crnl rest l :
  Forall (fun b => b <> 13 /\ b <> 10) l ->
  forall ps c fuel (w : world (list Z)), c <> 10 ->
  zlen ps + zlen l < size - 1 -> size <= zlen buf -> (length l + 1 < fuel)%nat ->
  kern w = l ++ eol crnl ++ rest ->
  wp (loop fuel (@get_line_iter _ sock_kernel sock size) (zlen ps, c, overlay ps buf))
    (fun o w' => kern w' = rest /\
       o = let line := ps ++ l ++ (if crnl then [] else [10]) in
           Done (zlen line, overlay (line ++ [0]) buf)) w.
Proof.
  assert (Hend : forall ps c fuel (w : world (list Z)), (0 < fuel)%nat ->
    ~ (zlen ps < size - 1 /\ c <> 10) -> zlen ps < zlen buf -> kern w = rest ->
    wp (loop fuel (@get_line_iter _ sock_kernel sock size) (zlen ps, c, overlay ps buf))
      (fun o w' => kern w' = rest /\ o = Done (zlen ps, overlay (ps ++ [0]) buf)) w).
  { intros ps c [|fuel] w Hf Hc Hb Hk; [lia|]. cbn [loop]. wp_step. unfold get_line_iter.
    destruct (Z.ltb_spec (zlen ps) (size - 1)), (Z.eqb_spec c 10); try (exfalso; tauto);
      cbn [andb negb]; wp_step; (apply wp_wr_overlay; [done|done|]); cbn [post]; by wp_seq. }
  induction 1 as [|b l [Hb1 Hb2] _ IH]; intros ps c [|fuel] w Hc Hs Hbuf Hf Hk;
    cbn [length] in Hf; try lia; cbn [loop]; wp_step; unfold get_line_iter at 1;
    pose proof (zlen_nonneg ps).
  - rewrite zlen_nil in Hs. destruct (Z.ltb_spec (zlen ps) (size - 1)); [|lia].
    destruct (Z.eqb_spec c 10); [done|]. cbn [negb andb app].
    destruct crnl; cbn [eol app] in Hk; wp_step; (apply (wp_recv_sock _ _ _ _ _ _ Hk));
      intros w' Hk'; cbn [post]; change (0 <? 1) with true; cbn [nth]; cbv iota.
    + change (13 =? 13) with true. cbv iota. wp_step. apply (wp_recv_sock _ _ _ _ _ _ Hk').
      intros w'' Hk''. cbn [post nth]. change ((0 <? 1) && _) with true. cbv iota.
      wp_step. apply (wp_recv_sock _ _ _ _ _ _ Hk''). intros w3 Hk3. cbn [post nth].
      wp_seq. rewrite app_nil_r. apply Hend; [lia|intros [_ ?]; done|lia|done].
    + change (10 =? 13) with false. cbv iota. wp_step. apply wp_wr_overlay; [done|lia|].
      cbn [post]. wp_seq. rewrite <- zlen_snoc with (x := 10).
      apply Hend; [lia|intros [_ ?]; done|rewrite zlen_snoc; lia|done].
  - rewrite zlen_cons in Hs. pose proof (zlen_nonneg l).
    destruct (Z.ltb_spec (zlen ps) (size - 1)); [|lia].
    destruct (Z.eqb_spec c 10); [done|]. cbn [negb andb]. cbn [app] in Hk.
    wp_step. apply (wp_recv_sock _ _ _ _ _ _ Hk). intros w' Hk'. cbn [post nth].
    change (0 <? 1) with true. cbv iota. destruct (Z.eqb_spec b 13); [done|].
    wp_step. apply wp_wr_overlay; [done|lia|]. cbn [post]. wp_seq.
    rewrite <- zlen_snoc with (x := b).
    eapply wp_mono; [|apply IH; [done|rewrite zlen_snoc; lia|done|lia|done]].
    intros o w'' [Hr ->]. split; [done|]. cbn zeta. by rewrite <- !app_assoc.
Qed.

(** get_line stays inside its buffer whatever the peer sends, and when it
    returns it returns the number of characters stored, less than [size]. *)
Theorem get_line_bounds {K} `{Kernel K} fuel sock buf size (w : world K) :
  1 <= size <= zlen buf ->
  fst (get_line fuel sock buf size w) = Halt HFuel \/
  exists i m, fst (get_line fuel sock buf size w) = Done (i, m) /\
    0 <= i < size /\ zlen m = zlen buf.
Proof. intros. by apply wp_get_line_safe. Qed.

Lemma get_line_bounds_witness :
  fst (get_line 5 3 (uninit 2) 2 (World ([] : script) 0 [])) = Halt HFuel \/
  exists i m, fst (get_line 5 3 (uninit 2) 2 (World ([] : script) 0 [])) = Done (i, m) /\
    0 <= i < 2 /\ zlen m = 2.
Proof. apply (get_line_bounds 5 3 (uninit 2) 2 (World ([] : script) 0 [])). by vm_compute. Defined.

(** From a socket that holds a line ended by CR LF or by LF, get_line takes
    exactly that line: its characters are in the buffer, NUL-terminated, their
    number is returned, and the bytes after the line stay in the socket.  A CR
    LF is dropped; a bare LF is kept. *)
Theorem get_line_takes_line sock size buf crnl rest l fuel (w : world (list Z)) :
  Forall (fun b => b <> 13 /\ b <> 10) l -> zlen l < size - 1 -> size <= zlen buf ->
  (length l + 1 < fuel)%nat -> kern w = l ++ eol crnl ++ rest ->
  exists w',
    @get_line _ sock_kernel fuel sock buf size w
    = (Done (zlen (l ++ (if crnl then [] else [10])),
             overlay ((l ++ (if crnl then [] else [10])) ++ [0]) buf), w') /\
    kern w' = rest.
Proof.
  intros Hl Hs Hb Hf Hk.
  destruct (wp_run _ _ _ (get_line_loop sock size buf crnl rest l Hl [] 0 fuel w
    ltac:(done) Hs Hb Hf Hk)) as (o & w' & E & Hr & ->).
  by exists w'.
Qed.

Lemma get_line_takes_line_witness :
  exists w',
    @get_line _ sock_kernel 40 3 (uninit 64) 64
      (World (bytes_of "GET / HTTP/1.0" ++ [13; 10] ++ bytes_of "Host: x") 0 [])
    = (Done (zlen (bytes_of "GET / HTTP/1.0" ++ []),
             overlay ((bytes_of "GET / HTTP/1.0" ++ []) ++ [0]) (uninit 64)), w') /\
    kern w' = bytes_of "Host: x".
Proof.
  apply (get_line_takes_line 3 64 (uninit 64) true (bytes_of "Host: x")
    (bytes_of "GET / HTTP/1.0") 40
    (World (bytes_of "GET / HTTP/1.0" ++ [13; 10] ++ bytes_of "Host: x") 0 [])).
  - repeat constructor; discriminate.
  - by vm_compute.
  - vm_compute. discriminate.
  - vm_compute. lia.
  - reflexivity.
Defined.

(** ** Serving a client *)

(** The codes of [transfer_file_contents] and what they mean for the file. *)
Definition transferred (path : string) (client_socket r : Z) (tr : list event) : Prop :=
  let opened fd := exists x, EvCall (Copen path O_RDONLY 0) x ∈ tr /\ ret x = fd /\ 0 <= fd in
  match r with
  | 0 => exists fd x n y, opened fd /\
      EvCall (Csys "sendfile" [AI client_socket; AI fd; AI n]) x ∈ tr /\
      0 <= to_int (ret x) /\ 0 < n /\ EvCall (Cclose fd) y ∈ tr
  | 5 => exists fd, opened fd /\ forall y fd', (EvCall (Cclose fd') y ∉ tr)
  | 1 | 2 | 3 | 4 => forall fd x y n, (EvCall (Cclose fd) y ∉ tr) /\
      (EvCall (Csys "sendfile" [AI client_socket; AI fd; AI n]) x ∉ tr)
  | _ => False
  end.

Ltac not_in := intros; repeat (rewrite not_elem_of_cons; split; [done|]); apply not_elem_of_nil.

Lemma wp_transfer {K} `{Kernel K} path cs (w : world K) :
  wp (transfer_file_contents path cs)
     (fun o w' => exists r tr, o = Done r /\ trace w' = trace w ++ tr /\
        transferred path cs r tr) w.
Proof.
  unfold transfer_file_contents. wp_seq. wp_step.
  { wp_seq. eexists 1, _. split; [done|]. split; [cbn [after trace]; by rewrite <- !app_assoc|].
    cbn. split; not_in. }
  wp_step.
  { wp_seq. eexists 2, _. split; [done|]. split; [done|]. cbn. split; not_in. }
  wp_step.
  { wp_seq. eexists 3, _. split; [done|]. split; [done|]. cbn. split; not_in. }
  wp_seq. wp_step.
  { wp_seq. eexists 4, _. split; [done|]. split; [cbn [after trace]; by rewrite <- !app_assoc|].
    cbn. split; not_in. }
  apply Z.ltb_ge in Hb2. apply Z.leb_gt in Hb1. wp_seq. wp_step.
  - wp_seq. eexists 5, _. split; [done|]. split; [cbn [after trace]; by rewrite <- !app_assoc|].
    cbn. exists (ret r0). split; [|not_in]. exists r0. set_solver.
  - apply Z.ltb_ge in Hb3. wp_seq. eexists 0, _. split; [done|].
    split; [cbn [after trace]; by rewrite <- !app_assoc|]. cbn.
    exists (ret r0), r1, (nth 1 (out r) 0), r2. split_and!; [exists r0; set_solver|set_solver|done|done|set_solver].
Qed.

(** Transfer_file_contents returns 0 exactly when it opened the file, sendfile
    accepted it and the descriptor was closed again; codes 1 to 4 mean nothing
    was opened or sent; on code 5 (sendfile failed) the file stays open: the
    descriptor is leaked. *)
Theorem transfer_file_outcome {K} `{Kernel K} path cs (w : world K) :
  exists r w' tr,
    transfer_file_contents path cs w = (Done r, w') /\ trace w' = trace w ++ tr /\
    transferred path cs r tr.
Proof.
  destruct (wp_run _ _ _ (wp_transfer path cs w)) as (o & w' & E & r & tr & -> & H').
  by exists r, w', tr.
Qed.

Definition lookup_log : string := cat ["Lookup server log for details."; nl].

Lemma fmt_d_digit z : 0 <= z < 10 -> strlen (fmt_d z) = 1.
Proof.
  intros. assert (z = 0 \/ z = 1 \/ z = 2 \/ z = 3 \/ z = 4 \/ z = 5 \/ z = 6 \/ z = 7 \/ z = 8 \/ z = 9)
    as Hz by lia.
  repeat destruct Hz as [-> | Hz]; subst; reflexivity.
Qed.

(** Evaluate the lengths of all strings but [x]. *)
Ltac strlen_consts x :=
  repeat match goal with
  | |- context [strlen ?s] =>
      lazymatch s with
      | x => fail
      | _ => let v := eval vm_compute in (strlen s) in change (strlen s) with v
      end
  end.

(** The longest message, with a program name of 127 characters, and its suffix
    fit the 512 bytes of [msg]. *)
Lemma failure_msg_fits prg thrdnum r :
  strlen prg <= 127 -> 0 <= thrdnum < 10 -> 0 <= r < 6 ->
  strlen (failure_msg prg thrdnum r) + strlen lookup_log < 512.
Proof.
  intros Hp Ht Hr. pose proof (fmt_d_digit thrdnum Ht) as Hd.
  assert (r = 0 \/ r = 1 \/ r = 2 \/ r = 3 \/ r = 4 \/ r = 5) as Hz by lia.
  change (strlen lookup_log) with 31. unfold failure_msg, FILE_TO_TRANSFER.
  repeat destruct Hz as [-> | Hz]; subst; cbn [cat foldr];
    rewrite !strlen_app, Hd; strlen_consts prg; lia.
Qed.

Section Client.
Context {K : Type} {HK : Kernel K}.

(** The events of serving one client. *)
Definition served (prg : string) (cs thrdnum : Z) (o : outcome unit) (tr : list event) : Prop :=
  exists r, 0 <= r < 6 /\
    match o with
    | Done _ => r = 0 \/ exists x, 0 <= ret x /\
        let msg := failure_msg prg thrdnum r +:+ lookup_log in
        EvCall (Csys "send" [AI cs; AS msg; AI (strlen msg); AI 0]) x ∈ tr
    | Halt h => r <> 0 /\ exists e, h = HExit e
    end.

Lemma transferred_range path cs r tr : transferred path cs r tr -> 0 <= r < 6.
Proof.
  unfold transferred. intros H. destruct r as [|p|p]; [lia| |done].
  do 3 (destruct p as [p|p|]; try done); lia.
Qed.

Lemma wp_handle_client prg cs thrdnum (w : world K) :
  strlen prg <= 127 -> 0 <= thrdnum < THREADS_COUNT ->
  wp (handle_client prg cs thrdnum)
     (fun o w' => exists tr, trace w' = trace w ++ tr /\ served prg cs thrdnum o tr) w.
Proof.
  intros Hp Ht. unfold handle_client. wp_step. eapply wp_mono; [|apply wp_transfer].
  intros o w' (r & tr & -> & Htr & Hr). apply transferred_range in Hr. cbn [post].
  destruct (Z.eqb_spec r 0) as [->|Hr0].
  { wp_step. exists tr. split; [done|]. exists 0. split; [lia|by left]. }
  pose proof (failure_msg_fits prg thrdnum r Hp Ht Hr) as Hfit.
  rewrite snprintf_all by (change (strlen lookup_log) with 31 in Hfit; lia).
  unfold strncat. rewrite substring_all by (vm_compute; lia). fold lookup_log.
  destruct (Z.leb_spec 512 (strlen (failure_msg prg thrdnum r +:+ lookup_log))) as [Hb|_].
  { rewrite strlen_app in Hb. lia. }
  wp_seq. wp_step.
  - unfold fatal_error. wp_seq. eexists. split.
    { cbn [after trace]. rewrite Htr, <- !app_assoc. reflexivity. }
    exists r. split; [done|]. split; [done|]. by eexists.
  - wp_step. apply Z.ltb_ge in Hb. eexists. split.
    { cbn [after trace]. rewrite Htr, <- app_assoc. reflexivity. }
    exists r. split; [done|]. right. exists r0. split; [done|]. set_solver.
Qed.

End Client.

(** Handle_client never overflows its 512-byte message: for any program name
    strncpy can leave in [prg_name] and any of the ten threads, either the file
    was transferred, or the client is sent the complete, untruncated error
    message and its suffix, or the process ends because that send failed. *)
Theorem handle_client_safe {K} `{Kernel K} argv0 cs thrdnum (w : world K) :
  0 <= thrdnum < THREADS_COUNT ->
  exists o w' tr,
    handle_client (prg_name_of argv0) cs thrdnum w = (o, w') /\ trace w' = trace w ++ tr /\
    served (prg_name_of argv0) cs thrdnum o tr.
Proof.
  intros Ht. assert (Hp : strlen (prg_name_of argv0) <= 127) by apply strlen_substring.
  destruct (wp_run _ _ _ (wp_handle_client (prg_name_of argv0) cs thrdnum w Hp Ht))
    as (o & w' & E & tr & H').
  by exists o, w', tr.
Qed.

Lemma handle_client_safe_witness :
  exists o w' tr,
    handle_client (prg_name_of "./svr_pre_mt") 4 7 (World ([] : script) 0 []) = (o, w') /\
    trace w' = [] ++ tr /\ served (prg_name_of "./svr_pre_mt") 4 7 o tr.
Proof.
  apply (handle_client_safe "./svr_pre_mt" 4 7 (World ([] : script) 0 [])).
  unfold THREADS_COUNT. lia.
Defined.

(** ** The pool of threads

    The ten threads run [enter_server_loop] concurrently.  A step is one action
    of one thread; the mutex and the table of open client sockets are shared. *)

Inductive pc :=
| AtLock
| AtAccept
| AtUnlock (client_socket : Z)
| AtServe (client_socket : Z)
| AtUnlockFailed
| AtFatal.

Record pool := Pool {
  mlock : option nat;
  pcs : list pc;
  client_sockets : list Z
}.

Definition pool_init : pool := Pool None (replicate (Z.to_nat THREADS_COUNT) AtLock) [].

(** [pool_step s s']: some thread [i] moves.  accept returns a descriptor that
    is not open yet, or fails; serving a client ends with the socket still open, or in
    fatal_error when a send fails.  fatal_error exits, which is the end of all threads. *)
Inductive pool_step : pool -> pool -> Prop :=
| step_lock i ps cs :
    ps !! i = Some AtLock ->
    pool_step (Pool None ps cs) (Pool (Some i) (<[i := AtAccept]> ps) cs)
| step_accept m i fd ps cs :
    ps !! i = Some AtAccept -> fd ∉ cs ->
    pool_step (Pool m ps cs) (Pool m (<[i := AtUnlock fd]> ps) (fd :: cs))
| step_unlock m i fd ps cs :
    ps !! i = Some (AtUnlock fd) ->
    pool_step (Pool m ps cs) (Pool None (<[i := AtServe fd]> ps) cs)
| step_serve m i fd ps cs :
    ps !! i = Some (AtServe fd) ->
    pool_step (Pool m ps cs) (Pool m (<[i := AtLock]> ps) cs)
| step_accept_failed m i ps cs :
    ps !! i = Some AtAccept ->
    pool_step (Pool m ps cs) (Pool m (<[i := AtUnlockFailed]> ps) cs)
| step_unlock_failed m i ps cs :
    ps !! i = Some AtUnlockFailed ->
    pool_step (Pool m ps cs) (Pool None (<[i := AtFatal]> ps) cs)
| step_serve_failed m i fd ps cs :
    ps !! i = Some (AtServe fd) ->
    pool_step (Pool m ps cs) (Pool m (<[i := AtFatal]> ps) cs)
| step_fatal m i ps cs :
    ps !! i = Some AtFatal -> pool_step (Pool m ps cs) (Pool m [] []).

Definition holds_mlock (p : pc) : Prop :=
  match p with AtAccept | AtUnlock _ | AtUnlockFailed => True | _ => False end.

(** The client a thread has accepted and is about to serve or serving. *)
Definition client_of (p : pc) : option Z :=
  match p with AtUnlock fd | AtServe fd => Some fd | _ => None end.

(** The mutex is owned by exactly the thread that is between lock and unlock,
    and no two threads have the same client. *)
Definition pool_inv (s : pool) : Prop :=
  (forall i p, pcs s !! i = Some p -> holds_mlock p -> mlock s = Some i) /\
  (forall i p fd, pcs s !! i = Some p -> client_of p = Some fd -> fd ∈ client_sockets s) /\
  (forall i j p q fd, pcs s !! i = Some p -> pcs s !! j = Some q ->
     client_of p = Some fd -> client_of q = Some fd -> i = j).

(** A thread's program counter after thread [i] moved to [q]. *)
Lemma insert_pc (ps : list pc) i q j p :
  <[i := q]> ps !! j = Some p -> (i = j /\ p = q) \/ (i <> j /\ ps !! j = Some p).
Proof.
  intros Hj. destruct (decide (i = j)) as [->|Hne].
  - left. apply list_lookup_insert_Some in Hj as [(? & ? & ?)|(? & ?)]; done.
  - right. by rewrite list_lookup_insert_ne in Hj.
Qed.

Ltac pool_cases :=
  repeat match goal with
  | H : <[_ := _]> _ !! _ = Some _ |- _ => apply insert_pc in H as [[-> ->]|[? H]]
  end; cbn [client_of holds_mlock] in *; simplify_eq; try done.

(** The cases of [pool_step_inv]: a thread that did not move keeps what it had, and the
    thread that moved had the mutex, or a client, before. *)
Ltac pool_solve Hm Hc Hu :=
  intros; pool_cases; first
    [ by eapply Hm | by eapply Hc | by eapply Hu
    | set_solver
    | match goal with
      | Hj : _ !! ?j = Some ?p, Hp : holds_mlock ?p, Hi : _ !! ?i = Some ?q |- _ =>
          pose proof (Hm j p Hj Hp); pose proof (Hm i q Hi I); congruence
      | Hj : _ !! _ = Some ?p, Hp : client_of ?p = Some _ |- _ =>
          pose proof (Hc _ _ _ Hj Hp); set_solver
      end ].

Lemma pool_step_inv s s' : pool_step s s' -> pool_inv s -> pool_inv s'.
Proof.
  intros Hst (Hm & Hc & Hu).
  destruct Hst; unfold pool_inv in *; cbn [mlock pcs client_sockets] in *; split_and!;
    pool_solve Hm Hc Hu.
Qed.

Lemma pool_init_inv : pool_inv pool_init.
Proof.
  split_and!; intros; repeat match goal with
    | H : pcs pool_init !! _ = Some _ |- _ => apply lookup_replicate in H as [-> _]
    end; done.
Qed.

Lemma pool_reachable_inv s : rtc pool_step pool_init s -> pool_inv s.
Proof.
  intros Hr. enough (forall a, rtc pool_step a s -> pool_inv a -> pool_inv s)
    by eauto using pool_init_inv.
  clear Hr. induction 1; eauto using pool_step_inv.
Qed.

(** C36: in every interleaving of the ten threads, whether or not accept and send
    fail, at most one of them is in accept, the one that holds the mutex, and no
    client is served by two threads. *)
Theorem pool_mutual_exclusion s :
  rtc pool_step pool_init s ->
  (forall i j, pcs s !! i = Some AtAccept -> pcs s !! j = Some AtAccept ->
     i = j /\ mlock s = Some i) /\
  (forall i j fd, pcs s !! i = Some (AtServe fd) -> pcs s !! j = Some (AtServe fd) -> i = j).
Proof.
  intros Hr. destruct (pool_reachable_inv s Hr) as (Hm & _ & Hu). split.
  - intros i j Hi Hj. pose proof (Hm i _ Hi I) as H1. pose proof (Hm j _ Hj I) as H2.
    rewrite H1 in H2. injection H2 as ->. done.
  - intros i j fd Hi Hj. by eapply Hu.
Qed.

Lemma pool_mutual_exclusion_witness :
  let s := Pool (Some 2%nat) (<[2%nat := AtAccept]> (pcs pool_init)) [] in
  (forall i j, pcs s !! i = Some AtAccept -> pcs s !! j = Some AtAccept ->
     i = j /\ mlock s = Some i) /\
  (forall i j fd, pcs s !! i = Some (AtServe fd) -> pcs s !! j = Some (AtServe fd) -> i = j).
Proof.
  apply (pool_mutual_exclusion (Pool (Some 2%nat) (<[2%nat := AtAccept]> (pcs pool_init)) [])).
  eapply rtc_l; [|apply rtc_refl]. by apply (step_lock 2).
Defined.

(** The calls a thread makes after it left the critical section. *)
Definition outside_event (e : event) : Prop :=
  match e with
  | EvCall (Csys fn _) _ =>
      fn <> "pthread_mutex_lock" /\ fn <> "pthread_mutex_unlock" /\ fn <> "accept"
  | _ => True
  end.

(** A descriptor is closed only if this trace opened it. *)
Definition closes_own (tr : list event) : Prop :=
  forall fd r, EvCall (Cclose fd) r ∈ tr ->
    exists x, EvCall (Copen FILE_TO_TRANSFER O_RDONLY 0) x ∈ tr /\ ret x = fd.

Section TurnTrace.
Context {K : Type} {HK : Kernel K}.

Lemma wp_transfer_events cs (w : world K) :
  wp (transfer_file_contents FILE_TO_TRANSFER cs)
     (fun o w' => exists r tr, o = Done r /\ trace w' = trace w ++ tr /\
        Forall outside_event tr /\ closes_own tr) w.
Proof.
  unfold transfer_file_contents. wp_go; do 2 eexists; (split; [done|]);
    (split; [cbn [after trace]; by rewrite <- ?app_assoc|]);
    (split; [repeat constructor; done|]); intros fd x Hx; set_solver.
Qed.

Lemma wp_server_turn prg sock thrdnum (w : world K) :
  wp (server_turn prg sock thrdnum)
     (fun o w' => exists l a u tr,
        trace w' = trace w ++ EvCall (Csys "pthread_mutex_lock" [AS "mlock"]) l
          :: EvCall (Csys "accept" [AI sock]) a
          :: EvCall (Csys "pthread_mutex_unlock" [AS "mlock"]) u :: tr /\
        Forall outside_event tr /\ closes_own tr /\
        (ret a = -1 -> exists e, o = Halt (HExit e))) w.
Proof.
  unfold server_turn. wp_seq. wp_step.
  - unfold fatal_error. wp_seq. eexists r, r0, r1, _. split.
    { cbn [after trace]. rewrite <- !app_assoc. reflexivity. }
    split; [by repeat constructor|]. split; [intros fd x Hx; set_solver|]. by eexists.
  - apply Z.eqb_neq in Hb. wp_seq. unfold handle_client. wp_step.
    eapply wp_mono; [|apply wp_transfer_events].
    intros o w' (c & tr & -> & Htr & Hout & Hcl). cbn [post].
    cbn [after trace] in Htr. rewrite <- !app_assoc in Htr. cbn [app] in Htr.
    assert (Hext : forall e, outside_event e -> (forall fd r, e <> EvCall (Cclose fd) r) ->
      forall tr0, Forall outside_event tr0 -> closes_own tr0 ->
      Forall outside_event (tr0 ++ [e]) /\ closes_own (tr0 ++ [e])).
    { intros e He Hne tr0 H1 H2. split; [apply Forall_app; split; [done|by constructor]|].
      intros fd x Hx. apply elem_of_app in Hx as [Hx|Hx]; [|set_solver].
      destruct (H2 fd x Hx) as (y & Hy & <-). exists y. set_solver. }
    wp_step; [wp_step; exists r, r0, r1, tr; split_and!; [exact Htr|done|done|intros ?; congruence]|].
    wp_step. unfold strncat. wp_step; [wp_step; exists r, r0, r1, tr; split_and!; [exact Htr|done|done|intros ?; congruence]|].
    wp_seq. destruct (Hext (EvCall (Csys "send" [AI (ret r0);
      AS (snprintf 512 (failure_msg prg thrdnum c) +:+
          String.substring 0 (Z.to_nat 511) (cat ["Lookup server log for details."; nl]));
      AI (strlen (snprintf 512 (failure_msg prg thrdnum c) +:+
          String.substring 0 (Z.to_nat 511) (cat ["Lookup server log for details."; nl])));
      AI 0]) r2) ltac:(done) ltac:(done) tr Hout Hcl) as [H1 H2].
    wp_step.
    + unfold fatal_error. wp_seq. eexists r, r0, r1, _. split.
      { cbn [after trace]. rewrite Htr, <- !app_assoc. reflexivity. }
      match goal with |- context [EvPerror ?m ?e] =>
        destruct (Hext (EvPerror m e) ltac:(done) ltac:(done) _ H1 H2) as [H3 H4] end.
      rewrite <- app_assoc in H3, H4. split_and!; [exact H3|exact H4|congruence].
    + wp_step. eexists r, r0, r1, _. split.
      { cbn [after trace]. rewrite Htr, <- !app_assoc. cbn [app]. reflexivity. }
      split_and!; [exact H1|exact H2|congruence].
Qed.

End TurnTrace.

(** A turn of a server thread is the critical section the pool model assumes:
    lock, accept, unlock, in this order, and no further mutex or accept call
    while the client is served.  It closes no descriptor it did not open itself,
    so the socket accept returned is never closed, against the comment above
    enter_server_loop; a failed accept ends the process. *)
Theorem server_turn_protocol {K} `{Kernel K} prg sock thrdnum (w : world K) :
  exists o w' l a u tr,
    server_turn prg sock thrdnum w = (o, w') /\
    trace w' = trace w ++ EvCall (Csys "pthread_mutex_lock" [AS "mlock"]) l
      :: EvCall (Csys "accept" [AI sock]) a
      :: EvCall (Csys "pthread_mutex_unlock" [AS "mlock"]) u :: tr /\
    Forall outside_event tr /\ closes_own tr /\
    (ret a = -1 -> exists e, o = Halt (HExit e)).
Proof.
  destruct (wp_run _ _ _ (wp_server_turn prg sock thrdnum w))
    as (o & w' & E & l & a & u & tr & H').
  by exists o, w', l, a, u, tr.
Qed.

Lemma server_turn_protocol_witness :
  exists o w' l a u tr,
    server_turn "svr" 3 0 (World [Resp 0 0 []; Resp 5 0 []] 0 []) = (o, w') /\
    trace w' = [] ++ EvCall (Csys "pthread_mutex_lock" [AS "mlock"]) l
      :: EvCall (Csys "accept" [AI 3]) a
      :: EvCall (Csys "pthread_mutex_unlock" [AS "mlock"]) u :: tr /\
    Forall outside_event tr /\ closes_own tr /\
    (ret a = -1 -> exists e, o = Halt (HExit e)).
Proof. exact (server_turn_protocol "svr" 3 0 (World [Resp 0 0 []; Resp 5 0 []] 0 [])). Defined.
