(* ===== verification/SelectServer.v ===== *)
(** src/ipc/net_sockets/inet_domain/beej_newer/select_svr_chat/selectserver.c: the
    chat server.  One thread multiplexes the listener and all clients with
    select; what one client sends is sent to every other. *)
From S2P Require Import Prelude CMonad CLib Common Restart.

Definition PORT : string := "9034".
Definition VERBOSE : Z := 1.
Definition AF_INET : Z := 2.
Definition SOCK_STREAM : Z := 1.

(** [get_in_addr(sa)]: the bytes of a socket address from its IP address on. *)
Definition get_in_addr (sa : list Z) : list Z :=
  if nth 0 sa 0 + 256 * nth 1 sa 0 =? AF_INET then drop 4 sa else drop 8 sa.

(** The candidates getaddrinfo stores: family, type and protocol of each. *)
Fixpoint addrinfos (l : list Z) : list (Z * Z * Z) :=
  match l with
  | f :: t :: p :: l' => (f, t, p) :: addrinfos l'
  | _ => []
  end.

Section Code.
Context {K : Type} {HK : Kernel K}.
(** The texts the resolver library gives: [gai_strerror], [inet_ntop], and the
    address printed before bind. *)
Context (gai_strerror : Z -> string) (inet_ntop : list Z -> string) (in_addr_x : string).

Definition VP (verbose : Z) (txt : string) : C K unit :=
  when (negb (verbose =? 0)) (printf txt).

Fixpoint hexdump_bytes (srcbuf : list Z) : C K unit :=
  match srcbuf with
  | [] => mret tt
  | b :: l => printf (text_of (fmt_0wx 2 b) +:+ " ");; hexdump_bytes l
  end.

Definition hexdump (srcbuf : list Z) : C K unit :=
  hexdump_bytes srcbuf;; printf nl.

(** [FD_SET(fd, &set)]: outside the FD_SETSIZE bits it is a stray write. *)
Definition FD_SET (fd : Z) (set : gset Z) : C K (gset Z) :=
  if (fd <? 0) || (FD_SETSIZE <=? fd) then undefined (UB_bounds "fd_set" fd)
  else mret ({[fd]} ∪ set).

(** The loop over the candidates: the bound listener, if there is one. *)
Fixpoint bind_first (ai : list (Z * Z * Z)) : C K (option Z) :=
  match ai with
  | [] => mret None
  | (fam, ty, proto) :: ai' =>
      VP VERBOSE (cat ["Issuing socket() syscall now..."; nl]);;
      listener ← sys "socket" [AI fam; AI ty; AI proto];
      if listener <? 0 then bind_first ai'
      else
        sys "setsockopt" [AI listener; AS "SO_REUSEADDR"; AI 1];;
        VP VERBOSE (cat ["Issuing bind() syscall now: ip addr "; in_addr_x; " port "; PORT;
                         "..."; nl]);;
        b ← sys "bind" [AI listener];
        if b <? 0 then syscall (Cclose listener);; bind_first ai'
        else mret (Some listener)
  end.

(** From the start of main to the main loop: the listener. *)
Definition setup : C K Z :=
  VP VERBOSE (cat ["Issuing getaddrinfo() syscall now..."; nl]);;
  g ← syscall (Csys "getaddrinfo" [AS PORT; AI AF_INET; AI SOCK_STREAM]);
  if negb (ret g =? 0) then
    fprintf stderr (cat ["selectserver: "; gai_strerror (ret g); nl]);; exit 1
  else
    l ← bind_first (addrinfos (out g));
    match l with
    | None => fprintf stderr (cat ["selectserver: failed to bind"; nl]);; exit 2
    | Some listener =>
        sys "freeaddrinfo" [];;
        r ← sys "listen" [AI listener; AI 10];
        if r =? -1 then perror "listen";; exit 3 else mret listener
    end.

(** [master] and [fdmax]. *)
Definition st := (gset Z * Z)%type.

Definition new_connection (listener : Z) (s : st) : C K st :=
  let '(master, fdmax) := s in
  a ← syscall (Csys "accept" [AI listener]);
  let newfd := ret a in
  if newfd =? -1 then perror "accept";; mret (master, fdmax)
  else
    master ← FD_SET newfd master;
    let fdmax := if fdmax <? newfd then newfd else fdmax in
    printf (cat ["selectserver: +++ new connection from "; inet_ntop (get_in_addr (out a));
                 " on socket "; fmt_d newfd; nl]);;
    mret (master, fdmax).

Fixpoint print_chars (buf : list Z) : C K unit :=
  match buf with
  | [] => mret tt
  | b :: l => printf (chr b +:+ " ");; print_chars l
  end.

(** [for (j = 0; j <= fdmax; j++)]: send [buf] to every member but two. *)
Definition broadcast (master : gset Z) (fdmax listener i : Z) (buf : list Z) : C K unit :=
  loop (S (Z.to_nat (fdmax + 1))) (fun j =>
    if j <=? fdmax then
      (if bool_decide (j ∈ master) && (negb (j =? listener) && negb (j =? i)) then
         r ← sys "send" [AI j; AB buf; AI 0];
         (if r =? -1 then perror "send" else mret tt)
       else mret tt);;
      mret (inl (j + 1))
    else mret (inr tt)) 0.

Definition client_data (listener i : Z) (s : st) : C K st :=
  let '(master, fdmax) := s in
  VP VERBOSE (cat ["Issue recv() (on read fd "; fmt_d i; ")..."; nl]);;
  r ← syscall (Csys "recv" [AI i; AI 256; AI 0]);
  let nbytes := ret r in
  if nbytes <=? 0 then
    (if nbytes =? 0 then printf (cat ["selectserver: socket "; fmt_d i; " hung up"; nl])
     else perror "recv");;
    syscall (Cclose i);;
    mret (master ∖ {[i]}, fdmax)
  else
    let buf := ztake nbytes (out r) in
    VP VERBOSE (cat ["Got data, broadcast it to all ..."; nl]);;
    printf (cat ["Data ("; fmt_d nbytes; " bytes):In char::"; nl]);;
    print_chars buf;;
    printf (cat [nl; "In hex::"; nl]);;
    hexdump buf;;
    broadcast master fdmax listener i buf;;
    mret (master, fdmax).

(** One descriptor of the scan, and the scan up to the current [fdmax]. *)
Definition scan_iter (listener : Z) (read_fds : gset Z) (pos : Z * st) : C K ((Z * st) + st) :=
  let '(i, s) := pos in
  if i <=? snd s then
    s ← (if bool_decide (i ∈ read_fds) then
           VP VERBOSE (cat ["Got a connection (on read fd "; fmt_d i; "), issue accept() ..."; nl]);;
           if i =? listener then new_connection listener s else client_data listener i s
         else mret s);
    mret (inl (i + 1, s))
  else mret (inr s).

Definition scan (listener : Z) (read_fds : gset Z) (s : st) : C K st :=
  loop (S (Z.to_nat FD_SETSIZE)) (scan_iter listener read_fds) (0, s).

(** The body of [for (;;)].  select leaves in [read_fds] the requested
    descriptors that are ready. *)
Definition serve (listener : Z) (s : st) : C K st :=
  VP VERBOSE (cat ["Issuing select() syscall now..."; nl]);;
  let master := fst s in
  r ← syscall (Csys "select" (AI (snd s + 1) :: map AI (elements master)));
  if ret r =? -1 then perror "select";; exit 4
  else
    VP VERBOSE (cat ["select() unblocked..."; nl]);;
    scan listener (master ∩ list_to_set (out r)) s.

Definition main (fuel : nat) : C K Z :=
  listener ← setup;
  master ← FD_SET listener ∅;
  loop fuel (fun s => s ← serve listener s; mret (inl s)) (master, listener).

End Code.

(** ** Who is connected *)

(** The effect of an event on the set of descriptors. *)
Definition conn (s : gset Z) (e : event) : gset Z :=
  match e with
  | EvCall (Csys "accept" _) r => if ret r =? -1 then s else {[ret r]} ∪ s
  | EvCall (Cclose fd) _ => s ∖ {[fd]}
  | _ => s
  end.

Definition connected (s : gset Z) (tr : list event) : gset Z := foldl conn s tr.

Lemma connected_app s t1 t2 : connected s (t1 ++ t2) = connected (connected s t1) t2.
Proof. apply foldl_app. Qed.

(** The listener is always watched, and every watched descriptor fits the set and
    is covered by select's first argument and by the scans. *)
Definition master_inv (listener : Z) (s : gset Z * Z) : Prop :=
  listener ∈ fst s /\ snd s < FD_SETSIZE /\ forall fd, fd ∈ fst s -> 0 <= fd <= snd s.

(** The data sent, and to whom. *)
Definition sent1 (e : event) : list (Z * list Z) :=
  match e with EvCall (Csys "send" [AI j; AB buf; AI _]) _ => [(j, buf)] | _ => [] end.

Definition sent (tr : list event) : list (Z * list Z) := concat (map sent1 tr).

Lemma sent_app t1 t2 : sent (t1 ++ t2) = sent t1 ++ sent t2.
Proof. unfold sent. by rewrite map_app, concat_app. Qed.

Definition others (master : gset Z) (fdmax listener i : Z) : list Z :=
  List.filter (fun j => bool_decide (j ∈ master) && (negb (j =? listener) && negb (j =? i)))
    (seqZ 0 (fdmax + 1)).

Section Proofs.
Context {K : Type} {HK : Kernel K}.

(** Commands that only print keep the connections and send nothing. *)
Definition quiet (e : event) : Prop := conn ∅ e = ∅ /\ sent1 e = [] /\ forall s, conn s e = s.

Lemma quiet_nothing tr : Forall quiet tr -> sent tr = [] /\ forall s, connected s tr = s.
Proof.
  induction 1 as [|e tr (_ & He & Hc) _ [IH1 IH2]]; [done|]. split.
  - unfold sent in *. cbn. by rewrite He, IH1.
  - intros s. unfold connected in *. cbn. by rewrite Hc.
Qed.

Definition prints (m : C K unit) : Prop :=
  forall w, exists tr, m w = (Done tt, World (kern w) (errno w) (trace w ++ tr)) /\ Forall quiet tr.

Lemma prints_emit s txt : prints (emit (EvOut s txt)).
Proof. intros w. exists [EvOut s txt]. split; [done|]. by repeat constructor. Qed.

Lemma prints_VP v txt : prints (VP v txt).
Proof.
  unfold VP, when. destruct (negb _); [apply prints_emit|]. intros [k e tr].
  exists []. cbn. by rewrite app_nil_r.
Qed.

Lemma prints_bind m f : prints m -> prints f -> prints (m ;; f).
Proof.
  intros Hm Hf w. destruct (Hm w) as (tr & E & Hq). unfold mbind, C_bind. rewrite E.
  destruct (Hf (World (kern w) (errno w) (trace w ++ tr))) as (tr' & E' & Hq'). rewrite E'.
  exists (tr ++ tr'). cbn [kern errno trace]. rewrite app_assoc. split; [done|].
  by apply Forall_app.
Qed.

Lemma prints_hexdump bs : prints (hexdump bs).
Proof.
  unfold hexdump. apply prints_bind; [|apply prints_emit].
  induction bs as [|b bs IH]; cbn [hexdump_bytes].
  - intros [k e tr]. exists []. cbn. by rewrite app_nil_r.
  - apply prints_bind; [apply prints_emit|done].
Qed.

Lemma prints_chars bs : prints (print_chars bs).
Proof.
  induction bs as [|b bs IH]; cbn [print_chars].
  - intros [k e tr]. exists []. cbn. by rewrite app_nil_r.
  - apply prints_bind; [apply prints_emit|done].
Qed.

(** A command from [w0]: what was done since, described by [R]. *)
Definition did {A} (R : outcome A -> list event -> Prop) (w0 : world K) (o : outcome A) (w : world K) : Prop :=
  exists tr, trace w = trace w0 ++ tr /\ R o tr.

Lemma wp_prints m (Q : outcome unit -> world K -> Prop) w :
  prints m ->
  (forall tr, Forall quiet tr -> Q (Done tt) (World (kern w) (errno w) (trace w ++ tr))) ->
  wp m Q w.
Proof. intros Hm HQ. destruct (Hm w) as (tr & E & Hq). unfold wp. rewrite E. by apply HQ. Qed.

Lemma wp_broadcast master fdmax listener i buf (w : world K) :
  -1 <= fdmax ->
  wp (broadcast master fdmax listener i buf)
     (did (fun o tr => o = Done tt /\ (forall s, connected s tr = s) /\
        sent tr = map (fun j => (j, buf)) (others master fdmax listener i)) w) w.
Proof.
  intros Hf. unfold broadcast.
  apply (wp_loop_total
    (fun j w' => 0 <= j <= fdmax + 1 /\ exists tr, trace w' = trace w ++ tr /\
       (forall s, connected s tr = s) /\
       sent tr = map (fun j => (j, buf)) (others master (j - 1) listener i))
    (fun j _ => Z.to_nat (fdmax + 1 - j))).
  - intros j w' (Hj & tr & Ht & Hc & Hs). destruct (Z.leb_spec j fdmax).
    2: { assert (j = fdmax + 1) as -> by lia. wp_step. exists tr.
         replace (fdmax + 1 - 1) with fdmax in Hs by lia. auto. }
    assert (Ho : others master (j + 1 - 1) listener i = others master (j - 1) listener i ++
      (if bool_decide (j ∈ master) && (negb (j =? listener) && negb (j =? i)) then [j] else [])).
    { unfold others. replace (j + 1 - 1 + 1) with (j + 1) by lia.
      replace (j - 1 + 1) with j by lia. rewrite seqZ_app by lia.
      rewrite List.filter_app. reflexivity. }
    destruct (bool_decide _ && _).
    + wp_seq. wp_step; wp_seq; (split; [|lia]); (split; [lia|]); rewrite Ho, map_app;
        eexists; (split; [cbn [after trace]; by rewrite Ht, <- ?app_assoc|]);
        (split; [intros s; rewrite connected_app, Hc; done|]); rewrite sent_app, Hs; done.
    + wp_seq. split; [|lia]. split; [lia|]. rewrite Ho, map_app, app_nil_r. exists tr. auto.
  - split; [lia|]. exists []. rewrite app_nil_r. split_and!; auto.
  - lia.
Qed.

Lemma wp_new_connection inet_ntop listener s (w : world K) :
  master_inv listener s ->
  wp (new_connection inet_ntop listener s)
     (did (fun o tr => match o with
        | Done s' => master_inv listener s' /\ fst s' = connected (fst s) tr /\ sent tr = []
        | Halt h => exists fd, h = HUB (UB_bounds "fd_set" fd) /\ ~ 0 <= fd < FD_SETSIZE
        end) w) w.
Proof.
  destruct s as [master fdmax]. intros (Hl & Hm & Hr). cbn [fst snd] in *.
  unfold new_connection. wp_seq. wp_step.
  - wp_seq. eexists. split; [cbn [after trace]; by rewrite <- app_assoc|].
    split; [done|]. cbn. by rewrite Hb.
  - unfold FD_SET. destruct (Z.ltb_spec (ret r) 0) as [H0|H0]; cbn [orb].
    { wp_seq. eexists. split; [done|]. exists (ret r). split; [done|lia]. }
    destruct (Z.leb_spec FD_SETSIZE (ret r)) as [H1|H1].
    { wp_seq. eexists. split; [done|]. exists (ret r). split; [done|lia]. }
    wp_seq. eexists. split; [cbn [after trace]; by rewrite <- app_assoc|].
    split; [|cbn; by rewrite Hb]. unfold master_inv. cbn [fst snd]. split; [set_solver|].
    split; [destruct (fdmax <? ret r); lia|]. intros fd [->%elem_of_singleton|Hfd]%elem_of_union.
    + destruct (Z.ltb_spec fdmax (ret r)); lia.
    + specialize (Hr fd Hfd). destruct (Z.ltb_spec fdmax (ret r)); lia.
Qed.

Lemma wp_client_data listener i s (w : world K) :
  master_inv listener s -> i <> listener ->
  wp (client_data listener i s)
     (did (fun o tr => exists s', o = Done s' /\ master_inv listener s' /\
        fst s' = connected (fst s) tr /\ exists r,
        EvCall (Csys "recv" [AI i; AI 256; AI 0]) r ∈ tr /\
        (if ret r <=? 0 then fst s' = fst s ∖ {[i]} /\ sent tr = []
         else fst s' = fst s /\
           sent tr = map (fun j => (j, ztake (ret r) (out r))) (others (fst s) (snd s) listener i))) w) w.
Proof.
  destruct s as [master fdmax]. intros (Hl & Hm & Hr) Hi. cbn [fst snd] in *.
  pose proof (Hr _ Hl). unfold client_data. wp_step. apply wp_prints; [apply prints_VP|].
  intros t1 Hq1. cbn [post]. destruct (quiet_nothing _ Hq1) as [Hs1 Hc1].
  wp_step. wp_step.
  set (ev := EvCall (Csys "recv" [AI i; AI 256; AI 0]) r).
  destruct (ret r <=? 0) eqn:Er.
  - assert (Hinv : master_inv listener (master ∖ {[i]}, fdmax)).
    { split; cbn [fst snd]; [set_solver|]. split; [done|]. intros fd Hfd. apply Hr. set_solver. }
    assert (Hfin : forall e0 x, sent1 e0 = [] -> (forall s, conn s e0 = s) ->
      let tr := t1 ++ [ev] ++ [e0] ++ [EvCall (Cclose i) x] in
      exists s', @Done st (master ∖ {[i]}, fdmax) = Done s' /\ master_inv listener s' /\
        fst s' = connected master tr /\ exists r',
        EvCall (Csys "recv" [AI i; AI 256; AI 0]) r' ∈ tr /\
        (if ret r' <=? 0 then fst s' = master ∖ {[i]} /\ sent tr = []
         else fst s' = master /\
           sent tr = map (fun j => (j, ztake (ret r') (out r'))) (others master fdmax listener i))).
    { intros e0 x He Hc. cbn zeta. exists (master ∖ {[i]}, fdmax). split_and!; auto; cbn [fst].
      - rewrite connected_app, Hc1. unfold connected, ev. cbn [foldl app conn]. by rewrite Hc.
      - exists r. split; [apply elem_of_app; right; apply list_elem_of_here|]. rewrite Er.
        rewrite sent_app, Hs1. unfold sent. cbn. by rewrite He. }
    wp_step. wp_step; wp_seq; eexists;
      (split; [cbn [after trace]; rewrite <- !app_assoc; reflexivity|]); by apply Hfin.
  - wp_step. apply wp_prints; [apply prints_VP|]. intros t2 Hq2. cbn [post].
    wp_step. apply wp_prints; [apply prints_emit|]. intros t3 Hq3. cbn [post].
    wp_step. apply wp_prints; [apply prints_chars|]. intros t4 Hq4. cbn [post].
    wp_step. apply wp_prints; [apply prints_emit|]. intros t5 Hq5. cbn [post].
    wp_step. apply wp_prints; [apply prints_hexdump|]. intros t6 Hq6. cbn [post].
    destruct (quiet_nothing (t2 ++ t3 ++ t4 ++ t5 ++ t6)) as [Hs2 Hc2].
    { by repeat (apply Forall_app; split). }
    wp_step. eapply wp_mono; [|apply wp_broadcast; lia].
    intros o w' (t7 & Ht7 & -> & Hc7 & Hs7). cbn [post]. wp_step.
    exists (t1 ++ [ev] ++ (t2 ++ t3 ++ t4 ++ t5 ++ t6) ++ t7). split.
    { rewrite Ht7. cbn [after trace kern errno]. by rewrite <- !app_assoc. }
    exists (master, fdmax). split_and!; auto; cbn [fst].
    + by split_and!.
    + by rewrite connected_app, Hc1, connected_app, connected_app, Hc2, Hc7.
    + exists r. split; [apply elem_of_app; right; apply list_elem_of_here|]. rewrite Er.
      split; [done|]. by rewrite sent_app, Hs1, sent_app, sent_app, Hs2, Hs7.
Qed.

(** A whole scan keeps the invariant, and tracks the connections. *)
Lemma wp_scan inet_ntop listener read_fds s (w : world K) :
  master_inv listener s ->
  wp (scan inet_ntop listener read_fds s)
     (did (fun o tr => match o with
        | Done s' => master_inv listener s' /\ fst s' = connected (fst s) tr
        | Halt h => exists fd, h = HUB (UB_bounds "fd_set" fd) /\ ~ 0 <= fd < FD_SETSIZE
        end) w) w.
Proof.
  intros Hs. unfold scan.
  apply (wp_loop_total
    (fun '(i, s1) w' => 0 <= i <= FD_SETSIZE /\ master_inv listener s1 /\ exists tr,
       trace w' = trace w ++ tr /\ fst s1 = connected (fst s) tr)
    (fun '(i, _) _ => Z.to_nat (FD_SETSIZE - i))).
  2: { split; [unfold FD_SETSIZE; lia|]. split; [done|]. exists []. by rewrite app_nil_r. }
  2: { rewrite Z.sub_0_r. lia. }
  intros [i s1] w' (Hi & Hinv & tr & Ht & Hc). unfold scan_iter.
  pose proof Hinv as (_ & Hmax & _).
  destruct (Z.leb_spec i (snd s1)).
  2: { wp_step. exists tr. auto. }
  wp_step. destruct (bool_decide (i ∈ read_fds)).
  2: { wp_seq. split; [|lia]. split; [lia|]. split; [done|]. exists tr. auto. }
  wp_step. apply wp_prints; [apply prints_VP|]. intros t1 Hq. cbn [post].
  destruct (quiet_nothing _ Hq) as [_ Hc1].
  destruct (Z.eqb_spec i listener).
  - eapply wp_mono; [|by apply wp_new_connection].
    intros [s2|h] w2 (t2 & Ht2 & H2); cbn [trace] in Ht2; cbn [post].
    + destruct H2 as (H2 & H3 & _). wp_step. split; [|lia]. split; [lia|]. split; [done|].
      exists (tr ++ t1 ++ t2). split; [by rewrite Ht2, Ht, <- !app_assoc|].
      by rewrite H3, connected_app, connected_app, Hc1, <- Hc.
    + exists (tr ++ t1 ++ t2). split; [by rewrite Ht2, Ht, <- !app_assoc|]. done.
  - eapply wp_mono; [|by apply wp_client_data].
    intros o w2 (t2 & Ht2 & s2 & -> & H2 & H3 & _). cbn [trace] in Ht2. cbn [post].
    wp_step. split; [|lia]. split; [lia|]. split; [done|].
    exists (tr ++ t1 ++ t2). split; [by rewrite Ht2, Ht, <- !app_assoc|].
    by rewrite H3, connected_app, connected_app, Hc1, <- Hc.
Qed.

End Proofs.

(** ** Theorems *)

Lemma others_spec master fdmax listener i j :
  j ∈ others master fdmax listener i <-> 0 <= j <= fdmax /\ j ∈ master /\ j <> listener /\ j <> i.
Proof.
  unfold others. rewrite list_elem_of_In, List.filter_In, <- list_elem_of_In, elem_of_seqZ.
  rewrite !andb_true_iff, bool_decide_eq_true, !negb_true_iff, !Z.eqb_neq. intuition lia.
Qed.

Lemma others_NoDup master fdmax listener i : NoDup (others master fdmax listener i).
Proof. apply NoDup_ListNoDup, List.NoDup_filter, NoDup_ListNoDup, NoDup_seqZ. Qed.

(** C39: what a client sends reaches everybody else, once: with the data recv
    delivered, the sends made are exactly one to each watched descriptor other
    than the listener and the sender; a client that hung up or failed is removed
    and nothing is sent. *)
Theorem chat_broadcast {K} `{Kernel K} listener i s (w : world K) :
  master_inv listener s -> i <> listener ->
  exists s' w' tr r,
    client_data listener i s w = (Done s', w') /\ trace w' = trace w ++ tr /\
    EvCall (Csys "recv" [AI i; AI 256; AI 0]) r ∈ tr /\ master_inv listener s' /\
    if ret r <=? 0 then fst s' = fst s ∖ {[i]} /\ sent tr = []
    else fst s' = fst s /\ exists dest,
      sent tr = map (fun j => (j, ztake (ret r) (out r))) dest /\ NoDup dest /\
      forall j, j ∈ dest <-> j ∈ fst s /\ j <> listener /\ j <> i.
Proof.
  intros Hinv Hi.
  destruct (wp_run _ _ _ (wp_client_data listener i s w Hinv Hi))
    as (o & w' & E & tr & Ht & s' & -> & Hinv' & _ & r & Hr & Hs).
  exists s', w', tr, r. split_and!; auto; try apply Hinv'.
  destruct (ret r <=? 0); [done|]. destruct Hs as [Hs Hsent]. split; [done|].
  exists (others (fst s) (snd s) listener i). split; [done|]. split; [apply others_NoDup|].
  intros j. rewrite others_spec. destruct Hinv as (_ & _ & Hr'). split; [tauto|].
  intros (Hj & ?). pose proof (Hr' j Hj). tauto.
Qed.

Lemma chat_broadcast_witness :
  exists s' w' tr r,
    client_data 3 5 ({[3; 4; 5; 6]}, 6) (World [Resp 2 0 (bytes_of "hi")] 0 []) = (Done s', w') /\
    trace w' = [] ++ tr /\
    EvCall (Csys "recv" [AI 5; AI 256; AI 0]) r ∈ tr /\ master_inv 3 s' /\
    if ret r <=? 0 then fst s' = fst ({[3; 4; 5; 6]} : gset Z, 6) ∖ {[5]} /\ sent tr = []
    else fst s' = fst ({[3; 4; 5; 6]} : gset Z, 6) /\ exists dest,
      sent tr = map (fun j => (j, ztake (ret r) (out r))) dest /\ NoDup dest /\
      forall j, j ∈ dest <-> j ∈ fst ({[3; 4; 5; 6]} : gset Z, 6) /\ j <> 3 /\ j <> 5.
Proof.
  apply (chat_broadcast 3 5 ({[3; 4; 5; 6]}, 6) (World [Resp 2 0 (bytes_of "hi")] 0 [])); [|lia].
  split_and!; cbn [fst snd]; [set_solver|done|]. intros fd Hfd. set_unfold. lia.
Defined.


