(* ===== verification/SemV.v ===== *)
(** System V semaphores: src/ipc/SYS_V_ipc/sem/real/sem_lib.h (the Robbins
    library), sem1.c and sem2.c (a file guarded by a test-and-set semaphore) and
    beej/semdemo.c.  The programs are modelled as they run, and the protocols
    their sembuf arrays implement as systems of concurrent processes over one
    semaphore. *)
From S2P Require Import Prelude CMonad CLib Common Restart.
From stdpp Require Import relations.
#[local] Open Scope Z_scope.

Definition SEM_UNDO : Z := 4096.
Definition IPC_NOWAIT : Z := 2048.
Definition IPC_CREAT : Z := 512.
Definition IPC_EXCL : Z := 1024.
Definition IPC_RMID : Z := 0.
Definition IPC_STAT : Z := 2.
Definition SETVAL : Z := 16.
Definition SEM_PERMS : Z := 420.
Definition MY_KEY : Z := 1193556.
Definition SLEEP_TIME : Z := 10.
Definition MAX_TRIES : Z := 10.
Definition MAX_RETRIES : Z := 10.
Definition O_APPEND_CREAT : Z := 1090.
Definition SIGINT : Z := 2.
Definition SIGQUIT : Z := 3.

Record sembuf := Sembuf { sem_num : Z; sem_op : Z; sem_flg : Z }.

Definition to_short (z : Z) : Z := wraps 16 z.

(** [setsembuf(s, num, op, flg)] *)
Definition setsembuf (num op flg : Z) : sembuf :=
  Sembuf (to_short num) (to_short op) (to_short flg).

Definition sops_args (sops : list sembuf) : list arg :=
  concat (map (fun s => [AI (sem_num s); AI (sem_op s); AI (sem_flg s)]) sops).

(** The operations of sem1.c and sem2.c, lines 142-144 and 236-238. *)
Definition semlock : list sembuf := [setsembuf 0 0 0; setsembuf 0 1 SEM_UNDO].
Definition semunlock : sembuf := setsembuf 0 (-1) (Z.lor IPC_NOWAIT SEM_UNDO).

Section SemLib.
Context {K : Type} {HK : Kernel K}.

Definition initelement (semid semnum semvalue : Z) : C K Z :=
  sys "semctl" [AI semid; AI semnum; AI SETVAL; AI semvalue].

Definition semop_call (semid : Z) (sops : list sembuf) : call :=
  Csys "semop" (AI semid :: sops_args sops).

Definition r_semop (fuel : nat) (semid : Z) (sops : list sembuf) : C K Z :=
  loop fuel (fun _ : unit =>
    r ← syscall (semop_call semid sops);
    if ret r =? -1 then
      e ← get_errno;
      if negb (e =? EINTR) then mret (inr (-1)) else mret (inl tt)
    else mret (inr 0)) tt.

Definition removesem (semid : Z) : C K Z :=
  sys "semctl" [AI semid; AI 0; AI IPC_RMID].

End SemLib.

(** ** sem1.c *)
Module Sem1.
Section Code.
Context {K : Type} {HK : Kernel K} (strerror : Z -> string).

Definition APPNAME : string := "Sem1".

Definition INFO (txt : string) : C K unit :=
  pid ← sys "getpid" [];
  fprintf stderr (cat [APPNAME; ":["; fmt_d pid; "]: "; txt]).

Definition printerror (prg msg : string) (error : Z) : C K unit :=
  pid ← sys "getpid" [];
  fprintf stderr (cat [prg; ":["; fmt_d pid; "]:"; msg; ":"; strerror error; nl]).

(** [printerror(argv[0], msg, errno)] *)
Definition report (prg msg : string) : C K unit := e ← get_errno; printerror prg msg e.

Definition sigfunc (signum : Z) : C K unit :=
  INFO (cat ["**Signal "; fmt_d signum; " interruption!**"; nl]).

Definition setup_signals (prg : string) : C K unit :=
  a ← sys "sigaction" [AI SIGINT; AS "sigfunc"];
  bad ← (if negb (a =? 0) then mret true
         else b ← sys "sigaction" [AI SIGQUIT; AS "sigfunc"]; mret (b =? -1));
  if (bad : bool) then report prg "sigaction failure";; exit 1 else mret tt.

(** Lines 104-118: fetch the semaphore, or create it. *)
Definition get_semaphore (prg : string) : C K Z :=
  id ← sys "semget" [AI MY_KEY; AI 0; AI 0];
  if id =? -1 then
    id ← sys "semget" [AI MY_KEY; AI 1; AI (Z.lor (Z.lor IPC_CREAT IPC_EXCL) SEM_PERMS)];
    e ← get_errno;
    if (id =? -1) && (e =? EEXIST) then
      id ← sys "semget" [AI MY_KEY; AI 0; AI 0];
      if id =? -1 then report prg "semget failure 1";; exit 1
      else report prg "semget failure 2";; exit 1
    else mret id
  else mret id.

(** Lines 172-184: the record, from the output of date. *)
Definition make_record (prg : string) : C K string :=
  fp ← sys "popen" [AS "date"; AS "r"];
  (if fp =? 0 then report prg "popen failure";; undefined (UB_null "fp") else mret tt);;
  r ← syscall (Csys "fgets" [AI 80; AI fp]);
  (if ret r =? 0 then report prg "fgets failure" else mret tt);;
  c ← sys "pclose" [AI fp];
  (if c =? -1 then report prg "pclose failure" else mret tt);;
  pid1 ← sys "getpid" [];
  pid2 ← sys "getpid" [];
  let dtbuf := if ret r =? 0 then EmptyString else text_of (out r) in
  mret (snprintf 128 (cat [nl; APPNAME; ":["; fmt_d pid1; "]: "; dtbuf; ": ";
    "This is the sample record written to end of file by Sem1"; "."; fmt_d pid2])).

(** Lines 159-200: the work on the file, the semaphore being held. *)
Definition process_file (fuel : nat) (prg path : string) (id : Z) : C K Z :=
  INFO (cat ["File processing is taking place now.."; nl]);;
  f ← syscall (Copen path O_APPEND_CREAT SEM_PERMS);
  let fd := ret f in
  if fd =? -1 then report prg "File open failure";; exit 1
  else
    buf ← make_record prg;
    n ← syscall (Cwrite fd (bytes_of buf));
    if ret n =? -1 then
      report prg "File write failed, aborting..";;
      syscall (Cclose fd);;
      u ← r_semop fuel id [semunlock];
      if u <? 0 then report prg "semaphore unlocking failure";; exit 1 else exit 1
    else
      sys "sleep" [AI SLEEP_TIME];;
      syscall (Cclose fd);;
      INFO (cat ["Processing done - Write of "; fmt_d (ret n); " bytes"; nl]);;
      mret (ret n).

Definition main (fuel : nat) (argv : list string) : C K Z :=
  let prg := arg_n argv 0 in
  if negb (argc argv =? 2) then
    fprintf stderr (cat ["Usage: "; prg; " file_to_[un]lock"; nl; nl;
                         "***NOTE*** The file will be written to."; nl]);;
    exit 2
  else
    setup_signals prg;;
    id ← get_semaphore prg;
    INFO (cat ["Fetched semaphore ID (for key 0x"; text_of (fmt_x MY_KEY); ") is "; fmt_d id; nl]);;
    INFO (cat ["(Attempting to) Lock resource (file "; arg_n argv 1; ") now..."; nl]);;
    l ← r_semop fuel id semlock;
    if l <? 0 then report prg "semaphore locking failure";; exit 1
    else
      INFO (cat ["File locked.."; nl]);;
      process_file fuel prg (arg_n argv 1) id;;
      u ← r_semop fuel id [semunlock];
      if u <? 0 then report prg "semaphore unlocking failure";; exit 1
      else
        INFO (cat ["File (semaphore) unlocked. Exiting.."; nl]);;
        exit 0.

End Code.
End Sem1.

(** ** sem2.c

    The program differs from sem1.c in how the semaphore is set up. *)
Module Sem2.
Section Code.
Context {K : Type} {HK : Kernel K} (strerror : Z -> string).

(** The loop that waits for [sem_otime] (the first value IPC_STAT stores): did
    the creator use the semaphore? *)
Fixpoint wait_otime (prg : string) (id : Z) (tries : nat) : C K bool :=
  match tries with
  | O => mret false
  | S tries' =>
      r ← syscall (Csys "semctl" [AI id; AI 0; AI IPC_STAT]);
      (if ret r =? -1 then Sem1.report strerror prg "in loop:semctl semaphore init failure"
       else mret tt);;
      if negb (nth 0 (out r) 0 =? 0) then mret true
      else sys "sleep" [AI 1];; wait_otime prg id tries'
  end.

Definition sizeof_semid_ds : Z := 104.

(** Lines 149-192: create the semaphore and set it to 1, or wait for its creator.
    The first IPC_STAT of the second branch is given [&arg], so the kernel stores
    a struct semid_ds over the eight bytes of the union. *)
Definition init_semaphore (prg : string) : C K Z :=
  id ← sys "semget" [AI MY_KEY; AI 1; AI (Z.lor (Z.lor IPC_CREAT IPC_EXCL) SEM_PERMS)];
  if 0 <=? id then
    i ← initelement id 0 1;
    (if i =? -1 then Sem1.report strerror prg "initelement (semctl) semaphore init failure"
     else mret tt);;
    pid ← sys "getpid" [];
    Sem1.INFO (cat ["This process ["; fmt_d pid; "] first to initialize sem..."; nl]);;
    mret id
  else
    e ← get_errno;
    if e =? EEXIST then
      id ← sys "semget" [AI MY_KEY; AI 1; AI SEM_PERMS];
      s ← sys "semctl" [AI id; AI 0; AI IPC_STAT];
      (if s =? -1 then Sem1.report strerror prg "semctl semaphore init failure"
       else undefined (UB_bounds "arg" (sizeof_semid_ds - 1)));;
      Sem1.INFO (cat ["Attempting initialization loop now..."; nl]);;
      ok ← wait_otime prg id (Z.to_nat MAX_TRIES);
      if (ok : bool) then mret id
      else Sem1.report strerror prg "semget succeeded but sem not initialized";; exit 1
    else Sem1.report strerror prg "semget failed.";; exit 1.

(** The file work and the unlocking are those of sem1.c, with r_sleep for sleep.
    r_sleep is called with one argument of the two it takes; [nsec] is the
    indeterminate second one. *)
Definition process_file (fuel : nat) (nsec : Z) (prg path : string) (id : Z) : C K Z :=
  Sem1.INFO (cat ["File processing is taking place now.."; nl]);;
  f ← syscall (Copen path O_APPEND_CREAT SEM_PERMS);
  let fd := ret f in
  if fd =? -1 then Sem1.report strerror prg "File open failure";; exit 1
  else
    buf ← Sem1.make_record strerror prg;
    n ← syscall (Cwrite fd (bytes_of buf));
    if ret n =? -1 then
      Sem1.report strerror prg "File write failed, aborting..";;
      syscall (Cclose fd);;
      u ← r_semop fuel id [semunlock];
      if u <? 0 then Sem1.report strerror prg "semaphore unlocking failure";; exit 1 else exit 1
    else
      r_sleep fuel SLEEP_TIME nsec;;
      syscall (Cclose fd);;
      Sem1.INFO (cat ["Processing done - Write of "; fmt_d (ret n); " bytes"; nl]);;
      mret (ret n).

Definition main (fuel : nat) (nsec : Z) (argv : list string) : C K Z :=
  let prg := arg_n argv 0 in
  if negb (argc argv =? 2) then
    fprintf stderr (cat ["Usage: "; prg; " file_to_[un]lock"; nl; nl;
                         "***NOTE*** The file will be written to."; nl]);;
    exit 2
  else
    Sem1.setup_signals strerror prg;;
    id ← init_semaphore prg;
    Sem1.INFO (cat ["Fetched (and initialized) semaphore ID (for key 0x"; text_of (fmt_x MY_KEY);
                    ") is "; fmt_d id; nl]);;
    Sem1.INFO (cat ["(Attempting to) Lock resource (file "; arg_n argv 1; ") now..."; nl]);;
    l ← r_semop fuel id semlock;
    if l <? 0 then Sem1.report strerror prg "semaphore locking failure";; exit 1
    else
      Sem1.INFO (cat ["File locked.."; nl]);;
      process_file fuel nsec prg (arg_n argv 1) id;;
      u ← r_semop fuel id [semunlock];
      if u <? 0 then Sem1.report strerror prg "semaphore unlocking failure";; exit 1
      else
        Sem1.INFO (cat ["File (semaphore) unlocked. Exiting.."; nl]);;
        exit 0.

End Code.
End Sem2.

(** ** beej/semdemo.c *)
Module SemDemo.
Section Code.
Context {K : Type} {HK : Kernel K}.

(** [for (sb.sem_num = 0; sb.sem_num < nsems; sb.sem_num++)]: free each one. *)
Fixpoint free_sems (semid : Z) (n : nat) (num : Z) : C K Z :=
  match n with
  | O => mret 0
  | S n' =>
      r ← syscall (semop_call semid [Sembuf num 1 0]);
      if ret r =? -1 then
        e ← get_errno;
        sys "semctl" [AI semid; AI 0; AI IPC_RMID];;
        set_errno e;;
        mret (-1)
      else free_sems semid n' (num + 1)
  end.

Fixpoint wait_ready (semid nsems : Z) (n : nat) : C K bool :=
  match n with
  | O => mret false
  | S n' =>
      r ← syscall (Csys "semctl" [AI semid; AI (nsems - 1); AI IPC_STAT]);
      if negb (nth 0 (out r) 0 =? 0) then mret true
      else sys "sleep" [AI 1];; wait_ready semid nsems n'
  end.

Definition initsem (key nsems : Z) : C K Z :=
  semid ← sys "semget" [AI key; AI nsems; AI (Z.lor (Z.lor IPC_CREAT IPC_EXCL) 438)];
  if 0 <=? semid then
    pid ← sys "getpid" [];
    printf (cat ["initsem: process "; fmt_d pid; " (us) here first"; nl]);;
    r ← free_sems semid (Z.to_nat nsems) 0;
    if r =? -1 then mret (-1) else mret semid
  else
    e ← get_errno;
    if e =? EEXIST then
      printf (cat ["Semaphore already existing; fetch & wait for creator to init sem (in loop)"; nl]);;
      semid ← sys "semget" [AI key; AI nsems; AI 0];
      if semid <? 0 then mret semid
      else
        ready ← wait_ready semid nsems (Z.to_nat MAX_RETRIES);
        if (ready : bool) then mret semid
        else set_errno ETIME;; mret (-1)
    else mret semid.

Definition lock_op : sembuf := Sembuf 0 (-1) SEM_UNDO.
Definition unlock_op : sembuf := Sembuf 0 1 SEM_UNDO.

Definition main : C K Z :=
  key ← sys "ftok" [AS "semdemo.c"; AI 74];
  if key =? -1 then perror "ftok";; exit 1
  else
    semid ← initsem key 1;
    if semid =? -1 then perror "initsem";; exit 1
    else
      printf "Press return to lock: ";;
      sys "getchar" [];;
      printf (cat ["Trying to lock..."; nl]);;
      r ← syscall (semop_call semid [lock_op]);
      if ret r =? -1 then perror "semop";; exit 1
      else
        printf (cat ["Locked."; nl]);;
        printf "Press return to unlock: ";;
        sys "getchar" [];;
        r ← syscall (semop_call semid [unlock_op]);
        if ret r =? -1 then perror "semop";; exit 1
        else
          printf (cat ["Unlocked"; nl]);;
          mret 0.

End Code.
End SemDemo.

(** ** One semaphore and many processes *)

(** What semop does to the value of the semaphore: [None] is waiting (or EAGAIN
    with IPC_NOWAIT). *)
Definition semop1 (v : Z) (s : sembuf) : option Z :=
  if sem_op s =? 0 then (if v =? 0 then Some v else None)
  else if 0 <=? v + sem_op s then Some (v + sem_op s) else None.

Definition semops (v : Z) (sops : list sembuf) : option Z :=
  foldl (fun o s => o ≫= fun v => semop1 v s) (Some v) sops.

(** What SEM_UNDO adds to the process's adjustment. *)
Definition undo (sops : list sembuf) : Z :=
  foldr (fun s a => (if Z.land (sem_flg s) SEM_UNDO =? 0 then 0 else - sem_op s) + a) 0 sops.

Inductive place := Outside | Inside | Gone.

#[export] Instance place_eq_dec : EqDecision place.
Proof. solve_decision. Defined.

Record system := System { semval : Z; procs : list (place * Z) }.

(** The steps of processes that lock with [lock], unlock with [unlock], and can
    be killed at any time; the kernel then applies the adjustment. *)
Inductive sem_step (lock unlock : list sembuf) : system -> system -> Prop :=
| step_lock v v' ps i adj :
    ps !! i = Some (Outside, adj) -> semops v lock = Some v' ->
    sem_step lock unlock (System v ps) (System v' (<[i := (Inside, adj + undo lock)]> ps))
| step_unlock v v' ps i adj :
    ps !! i = Some (Inside, adj) -> semops v unlock = Some v' ->
    sem_step lock unlock (System v ps) (System v' (<[i := (Outside, adj + undo unlock)]> ps))
| step_die v ps i p adj :
    ps !! i = Some (p, adj) -> p <> Gone ->
    sem_step lock unlock (System v ps)
      (System (Z.max 0 (v + adj)) (<[i := (Gone, 0)]> ps)).

Definition start (v : Z) (n : nat) : system := System v (replicate n (Outside, 0)).

(** What makes a pair of operations a lock: it can be taken only at the value
    [free], which it turns into [busy]; unlocking and undoing turn it back. *)
Class SemLock (lock unlock : list sembuf) (free busy : Z) : Prop := {
  sl_diff : free <> busy;
  sl_range : 0 <= free /\ 0 <= busy;
  sl_take : semops free lock = Some busy;
  sl_held : semops busy lock = None;
  sl_release : semops busy unlock = Some free;
  sl_undo : undo lock = free - busy;
  sl_undo' : undo unlock = busy - free
}.

#[export] Instance sem1_lock : SemLock semlock [semunlock] 0 1.
Proof. by split. Qed.

#[export] Instance semdemo_lock : SemLock [SemDemo.lock_op] [SemDemo.unlock_op] 1 0.
Proof. by split. Qed.

Section Protocol.
Context (lock unlock : list sembuf) (free busy : Z) `{SL : SemLock lock unlock free busy}.

(** Nobody is inside and the semaphore is free, or exactly one process is and it
    is busy; every process's adjustment is what its death must undo. *)
Definition sem_inv (s : system) : Prop :=
  (forall i p adj, procs s !! i = Some (p, adj) ->
     adj = if decide (p = Inside) then free - busy else 0) /\
  ((semval s = free /\ forall i adj, procs s !! i <> Some (Inside, adj)) \/
   (semval s = busy /\ exists i adj, procs s !! i = Some (Inside, adj) /\
      forall j adj', procs s !! j = Some (Inside, adj') -> j = i)).

Lemma insert_proc (ps : list (place * Z)) i q j p :
  <[i := q]> ps !! j = Some p -> (i = j /\ p = q) \/ (i <> j /\ ps !! j = Some p).
Proof.
  intros Hj. apply list_lookup_insert_Some in Hj as [(? & ? & ?)|(? & ?)]; auto.
Qed.

Lemma sem_step_inv s s' : sem_step lock unlock s s' -> sem_inv s -> sem_inv s'.
Proof.
  pose proof (@sl_undo _ _ _ _ SL) as Hu. pose proof (@sl_undo' _ _ _ _ SL) as Hu'.
  pose proof (@sl_range _ _ _ _ SL) as Hr.
  intros Hst [Hadj Hval]. destruct Hst as [v v' ps i adj Hi Hv|v v' ps i adj Hi Hv|v ps i p adj Hi Hp];
    unfold sem_inv in *; cbn [semval procs] in *; pose proof (Hadj _ _ _ Hi) as Ha;
    pose proof (lookup_lt_Some _ _ _ Hi) as Hlt.
  - destruct Hval as [[-> Hno]|[-> _]]; [|by rewrite sl_held in Hv].
    rewrite sl_take in Hv. injection Hv as <-. rewrite decide_False in Ha by done. subst adj. split.
    + intros j p a [[-> [= -> ->]]|[_ Hj]]%insert_proc; [|by eapply Hadj].
      rewrite decide_True by done. lia.
    + right. split; [done|]. exists i, (0 + undo lock). split; [by apply list_lookup_insert_eq|].
      intros j a [[-> _]|[_ Hj]]%insert_proc; [done|]. by apply Hno in Hj.
  - destruct Hval as [[-> Hno]|(-> & i0 & a0 & Hi0 & Hone)]; [by apply Hno in Hi|].
    rewrite sl_release in Hv. injection Hv as <-. rewrite decide_True in Ha by done. subst adj. split.
    + intros j p a [[-> [= -> ->]]|[_ Hj]]%insert_proc; [|by eapply Hadj].
      rewrite decide_False by done. lia.
    + left. split; [done|]. intros j a [[-> [=]]|[Hne Hj]]%insert_proc.
      rewrite (Hone _ _ Hi), (Hone _ _ Hj) in Hne. done.
  - split.
    { intros j q a [[-> [= -> ->]]|[_ Hj]]%insert_proc; [done|by eapply Hadj]. }
    destruct (decide (p = Inside)) as [->|Hin]; subst adj.
    + destruct Hval as [[-> Hno]|(-> & i0 & a0 & Hi0 & Hone)]; [by apply Hno in Hi|].
      left. split; [lia|]. intros j a [[-> [=]]|[Hne Hj]]%insert_proc.
      rewrite (Hone _ _ Hi), (Hone _ _ Hj) in Hne. done.
    + destruct Hval as [[-> Hno]|(-> & i0 & a0 & Hi0 & Hone)].
      * left. split; [lia|]. intros j a [[-> [=]]|[Hne Hj]]%insert_proc. by apply Hno in Hj.
      * right. split; [lia|]. exists i0, a0. split.
        { rewrite list_lookup_insert_ne; [done|]. intros ->. congruence. }
        intros j a [[-> [=]]|[Hne Hj]]%insert_proc. by eapply Hone.
Qed.

Lemma sem_reachable_inv n s : rtc (sem_step lock unlock) (start free n) s -> sem_inv s.
Proof.
  intros Hr. enough (forall a, rtc (sem_step lock unlock) a s -> sem_inv a -> sem_inv s) as He.
  { apply (He _ Hr). split; cbn [start procs semval].
    - intros i p adj [[= -> ->] _]%lookup_replicate. done.
    - left. split; [done|]. intros i adj [[=] _]%lookup_replicate. }
  clear Hr. induction 1; eauto using sem_step_inv.
Qed.

Lemma sem_exclusion n s i j a b :
  rtc (sem_step lock unlock) (start free n) s ->
  procs s !! i = Some (Inside, a) -> procs s !! j = Some (Inside, b) -> i = j.
Proof.
  intros Hr Hi Hj. destruct (sem_reachable_inv n s Hr) as [_ [[_ Hno]|(_ & k & c & _ & Hone)]].
  - by apply Hno in Hi.
  - by rewrite (Hone _ _ Hi), (Hone _ _ Hj).
Qed.

(** The holder can always release, and a free lock can always be taken. *)
Lemma sem_progress n s :
  rtc (sem_step lock unlock) (start free n) s ->
  (forall i a, procs s !! i = Some (Inside, a) -> semops (semval s) unlock = Some free) /\
  ((forall i a, procs s !! i <> Some (Inside, a)) -> semops (semval s) lock = Some busy).
Proof.
  intros Hr. destruct (sem_reachable_inv n s Hr) as [_ [[-> Hno]|(-> & k & c & Hk & _)]]; split.
  - intros i a Hi. by apply Hno in Hi.
  - intros _. apply sl_take.
  - intros _ _ _. apply sl_release.
  - intros Hno. by apply Hno in Hk.
Qed.

End Protocol.

(** ** Theorems on the protocols *)

(** C37: the two-operation semop of sem1.c is a lock.  Starting from the value 0 a
    new semaphore has, whatever processes lock, unlock and get killed in whatever
    order, at most one is between semlock and semunlock; the holder's
    IPC_NOWAIT unlock never fails; and when nobody is inside, because of unlock
    or of SEM_UNDO, the lock can be taken. *)
Theorem sem1_protocol n s :
  rtc (sem_step semlock [semunlock]) (start 0 n) s ->
  (forall i j a b, procs s !! i = Some (Inside, a) -> procs s !! j = Some (Inside, b) -> i = j) /\
  (forall i a, procs s !! i = Some (Inside, a) -> semops (semval s) [semunlock] = Some 0) /\
  ((forall i a, procs s !! i <> Some (Inside, a)) -> semops (semval s) semlock = Some 1).
Proof.
  intros Hr. split; [|by apply (sem_progress semlock [semunlock] 0 1 n)].
  intros i j a b. by apply (sem_exclusion semlock [semunlock] 0 1 n).
Qed.

Lemma sem1_protocol_witness :
  let s := System 1 (<[0%nat := (Inside, -1)]> (replicate 3 (Outside, 0))) in
  (forall i j a b, procs s !! i = Some (Inside, a) -> procs s !! j = Some (Inside, b) -> i = j) /\
  (forall i a, procs s !! i = Some (Inside, a) -> semops (semval s) [semunlock] = Some 0) /\
  ((forall i a, procs s !! i <> Some (Inside, a)) -> semops (semval s) semlock = Some 1).
Proof.
  apply (sem1_protocol 3).
  eapply rtc_l; [|apply rtc_refl].
  by apply (step_lock semlock [semunlock] 0 1 (replicate 3 (Outside, 0)) 0 0).
Defined.

(** The -1/+1 semop of semdemo.c is a lock too, from the value 1 its creator
    sets by a semop: the same exclusion and progress, with killed holders
    undone. *)
Theorem semdemo_protocol n s :
  rtc (sem_step [SemDemo.lock_op] [SemDemo.unlock_op]) (start 1 n) s ->
  (forall i j a b, procs s !! i = Some (Inside, a) -> procs s !! j = Some (Inside, b) -> i = j) /\
  (forall i a, procs s !! i = Some (Inside, a) ->
     semops (semval s) [SemDemo.unlock_op] = Some 1) /\
  ((forall i a, procs s !! i <> Some (Inside, a)) ->
     semops (semval s) [SemDemo.lock_op] = Some 0).
Proof.
  intros Hr. split; [|by apply (sem_progress _ _ 1 0 n)].
  intros i j a b. by apply (sem_exclusion _ _ 1 0 n).
Qed.

Lemma semdemo_protocol_witness :
  let s := System 0 (<[1%nat := (Inside, 1)]> (replicate 2 (Outside, 0))) in
  (forall i j a b, procs s !! i = Some (Inside, a) -> procs s !! j = Some (Inside, b) -> i = j) /\
  (forall i a, procs s !! i = Some (Inside, a) ->
     semops (semval s) [SemDemo.unlock_op] = Some 1) /\
  ((forall i a, procs s !! i <> Some (Inside, a)) ->
     semops (semval s) [SemDemo.lock_op] = Some 0).
Proof.
  apply (semdemo_protocol 2).
  eapply rtc_l; [|apply rtc_refl].
  by apply (step_lock [SemDemo.lock_op] [SemDemo.unlock_op] 1 0 (replicate 2 (Outside, 0)) 1 0).
Defined.

(** Sem2.c deadlocks.  Its creator sets the semaphore to 1, but its semlock
    waits for 0: from there no process, however many there are and whichever
    are killed, ever gets the lock. *)
Theorem sem2_deadlock n s :
  rtc (sem_step semlock [semunlock]) (start 1 n) s ->
  (forall i a, procs s !! i <> Some (Inside, a)) /\ semops (semval s) semlock = None.
Proof.
  intros Hr.
  enough (semval s = 1 /\ forall i p a, procs s !! i = Some (p, a) -> p <> Inside /\ a = 0)
    as [-> Hp] by (split; [intros i a Hi; by apply Hp in Hi as []|done]).
  remember (start 1 n) as s0 eqn:E0.
  assert (semval s0 = 1 /\ forall i p a, procs s0 !! i = Some (p, a) -> p <> Inside /\ a = 0) as H0.
  { subst s0. split; [done|]. intros i p a [[= -> ->] _]%lookup_replicate. done. }
  clear E0. induction Hr as [|x y z Hst _ IH]; [done|]. apply IH. destruct H0 as [Hv Hp].
  destruct Hst as [v v' ps i adj Hi Hv'|v v' ps i adj Hi Hv'|v ps i p adj Hi Hne];
    cbn [semval procs] in *; subst v.
  - done.
  - by apply Hp in Hi as [].
  - apply Hp in Hi as [_ ->]. split; [done|].
    intros j q a [[-> [= -> ->]]|[_ Hj]]%insert_proc; [done|by apply Hp in Hj].
Qed.

Lemma sem2_deadlock_witness :
  (forall i a, procs (start 1 4) !! i <> Some (Inside, a)) /\ semops 1 semlock = None.
Proof. apply (sem2_deadlock 4 (start 1 4)). apply rtc_refl. Defined.

(** ** The file is touched only under the lock *)

Definition is_semop (sops : list sembuf) (c : call) : bool :=
  match c with
  | Csys "semop" (AI _ :: a) => bool_decide (a = sops_args sops)
  | _ => false
  end.

Definition is_file_op (c : call) : bool :=
  match c with Copen _ _ _ | Cwrite _ _ | Cclose _ => true | _ => false end.

(** A monitor: is the lock held?  [None] once the file was touched without it. *)
Definition mon (held : bool) (e : event) : option bool :=
  match e with
  | EvCall c r =>
      if is_semop semlock c then Some (held || negb (ret r =? -1))
      else if is_semop [semunlock] c then Some (held && (ret r =? -1))
      else if is_file_op c && negb held then None else Some held
  | _ => Some held
  end.

Definition monitor (tr : list event) : option bool :=
  foldl (fun o e => o ≫= fun h => mon h e) (Some false) tr.

Lemma monitor_snoc tr e : monitor (tr ++ [e]) = monitor tr ≫= fun h => mon h e.
Proof. unfold monitor. by rewrite foldl_app. Qed.

Section Monitor.
Context {K : Type} {HK : Kernel K} (strerror : Z -> string).

(** Commands that neither use the lock nor the file, and do not exit with 0. *)
Definition neutral {A} (m : C K A) : Prop :=
  forall h w, monitor (trace w) = Some h ->
  monitor (trace (snd (m w))) = Some h /\ fst (m w) <> Halt (HExit 0).

Lemma wp_neutral {A} (m : C K A) h (Q : outcome A -> world K -> Prop) w :
  neutral m -> monitor (trace w) = Some h ->
  (forall a w', monitor (trace w') = Some h -> Q (Done a) w') ->
  (forall hl w', monitor (trace w') = Some h -> hl <> HExit 0 -> Q (Halt hl) w') ->
  wp m Q w.
Proof.
  intros Hn Hw HD HH. destruct (Hn h w Hw) as [H1 H2]. unfold wp.
  destruct (m w) as [[a|hl] w']; cbn [fst snd] in *; [by apply HD|apply HH; congruence].
Qed.

Lemma neutral_ret {A} (a : A) : neutral (mret a).
Proof. by intros h w Hw. Qed.

Lemma neutral_halt {A} hl : hl <> HExit 0 -> neutral (halt_with (A := A) hl).
Proof. intros Hne h w Hw. split; [done|]. cbn. congruence. Qed.

Lemma neutral_emit s txt : neutral (emit (EvOut s txt)).
Proof. intros h w Hw. split; [|done]. cbn. by rewrite monitor_snoc, Hw. Qed.

Lemma neutral_get_errno : neutral get_errno.
Proof. by intros h w Hw. Qed.

Lemma neutral_syscall c :
  is_semop semlock c = false -> is_semop [semunlock] c = false -> is_file_op c = false ->
  neutral (syscall c).
Proof.
  intros H1 H2 H3 h w Hw. unfold syscall. destruct (kstep c (kern w)) as [r k].
  cbn [fst snd after trace]. split; [|done]. rewrite monitor_snoc, Hw. cbn.
  by rewrite H1, H2, H3.
Qed.

Lemma neutral_bind {A B} (m : C K A) (f : A -> C K B) :
  neutral m -> (forall a, neutral (f a)) -> neutral (m ≫= f).
Proof.
  intros Hm Hf h w Hw. destruct (Hm h w Hw) as [H1 H2]. unfold mbind, C_bind.
  destruct (m w) as [[a|hl] w']; cbn [fst snd] in *; [by apply Hf|]. split; [done|congruence].
Qed.

End Monitor.

Ltac neutral_step :=
  match goal with
  | |- neutral (_ ≫= _) => apply neutral_bind; [|intros ?]
  | |- neutral (mret _) => apply neutral_ret
  | |- neutral (exit _) => apply neutral_halt; done
  | |- neutral (undefined _) => apply neutral_halt; done
  | |- neutral (fprintf _ _) => apply neutral_emit
  | |- neutral get_errno => apply neutral_get_errno
  | |- neutral (sys _ _) => unfold sys
  | |- neutral (syscall _) => apply neutral_syscall; done
  | |- neutral (if ?b then _ else _) => destruct b
  | |- neutral (Sem1.report _ _ _) => unfold Sem1.report
  | |- neutral (Sem1.printerror _ _ _ _) => unfold Sem1.printerror
  | |- neutral (Sem1.INFO _) => unfold Sem1.INFO
  end.

Ltac neutral := repeat neutral_step.

Section Sem1Main.
Context {K : Type} {HK : Kernel K} (strerror : Z -> string).

Lemma neutral_INFO txt : neutral (K := K) (Sem1.INFO txt).
Proof. neutral. Qed.

Lemma neutral_report prg msg : neutral (K := K) (Sem1.report strerror prg msg).
Proof. neutral. Qed.

Lemma neutral_setup prg : neutral (K := K) (Sem1.setup_signals strerror prg).
Proof. unfold Sem1.setup_signals. neutral. Qed.

Lemma neutral_get_semaphore prg : neutral (K := K) (Sem1.get_semaphore strerror prg).
Proof. unfold Sem1.get_semaphore. neutral. Qed.

Lemma neutral_make_record prg : neutral (K := K) (Sem1.make_record strerror prg).
Proof. unfold Sem1.make_record. neutral. Qed.

(** r_semop on the lock or the unlock operations: held afterwards on success. *)
Lemma wp_r_semop fuel id sops held' h (Q : outcome Z -> world K -> Prop) w :
  (forall r, mon h (EvCall (semop_call id sops) r) = Some (if ret r =? -1 then h else held')) ->
  monitor (trace w) = Some h ->
  (forall w', monitor (trace w') = Some held' -> Q (Done 0) w') ->
  (forall w', monitor (trace w') = Some h -> Q (Done (-1)) w') ->
  (forall w', monitor (trace w') = Some h -> Q (Halt HFuel) w') ->
  wp (r_semop fuel id sops) Q w.
Proof.
  intros Hm Hw H0 H1 HF. unfold r_semop.
  apply (wp_loop (fun _ w' => monitor (trace w') = Some h)); [by intros; apply HF| |done].
  intros [] w' Hw'. wp_step. wp_step.
  assert (Ha : monitor (trace (after (semop_call id sops) r k w'))
               = Some (if ret r =? -1 then h else held')).
  { cbn [after trace]. by rewrite monitor_snoc, Hw'; cbn [mbind option_bind]; rewrite Hm. }
  destruct (ret r =? -1); [|by wp_step; apply H0].
  wp_seq. wp_step; wp_step; [by apply H1|done].
Qed.

Lemma mon_lock h id r :
  mon h (EvCall (semop_call id semlock) r) = Some (if ret r =? -1 then h else true).
Proof.
  cbn. rewrite bool_decide_eq_true_2 by done. destruct (ret r =? -1); cbn;
    by rewrite ?orb_false_r, ?orb_true_r.
Qed.

Lemma mon_unlock h id r :
  mon h (EvCall (semop_call id [semunlock]) r) = Some (if ret r =? -1 then h else false).
Proof.
  cbn. rewrite bool_decide_eq_false_2 by done. rewrite bool_decide_eq_true_2 by done.
  destruct (ret r =? -1); cbn; by rewrite ?andb_true_r, ?andb_false_r.
Qed.

Definition sem1_post {A} (P : A -> bool -> Prop) (o : outcome A) (w : world K) : Prop :=
  exists h, monitor (trace w) = Some h /\
    match o with Done a => P a h | Halt hl => hl = HExit 0 -> h = false end.

Lemma wp_file_op c (Q : outcome resp -> world K -> Prop) w :
  is_file_op c = true -> monitor (trace w) = Some true ->
  (forall r w', monitor (trace w') = Some true -> Q (Done r) w') -> wp (syscall c) Q w.
Proof.
  intros Hc Hw HQ. apply wp_syscall. intros r k _. apply HQ. cbn [after trace].
  rewrite monitor_snoc, Hw. destruct c; done.
Qed.

Lemma wp_process_file fuel prg path id w :
  monitor (trace w) = Some true ->
  wp (Sem1.process_file strerror fuel prg path id) (sem1_post (fun _ h => h = true)) w.
Proof.
  intros Hw. unfold Sem1.process_file.
  assert (Hhalt : forall hl w', monitor (trace w') = Some true -> hl <> HExit 0 ->
    sem1_post (fun (_ : Z) h => h = true) (Halt hl) w').
  { intros hl w' Hw' Hne. exists true. split; [done|]. congruence. }
  wp_step. eapply wp_neutral; [apply neutral_INFO|done| |apply Hhalt]. intros ? w1 Hw1. cbn [post].
  wp_step. apply wp_file_op; [done|done|]. intros f w2 Hw2. cbn [post]. destruct (ret f =? -1).
  { wp_step. eapply wp_neutral; [apply neutral_report|done| |apply Hhalt].
    intros ? w3 Hw3. cbn [post]. wp_step. by apply Hhalt. }
  wp_step. eapply wp_neutral; [apply neutral_make_record|done| |apply Hhalt].
  intros buf w3 Hw3. cbn [post]. wp_step. apply wp_file_op; [done|done|].
  intros n w4 Hw4. cbn [post]. destruct (ret n =? -1).
  - wp_step. eapply wp_neutral; [apply neutral_report|done| |apply Hhalt]. intros ? w5 Hw5.
    cbn [post]. wp_step. apply wp_file_op; [done|done|]. intros ? w6 Hw6. cbn [post].
    wp_step. apply (wp_r_semop _ _ _ false true); [apply mon_unlock|done|..]; intros w7 Hw7; cbn [post].
    + change (0 <? 0) with false. wp_seq. by exists false.
    + change (-1 <? 0) with true. cbv iota. wp_step.
      eapply wp_neutral; [apply neutral_report|done| |apply Hhalt]. intros ? w8 Hw8.
      cbn [post]. wp_step. by apply Hhalt.
    + by apply Hhalt.
  - wp_step. unfold sys. eapply wp_neutral; [apply neutral_bind; [by apply neutral_syscall|intros; apply neutral_ret]|done| |apply Hhalt].
    intros ? w5 Hw5. cbn [post]. wp_step. apply wp_file_op; [done|done|]. intros ? w6 Hw6.
    cbn [post]. wp_step. eapply wp_neutral; [apply neutral_INFO|done| |apply Hhalt].
    intros ? w7 Hw7. cbn [post]. wp_step. by exists true.
Qed.

Lemma wp_sem1_main fuel argv w :
  trace w = [] -> wp (Sem1.main strerror fuel argv) (sem1_post (fun _ _ => False)) w.
Proof.
  intros Hw0. assert (Hw : monitor (trace w) = Some false) by (by rewrite Hw0).
  assert (Hhalt : forall hl h w', monitor (trace w') = Some h -> hl <> HExit 0 ->
    sem1_post (fun (_ : Z) _ => False) (Halt hl) w').
  { intros hl h w' Hw' Hne. exists h. split; [done|]. congruence. }
  unfold Sem1.main. destruct (negb (argc argv =? 2)).
  { wp_step. eapply wp_neutral; [apply neutral_emit|done| |intros; by eapply Hhalt].
    intros ? w1 Hw1. cbn [post]. wp_step. by eapply Hhalt. }
  wp_step. eapply wp_neutral; [apply neutral_setup|done| |intros; by eapply Hhalt].
  intros ? w1 Hw1. cbn [post].
  wp_step. eapply wp_neutral; [apply neutral_get_semaphore|done| |intros; by eapply Hhalt].
  intros id w2 Hw2. cbn [post].
  wp_step. eapply wp_neutral; [apply neutral_INFO|done| |intros; by eapply Hhalt].
  intros ? w3 Hw3. cbn [post].
  wp_step. eapply wp_neutral; [apply neutral_INFO|done| |intros; by eapply Hhalt].
  intros ? w4 Hw4. cbn [post].
  wp_step. apply (wp_r_semop _ _ _ true false); [apply mon_lock|done|..]; intros w5 Hw5; cbn [post].
  2: { change (-1 <? 0) with true. cbv iota. wp_step.
       eapply wp_neutral; [apply neutral_report|done| |intros; by eapply Hhalt].
       intros ? w6 Hw6. cbn [post]. wp_step. by eapply Hhalt. }
  2: by eapply Hhalt.
  change (0 <? 0) with false. cbv iota.
  wp_step. eapply wp_neutral; [apply neutral_INFO|done| |intros; by eapply Hhalt].
  intros ? w6 Hw6. cbn [post]. wp_step. eapply wp_mono; [|by apply wp_process_file].
  intros [n|hl] w7 (h & Hw7 & Ho); cbn [post]; [|by exists h]. subst h.
  wp_step. apply (wp_r_semop _ _ _ false true); [apply mon_unlock|done|..]; intros w8 Hw8; cbn [post].
  - change (0 <? 0) with false. cbv iota. wp_step.
    eapply wp_neutral; [apply neutral_INFO|done| |intros; by eapply Hhalt].
    intros ? w9 Hw9. cbn [post]. wp_step. by exists false.
  - change (-1 <? 0) with true. cbv iota. wp_step.
    eapply wp_neutral; [apply neutral_report|done| |intros; by eapply Hhalt].
    intros ? w9 Hw9. cbn [post]. wp_step. by eapply Hhalt.
  - by eapply Hhalt.
Qed.

End Sem1Main.

(** Sem1.c opens, writes and closes the shared file only while it holds the
    semaphore, on every kernel and every error path, and it exits with 0 only
    after the semaphore was released. *)
Theorem sem1_file_guarded {K} `{Kernel K} strerror fuel argv (w : world K) :
  trace w = [] ->
  exists hl w' h,
    Sem1.main strerror fuel argv w = (Halt hl, w') /\ monitor (trace w') = Some h /\
    (hl = HExit 0 -> h = false).
Proof.
  intros Hw. destruct (wp_run _ _ _ (wp_sem1_main strerror fuel argv w Hw))
    as ([a|hl] & w' & E & h & Hm & Ho); [done|]. by exists hl, w', h.
Qed.

Lemma sem1_file_guarded_witness :
  exists hl w' h,
    Sem1.main (fun _ => "error") 5 ["sem1"; "f"] (World ([] : script) 0 []) = (Halt hl, w') /\
    monitor (trace w') = Some h /\ (hl = HExit 0 -> h = false).
Proof. by apply (sem1_file_guarded (fun _ => "error") 5 ["sem1"; "f"] (World [] 0 [])). Defined.

(** a process of sem2.c that does not create the semaphore overruns its
    stack: its first IPC_STAT passes the address of the eight-byte union itself,
    and when the call succeeds the kernel stores a struct semid_ds there. *)
Theorem sem2_second_process_overrun {K} `{Kernel K} strerror prg (w : world K) r1 k1 r2 k2 r3 k3 :
  kstep (Csys "semget" [AI MY_KEY; AI 1; AI (Z.lor (Z.lor IPC_CREAT IPC_EXCL) SEM_PERMS)]) (kern w)
    = (r1, k1) -> ret r1 = -1 -> err r1 = EEXIST ->
  kstep (Csys "semget" [AI MY_KEY; AI 1; AI SEM_PERMS]) k1 = (r2, k2) ->
  kstep (Csys "semctl" [AI (ret r2); AI 0; AI IPC_STAT]) k2 = (r3, k3) -> ret r3 <> -1 ->
  fst (Sem2.init_semaphore strerror prg w) = Halt (HUB (UB_bounds "arg" 103)).
Proof.
  intros E1 Hr1 He1 E2 E3 Hr3.
  enough (wp (Sem2.init_semaphore strerror prg) (fun o _ => o = Halt (HUB (UB_bounds "arg" 103))) w)
    by done.
  unfold Sem2.init_semaphore, sys. do 2 wp_step. apply wp_syscall. intros r k E.
  rewrite E1 in E. injection E as <- <-. cbn [post]. wp_seq. rewrite Hr1.
  change (0 <=? -1) with false. cbv iota. do 2 wp_step. cbn [after errno]. failed_simp.
  rewrite Hr1, He1. change (-1 =? -1) with true. cbv iota. change (EEXIST =? EEXIST) with true. cbv iota.
  do 2 wp_step. apply wp_syscall. cbn [after kern]. intros r k E. rewrite E2 in E.
  injection E as <- <-. cbn [post]. wp_step. do 2 wp_step. apply wp_syscall. cbn [after kern].
  intros r k E. rewrite E3 in E. injection E as <- <-. cbn [post]. wp_step. wp_step.
  destruct (Z.eqb_spec (ret r3) (-1)); [done|]. by wp_step.
Qed.

Lemma sem2_second_process_overrun_witness :
  fst (Sem2.init_semaphore (fun _ => "error") "sem2"
    (World [Resp (-1) EEXIST []; Resp 7 0 []; Resp 0 0 [1]] 0 []))
  = Halt (HUB (UB_bounds "arg" 103)).
Proof.
  apply (sem2_second_process_overrun (fun _ => "error") "sem2"
    (World [Resp (-1) EEXIST []; Resp 7 0 []; Resp 0 0 [1]] 0 [])
    (Resp (-1) EEXIST []) [Resp 7 0 []; Resp 0 0 [1]] (Resp 7 0 []) [Resp 0 0 [1]]
    (Resp 0 0 [1]) []); done.
Defined.
