(* ===== verification/CpuSvr.v ===== *)
(** src/ipc/net_sockets/inet_domain/cpudtl_tstsvr/cpudtl_tstsvr.c: a forking TCP
    server that sends the output of lscpu to every client. *)
From S2P Require Import Prelude CMonad CLib Common Restart.

Definition MAXBUF : Z := 5120.
Definition QLENGTH : Z := 5.
Definition LINESZ : Z := 128.
Definition SIGPIPE : Z := 13.
Definition SIGCHLD : Z := 17.

Section Code.
Context {K : Type} {HK : Kernel K} (inet_ntoa : Z -> string).

(** The SIGCHLD handler. *)
Definition sig_child (signum : Z) : C K unit :=
  syscall (Cwrite STDOUT_FILENO (bytes_of "--signal recvd--"));; mret tt.

Definition ErrExit {A} (prg err : string) (exitcode : Z) : C K A :=
  p ← syscall (Cmalloc 300);
  if ret p =? 0 then
    printf (cat [nl; prg; ": malloc failed for err_str.."; nl]);;
    printf (cat [prg; " exiting with error code "; fmt_d exitcode; ", perror shows:"; nl]);;
    perror prg;;
    printf (cat ["Original error message: "; err; nl]);;
    exit exitcode
  else
    perror (snprintf 300 (cat [prg; ": "; err]));;
    syscall (Cfree (ret p));;
    exit exitcode.

(** [fd_read(fd, dbuf, n)]: the count and [dbuf], which every read fills from its
    start. *)
Definition fd_read (fuel : nat) (fd : Z) (dbuf : mem) (n : Z) : C K (Z * mem) :=
  loop fuel (fun '(tr, dbuf) =>
    r ← syscall (Cread fd n);
    let rd := ret r in
    if rd <? 0 then mret (inr (-1, dbuf))
    else if rd =? 0 then mret (inr (tr, dbuf))
    else
      dbuf ← copy_in "dbuf" dbuf 0 (out r);
      let tr := tr + rd in
      if to_size_t tr <? n then mret (inl (tr, dbuf)) else mret (inr (tr, dbuf))) (0, dbuf).

(** [fd_write(fd, sbuf, n)]: every write starts at the start of [sbuf]. *)
Definition fd_write_iter (fd : Z) (sbuf : list Z) (n tw : Z) : C K (Z + Z) :=
  wr ← write_from fd sbuf 0 n;
  if wr <? 0 then mret (inr (-1))
  else
    let tw := tw + wr in
    if to_size_t tw <? n then mret (inl tw) else mret (inr tw).

Definition fd_write (fuel : nat) (fd : Z) (sbuf : list Z) (n : Z) : C K Z :=
  loop fuel (fd_write_iter fd sbuf n) 0.

(** [strncat(dst, s, n)] *)
Definition strncat (obj : string) (dst : mem) (s : list Z) (n : Z) : C K mem :=
  d ← cstr obj dst 0;
  copy_in obj dst (zlen d) (ztake n s ++ [0]).

(** [while (fgets(tmpbuf, LINESZ, fp))]: [total] and [reply]. *)
Definition collect_iter (prg : string) (fp p : Z) (st : Z * mem) : C K ((Z * mem) + mem) :=
  let '(total, reply) := st in
  r ← syscall (Csys "fgets" [AI LINESZ; AI fp]);
  if ret r =? 0 then mret (inr reply)
  else
    tmpbuf ← copy_in "tmpbuf" (uninit LINESZ) 0 (out r ++ [0]);
    s ← cstr "tmpbuf" tmpbuf 0;
    let total := to_size_t (total + zlen s) in
    if MAXBUF <? total then
      printf (cat [prg; ": buffer limit exceeded, aborting..."; nl]);;
      syscall (Cfree p);;
      sys "pclose" [AI fp];;
      exit 1
    else
      reply ← strncat "reply" reply s LINESZ;
      mret (inl (total, reply)).

Definition collect (fuel : nat) (prg : string) (fp p : Z) (reply : mem) : C K mem :=
  loop fuel (collect_iter prg fp p) (0, reply).

Definition process_client (fuel : nat) (sd : Z) (prg : string) : C K Z :=
  p ← syscall (Cmalloc MAXBUF);
  if ret p =? 0 then printf (cat [prg; ": no memory for reply buffer"; nl]);; exit 1
  else
    reply ← memset "reply" (uninit MAXBUF) 0 0 MAXBUF;
    fp ← sys "popen" [AS "lscpu"; AS "r"];
    fp ← (if fp =? 0 then
            printf (cat [prg; ": popen on 'lscpu' failed, trying via procfs"; nl]);;
            fp ← sys "popen" [AS "cat /proc/cpuinfo"; AS "r"];
            if fp =? 0 then syscall (Cfree (ret p));; exit 1 else mret fp
          else mret fp);
    reply ← collect fuel prg fp (ret p) reply;
    s ← cstr "reply" reply 0;
    r ← fd_write fuel sd s (zlen s);
    (if r =? -1 then
       syscall (Cfree (ret p));;
       sys "pclose" [AI fp];;
       ErrExit prg "socket write error" 6
     else mret tt);;
    syscall (Cfree (ret p));;
    sys "pclose" [AI fp];;
    syscall (Cclose sd);;
    mret 0.

(** Lines 288-333: the listening socket and the SIGCHLD handler. *)
Definition setup (prg : string) (port : Z) (verbose : bool) : C K Z :=
  h ← sys "signal" [AI SIGPIPE; AS "SIG_IGN"];
  (if h =? -1 then ErrExit prg "signal" 1 else mret tt);;
  sd ← sys "socket" [AI 2; AI 1; AI 0];
  (if sd =? -1 then ErrExit prg "socket creation error" 1 else mret tt);;
  when verbose (printf (cat [prg; ": tcp socket created"; nl]));;
  b ← sys "bind" [AI sd; AI (wrapu 16 port); AS "INADDR_ANY"];
  (if b =? -1 then ErrExit prg "socket bind error" 2 else mret tt);;
  o ← sys "setsockopt" [AI sd; AS "SO_REUSEADDR"; AI 1];
  (if o <? 0 then perror "Warning: setsockopt SO_REUSEADDR failed" else mret tt);;
  when verbose (printf (cat [prg; ": bind done at IP "; inet_ntoa 0; " port "; fmt_d port;
                             "; SO_REUSEADDR setup as well"; nl]));;
  l ← sys "listen" [AI sd; AI QLENGTH];
  (if l =? -1 then ErrExit prg "socket listen error" 3 else mret tt);;
  when verbose (printf (cat [prg; ": listen q set up"; nl]));;
  a ← sys "sigaction" [AI SIGCHLD; AS "sig_child"; AS "SA_RESTART|SA_NOCLDSTOP|SA_NOCLDWAIT"];
  (if a =? -1 then ErrExit prg "sigaction error" 4 else mret tt);;
  when verbose (printf (cat [prg; ": SIGCHLD handler set up"; nl]));;
  mret sd.

(** One turn of [while (1)].  accept stores the client's address and port. *)
Definition serve_iter (fuel : nat) (prg : string) (sd : Z) (verbose : bool) : C K unit :=
  (if verbose then
     pid ← sys "getpid" [];
     printf (cat [prg; ": pid "; fmt_d pid; " blocking on accept().."; nl])
   else mret tt);;
  fflush stdout;;
  a ← syscall (Csys "accept" [AI sd]);
  let newsd := ret a in
  (if newsd =? -1 then ErrExit prg "socket accept error" 5 else mret tt);;
  printf (cat [nl; "Server "; prg; ": client connected now from IP ";
               inet_ntoa (nth 0 (out a) 0); " port # "; fmt_d (nth 1 (out a) 0); nl]);;
  fflush stdout;;
  f ← sys "fork" [];
  if f =? -1 then perror "fork error";; fflush stdout
  else if f =? 0 then
    syscall (Cclose sd);;
    (if verbose then
       pid ← sys "getpid" [];
       printf (cat [prg; ": child server created; pid "; fmt_d pid; nl]);; fflush stdout
     else mret tt);;
    process_client fuel newsd prg;;
    (if verbose then
       pid ← sys "getpid" [];
       printf (cat [prg; ": child server "; fmt_d pid; " exiting.."; nl]);; fflush stdout
     else mret tt);;
    exit 0
  else syscall (Cclose newsd);; mret tt.

Definition main (fuel : nat) (argv : list string) : C K Z :=
  let prg := arg_n argv 0 in
  if argc argv <? 2 then
    fprintf stderr (cat ["Usage: "; prg; " port-num [-v]"; nl]);; exit 1
  else
    let port := atoi (arg_n argv 1) in
    if port <? 32768 then
      fprintf stderr (cat [prg; ": port-num should be in the range specified here: ";
                           "/proc/sys/net/ipv4/ip_local_port_range"; nl]);; exit 1
    else
      let verbose := (argc argv =? 3) && (strcmp (arg_n argv 2) "-v" =? 0) in
      sd ← setup prg port verbose;
      loop fuel (fun _ : unit => serve_iter fuel prg sd verbose;; mret (inl tt)) tt.

End Code.

(** ** fd_write *)

Definition zsum (l : list Z) : Z := foldr Z.add 0 l.

(** The bytes accepted by writes of [ks] bytes that each start over. *)
Definition restarted_data (sbuf : list Z) (ks : list Z) : list Z :=
  concat (map (fun k => ztake k sbuf) ks).

Lemma restarted_data_snoc sbuf ks k :
  restarted_data sbuf (ks ++ [k]) = restarted_data sbuf ks ++ ztake k sbuf.
Proof. unfold restarted_data. rewrite map_app, concat_app. cbn. by rewrite app_nil_r. Qed.

Lemma zsum_snoc ks k : zsum (ks ++ [k]) = zsum ks + k.
Proof. unfold zsum. induction ks; cbn in *; lia. Qed.

Section FdWrite.
Context {K : Type} {HK : Kernel K} {HP : PosixKernel K} {HL : LiveKernel K}.

(** What [fd_write] transferred: whole counts on success. *)
Definition resent (fd : Z) (sbuf : list Z) (z : Z) (tr : list event) : Prop :=
  exists ks, accepted fd tr = restarted_data sbuf ks /\
    Forall (fun k => 0 <= k <= zlen sbuf) ks /\
    (z = -1 \/ (z = zsum ks /\ zlen sbuf <= z /\ exists l k, ks = l ++ [k] /\ (ks = [k] \/ zsum l < zlen sbuf))).

Lemma wp_fd_write fd sbuf fuel (w : world K) :
  zlen sbuf < 2 ^ 62 -> (length sbuf < fuel)%nat ->
  wp (fd_write fuel fd sbuf (zlen sbuf)) (fun o w' => exists z tr,
    o = Done z /\ trace w' = trace w ++ tr /\ resent fd sbuf z tr) w.
Proof.
  intros Hmax Hf. unfold fd_write. pose proof (zlen_nonneg sbuf) as Hn0.
  apply (wp_loop_total
    (fun tw w' => exists ks tr, trace w' = trace w ++ tr /\ tw = zsum ks /\
       (ks = [] \/ 0 <= tw < zlen sbuf) /\
       accepted fd tr = restarted_data sbuf ks /\ Forall (fun k => 0 <= k <= zlen sbuf) ks)
    (fun tw _ => Z.to_nat (zlen sbuf - tw))).
  2: { exists [], []. rewrite app_nil_r. split_and!; auto. }
  2: { unfold zlen. lia. }
  intros tw w' (ks & tr & Ht & -> & Hlt & Hacc & Hks). unfold fd_write_iter, write_from.
  rewrite Z.add_0_l. destruct (Z.ltb_spec (zlen sbuf) (zlen sbuf)); [lia|].
  rewrite zdrop_0, ztake_all by lia.
  do 2 wp_step. apply wp_syscall_live. intros r k [_ Hok] _ _ E. cbn [post]. wp_step.
  set (ev := EvCall (Cwrite fd sbuf) r).
  assert (Htr : trace (after (Cwrite fd sbuf) r k w') = trace w ++ (tr ++ [ev])).
  { cbn [after trace]. by rewrite Ht, app_assoc. }
  destruct (Z.ltb_spec (ret r) 0) as [Hneg|Hpos].
  { wp_step. exists (-1), (tr ++ [ev]). split; [done|]. split; [done|]. exists ks.
    split_and!; auto. rewrite accepted_app, Hacc. unfold accepted. cbn. rewrite app_nil_r.
    destruct (Z.ltb_spec 0 (ret r)); [lia|]. by rewrite andb_false_r, app_nil_r. }
  destruct Hok as [?|Hok]; [lia|].
  assert (Hacc' : accepted fd (tr ++ [ev]) = restarted_data sbuf (ks ++ [ret r])).
  { rewrite accepted_app, Hacc, restarted_data_snoc. f_equal. unfold accepted. cbn.
    rewrite Z.eqb_refl, app_nil_r. destruct (Z.ltb_spec 0 (ret r)); [done|].
    by assert (ret r = 0) as -> by lia. }
  assert (Hks' : Forall (fun k => 0 <= k <= zlen sbuf) (ks ++ [ret r])).
  { apply Forall_app. split; [done|]. by constructor. }
  assert (Hz0 : 0 <= zsum ks < 2 ^ 62) by (destruct Hlt as [->|]; [unfold zsum; cbn|]; lia).
  unfold to_size_t. rewrite wrapu_id by (unfold in_u; lia).
  destruct (Z.ltb_spec (zsum ks + ret r) (zlen sbuf)) as [Hmore|Hdone].
  - wp_step. assert (ret r <> 0).
    { pose proof (write_progress fd sbuf (kern w')) as Hw. rewrite E in Hw. apply Hw.
      intros ->. rewrite zlen_nil in *. lia. }
    split; [|lia]. exists (ks ++ [ret r]), (tr ++ [ev]). rewrite zsum_snoc.
    split_and!; auto. right. lia.
  - wp_step. exists (zsum ks + ret r), (tr ++ [ev]). split; [done|]. split; [done|].
    exists (ks ++ [ret r]). split_and!; auto. right. rewrite zsum_snoc.
    split_and!; auto. exists ks, (ret r). split; [done|].
    destruct Hlt as [->|Hlt]; [by left|right; lia].
Qed.

End FdWrite.

(** What fd_write really transfers.  It returns, with -1 or at least the number
    of bytes asked for; but every write starts over at the start of the buffer,
    so what the peer gets is a concatenation of prefixes of the buffer.  It is
    the buffer exactly when the first write takes all of it; after a partial
    write the start of the buffer is sent again. *)
Theorem fd_write_resends {K} `{HL : LiveKernel K} fd sbuf fuel (w : world K) :
  zlen sbuf < 2 ^ 62 -> (length sbuf < fuel)%nat ->
  exists z w' tr,
    fd_write fuel fd sbuf (zlen sbuf) w = (Done z, w') /\ trace w' = trace w ++ tr /\
    resent fd sbuf z tr.
Proof.
  intros Hm Hf. destruct (wp_run _ _ _ (wp_fd_write fd sbuf fuel w Hm Hf))
    as (o & w' & E & z & tr & -> & H'). by exists z, w', tr.
Qed.

Lemma fd_write_resends_witness :
  exists z w' tr,
    fd_write 20 1 (bytes_of "hello, world") 12 (World (Pipe [] [] [] 4) 0 []) = (Done z, w') /\
    trace w' = [] ++ tr /\ resent 1 (bytes_of "hello, world") z tr.
Proof.
  apply (fd_write_resends 1 (bytes_of "hello, world") 20 (World (Pipe [] [] [] 4) 0 [])).
  - by vm_compute.
  - vm_compute. lia.
Defined.

(** On a pipe that takes five bytes at a time the peer never sees the message. *)
Lemma fd_write_repeats :
  p_out (kern (snd (fd_write 20 1 (bytes_of "hello, world") 12 (World (Pipe [] [] [] 4) 0 []))))
  = bytes_of "hellohellohello".
Proof. reflexivity. Qed.

(** ** The reply buffer *)

Definition fgets1 (e : event) : list Z :=
  match e with
  | EvCall (Csys "fgets" _) r => if ret r =? 0 then [] else out r
  | _ => []
  end.

(** All the text read from the command. *)
Definition fgets_data (tr : list event) : list Z := concat (map fgets1 tr).

Lemma fgets_data_app t1 t2 : fgets_data (t1 ++ t2) = fgets_data t1 ++ fgets_data t2.
Proof. unfold fgets_data. by rewrite map_app, concat_app. Qed.

(** [reply] holding the text [acc], the rest of the block being zero. *)
Definition filled (acc : list Z) : mem :=
  init acc ++ replicate (Z.to_nat (MAXBUF - zlen acc)) (Some 0).

Lemma zlen_filled acc : zlen acc <= MAXBUF -> zlen (filled acc) = MAXBUF.
Proof. intros. unfold filled. rewrite zlen_app, zlen_init, zlen_replicate. lia. Qed.

Lemma cstr_filled acc : nonzero acc -> zlen acc < MAXBUF -> cstr_of (filled acc) = Some acc.
Proof.
  intros Hnz Hl. unfold filled.
  destruct (Z.to_nat (MAXBUF - zlen acc)) as [|n] eqn:E; [lia|]. cbn [replicate].
  by apply cstr_of_init.
Qed.

Lemma filled_strncat acc s : zlen acc + zlen s < MAXBUF ->
  blit (filled acc) (zlen acc) (s ++ [0]) = filled (acc ++ s).
Proof.
  intros Hl. pose proof (zlen_nonneg acc). pose proof (zlen_nonneg s).
  unfold blit, filled, ztake, zdrop. rewrite zlen_snoc, zlen_app.
  replace (Z.to_nat (zlen acc)) with (length (init acc)) by (rewrite length_init; unfold zlen; lia).
  rewrite take_app_length.
  replace (Z.to_nat (zlen acc + (zlen s + 1))) with (length (init acc) + (length s + 1))%nat
    by (rewrite length_init; unfold zlen; lia).
  rewrite drop_app_add', drop_replicate by done.
  rewrite !init_app, <- !app_assoc. do 2 f_equal. change (init [0]) with [Some 0].
  replace (Z.to_nat (MAXBUF - (zlen acc + zlen s)))
    with (S (Z.to_nat (MAXBUF - zlen acc) - (length s + 1))) by (unfold zlen in *; lia).
  reflexivity.
Qed.

Definition fgets_call (fp : Z) : call := Csys "fgets" [AI LINESZ; AI fp].

(** fgets stores at least one and at most LINESZ - 1 bytes; here without NUL. *)
Definition text_line (r : resp) : Prop :=
  ret r <> 0 -> 1 <= zlen (out r) < LINESZ /\ nonzero (out r).

(** The endings of the loop that collects the reply. *)
Definition collected (o : outcome mem) (data : list Z) : Prop :=
  match o with
  | Done reply => zlen data < MAXBUF /\ cstr_of reply = Some data
  | Halt (HExit 1) => MAXBUF < zlen data
  | Halt (HUB u) => zlen data = MAXBUF /\ u = UB_bounds "reply" MAXBUF
  | Halt _ => False
  end.

Section Collect.
Context {K : Type} {HK : Kernel K}.

Lemma wp_collect prg fp p fuel (w : world K) :
  (forall k : K, text_line (fst (kstep (fgets_call fp) k))) -> (Z.to_nat MAXBUF < fuel)%nat ->
  wp (collect fuel prg fp p (filled [])) (fun o w' => exists tr,
    trace w' = trace w ++ tr /\ collected o (fgets_data tr)) w.
Proof.
  intros Hline Hf. unfold collect.
  apply (wp_loop_total
    (fun '(total, reply) w' => exists tr, trace w' = trace w ++ tr /\
       let acc := fgets_data tr in
       total = zlen acc /\ reply = filled acc /\ zlen acc < MAXBUF /\ nonzero acc)
    (fun '(total, _) _ => Z.to_nat (MAXBUF - total))).
  2: { exists []. rewrite app_nil_r. by repeat constructor. }
  2: { rewrite Z.sub_0_r. done. }
  intros [total reply] w' (tr & Ht & -> & -> & Hlt & Hnz). cbn zeta in *.
  set (acc := fgets_data tr) in *. pose proof (zlen_nonneg acc) as Hacc0.
  unfold collect_iter. wp_step. apply wp_syscall. fold (fgets_call fp). intros r k E. cbn [post].
  pose proof (Hline (kern w')) as Hr. rewrite E in Hr. cbn [fst] in Hr.
  set (ev := EvCall (fgets_call fp) r).
  assert (Htr : trace (after (fgets_call fp) r k w') = trace w ++ (tr ++ [ev])).
  { cbn [after trace]. by rewrite Ht, app_assoc. }
  assert (Hdata : fgets_data (tr ++ [ev]) = acc ++ (if ret r =? 0 then [] else out r)).
  { rewrite fgets_data_app. unfold fgets_data at 2. cbn. by rewrite app_nil_r. }
  destruct (Z.eqb_spec (ret r) 0) as [E0|E0].
  { wp_step. exists (tr ++ [ev]). split; [done|]. rewrite Hdata, app_nil_r. split; [done|].
    by apply cstr_filled. }
  destruct (Hr E0) as [Hlen Hnzr]. unfold LINESZ in Hlen.
  wp_step. apply wp_copy_in; [lia|rewrite zlen_snoc, zlen_uninit; unfold LINESZ; lia|].
  cbn [post]. wp_step. eapply wp_cstr.
  { change (zdrop 0 (blit (uninit LINESZ) 0 (out r ++ [0]))) with
      (ztake 0 (uninit LINESZ) ++ init (out r ++ [0]) ++ zdrop (0 + zlen (out r ++ [0])) (uninit LINESZ)).
    rewrite init_app, <- app_assoc. by apply cstr_of_init. }
  cbn [post]. unfold to_size_t. unfold MAXBUF in *. rewrite wrapu_id by (unfold in_u; lia).
  fold MAXBUF in *. destruct (Z.ltb_spec MAXBUF (zlen acc + zlen (out r))) as [Hbig|Hfit].
  { wp_seq. eexists ((tr ++ [ev]) ++ [_; _; _]). split.
    { cbn [after trace]. rewrite Ht, <- !app_assoc. reflexivity. }
    cbn [collected]. rewrite fgets_data_app, Hdata, !zlen_app.
    match goal with |- context [fgets_data ?l] => pose proof (zlen_nonneg (fgets_data l)) end.
    lia. }
  wp_step. unfold strncat. wp_step. eapply wp_cstr; [by apply cstr_filled|]. cbn [post].
  rewrite ztake_all by (unfold LINESZ; lia).
  destruct (Z.eq_dec (zlen acc + zlen (out r)) MAXBUF) as [Heq|Hne].
  - unfold copy_in. destruct (Z.ltb_spec (zlen acc) 0); [lia|]. cbn [orb].
    rewrite zlen_filled, zlen_snoc by lia.
    destruct (Z.ltb_spec MAXBUF (zlen acc + (zlen (out r) + 1))); [|lia].
    wp_step. exists (tr ++ [ev]). split; [done|]. cbn [collected]. rewrite Hdata, zlen_app.
    split; [done|]. f_equal. lia.
  - apply wp_copy_in; [lia|rewrite zlen_filled, zlen_snoc by lia; lia|]. cbn [post].
    rewrite filled_strncat by lia. wp_step. split; [|lia].
    exists (tr ++ [ev]). split; [done|]. rewrite Hdata, zlen_app.
    split_and!; auto; [lia|]. by apply Forall_app.
Qed.

End Collect.


(** A command that prints forty lines of 127 characters. *)
Definition printer : Kernel nat := fun c k =>
  match k with O => (Resp 0 0 [], O) | S k' => (Resp 1 0 (replicate 127 97), k') end.

