(* ===== verification/XferFile.v ===== *)
(** src/ipc/net_sockets/zero_copy_sendfile/xfer_file.c: a file server and its
    client over TCP, with a read/write loop or with sendfile. *)
From S2P Require Import Prelude CMonad CLib Common Restart.

Definition SERV_IP : string := "127.0.0.1".
Definition SERV_PORT : Z := 7100.
Definition DESTFILE : string := "./destfile.dat".
Definition TRADITIONAL : Z := 1.
Definition MODERN : Z := 2.
Definition PATH_MAX : Z := 4096.
Definition O_RDONLY : Z := 0.
(** [O_WRONLY|O_TRUNC|O_CREAT] *)
Definition O_DEST : Z := 577.

Section Code.
Context {K : Type} {HK : Kernel K} (inet_ntoa : Z -> string) (pagesize : Z).

Definition VP (verbose : bool) (txt : string) : C K unit := when verbose (printf txt).

(** The SIGCHLD handler. *)
Definition sig_child (fuel : nat) (verbose : bool) : C K unit :=
  loop fuel (fun _ : unit =>
    pid ← sys "wait3" [AS "WNOHANG"];
    if 0 <? pid then
      VP verbose (cat ["parent server in SIGCHLD handler; pid="; fmt_d pid; nl]);; mret (inl tt)
    else mret (inr tt)) tt.

Definition err_exit {A} (prg err : string) (exitcode : Z) : C K A :=
  perror (snprintf 511 (cat [prg; ": "; err]));;
  exit exitcode.

(** The read/write loop, which server and client share but for their messages:
    [rbuf] has the size of a page. *)
Definition xfer_iter (fuel : nat) (prg side : string) (from to tot : Z) : C K (Z + Z) :=
  '(nr, rbuf) ← r_read fuel from pagesize;
  let nr := to_int nr in
  if 0 =? nr then mret (inr tot)
  else if nr <? 0 then err_exit prg (side +:+ ": read error") 1
  else
    n ← r_write fuel to rbuf nr;
    (if n <=? 0 then err_exit prg (side +:+ ": write error") 1 else mret tt);;
    if INT_MAX <? tot + nr then undefined (UB_overflow "total bytes") else mret (inl (tot + nr)).

Definition xfer_loop (fuel : nat) (prg side : string) (from to : Z) : C K Z :=
  loop fuel (xfer_iter fuel prg side from to) 0.

(** The single sendfile: fstat stores the size of the file. *)
Definition send_modern (prg : string) (sd fd_send p : Z) : C K Z :=
  s ← syscall (Csys "fstat" [AI fd_send]);
  if ret s <? 0 then syscall (Cfree p);; err_exit prg "svr: fstat error" 1
  else
    n ← sys "sendfile" [AI sd; AI fd_send; AI 0; AI (nth 0 (out s) 0)];
    let tsent := to_int n in
    if tsent <? 0 then syscall (Cfree p);; err_exit prg "svr: sendfile error" 1
    else mret tsent.

(** The name of the file asked for, read into a block of PATH_MAX bytes. *)
Definition read_name (prg : string) (sd p : Z) : C K string :=
  r ← syscall (Cread sd PATH_MAX);
  if ret r =? -1 then syscall (Cfree p);; err_exit prg "svr: socket read error" 1
  else
    file2send ← copy_in "file2send" (uninit PATH_MAX) 0 (out r);
    file2send ← wr "file2send" file2send (ret r) 0;
    name ← cstr "file2send" file2send 0;
    mret (text_of name).

(** The opened file is sent, then everything is released. *)
Definition send_file (fuel : nat) (verbose : bool) (sd howto : Z) (prg : string) (p fd_send : Z) : C K Z :=
  tsent ← (if howto =? MODERN then
             VP verbose (cat ["svr: using MODERN sendfile(2) approach..."; nl]);;
             send_modern prg sd fd_send p
           else if howto =? TRADITIONAL then
             VP verbose (cat ["svr: using TRADITIONAL read/write loop approach..."; nl]);;
             xfer_loop fuel prg "svr" fd_send sd
           else mret 0);
  VP verbose (cat ["svr: # bytes sent    : "; fmt_wd 16 tsent; nl]);;
  syscall (Cfree p);;
  r_close fuel fd_send;;
  r_close fuel sd;;
  mret 0.

Definition process_client (fuel : nat) (verbose : bool) (sd howto : Z) (prg : string) : C K Z :=
  p ← syscall (Cmalloc PATH_MAX);
  (if ret p =? 0 then
     printf (cat [nl; prg; ": no memory for username buffer"]);; exit 1
   else mret tt);;
  file2send ← read_name prg sd (ret p);
  VP verbose (cat ["svr: to send file "; dquote; file2send; dquote; " to client..."; nl]);;
  fd_send ← r_open2 fuel file2send O_RDONLY;
  (if fd_send =? -1 then syscall (Cfree (ret p));; err_exit prg "svr: file open error" 1
   else mret tt);;
  send_file fuel verbose sd howto prg (ret p) fd_send.

Definition usage (name : string) : C K unit :=
  fprintf stderr (cat ["Usage:"; nl; name; " -s -{t|m} [-v]                <--- as server"; nl;
    "-OR-"; nl; name; " file-to-send [-v]             <--- as client"; nl; nl;
    " -s : run the program as the server"; nl;
    "  -t : use the _t_raditional 'loop over read/write syscalls' approach"; nl;
    "  -m : use the _m_odern 'single sendfile(2) syscall' approach"; nl;
    " If '-s' not present, it implies it's the client and you must pass a valid pathname as file to 'GET' from the server."; nl]).

(** [s[0] == '-' && s[1] == c] *)
Definition is_option (s : string) (c : Z) : bool :=
  match bytes_of s with 45 :: b :: _ => b =? c | _ => false end.

(** The arguments: [is_server], [how] and [verbose]; [verbose] is still 0 when
    the approach is announced. *)
Definition parse_args (argv : list string) : C K (bool * Z * bool) :=
  let name := arg_n argv 0 in
  if argc argv <? 2 then usage name;; exit 1
  else if is_option (arg_n argv 1) 115 then
    if argc argv <? 3 then usage name;; exit 1
    else
      how ← (if is_option (arg_n argv 2) 116 then
               VP false (cat ["svr: will use TRADITIONAL (multiple) read/write loop approach."; nl]);;
               mret TRADITIONAL
             else if is_option (arg_n argv 2) 109 then
               VP false (cat ["svr: will use MODERN (single) sendfile(2) approach."; nl]);;
               mret MODERN
             else usage name;; exit 1);
      mret (true, how, (3 <? argc argv) && (strcmp (arg_n argv 3) "-v" =? 0))
  else mret (false, 0, (2 <? argc argv) && (strcmp (arg_n argv 2) "-v" =? 0)).

Definition server_setup (name : string) (verbose : bool) (sd : Z) : C K unit :=
  o ← sys "setsockopt" [AI sd; AS "SO_REUSEADDR"; AI 1];
  (if o =? -1 then err_exit name "setsockopt" 1 else mret tt);;
  b ← sys "bind" [AI sd; AS SERV_IP; AI SERV_PORT];
  (if b =? -1 then err_exit name "svr: socket bind error" 1 else mret tt);;
  VP verbose (cat [name; ": bind done at IP "; SERV_IP; " port "; fmt_d SERV_PORT; nl]);;
  l ← sys "listen" [AI sd; AI 1];
  (if l =? -1 then err_exit name "svr: socket listen error" 1 else mret tt);;
  VP verbose (cat [name; ": listen q set up"; nl]);;
  a ← sys "sigaction" [AI 17; AS "sig_child"; AS "SA_RESTART|SA_NOCLDSTOP|SA_NOCLDWAIT"];
  (if a =? -1 then err_exit name "svr: sigaction error" 1 else mret tt);;
  VP verbose (cat [name; ": SIGCHLD handler set up"; nl]).

(** One turn of [while (1)]; accept stores the client's address and port. *)
Definition server_iter (fuel : nat) (name : string) (verbose : bool) (how sd : Z) : C K unit :=
  (if verbose then
     pid ← sys "getpid" [];
     printf (cat [name; ": pid "; fmt_d pid; " blocking on accept().."; nl])
   else mret tt);;
  a ← syscall (Csys "accept" [AI sd]);
  (if ret a =? -1 then err_exit name "svr: socket accept error" 1 else mret tt);;
  VP verbose (cat [nl; "Server "; name; ": client connected now from IP ";
                   inet_ntoa (nth 0 (out a) 0); " port # "; fmt_d (nth 1 (out a) 0); nl]);;
  process_client fuel verbose (ret a) how name;;
  mret tt.

(** The client saves what the server sends. *)
Definition receive (fuel : nat) (name : string) (verbose : bool) (sd : Z) : C K unit :=
  fd_dest ← r_open3 fuel DESTFILE O_DEST 420;
  (if fd_dest =? -1 then err_exit name "cli: dest file open error" 1 else mret tt);;
  trecv ← xfer_loop fuel name "cli" sd fd_dest;
  r_close fuel fd_dest;;
  VP verbose (cat ["cli: # bytes received: "; fmt_wd 16 trecv; nl]).

Definition client (fuel : nat) (name file : string) (verbose : bool) (sd : Z) : C K unit :=
  c ← sys "connect" [AI sd; AS SERV_IP; AI SERV_PORT];
  (if c =? -1 then err_exit name "cli: connection error" 1 else mret tt);;
  n ← r_write fuel sd (bytes_of file) (strlen file);
  (if n <? 0 then err_exit name "cli: write error" 1 else mret tt);;
  receive fuel name verbose sd.

Definition main (fuel : nat) (argv : list string) : C K Z :=
  let name := arg_n argv 0 in
  '(is_server, how, verbose) ← parse_args argv;
  sd ← sys "socket" [AI 2; AI 1; AI 0];
  (if sd =? -1 then err_exit name "socket creation error" 1 else mret tt);;
  VP verbose (cat [name; ": tcp socket created"; nl]);;
  (if is_server : bool then
     server_setup name verbose sd;;
     loop fuel (fun _ : unit => server_iter fuel name verbose how sd;; mret (inl tt)) tt
   else client fuel name (arg_n argv 1) verbose sd);;
  r_close fuel sd;;
  mret 0.

End Code.

(** ** What goes over the connection *)

(** The bytes a call puts on the connection [sd]: those a write was accepted, and
    those sendfile took from a file; [contents fd] is what is in the file open as
    [fd], which sendfile, called with the offset NULL, sends from the start. *)
Definition put1 (contents : Z -> list Z) (sd : Z) (e : event) : list Z :=
  match e with
  | EvCall (Csys fn (AI sd' :: AI fd :: _)) r =>
      if bool_decide (fn = "sendfile") && (sd' =? sd) && (0 <? ret r)
      then ztake (ret r) (contents fd) else []
  | _ => accepted1 sd e
  end.

Definition put (contents : Z -> list Z) (sd : Z) (tr : list event) : list Z :=
  concat (map (put1 contents sd) tr).

(** Everything but sendfile. *)
Definition no_sendfile (e : event) : Prop :=
  match e with EvCall (Csys fn _) _ => fn <> "sendfile" | _ => True end.

Lemma put_app contents sd t1 t2 : put contents sd (t1 ++ t2) = put contents sd t1 ++ put contents sd t2.
Proof. unfold put. by rewrite map_app, concat_app. Qed.

Lemma put_accepted contents sd tr : Forall no_sendfile tr -> put contents sd tr = accepted sd tr.
Proof.
  intros H. unfold put, accepted. f_equal. apply map_ext_Forall. eapply Forall_impl; [exact H|].
  intros [[| | | | | |fn [|[z| |] [|[z'| |] args]]] r| | |]; try done.
  cbn. intros Hn. by rewrite bool_decide_eq_false_2.
Qed.

Lemma silent_no_sendfile tr : silent tr -> Forall no_sendfile tr.
Proof.
  intros H. eapply Forall_impl; [exact H|]. intros [[]| | |]; try done. cbn.
  by rewrite bool_decide_eq_false.
Qed.

Lemma silent_put contents sd tr : silent tr -> put contents sd tr = [].
Proof. intros H. rewrite put_accepted by (by apply silent_no_sendfile). by apply silent_nil_l. Qed.

Lemma reads_no_sendfile fd tr : Forall (read_call fd) tr -> Forall no_sendfile tr.
Proof. intros H. eapply Forall_impl; [exact H|]. by intros [[]| | |]. Qed.

Lemma writes_no_sendfile fd tr : Forall (write_call fd) tr -> Forall no_sendfile tr.
Proof. intros H. eapply Forall_impl; [exact H|]. by intros [[]| | |]. Qed.

(** A read of [from] or a write to [to] that failed for good. *)
Definition copy_failed (from to : Z) (tr : list event) : Prop :=
  exists e ev, ev ∈ tr /\ (read_error from e ev \/ write_error to e ev).

Lemma copy_failed_r from to e t1 t2 :
  ends_with (read_error from e) t1 -> copy_failed from to (t1 ++ t2).
Proof. intros (pre & ev & -> & H). exists e, ev. split; [set_solver|by left]. Qed.

Lemma copy_failed_w from to e t1 t2 :
  ends_with (write_error to e) t1 -> copy_failed from to (t1 ++ t2).
Proof. intros (pre & ev & -> & H). exists e, ev. split; [set_solver|by right]. Qed.

Lemma copy_failed_app from to t1 t2 : copy_failed from to t2 -> copy_failed from to (t1 ++ t2).
Proof. intros (e & ev & Hin & H). exists e, ev. split; [set_solver|done]. Qed.

(** ** The read/write loop *)

Section Loop.
Context {K : Type} {HK : Kernel K} {HP : PosixKernel K} {HL : LiveKernel K}.
Context (pagesize : Z) (Hpage : 0 < pagesize).

Definition xfer_inv (from to : Z) (w0 : world K) (tot : Z) (w : world K) : Prop :=
  exists tr, trace w = trace w0 ++ tr /\ tot = zlen (received from tr) /\
    accepted to tr = received from tr /\ only_to to tr /\ Forall no_sendfile tr /\
    calmer (kern w0) (kern w) /\
    (pending from (kern w) + Z.to_nat tot <= pending from (kern w0))%nat.

(** What the loop leaves: the input copied up to its end, or an exit after a call
    that failed, with a part of it. *)
Definition xfer_post (from to : Z) (w0 : world K) (o : outcome Z) (w : world K) : Prop :=
  exists tr, trace w = trace w0 ++ tr /\ only_to to tr /\ Forall no_sendfile tr /\
    match o with
    | Done tot => tot = zlen (received from tr) /\ accepted to tr = received from tr /\
                  ends_with (read_eof from) tr /\ calmer (kern w0) (kern w)
    | Halt h => h = HExit 1 /\ accepted to tr `prefix_of` received from tr /\ copy_failed from to tr
    end.

Lemma wp_err_exit {A} prg msg c (Q : outcome A -> world K -> Prop) w :
  (forall tr w', trace w' = trace w ++ tr -> silent tr -> Q (Halt (HExit c)) w') ->
  wp (err_exit prg msg c) Q w.
Proof.
  intros HQ. unfold err_exit. wp_go. eapply HQ; [reflexivity|by apply silent_one].
Qed.

Lemma xfer_step fuel prg side from to w0 tot w :
  from <> to -> Z.of_nat (pending from (kern w0)) <= INT_MAX ->
  (pending from (kern w0) + patience (kern w0) < fuel)%nat ->
  xfer_inv from to w0 tot w ->
  wp (xfer_iter pagesize fuel prg side from to tot)
    (post (fun x w' => match x with
                       | inl s' => xfer_inv from to w0 s' w' /\
                           (pending from (kern w') < pending from (kern w))%nat
                       | inr r => xfer_post from to w0 (Done r) w'
                       end)
          (fun h w' => xfer_post from to w0 (Halt h) w')) w.
Proof.
  intros Hne Hmax Hf (tr & Ht & Htot & Hacc & Honly & Hns & Hc & Hp). unfold xfer_iter. wp_step.
  pose proof (proj1 Hc) as Hpat. apply wp_r_read; [lia|].
  intros z bs tr1 w1 Ht1 Hz Ha1 Hrc Hc1 Hp1. cbn [post].
  pose proof (proj2 Hc from) as Hpf. apply reads_no_sendfile in Hrc.
  assert (Hzr : -1 <= z <= INT_MAX) by (destruct Hz as [[-> _]|[? _]]; unfold INT_MAX in *; lia).
  rewrite to_int_id by (unfold INT_MIN; lia).
  assert (Ho1 : only_to to (tr ++ tr1)) by (apply only_to_app; [done|by intros fd _]).
  assert (Hns1 : Forall no_sendfile (tr ++ tr1)) by (by apply Forall_app).
  assert (Htr1 : trace w1 = trace w0 ++ (tr ++ tr1)) by (by rewrite Ht1, Ht, app_assoc).
  destruct (Z.eqb_spec 0 z) as [<-|Hz0].
  { wp_step. exists (tr ++ tr1). split; [done|]. split; [done|]. split; [done|].
    rewrite accepted_app, received_app, Ha1, app_nil_r.
    destruct Hz as [[? _]|(_ & Hl & -> & Heof)]; [lia|]. apply zlen_0 in Hl as ->. rewrite app_nil_r.
    split_and!; [done|done|by apply ends_with_app, Heof|by etrans]. }
  destruct (Z.ltb_spec z 0) as [Hneg|Hpos].
  { apply wp_err_exit. intros tr2 w2 Ht2 Hs2. exists ((tr ++ tr1) ++ tr2).
    destruct Hz as [(_ & Hr1 & Herr)|[? _]]; [|lia].
    split; [by rewrite Ht2, Htr1, !app_assoc|].
    split; [by apply only_to_app; [|intros fd _; apply silent_nil_l]|].
    split; [apply Forall_app; split; [done|by apply silent_no_sendfile]|]. split; [done|].
    rewrite !accepted_app, !received_app, Ha1, Hr1, (proj1 (silent_moves _ Hs2 _)),
      (proj2 (silent_moves _ Hs2 _)), !app_nil_r, Hacc.
    split; [done|]. by eapply copy_failed_r, ends_with_app. }
  destruct Hz as [[? _]|(Hz & Hl & Hrec & _)]; [lia|]. wp_step.
  pose proof (proj1 Hc1). apply wp_r_write; [lia|unfold INT_MAX in *; lia|lia|].
  intros n tr2 w2 Ht2 (Hw & Ho2 & Hr2 & Hwc) Hc2. cbn [post]. apply writes_no_sendfile in Hwc.
  assert (Htr2 : trace w2 = trace w0 ++ (tr ++ tr1 ++ tr2)) by (by rewrite Ht2, Htr1, !app_assoc).
  assert (Ho12 : only_to to (tr ++ tr1 ++ tr2)) by (rewrite app_assoc; by apply only_to_app).
  assert (Hns2 : Forall no_sendfile (tr ++ tr1 ++ tr2)) by (rewrite !Forall_app; done).
  assert (Hacc2 : accepted to (tr ++ tr1 ++ tr2) = received from tr ++ accepted to tr2).
  { by rewrite !accepted_app, Ha1, Hacc. }
  assert (Hrec2 : received from (tr ++ tr1 ++ tr2) = received from tr ++ bs).
  { by rewrite !received_app, Hr2, Hrec, app_nil_r. }
  destruct Hw as [[-> Hw]|(-> & Herr & n' & Hn' & Hw)].
  - destruct (Z.leb_spec z 0); [lia|]. do 2 wp_step. pose proof (proj2 Hc2 from).
    destruct (Z.ltb_spec INT_MAX (tot + z)); [lia|]. wp_step. split; [|lia].
    exists (tr ++ tr1 ++ tr2). rewrite Hacc2, Hrec2, Hw, zlen_app, ztake_all by lia.
    split_and!; auto; [lia|by etrans; [|etrans]|lia].
  - change (-1 <=? 0) with true. wp_step. apply wp_err_exit. intros tr3 w3 Ht3 Hs3.
    exists ((tr ++ tr1 ++ tr2) ++ tr3). split; [by rewrite Ht3, Htr2, !app_assoc|].
    split; [by apply only_to_app; [|intros fd _; apply silent_nil_l]|].
    split; [apply Forall_app; split; [done|by apply silent_no_sendfile]|]. split; [done|].
    rewrite accepted_app, received_app, Hacc2, Hrec2, (proj1 (silent_moves _ Hs3 _)),
      (proj2 (silent_moves _ Hs3 _)), Hw, !app_nil_r.
    split; [apply prefix_app, ztake_prefix|]. by eapply copy_failed_w, ends_with_app, ends_with_app.
Qed.

Lemma wp_xfer_loop fuel prg side from to (Q : outcome Z -> world K -> Prop) w :
  from <> to -> Z.of_nat (pending from (kern w)) <= INT_MAX ->
  (pending from (kern w) + patience (kern w) < fuel)%nat ->
  (forall o w', xfer_post from to w o w' -> Q o w') ->
  wp (xfer_loop pagesize fuel prg side from to) Q w.
Proof.
  intros Hne Hmax Hf HQ. eapply wp_mono; [exact HQ|]. unfold xfer_loop.
  apply (wp_loop_total (xfer_inv from to w) (fun _ w' => pending from (kern w'))); [| |lia].
  - intros tot w' HI. by apply xfer_step.
  - exists []. rewrite app_nil_r. split_and!; try done. simpl. lia.
Qed.

End Loop.

(** ** The server *)

Section Server.
Context {K : Type} {HK : Kernel K} {HP : PosixKernel K} {HL : LiveKernel K}.

Lemma wp_VP b txt (Q : outcome unit -> world K -> Prop) w :
  (forall tr w', trace w' = trace w ++ tr -> silent tr -> kern w' = kern w -> Q (Done tt) w') ->
  wp (VP b txt) Q w.
Proof.
  intros HQ. unfold VP, when. destruct b; wp_step.
  - eapply HQ; [reflexivity|by apply silent_one|done].
  - apply (HQ []); [by rewrite app_nil_r|by constructor|done].
Qed.

(** The name in a request: the bytes up to the first NUL. *)
Definition request_name (req : resp) (name : list Z) : Prop :=
  cstr_of (init (out req) ++ [Some 0]) = Some name.

Lemma wp_read_name prg sd p (Q : outcome string -> world K -> Prop) w :
  (forall req name w', trace w' = trace w ++ [EvCall (Cread sd PATH_MAX) req] ->
     ret req < PATH_MAX -> request_name req name -> calmer (kern w) (kern w') ->
     Q (Done (text_of name)) w') ->
  (forall req tr w', trace w' = trace w ++ [EvCall (Cread sd PATH_MAX) req] ++ tr -> silent tr ->
     Q (Halt (HExit 1)) w') ->
  (forall req w', trace w' = trace w ++ [EvCall (Cread sd PATH_MAX) req] ->
     ret req = PATH_MAX /\ zlen (out req) = PATH_MAX ->
     Q (Halt (HUB (UB_bounds "file2send" PATH_MAX))) w') ->
  wp (read_name prg sd p) Q w.
Proof.
  intros HQ HX HU. unfold read_name. wp_step. apply wp_syscall_live. intros r k [_ Hok] Hc _ _.
  cbn [post]. destruct (Z.eqb_spec (ret r) (-1)) as [E|E].
  { do 2 wp_step. apply wp_err_exit. intros tr w' Ht Hs. eapply (HX r ([_] ++ tr)).
    - rewrite Ht. cbn [after trace]. by rewrite <- !app_assoc.
    - by apply silent_app; [apply silent_one|]. }
  destruct Hok as [?|(Hr & Hl & _)]; [done|]. rewrite <- Hl. apply wp_terminated; [lia| |].
  - intros name Hlt Hname. eapply HQ; [reflexivity|lia|done|done].
  - intros Heq. eapply HU; [reflexivity|]. split; [lia|done].
Qed.

End Server.

(** What a server that returned has put on the connection: with the read/write
    loop what it read from [fd] up to the end of the file; with sendfile as much of
    the file as the one sendfile, which was asked for the size fstat gave, sent. *)
Definition sent_all (contents : Z -> list Z) (howto sd fd : Z) (tr : list event) : Prop :=
  (howto = TRADITIONAL /\ put contents sd tr = received fd tr /\ stops_at_eof fd tr) \/
  (howto = MODERN /\ exists st sf,
     EvCall (Csys "fstat" [AI fd]) st ∈ tr /\ 0 <= ret st /\
     EvCall (Csys "sendfile" [AI sd; AI fd; AI 0; AI (nth 0 (out st) 0)]) sf ∈ tr /\
     0 <= to_int (ret sf) /\ put contents sd tr = ztake (ret sf) (contents fd)).

(** What a server that gave up has put there. *)
Definition sent_part (contents : Z -> list Z) (howto sd fd : Z) (tr : list event) : Prop :=
  (howto = TRADITIONAL /\ put contents sd tr `prefix_of` received fd tr /\ copy_failed fd sd tr) \/
  (howto = MODERN /\ put contents sd tr `prefix_of` contents fd).

Definition sent (contents : Z -> list Z) (howto sd fd : Z) (o : outcome Z) (tr : list event) : Prop :=
  match o with
  | Done z => z = 0 /\ sent_all contents howto sd fd tr
  | Halt h => h = HExit 1 /\ sent_part contents howto sd fd tr
  end.

(** Around a run that sends there may be events that neither send nor read [fd]. *)
Lemma sent_around contents howto sd fd o t0 t1 t2 :
  put contents sd t0 = [] -> received fd t0 = [] -> put contents sd t2 = [] -> received fd t2 = [] ->
  sent contents howto sd fd o t1 -> sent contents howto sd fd o (t0 ++ t1 ++ t2).
Proof.
  intros P0 R0 P2 R2.
  assert (EP : put contents sd (t0 ++ t1 ++ t2) = put contents sd t1)
    by (by rewrite !put_app, P0, P2, app_nil_r).
  assert (ER : received fd (t0 ++ t1 ++ t2) = received fd t1)
    by (by rewrite !received_app, R0, R2, app_nil_r).
  destruct o as [z|h]; cbn [sent]; intros [-> H]; (split; [done|]).
  - destruct H as [(-> & H & He)|(-> & st & sf & H1 & H2 & H3 & H4 & H5)]; [left|right].
    + rewrite EP, ER. split_and!; [done|done|by apply stops_at_eof_app].
    + split; [done|]. exists st, sf. rewrite EP. split_and!; auto; set_solver.
  - destruct H as [(-> & H & e & ev & Hin & Hev)|(-> & H)]; [left|right]; rewrite EP, ?ER; [|done].
    split_and!; [done|done|]. exists e, ev. split; [set_solver|done].
Qed.

Section SendFile.
Context {K : Type} {HK : Kernel K} {HP : PosixKernel K} {HL : LiveKernel K}.
Context (pagesize : Z) (Hpage : 0 < pagesize) (contents : Z -> list Z) (fuel : nat).

(** The number sent by sendfile is cut to an int; a negative one is an error. *)
Lemma wp_send_modern prg sd fd p (Q : outcome Z -> world K -> Prop) w :
  (forall z tr w', trace w' = trace w ++ tr -> calmer (kern w) (kern w') ->
     sent_all contents MODERN sd fd tr -> Q (Done z) w') ->
  (forall tr w', trace w' = trace w ++ tr -> sent_part contents MODERN sd fd tr ->
     Q (Halt (HExit 1)) w') ->
  wp (send_modern prg sd fd p) Q w.
Proof.
  intros HQ HX. unfold send_modern. wp_step. apply wp_syscall_live. intros st k1 _ Hc1 _ _. cbn [post].
  destruct (Z.ltb_spec (ret st) 0).
  { do 2 wp_step. apply wp_err_exit. intros tr w' Ht Hs. eapply (HX ([_; _] ++ tr)).
    - rewrite Ht. cbn [after trace]. by rewrite <- !app_assoc.
    - right. split; [done|]. rewrite put_app, (silent_put _ _ _ Hs). apply prefix_nil. }
  wp_step. unfold sys. wp_step. apply wp_syscall_live. intros sf k2 _ Hc2 _ _. cbn [post]. wp_step. cbv zeta.
  assert (Hput : forall c r, put contents sd
    [EvCall (Csys "fstat" [AI fd]) r; EvCall (Csys "sendfile" [AI sd; AI fd; AI 0; AI c]) sf]
    = ztake (ret sf) (contents fd)).
  { intros c r. unfold put. cbn. rewrite Z.eqb_refl. cbn [andb]. rewrite app_nil_r.
    destruct (Z.ltb_spec 0 (ret sf)); [done|]. unfold ztake. by replace (Z.to_nat (ret sf)) with 0%nat by lia. }
  destruct (Z.ltb_spec (to_int (ret sf)) 0).
  { do 2 wp_step. apply wp_err_exit. intros tr w' Ht Hs. eapply (HX ([_; _] ++ [_] ++ tr)).
    - rewrite Ht. cbn [after trace]. by rewrite <- !app_assoc.
    - right. split; [done|]. rewrite put_app, Hput, put_app, (silent_put _ _ _ Hs). cbn.
      rewrite app_nil_r. apply ztake_prefix. }
  wp_step. eapply (HQ _ [_; _]).
  - cbn [after trace]. by rewrite <- app_assoc.
  - cbn [after kern] in *. by etrans.
  - right. split; [done|]. exists st, sf. rewrite Hput. split_and!; auto; set_solver.
Qed.

Lemma wp_send_body verbose sd howto prg p fd (Q : outcome Z -> world K -> Prop) w :
  roomy fuel (kern w) -> fd <> sd -> howto = TRADITIONAL \/ howto = MODERN ->
  (forall z tr w', trace w' = trace w ++ tr -> calmer (kern w) (kern w') ->
     sent_all contents howto sd fd tr -> Q (Done z) w') ->
  (forall tr w', trace w' = trace w ++ tr -> sent_part contents howto sd fd tr ->
     Q (Halt (HExit 1)) w') ->
  wp (if howto =? MODERN then
        VP verbose (cat ["svr: using MODERN sendfile(2) approach..."; nl]);;
        send_modern prg sd fd p
      else if howto =? TRADITIONAL then
        VP verbose (cat ["svr: using TRADITIONAL read/write loop approach..."; nl]);;
        xfer_loop pagesize fuel prg "svr" fd sd
      else mret 0) Q w.
Proof.
  intros Hroom Hne Hhow HQ HX.
  assert (Hpre : forall tr1 tr2 o, silent tr1 -> sent contents howto sd fd o tr2 ->
    sent contents howto sd fd o (tr1 ++ tr2)).
  { intros tr1 tr2 o Hs H. rewrite <- (app_nil_r tr2). apply sent_around; try done.
    - by apply silent_put.
    - by apply silent_moves. }
  destruct Hhow as [-> | ->].
  - change (TRADITIONAL =? MODERN) with false. change (TRADITIONAL =? TRADITIONAL) with true. cbv iota.
    wp_step. apply wp_VP. intros tr1 w1 Ht1 Hs1 Hk1. cbn [post].
    destruct (Hroom fd). apply wp_xfer_loop; [done|done|by rewrite Hk1..|].
    intros [tot|h] w2 (tr2 & Ht2 & _ & Hns & H2).
    + destruct H2 as (_ & Hacc & Heof & Hc). eapply (HQ _ (tr1 ++ tr2)).
      * by rewrite Ht2, Ht1, app_assoc.
      * by rewrite <- Hk1.
      * apply (Hpre tr1 tr2 (Done 0) Hs1). split; [done|]. left. rewrite put_accepted by done.
        split_and!; [done|done|]. exists tr2, []. by rewrite app_nil_r.
    + destruct H2 as (-> & Hacc & Hf). eapply (HX (tr1 ++ tr2)); [by rewrite Ht2, Ht1, app_assoc|].
      apply (Hpre tr1 tr2 (Halt (HExit 1)) Hs1). split; [done|]. left. by rewrite put_accepted.
  - change (MODERN =? MODERN) with true. cbv iota. wp_step. apply wp_VP. intros tr1 w1 Ht1 Hs1 Hk1.
    cbn [post]. apply wp_send_modern.
    + intros z tr2 w2 Ht2 Hc H2. eapply (HQ _ (tr1 ++ tr2)); [by rewrite Ht2, Ht1, app_assoc|by rewrite <- Hk1|].
      by apply (Hpre tr1 tr2 (Done 0) Hs1).
    + intros tr2 w2 Ht2 H2. eapply (HX (tr1 ++ tr2)); [by rewrite Ht2, Ht1, app_assoc|].
      by apply (Hpre tr1 tr2 (Halt (HExit 1)) Hs1).
Qed.

Lemma wp_send_file verbose sd howto prg p fd (w : world K) :
  roomy fuel (kern w) -> fd <> sd -> howto = TRADITIONAL \/ howto = MODERN ->
  wp (send_file pagesize fuel verbose sd howto prg p fd)
     (fun o w' => exists tr, trace w' = trace w ++ tr /\ sent contents howto sd fd o tr) w.
Proof.
  intros Hroom Hne Hhow. unfold send_file. wp_step. apply wp_send_body; [done..| |].
  2: { intros tr w' Ht H. exists tr. by split. }
  intros z tr2 w2 Ht2 Hc2 Hsent. cbn [post].
  apply (roomy_calmer _ _ _ Hroom) in Hc2 as Hroom2. wp_step.
  apply wp_VP. intros tr3 w3 Ht3 Hs3 Hk3. cbn [post]. wp_step.
  apply wp_syscall_live. intros r4 k4 _ Hc4 _ _. rewrite Hk3 in Hc4.
  apply (roomy_calmer _ _ _ Hroom2) in Hc4 as Hroom4. cbn [post]. wp_step.
  apply wp_r_close; [by apply roomy_patience|]. intros z5 tr5 w5 Ht5 Hs5 Hc5.
  apply (roomy_calmer _ _ _ Hroom4) in Hc5 as Hroom5. cbn [post]. wp_step.
  apply wp_r_close; [by apply roomy_patience|]. intros z6 tr6 w6 Ht6 Hs6 Hc6. cbn [post]. wp_step.
  set (ev := EvCall (Cfree p) r4). exists ([] ++ tr2 ++ (tr3 ++ [ev] ++ tr5 ++ tr6)). split.
  { rewrite Ht6, Ht5. cbn [after trace]. rewrite Ht3, Ht2. by rewrite <- !app_assoc. }
  assert (Hs : silent (tr3 ++ [ev] ++ tr5 ++ tr6))
    by (repeat apply silent_app; [done|by apply silent_one|done|done]).
  apply sent_around; [done|done|by apply silent_put|by apply silent_moves|]. by split.
Qed.

(** The endings of a served connection: the file was opened under the name the
    client sent and then sent as above; an early failure sent nothing. *)
Definition asked (sd : Z) (tr : list event) (fd : Z) (name : list Z) : Prop :=
  exists req op, EvCall (Cread sd PATH_MAX) req ∈ tr /\ ret req < PATH_MAX /\ request_name req name /\
    EvCall (Copen (text_of name) O_RDONLY 0) op ∈ tr /\ fd = ret op.

Definition served (howto sd : Z) (o : outcome Z) (tr : list event) : Prop :=
  match o with
  | Done z => z = 0 /\ exists fd name, asked sd tr fd name /\ sent_all contents howto sd fd tr
  | Halt (HExit c) => c = 1 /\
      (put contents sd tr = [] \/
       exists fd name, asked sd tr fd name /\ sent_part contents howto sd fd tr)
  | Halt (HUB u) => u = UB_bounds "file2send" PATH_MAX /\
      exists req, EvCall (Cread sd PATH_MAX) req ∈ tr /\ ret req = PATH_MAX /\ zlen (out req) = PATH_MAX
  | Halt _ => False
  end.

Lemma wp_process_client verbose sd howto prg (w : world K) :
  roomy fuel (kern w) -> open_is_fresh K sd O_RDONLY 0 -> howto = TRADITIONAL \/ howto = MODERN ->
  wp (process_client pagesize fuel verbose sd howto prg)
     (fun o w' => exists tr, trace w' = trace w ++ tr /\ served howto sd o tr) w.
Proof.
  intros Hroom Hfresh Hhow. unfold process_client. wp_step.
  apply wp_syscall_live. intros p k _ Hc _ _. cbn [post]. wp_step.
  destruct (Z.eqb_spec (ret p) 0).
  { wp_go. eexists. split; [cbn [after trace]; by rewrite <- app_assoc|]. cbn. by auto. }
  do 2 wp_step. set (ev := EvCall (Cmalloc PATH_MAX) p).
  apply (roomy_calmer _ _ _ Hroom) in Hc as Hroom0.
  apply wp_read_name; cbn [post after kern trace].
  2: { intros req tr w' Ht Hs. exists ([ev; EvCall (Cread sd PATH_MAX) req] ++ tr).
       split; [by rewrite Ht, <- !app_assoc|].
       cbn [served]. split; [done|left]. by rewrite put_app, (silent_put _ _ _ Hs). }
  2: { intros req w' Ht Hreq. exists ([ev] ++ [EvCall (Cread sd PATH_MAX) req]).
       split; [by rewrite Ht, <- app_assoc|]. cbn [served]. split; [done|]. exists req.
       split; [set_solver|done]. }
  intros req name w1 Ht1 Hreq Hname Hc1. apply (roomy_calmer _ _ _ Hroom0) in Hc1 as Hroom1.
  set (rev := EvCall (Cread sd PATH_MAX) req) in *. wp_step. apply wp_VP. intros tr2 w2 Ht2 Hs2 Hk2.
  cbn [post]. wp_step. unfold r_open2. wp_step.
  apply wp_restart_silent; [done..|rewrite Hk2; by apply roomy_patience|].
  intros op tr3 w3 k3 Ht3 Hs3 Hin3 Hop Hc3. rewrite Hk2 in Hc3.
  apply (roomy_calmer _ _ _ Hroom1) in Hc3 as Hroom3. cbn [post]. wp_step.
  cbn [post]. wp_step. apply Hfresh in Hop.
  assert (Ht3' : trace w3 = trace w ++ ([ev; rev] ++ tr2 ++ tr3)).
  { rewrite Ht3, Ht2, Ht1. by rewrite <- !app_assoc. }
  assert (Hs23 : silent (tr2 ++ tr3)) by (by apply silent_app).
  destruct (Z.eqb_spec (ret op) (-1)).
  { do 2 wp_step. apply wp_err_exit. intros tr4 w4 Ht4 Hs4.
    eexists ([ev; rev] ++ (tr2 ++ tr3) ++ [_] ++ tr4).
    split; [rewrite Ht4; cbn [after trace]; rewrite Ht3'; by rewrite <- !app_assoc|].
    cbn [served]. split; [done|left]. by rewrite (put_app _ _ [_; _]), (put_app _ _ (tr2 ++ tr3)), (put_app _ _ [_]),
      (silent_put _ _ _ Hs23), (silent_put _ _ _ Hs4). }
  wp_step. eapply wp_mono; [|by apply wp_send_file].
  intros o w4 (tr4 & Ht4 & Hsent). set (pre := [ev; rev] ++ tr2 ++ tr3) in *.
  exists (pre ++ tr4 ++ []). rewrite app_nil_r. split; [by rewrite Ht4, Ht3', app_assoc|].
  assert (Hask : asked sd (pre ++ tr4) (ret op) name).
  { exists req, op. unfold pre. split_and!; auto; set_solver. }
  eapply (sent_around _ _ _ _ _ pre tr4 []) in Hsent; [|unfold pre|unfold pre|done|done].
  2: { by rewrite put_app, (silent_put _ _ _ Hs23). }
  2: { rewrite received_app, (proj2 (silent_moves _ Hs23 _)). unfold received. cbn.
       by destruct (Z.eqb_spec sd (ret op)). }
  rewrite app_nil_r in Hsent. destruct o as [z|h]; cbn [sent served] in *; destruct Hsent as [-> Hsent].
  - split; [done|]. by exists (ret op), name.
  - split; [done|right]. by exists (ret op), name.
Qed.

End SendFile.

(** A served connection.  Whatever the client asks for, process_client ends; when
    it returns, the name was shorter than PATH_MAX, the file of that name was opened
    and the bytes that went to the client are all the bytes up to the end of the
    file, or the part of it the one sendfile sent; every error exit has sent only a
    prefix.  A request of PATH_MAX bytes makes it write one byte past the name's
    block. *)
Theorem process_client_sends {K} `{HL : LiveKernel K} pagesize contents fuel verbose sd howto prg (w : world K) :
  0 < pagesize -> roomy fuel (kern w) -> open_is_fresh K sd O_RDONLY 0 ->
  howto = TRADITIONAL \/ howto = MODERN ->
  exists o w' tr,
    process_client pagesize fuel verbose sd howto prg w = (o, w') /\
    trace w' = trace w ++ tr /\ served contents howto sd o tr.
Proof.
  intros Hp Hr Hf Hh.
  destruct (wp_run _ _ _ (wp_process_client pagesize Hp contents fuel verbose sd howto prg w Hr Hf Hh))
    as (o & w' & E & tr & H'). by exists o, w', tr.
Qed.

Lemma pipe_open_fresh sd flags mode : sd <> 3 -> sd <> -1 -> open_is_fresh pipe sd flags mode.
Proof.
  intros H3 H1 path k k' r. unfold kstep, pipe_kernel. destruct (pipe_next k) as [[] k2]; cbn.
  - intros [= <- <-]. cbn. lia.
  - intros [= <- <-]. cbn. lia.
Qed.

(** ** The client *)

(** [fd] is the open DESTFILE; [req] is what was sent to the server. *)
Definition saved (sd : Z) (file : string) (o : outcome unit) (tr : list event) : Prop :=
  match o with
  | Done _ => exists op,
      EvCall (Copen DESTFILE O_DEST 420) op ∈ tr /\
      accepted sd tr = bytes_of file /\ accepted (ret op) tr = received sd tr /\
      stops_at_eof sd tr
  | Halt h => h = HExit 1 /\ accepted sd tr `prefix_of` bytes_of file /\
      (received sd tr = [] \/ exists fd, fd <> sd /\ accepted fd tr `prefix_of` received sd tr)
  end.

(** The same of the receiving half, which sends nothing. *)
Definition received_file (sd : Z) (o : outcome unit) (tr : list event) : Prop :=
  accepted sd tr = [] /\
  match o with
  | Done _ => exists op,
      EvCall (Copen DESTFILE O_DEST 420) op ∈ tr /\ ret op <> sd /\
      accepted (ret op) tr = received sd tr /\ stops_at_eof sd tr
  | Halt h => h = HExit 1 /\
      (received sd tr = [] \/ exists fd, fd <> sd /\ accepted fd tr `prefix_of` received sd tr)
  end.

Lemma wp_receive {K} `{HL : LiveKernel K} pagesize fuel name verbose sd (w : world K) :
  0 < pagesize -> roomy fuel (kern w) -> open_is_fresh K sd O_DEST 420 ->
  wp (receive pagesize fuel name verbose sd)
     (fun o w' => exists tr, trace w' = trace w ++ tr /\ received_file sd o tr) w.
Proof.
  intros Hpage Hroom Hfresh. unfold receive. wp_step. unfold r_open3. wp_step.
  apply wp_restart_silent; [done..|by apply roomy_patience|].
  intros op tr1 w1 k1 Ht1 Hs1 Hin1 Hop Hc1. apply (roomy_calmer _ _ _ Hroom) in Hc1 as Hroom1.
  do 3 wp_step. apply Hfresh in Hop. destruct (Z.eqb_spec (ret op) (-1)).
  { apply wp_err_exit. intros tr2 w2 Ht2 Hs2. exists (tr1 ++ tr2).
    split; [by rewrite Ht2, Ht1, app_assoc|]. unfold received_file.
    destruct (silent_moves _ (silent_app _ _ Hs1 Hs2) sd) as [-> ->]. auto. }
  do 2 wp_step. destruct (Hroom1 sd). apply wp_xfer_loop; [done..|].
  intros [tot|h] w2 (tr2 & Ht2 & Honly & _ & H2); cbn [post]; specialize (Honly sd (not_eq_sym Hop)).
  2: { destruct H2 as (-> & H2 & _). exists (tr1 ++ tr2). split; [by rewrite Ht2, Ht1, app_assoc|].
       unfold received_file. rewrite accepted_app, Honly, (proj1 (silent_moves _ Hs1 sd)). split; [done|].
       split; [done|right]. exists (ret op). split; [done|].
       by rewrite accepted_app, received_app, (proj1 (silent_moves _ Hs1 _)), (proj2 (silent_moves _ Hs1 sd)). }
  destruct H2 as (_ & Hacc & Heof & Hc2). apply (roomy_calmer _ _ _ Hroom1) in Hc2 as Hroom2. wp_step.
  apply wp_r_close; [by apply roomy_patience|]. intros z tr3 w3 Ht3 Hs3 _. cbn [post].
  apply wp_VP. intros tr4 w4 Ht4 Hs4 _. exists (tr1 ++ tr2 ++ tr3 ++ tr4).
  split; [by rewrite Ht4, Ht3, Ht2, Ht1, <- !app_assoc|]. unfold received_file.
  assert (Hs : silent (tr3 ++ tr4)) by (by apply silent_app).
  rewrite !(accepted_app sd tr1), !(accepted_app sd tr2), Honly, (proj1 (silent_moves _ Hs1 sd)), (proj1 (silent_moves _ Hs sd)).
  split; [done|]. exists op. split; [set_solver|]. split; [done|]. split.
  2: { apply stops_at_eof_app; [|by apply silent_moves]. exists tr2, []. by rewrite app_nil_r. }
  rewrite (accepted_app _ tr1), (accepted_app _ tr2), (received_app _ tr1), (received_app _ tr2).
  by rewrite Hacc, (proj1 (silent_moves _ Hs1 _)), (proj2 (silent_moves _ Hs1 _)), (proj1 (silent_moves _ Hs _)), (proj2 (silent_moves _ Hs _)).
Qed.

Lemma wp_client {K} `{HL : LiveKernel K} pagesize fuel name file verbose sd (w : world K) :
  0 < pagesize -> roomy fuel (kern w) -> (String.length file + patience (kern w) < fuel)%nat ->
  strlen file < 2 ^ 63 -> open_is_fresh K sd O_DEST 420 ->
  wp (client pagesize fuel name file verbose sd)
     (fun o w' => exists tr, trace w' = trace w ++ tr /\ saved sd file o tr) w.
Proof.
  intros Hpage Hroom Hlen Hmax Hfresh. unfold client. wp_step. unfold sys. wp_step.
  apply wp_syscall_live. intros c k _ Hc _ _. cbn [post]. wp_step. cbn [post]. wp_step.
  set (ev := EvCall (Csys "connect" [AI sd; AS SERV_IP; AI SERV_PORT]) c). apply (roomy_calmer _ _ _ Hroom) in Hc as Hroom0.
  destruct (Z.eqb_spec (ret c) (-1)).
  { apply wp_err_exit. intros tr w' Ht Hs. exists ([ev] ++ tr).
    split; [rewrite Ht; cbn [after trace]; by rewrite <- app_assoc|].
    cbn [saved]. destruct (silent_moves _ Hs sd) as [Ha Hr].
    rewrite accepted_app, received_app, Ha, Hr. split; [done|].
    split; [apply prefix_nil|by left]. }
  do 2 wp_step. pose proof (strlen_nonneg file). destruct Hc as [Hpat Hpend].
  apply wp_r_write; [by rewrite zlen_bytes_of|done|cbn [after kern]; unfold strlen; lia|].
  intros n1 tr1 w1 Ht1 (Hw1 & Ho1 & Hr1 & _) Hc1. cbn [post]. wp_step.
  apply (roomy_calmer _ _ _ Hroom0) in Hc1 as Hroom1. cbn [after trace kern] in *.
  assert (Ht1' : trace w1 = trace w ++ ([ev] ++ tr1)) by (by rewrite Ht1, <- app_assoc).
  assert (Hr1' : received sd ([ev] ++ tr1) = []) by (by rewrite received_app, Hr1).
  destruct Hw1 as [[-> Ha1]|(-> & _ & n' & Hn' & Ha1)].
  - destruct (Z.ltb_spec (strlen file) 0); [lia|]. wp_step.
    eapply wp_mono; [|by apply wp_receive]. intros o w2 (tr2 & Ht2 & Hs2 & H2).
    exists (([ev] ++ tr1) ++ tr2). split; [by rewrite Ht2, Ht1', <- !app_assoc|].
    assert (Ha : accepted sd (([ev] ++ tr1) ++ tr2) = bytes_of file).
    { rewrite !accepted_app, Hs2, Ha1, <- zlen_bytes_of, ztake_all by lia. apply app_nil_r. }
    assert (Hoth : forall fd, fd <> sd -> accepted fd (([ev] ++ tr1) ++ tr2) = accepted fd tr2).
    { intros fd Hfd. by rewrite !accepted_app, Ho1. }
    assert (Hrec : received sd (([ev] ++ tr1) ++ tr2) = received sd tr2).
    { by rewrite received_app, Hr1'. }
    destruct o; cbn [saved]; rewrite Ha, Hrec.
    + destruct H2 as (op & Hin & Hop & H2 & Heof). exists op. rewrite Hoth by done.
      split_and!; [set_solver|done|done|]. rewrite <- (app_nil_r tr2). by apply stops_at_eof_app.
    + destruct H2 as [-> H2]. split; [done|]. split; [done|].
      destruct H2 as [->|(fd & Hfd & H2)]; [by left|right]. exists fd. by rewrite Hoth.
  - change (-1 <? 0) with true. cbv iota. apply wp_err_exit. intros tr2 w2 Ht2 Hs2.
    destruct (silent_moves _ Hs2 sd) as [Ha2 Hr2]. exists (([ev] ++ tr1) ++ tr2). split; [by rewrite Ht2, Ht1', <- !app_assoc|]. cbn [saved].
    split; [done|]. rewrite accepted_app, received_app, Hr1', Hr2, Ha2, app_nil_r.
    split; [|by left]. rewrite accepted_app, Ha1. apply ztake_prefix.
Qed.

(** The client.  It ends; when it returns, the server was sent exactly the
    file's name, the connection was read to its end and DESTFILE has exactly the
    bytes that came back, in order; every error exit has status 1 and has sent and
    saved only prefixes. *)
Theorem client_saves {K} `{HL : LiveKernel K} pagesize fuel name file verbose sd (w : world K) :
  0 < pagesize -> roomy fuel (kern w) -> (String.length file + patience (kern w) < fuel)%nat ->
  strlen file < 2 ^ 63 -> open_is_fresh K sd O_DEST 420 ->
  exists o w' tr,
    client pagesize fuel name file verbose sd w = (o, w') /\
    trace w' = trace w ++ tr /\ saved sd file o tr.
Proof.
  intros H0 H1 H2 H3 H4.
  destruct (wp_run _ _ _ (wp_client pagesize fuel name file verbose sd w H0 H1 H2 H3 H4))
    as (o & w' & E & tr & H'). by exists o, w', tr.
Qed.
