(* ===== verification/Finger.v ===== *)
(** src/ipc/net_sockets/inet_domain/fingr_cs: the finger server sfingr.c and its
    client cfingr.c, as the Makefile builds them without -DDBG (MSG is empty); and
    the threaded server mt_finger/mt_sfingr.c. *)
From S2P Require Import Prelude CMonad CLib Common Restart.

Definition SERV_PORT : Z := 61005.
Definition MAXBUF : Z := 512.
Definition REPLY_MAXLEN : Z := 100 + 256 + 48 + 8 + 8 + 1024 + 4096 + 128.
Definition QLENGTH : Z := 5.

(** <pwd.h> *)
Record passwd := Passwd {
  pw_name : string; pw_passwd : string; pw_uid : Z; pw_gid : Z;
  pw_gecos : string; pw_dir : string; pw_shell : string }.

Module Server.
Section Code.
Context {K : Type} {HK : Kernel K} (inet_ntoa : Z -> string) (passwd_at : Z -> passwd).

(** The SIGCHLD handler. *)
Definition sig_child : C K unit := printf (cat ["sig_child"; "()"; nl]).

Definition err_exit {A} (prg err : string) (exitcode : Z) : C K A :=
  p ← syscall (Cmalloc 300);
  if ret p =? 0 then
    printf (cat [nl; prg; ": malloc failed for err_str.."; nl]);;
    printf (cat [prg; " exiting with error code "; fmt_d exitcode; ", perror shows:"; nl]);;
    perror prg;;
    printf (cat ["Original error message: "; err; nl]);;
    exit exitcode
  else
    perror (snprintf 300 (cat [prg; ": "; err]));;
    syscall (Cfree (ret p));;
    exit exitcode.

(** The user's name, read into a block of 32 bytes. *)
Definition read_username (prg : string) (sd : Z) : C K string :=
  r ← syscall (Cread sd 32);
  if ret r =? -1 then err_exit prg "socket read error" 6
  else
    username ← copy_in "username" (uninit 32) 0 (out r);
    username ← wr "username" username (ret r) 0;
    s ← cstr "username" username 0;
    mret (text_of s).

Definition unknown_user (prg username : string) : string :=
  snprintf (256 + 256)
    (cat [nl; prg; " is unable to get info for username "; dquote; username; dquote; nl]).

Definition details (p : passwd) : string :=
  snprintf REPLY_MAXLEN
    (cat [tab; "Username: "; pw_name p; nl; tab; "(encrypted) password: "; pw_passwd p; nl;
          tab; "UID: "; fmt_d (pw_uid p); nl; tab; "GID: "; fmt_d (pw_gid p); nl;
          tab; "Comment/FullName: "; pw_gecos p; nl; tab; "Home dir: "; pw_dir p; nl;
          tab; "Shell: "; pw_shell p; nl]).

Definition process_client (sd : Z) (prg : string) : C K Z :=
  u ← syscall (Cmalloc 32);
  (if ret u =? 0 then printf (cat [nl; prg; ": no memory for username buffer"]);; exit 1
   else mret tt);;
  username ← read_username prg sd;
  rp ← syscall (Cmalloc REPLY_MAXLEN);
  (if ret rp =? 0 then
     printf (cat [nl; prg; ": no memory for reply buffer"]);;
     syscall (Cfree (ret u));; exit 1
   else mret tt);;
  p ← sys "getpwnam" [AS username];
  if p =? 0 then
    n ← syscall (Cwrite sd (bytes_of (unknown_user prg username)));
    (if ret n =? -1 then err_exit prg "socket write error" 6 else mret tt);;
    syscall (Cclose sd);;
    syscall (Cfree (ret rp));;
    syscall (Cfree (ret u));;
    exit 1
  else
    n ← syscall (Cwrite sd (bytes_of (details (passwd_at p))));
    (if ret n =? -1 then
       syscall (Cfree (ret u));;
       syscall (Cfree (ret rp));;
       err_exit prg "socket write error" 6
     else mret tt);;
    syscall (Cfree (ret u));;
    syscall (Cfree (ret rp));;
    syscall (Cclose sd);;
    mret 0.

(** The listening socket and the SIGCHLD handler; the address printed is the
    first argument. *)
Definition setup (argv : list string) (verbose : bool) : C K Z :=
  let name := arg_n argv 0 in
  sd ← sys "socket" [AI 2; AI 1; AI 0];
  (if sd =? -1 then err_exit name "socket creation error" 1 else mret tt);;
  when verbose (printf (cat [name; ": tcp socket created"; nl]));;
  b ← sys "bind" [AI sd; AS "INADDR_ANY"; AI SERV_PORT];
  (if b =? -1 then err_exit name "socket bind error" 2 else mret tt);;
  when verbose (printf (cat [name; ": bind done at IP "; arg_n argv 1; " port ";
                             fmt_d SERV_PORT; nl]));;
  l ← sys "listen" [AI sd; AI QLENGTH];
  (if l =? -1 then err_exit name "socket listen error" 3 else mret tt);;
  when verbose (printf (cat [name; ": listen q set up"; nl]));;
  a ← sys "sigaction" [AI 17; AS "sig_child"; AS "SA_RESTART|SA_NOCLDSTOP|SA_NOCLDWAIT"];
  (if a =? -1 then err_exit name "sigaction error" 4 else mret tt);;
  when verbose (printf (cat [name; ": SIGCHLD handler set up"; nl]));;
  mret sd.

(** One turn of [while (1)]; accept stores the client's address and port. *)
Definition serve_iter (name : string) (sd : Z) (verbose : bool) : C K unit :=
  (if verbose then
     pid ← sys "getpid" [];
     printf (cat [name; ": pid "; fmt_d pid; " blocking on accept().."; nl])
   else mret tt);;
  fflush stdout;;
  a ← syscall (Csys "accept" [AI sd]);
  let newsd := ret a in
  (if newsd =? -1 then err_exit name "socket accept error" 5 else mret tt);;
  printf (cat [nl; "Server "; name; ": client connected now from IP ";
               inet_ntoa (nth 0 (out a) 0); " port # "; fmt_d (nth 1 (out a) 0); nl]);;
  fflush stdout;;
  f ← sys "fork" [];
  if f =? -1 then perror "fork error";; fflush stdout
  else if f =? 0 then
    syscall (Cclose sd);;
    (if verbose then
       pid ← sys "getpid" [];
       printf (cat [name; ": child server created; pid "; fmt_d pid; nl]);; fflush stdout
     else mret tt);;
    process_client newsd name;;
    (if verbose then
       pid ← sys "getpid" [];
       printf (cat [name; ": child server "; fmt_d pid; " exiting.."; nl]);; fflush stdout
     else mret tt);;
    exit 0
  else syscall (Cclose newsd);; mret tt.

Definition main (fuel : nat) (argv : list string) : C K Z :=
  let verbose := (argc argv =? 2) && (strcmp (arg_n argv 1) "-v" =? 0) in
  sd ← setup argv verbose;
  loop fuel (fun _ : unit => serve_iter (arg_n argv 0) sd verbose;; mret (inl tt)) tt.

End Code.
End Server.

(** ** The threaded server

    src/ipc/net_sockets/inet_domain/mt_finger/mt_sfingr.c, without DBG and
    TESTING. *)
Module MtServer.

Definition SERV_IP : string := "127.0.0.1".
Definition SERV_PORT : Z := 61008.
Definition MAXBUF : Z := 512.

Section Code.
Context {K : Type} {HK : Kernel K} (inet_ntoa : Z -> string) (passwd_at : Z -> passwd).

(** snprintf through the result of a malloc whose failure was only reported. *)
Definition into_block (p : Z) (prg txt : string) : C K string :=
  (if p =? 0 then
     printf (cat [nl; prg; ": malloc failed for err_str.."]);; undefined (UB_null "err_str")
   else mret tt);;
  mret txt.

(** pthread_exit is given the address of the local array [exitstr]. *)
Definition thrd_err_exit {A} (prg err : string) (exitcode : Z) : C K A :=
  p ← syscall (Cmalloc 300);
  err_str ← into_block (ret p) prg (snprintf 300 (cat [prg; ": "; err]));
  perror err_str;;
  syscall (Cfree (ret p));;
  halt_with HThreadExit.

Definition err_exit {A} (prg err : string) (exitcode : Z) : C K A :=
  let size := strlen prg + strlen err + 2 in
  p ← syscall (Cmalloc size);
  err_str ← into_block (ret p) prg (snprintf size (cat [prg; ": "; err]));
  perror err_str;;
  syscall (Cfree (ret p));;
  exit exitcode.

Definition read_username (prg : string) (sd : Z) : C K string :=
  r ← syscall (Cread sd MAXBUF);
  if ret r =? -1 then thrd_err_exit prg "socket read error" 6
  else
    username ← copy_in "username" (uninit MAXBUF) 0 (out r);
    username ← wr "username" username (ret r) 0;
    s ← cstr "username" username 0;
    mret (text_of s).

Definition unknown_user (prg username : string) : string :=
  snprintf (MAXBUF - 1) (cat [nl; prg; " is unable to get info for "; username; nl]).

Definition details (p : passwd) : string :=
  snprintf (MAXBUF - 1)
    (cat [tab; "Username: "; pw_name p; nl; tab; "(encrypted) password: "; pw_passwd p; nl;
          tab; "UID: "; fmt_d (pw_uid p); nl; tab; "GID: "; fmt_d (pw_gid p); nl;
          tab; "Comment/FullName: "; pw_gecos p; nl; tab; "Home dir: "; pw_dir p; nl;
          tab; "Shell: "; pw_shell p; nl]).

(** getpwnam_r stores the pointer to the entry, or NULL, in [p], which held the
    block for the entry. *)
Definition process_client (verbose : bool) (prg : string) (sd : Z) : C K unit :=
  (if verbose then
     pid ← sys "getpid" [];
     printf (cat [prg; ": child thread ("; fmt_d pid; ") on socket sd "; fmt_d sd; nl])
   else mret tt);;
  u ← syscall (Cmalloc MAXBUF);
  (if ret u =? 0 then
     printf (cat [nl; prg; ": no memory for username buffer"]);; halt_with HThreadExit
   else mret tt);;
  username ← read_username prg sd;
  rp ← syscall (Cmalloc MAXBUF);
  (if ret rp =? 0 then
     printf (cat [nl; prg; ": no memory for reply buffer"]);;
     syscall (Cfree (ret u));; halt_with HThreadExit
   else mret tt);;
  pw ← syscall (Cmalloc 48);
  (if ret pw =? 0 then
     printf (cat [nl; prg; ": no memory for passwd structure"]);;
     syscall (Cfree (ret u));; syscall (Cfree (ret rp));; halt_with HThreadExit
   else mret tt);;
  g ← syscall (Csys "getpwnam_r" [AS username; AI (ret pw)]);
  let p := nth 0 (out g) 0 in
  if negb (ret g =? 0) || (p =? 0) then
    n ← syscall (Cwrite sd (bytes_of (unknown_user prg username)));
    (if ret n =? -1 then thrd_err_exit prg "socket write error" 6 else mret tt);;
    syscall (Cclose sd);;
    syscall (Cfree p);;
    syscall (Cfree (ret u));;
    syscall (Cfree (ret rp));;
    halt_with HThreadExit
  else
    n ← syscall (Cwrite sd (bytes_of (details (passwd_at p))));
    (if ret n =? -1 then thrd_err_exit prg "socket write error" 6 else mret tt);;
    syscall (Cfree p);;
    syscall (Cfree (ret u));;
    syscall (Cfree (ret rp));;
    syscall (Cclose sd);;
    halt_with HThreadExit.

(** The listening socket. *)
Definition setup (name : string) (verbose : bool) : C K Z :=
  sd ← sys "socket" [AI 2; AI 1; AI 0];
  (if sd =? -1 then err_exit name "socket creation error" 1 else mret tt);;
  when verbose (printf (cat [name; ": tcp socket created"; nl]));;
  b ← sys "bind" [AI sd; AS "INADDR_ANY"; AI SERV_PORT];
  (if b =? -1 then err_exit name "socket bind error" 2 else mret tt);;
  when verbose (printf (cat [name; ": bind done at IP "; SERV_IP; " port "; fmt_d SERV_PORT; nl]));;
  l ← sys "listen" [AI sd; AI QLENGTH];
  (if l =? -1 then err_exit name "socket listen error" 3 else mret tt);;
  when verbose (printf (cat [name; ": listen q set up"; nl]));;
  mret sd.

(** One turn of [while (1)]; accept stores the client's address and port, and
    pthread_create the thread, [p2], which is not initialised before. *)
Definition serve_iter (name : string) (verbose : bool) (sd : Z) (p2 : option Z)
    : C K (option Z + unit) :=
  (if verbose then
     pid ← sys "getpid" [];
     printf (cat [name; ": pid "; fmt_d pid; " blocking on accept().."; nl])
   else mret tt);;
  fflush stdout;;
  a ← syscall (Csys "accept" [AI sd]);
  let newsd := ret a in
  (if newsd =? -1 then err_exit name "socket accept error" 5 else mret tt);;
  printf (cat [nl; "Server "; name; ": client connected now from IP ";
               inet_ntoa (nth 0 (out a) 0); " port # "; fmt_d (nth 1 (out a) 0); nl]);;
  fflush stdout;;
  r ← syscall (Csys "pthread_create" [AS "process_client"; AI newsd]);
  (if negb (ret r =? 0) then perror "pthread creation" else mret tt);;
  match (if ret r =? 0 then Some (nth 0 (out r) 0) else p2) with
  | None => undefined (UB_uninit "p2" 0)
  | Some thread =>
      d ← sys "pthread_detach" [AI thread];
      if negb (d =? 0) then perror "svr: pthread detach failed";; mret (inr tt)
      else
        when verbose (printf (cat [name; ": child thread created & detached"; nl]));;
        fflush stdout;;
        mret (inl (Some thread))
  end.

(** Leaving the loop, main reaches its end and returns 0. *)
Definition main (fuel : nat) (argv : list string) : C K Z :=
  let verbose := (1 <? argc argv) && (strcmp (arg_n argv 1) "-v" =? 0) in
  sd ← setup (arg_n argv 0) verbose;
  loop fuel (serve_iter (arg_n argv 0) verbose sd) None;;
  mret 0.

End Code.
End MtServer.

Module Client.
Section Code.
Context {K : Type} {HK : Kernel K}.

(** [sprintf] into a block of [size] bytes. *)
Definition sprintf (obj : string) (size : Z) (txt : string) : C K string :=
  m ← copy_in obj (uninit size) 0 (bytes_of txt ++ [0]);
  s ← cstr obj m 0;
  mret (text_of s).

Definition err_exit {A} (prg err : string) (exitcode : Z) : C K A :=
  let size := strlen prg + strlen err + 2 in
  p ← syscall (Cmalloc size);
  if ret p =? 0 then
    printf (cat [nl; prg; ": malloc failed for err_str.."]);;
    printf (cat [prg; " exiting with error code "; fmt_d exitcode; ", perror shows:"; nl]);;
    perror prg;;
    exit exitcode
  else
    err_str ← sprintf "err_str" size (cat [prg; ": "; err]);
    perror err_str;;
    syscall (Cfree (ret p));;
    exit exitcode.

Definition main (argv : list string) : C K Z :=
  let name := arg_n argv 0 in
  (if negb (argc argv =? 3) then
     fprintf stderr (cat ["Usage: "; name; " server-ip-address username"; nl]);; exit 1
   else mret tt);;
  sd ← sys "socket" [AI 2; AI 1; AI 0];
  (if sd =? -1 then err_exit name "socket creation error" 1 else mret tt);;
  c ← sys "connect" [AI sd; AS (arg_n argv 1); AI SERV_PORT];
  (if c =? -1 then err_exit name "connection error" 2 else mret tt);;
  p ← syscall (Cmalloc MAXBUF);
  (if ret p =? 0 then
     printf (cat [nl; name; ": malloc failed for reply.."]);;
     syscall (Cclose sd);; exit 7
   else mret tt);;
  printf (cat [name; ": sending request "; dquote; arg_n argv 2; dquote; " to server"; nl]);;
  n ← syscall (Cwrite sd (bytes_of (arg_n argv 2)));
  (if ret n =? -1 then err_exit name "socket write error" 3 else mret tt);;
  r ← syscall (Cread sd MAXBUF);
  (if ret r =? -1 then err_exit name "socket read error" 4 else mret tt);;
  reply ← copy_in "reply" (uninit MAXBUF) 0 (out r);
  s ← cstr "reply" reply 0;
  printf (cat [nl; name; ": Received "; fmt_d (ret r); " bytes from server;"; nl; text_of s]);;
  syscall (Cfree (ret p));;
  syscall (Cclose sd);;
  exit 0.

End Code.
End Client.

(** ** The server *)

Definition getpwnam (user : string) : call := Csys "getpwnam" [AS user].

(** The endings of a served connection. *)
Definition fingered (passwd_at : Z -> passwd) (sd : Z) (prg : string) (o : outcome Z)
    (tr : list event) : Prop :=
  match o with
  | Done z => z = 0 /\ exists req user p n,
      EvCall (Cread sd 32) req ∈ tr /\ ret req < 32 /\
      cstr_of (init (out req) ++ [Some 0]) = Some user /\
      EvCall (getpwnam (text_of user)) p ∈ tr /\ ret p <> 0 /\
      EvCall (Cwrite sd (bytes_of (Server.details (passwd_at (ret p))))) n ∈ tr /\ 0 <= ret n
  | Halt (HExit 1) =>
      (exists m r, EvCall (Cmalloc m) r ∈ tr /\ ret r = 0) \/
      (exists user p n, EvCall (getpwnam user) p ∈ tr /\ ret p = 0 /\
         EvCall (Cwrite sd (bytes_of (Server.unknown_user prg user))) n ∈ tr /\ 0 <= ret n)
  | Halt (HExit c) => c = 6 /\ exists e r, EvCall e r ∈ tr /\ ret r = -1 /\
      match e with Cread fd _ | Cwrite fd _ => fd = sd | _ => False end
  | Halt (HUB u) => u = UB_bounds "username" 32 /\
      exists req, EvCall (Cread sd 32) req ∈ tr /\ ret req = 32
  | Halt _ => False
  end.

Section ServerProofs.
Context {K : Type} {HK : Kernel K} {HP : PosixKernel K}.

Lemma wp_server_err_exit {A} prg msg c (Q : outcome A -> world K -> Prop) w :
  (forall tr w', trace w' = trace w ++ tr -> Q (Halt (HExit c)) w') ->
  wp (Server.err_exit prg msg c) Q w.
Proof.
  intros HQ. unfold Server.err_exit. wp_go; eapply HQ; cbn [after trace]; by rewrite <- ?app_assoc.
Qed.

Lemma wp_write sd data (Q : outcome resp -> world K -> Prop) w :
  (forall r k, ret r = -1 \/ 0 <= ret r -> Q (Done r) (after (Cwrite sd data) r k w)) ->
  wp (syscall (Cwrite sd data)) Q w.
Proof.
  intros HQ. apply wp_syscall_posix. intros r k [_ Hok] _. apply HQ. destruct Hok; [by left|right; lia].
Qed.

Lemma wp_read_username prg sd (Q : outcome string -> world K -> Prop) w :
  (forall req user k, ret req < 32 -> cstr_of (init (out req) ++ [Some 0]) = Some user ->
     Q (Done (text_of user)) (after (Cread sd 32) req k w)) ->
  (forall req tr w', trace w' = trace w ++ [EvCall (Cread sd 32) req] ++ tr -> ret req = -1 ->
     Q (Halt (HExit 6)) w') ->
  (forall req k, ret req = 32 ->
     Q (Halt (HUB (UB_bounds "username" 32))) (after (Cread sd 32) req k w)) ->
  wp (Server.read_username prg sd) Q w.
Proof.
  intros HQ HX HU. unfold Server.read_username. wp_step. apply wp_syscall_posix.
  intros r k [_ Hok] _. cbn [post]. destruct (Z.eqb_spec (ret r) (-1)) as [E|E].
  { apply wp_server_err_exit. intros tr w' Ht. eapply HX; [|done]. rewrite Ht. cbn [after trace].
    by rewrite <- app_assoc. }
  destruct Hok as [?|(Hr & Hl & _)]; [done|]. rewrite <- Hl. apply wp_terminated; [lia| |].
  - intros name Hlt Hname. apply HQ; [lia|done].
  - intros Heq. apply HU. lia.
Qed.

Lemma wp_server_process_client passwd_at sd prg w :
  wp (Server.process_client passwd_at sd prg) (fun o w' => exists tr,
    trace w' = trace w ++ tr /\ fingered passwd_at sd prg o tr) w.
Proof.
  unfold Server.process_client. wp_step. wp_step. wp_step.
  destruct (Z.eqb_spec (ret r) 0) as [E0|E0].
  { wp_go. leaf. left. exists 32, r. split; [ev_in|done]. }
  do 2 wp_step. apply wp_read_username; cbn [post].
  2: { intros req tr w' Ht Hreq. eexists. split; [rewrite Ht; cbn [after trace]; by rewrite <- ?app_assoc|].
       cbn [fingered]. split; [done|]. exists (Cread sd 32), req. split; [ev_in|done]. }
  2: { intros req k' Hreq. leaf. cbn [fingered]. split; [done|]. exists req. split; [ev_in|done]. }
  intros req user k' Hreq Huser. do 3 wp_step. destruct (Z.eqb_spec (ret r0) 0) as [E1|E1].
  { wp_go. leaf. left. exists REPLY_MAXLEN, r0. split; [ev_in|done]. }
  do 6 wp_step. destruct (Z.eqb_spec (ret r1) 0) as [E2|E2].
  - wp_step. apply wp_write. intros n kn Hn. cbn [post]. wp_step.
    destruct (Z.eqb_spec (ret n) (-1)) as [E3|E3].
    + apply wp_server_err_exit. intros tr w' Ht. eexists.
      split; [rewrite Ht; cbn [after trace]; by rewrite <- ?app_assoc|]. cbn [fingered].
      split; [done|]. eexists _, n. split; [ev_in|done].
    + wp_go. leaf. cbn [fingered]. right. exists (text_of user), r1, n.
      split_and!; [ev_in|done|ev_in|lia].
  - wp_step. apply wp_write. intros n kn Hn. cbn [post]. wp_step.
    destruct (Z.eqb_spec (ret n) (-1)) as [E3|E3].
    + do 4 wp_step. apply wp_server_err_exit. intros tr w' Ht. eexists.
      split; [rewrite Ht; cbn [after trace]; by rewrite <- ?app_assoc|]. cbn [fingered].
      split; [done|]. eexists _, n. split; [ev_in|done].
    + wp_go. leaf. cbn [fingered]. split; [done|]. exists req, user, r1, n.
      split_and!; [ev_in|done..|ev_in|done|ev_in|lia].
Qed.

End ServerProofs.

(** A finger request.  process_client returns only after it looked up the name
    the client sent and wrote that user's details to it; status 1 means there
    was no memory or the user is unknown, which the client was told; status 6
    means the connection failed.  A name of 32 bytes makes it write one byte past
    the block. *)
Theorem finger_request {K} `{HP : PosixKernel K} passwd_at sd prg (w : world K) :
  exists o w' tr,
    Server.process_client passwd_at sd prg w = (o, w') /\ trace w' = trace w ++ tr /\
    fingered passwd_at sd prg o tr.
Proof.
  destruct (wp_run _ _ _ (wp_server_process_client passwd_at sd prg w)) as (o & w' & E & tr & H').
  by exists o, w', tr.
Qed.

Definition root_user : passwd := Passwd "root" "x" 0 0 "root" "/root" "/bin/bash".

Lemma finger_request_witness :
  exists o w' tr,
    Server.process_client (fun _ => root_user) 4 "sfingr"
      (World (Pipe (bytes_of "root") [] [] 31) 0 []) = (o, w') /\
    trace w' = [] ++ tr /\ fingered (fun _ => root_user) 4 "sfingr" o tr.
Proof.
  apply (finger_request (fun _ => root_user) 4 "sfingr" (World (Pipe (bytes_of "root") [] [] 31) 0 [])).
Defined.

(** ** The client *)

Section ClientProofs.
Context {K : Type} {HK : Kernel K} {HP : PosixKernel K}.

(** The message needs one byte more than the block that is allocated for it. *)
Lemma wp_client_err_exit {A} prg msg c (Q : outcome A -> world K -> Prop) w :
  (forall r tr w', trace w' = trace w ++ [EvCall (Cmalloc (strlen prg + strlen msg + 2)) r] ++ tr ->
     ret r = 0 -> Q (Halt (HExit c)) w') ->
  (forall w' tr, trace w' = trace w ++ tr ->
     Q (Halt (HUB (UB_bounds "err_str" (strlen prg + strlen msg + 2)))) w') ->
  wp (Client.err_exit prg msg c) Q w.
Proof.
  intros HX HU. unfold Client.err_exit. wp_step. wp_step. destruct (Z.eqb_spec (ret r) 0).
  { wp_go. eapply HX; [|done]. cbn [after trace]. by rewrite <- !app_assoc. }
  unfold Client.sprintf. do 2 wp_step. pose proof (strlen_nonneg prg). pose proof (strlen_nonneg msg).
  unfold copy_in, cat. cbn [foldr].
  rewrite zlen_snoc, zlen_bytes_of, !strlen_app, zlen_uninit by lia.
  change (strlen ": ") with 2. change (strlen EmptyString) with 0.
  destruct (Z.ltb_spec (strlen prg + strlen msg + 2) (0 + (strlen prg + (2 + (strlen msg + 0)) + 1))); [|lia].
  cbn [orb Z.ltb Z.compare]. wp_step.
  replace (0 + (strlen prg + (2 + (strlen msg + 0)) + 1) - 1) with (strlen prg + strlen msg + 2) by lia.
  eapply HU. reflexivity.
Qed.

(** The ways the client can end once it has its arguments. *)
Definition client_ending (o : outcome Z) (tr : list event) : Prop :=
  match o with
  | Halt (HExit 0) => exists fd r, EvCall (Cread fd MAXBUF) r ∈ tr /\ 0 ∈ out r
  | Halt (HExit _) => exists n r, EvCall (Cmalloc n) r ∈ tr /\ ret r = 0
  | Halt (HUB (UB_bounds obj _)) => obj = "err_str" \/ obj = "reply"
  | _ => False
  end.

(** A failed call of the client is reported, or not, and never survived. *)
Lemma wp_client_check (b : bool) prg msg c (R : world K -> Prop) (w0 w : world K) tr0 :
  c <> 0 -> trace w = trace w0 ++ tr0 -> (b = false -> R w) ->
  wp (if b then Client.err_exit prg msg c else mret tt)
     (post (fun _ w' => R w')
           (fun h w' => exists tr, trace w' = trace w0 ++ tr /\ client_ending (Halt h) tr)) w.
Proof.
  intros Hc Ht0 HR. destruct b; [|by apply wp_ret, HR]. apply wp_client_err_exit; cbn [post].
  - intros r tr w' Ht Hr. eexists. split; [by rewrite Ht, Ht0, <- !app_assoc|]. cbn [client_ending].
    destruct c; [done| |]; (exists (strlen prg + strlen msg + 2), r; split; [set_solver|done]).
  - intros w' tr Ht. eexists. split; [by rewrite Ht, Ht0, <- !app_assoc|]. by left.
Qed.

Ltac client_check :=
  wp_seq; eapply wp_client_check;
  [done|cbn [after trace]; rewrite <- ?app_assoc; reflexivity|intros _].

Lemma wp_client_main prg ip user w :
  wp (Client.main [prg; ip; user]) (fun o w' => exists tr,
    trace w' = trace w ++ tr /\ client_ending o tr) w.
Proof.
  unfold Client.main. change (argc [prg; ip; user] =? 3) with true. cbn [negb arg_n nth].
  client_check. client_check. wp_seq. destruct (Z.eqb_spec (ret r1) 0) as [E|E].
  { wp_seq. leaf. exists MAXBUF, r1. split; [ev_in|done]. }
  client_check. wp_step. apply wp_syscall_posix. intros r3 k3 [_ Hok] _. cbn [post]. wp_step.
  destruct (Z.eqb_spec (ret r3) (-1)) as [E3|E3].
  { eapply wp_client_check with (b := true); [done| |done].
    cbn [after trace]. rewrite <- ?app_assoc. reflexivity. }
  destruct Hok as [?|(Hr & Hl & _)]; [done|]. wp_seq.
  apply wp_copy_in; [lia|rewrite zlen_uninit; unfold MAXBUF in *; lia|]. cbn [post]. wp_step.
  unfold cstr, blit. rewrite zdrop_0. change (ztake 0 (uninit MAXBUF)) with (@nil (option Z)).
  cbn [app]. rewrite Z.add_0_l.
  assert (Hu : zdrop (zlen (out r3)) (uninit MAXBUF) = uninit (MAXBUF - zlen (out r3))).
  { unfold zdrop, uninit. rewrite drop_replicate. f_equal. unfold zlen. lia. }
  rewrite Hu. destruct (cstr_of _) as [s|] eqn:Es; wp_seq; leaf.
  - apply cstr_of_uninit in Es. exists (ret r), r3. split; [ev_in|done].
  - by right.
Qed.

End ClientProofs.

(** The client of the finger server.  However the calls turn out, it reports
    success only when the reply held a NUL byte, which the server never sends,
    and it reports a failure only when malloc failed: otherwise it reads
    unwritten bytes of the reply or writes past the block of its error message. *)
Theorem finger_client {K} `{HP : PosixKernel K} prg ip user (w : world K) :
  exists o w' tr,
    Client.main [prg; ip; user] w = (o, w') /\ trace w' = trace w ++ tr /\ client_ending o tr.
Proof.
  destruct (wp_run _ _ _ (wp_client_main prg ip user w)) as (o & w' & E & tr & H').
  by exists o, w', tr.
Qed.

Lemma finger_client_witness :
  exists o w' tr,
    Client.main ["cfingr"; "127.0.0.1"; "root"] (World (Pipe (bytes_of "details") [] [] 31) 0 [])
      = (o, w') /\ trace w' = [] ++ tr /\ client_ending o tr.
Proof.
  apply (finger_client "cfingr" "127.0.0.1" "root" (World (Pipe (bytes_of "details") [] [] 31) 0 [])).
Defined.

(** On that reply of seven bytes the client runs into unwritten memory. *)
Lemma finger_client_unterminated :
  fst (Client.main ["cfingr"; "127.0.0.1"; "root"] (World (Pipe (bytes_of "details") [] [] 31) 0 []))
  = Halt (HUB (UB_bounds "reply" MAXBUF)).
Proof. reflexivity. Qed.

(** ** The threaded server *)

(** The endings of a thread of the threaded server. *)
Definition mt_fingered (passwd_at : Z -> passwd) (sd : Z) (prg : string) (o : outcome unit)
    (tr : list event) : Prop :=
  match o with
  | Halt HThreadExit =>
      (exists m r, EvCall (Cmalloc m) r ∈ tr /\ ret r = 0) \/
      (exists e r, EvCall e r ∈ tr /\ ret r = -1 /\
         match e with Cread fd _ | Cwrite fd _ => fd = sd | _ => False end) \/
      (exists user pw g n c,
         EvCall (Csys "getpwnam_r" [AS user; AI pw]) g ∈ tr /\
         EvCall (Cwrite sd (bytes_of
           (if negb (ret g =? 0) || (nth 0 (out g) 0 =? 0) then MtServer.unknown_user prg user
            else MtServer.details (passwd_at (nth 0 (out g) 0))))) n ∈ tr /\
         0 <= ret n /\ EvCall (Cclose sd) c ∈ tr)
  | Halt (HUB (UB_bounds obj i)) => obj = "username" /\ i = MtServer.MAXBUF /\
      exists req, EvCall (Cread sd MtServer.MAXBUF) req ∈ tr /\ ret req = MtServer.MAXBUF
  | Halt (HUB (UB_null obj)) => obj = "err_str" /\
      exists m r, EvCall (Cmalloc m) r ∈ tr /\ ret r = 0
  | _ => False
  end.

Section MtProofs.
Context {K : Type} {HK : Kernel K} {HP : PosixKernel K} (passwd_at : Z -> passwd) (sd : Z) (prg : string).

(** The endings of a run from [w0]. *)
Definition mt_ends (w0 : world K) {A} (R : A -> world K -> Prop) : outcome A -> world K -> Prop :=
  post R (fun h w' => exists tr, trace w' = trace w0 ++ tr /\ mt_fingered passwd_at sd prg (Halt h) tr).

(** A failed read or write of the connection ends the thread. *)
Lemma wp_thrd_err_exit {A} e r msg c (R : A -> world K -> Prop) (w0 w : world K) tr0 :
  trace w = trace w0 ++ tr0 -> EvCall e r ∈ tr0 -> ret r = -1 ->
  match e with Cread fd _ | Cwrite fd _ => fd = sd | _ => False end ->
  wp (MtServer.thrd_err_exit prg msg c) (mt_ends w0 R) w.
Proof.
  intros Ht Hin Hr He. unfold MtServer.thrd_err_exit, MtServer.into_block, mt_ends.
  wp_step. wp_step. do 2 wp_step. destruct (Z.eqb_spec (ret r0) 0) as [E|E]; wp_seq;
    (eexists; split; [cbn [after trace]; rewrite Ht, <- !app_assoc; reflexivity|]).
  - split; [done|]. exists 300, r0. split; [|done]. rewrite elem_of_app. right. ev_in.
  - right. left. exists e, r. split; [|done]. apply elem_of_app. by left.
Qed.

Lemma wp_mt_read_username (R : string -> world K -> Prop) (w0 w : world K) tr0 :
  trace w = trace w0 ++ tr0 ->
  (forall req user k, R (text_of user) (after (Cread sd MtServer.MAXBUF) req k w)) ->
  wp (MtServer.read_username prg sd) (mt_ends w0 R) w.
Proof.
  intros Ht HR. unfold MtServer.read_username. wp_step. apply wp_syscall_posix.
  intros r k [_ Hok] _. cbn [post]. set (ev := EvCall (Cread sd MtServer.MAXBUF) r).
  assert (Ht' : trace (after (Cread sd MtServer.MAXBUF) r k w) = trace w0 ++ (tr0 ++ [ev])).
  { cbn [after trace]. by rewrite Ht, app_assoc. }
  destruct (Z.eqb_spec (ret r) (-1)) as [E|E].
  { eapply (wp_thrd_err_exit (Cread sd MtServer.MAXBUF) r); [exact Ht'|set_solver|done|done]. }
  destruct Hok as [?|(Hr & Hl & _)]; [done|]. rewrite <- Hl. apply wp_terminated; [lia| |].
  - intros name _ _. apply HR.
  - intros Heq. exists (tr0 ++ [ev]). split; [done|]. split; [done|]. split; [done|].
    exists r. split; [set_solver|lia].
Qed.

(** The reply to the client, and the end of the thread, which closes the socket. *)
Lemma wp_mt_reply user pw g txt m (w0 w : world K) tr0 :
  trace w = trace w0 ++ tr0 -> EvCall (Csys "getpwnam_r" [AS user; AI pw]) g ∈ tr0 ->
  txt = (if negb (ret g =? 0) || (nth 0 (out g) 0 =? 0) then MtServer.unknown_user prg user
         else MtServer.details (passwd_at (nth 0 (out g) 0))) ->
  (forall w', wp m (fun (o : outcome unit) w'' => o = Halt HThreadExit /\ exists c tr,
     trace w'' = trace w' ++ tr /\ EvCall (Cclose sd) c ∈ tr) w') ->
  wp (n ← syscall (Cwrite sd (bytes_of txt));
      (if ret n =? -1 then MtServer.thrd_err_exit prg "socket write error" 6 else mret tt);; m)
     (fun o w' => exists tr, trace w' = trace w0 ++ tr /\ mt_fingered passwd_at sd prg o tr) w.
Proof.
  intros Ht Hg Htxt Hm. wp_step. apply wp_write. intros n k Hn. cbn [post]. wp_step.
  set (ev := EvCall (Cwrite sd (bytes_of txt)) n).
  assert (Ht' : trace (after (Cwrite sd (bytes_of txt)) n k w) = trace w0 ++ (tr0 ++ [ev])).
  { cbn [after trace]. by rewrite Ht, app_assoc. }
  destruct (Z.eqb_spec (ret n) (-1)) as [E|E].
  { eapply wp_mono; [|by eapply (wp_thrd_err_exit (Cwrite sd (bytes_of txt)) n _ _ (fun _ _ => False));
      [exact Ht'|set_solver|..]].
    by intros [?|h] w' H. }
  wp_step. eapply wp_mono; [|apply Hm]. intros o w'' (-> & c & tr & Htr & Hc).
  exists ((tr0 ++ [ev]) ++ tr). split; [by rewrite Htr, Ht', <- !app_assoc|].
  right. right. exists user, pw, g, n, c. rewrite <- Htxt.
  split; [set_solver|]. split; [set_solver|]. split; [lia|set_solver].
Qed.

Lemma wp_mt_process_client verbose (w : world K) :
  wp (MtServer.process_client passwd_at verbose prg sd) (fun o w' => exists tr,
    trace w' = trace w ++ tr /\ mt_fingered passwd_at sd prg o tr) w.
Proof.
  unfold MtServer.process_client. wp_step.
  assert (forall Q : outcome unit -> world K -> Prop,
    (forall tr w', trace w' = trace w ++ tr -> Q (Done tt) w') ->
    wp (if verbose then pid ← sys "getpid" [];
          printf (cat [prg; ": child thread ("; fmt_d pid; ") on socket sd "; fmt_d sd; nl])
        else mret tt) Q w) as Hv.
  { intros Q HQ. destruct verbose; wp_seq; [eapply HQ; cbn [after trace]; by rewrite <- ?app_assoc|].
    apply (HQ []). by rewrite app_nil_r. }
  apply Hv. clear Hv. intros tr0 w1 Ht1. cbn [post]. wp_seq.
  destruct (Z.eqb_spec (ret r) 0) as [E0|E0].
  { wp_seq. eexists. split; [cbn [after trace]; rewrite Ht1, <- !app_assoc; reflexivity|].
    left. exists MtServer.MAXBUF, r. split; [set_solver|done]. }
  do 2 wp_step. set (e0 := EvCall (Cmalloc MtServer.MAXBUF) r).
  refine (wp_mt_read_username _ w _ (tr0 ++ [e0]) _ _).
  { cbn [after trace]. by rewrite Ht1, app_assoc. }
  intros req user k'. set (e1 := EvCall (Cread sd MtServer.MAXBUF) req). wp_seq.
  destruct (Z.eqb_spec (ret r0) 0) as [E1|E1].
  { wp_seq. eexists. split; [cbn [after trace]; rewrite Ht1, <- !app_assoc; reflexivity|].
    left. exists MtServer.MAXBUF, r0. split; [set_solver|done]. }
  wp_seq. destruct (Z.eqb_spec (ret r1) 0) as [E2|E2].
  { wp_seq. eexists. split; [cbn [after trace]; rewrite Ht1, <- !app_assoc; reflexivity|].
    left. exists 48, r1. split; [set_solver|done]. }
  wp_seq. destruct (negb (ret r2 =? 0) || (nth 0 (out r2) 0 =? 0)) eqn:Eg.
  - eapply (wp_mt_reply (text_of user) (ret r1) r2);
      [cbn [after trace]; rewrite Ht1, <- !app_assoc; reflexivity|set_solver|by rewrite Eg|].
    intros w'. wp_seq. split; [done|]. eexists _, _.
    split; [cbn [after trace]; rewrite <- !app_assoc; reflexivity|ev_in].
  - eapply (wp_mt_reply (text_of user) (ret r1) r2);
      [cbn [after trace]; rewrite Ht1, <- !app_assoc; reflexivity|set_solver|by rewrite Eg|].
    intros w'. wp_seq. split; [done|]. eexists _, _.
    split; [cbn [after trace]; rewrite <- !app_assoc; reflexivity|ev_in].
Qed.

End MtProofs.

(** A thread of the threaded server.  It always ends, and never takes the
    process with it by exiting: it answers the user's details or that the user is
    unknown and closes the connection, or it ends because a malloc, read or write
    failed; the overrun by a name of MAXBUF bytes and the null message block are
    the only undefined endings. *)
Theorem mt_finger_request {K} `{HP : PosixKernel K} passwd_at verbose sd prg (w : world K) :
  exists o w' tr,
    MtServer.process_client passwd_at verbose prg sd w = (o, w') /\ trace w' = trace w ++ tr /\
    mt_fingered passwd_at sd prg o tr.
Proof.
  destruct (wp_run _ _ _ (wp_mt_process_client passwd_at sd prg verbose w)) as (o & w' & E & tr & H').
  by exists o, w', tr.
Qed.

Lemma mt_finger_request_witness :
  exists o w' tr,
    MtServer.process_client (fun _ => root_user) true "mt_sfingr" 4
      (World (Pipe (bytes_of "root") [] [] 31) 0 []) = (o, w') /\
    trace w' = [] ++ tr /\ mt_fingered (fun _ => root_user) 4 "mt_sfingr" o tr.
Proof.
  apply (mt_finger_request (fun _ => root_user) true 4 "mt_sfingr"
           (World (Pipe (bytes_of "root") [] [] 31) 0 [])).
Defined.
