(* ===== verification/FileCopy.v ===== *)
(** src/ipc/mmap_ipc/fileio_rdwr/rdwr_fileio.c: copy a file with read and write
    through the restart library. *)
From S2P Require Import Prelude CMonad CLib Common Restart FileSys.

Definition RDWR_SIZE : Z := 1024 * 1024.
Definition O_RDONLY : Z := 0.
(** [O_RDWR | O_CREAT], and [S_IRUSR | S_IWUSR | S_IRGRP | S_IROTH] *)
Definition O_DEST : Z := 66.
Definition DEST_MODE : Z := 420.

Section Code.
Context {K : Type} {HK : Kernel K}.

Definition fail_if (b : bool) (msg : string) : C K unit :=
  if b then perror msg;; exit 1 else mret tt.

(** [while ((nr = r_read(fd_from, buf, RDWR_SIZE)))]; [buf] is a block of RDWR_SIZE
    bytes. *)
Definition copy_iter (fuel : nat) (fd_from fd_to : Z) (_ : unit) : C K (unit + unit) :=
  '(nr, buf) ← r_read fuel fd_from RDWR_SIZE;
  if nr =? 0 then mret (inr tt)
  else
    nw ← r_write fuel fd_to (ztake RDWR_SIZE buf) nr;
    fail_if (nw =? -1) "write failed";;
    when (negb (nw =? nr)) (fprintf stderr (cat ["WARNING: write: not same as read bytes"; nl]));;
    mret (inl tt).

Definition copy_loop (fuel : nat) (fd_from fd_to : Z) : C K unit :=
  loop fuel (copy_iter fuel fd_from fd_to) tt.

(** Closing both files and freeing the buffer. *)
Definition finish (fd_from fd_to p : Z) : C K unit :=
  c ← syscall (Cclose fd_from);
  (if ret c =? -1 then perror "close/3 failed" else mret tt);;
  c ← syscall (Cclose fd_to);
  (if ret c =? -1 then perror "close/3 failed" else mret tt);;
  syscall (Cfree p);;
  mret tt.

(** stat stores the size of the file. *)
Definition main (fuel : nat) (argv : list string) : C K Z :=
  (if negb (argc argv =? 3) then
     fprintf stderr (cat ["Usage: "; arg_n argv 0; " source-file dest-file"; nl]);; exit 1
   else mret tt);;
  fd_from ← r_open2 fuel (arg_n argv 1) O_RDONLY;
  fail_if (-1 =? fd_from) "open: src file";;
  fd_to ← r_open3 fuel (arg_n argv 2) O_DEST DEST_MODE;
  fail_if (-1 =? fd_to) "open: dest file";;
  s ← syscall (Csys "stat" [AS (arg_n argv 1)]);
  fail_if (ret s =? -1) "stat";;
  let len := nth 0 (out s) 0 in
  (if len =? 0 then
     fprintf stderr (cat [arg_n argv 0; ": source-file "; arg_n argv 1;
                          " size is zero bytes, aborting..."; nl]);;
     exit 1
   else mret tt);;
  p ← syscall (Cmalloc RDWR_SIZE);
  (if ret p =? 0 then
     fprintf stderr (cat ["WARNING: write: not same as read bytes"; nl]);; exit 1
   else mret tt);;
  copy_loop fuel fd_from fd_to;;
  finish fd_from fd_to (ret p);;
  exit 0.

End Code.

(** ** The copy *)

(** How the loop can end: the input was copied to its end; a write failed and a prefix of it
    was; or a read failed, and the loop goes on with the count -1 as if it were a
    size. *)
Definition copied (from to : Z) (o : outcome unit) (tr : list event) : Prop :=
  match o with
  | Done _ => accepted to tr = received from tr /\ stops_at_eof from tr
  | Halt (HExit c) => c = 1 /\ accepted to tr `prefix_of` received from tr
  | Halt (HUB u) => (exists i, u = UB_bounds "buf" i) /\ accepted to tr = received from tr /\
      exists e, ends_with (read_error from e) tr
  | Halt _ => False
  end.

Section Copy.
Context {K : Type} {HK : Kernel K} {HP : PosixKernel K} {HL : LiveKernel K}.

Definition copy_inv (from to : Z) (w0 w : world K) : Prop :=
  exists tr, trace w = trace w0 ++ tr /\ accepted to tr = received from tr /\
    calmer (kern w0) (kern w).

Definition copy_post (from to : Z) (w0 : world K) (o : outcome unit) (w : world K) : Prop :=
  exists tr, trace w = trace w0 ++ tr /\ copied from to o tr /\ calmer (kern w0) (kern w).

(** The count -1 becomes the largest size_t, more than any buffer holds. *)
Lemma wp_r_write_negative fuel fd buf (Q : outcome Z -> world K -> Prop) w :
  (forall i, Q (Halt (HUB (UB_bounds "buf" i))) w) ->
  wp (r_write (S fuel) fd (ztake RDWR_SIZE buf) (-1)) Q w.
Proof.
  intros HQ. unfold r_write. cbn [loop]. wp_step. unfold r_write_iter at 1.
  change (0 <? to_size_t (-1)) with true. cbv iota. wp_step. unfold write_from.
  assert (zlen (ztake RDWR_SIZE buf) <= RDWR_SIZE).
  { unfold ztake, zlen. rewrite length_take. unfold RDWR_SIZE. lia. }
  change (0 + to_size_t (-1)) with 18446744073709551615. unfold RDWR_SIZE in *.
  destruct (Z.ltb_spec (zlen (ztake (1024 * 1024) buf)) 18446744073709551615); [|lia].
  wp_step. apply HQ.
Qed.

Lemma copy_step fuel from to w0 w :
  from <> to -> roomy fuel (kern w0) -> copy_inv from to w0 w ->
  wp (copy_iter fuel from to tt)
    (post (fun x w' => match x with
                       | inl _ => copy_inv from to w0 w' /\
                           (pending from (kern w') < pending from (kern w))%nat
                       | inr r => copy_post from to w0 (Done r) w'
                       end)
          (fun h w' => copy_post from to w0 (Halt h) w')) w.
Proof.
  intros Hne Hroom (tr & Ht & Hacc & Hc). unfold copy_iter. wp_step.
  apply (roomy_calmer _ _ _ Hroom) in Hc as Hroom0. apply wp_r_read; [by apply roomy_patience|].
  intros z bs tr1 w1 Ht1 Hz Ha1 _ Hc1 Hp1. cbn [post].
  assert (Htr1 : trace w1 = trace w0 ++ (tr ++ tr1)) by (by rewrite Ht1, Ht, app_assoc).
  destruct (Hroom0 from) as [Hsz Hfl]. pose proof (proj1 Hc1) as Hpat.
  destruct Hz as [(-> & Hr1 & Hev)|(Hz & Hl & Hr1 & Heof)].
  { change (-1 =? 0) with false. cbv iota. wp_step. destruct fuel as [|fuel]; [lia|].
    apply wp_r_write_negative. intros i. exists (tr ++ tr1). split; [done|]. cbn [copied].
    split; [|by etrans]. split; [by eexists|]. rewrite accepted_app, received_app, Ha1, Hr1, !app_nil_r.
    split; [done|]. eexists. by apply ends_with_app. }
  destruct (Z.eqb_spec z 0) as [->|Hz0].
  { wp_step. exists (tr ++ tr1). split; [done|]. cbn [copied]. split; [|by etrans].
    apply zlen_0 in Hl as ->. rewrite accepted_app, received_app, Ha1, Hr1, !app_nil_r. split; [done|].
    exists (tr ++ tr1), []. rewrite app_nil_r. split_and!; [done|by apply ends_with_app, Heof|done]. }
  rewrite ztake_all by lia. wp_step. apply wp_r_write; [lia|unfold INT_MAX in *; lia|lia|].
  intros n tr2 w2 Ht2 (Hw & Ho2 & Hr2 & _) Hc2. cbn [post].
  assert (Htr2 : trace w2 = trace w0 ++ (tr ++ tr1 ++ tr2)) by (by rewrite Ht2, Htr1, !app_assoc).
  assert (Hacc2 : accepted to (tr ++ tr1 ++ tr2) = received from tr ++ accepted to tr2).
  { by rewrite !accepted_app, Ha1, Hacc. }
  assert (Hrec2 : received from (tr ++ tr1 ++ tr2) = received from tr ++ bs).
  { by rewrite !received_app, Hr2, Hr1, app_nil_r. }
  assert (Hcc : calmer (kern w0) (kern w2)) by (by etrans; [|etrans]).
  destruct Hw as [[-> Hw]|(-> & _ & n' & Hn' & Hw)]; wp_step; unfold fail_if.
  - destruct (Z.eqb_spec z (-1)); [lia|]. rewrite Z.eqb_refl. cbn [negb]. wp_seq.
    pose proof (proj2 Hc2 from). split; [|lia]. exists (tr ++ tr1 ++ tr2).
    rewrite Hacc2, Hrec2, Hw, ztake_all by lia. done.
  - change (-1 =? -1) with true. wp_seq. exists ((tr ++ tr1 ++ tr2) ++ [EvPerror "write failed" (errno w2)]).
    split; [|split; [|done]].
    { cbn [trace]. by rewrite Htr2, <- (app_assoc (trace w0)). }
    cbn [copied]. split; [done|]. rewrite accepted_app, received_app, Hacc2, Hrec2, Hw.
    unfold accepted at 1, received at 2. cbn. rewrite !app_nil_r. apply prefix_app, ztake_prefix.
Qed.

Lemma wp_copy_loop fuel from to (Q : outcome unit -> world K -> Prop) w :
  from <> to -> roomy fuel (kern w) ->
  (forall o w', copy_post from to w o w' -> Q o w') ->
  wp (copy_loop fuel from to) Q w.
Proof.
  intros Hne Hroom HQ. eapply wp_mono; [exact HQ|]. unfold copy_loop.
  apply (wp_loop_total (fun _ => copy_inv from to w) (fun _ w' => pending from (kern w'))).
  - intros [] w' HI. by apply copy_step.
  - exists []. by rewrite app_nil_r.
  - destruct (Hroom from). lia.
Qed.

End Copy.

(** The endings of the program. *)
Definition copy_ending (src dst : string) (o : outcome Z) (tr : list event) : Prop :=
  match o with
  | Halt (HExit 0) => exists op1 op2,
      EvCall (Copen src O_RDONLY 0) op1 ∈ tr /\ EvCall (Copen dst O_DEST DEST_MODE) op2 ∈ tr /\
      accepted (ret op2) tr = received (ret op1) tr /\ stops_at_eof (ret op1) tr
  | Halt (HExit c) => c = 1 /\
      (silent tr \/ exists from to, from <> to /\ accepted to tr `prefix_of` received from tr)
  | Halt (HUB u) => (exists i, u = UB_bounds "buf" i) /\
      exists from e, ends_with (read_error from e) tr
  | _ => False
  end.

(** The destination gets a descriptor of its own: the source is still open. *)
Definition opens_apart (K : Type) `{Kernel K} : Prop :=
  forall src dst (k1 k1' k2 k2' : K) r1 r2,
    kstep (Copen src O_RDONLY 0) k1 = (r1, k1') -> ret r1 <> -1 ->
    kstep (Copen dst O_DEST DEST_MODE) k2 = (r2, k2') -> ret r1 <> ret r2.

Section Main.
Context {K : Type} {HK : Kernel K} {HP : PosixKernel K} {HL : LiveKernel K}.

(** A failed check ends the program before any data moved. *)
Lemma wp_fail_if b msg src dst (R : world K -> Prop) (w0 w : world K) tr0 :
  trace w = trace w0 ++ tr0 -> silent tr0 -> (b = false -> R w) ->
  wp (fail_if b msg) (post (fun _ w' => R w') (fun h w' => exists tr,
    trace w' = trace w0 ++ tr /\ copy_ending src dst (Halt h) tr)) w.
Proof.
  intros Ht Hs HR. unfold fail_if. destruct b; wp_seq; [|auto].
  exists (tr0 ++ [EvPerror msg (errno w)]). split; [cbn [trace]; by rewrite Ht, app_assoc|].
  split; [done|left]. by apply silent_app; [|repeat constructor].
Qed.

(** After the loop: both files are closed and the exit status is 0. *)
Lemma wp_finish from to p (Q : outcome unit -> world K -> Prop) w :
  (forall tr w', trace w' = trace w ++ tr -> silent tr -> Q (Done tt) w') ->
  wp (finish from to p) Q w.
Proof.
  intros HQ. unfold finish.
  wp_go; (eapply HQ; [cbn [after trace]; rewrite <- ?app_assoc; reflexivity|by repeat constructor]).
Qed.

(** The part of main after the two files are open. *)
Lemma wp_copy_and_finish fuel src dst op1 op2 p (w0 w : world K) tr0 :
  ret op1 <> ret op2 -> roomy fuel (kern w) -> trace w = trace w0 ++ tr0 -> silent tr0 ->
  EvCall (Copen src O_RDONLY 0) op1 ∈ tr0 -> EvCall (Copen dst O_DEST DEST_MODE) op2 ∈ tr0 ->
  wp (copy_loop fuel (ret op1) (ret op2);; finish (ret op1) (ret op2) p;; exit 0)
     (fun o w' => exists tr, trace w' = trace w0 ++ tr /\ copy_ending src dst o tr) w.
Proof.
  intros Hne Hroom Ht0 Hs0 H1 H2. wp_step. apply wp_copy_loop; [done..|].
  intros o w1 (tr1 & Ht1 & Hcop & Hc). destruct o as [u|h]; cbn [post].
  - wp_step. apply wp_finish. intros tr2 w2 Ht2 Hs2. cbn [post]. wp_step.
    exists (tr0 ++ tr1 ++ tr2). split; [by rewrite Ht2, Ht1, Ht0, <- !app_assoc|].
    exists op1, op2. split; [set_solver|]. split; [set_solver|]. cbn [copied] in Hcop.
    destruct Hcop as [Hcop Heof]. split; [|by apply stops_at_eof_app; [|apply silent_moves]].
    rewrite !accepted_app, !received_app, Hcop. by rewrite (proj1 (silent_moves _ Hs0 _)),
      (proj2 (silent_moves _ Hs0 _)), (proj1 (silent_moves _ Hs2 _)), (proj2 (silent_moves _ Hs2 _)).
  - exists (tr0 ++ tr1). split; [by rewrite Ht1, Ht0, app_assoc|].
    destruct h; cbn [copied copy_ending] in *; try done.
    + destruct Hcop as [-> Hcop]. split; [done|right]. exists (ret op1), (ret op2).
      by rewrite accepted_app, received_app, (proj1 (silent_moves _ Hs0 _)),
        (proj2 (silent_moves _ Hs0 _)).
    + destruct Hcop as (Hu & _ & e & He). split; [done|]. exists (ret op1), e. by apply ends_with_app.
Qed.

Lemma wp_copy_main fuel prg src dst (w : world K) :
  roomy fuel (kern w) -> opens_apart K ->
  wp (main fuel [prg; src; dst])
     (fun o w' => exists tr, trace w' = trace w ++ tr /\ copy_ending src dst o tr) w.
Proof.
  intros Hroom Hapart. unfold main. change (argc [prg; src; dst] =? 3) with true.
  cbn [negb arg_n nth]. do 2 wp_step. unfold r_open2. do 2 wp_step.
  apply wp_restart_silent; [done..|by apply roomy_patience|].
  intros op1 tr1 w1 k1 Ht1 Hs1 Hin1 E1 Hc1. apply (roomy_calmer _ _ _ Hroom) in Hc1 as Hroom1.
  do 3 wp_step. eapply wp_fail_if; [done..|]. intros Hop1%Z.eqb_neq.
  unfold r_open3. do 2 wp_step. apply wp_restart_silent; [done..|by apply roomy_patience|].
  intros op2 tr2 w2 k2 Ht2 Hs2 Hin2 E2 Hc2. apply (roomy_calmer _ _ _ Hroom1) in Hc2 as Hroom2.
  assert (Ht12 : trace w2 = trace w ++ (tr1 ++ tr2)) by (by rewrite Ht2, Ht1, app_assoc).
  assert (Hs12 : silent (tr1 ++ tr2)) by (by apply silent_app).
  do 3 wp_step. eapply wp_fail_if; [done..|]. intros _. wp_step.
  apply wp_syscall_live. intros r3 k3 _ Hc3 _ _. apply (roomy_calmer _ _ _ Hroom2) in Hc3 as Hroom3.
  set (e3 := EvCall (Csys "stat" [AS src]) r3). cbn [post]. wp_step.
  eapply (wp_fail_if _ _ _ _ _ _ _ ((tr1 ++ tr2) ++ [e3]));
    [cbn [after trace]; by rewrite Ht12, <- (app_assoc (trace w))|by apply silent_app; [|repeat constructor]|].
  intros _. wp_step. destruct (nth 0 (out r3) 0 =? 0).
  { wp_seq. eexists ((tr1 ++ tr2) ++ [e3; _]). split.
    - cbn [after trace]. rewrite Ht12, <- !(app_assoc (trace w)), <- (app_assoc (tr1 ++ tr2)). done.
    - split; [done|left]. by apply silent_app; [|repeat constructor]. }
  do 2 wp_step. apply wp_syscall_live. intros r4 k4 _ Hc4 _ _.
  apply (roomy_calmer _ _ _ Hroom3) in Hc4 as Hroom4.
  set (e4 := EvCall (Cmalloc RDWR_SIZE) r4). cbn [post]. wp_step.
  destruct (ret r4 =? 0).
  { wp_seq. eexists ((tr1 ++ tr2) ++ [e3; e4; _]). split.
    - cbn [after trace]. rewrite Ht12, <- !(app_assoc (trace w)), <- !(app_assoc (tr1 ++ tr2)). done.
    - split; [done|left]. by apply silent_app; [|repeat constructor]. }
  wp_step. apply (wp_copy_and_finish _ _ _ op1 op2 _ w _ ((tr1 ++ tr2) ++ [e3; e4])); [|done|..].
  - by eapply Hapart.
  - cbn [after trace]. by rewrite Ht12, <- !(app_assoc (trace w)), <- !(app_assoc (tr1 ++ tr2)).
  - by apply silent_app; [|repeat constructor].
  - set_solver.
  - set_solver.
Qed.

End Main.

(** The file copy.  It ends; status 0 means that the destination was written
    exactly the bytes read from the source, in order and to its end; status 1 that at most a
    prefix of them was.  When a read fails the program does not stop: it passes
    the count -1 on as a size and runs off its buffer. *)
Theorem rdwr_copies {K} `{HL : LiveKernel K} fuel prg src dst (w : world K) :
  roomy fuel (kern w) -> opens_apart K ->
  exists o w' tr,
    main fuel [prg; src; dst] w = (o, w') /\ trace w' = trace w ++ tr /\
    copy_ending src dst o tr.
Proof.
  intros H1 H2. destruct (wp_run _ _ _ (wp_copy_main fuel prg src dst w H1 H2))
    as (o & w' & E & tr & H'). by exists o, w', tr.
Qed.

(** The pipe, with a descriptor of its own for the destination and files whose
    size is not zero. *)
Definition disk : Kernel pipe := fun c k =>
  match c with
  | Copen _ 66 _ => (Resp 4 0 [], k)
  | Csys "stat" _ => (Resp 0 0 [1], k)
  | _ => pipe_kernel c k
  end.

Lemma disk_cases c k :
  disk c k = pipe_kernel c k \/ (0 <= ret (fst (disk c k)) /\ snd (disk c k) = k /\
    call_failed c (ret (fst (disk c k))) = false /\ 
    match c with Copen _ _ _ | Csys _ _ => True | _ => False end).
Proof.
  destruct c as [| |path flags mode| | | |fn args]; try (by left).
  - unfold disk. repeat (case_match; try (by left)). by right.
  - unfold disk. repeat (case_match; try (by left)). by right.
Qed.

#[local] Instance disk_posix : @PosixKernel pipe disk.
Proof.
  intros c k. unfold kstep. destruct (disk_cases c k) as [->|(Hr & _ & Hf & Hc)].
  - apply (@kstep_ok pipe pipe_kernel pipe_posix).
  - split; [by rewrite Hf|]. destruct c; try done. lia.
Qed.

#[local] Program Instance disk_live : @LiveKernel pipe disk disk_posix :=
  {| patience k := length (p_sigs k); pending fd k := length (p_in k) |}.
Next Obligation.
  intros c k. unfold kstep. destruct (disk_cases c k) as [->|(_ & -> & _)]; [|done].
  apply (@patience_le pipe pipe_kernel pipe_posix pipe_live).
Qed.
Next Obligation.
  intros c k. unfold kstep. destruct (disk_cases c k) as [->|(Hr & _)]; [|lia].
  apply (@patience_lt pipe pipe_kernel pipe_posix pipe_live).
Qed.
Next Obligation.
  intros c k fd. unfold kstep. destruct (disk_cases c k) as [->|(_ & -> & _)]; [|done].
  apply (@pending_le pipe pipe_kernel pipe_posix pipe_live c k fd).
Qed.
Next Obligation.
  intros fd n k. apply (@pending_read pipe pipe_kernel pipe_posix pipe_live fd n k).
Qed.
Next Obligation.
  intros fd d k. apply (@write_progress pipe pipe_kernel pipe_posix pipe_live).
Qed.

Lemma disk_opens_apart : @opens_apart pipe disk.
Proof.
  intros src dst k1 k1' k2 k2' r1 r2. unfold kstep, disk, O_RDONLY, O_DEST, pipe_kernel.
  destruct (pipe_next k1) as [[] ?]; cbn; intros [= <- <-] H [= <- <-]; cbn in *; lia.
Qed.

Lemma rdwr_copies_witness :
  exists o w' tr,
    @main pipe disk 100 ["copy"; "a"; "b"] (World (Pipe (bytes_of "some data") [] [false; true] 2) 0 [])
      = (o, w') /\ trace w' = [] ++ tr /\ copy_ending "a" "b" o tr.
Proof.
  apply (@rdwr_copies pipe disk disk_posix disk_live 100 "copy" "a" "b"
           (World (Pipe (bytes_of "some data") [] [false; true] 2) 0 [])).
  - intros fd. split; vm_compute; [done|lia].
  - apply disk_opens_apart.
Defined.

(** On that disk the program exits with 0 and has copied the data. *)
Lemma rdwr_copies_data :
  let r := @main pipe disk 100 ["copy"; "a"; "b"]
             (World (Pipe (bytes_of "some data") [] [false; true] 2) 0 []) in
  fst r = Halt (HExit 0) /\ p_out (kern (snd r)) = bytes_of "some data".
Proof. by vm_compute. Qed.

(** ** The copy on a file system *)

Section OnFs.

(** The next chunk of a file. *)
Lemma take_chunk (n p : Z) (l : list Z) : 0 < n -> 0 <= p <= zlen l ->
  exists d, ztake n (zdrop p l) = d /\ 0 <= zlen d /\ p + zlen d <= zlen l /\ zlen d <= n /\
    (zlen d = 0 -> p = zlen l) /\ d = ztake (zlen d) (zdrop p l).
Proof.
  intros Hn Hp. exists (ztake n (zdrop p l)). rewrite ztake_self.
  assert (zlen (zdrop p l) = zlen l - p) by (apply zlen_zdrop; lia).
  split_and!; try done; unfold ztake, zlen in *; rewrite length_take in *; lia.
Qed.

(** [p] bytes are copied. *)
Definition fs_copied src dst from to i j cs old p (k : fs) : Prop :=
  0 <= p <= zlen cs /\ opened src dst from to i j p p k /\
  inodes k !! i = Some cs /\ inodes k !! j = Some (ztake p cs ++ zdrop p old).

Lemma fs_copy_step fuel src dst from to (i j : nat) cs old p (w : world fs) :
  i <> j -> fs_copied src dst from to i j cs old p (kern w) ->
  wp (copy_iter (S (S fuel)) from to tt)
    (post (fun x w' => match x with
       | inl _ => exists p', p < p' /\ fs_copied src dst from to i j cs old p' (kern w')
       | inr _ => fs_copied src dst from to i j cs old (zlen cs) (kern w')
       end) (fun _ _ => False)) w.
Proof.
  intros Hij (Hp & Ho & Hi & Hj). unfold copy_iter, r_read. wp_step. wp_step.
  assert (Hsz : 0 < RDWR_SIZE <= INT_MAX) by (unfold RDWR_SIZE, INT_MAX; lia).
  destruct (take_chunk RDWR_SIZE p cs) as (d & Ed & Hd0 & Hd1 & Hd2 & Hdz & Hd); [lia..|].
  eapply wp_fs_restart.
  { unfold fs_kernel, do_read. erewrite file_of_from by done. rewrite Ed. reflexivity. }
  { left. exact (zlen_neg _). }
  cbn [post ret out]. wp_seq.
  destruct (Z.eqb_spec (zlen d) 0) as [E|E].
  { wp_step. rewrite <- (Hdz E), E, Z.add_0_r.
    split; [lia|]. split; [by eapply opened_from|done]. }
  wp_step. rewrite (ztake_all RDWR_SIZE d) by lia.
  assert (Ho1 : opened src dst from to i j (p + zlen d) p (set_fd from i (p + zlen d) (kern w)))
    by (by eapply opened_from).
  eapply wp_fs_r_write; [by eapply file_of_to|lia|].
  cbn [post]. destruct (Z.eqb_spec (zlen d) (-1)); [lia|]. rewrite Z.eqb_refl. unfold fail_if.
  cbn [negb]. wp_seq. exists (p + zlen d). split; [lia|]. cbn [kern after].
  split; [lia|]. split; [by eapply opened_to, opened_inode|]. cbn [inodes set_fd set_inode].
  rewrite lookup_insert_ne, lookup_insert_eq by done. split; [done|]. f_equal.
  rewrite Hd at 1. rewrite pwrite_next by lia. done.
Qed.
(** The bytes of the source still to be read. *)
Definition unread (cs : list Z) (from : Z) (k : fs) : nat :=
  match fds k !! from with Some (_, p) => Z.to_nat (zlen cs - p) | None => 0 end.

Lemma wp_fs_copy_loop fuel src dst from to (i j : nat) cs old (Q : outcome unit -> world fs -> Prop) w :
  i <> j -> fs_copied src dst from to i j cs old 0 (kern w) -> zlen cs + 2 < Z.of_nat fuel ->
  (forall w', fs_copied src dst from to i j cs old (zlen cs) (kern w') -> Q (Done tt) w') ->
  wp (copy_loop fuel from to) Q w.
Proof.
  intros Hij Hw Hf HQ. pose proof (zlen_nonneg cs). unfold copy_loop.
  assert (exists fuel', fuel = S (S fuel')) as [fuel' Hfuel] by (exists (fuel - 2)%nat; lia).
  apply (wp_loop_total (fun _ w => exists p, fs_copied src dst from to i j cs old p (kern w))
           (fun _ w => unread cs from (kern w))).
  - intros [] w1 (p & H1). rewrite Hfuel. eapply wp_mono; [|by eapply fs_copy_step].
    intros [[[]|[]]|h] w2 H2; cbn [post] in *; [|by apply HQ|done].
    destruct H2 as (p' & Hp & H2). split; [by exists p'|]. unfold unread.
    destruct H1 as (? & O1 & _), H2 as (? & O2 & _). rewrite (o_from _ _ _ _ _ _ _ _ _ O1), (o_from _ _ _ _ _ _ _ _ _ O2). lia.
  - by exists 0.
  - unfold unread. destruct Hw as (_ & O1 & _). rewrite (o_from _ _ _ _ _ _ _ _ _ O1). lia.
Qed.

Lemma wp_fs_finish from to p (Q : outcome unit -> world fs -> Prop) w :
  (forall w', dir (kern w') = dir (kern w) -> inodes (kern w') = inodes (kern w) -> Q (Done tt) w') ->
  wp (finish from to p) Q w.
Proof.
  intros HQ. unfold finish.
  wp_go; apply HQ; cbn [kern after] in *; unfold kstep in *;
    repeat match goal with
    | H : fs_kernel (Cclose _) _ = _ |- _ => apply fs_close_keeps in H as [? ?]
    | H : fs_kernel (Cfree _) _ = _ |- _ => cbn in H; injection H as <- <-
    end; congruence.
Qed.

Lemma wp_fs_rdwr fuel prg src dst (i j : nat) cs old (w : world fs) :
  dir (kern w) !! src = Some i -> inodes (kern w) !! i = Some cs -> cs <> [] ->
  target dst j old (kern w) -> i <> j -> 0 <= next (kern w) -> zlen cs + 2 < Z.of_nat fuel ->
  wp (main fuel [prg; src; dst]) (fun o w' => o = Halt (HExit 0) /\
    contents (kern w') dst = Some (cs ++ zdrop (zlen cs) old) /\ contents (kern w') src = Some cs) w.
Proof.
  intros Hsrc Hi Hcs Htgt Hij Hnext Hfuel. pose proof (zlen_nonneg cs).
  assert (zlen cs <> 0) by (intros ?%zlen_0; done).
  destruct fuel as [|fuel]; [lia|]. unfold main. change (argc [prg; src; dst] =? 3) with true.
  cbn [negb arg_n nth]. unfold r_open2, r_open3. wp_call.
  eapply wp_fs_restart; [by apply open_source|left; cbn; lia|]. cbn [post]. wp_call.
  unfold fail_if. cbn [ret]. destruct (Z.eqb_spec (-1) (next (kern w))); [lia|]. wp_call.
  destruct (open_target src dst O_DEST i j cs old (kern w)) as (k2 & E2 & Ho & Hj2 & Hi2 & _); [done..|].
  eapply wp_fs_restart; [exact E2|left; cbn; lia|]. cbn [post ret]. wp_call.
  destruct (Z.eqb_spec (-1) (next (kern w) + 1)); [lia|]. wp_call. eapply wp_fs_call.
  { cbn [kern after]. unfold fs_kernel, do_stat. rewrite (o_src _ _ _ _ _ _ _ _ _ Ho). cbn [mbind option_bind].
    by rewrite Hi2. }
  cbn [post ret out]. change (0 =? -1) with false. wp_call. cbn [nth].
  destruct (Z.eqb_spec (zlen cs) 0); [done|]. wp_call. eapply wp_fs_call; [done|]. cbn [post ret].
  change (1 =? 0) with false. wp_call. eapply (wp_fs_copy_loop _ src dst _ _ i j cs old); [done| |lia|].
  { cbn [kern after]. split; [lia|]. split; [done|]. by rewrite Hj2. }
  intros w' (_ & Ho' & Hi' & Hj'). cbn [post]. wp_step. apply wp_fs_finish.
  intros w2 Hd2 Hn2. cbn [post]. wp_step. split; [done|]. unfold contents. rewrite Hd2, Hn2.
  rewrite (o_src _ _ _ _ _ _ _ _ _ Ho'), (o_dst _ _ _ _ _ _ _ _ _ Ho'). cbn [mbind option_bind].
  by rewrite Hi', Hj', ztake_all by lia.
Qed.

End OnFs.

(** The copy on a file system.  When the source is a file that is not empty and
    the destination is another file or none yet, the program exits with 0, the
    destination's front is the source's bytes, and what the destination had after
    that length is still there. *)
Theorem rdwr_file fuel prg src dst (i j : nat) cs old (w : world fs) :
  dir (kern w) !! src = Some i -> inodes (kern w) !! i = Some cs -> cs <> [] ->
  target dst j old (kern w) -> i <> j -> 0 <= next (kern w) -> zlen cs + 2 < Z.of_nat fuel ->
  exists w', main fuel [prg; src; dst] w = (Halt (HExit 0), w') /\
    contents (kern w') dst = Some (cs ++ zdrop (zlen cs) old) /\ contents (kern w') src = Some cs.
Proof.
  intros H1 H2 H3 H4 H5 H6 H7.
  destruct (wp_run _ _ _ (wp_fs_rdwr fuel prg src dst i j cs old w H1 H2 H3 H4 H5 H6 H7))
    as (o & w' & E & -> & H'). by exists w'.
Qed.

(** A file system with the files a and b; b is longer. *)
Definition two_files : fs :=
  FS {["a" := 0%nat; "b" := 1%nat]} {[0%nat := [1; 2; 3]; 1%nat := [9; 9; 9; 9]]} ∅ ∅ 3.

Lemma rdwr_file_witness :
  exists w', main 10 ["copy"; "a"; "b"] (World two_files 0 []) = (Halt (HExit 0), w') /\
    contents (kern w') "b" = Some ([1; 2; 3] ++ zdrop (zlen [1; 2; 3]) [9; 9; 9; 9]) /\
    contents (kern w') "a" = Some [1; 2; 3].
Proof.
  apply (rdwr_file 10 "copy" "a" "b" 0 1 [1; 2; 3] [9; 9; 9; 9] (World two_files 0 [])); try done.
  by left.
Defined.
