(* ===== verification/Threads.v ===== *)
(** Two programs of src/pthreads/llnl-tut-prgs as interleaving machines: the
    condition variable of pt4-condvar.c and the dot product of pt3-matrixmul.c.
    A thread's body is an automaton whose states are the points between two
    accesses to shared data; a step of the system is a step of one thread. *)
From stdpp Require Import relations.
From S2P Require Import Prelude CMonad CLib.
#[local] Open Scope Z_scope.

(** ** pt4-condvar.c *)

Module Condvar.

Definition NUM_THREADS : Z := 3.
Definition TCOUNT : Z := 10.
Definition COUNT_LIMIT : Z := 12.

Inductive tid := T0 | T1 | T2.

#[export] Instance tid_eq_dec : EqDecision tid.
Proof. solve_decision. Defined.

(** Where a thread that runs [inc_count] is, in turn [i] of its loop.  [count++]
    is a load and a store. *)
Inductive inc_pc :=
| Inc_lock (i : Z)
| Inc_load (i : Z)
| Inc_store (i v : Z)
| Inc_check (i : Z)
| Inc_unlock (i : Z)
| Inc_exit.

(** Where the thread that runs [watch_count] is. [Watch_wait] is inside
    pthread_cond_wait, [Watch_woken] is awake there but without the mutex. *)
Inductive watch_pc :=
| Watch_start
| Watch_lock
| Watch_test
| Watch_wait
| Watch_woken
| Watch_unlock
| Watch_exit.

Record state := State {
  count : Z;
  count_mutex : option tid;
  inc0 : inc_pc;
  inc1 : inc_pc;
  watch : watch_pc }.

Definition inc_next (i : Z) : inc_pc := if i + 1 <? TCOUNT then Inc_lock (i + 1) else Inc_exit.

(** pthread_cond_signal wakes the watcher if it waits. *)
Definition signal (w : watch_pc) : watch_pc :=
  match w with Watch_wait => Watch_woken | _ => w end.

(** One step of [inc_count] in thread [t]: the count, the mutex, the thread's new
    place and the watcher's. *)
Definition inc_count (t : tid) (pc : inc_pc) (c : Z) (m : option tid) (w : watch_pc)
    : option (Z * option tid * inc_pc * watch_pc) :=
  match pc with
  | Inc_lock i => if decide (m = None) then Some (c, Some t, Inc_load i, w) else None
  | Inc_load i => Some (c, m, Inc_store i c, w)
  | Inc_store i v => Some (v + 1, m, Inc_check i, w)
  | Inc_check i => Some (c, m, Inc_unlock i, if c =? COUNT_LIMIT then signal w else w)
  | Inc_unlock i => Some (c, None, inc_next i, w)
  | Inc_exit => None
  end.

(** One step of [watch_count] in thread [t]. *)
Definition watch_count (t : tid) (pc : watch_pc) (c : Z) (m : option tid)
    : option (option tid * watch_pc) :=
  match pc with
  | Watch_start => Some (m, Watch_lock)
  | Watch_lock => if decide (m = None) then Some (Some t, Watch_test) else None
  | Watch_test => if c <? COUNT_LIMIT then Some (None, Watch_wait) else Some (m, Watch_unlock)
  | Watch_wait => None
  | Watch_woken => if decide (m = None) then Some (Some t, Watch_test) else None
  | Watch_unlock => Some (None, Watch_exit)
  | Watch_exit => None
  end.

Definition exec (t : tid) (s : state) : option state :=
  match t with
  | T0 => '(c, m, pc, w) ← inc_count T0 (inc0 s) (count s) (count_mutex s) (watch s);
          Some (State c m pc (inc1 s) w)
  | T1 => '(c, m, pc, w) ← inc_count T1 (inc1 s) (count s) (count_mutex s) (watch s);
          Some (State c m (inc0 s) pc w)
  | T2 => '(m, pc) ← watch_count T2 (watch s) (count s) (count_mutex s);
          Some (State (count s) m (inc0 s) (inc1 s) pc)
  end.

(** The threads as main creates them. *)
Definition start : state := State 0 None (Inc_lock 0) (Inc_lock 0) Watch_start.

(** A move is a step of a thread, or a wakeup of the waiting watcher without a
    signal, which POSIX allows. *)
Inductive move := Run (t : tid) | Spurious.

#[export] Instance move_eq_dec : EqDecision move.
Proof. solve_decision. Defined.

Definition do_move (mv : move) (s : state) : option state :=
  match mv with
  | Run t => exec t s
  | Spurious =>
      match watch s with
      | Watch_wait => Some (State (count s) (count_mutex s) (inc0 s) (inc1 s) Watch_woken)
      | _ => None
      end
  end.

Fixpoint do_moves (l : list move) (s : state) : option state :=
  match l with
  | [] => Some s
  | mv :: l' => s' ← do_move mv s; do_moves l' s'
  end.

Section Code.
Context {K : Type} {HK : Kernel K}.

Definition join (i : Z) : C K Z := sys "pthread_join" [AI i].

Definition main : C K unit :=
  sys "pthread_mutex_init" [AS "count_mutex"];;
  sys "pthread_cond_init" [AS "count_threshold_cv"];;
  sys "pthread_attr_init" [];;
  sys "pthread_attr_setdetachstate" [AS "PTHREAD_CREATE_JOINABLE"];;
  sys "pthread_create" [AI 0; AS "inc_count"; AI 0];;
  sys "pthread_create" [AI 1; AS "inc_count"; AI 1];;
  sys "pthread_create" [AI 2; AS "watch_count"; AI 2];;
  join 0;; join 1;; join 2;;
  printf (cat ["Main(): Waited on "; fmt_d NUM_THREADS; " threads. Done."; nl]);;
  sys "pthread_attr_destroy" [];;
  sys "pthread_mutex_destroy" [AS "count_mutex"];;
  sys "pthread_cond_destroy" [AS "count_threshold_cv"];;
  halt_with HThreadExit.

End Code.

(** *** Invariant *)

(** The increments a thread has done. *)
Definition increments (pc : inc_pc) : Z :=
  match pc with
  | Inc_lock i | Inc_load i | Inc_store i _ => i
  | Inc_check i | Inc_unlock i => i + 1
  | Inc_exit => TCOUNT
  end.

Definition inc_holds (pc : inc_pc) : bool :=
  match pc with Inc_load _ | Inc_store _ _ | Inc_check _ | Inc_unlock _ => true | _ => false end.

Definition watch_holds (pc : watch_pc) : bool :=
  match pc with Watch_test | Watch_unlock => true | _ => false end.

Definition inc_ok (pc : inc_pc) (c : Z) : Prop :=
  match pc with
  | Inc_store i v => 0 <= i < TCOUNT /\ v = c
  | Inc_lock i | Inc_load i | Inc_check i | Inc_unlock i => 0 <= i < TCOUNT
  | Inc_exit => True
  end.

Definition checking (pc : inc_pc) : bool := match pc with Inc_check _ => true | _ => false end.

(** A wakeup is never lost: while the watcher waits the count is below the limit,
    or it is the limit and the thread that reached it is about to signal. *)
Definition watch_ok (s : state) : Prop :=
  match watch s with
  | Watch_wait => count s < COUNT_LIMIT \/
      (count s = COUNT_LIMIT /\ (checking (inc0 s) || checking (inc1 s) = true))
  | Watch_unlock | Watch_exit => COUNT_LIMIT <= count s
  | _ => True
  end.

Record inv (s : state) : Prop := Inv {
  inv_count : count s = increments (inc0 s) + increments (inc1 s);
  inv_inc0 : inc_ok (inc0 s) (count s);
  inv_inc1 : inc_ok (inc1 s) (count s);
  inv_m0 : inc_holds (inc0 s) = bool_decide (count_mutex s = Some T0);
  inv_m1 : inc_holds (inc1 s) = bool_decide (count_mutex s = Some T1);
  inv_m2 : watch_holds (watch s) = bool_decide (count_mutex s = Some T2);
  inv_watch : watch_ok s }.

(** Case analysis on a step of the system. *)
Ltac cv_cases :=
  repeat (case_decide || case_match || simplify_eq || cbn in * ).

Ltac cv_inv :=
  constructor; unfold watch_ok, inc_next, signal in *; cbn in *; cv_cases;
  rewrite ?bool_decide_eq_true_2, ?bool_decide_eq_false_2 in * by congruence;
  unfold TCOUNT, COUNT_LIMIT in *; cbn in *; try congruence; try tauto; try lia.

Lemma cv_start_inv : inv start.
Proof. by constructor. Qed.

Lemma cv_exec_inv t s s' : inv s -> exec t s = Some s' -> inv s'.
Proof.
  intros [Hc H0 H1 M0 M1 M2 Hw] E. destruct s as [c m p0 p1 w]. cbn in *.
  destruct t; cbn in E.
  - destruct p0, p1; cv_cases; cv_inv.
  - destruct p1, p0; cv_cases; cv_inv.
  - destruct w; cv_cases; cv_inv.
Qed.

Lemma do_move_inv mv s s' : inv s -> do_move mv s = Some s' -> inv s'.
Proof.
  destruct mv as [t|]; [apply cv_exec_inv|]. intros [Hc H0 H1 M0 M1 M2 Hw] E.
  destruct s as [c m p0 p1 w]. cbn in *. cv_cases; cv_inv.
Qed.

Lemma do_moves_inv l s s' : inv s -> do_moves l s = Some s' -> inv s'.
Proof.
  revert s. induction l as [|mv l IH]; intros s Hs E; cbn in E; [by simplify_eq|].
  apply bind_Some in E as (s1 & E1 & E). eapply IH; [by eapply do_move_inv|done].
Qed.

(** *** Progress and termination *)

Definition finished (s : state) : Prop :=
  inc0 s = Inc_exit /\ inc1 s = Inc_exit /\ watch s = Watch_exit.

Definition stuck (s : state) : Prop := forall t, exec t s = None.

Lemma stuck_finished s : inv s -> stuck s -> finished s.
Proof.
  intros [Hc H0 H1 M0 M1 M2 Hw] Hs. destruct s as [c m p0 p1 w].
  pose proof (Hs T0) as S0. pose proof (Hs T1) as S1. pose proof (Hs T2) as S2.
  clear Hs. unfold watch_ok, finished in *. cbn in *.
  destruct m as [[]|]; cbn in *.
  - destruct p0; cbn in *; done.
  - destruct p1; cbn in *; done.
  - destruct w; cbn in *; try done. by destruct (c <? COUNT_LIMIT).
  - destruct p0; cbn in *; try done. destruct p1; cbn in *; try done.
    destruct w; cbn in *; try done. unfold TCOUNT, COUNT_LIMIT in *. lia.
Qed.

(** What is left to do: a step of a worker weighs more than the detour a signal
    sends the watcher on. *)
Definition inc_left (pc : inc_pc) : Z :=
  match pc with
  | Inc_lock i => 5 * (TCOUNT - i)
  | Inc_load i => 5 * (TCOUNT - i) - 1
  | Inc_store i _ => 5 * (TCOUNT - i) - 2
  | Inc_check i => 5 * (TCOUNT - i) - 3
  | Inc_unlock i => 5 * (TCOUNT - i) - 4
  | Inc_exit => 0
  end.

Definition watch_left (pc : watch_pc) : Z :=
  match pc with
  | Watch_start => 5 | Watch_lock => 4 | Watch_test => 3 | Watch_wait => 2
  | Watch_woken => 4 | Watch_unlock => 1 | Watch_exit => 0
  end.

Definition left (s : state) : Z := 3 * (inc_left (inc0 s) + inc_left (inc1 s)) + watch_left (watch s).

Lemma left_nonneg s : inv s -> 0 <= left s.
Proof.
  intros [_ H0 H1 _ _ _ _]. unfold left. destruct s as [c m p0 p1 w]. cbn in *.
  assert (forall p, inc_ok p c -> 0 <= inc_left p) as Hp
    by (intros []; cbn; unfold TCOUNT; lia).
  pose proof (Hp _ H0). pose proof (Hp _ H1). destruct w; cbn; lia.
Qed.

Lemma signal_left w : watch_left (signal w) <= watch_left w + 2.
Proof. by destruct w. Qed.

Lemma inc_next_left i : 0 <= i < TCOUNT -> inc_left (inc_next i) < inc_left (Inc_unlock i).
Proof. intros. unfold inc_next. destruct (Z.ltb_spec (i + 1) TCOUNT); cbn; lia. Qed.

Lemma exec_left t s s' : inv s -> exec t s = Some s' -> left s' < left s.
Proof.
  intros [_ H0 H1 _ _ _ _] E. unfold left. destruct s as [c m p0 p1 w]. cbn in *.
  pose proof (signal_left w).
  destruct t; cbn in E; [destruct p0 as [i|i|i|i|i|]|destruct p1 as [i|i|i|i|i|]|destruct w]; cv_cases;
    try lia; [pose proof (inc_next_left i H0)|pose proof (inc_next_left i H1)]; cbn in *; lia.
Qed.

(** The thread steps and the spurious wakeups of a run. *)
Definition runs (l : list move) : Z := zlen (filter (fun mv => mv <> Spurious) l).
Definition spurious (l : list move) : Z := zlen (filter (fun mv => mv = Spurious) l).

Lemma do_moves_left l s s' : inv s -> do_moves l s = Some s' -> left s' + runs l <= left s + 2 * spurious l.
Proof.
  revert s. induction l as [|mv l IH]; intros s Hs E; cbn in E.
  { simplify_eq. unfold runs, spurious. rewrite !filter_nil, !zlen_nil. lia. }
  apply bind_Some in E as (s1 & E1 & E). specialize (IH s1 (do_move_inv _ _ _ Hs E1) E).
  unfold runs, spurious in *. destruct mv as [t|].
  - rewrite filter_cons_True, filter_cons_False, zlen_cons by done.
    pose proof (exec_left t s s1 Hs E1). lia.
  - rewrite filter_cons_False, filter_cons_True, zlen_cons by auto.
    cbn in E1. destruct s as [c m p0 p1 w]. unfold left in *. cbn in *. cv_cases. lia.
Qed.

(** C11: the condition variable program is correct under every schedule, with the
    wakeups POSIX allows without a signal.  The mutex serialises the threads, so
    no increment is lost; the watcher gets past its loop only once the limit is
    reached and its wakeup is never missed: when no thread can step, all three
    have exited and the count is 20; and a run has at most 305 thread steps, plus
    two for each wakeup without a signal. *)
Theorem condvar_correct l s :
  do_moves l start = Some s ->
  count s = increments (inc0 s) + increments (inc1 s) /\
  (inc_holds (inc0 s) && inc_holds (inc1 s) = false) /\
  (watch s = Watch_exit -> COUNT_LIMIT <= count s) /\
  (stuck s -> finished s /\ count s = 20) /\
  runs l <= 305 + 2 * spurious l.
Proof.
  intros E. pose proof (do_moves_inv _ _ _ cv_start_inv E) as Hs.
  pose proof (do_moves_left _ _ _ cv_start_inv E) as Hl. pose proof (left_nonneg _ Hs).
  change (left start) with 305 in Hl. pose proof (stuck_finished s Hs) as Hf.
  destruct Hs as [Hc H0 H1 M0 M1 M2 Hw]. split_and!; [done| | | |lia].
  - rewrite M0, M1. destruct (count_mutex s) as [[]|]; by repeat case_bool_decide.
  - intros Hx. unfold watch_ok in Hw. by rewrite Hx in Hw.
  - intros Hst. destruct (Hf Hst) as (F0 & F1 & F2). split; [done|]. by rewrite Hc, F0, F1.
Qed.

(** Both workers run, then the watcher, which finds the limit reached. *)
Definition sequential : list move :=
  concat (replicate 50 [Run T0]) ++ concat (replicate 50 [Run T1]) ++ replicate 4 (Run T2).

Lemma condvar_correct_witness :
  do_moves sequential start = Some (State 20 None Inc_exit Inc_exit Watch_exit) /\
  runs sequential <= 305 + 2 * spurious sequential.
Proof.
  split; [by vm_compute|].
  apply (condvar_correct sequential (State 20 None Inc_exit Inc_exit Watch_exit)). by vm_compute.
Defined.

(** The watcher waits first and is woken by the signal. *)
Lemma condvar_wakeup :
  exists s, do_moves (replicate 3 (Run T2) ++ replicate 50 (Run T0) ++ replicate 14 (Run T1)
                      ++ replicate 1 (Run T1) ++ replicate 3 (Run T2)) start = Some s /\
    watch s = Watch_exit /\ count s = 13.
Proof. eexists. split; [by vm_compute|]. done. Qed.

End Condvar.

(** ** pt3-matrixmul.c *)

Module Dotprod.

Definition NUMTHRDS : Z := 4.
Definition VECLEN : Z := 100.

(** The shared structure.  The program only computes integers below 2^53, which
    its doubles represent exactly. *)
Record DOTDATA := Dotdata { a : list Z; b : list Z; sum : Z; veclen : Z }.

(** Where a thread that runs [dotprod] is; [dotstr.sum += mysum] is a load and a
    store.  [Fault] is an access outside the vectors. *)
Inductive pc :=
| Lock1
| Read
| Unlock1 (start fin : Z)
| Sum (i fin mysum : Z)
| Lock2 (mysum : Z)
| Load (mysum : Z)
| Store (mysum v : Z)
| Unlock2
| Exited
| Fault (i : Z).

Record state := State { dotstr : DOTDATA; mutexsum : option nat; pcs : list pc }.

Definition set_sum (d : DOTDATA) (v : Z) : DOTDATA := Dotdata (a d) (b d) v (veclen d).

(** One step of [dotprod] in the thread created with offset [t]. *)
Definition dotprod (t : nat) (p : pc) (d : DOTDATA) (m : option nat)
    : option (DOTDATA * option nat * pc) :=
  let offset := Z.of_nat t in
  match p with
  | Lock1 => if decide (m = None) then Some (d, Some t, Read) else None
  | Read => let len := veclen d in
            let start := offset * len in Some (d, m, Unlock1 start (start + len))
  | Unlock1 start fin => Some (d, None, Sum start fin 0)
  | Sum i fin mysum =>
      if i <? fin then
        match znth (a d) i, znth (b d) i with
        | Some x, Some y => Some (d, m, Sum (i + 1) fin (mysum + x * y))
        | _, _ => Some (d, m, Fault i)
        end
      else Some (d, m, Lock2 mysum)
  | Lock2 mysum => if decide (m = None) then Some (d, Some t, Load mysum) else None
  | Load mysum => Some (d, m, Store mysum (sum d))
  | Store mysum v => Some (set_sum d (v + mysum), m, Unlock2)
  | Unlock2 => Some (d, None, Exited)
  | Exited | Fault _ => None
  end.

Definition exec (t : nat) (s : state) : option state :=
  p ← pcs s !! t;
  '(d, m, p) ← dotprod t p (dotstr s) (mutexsum s);
  Some (State d m (<[t := p]> (pcs s))).

Fixpoint schedule (l : list nat) (s : state) : option state :=
  match l with
  | [] => Some s
  | t :: l' => s' ← exec t s; schedule l' s'
  end.

(** [n] threads on the vectors [x] and [y]. *)
Definition start (n : nat) (x y : list Z) (len : Z) : state :=
  State (Dotdata x y 0 len) None (replicate n Lock1).

Section Code.
Context {K : Type} {HK : Kernel K}.

(** [for (i = 0; i < NUMTHRDS; i++) pthread_create(...)] *)
Definition create (name : string) (i : nat) : C K unit :=
  r ← sys "pthread_create" [AI (Z.of_nat i); AS "dotprod"; AI (Z.of_nat i)];
  if negb (r =? 0) then
    fprintf stderr (cat [name; ": thread "; fmt_d (Z.of_nat i); " creation failed, aborting.."; nl])
  else mret tt.

Fixpoint each (l : list nat) (f : nat -> C K unit) : C K unit :=
  match l with [] => mret tt | i :: l' => f i;; each l' f end.

(** pthread_join(callThd[i], &status): a successful join stores the eight bytes of
    the thread's result in the int [status]. *)
Definition join (i : nat) : C K unit :=
  r ← syscall (Csys "pthread_join" [AI (Z.of_nat i)]);
  if ret r =? 0 then copy_in "status" (uninit 4) 0 (replicate 8 0);; mret tt else mret tt.

(** [fmt_f] is printf's [%f]; [result] the final [dotstr.sum]. *)
Definition main (fmt_f : Z -> string) (result : Z) (name : string) : C K unit :=
  a ← syscall (Cmalloc (NUMTHRDS * VECLEN * 8));
  b ← syscall (Cmalloc (NUMTHRDS * VECLEN * 8));
  (if (ret a =? 0) || (ret b =? 0) then undefined (UB_null "a[i]") else mret tt);;
  sys "pthread_mutex_init" [AS "mutexsum"];;
  sys "pthread_attr_init" [];;
  sys "pthread_attr_setdetachstate" [AS "PTHREAD_CREATE_JOINABLE"];;
  each (seq 0 (Z.to_nat NUMTHRDS)) (create name);;
  sys "pthread_attr_destroy" [];;
  each (seq 0 (Z.to_nat NUMTHRDS)) join;;
  printf (cat ["Sum =  "; fmt_f result; " "; nl]);;
  syscall (Cfree (ret a));;
  syscall (Cfree (ret b));;
  sys "pthread_mutex_destroy" [AS "mutexsum"];;
  halt_with HThreadExit.

End Code.

(** *** Sums *)

Definition zsum (l : list Z) : Z := foldr Z.add 0 l.

(** The dot product of the vectors over [lo .. lo + n - 1]. *)
Fixpoint dot (d : DOTDATA) (lo : Z) (n : nat) : Z :=
  match n with
  | O => 0
  | S n' => dot d lo n' +
      default 0 (znth (a d) (lo + Z.of_nat n')) * default 0 (znth (b d) (lo + Z.of_nat n'))
  end.

Lemma dot_app d lo n m : dot d lo (n + m) = dot d lo n + dot d (lo + Z.of_nat n) m.
Proof.
  induction m as [|m IH]; [rewrite Nat.add_0_r; cbn; lia|].
  rewrite Nat.add_succ_r. cbn [dot]. rewrite IH.
  replace (lo + Z.of_nat (n + m)) with (lo + Z.of_nat n + Z.of_nat m) by lia. lia.
Qed.

(** A quantity summed over the threads. *)
Fixpoint total {P} (f : nat -> P -> Z) (t : nat) (l : list P) : Z :=
  match l with [] => 0 | p :: l' => f t p + total f (S t) l' end.

Lemma total_insert {P} (f : nat -> P -> Z) t i l p p' :
  l !! i = Some p -> total f t (<[i := p']> l) = total f t l - f (t + i)%nat p + f (t + i)%nat p'.
Proof.
  revert t i. induction l as [|q l IH]; intros t i H; [done|]. destruct i as [|i].
  - injection H as ->. change (<[0%nat := p']> (p :: l)) with (p' :: l). cbn [total].
    rewrite Nat.add_0_r. lia.
  - change (<[S i := p']> (q :: l)) with (q :: <[i := p']> l). cbn [total].
    rewrite (IH (S t) i H), Nat.add_succ_r. cbn. lia.
Qed.

Lemma total_replicate {P} (f : nat -> P -> Z) t k p c : (forall i, f i p = c) -> total f t (replicate k p) = Z.of_nat k * c.
Proof. intros H. revert t. induction k as [|k IH]; intros t; [done|]. cbn. rewrite IH, H. lia. Qed.

Lemma total_nonneg {P} (f : nat -> P -> Z) t l : Forall (fun p => forall t, 0 <= f t p) l -> 0 <= total f t l.
Proof.
  intros H. revert t. induction H as [|p l Hp _ IH]; intros t; cbn; [lia|].
  specialize (IH (S t)). specialize (Hp t). lia.
Qed.

(** *** Invariant *)

Definition holds (p : pc) : bool :=
  match p with Read | Unlock1 _ _ | Load _ | Store _ _ | Unlock2 => true | _ => false end.

Section Inv.
Context (d0 : DOTDATA) (n len : nat).
Context (Hlen : veclen d0 = Z.of_nat len).
Context (Ha : length (a d0) = (n * len)%nat) (Hb : length (b d0) = (n * len)%nat).

(** The part of the product thread [t] computes. *)
Definition part (t : nat) : Z := dot d0 (Z.of_nat t * Z.of_nat len) len.

Definition pc_ok (t : nat) (p : pc) (s : Z) : Prop :=
  let lo := Z.of_nat t * Z.of_nat len in
  match p with
  | Lock1 | Read | Unlock2 | Exited => True
  | Unlock1 start fin => start = lo /\ fin = lo + Z.of_nat len
  | Sum i fin mysum => fin = lo + Z.of_nat len /\
      exists k, (k <= len)%nat /\ i = lo + Z.of_nat k /\ mysum = dot d0 lo k
  | Lock2 mysum | Load mysum => mysum = part t
  | Store mysum v => mysum = part t /\ v = s
  | Fault _ => False
  end.

(** What a thread has added to the sum. *)
Definition added (t : nat) (p : pc) : Z :=
  match p with Unlock2 | Exited => part t | _ => 0 end.

(** The vectors and their length never change. *)
Definition same_data (d : DOTDATA) : Prop :=
  a d = a d0 /\ b d = b d0 /\ veclen d = veclen d0.

Record inv (s : state) : Prop := Inv {
  inv_data : same_data (dotstr s);
  inv_n : length (pcs s) = n;
  inv_sum : sum (dotstr s) = total added 0 (pcs s);
  inv_pc : forall t p, pcs s !! t = Some p -> pc_ok t p (sum (dotstr s));
  inv_mutex : forall t p, pcs s !! t = Some p -> holds p = bool_decide (mutexsum s = Some t);
  inv_owner : forall t, mutexsum s = Some t -> (t < n)%nat }.

(** The steps a thread has left. *)
Definition left (p : pc) : Z :=
  match p with
  | Lock1 => Z.of_nat len + 8
  | Read => Z.of_nat len + 7
  | Unlock1 _ _ => Z.of_nat len + 6
  | Sum i fin _ => fin - i + 5
  | Lock2 _ => 4
  | Load _ => 3
  | Store _ _ => 2
  | Unlock2 => 1
  | Exited | Fault _ => 0
  end.

Lemma znth_in (l : list Z) t k : length l = (n * len)%nat -> (t < n)%nat -> (k < len)%nat ->
  exists x, znth l (Z.of_nat t * Z.of_nat len + Z.of_nat k) = Some x.
Proof. intros Hl Ht Hk. apply znth_Some. unfold zlen. nia. Qed.

(** What a step of thread [t] does to the shared data. *)
Record step_ok (t : nat) (p p' : pc) (d d' : DOTDATA) (m m' : option nat) : Prop := StepOk {
  so_data : same_data d';
  so_sum : sum d' = sum d - added t p + added t p';
  so_pc : pc_ok t p' (sum d');
  so_holds : holds p' = bool_decide (m' = Some t);
  so_owner : sum d' = sum d \/ m = Some t;
  so_mutex : m' = m \/ (m = None /\ m' = Some t) \/ (m = Some t /\ m' = None);
  so_left : left p' < left p }.

Lemma dotprod_step t p d m d' m' p' :
  dotprod t p d m = Some (d', m', p') -> (t < n)%nat -> same_data d ->
  pc_ok t p (sum d) -> holds p = bool_decide (m = Some t) -> step_ok t p p' d d' m m'.
Proof.
  intros E Ht Hd Hp Hh. pose proof Hd as (Da & Db & Dl). symmetry in Hh. destruct p; cbn in E, Hp, Hh; simplify_eq;
    try apply bool_decide_eq_true in Hh; subst.
  - case_decide; simplify_eq. constructor; cbn; auto; [lia|by rewrite bool_decide_eq_true_2|lia].
  - constructor; cbn; auto; [lia|by rewrite Dl, Hlen|by rewrite bool_decide_eq_true_2|lia].
  - destruct Hp as [-> ->]. constructor; cbn; auto; [lia| |lia]. split; [done|]. exists O.
    split_and!; [lia|lia|done].
  - destruct Hp as (-> & k & Hk & -> & ->).
    destruct (Z.ltb_spec (Z.of_nat t * Z.of_nat len + Z.of_nat k) (Z.of_nat t * Z.of_nat len + Z.of_nat len)).
    + destruct (znth_in (a d0) t k Ha Ht) as [x Hx]; [lia|].
      destruct (znth_in (b d0) t k Hb Ht) as [y Hy]; [lia|].
      rewrite Da, Db, Hx, Hy in E. simplify_eq. constructor; cbn; auto; [lia| |lia].
      split; [done|]. exists (S k). cbn [dot]. rewrite Hx, Hy. cbn. split_and!; lia.
    + simplify_eq. constructor; cbn; auto; [lia| |lia]. by assert (k = len) as -> by lia.
  - case_decide; simplify_eq. constructor; cbn; auto; [lia|by rewrite bool_decide_eq_true_2|lia].
  - constructor; cbn; auto; [lia|by rewrite bool_decide_eq_true_2|lia].
  - destruct Hp as [-> ->]. constructor; cbn; auto; [lia|by rewrite bool_decide_eq_true_2|lia].
  - constructor; cbn; auto; lia.
Qed.

Lemma pc_ok_unheld t p s s' : holds p = false -> pc_ok t p s -> pc_ok t p s'.
Proof. by destruct p. Qed.

Lemma dp_exec_inv t s s' : inv s -> exec t s = Some s' ->
  inv s' /\ total (fun _ => left) 0 (pcs s') < total (fun _ => left) 0 (pcs s).
Proof.
  intros [Hd Hn Hs Hp Hm Ho] E. unfold exec in E.
  apply bind_Some in E as (p & Ep & E). apply bind_Some in E as ([[d' m'] p'] & Ed & [= <-]).
  pose proof (lookup_lt_Some _ _ _ Ep) as Ht. rewrite Hn in Ht.
  destruct (dotprod_step _ _ _ _ _ _ _ Ed Ht Hd (Hp _ _ Ep) (Hm _ _ Ep)) as [S1 S2 S3 S4 S5 S6 S7].
  split; [|cbn; rewrite (total_insert _ _ _ _ _ _ Ep); lia].
  constructor; cbn; [done|by rewrite length_insert| | | |].
  - rewrite (total_insert _ _ _ _ _ _ Ep), S2, Hs. done.
  - intros t' q Hq. destruct (decide (t = t')) as [<-|Hne].
    { rewrite list_lookup_insert_eq in Hq by (by rewrite Hn). by simplify_eq. }
    rewrite list_lookup_insert_ne in Hq by done. destruct S5 as [->|Hmt]; [by apply Hp|].
    eapply pc_ok_unheld; [|by apply Hp]. rewrite (Hm _ _ Hq), Hmt.
    apply bool_decide_eq_false_2. congruence.
  - intros t' q Hq. destruct (decide (t = t')) as [<-|Hne].
    { rewrite list_lookup_insert_eq in Hq by (by rewrite Hn). by simplify_eq. }
    rewrite list_lookup_insert_ne in Hq by done. rewrite (Hm _ _ Hq).
    destruct S6 as [->|[[-> ->]|[-> ->]]]; [done|..];
      rewrite !bool_decide_eq_false_2 by congruence; done.
  - intros t' ->. destruct S6 as [Hx|[[_ [= ->]]|[_ ?]]]; [by apply Ho|done|done].
Qed.

Lemma schedule_inv l s s' : inv s -> schedule l s = Some s' ->
  inv s' /\ total (fun _ => left) 0 (pcs s') + zlen l <= total (fun _ => left) 0 (pcs s).
Proof.
  revert s. induction l as [|t l IH]; intros s Hs E; cbn in E.
  { simplify_eq. split; [done|]. rewrite zlen_nil. lia. }
  apply bind_Some in E as (s1 & E1 & E). destruct (dp_exec_inv _ _ _ Hs E1) as [Hs1 Hl].
  destruct (IH s1 Hs1 E). split; [done|]. rewrite zlen_cons. lia.
Qed.

Lemma dp_start_inv : sum d0 = 0 -> inv (State d0 None (replicate n Lock1)).
Proof.
  intros H0. constructor; cbn; [done|apply length_replicate| | | |done].
  - rewrite H0, (total_replicate _ _ _ _ 0) by done. lia.
  - by intros t p [-> _]%lookup_replicate.
  - by intros t p [-> _]%lookup_replicate.
Qed.

(** *** The end of a run *)

Definition stuck (s : state) : Prop := forall t, exec t s = None.

Lemma stuck_exited s : inv s -> stuck s -> pcs s = replicate n Exited.
Proof.
  intros [Hd Hn Hs Hp Hm Ho] Hst.
  assert (Hstep : forall t p, pcs s !! t = Some p -> dotprod t p (dotstr s) (mutexsum s) = None).
  { intros t p Ep. specialize (Hst t). unfold exec in Hst. rewrite Ep in Hst. cbn in Hst.
    by destruct (dotprod _ _ _ _) as [[[]]|]. }
  assert (Hfree : mutexsum s = None).
  { destruct (mutexsum s) as [t|] eqn:E; [|done]. specialize (Ho t eq_refl). rewrite <- Hn in Ho.
    apply lookup_lt_is_Some in Ho as [p Ep]. specialize (Hstep t p Ep). specialize (Hm t p Ep).
    rewrite bool_decide_eq_true_2 in Hm by done. by destruct p. }
  symmetry. apply replicate_as_Forall_2; [done|]. apply Forall_lookup_2. intros t p Ep.
  specialize (Hstep t p Ep). specialize (Hm t p Ep). specialize (Hp t p Ep).
  rewrite Hfree in Hm, Hstep. rewrite bool_decide_eq_false_2 in Hm by done.
  destruct p; try done; cbn in Hstep; repeat case_match; done.
Qed.

(** The parts are the whole. *)
Lemma total_parts t k : total added t (replicate k Exited) = dot d0 (Z.of_nat t * Z.of_nat len) (k * len).
Proof.
  revert t. induction k as [|k IH]; intros t; [done|]. cbn [replicate total added Nat.mul].
  rewrite IH, dot_app. unfold part.
  replace (Z.of_nat (S t) * Z.of_nat len) with (Z.of_nat t * Z.of_nat len + Z.of_nat len) by lia. done.
Qed.

End Inv.

(** C12: the parallel dot product is right under every schedule.  For any number of
    threads, each with a part of [len] elements of the vectors, no thread ever
    reads outside the vectors; when no thread can step, all have exited and the
    sum is the dot product of the vectors; and a run has at most len + 8 steps
    per thread. *)
Theorem dotprod_correct n len x y l s :
  length x = (n * len)%nat -> length y = (n * len)%nat ->
  schedule l (start n x y (Z.of_nat len)) = Some s ->
  (forall i, Fault i ∉ pcs s) /\
  (stuck s -> pcs s = replicate n Exited /\
     sum (dotstr s) = dot (Dotdata x y 0 (Z.of_nat len)) 0 (n * len)) /\
  zlen l <= Z.of_nat n * (Z.of_nat len + 8).
Proof.
  intros Hx Hy E. set (d0 := Dotdata x y 0 (Z.of_nat len)).
  pose proof (dp_start_inv d0 n len Hx Hy eq_refl) as Hi.
  destruct (schedule_inv d0 n len eq_refl Hx Hy l _ _ Hi E) as [Hs Hl].
  cbn [pcs] in Hl. rewrite (total_replicate _ _ _ _ (Z.of_nat len + 8)) in Hl by done.
  assert (Hnn : forall p t, pc_ok d0 len t p (sum (dotstr s)) -> 0 <= left len p).
  { intros [] t; cbn; try lia. intros (-> & k & Hk & -> & _). lia. }
  split_and!.
  - intros i Hin. apply list_elem_of_lookup in Hin as [t Ht]. by apply (inv_pc _ _ _ _ Hs) in Ht.
  - intros Hst. pose proof (stuck_exited _ _ _ _ Hs Hst) as Hex. split; [done|].
    rewrite (inv_sum _ _ _ _ Hs), Hex, (total_parts d0 n len Hx Hy). done.
  - pose proof (inv_pc _ _ _ _ Hs) as Hp.
    assert (0 <= total (fun _ => left len) 0 (pcs s)) as Hpos; [|lia].
    apply total_nonneg, Forall_lookup_2. intros t p Hlk _. eapply Hnn, Hp, Hlk.
Qed.

(** The four threads of the program, one after the other. *)
Definition ones : list Z := replicate 400 1.
Definition in_order : list nat := concat (map (fun t => replicate 108 t) (seq 0 4)).
Definition final : state := State (Dotdata ones ones 400 100) None (replicate 4 Exited).

Lemma dotprod_correct_witness :
  schedule in_order (start 4 ones ones 100) = Some final /\ (forall i, Fault i ∉ pcs final).
Proof.
  assert (E : schedule in_order (start 4 ones ones 100) = Some final) by (by vm_compute).
  split; [exact E|]. exact (proj1 (dotprod_correct 4 100 ones ones in_order final eq_refl eq_refl E)).
Defined.

(** For the program's vectors of ones the sum is 400. *)
Lemma dot_ones : dot (Dotdata ones ones 0 100) 0 (4 * 100) = 400.
Proof. by vm_compute. Qed.

Section Main.
Context {K : Type} {HK : Kernel K}.

Lemma wp_each_create name l (Q : outcome unit -> world K -> Prop) w :
  (forall w', Q (Done tt) w') -> wp (each l (create name)) Q w.
Proof.
  intros HQ. revert w. induction l as [|i l IH]; intros w; cbn [each]; [by wp_step|].
  unfold create. wp_seq. case_match; wp_seq; apply IH.
Qed.

(** The result of a thread does not fit the int it is stored in. *)
Lemma wp_join i (Q : outcome unit -> world K -> Prop) w :
  (forall i k, ret (fst (kstep (Csys "pthread_join" [AI i]) k)) = 0) ->
  (forall w', Q (Halt (HUB (UB_bounds "status" 7))) w') -> wp (join i) Q w.
Proof.
  intros Hj HQ. unfold join. wp_step. apply wp_syscall. intros r k E. cbn [post].
  pose proof (Hj (Z.of_nat i) (kern w)) as Hr. rewrite E in Hr. cbn in Hr. rewrite Hr.
  wp_seq. apply HQ.
Qed.

Lemma wp_dotprod_main fmt_f result name (w : world K) :
  (forall i k, ret (fst (kstep (Csys "pthread_join" [AI i]) k)) = 0) ->
  wp (main fmt_f result name) (fun o _ =>
    o = Halt (HUB (UB_bounds "status" 7)) \/ o = Halt (HUB (UB_null "a[i]"))) w.
Proof.
  intros Hj. unfold main. wp_seq. destruct (_ || _); [wp_step; by right|].
  wp_seq. apply wp_each_create. intros w1. cbn [post]. wp_seq.
  change (seq 0 (Z.to_nat NUMTHRDS)) with [0; 1; 2; 3]%nat. cbn [each]. wp_step.
  apply wp_join; [done|]. intros w2. by left.
Qed.

End Main.

(** main of pt3-matrixmul.c never prints the sum in a defined way: the first
    join that succeeds stores the eight bytes of the thread's result in the four
    bytes of [status]; without memory for the vectors it writes through NULL. *)
Theorem dotprod_main_overruns {K} `{Kernel K} fmt_f result name (w : world K) :
  (forall i (k : K), ret (fst (kstep (Csys "pthread_join" [AI i]) k)) = 0) ->
  exists w', main fmt_f result name w = (Halt (HUB (UB_bounds "status" 7)), w') \/
             main fmt_f result name w = (Halt (HUB (UB_null "a[i]")), w').
Proof.
  intros Hj. destruct (wp_run _ _ _ (wp_dotprod_main fmt_f result name w Hj)) as (o & w' & E & Ho).
  exists w'. by destruct Ho as [<-|<-]; [left|right].
Qed.

Definition joining : Kernel unit := fun c k => (Resp (if call_failed c 0 then 1 else 0) 0 [], k).

Lemma dotprod_main_overruns_witness :
  exists w', @main unit joining pretty 400 "matrixmul" (World tt 0 []) = (Halt (HUB (UB_bounds "status" 7)), w') \/
             @main unit joining pretty 400 "matrixmul" (World tt 0 []) = (Halt (HUB (UB_null "a[i]")), w').
Proof. by apply (@dotprod_main_overruns unit joining pretty 400 "matrixmul" (World tt 0 [])). Defined.

End Dotprod.
