(* ===== verification/Tsig.v ===== *)
(** src/pthreads/signalling_mt/tsig.c: a process whose asynchronous signals are all
    taken by one thread and whose synchronous signals have a handler. *)
From S2P Require Import Prelude CMonad CLib Restart.

Definition NUM_THREADS : Z := 2.

Definition SIGINT : Z := 2.
Definition SIGQUIT : Z := 3.
Definition SIGILL : Z := 4.
Definition SIGABRT : Z := 6.
Definition SIGBUS : Z := 7.
Definition SIGFPE : Z := 8.
Definition SIGSEGV : Z := 11.
Definition SIGIO : Z := 29.

(** <signal.h>: sets of signals, and the information a handler gets. *)
Definition sigset := list Z.
Definition full_set : sigset := seqZ 1 64.
Definition del (sig : Z) (set : sigset) : sigset := filter (fun s => s <> sig) set.

Record siginfo_t := Siginfo { si_errno : Z; si_code : Z; si_addr : Z }.

Section Code.
Context {K : Type} {HK : Kernel K} (strerror : Z -> string).

Definition beep (what : Z) : C K unit :=
  r ← syscall (Cwrite 1 [to_uchar what]);
  if ret r <? 0 then perror "write fail" else mret tt.

(** The busy loop between two beeps has no effect. *)
Fixpoint DELAY_LOOP (val : Z) (loop_count : nat) : C K unit :=
  match loop_count with O => mret tt | S n => beep val;; DELAY_LOOP val n end.

Definition mtx_failed (fn : string) (fatal : bool) (err : Z) : C K unit :=
  fprintf stderr (cat [fn; " failed! : "; strerror err; nl]);;
  if fatal then fprintf stderr (cat ["Aborting now..."; nl]);; exit 1
  else fprintf stderr (cat ["*WARNING* "; fn; " failed!"; nl]).

Definition MTX_LOCK (mutex : string) (fatal : bool) : C K unit :=
  err ← sys "pthread_mutex_lock" [AS mutex];
  if negb (err =? 0) then mtx_failed "pthread_mutex_lock" fatal err else mret tt.

Definition MTX_UNLOCK (mutex : string) (fatal : bool) : C K unit :=
  err ← sys "pthread_mutex_unlock" [AS mutex];
  if negb (err =? 0) then mtx_failed "pthread_mutex_unlock" fatal err else mret tt.

(** [switch (siginfo->si_code)]: SEGV_BNDERR and SEGV_PKUERR fall through. *)
Definition origin (si_code : Z) : list string :=
  if si_code =? 0 then ["user"]
  else if si_code =? 128 then ["kernel"]
  else if si_code =? -1 then ["queue"]
  else if si_code =? -2 then ["timer"]
  else if si_code =? -3 then ["mesgq"]
  else if si_code =? -4 then ["async io"]
  else if si_code =? -5 then ["sigio"]
  else if si_code =? -6 then ["t[g]kill"]
  else if si_code =? 1 then ["SEGV_MAPERR: address not mapped to object"]
  else if si_code =? 2 then ["SEGV_ACCERR: invalid permissions for mapped object"]
  else if si_code =? 3 then
    ["SEGV_BNDERR: failed address bound checks";
     "SEGV_PKUERR: access denied by memory-protection keys"; "-none-"]
  else if si_code =? 4 then ["SEGV_PKUERR: access denied by memory-protection keys"; "-none-"]
  else ["-none-"].

Fixpoint print_lines (l : list string) : C K unit :=
  match l with [] => mret tt | s :: l' => printf (cat [s; nl]);; print_lines l' end.

(** [c] is the static counter before the call. *)
Definition fatal_sigs_handler (c signum : Z) (siginfo : siginfo_t) : C K unit :=
  pid ← sys "getpid" [];
  printf (cat [nl; "*** "; "fatal_sigs_handler"; "(): ["; fmt_d (c + 1); "] PID "; fmt_d pid]);;
  tid ← sys "gettid" [];
  printf (cat [" (TID "; fmt_d tid; ")"]);;
  printf (cat [tab; "received signal "; fmt_d signum; ". errno="; fmt_d (si_errno siginfo); nl;
               " Cause/Origin: (si_code="; fmt_d (si_code siginfo); "): "]);;
  print_lines (origin (si_code siginfo));;
  printf (cat [" Faulting addr="; fmt_p (si_addr siginfo); nl]);;
  sys "psiginfo" [AS "siginfo_t details follow"];;
  s ← sys "signal" [AI SIGSEGV; AS "SIG_DFL"];
  (if s =? -1 then fprintf stderr "signal -reverting SIGSEGV to default- failed" else mret tt);;
  r ← sys "raise" [AI SIGSEGV];
  (if negb (r =? 0) then fprintf stderr "raise SIGSEGV failed" else mret tt);;
  exit 1.

(** One turn of the signal thread: [sig] is its local variable, [None] before the
    first signal; the result is the new [sig] and [signal_handled]. sigwait stores
    the signal it took when it returns 0. *)
Definition signal_handler_iter (sig : option Z) : C K (option Z * Z) :=
  f ← sys "sigfillset" [];
  (if f =? -1 then perror "signal_handler: sigfillset failed";; exit 1 else mret tt);;
  s ← syscall (Csys "sigwait" [AB full_set]);
  (if ret s <? 0 then perror "signal_handler: sigwait failed";; exit 1 else mret tt);;
  let sig := if ret s =? 0 then Some (nth 0 (out s) 0) else sig in
  match sig with
  | None => undefined (UB_uninit "sig" 0)
  | Some n =>
      let signal_handled :=
        if n =? SIGINT then SIGINT else if n =? SIGQUIT then SIGQUIT
        else if n =? SIGIO then SIGIO else n in
      printf (cat ["!!! "; "signal_handler"; "(): caught signal #"; fmt_d n; " !!!"; nl]);;
      mret (Some n, signal_handled)
  end.

(** The signal thread, with [signal_handled]. *)
Definition signal_handler (fuel : nat) : C K Z :=
  printf (cat ["Dedicated signal_handler() thread alive.."; nl]);;
  loop fuel (fun '(sig, _) => x ← signal_handler_iter sig; mret (inl x)) (None, -1).

Definition work (g_opt this : Z) : C K unit :=
  pid ← sys "getpid" [];
  printf (cat ["+++++++++++++++++++++++++++++++++++++++++"; nl;
               "Worker thread #"; fmt_d this; " (pid "; fmt_d pid; ")..."; nl]);;
  (if this =? 1 then
     DELAY_LOOP 49 2000;;
     if g_opt =? 1 then undefined (UB_null "pi") else mret tt
   else if this =? 2 then DELAY_LOOP 50 2000
   else mret tt);;
  printf (cat [nl; "---------------------------------------"; nl]);;
  halt_with HThreadExit.

Definition setup_altsigstack (stack_sz : Z) : C K Z :=
  printf (cat ["Alt signal stack size = "; fmt_d stack_sz; " bytes"; nl]);;
  p ← syscall (Cmalloc stack_sz);
  if ret p =? 0 then
    printf (cat ["malloc("; fmt_d stack_sz; ") for alt sig stack failed"; nl]);;
    mret (- ENOMEM)
  else
    r ← sys "sigaltstack" [AI (ret p); AI stack_sz];
    if r =? -1 then
      printf (cat ["sigaltstack for size "; fmt_d stack_sz; " failed!"; nl]);;
      e ← get_errno;
      mret (- e)
    else
      printf (cat ["Alt signal stack uva (user virt addr) = "; fmt_p (ret p); nl]);;
      mret 0.

Definition die_if (b : bool) (msg : string) : C K unit :=
  if b then perror msg;; exit 1 else mret tt.

(** [sigdelset(&sigset, sig)] with its check. *)
Definition sigdelset (set : sigset) (sig : Z) : C K sigset :=
  r ← sys "sigdelset" [AI sig];
  die_if (r <? 0) "sigdelset";;
  mret (del sig set).

Definition block_signals : C K unit :=
  f ← sys "sigfillset" [];
  die_if (f <? 0) "sigfillset";;
  let set := full_set in
  set ← sigdelset set SIGSEGV;
  set ← sigdelset set SIGBUS;
  set ← sigdelset set SIGABRT;
  set ← sigdelset set SIGFPE;
  set ← sigdelset set SIGILL;
  m ← sys "pthread_sigmask" [AS "SIG_BLOCK"; AB set];
  die_if (negb (m =? 0)) "main: pthread_sigmask failed".

(** [sigaction(sig, &act, 0)] with its check. *)
Definition handle (sig : Z) : C K unit :=
  r ← sys "sigaction" [AI sig; AS "fatal_sigs_handler"; AS "SA_RESTART|SA_SIGINFO|SA_ONSTACK"];
  die_if (r =? -1) "sigaction".

Definition install_handlers (name : string) : C K unit :=
  a ← setup_altsigstack (10 * 1024 * 1024);
  (if a <? 0 then
     fprintf stderr (cat [name; ": setting up alt sig stack failed"; nl]);; exit 1
   else mret tt);;
  handle SIGSEGV;; handle SIGBUS;; handle SIGABRT;; handle SIGFPE;; handle SIGILL.

Definition create (name : string) (t : Z) (fn : string) : C K unit :=
  r ← sys "pthread_create" [AI t; AS fn];
  if negb (r =? 0) then
    fprintf stderr (cat [name; ": thread "; fmt_d t; " creation failure.."; nl]);;
    perror "main: pthread_create";;
    exit 1
  else mret tt.

Definition create_threads (name : string) : C K unit :=
  i ← sys "pthread_attr_init" [];
  die_if (negb (i =? 0)) "main: pthread_attr_init failed";;
  d ← sys "pthread_attr_setdetachstate" [AS "PTHREAD_CREATE_DETACHED"];
  die_if (negb (d =? 0)) "main: pthread_attr_setdetachstate failed";;
  create name 0 "signal_handler";;
  create name 1 "work";;
  create name 2 "work".

Definition main (fuel : nat) (argv : list string) : C K unit :=
  let name := arg_n argv 0 in
  (if negb (argc argv =? 2) then
     fprintf stderr (cat ["Usage: "; name; " <option>"; nl; tab; "0 = do NOT cause a segfault"; nl;
                          tab; "1 = do cause a segfault"; nl]);; exit 1
   else mret tt);;
  let g_opt := atoi (arg_n argv 1) in
  (if negb (g_opt =? 0) && negb (g_opt =? 1) then
     fprintf stderr (cat ["<option>: bad value passed"; nl]);; exit 1
   else mret tt);;
  block_signals;;
  install_handlers name;;
  create_threads name;;
  loop fuel (fun _ : unit => sys "pause" [];; mret (inl tt)) tt.

End Code.

(** ** The order of main *)

Definition create1 (e : event) : list (Z * string) :=
  match e with EvCall (Csys "pthread_create" [AI t; AS fn]) _ => [(t, fn)] | _ => [] end.

(** The threads created in a run, in order. *)
Definition creates (tr : list event) : list (Z * string) := concat (map create1 tr).

Lemma creates_app t1 t2 : creates (t1 ++ t2) = creates t1 ++ creates t2.
Proof. unfold creates. by rewrite map_app, concat_app. Qed.

Definition fatal_signals : list Z := [SIGSEGV; SIGBUS; SIGABRT; SIGFPE; SIGILL].

(** The signals main blocks. *)
Definition blocked : sigset := foldl (fun set sig => del sig set) full_set fatal_signals.

Lemma blocked_spec sig : sig ∈ blocked <-> 1 <= sig <= 64 /\ sig ∉ fatal_signals.
Proof.
  unfold blocked, fatal_signals, full_set. cbn [foldl]. unfold del.
  rewrite !list_elem_of_filter, elem_of_seqZ, !not_elem_of_cons. split; [|lia].
  intros. split; [lia|]. split_and!; try lia. apply not_elem_of_nil.
Qed.

(** What main has done before it creates a thread: the asynchronous signals are
    blocked (a new thread inherits that), and every synchronous one has the
    handler, which runs on an alternate stack. *)
Definition ready (tr : list event) : Prop :=
  (exists r, EvCall (Csys "pthread_sigmask" [AS "SIG_BLOCK"; AB blocked]) r ∈ tr /\ ret r = 0) /\
  (exists p r, EvCall (Csys "sigaltstack" [AI p; AI (10 * 1024 * 1024)]) r ∈ tr /\
     p <> 0 /\ ret r <> -1) /\
  (forall sig, sig ∈ fatal_signals -> exists r,
     EvCall (Csys "sigaction" [AI sig; AS "fatal_sigs_handler";
                               AS "SA_RESTART|SA_SIGINFO|SA_ONSTACK"]) r ∈ tr /\ ret r <> -1).

Section Main.
Context {K : Type} {HK : Kernel K} {HP : PosixKernel K}.

(** A phase of main: it goes on with [P] of its trace, or exits with 1; it creates
    no thread. *)
Definition phase (m : C K unit) (P : list event -> Prop) : Prop :=
  forall w, wp m (fun o w' => exists tr, trace w' = trace w ++ tr /\ creates tr = [] /\
    match o with Done _ => P tr | Halt h => h = HExit 1 end) w.

Lemma phase_bind m1 m2 P1 P2 :
  phase m1 P1 -> phase m2 P2 ->
  phase (m1;; m2) (fun tr => exists t1 t2, tr = t1 ++ t2 /\ P1 t1 /\ P2 t2).
Proof.
  intros H1 H2 w. wp_step. eapply wp_mono; [|apply H1].
  intros [u|h] w1 (tr1 & Ht1 & Hc1 & H3); cbn [post].
  - eapply wp_mono; [|apply H2]. intros o w2 (tr2 & Ht2 & Hc2 & HQ).
    exists (tr1 ++ tr2). rewrite Ht2, Ht1, app_assoc, creates_app, Hc1, Hc2.
    split_and!; [done..|]. destruct o; [by exists tr1, tr2|done].
  - by exists tr1.
Qed.

Lemma phase_mono m (P P' : list event -> Prop) :
  (forall tr, P tr -> P' tr) -> phase m P -> phase m P'.
Proof.
  intros Hsub Hm w. eapply wp_mono; [|apply Hm].
  intros o w' (tr & Ht & Hc & H). exists tr. split_and!; [done..|]. destruct o; auto.
Qed.

(** A call and a check of its answer. *)
Lemma phase_checked fn args (b : Z -> bool) msg :
  create1 (EvCall (Csys fn args) (Resp 0 0 [])) = [] ->
  phase (r ← sys fn args; die_if (b r) msg)
    (fun tr => exists r, EvCall (Csys fn args) r ∈ tr /\ b (ret r) = false).
Proof.
  intros Hc w. unfold die_if.
  assert (Hc' : forall r l, (forall e, e ∈ l -> create1 e = []) -> creates (EvCall (Csys fn args) r :: l) = []).
  { intros r l Hl. unfold creates. cbn [map concat]. change (create1 (EvCall (Csys fn args) r)) with
      (create1 (EvCall (Csys fn args) (Resp 0 0 []))). rewrite Hc. cbn [app].
    induction l as [|e l IH]; [done|]. cbn. rewrite (Hl e) by set_solver. apply IH. set_solver. }
  wp_seq. destruct (b (ret r)) eqn:E; wp_seq; cbn [after trace]; rewrite <- ?app_assoc; cbn [app].
  - eexists. split; [done|]. split; [|done]. apply Hc'. intros e He.
    apply list_elem_of_singleton in He as ->. done.
  - eexists. split; [done|]. split; [apply Hc'; set_solver|]. exists r. split; [set_solver|done].
Qed.

Lemma phase_block : phase block_signals
  (fun tr => exists r, EvCall (Csys "pthread_sigmask" [AS "SIG_BLOCK"; AB blocked]) r ∈ tr /\ ret r = 0).
Proof.
  intros w. unfold block_signals, sigdelset, die_if.
  wp_go; leaf; (split; [reflexivity|]); try reflexivity.
  exists r5. split; [ev_in|]. by destruct (Z.eqb_spec (ret r5) 0).
Qed.

Lemma phase_altstack name : phase
  (a ← setup_altsigstack (10 * 1024 * 1024);
   if a <? 0 then fprintf stderr (cat [name; ": setting up alt sig stack failed"; nl]);; exit 1
   else mret tt)
  (fun tr => exists p r, EvCall (Csys "sigaltstack" [AI p; AI (10 * 1024 * 1024)]) r ∈ tr /\
     p <> 0 /\ ret r <> -1).
Proof.
  intros w. unfold setup_altsigstack. wp_step. wp_seq.
  destruct (Z.eqb_spec (ret r) 0) as [E|E]; [by wp_go; leaf|].
  wp_seq. destruct (Z.eqb_spec (ret r0) (-1)) as [E0|E0]; wp_seq.
  - pose proof (proj1 (kstep_resp_ok _ _ _ _ Hk0)) as He. rewrite E0 in He. specialize (He eq_refl).
    cbn [after errno]. rewrite E0. change (call_failed _ (-1)) with true. cbv iota.
    destruct (Z.ltb_spec (- err r0) 0); [|lia]. by wp_seq; leaf.
  - by leaf; split; [reflexivity|]; exists (ret r), r0; split; [ev_in|].
Qed.

Definition handled (sig : Z) (tr : list event) : Prop :=
  exists r, EvCall (Csys "sigaction" [AI sig; AS "fatal_sigs_handler";
              AS "SA_RESTART|SA_SIGINFO|SA_ONSTACK"]) r ∈ tr /\ ret r <> -1.

Lemma phase_handle sig : phase (handle sig) (handled sig).
Proof.
  eapply phase_mono; [|by apply (phase_checked "sigaction")].
  intros tr (r & Hin & Hr). exists r. split; [done|]. by apply Z.eqb_neq.
Qed.

(** Two phases whose findings survive in the longer trace. *)
Lemma phase_both m1 m2 (P1 P2 : list event -> Prop) :
  (forall t1 t2, P1 t1 -> P1 (t1 ++ t2)) -> (forall t1 t2, P2 t2 -> P2 (t1 ++ t2)) ->
  phase m1 P1 -> phase m2 P2 -> phase (m1;; m2) (fun tr => P1 tr /\ P2 tr).
Proof.
  intros H1 H2 Hm1 Hm2. eapply phase_mono; [|by apply (phase_bind m1 m2 P1 P2)].
  intros tr (t1 & t2 & -> & Ht1 & Ht2). auto.
Qed.

Lemma handled_app sig t1 t2 : handled sig t1 \/ handled sig t2 -> handled sig (t1 ++ t2).
Proof. intros [(r & Hin & Hr)|(r & Hin & Hr)]; exists r; (split; [set_solver|done]). Qed.

Lemma all_handled_app (sigs : list Z) t1 t2 :
  (forall sig, sig ∈ sigs -> handled sig t1) \/ (forall sig, sig ∈ sigs -> handled sig t2) ->
  forall sig, sig ∈ sigs -> handled sig (t1 ++ t2).
Proof. intros [H|H] sig Hs; apply handled_app; auto. Qed.

Lemma phase_handle_cons sig (sigs : list Z) m :
  phase m (fun tr => forall s, s ∈ sigs -> handled s tr) ->
  phase (handle sig;; m) (fun tr => forall s, s ∈ sig :: sigs -> handled s tr).
Proof.
  intros Hm. eapply phase_mono; [|apply (phase_both _ _ (handled sig) (fun tr => forall s, s ∈ sigs -> handled s tr))].
  - intros tr [H1 H2] s Hs. apply elem_of_cons in Hs as [->|Hs]; auto.
  - intros t1 t2 H. apply handled_app. by left.
  - intros t1 t2 H. apply all_handled_app. by right.
  - apply phase_handle.
  - done.
Qed.

Lemma phase_handle_last sig : phase (handle sig) (fun tr => forall s, s ∈ [sig] -> handled s tr).
Proof.
  eapply phase_mono; [|apply phase_handle]. intros tr H s Hs.
  by apply list_elem_of_singleton in Hs as ->.
Qed.

Lemma phase_assoc {A} (m : C K A) (f : A -> C K unit) (n : C K unit) P :
  phase ((x ← m; f x);; n) P -> phase (x ← m; f x;; n) P.
Proof.
  intros H w. specialize (H w). unfold wp, mbind, C_bind in *. destruct (m w) as [[x|h] w']; exact H.
Qed.

Definition has_altstack (tr : list event) : Prop :=
  exists p r, EvCall (Csys "sigaltstack" [AI p; AI (10 * 1024 * 1024)]) r ∈ tr /\ p <> 0 /\ ret r <> -1.

Lemma has_altstack_app t1 t2 : has_altstack t1 \/ has_altstack t2 -> has_altstack (t1 ++ t2).
Proof. intros [(p & r & Hin & Hr)|(p & r & Hin & Hr)]; exists p, r; (split; [set_solver|done]). Qed.

Lemma phase_install name : phase (install_handlers name)
  (fun tr => has_altstack tr /\ forall sig, sig ∈ fatal_signals -> handled sig tr).
Proof.
  unfold install_handlers. apply phase_assoc, phase_both.
  - intros t1 t2 H. apply has_altstack_app. by left.
  - intros t1 t2 H. apply all_handled_app. by right.
  - apply phase_altstack.
  - do 4 apply phase_handle_cons. apply phase_handle_last.
Qed.

(** Before the first thread is created everything is prepared. *)
Lemma phase_setup name : phase (block_signals;; install_handlers name) ready.
Proof.
  eapply phase_mono; [|apply (phase_bind _ _ _ _ phase_block (phase_install name))].
  intros tr (t1 & t2 & -> & (r & Hin & Hr) & Ha & Hh). split_and!.
  - exists r. split; [set_solver|done].
  - apply has_altstack_app. by right.
  - intros sig Hs. apply handled_app. right. auto.
Qed.

(** The threads of the program, in the order of their creation. *)
Definition threads : list (Z * string) := [(0, "signal_handler"); (1, "work"); (2, "work")].

Lemma wp_create_threads name w :
  wp (create_threads name) (fun o w' => exists tr, trace w' = trace w ++ tr /\
    match o with
    | Done _ => creates tr = threads
    | Halt h => h = HExit 1 /\ creates tr `prefix_of` threads
    end) w.
Proof.
  unfold create_threads, create, die_if.
  wp_go; leaf; try reflexivity; (split; [reflexivity|]); unfold creates, threads; cbn;
    by eexists; rewrite ?app_nil_l.
Qed.

(** The endings of main: waiting for signals for ever, or an exit.  [tr1] is the
    preparation, [tr2] what came after. *)
Definition main_end (o : outcome unit) (tr : list event) : Prop :=
  exists tr1 tr2, tr = tr1 ++ tr2 /\ creates tr1 = [] /\
    match o with
    | Halt HFuel => ready tr1 /\ creates tr2 = threads
    | Halt (HExit c) => c = 1 /\
        (creates tr2 = [] \/ (ready tr1 /\ creates tr2 `prefix_of` threads))
    | _ => False
    end.

Lemma wp_pause_forever fuel (w0 w : world K) tr1 tr2 :
  trace w = trace w0 ++ tr1 ++ tr2 -> creates tr1 = [] -> ready tr1 -> creates tr2 = threads ->
  wp (loop fuel (fun _ : unit => sys "pause" [];; mret (inl tt)) tt)
     (fun o w' => exists tr, trace w' = trace w0 ++ tr /\ main_end o tr) w.
Proof.
  intros Ht H1 Hr H2.
  apply (wp_loop (fun _ w' => exists tr2, trace w' = trace w0 ++ tr1 ++ tr2 /\ creates tr2 = threads)).
  - intros _ w' (tr & Ht' & Hc). exists (tr1 ++ tr). split; [done|]. by exists tr1, tr.
  - intros [] w' (tr & Ht' & Hc). wp_seq. exists (tr ++ [EvCall (Csys "pause" []) r]).
    split; [cbn [after trace]; by rewrite Ht', <- !app_assoc|]. by rewrite creates_app, Hc.
  - by exists tr2.
Qed.

Lemma wp_assoc {A} (m1 m2 : C K unit) (m3 : C K A) (Q : outcome A -> world K -> Prop) w :
  wp ((m1;; m2);; m3) Q w -> wp (m1;; m2;; m3) Q w.
Proof. unfold wp, mbind, C_bind. by destruct (m1 w) as [[u|h] w']. Qed.

Lemma wp_tsig_main fuel argv w :
  wp (main fuel argv) (fun o w' => exists tr, trace w' = trace w ++ tr /\ main_end o tr) w.
Proof.
  unfold main. wp_step. destruct (negb (argc argv =? 2)).
  { wp_seq. leaf. eexists [], _. split; [done|]. split; [done|]. split; [done|]. by left. }
  do 2 wp_step. destruct (_ && _).
  { wp_seq. leaf. eexists [], _. split; [done|]. split; [done|]. split; [done|]. by left. }
  wp_step. apply wp_assoc. wp_step. eapply wp_mono; [|apply phase_setup].
  intros [u|h] w1 (tr1 & Ht1 & Hc1 & H1); cbn [post].
  2: { subst h. exists tr1. split; [done|]. exists tr1, []. rewrite app_nil_r. by auto. }
  wp_step. eapply wp_mono; [|apply wp_create_threads].
  intros [u2|h] w2 (tr2 & Ht2 & H2); cbn [post].
  - apply wp_pause_forever with (tr1 := tr1) (tr2 := tr2); [|done..]. by rewrite Ht2, Ht1, app_assoc.
  - destruct H2 as [-> H2]. exists (tr1 ++ tr2). split; [by rewrite Ht2, Ht1, app_assoc|].
    exists tr1, tr2. split; [done|]. split; [done|]. split; [done|]. by right.
Qed.

End Main.

(** The order of main.  It never returns: it waits for signals for ever or exits
    with 1.  No thread is created before the asynchronous signals, all but the
    five synchronous ones, are blocked, the alternate stack is set and each of
    the five has its handler; the threads are then created in order, the
    signal-handling one first. *)
Theorem tsig_main_order {K} `{HP : PosixKernel K} fuel argv (w : world K) :
  (forall sig, sig ∈ blocked <-> 1 <= sig <= 64 /\ sig ∉ fatal_signals) /\
  exists o w' tr, main fuel argv w = (o, w') /\ trace w' = trace w ++ tr /\ main_end o tr.
Proof.
  split; [apply blocked_spec|].
  destruct (wp_run _ _ _ (wp_tsig_main fuel argv w)) as (o & w' & E & tr & H'). by exists o, w', tr.
Qed.

Lemma tsig_main_order_witness :
  (forall sig, sig ∈ blocked <-> 1 <= sig <= 64 /\ sig ∉ fatal_signals) /\
  exists o w' tr,
    main 3 ["tsig"; "1"] (World (Pipe [] [] [] 4) 0 []) = (o, w') /\
    trace w' = [] ++ tr /\ main_end o tr.
Proof. apply (tsig_main_order 3 ["tsig"; "1"] (World (Pipe [] [] [] 4) 0 [])). Defined.

(** On that kernel every call succeeds and main waits. *)
Lemma tsig_main_waits :
  fst (main 3 ["tsig"; "1"] (World (Pipe [] [] [] 4) 0 [])) = Halt HFuel.
Proof. reflexivity. Qed.

(** ** The signal thread *)

(** What the thread has recorded after its turns: the signals sigwait gave it. *)
Definition sigwait_call : call := Csys "sigwait" [AB full_set].

Definition taken1 (e : event) : list Z :=
  match e with
  | EvCall (Csys "sigwait" _) r => if ret r =? 0 then [nth 0 (out r) 0] else []
  | _ => []
  end.

Definition taken (tr : list event) : list Z := concat (map taken1 tr).

Lemma taken_app t1 t2 : taken (t1 ++ t2) = taken t1 ++ taken t2.
Proof. unfold taken. by rewrite map_app, concat_app. Qed.

(** [sig] and [signal_handled] agree with the signals taken so far. *)
Definition recorded (sig : option Z) (signal_handled : Z) (sigs : list Z) : Prop :=
  sig = last sigs /\ signal_handled = default (-1) (last sigs).

(** A turn of the thread. *)
Definition turn_end (sigs : list Z) (o : outcome (option Z * Z)) (tr : list event) : Prop :=
  match o with
  | Done (sig, h) => recorded sig h (sigs ++ taken tr)
  | Halt (HExit c) => c = 1 /\ taken tr = []
  | Halt (HUB u) => u = UB_uninit "sig" 0 /\ sigs = [] /\
      exists r, EvCall sigwait_call r ∈ tr /\ 0 < ret r
  | Halt _ => False
  end.

Lemma same_signal (n : Z) :
  (if n =? SIGINT then SIGINT else if n =? SIGQUIT then SIGQUIT else if n =? SIGIO then SIGIO else n) = n.
Proof. repeat case_match; lia. Qed.

Lemma wp_handler_turn {K} `{Kernel K} sig h sigs (w : world K) :
  recorded sig h sigs ->
  wp (signal_handler_iter sig) (fun o w' => exists tr, trace w' = trace w ++ tr /\ turn_end sigs o tr) w.
Proof.
  intros [-> _]. unfold signal_handler_iter. wp_seq. case_match; [wp_seq; by leaf|].
  wp_seq. destruct (Z.ltb_spec (ret r0) 0) as [Hneg|Hpos].
  { wp_seq. leaf. cbn. destruct (Z.eqb_spec (ret r0) 0); [lia|done]. }
  wp_step. destruct (Z.eqb_spec (ret r0) 0) as [E|E].
  - wp_seq. leaf. cbn [turn_end]. unfold taken. cbn. rewrite E. cbn. rewrite same_signal.
    unfold recorded. by rewrite last_snoc.
  - destruct (last sigs) as [n|] eqn:El; wp_seq; leaf; cbn [turn_end].
    + unfold taken. cbn. destruct (Z.eqb_spec (ret r0) 0); [done|]. cbn. rewrite app_nil_r, same_signal.
      unfold recorded. by rewrite El.
    + split; [done|]. split; [by apply last_None|]. exists r0. split; [ev_in|lia].
Qed.

(** The signal thread records what it takes.  Whatever sigwait answers, after a
    turn [signal_handled] is the last signal taken, whichever case of the switch
    set it; the turn exits only on a negative answer, with nothing taken.  But
    sigwait reports errors as positive numbers: the first of them, before any
    signal was taken, makes the thread read its uninitialised [sig]. *)
Theorem signal_thread_records {K} `{Kernel K} sig h sigs (w : world K) :
  recorded sig h sigs ->
  exists o w' tr, signal_handler_iter sig w = (o, w') /\ trace w' = trace w ++ tr /\ turn_end sigs o tr.
Proof.
  intros Hr. destruct (wp_run _ _ _ (wp_handler_turn sig h sigs w Hr)) as (o & w' & E & tr & H').
  by exists o, w', tr.
Qed.

Lemma signal_thread_records_witness :
  exists o w' tr,
    signal_handler_iter None (World [Resp 0 0 []; Resp 0 0 [SIGQUIT]] 0 []) = (o, w') /\
    trace w' = [] ++ tr /\ turn_end [] o tr.
Proof.
  apply (signal_thread_records None (-1) [] (World [Resp 0 0 []; Resp 0 0 [SIGQUIT]] 0 [])).
  by split.
Defined.

(** The thread starts with nothing recorded. *)
Lemma signal_thread_start : recorded None (-1) [].
Proof. by split. Qed.

(** ** The handler of the synchronous signals *)

(** It always ends the process, and prints one origin but for the two codes whose
    cases fall through. *)
Lemma fatal_handler_exits {K} `{Kernel K} c signum info (w : world K) :
  exists w', fatal_sigs_handler c signum info w = (Halt (HExit 1), w').
Proof.
  enough (wp (fatal_sigs_handler c signum info) (fun o _ => o = Halt (HExit 1)) w)
    as (o & w' & E & ->)%wp_run by (by exists w').
  unfold fatal_sigs_handler. wp_seq. generalize (origin (si_code info)) as l.
  match goal with |- forall l, wp _ _ ?w1 => generalize w1 end.
  intros w1 l. revert w1. induction l as [|s l IH]; intros w1; cbn [print_lines]; [|wp_seq; apply IH].
  wp_seq. case_match; wp_seq; case_match; wp_seq; done.
Qed.

Lemma origin_single code : code <> 3 -> code <> 4 -> length (origin code) = 1%nat.
Proof. unfold origin. intros H3 H4. repeat (case_match; [done || lia|]). done. Qed.
