(* ===== verification/ShmMtx.v ===== *)
(** src/ipc/posix_ipc/more_demos/appdemo_shm_sem_as_mtx/appdemo_shm_sem_as_mtx.c:
    two processes fill overlapping parts of a shared memory object, in turn under
    a POSIX semaphore or at the same time without it.  [main] is the program as it
    runs; the two writers are also a transition system whose steps are the single
    byte stores, so that every interleaving of the stores is covered. *)
From S2P Require Import Prelude CMonad CLib.

Definition SHM_NAME : string := "/myshm_mtx_demo".
Definition SHM_MODE : Z := 416.
Definition MEMSIZE : Z := 1024 * 1024 * 20.
Definition LEN : Z := 2560.
Definition SEM_NAME : string := "/appdemo_mtx".
Definition chunk_sz : Z := 4096.
Definition O_CREAT : Z := 64.
Definition O_EXCL : Z := 128.
Definition O_RDWR : Z := 2.

Section Code.
Context {K : Type} {HK : Kernel K}.

(** sem_open returns SEM_FAILED, here 0, when it fails. *)
Definition sem_setup : C K Z :=
  sys "sem_unlink" [AS SEM_NAME];;
  sem ← sys "sem_open" [AS SEM_NAME; AI (Z.lor O_CREAT O_EXCL); AI 384; AI 0];
  if sem =? 0 then perror "sem_open() failed";; exit 1
  else
    printf (cat ["(Mutex/binary) Semaphore setup and init to value 0"; nl]);;
    mret sem.

(** The loop over the chunks: [i] of them are done. *)
Fixpoint update_chunks (p_udata : mem) (letter offset : Z) (i : Z) (n : nat) : C K mem :=
  match n with
  | O => mret p_udata
  | S n' =>
      pid ← sys "getpid" [];
      printf (cat [fmt_d pid; ": writing char "; chr letter; " for chunk "; fmt_d i; " at offset ";
                   fmt_d (offset + i * chunk_sz); " now"; nl]);;
      p_udata ← memset "p_udata" p_udata (offset + i * chunk_sz) letter chunk_sz;
      sys "usleep" [AI 1000];;
      update_chunks p_udata letter offset (i + 1) n'
  end.

Definition update_udata (p_udata : mem) (letter offset len : Z) : C K mem :=
  let num_iters := len / chunk_sz in
  let remainder := len mod chunk_sz in
  p_udata ← update_chunks p_udata letter offset 0 (Z.to_nat num_iters);
  if negb (remainder =? 0)
  then memset "p_udata" p_udata (offset + num_iters * chunk_sz) letter remainder
  else mret p_udata.

(** The shared object, sized and mapped: its descriptor.  ftruncate fills it with
    zeroes; assert aborts. *)
Definition shm_setup : C K Z :=
  sys "shm_unlink" [AS SHM_NAME];;
  shmfd ← sys "shm_open" [AS SHM_NAME; AI (Z.lor (Z.lor O_CREAT O_EXCL) O_RDWR); AI SHM_MODE];
  e ← get_errno;
  shmfd ← (if (shmfd =? -1) && (e =? EEXIST) then
             shmfd ← sys "shm_open" [AS SHM_NAME; AI 0; AI SHM_MODE];
             if shmfd =? -1 then fprintf stderr (cat ["shm_open() failed"; nl]);; exit 1
             else mret shmfd
           else mret shmfd);
  t ← sys "ftruncate" [AI shmfd; AI MEMSIZE];
  (if t =? -1 then perror "ftruncate failed";; sys "shm_unlink" [AS SHM_NAME];; exit 1
   else mret tt);;
  p ← sys "mmap" [AI MEMSIZE; AS "PROT_READ|PROT_WRITE"; AS "MAP_SHARED"; AI shmfd];
  (if p =? -1 then halt_with HAbort else mret tt);;
  mret shmfd.

(** What the child does with the memory as it finds it. *)
Definition child (use_mtx : bool) (shmfd sem : Z) (p_udata : mem) : C K mem :=
  (if use_mtx then
     printf (cat ["Child is waiting to acquire the mutex (sem) now..."; nl]);;
     r ← sys "sem_wait" [AI sem];
     if r =? -1 then perror "sem_wait() failed" else mret tt
   else printf (cat ["Child is NOT using the mutex (sem) now..."; nl]));;
  p_udata ← update_udata p_udata 99 LEN (LEN * 10);
  sys "munmap" [AI MEMSIZE];;
  syscall (Cclose shmfd);;
  (if use_mtx then sys "sem_close" [AI sem];; mret tt else mret tt);;
  exit 0.

Definition parent (use_mtx : bool) (shmfd sem : Z) (p_udata : mem) : C K mem :=
  p_udata ← update_udata p_udata 112 0 (LEN * 10);
  (if use_mtx then
     r ← sys "sem_post" [AI sem];
     if r =? -1 then perror "sem_post() failed" else mret tt
   else mret tt);;
  sys "wait" [];;
  sys "munmap" [AI MEMSIZE];;
  syscall (Cclose shmfd);;
  (if use_mtx then sys "sem_close" [AI sem];; mret tt else mret tt);;
  sys "sem_unlink" [AS SEM_NAME];;
  mret p_udata.

Definition main (argv : list string) (p_udata : mem) : C K mem :=
  (if negb (argc argv =? 2) then
     fprintf stderr (cat ["Usage: "; arg_n argv 0; " 1|0"; nl;
       " 1 => use the semaphore (as a mutex lock); correct, expected behavior"; nl;
       " 0 => DON'T use the semaphore (as a mutex lock); incorrect, buggy, data races ensue!"; nl]);;
     exit 1
   else mret tt);;
  let use_mtx := atoi (arg_n argv 1) =? 1 in
  shmfd ← shm_setup;
  sem ← sem_setup;
  child_pid ← sys "fork" [];
  if child_pid =? -1 then perror "fork failed";; exit 1
  else if child_pid =? 0 then child use_mtx shmfd sem p_udata
  else parent use_mtx shmfd sem p_udata.

End Code.

(** ** update_udata *)

(** [memset] of one byte value is a blit. *)
Definition fill (m : mem) (off c n : Z) : mem := blit m off (replicate (Z.to_nat n) c).

Lemma zlen_fill m off c n : 0 <= off -> 0 <= n -> off + n <= zlen m -> zlen (fill m off c n) = zlen m.
Proof. intros. unfold fill. apply zlen_blit; [done|]. rewrite zlen_replicate. lia. Qed.

Lemma znth_fill m off c n i :
  0 <= off -> 0 <= n -> off + n <= zlen m -> 0 <= i ->
  znth (fill m off c n) i = if (off <=? i) && (i <? off + n) then Some (Some c) else znth m i.
Proof.
  intros. unfold fill. rewrite znth_blit by (rewrite ?zlen_replicate; lia).
  rewrite zlen_replicate, Z2Nat.id by lia.
  destruct (Z.leb_spec off i); [|done]. destruct (Z.ltb_spec i (off + n)); [|done]. cbn [andb].
  unfold znth. destruct (Z.ltb_spec (i - off) 0); [lia|].
  rewrite lookup_replicate_2 by lia. done.
Qed.

(** Filling twice in a row is filling once. *)
Lemma fill_fill m off c n1 n2 :
  0 <= off -> 0 <= n1 -> 0 <= n2 -> off + n1 + n2 <= zlen m ->
  fill (fill m off c n1) (off + n1) c n2 = fill m off c (n1 + n2).
Proof.
  intros. apply znth_ext; [rewrite !zlen_fill; rewrite ?zlen_fill; lia|]. intros i [Hi _].
  rewrite !znth_fill; rewrite ?zlen_fill; try lia.
  destruct (Z.leb_spec (off + n1) i), (Z.ltb_spec i (off + n1 + n2)), (Z.leb_spec off i),
    (Z.ltb_spec i (off + n1)), (Z.ltb_spec i (off + (n1 + n2))); cbn [andb]; try lia; done.
Qed.

Lemma fill_0 m off c : 0 <= off <= zlen m -> fill m off c 0 = m.
Proof.
  intros. apply znth_ext; [apply zlen_fill; lia|]. intros i [Hi _]. rewrite znth_fill by lia.
  destruct (Z.leb_spec off i), (Z.ltb_spec i (off + 0)); cbn [andb]; try lia; done.
Qed.

Section Update.
Context {K : Type} {HK : Kernel K}.

Lemma wp_memset obj m off c n (Q : outcome mem -> world K -> Prop) w :
  0 <= off -> 0 <= n -> off + n <= zlen m -> Q (Done (fill m off c n)) w ->
  wp (memset obj m off c n) Q w.
Proof.
  intros. unfold memset. apply wp_copy_in; [done|rewrite zlen_replicate; lia|done].
Qed.

Lemma wp_update_chunks letter offset n : forall m i (Q : outcome mem -> world K -> Prop) w,
  0 <= offset -> 0 <= i -> offset + (i + Z.of_nat n) * chunk_sz <= zlen m ->
  (forall w', Q (Done (fill m (offset + i * chunk_sz) letter (Z.of_nat n * chunk_sz))) w') ->
  wp (update_chunks m letter offset i n) Q w.
Proof.
  unfold chunk_sz. induction n as [|n IH]; intros m i Q w Ho Hi Hl HQ; cbn [update_chunks].
  { wp_step. rewrite fill_0 in HQ by lia. apply HQ. }
  wp_seq. apply wp_memset; unfold chunk_sz; [lia..|]. cbn [post]. wp_seq.
  apply IH; [lia..|rewrite zlen_fill; lia|]. intros w'.
  replace (offset + (i + 1) * 4096) with (offset + i * 4096 + 4096) by lia.
  rewrite fill_fill by lia. replace (4096 + Z.of_nat n * 4096) with (Z.of_nat (S n) * 4096) by lia.
  apply HQ.
Qed.

Lemma wp_update_udata m letter offset len (Q : outcome mem -> world K -> Prop) w :
  0 <= offset -> 0 <= len -> offset + len <= zlen m ->
  (forall w', Q (Done (fill m offset letter len)) w') ->
  wp (update_udata m letter offset len) Q w.
Proof.
  intros Ho Hn Hl HQ. unfold update_udata. pose proof (Z.div_mod len chunk_sz) as Hdm.
  assert (Hm : 0 <= len mod chunk_sz < chunk_sz) by (apply Z.mod_pos_bound; unfold chunk_sz; lia).
  assert (Hd : 0 <= len / chunk_sz) by (apply Z.div_pos; unfold chunk_sz; lia).
  assert (Hmul : len = len / chunk_sz * chunk_sz + len mod chunk_sz) by (unfold chunk_sz in *; lia).
  set (q := len / chunk_sz) in *. set (r := len mod chunk_sz) in *.
  wp_step. apply wp_update_chunks; [lia..|rewrite Z2Nat.id by lia; lia|].
  intros w'. cbn [post]. rewrite Z.mul_0_l, Z.add_0_r, Z2Nat.id by lia.
  assert (0 <= q * chunk_sz) by (unfold chunk_sz; lia).
  destruct (Z.eqb_spec r 0) as [E|E]; cbn [negb].
  - wp_step. replace (q * chunk_sz) with len by lia. apply HQ.
  - apply wp_memset; [lia..|rewrite zlen_fill; lia|]. rewrite fill_fill by lia.
    rewrite <- Hmul. apply HQ.
Qed.

End Update.

(** Update_udata is memset.  However long the region, writing it a page at a time
    and then the rest leaves the memory as one memset of the whole region does,
    and never leaves the object. *)
Theorem update_udata_fills {K} `{Kernel K} m letter offset len (w : world K) :
  0 <= offset -> 0 <= len -> offset + len <= zlen m ->
  exists w', update_udata m letter offset len w = (Done (fill m offset letter len), w').
Proof.
  intros Ho Hn Hl.
  enough (wp (update_udata m letter offset len) (fun o _ => o = Done (fill m offset letter len)) w)
    as (o & w' & E & ->)%wp_run by (by exists w').
  by apply wp_update_udata.
Qed.

Lemma update_udata_fills_witness :
  exists w', update_udata (uninit 10000) 112 10 9000 (World [] 0 []) = (Done (fill (uninit 10000) 10 112 9000), w').
Proof.
  apply (update_udata_fills (uninit 10000) 112 10 9000 (World [] 0 [])); [lia..|].
  rewrite zlen_uninit; lia.
Defined.

(** ** The two processes *)

Inductive act :=
| Store (i v : Z)
| Post
| Wait.

(** The shared memory, the semaphore, and what each process has still to do. *)
Record system := System { shared : mem; sem : Z; todo_parent : list act; todo_child : list act }.

(** The stores of [update_udata], in order. *)
Definition stores (letter offset len : Z) : list act :=
  map (fun i => Store i letter) (seqZ offset len).

(** The accesses of the two processes to what they share. *)
Definition parent_acts (use_mtx : bool) : list act :=
  stores 112 0 (LEN * 10) ++ (if use_mtx then [Post] else []).

Definition child_acts (use_mtx : bool) : list act :=
  (if use_mtx then [Wait] else []) ++ stores 99 LEN (LEN * 10).

Inductive proc := Parent | Child.

Definition do_act (a : act) (m : mem) (s : Z) : option (mem * Z) :=
  match a with
  | Store i v => Some (zset m i (Some v), s)
  | Post => Some (m, s + 1)
  | Wait => if 0 <? s then Some (m, s - 1) else None
  end.

Definition exec (p : proc) (s : system) : option system :=
  match p with
  | Parent =>
      match todo_parent s with
      | [] => None
      | a :: l => '(m, v) ← do_act a (shared s) (sem s); Some (System m v l (todo_child s))
      end
  | Child =>
      match todo_child s with
      | [] => None
      | a :: l => '(m, v) ← do_act a (shared s) (sem s); Some (System m v (todo_parent s) l)
      end
  end.

Fixpoint schedule (l : list proc) (s : system) : option system :=
  match l with
  | [] => Some s
  | p :: l' => s' ← exec p s; schedule l' s'
  end.

(** The processes after the fork, on a region of [size] zero bytes. *)
Definition start (use_mtx : bool) (size : Z) : system :=
  System (init (replicate (Z.to_nat size) 0)) 0 (parent_acts use_mtx) (child_acts use_mtx).

Definition stuck (s : system) : Prop := forall p, exec p s = None.

(** *** Running stores *)

Definition store (m : mem) (a : act) : mem :=
  match a with Store i v => zset m i (Some v) | _ => m end.

Definition is_store (a : act) : Prop := match a with Store _ _ => True | _ => False end.

Lemma stores_all letter offset len : Forall is_store (stores letter offset len).
Proof. unfold stores. apply Forall_map, Forall_true. done. Qed.

Lemma zset_fill m i c : 0 <= i < zlen m -> zset m i (Some c) = fill m i c 1.
Proof.
  intros. apply znth_ext; [rewrite zlen_zset, zlen_fill; lia|]. intros j [Hj _].
  rewrite znth_fill by lia. destruct (Z.eq_dec i j) as [->|Hne].
  - rewrite znth_zset_eq by lia. destruct (Z.leb_spec j j), (Z.ltb_spec j (j + 1)); cbn; try lia; done.
  - rewrite znth_zset_ne by lia. destruct (Z.leb_spec i j), (Z.ltb_spec j (i + 1)); cbn; try lia; done.
Qed.

(** The single stores of a process fill the region that update_udata fills. *)
Lemma stores_fill_nat m letter offset n :
  0 <= offset -> offset + Z.of_nat n <= zlen m ->
  foldl store m (stores letter offset (Z.of_nat n)) = fill m offset letter (Z.of_nat n).
Proof.
  intros Ho. unfold stores. induction n as [|n IH]; intros Hl.
  { cbn. rewrite fill_0 by lia. done. }
  rewrite seqZ_S, map_app, foldl_app, IH by lia. cbn [map foldl store].
  rewrite zset_fill by (rewrite zlen_fill; lia). rewrite fill_fill by lia. f_equal. lia.
Qed.

Lemma stores_fill m letter offset n :
  0 <= offset -> 0 <= n -> offset + n <= zlen m ->
  foldl store m (stores letter offset n) = fill m offset letter n.
Proof. intros. rewrite <- (Z2Nat.id n) by done. apply stores_fill_nat; lia. Qed.

(** *** With the semaphore *)

Section Mutex.
Context (m0 : mem) (ws cs : list act) (Hws : Forall is_store ws) (Hcs : Forall is_store cs).

(** The parent writes first; then the semaphore is up; then the child writes. *)
Inductive turn (s : system) : Prop :=
| ParentWrites ws1 ws2 :
    ws = ws1 ++ ws2 -> todo_parent s = ws2 ++ [Post] -> todo_child s = Wait :: cs ->
    sem s = 0 -> shared s = foldl store m0 ws1 -> turn s
| Between :
    todo_parent s = [] -> todo_child s = Wait :: cs -> sem s = 1 ->
    shared s = foldl store m0 ws -> turn s
| ChildWrites cs1 cs2 :
    cs = cs1 ++ cs2 -> todo_parent s = [] -> todo_child s = cs2 -> sem s = 0 ->
    shared s = foldl store (foldl store m0 ws) cs1 -> turn s.

Lemma do_store a m v : is_store a -> do_act a m v = Some (store m a, v).
Proof. by destruct a. Qed.

Lemma exec_turn p s s' : turn s -> exec p s = Some s' -> turn s'.
Proof.
  intros Ht E. destruct s as [m v pl cl]. destruct Ht as [ws1 ws2 Hw Hp Hc Hv Hm|Hp Hc Hv Hm|cs1 cs2 Hc' Hp Hc Hv Hm];
    cbn in Hp, Hc, Hv, Hm; subst pl v m; [| |try subst cl]; destruct p; cbn in E; try done.
  - destruct ws2 as [|a ws2]; cbn in E; simplify_eq.
    + rewrite app_nil_r in Hw. subst ws1. by apply Between.
    + rewrite Hw in Hws. apply Forall_app in Hws as [_ Ha]. apply Forall_cons in Ha as [Ha _].
      rewrite do_store in E by done. cbn in E. simplify_eq.
      apply (ParentWrites _ (ws1 ++ [a]) ws2); cbn; auto; [by rewrite <- app_assoc|].
      by rewrite foldl_snoc.
  - subst cl. done.
  - subst cl. cbn in E. simplify_eq. by apply (ChildWrites _ [] cs).
  - destruct cs2 as [|a cs2]; [done|]. rewrite Hc' in Hcs. apply Forall_app in Hcs as [_ Ha].
    apply Forall_cons in Ha as [Ha _]. rewrite do_store in E by done. cbn in E. simplify_eq.
    apply (ChildWrites _ (cs1 ++ [a]) cs2); cbn; auto; [by rewrite <- app_assoc|]. by rewrite foldl_snoc.
Qed.

Lemma stuck_turn s : turn s -> stuck s ->
  todo_parent s = [] /\ todo_child s = [] /\ shared s = foldl store (foldl store m0 ws) cs.
Proof.
  intros Ht Hs. pose proof (Hs Parent) as HP. pose proof (Hs Child) as HC. destruct s as [m v pl cl].
  destruct Ht as [ws1 ws2 Hw Hp Hc Hv Hm|Hp Hc Hv Hm|cs1 cs2 Hc' Hp Hc Hv Hm]; cbn in *; subst.
  - destruct ws2 as [|a ws2]; [done|]. apply Forall_app in Hws as [_ Ha].
    apply Forall_cons in Ha as [Ha _]. cbn in HP. by rewrite do_store in HP.
  - done.
  - destruct cs2 as [|a cs2]; [by rewrite app_nil_r|]. apply Forall_app in Hcs as [_ Ha].
    apply Forall_cons in Ha as [Ha _]. by rewrite do_store in HC.
Qed.

Lemma schedule_turn l s s' : turn s -> schedule l s = Some s' -> turn s'.
Proof.
  revert s. induction l as [|p l IH]; intros s Hs E; cbn in E; [by simplify_eq|].
  apply bind_Some in E as (s1 & E1 & E). eapply IH; [by eapply exec_turn|done].
Qed.

End Mutex.

(** Every step does one of the accesses that are left. *)
Lemma schedule_length l s s' : schedule l s = Some s' ->
  (length l + length (todo_parent s') + length (todo_child s') =
   length (todo_parent s) + length (todo_child s))%nat.
Proof.
  revert s. induction l as [|p l IH]; intros s E; cbn in E; [by simplify_eq|].
  apply bind_Some in E as (s1 & E1 & E). specialize (IH s1 E). cbn [length].
  destruct s as [m v pl cl], p; cbn in *; case_match; simplify_eq;
    apply bind_Some in E1 as ([m1 v1] & _ & [= <-]); cbn in *; lia.
Qed.

Lemma length_stores letter offset len : 0 <= len -> length (stores letter offset len) = Z.to_nat len.
Proof. intros. unfold stores. by rewrite length_map, length_seqZ. Qed.

Lemma zero_size size : 0 <= size -> zlen (init (replicate (Z.to_nat size) 0)) = size.
Proof. intros. rewrite zlen_init, zlen_replicate. lia. Qed.

(** The region after the parent's and then the child's writes. *)
Definition in_turn (size i : Z) : Z := if i <? LEN then 112 else if i <? LEN * 11 then 99 else 0.

Lemma in_turn_spec size i : LEN * 11 <= size -> 0 <= i < size ->
  znth (foldl store (foldl store (init (replicate (Z.to_nat size) 0)) (stores 112 0 (LEN * 10)))
          (stores 99 LEN (LEN * 10))) i = Some (Some (in_turn size i)).
Proof.
  unfold LEN. intros Hs Hi. change (2560 * 10) with 25600.
  pose proof (zero_size size ltac:(lia)) as Hz.
  rewrite (stores_fill _ 112) by lia. rewrite stores_fill by (rewrite ?zlen_fill; lia).
  rewrite !znth_fill by (rewrite ?zlen_fill; lia). unfold in_turn, LEN.
  destruct (Z.leb_spec 2560 i), (Z.ltb_spec i (2560 + 25600)), (Z.ltb_spec i 2560),
    (Z.leb_spec 0 i), (Z.ltb_spec i (0 + 25600)), (Z.ltb_spec i (2560 * 11)); cbn [andb];
    try lia; try done.
  unfold znth, init. destruct (Z.ltb_spec i 0); [lia|].
  rewrite list_lookup_fmap, lookup_replicate_2 by lia. done.
Qed.

(** With the semaphore the processes take turns.  Over every interleaving of
    their byte stores: the run is finite, and when neither process can go on both
    are done and the region holds the parent's letter, then the child's, then
    zeroes; the child overwrote the shared part and no store of the parent came
    after one of the child. *)
Theorem shm_mutex_order size l s :
  LEN * 11 <= size -> schedule l (start true size) = Some s ->
  zlen l <= 51202 /\
  (stuck s -> todo_parent s = [] /\ todo_child s = [] /\
     forall i, 0 <= i < size -> znth (shared s) i = Some (Some (in_turn size i))).
Proof.
  intros Hs E. split.
  - apply schedule_length in E. unfold start, parent_acts, child_acts in E. cbn [todo_parent todo_child] in E.
    rewrite !length_app, !length_stores in E by (unfold LEN; lia). unfold LEN, zlen in *. cbn [length] in E. lia.
  - intros Hst.
    destruct (stuck_turn (init (replicate (Z.to_nat size) 0)) (stores 112 0 (LEN * 10)) (stores 99 LEN (LEN * 10))
                (stores_all _ _ _) (stores_all _ _ _) s) as (Hp & Hc & Hm); [|done|].
    { eapply (schedule_turn _ _ _ (stores_all _ _ _) (stores_all _ _ _)); [|exact E].
      by apply (ParentWrites _ _ _ _ [] (stores 112 0 (LEN * 10))). }
    split; [done|]. split; [done|]. intros i Hi. rewrite Hm. by apply in_turn_spec.
Qed.

(** *** Without it *)

Lemma run_parent ws : forall m v pl cl, Forall is_store ws ->
  schedule (replicate (length ws) Parent) (System m v (ws ++ pl) cl) = Some (System (foldl store m ws) v pl cl).
Proof.
  induction ws as [|a ws IH]; intros m v pl cl H; [done|].
  apply Forall_cons in H as [Ha H]. cbn. rewrite do_store by done. cbn. by apply IH.
Qed.

Lemma run_child cs : forall m v pl cl, Forall is_store cs ->
  schedule (replicate (length cs) Child) (System m v pl (cs ++ cl)) = Some (System (foldl store m cs) v pl cl).
Proof.
  induction cs as [|a cs IH]; intros m v pl cl H; [done|].
  apply Forall_cons in H as [Ha H]. cbn. rewrite do_store by done. cbn. by apply IH.
Qed.

Lemma schedule_app l1 l2 s : schedule (l1 ++ l2) s = s' ← schedule l1 s; schedule l2 s'.
Proof.
  revert s. induction l1 as [|p l1 IH]; intros s; [done|]. cbn. destruct (exec p s); cbn; [apply IH|done].
Qed.

(** Without the semaphore the result depends on the schedule: two complete runs
    of the same processes leave different bytes in the part both write. *)
Theorem shm_race size : LEN * 11 <= size ->
  exists l1 l2 s1 s2,
    schedule l1 (start false size) = Some s1 /\ schedule l2 (start false size) = Some s2 /\
    stuck s1 /\ stuck s2 /\
    forall i, LEN <= i < LEN * 10 ->
      znth (shared s1) i = Some (Some 99) /\ znth (shared s2) i = Some (Some 112).
Proof.
  intros Hs. set (m0 := init (replicate (Z.to_nat size) 0)).
  set (ps := stores 112 0 (LEN * 10)). set (cs := stores 99 LEN (LEN * 10)).
  exists (replicate (length ps) Parent ++ replicate (length cs) Child),
    (replicate (length cs) Child ++ replicate (length ps) Parent),
    (System (foldl store (foldl store m0 ps) cs) 0 [] []), (System (foldl store (foldl store m0 cs) ps) 0 [] []).
  unfold start, parent_acts, child_acts. rewrite !app_nil_l. fold m0 ps cs.
  rewrite !schedule_app.
  rewrite (run_parent ps m0 0 [] cs) by apply stores_all.
  pose proof (run_child cs m0 0 (ps ++ []) [] (stores_all _ _ _)) as Hc. rewrite (app_nil_r cs) in Hc.
  rewrite Hc. cbn [mbind option_bind].
  pose proof (run_child cs (foldl store m0 ps) 0 [] [] (stores_all _ _ _)) as Hc2. rewrite (app_nil_r cs) in Hc2.
  split; [exact Hc2|]. split; [by apply run_parent, stores_all|].
  split; [by intros []|]. split; [by intros []|]. intros i Hi. cbn [shared].
  assert (Hl : zlen m0 = size) by (apply zero_size; unfold LEN in *; lia). unfold ps, cs, LEN in *.
  change (2560 * 10) with (25600). split.
  - rewrite (stores_fill _ 112), (stores_fill _ 99) by (rewrite ?zlen_fill; lia).
    rewrite znth_fill by (rewrite ?zlen_fill; lia).
    destruct (Z.leb_spec 2560 i), (Z.ltb_spec i (2560 + 25600)); cbn; (lia || done).
  - rewrite (stores_fill _ 99), (stores_fill _ 112) by (rewrite ?zlen_fill; lia).
    rewrite znth_fill by (rewrite ?zlen_fill; lia).
    destruct (Z.leb_spec 0 i), (Z.ltb_spec i (0 + 25600)); cbn; (lia || done).
Qed.

Lemma shm_race_witness :
  exists l1 l2 s1 s2,
    schedule l1 (start false 28160) = Some s1 /\ schedule l2 (start false 28160) = Some s2 /\
    stuck s1 /\ stuck s2 /\
    forall i, LEN <= i < LEN * 10 ->
      znth (shared s1) i = Some (Some 99) /\ znth (shared s2) i = Some (Some 112).
Proof. apply (shm_race 28160). by vm_compute. Defined.

(** The run in which the child only starts when it can. *)
Lemma mutex_run m0 ws cs : Forall is_store ws -> Forall is_store cs ->
  schedule (replicate (length ws) Parent ++ [Parent; Child] ++ replicate (length cs) Child)
    (System m0 0 (ws ++ [Post]) (Wait :: cs)) = Some (System (foldl store (foldl store m0 ws) cs) 0 [] []).
Proof.
  intros Hw Hc. rewrite schedule_app, run_parent by done. cbn.
  pose proof (run_child cs (foldl store m0 ws) 0 [] [] Hc) as H. by rewrite app_nil_r in H.
Qed.

Definition whole_run : list proc :=
  replicate (length (stores 112 0 (LEN * 10))) Parent ++ [Parent; Child] ++
  replicate (length (stores 99 LEN (LEN * 10))) Child.

Definition whole_end : system :=
  System (foldl store (foldl store (init (replicate (Z.to_nat 28160) 0)) (stores 112 0 (LEN * 10)))
            (stores 99 LEN (LEN * 10))) 0 [] [].

Lemma whole_run_ends : schedule whole_run (start true 28160) = Some whole_end.
Proof.
  unfold whole_run, whole_end, start, parent_acts, child_acts.
  generalize (stores_all 112 0 (LEN * 10)) (stores_all 99 LEN (LEN * 10)).
  generalize (stores 112 0 (LEN * 10)) (stores 99 LEN (LEN * 10)) (init (replicate (Z.to_nat 28160) 0)).
  intros ws cs m0 Hw Hc. by apply mutex_run.
Qed.

Lemma shm_mutex_order_witness :
  schedule whole_run (start true 28160) = Some whole_end /\
  znth (shared whole_end) 3000 = Some (Some 99).
Proof.
  split; [exact whole_run_ends|].
  assert (Hst : stuck whole_end) by (by intros []).
  destruct (shm_mutex_order 28160 whole_run whole_end (Z.le_refl 28160) whole_run_ends) as [_ H].
  destruct (H Hst) as (_ & _ & Hi). exact (Hi 3000 ltac:(lia)).
Defined.
