(* ===== verification/BankAcc.v ===== *)
(** src/pthreads/bankacc_datarace/bankacc_datarace.c: one thread deposits and one
    withdraws, a million times each, with a mutex or without.  The threads are
    interleaving machines over the shared [balance], with the number of
    iterations as a parameter; [balance++] is a load and a store. *)
From S2P Require Import Prelude CMonad CLib.

Definition NUM_ITERATIONS : Z := 1000000.

Inductive thread := Depositor | Withdrawer.

#[export] Instance thread_eq_dec : EqDecision thread.
Proof. solve_decision. Defined.

(** Where a thread is in turn [i] of its loop. *)
Inductive pc :=
| Lock (i : Z)
| Load (i : Z)
| Store (i v : Z)
| Unlock (i : Z)
| Return.

Record state := State { balance : Z; lock : option thread; pc_deposit : pc; pc_withdraw : pc }.

Section Threads.
Variable n : Z.

(** The test of the for loop: [first] is the first statement of its body. *)
Definition turn (first : Z -> pc) (i : Z) : pc := if i <? n then first i else Return.

(** A turn of [deposit] or [withdraw]: the balance changes under the mutex. *)
Definition guarded (t : thread) (change : Z) (p : pc) (b : Z) (m : option thread)
    : option (Z * option thread * pc) :=
  match p with
  | Lock i => if decide (m = None) then Some (b, Some t, Load i) else None
  | Load i => Some (b, m, Store i b)
  | Store i v => Some (v + change, m, Unlock i)
  | Unlock i => Some (b, None, turn Lock (i + 1))
  | Return => None
  end.

(** A turn of [deposit_bad] or [withdraw_bad]: nothing is locked. *)
Definition unguarded (change : Z) (p : pc) (b : Z) (m : option thread)
    : option (Z * option thread * pc) :=
  match p with
  | Load i => Some (b, m, Store i b)
  | Store i v => Some (v + change, m, turn Load (i + 1))
  | _ => None
  end.

Definition deposit := guarded Depositor 1.
Definition withdraw := guarded Withdrawer (-1).
Definition deposit_bad := unguarded 1.
Definition withdraw_bad := unguarded (-1).

Definition exec (bad : bool) (t : thread) (s : state) : option state :=
  match t with
  | Depositor =>
      '(b, m, p) ← (if bad then deposit_bad else deposit) (pc_deposit s) (balance s) (lock s);
      Some (State b m p (pc_withdraw s))
  | Withdrawer =>
      '(b, m, p) ← (if bad then withdraw_bad else withdraw) (pc_withdraw s) (balance s) (lock s);
      Some (State b m (pc_deposit s) p)
  end.

Fixpoint schedule (bad : bool) (l : list thread) (s : state) : option state :=
  match l with
  | [] => Some s
  | t :: l' => s' ← exec bad t s; schedule bad l' s'
  end.

(** The threads as main creates them. *)
Definition start (bad : bool) : state :=
  let p := turn (if bad then Load else Lock) 0 in State 0 None p p.

Definition stuck (bad : bool) (s : state) : Prop := forall t, exec bad t s = None.

Definition finished (s : state) : Prop := pc_deposit s = Return /\ pc_withdraw s = Return.

End Threads.

(** The identifier pthread_create stores; nothing is known of it when it fails. *)
Definition identifier (r : resp) : option Z :=
  if ret r =? 0 then Some (nth 0 (out r) 0) else None.

Section Code.
Context {K : Type} {HK : Kernel K}.

Definition create (fn : string) : C K (option Z) :=
  r ← syscall (Csys "pthread_create" [AS fn]); mret (identifier r).

(** pthread_join of an identifier that is no thread's is undefined. *)
Definition join (t : option Z) : C K unit :=
  match t with
  | None => undefined (UB_uninit "thread" 0)
  | Some 0 => undefined (UB_null "thread")
  | Some t => sys "pthread_join" [AI t];; mret tt
  end.

(** [balance] is what the account holds when main reads it. *)
Definition main (argv : list string) (balance : Z) : C K Z :=
  (if argc argv <? 2 then
     fprintf stderr (cat ["Usage: "; arg_n argv 0; " opt"; nl;
       "opt=0 : good case - NO data race as a mutex is used"; nl;
       "opt=1 : bad case - classic data race as no mutex's used"; nl]);;
     exit 1
   else mret tt);;
  '(t1, t2) ←
    (if atoi (arg_n argv 1) =? 0 then
       t1 ← create "deposit"; t2 ← create "withdraw"; mret (t1, t2)
     else if atoi (arg_n argv 1) =? 1 then
       t1 ← create "deposit_bad"; t2 ← create "withdraw_bad"; mret (t1, t2)
     else mret (Some 0, Some 0));
  join t1;; join t2;;
  printf (cat ["Final balance: "; fmt_d balance; nl]);;
  mret 0.

End Code.

(** ** Lemmas on both versions *)

(** The updates a thread has stored. *)
Definition done_ (n : Z) (p : pc) : Z :=
  match p with
  | Lock i | Load i | Store i _ => i
  | Unlock i => i + 1
  | Return => n
  end.

(** What is left to do: a turn has at most four steps. *)
Definition left (n : Z) (p : pc) : Z :=
  match p with
  | Lock i => 4 * (n - i)
  | Load i => 4 * (n - i) - 1
  | Store i _ => 4 * (n - i) - 2
  | Unlock i => 4 * (n - i) - 3
  | Return => 0
  end.

Lemma schedule_ind n bad (P : state -> Prop) (m : state -> Z) :
  (forall t s s', P s -> exec n bad t s = Some s' -> P s' /\ m s' < m s) ->
  forall l s s', P s -> schedule n bad l s = Some s' -> P s' /\ m s' + zlen l <= m s.
Proof.
  intros Hstep l. induction l as [|t l IH]; intros s s' Hs E; cbn in E.
  { simplify_eq. rewrite zlen_nil. split; [done|lia]. }
  apply bind_Some in E as (s1 & E1 & E). destruct (Hstep t s s1 Hs E1) as [H1 Hm].
  destruct (IH s1 s' H1 E) as [H2 Hl]. rewrite zlen_cons. split; [done|lia].
Qed.

Lemma bank_schedule_app n bad l1 l2 s :
  schedule n bad (l1 ++ l2) s = s' ← schedule n bad l1 s; schedule n bad l2 s'.
Proof.
  revert s. induction l1 as [|t l1 IH]; intros s; cbn; [done|].
  destruct (exec n bad t s) as [s'|]; cbn; [apply IH|done].
Qed.

(** ** With the mutex *)

Definition holds (p : pc) : bool :=
  match p with Load _ | Store _ _ | Unlock _ => true | _ => false end.

Definition pc_ok (n : Z) (p : pc) (b : Z) : Prop :=
  match p with
  | Lock i | Load i | Unlock i => 0 <= i < n
  | Store i v => 0 <= i < n /\ v = b
  | Return => True
  end.

Record inv (n : Z) (s : state) : Prop := Inv {
  inv_balance : balance s = done_ n (pc_deposit s) - done_ n (pc_withdraw s);
  inv_deposit : pc_ok n (pc_deposit s) (balance s);
  inv_withdraw : pc_ok n (pc_withdraw s) (balance s);
  inv_lock1 : holds (pc_deposit s) = bool_decide (lock s = Some Depositor);
  inv_lock2 : holds (pc_withdraw s) = bool_decide (lock s = Some Withdrawer) }.

Lemma bank_unheld n p b b' : holds p = false -> pc_ok n p b -> pc_ok n p b'.
Proof. by destruct p. Qed.

Lemma inv_start n : 0 <= n -> inv n (start n false).
Proof.
  intros. unfold start, turn. destruct (Z.ltb_spec 0 n); constructor; cbn; try done; lia.
Qed.

(** A step of one thread keeps what concerns it; the other is outside its critical
    section whenever the step changes the balance. *)
Lemma guarded_step n t change p b m b' m' p' :
  0 <= n -> pc_ok n p b -> holds p = bool_decide (m = Some t) ->
  guarded n t change p b m = Some (b', m', p') ->
  pc_ok n p' b' /\ holds p' = bool_decide (m' = Some t) /\
  b' - b = change * (done_ n p' - done_ n p) /\ left n p' < left n p /\
  (m = m' \/ m = None /\ m' = Some t \/ m = Some t /\ m' = None) /\
  (b = b' \/ m = Some t).
Proof.
  intros Hn Hp Hh E. destruct p as [i|i|i v|i|]; cbn [guarded pc_ok holds] in *; [|..|done].
  - case_decide; simplify_eq. rewrite bool_decide_eq_true_2 by done. cbn [pc_ok holds done_ left]. split_and!; auto; lia.
  - simplify_eq. cbn [pc_ok holds done_ left]. split_and!; auto; lia.
  - symmetry in Hh. apply bool_decide_eq_true in Hh as ->. destruct Hp as [Hi ->]. simplify_eq.
    rewrite bool_decide_eq_true_2 by done. cbn [pc_ok holds done_ left]. split_and!; auto; lia.
  - symmetry in Hh. apply bool_decide_eq_true in Hh as ->. simplify_eq.
    unfold turn. destruct (Z.ltb_spec (i + 1) n) as [|Hge]; cbn [pc_ok holds done_ left].
    + split_and!; auto; lia.
    + assert (n = i + 1) as -> by lia. split_and!; auto; lia.
Qed.

Lemma bank_exec_inv n t s s' : 0 <= n -> inv n s -> exec n false t s = Some s' ->
  inv n s' /\ left n (pc_deposit s') + left n (pc_withdraw s') <
              left n (pc_deposit s) + left n (pc_withdraw s).
Proof.
  intros Hn [Hb H1 H2 L1 L2] E. destruct s as [b m p1 p2]. cbn in *.
  destruct t; cbn in E; apply bind_Some in E as ([[b' m'] p'] & E & [= <-]).
  - destruct (guarded_step _ _ _ _ _ _ _ _ _ Hn H1 L1 E) as (G1 & G2 & G3 & G4 & G5 & G6).
    split; [|cbn; lia]. constructor; cbn; [lia|done| |done|].
    + destruct G6 as [<-| ->]; [done|]. by apply (bank_unheld _ _ b).
    + rewrite L2. destruct G5 as [->|[[-> ->]|[-> ->]]]; done.
  - destruct (guarded_step _ _ _ _ _ _ _ _ _ Hn H2 L2 E) as (G1 & G2 & G3 & G4 & G5 & G6).
    split; [|cbn; lia]. constructor; cbn; [lia| |done| |done].
    + destruct G6 as [<-| ->]; [done|]. by apply (bank_unheld _ _ b).
    + rewrite L1. destruct G5 as [->|[[-> ->]|[-> ->]]]; done.
Qed.

Lemma bank_stuck n s : inv n s -> stuck n false s -> finished s.
Proof.
  intros [_ _ _ L1 L2] Hs. pose proof (Hs Depositor) as S1. pose proof (Hs Withdrawer) as S2.
  destruct s as [b m p1 p2]. unfold finished. cbn in *.
  destruct m as [[]|]; destruct p1; cbn in *; try done; destruct p2; cbn in *; done.
Qed.

Lemma done_range n p b : 0 <= n -> pc_ok n p b -> 0 <= done_ n p <= n.
Proof. destruct p; cbn; lia. Qed.

Lemma left_range n p b : 0 <= n -> pc_ok n p b -> 0 <= left n p.
Proof. destruct p; cbn [pc_ok left]; lia. Qed.

Lemma left_start n : 0 <= n -> left n (turn n Lock 0) <= 4 * n.
Proof. intros. unfold turn. destruct (Z.ltb_spec 0 n); cbn [left]; lia. Qed.

Lemma bank_run n l s : 0 <= n -> schedule n false l (start n false) = Some s ->
  inv n s /\ left n (pc_deposit s) + left n (pc_withdraw s) + zlen l <=
             left n (turn n Lock 0) + left n (turn n Lock 0).
Proof.
  intros Hn E.
  apply (schedule_ind n false (inv n) (fun s => left n (pc_deposit s) + left n (pc_withdraw s)))
    with (s := start n false); [|by apply inv_start|done].
  intros t s1 s2 H1 E1. by apply bank_exec_inv with t.
Qed.

Lemma bank_end n l s : 0 <= n -> schedule n false l (start n false) = Some s -> stuck n false s ->
  finished s /\ balance s = 0.
Proof.
  intros Hn E Hs. destruct (bank_run n l s Hn E) as [Hi _].
  destruct (bank_stuck n s Hi Hs) as [F1 F2]. split; [done|].
  rewrite (inv_balance _ _ Hi), F1, F2. cbn. lia.
Qed.

(** C32: with the mutex no update is lost.  For any number of iterations and every
    interleaving of the two threads, the balance is always the updates stored so
    far, stays between -n and n, and at most one thread is between lock and
    unlock; when no thread can step both have returned and the balance is 0; and
    a run has at most 8n steps. *)
Theorem bank_balanced n l s :
  0 <= n -> schedule n false l (start n false) = Some s ->
  balance s = done_ n (pc_deposit s) - done_ n (pc_withdraw s) /\
  - n <= balance s <= n /\
  (holds (pc_deposit s) && holds (pc_withdraw s) = false) /\
  (stuck n false s -> finished s /\ balance s = 0) /\
  zlen l <= 8 * n.
Proof.
  intros Hn E. destruct (bank_run n l s Hn E) as [[Hb H1 H2 L1 L2] Hl].
  pose proof (done_range n _ _ Hn H1). pose proof (done_range n _ _ Hn H2).
  pose proof (left_range n _ _ Hn H1). pose proof (left_range n _ _ Hn H2).
  pose proof (left_start n Hn). split_and!; [done|lia|lia| |by apply (bank_end n l)|lia].
  rewrite L1, L2. destruct (lock s) as [[]|]; by repeat case_bool_decide.
Qed.

Lemma bank_balanced_witness :
  schedule 2 false (replicate 8 Depositor ++ replicate 8 Withdrawer) (start 2 false)
    = Some (State 0 None Return Return) /\
  - 2 <= balance (State 0 None Return Return) <= 2.
Proof.
  split; [by vm_compute|].
  apply (bank_balanced 2 (replicate 8 Depositor ++ replicate 8 Withdrawer)); [lia|by vm_compute].
Defined.

(** ** Without the mutex *)

Definition racy_ok (n : Z) (p : pc) : Prop :=
  match p with
  | Load i | Store i _ => 0 <= i < n
  | Return => True
  | _ => False
  end.

(** A value on its way back to the balance is bounded by what was stored when it
    was read. *)
Definition in_hand (n : Z) (p : pc) (lo hi : Z) : Prop :=
  match p with Store _ v => lo <= v <= hi | _ => True end.

Record racy_inv (n : Z) (s : state) : Prop := RacyInv {
  racy_deposit : racy_ok n (pc_deposit s);
  racy_withdraw : racy_ok n (pc_withdraw s);
  racy_balance : - done_ n (pc_withdraw s) <= balance s <= done_ n (pc_deposit s);
  racy_v1 : in_hand n (pc_deposit s) (- done_ n (pc_withdraw s)) (done_ n (pc_deposit s));
  racy_v2 : in_hand n (pc_withdraw s) (- done_ n (pc_withdraw s)) (done_ n (pc_deposit s)) }.

Lemma racy_start n : 0 <= n -> racy_inv n (start n true).
Proof.
  intros. unfold start, turn. destruct (Z.ltb_spec 0 n); constructor; cbn; try done; lia.
Qed.

Lemma racy_exec_inv n t s s' : 0 <= n -> racy_inv n s -> exec n true t s = Some s' ->
  racy_inv n s' /\ left n (pc_deposit s') + left n (pc_withdraw s') <
                   left n (pc_deposit s) + left n (pc_withdraw s).
Proof.
  intros Hn [H1 H2 Hb V1 V2] E. destruct s as [b m p1 p2].
  destruct t; cbn in E; [destruct p1 as [|i|i v| |]|destruct p2 as [|i|i v| |]]; try done;
    cbn in E; simplify_eq; cbn [balance pc_deposit pc_withdraw racy_ok done_ in_hand] in *.
  - split; [constructor|]; cbn [balance pc_deposit pc_withdraw racy_ok done_ in_hand left] in *; try done; lia.
  - unfold turn. destruct (Z.ltb_spec (i + 1) n); (split; [constructor|]);
      cbn [balance pc_deposit pc_withdraw racy_ok done_ in_hand left] in *; try done; try lia;
      destruct p2; cbn [in_hand] in *; try done; lia.
  - split; [constructor|]; cbn [balance pc_deposit pc_withdraw racy_ok done_ in_hand left] in *; try done; lia.
  - unfold turn. destruct (Z.ltb_spec (i + 1) n); (split; [constructor|]);
      cbn [balance pc_deposit pc_withdraw racy_ok done_ in_hand left] in *; try done; try lia;
      destruct p1; cbn [in_hand] in *; try done; lia.
Qed.

Lemma racy_done_range n p : 0 <= n -> racy_ok n p -> 0 <= done_ n p <= n.
Proof. destruct p; cbn; try done; lia. Qed.

(** One thread running alone through [j] turns. *)
Lemma deposit_alone n (j : nat) : forall i b m p, 0 <= i -> i + Z.of_nat j <= n ->
  schedule n true (concat (replicate j [Depositor; Depositor])) (State b m (turn n Load i) p)
    = Some (State (b + Z.of_nat j) m (turn n Load (i + Z.of_nat j)) p).
Proof.
  induction j as [|j IH]; intros i b m p Hi Hj; cbn [replicate concat app schedule].
  { by rewrite !Z.add_0_r. }
  unfold turn at 1. destruct (Z.ltb_spec i n); [|lia]. cbn [exec pc_deposit balance lock mbind option_bind
    deposit_bad unguarded pc_withdraw].
  rewrite IH by lia. replace (b + 1 + Z.of_nat j) with (b + Z.of_nat (S j)) by lia.
  by replace (i + 1 + Z.of_nat j) with (i + Z.of_nat (S j)) by lia.
Qed.

Lemma withdraw_alone n (j : nat) : forall i b m p, 0 <= i -> i + Z.of_nat j <= n ->
  schedule n true (concat (replicate j [Withdrawer; Withdrawer])) (State b m p (turn n Load i))
    = Some (State (b - Z.of_nat j) m p (turn n Load (i + Z.of_nat j))).
Proof.
  induction j as [|j IH]; intros i b m p Hi Hj; cbn [replicate concat app schedule].
  { by rewrite Z.sub_0_r, Z.add_0_r. }
  unfold turn at 1. destruct (Z.ltb_spec i n); [|lia]. cbn [exec pc_deposit balance lock mbind option_bind
    withdraw_bad unguarded pc_withdraw].
  rewrite IH by lia. replace (b + -1 - Z.of_nat j) with (b - Z.of_nat (S j)) by lia.
  by replace (i + 1 + Z.of_nat j) with (i + Z.of_nat (S j)) by lia.
Qed.

(** A run that ends at [k]: one thread reads the balance, the other then does all
    it has left, and the stale value is written back. *)
Definition losing (n k : Z) : list thread :=
  let turns t j := concat (replicate (Z.to_nat j) [t; t]) in
  if 0 <=? k then
    turns Withdrawer (n - k) ++ [Depositor] ++ turns Withdrawer k ++ [Depositor] ++ turns Depositor (n - 1)
  else
    turns Depositor (n + k) ++ [Withdrawer] ++ turns Depositor (- k) ++ [Withdrawer] ++ turns Withdrawer (n - 1).

Lemma turn_end n i : n <= i -> turn n Load i = Return.
Proof. intros. unfold turn. destruct (Z.ltb_spec i n); [lia|done]. Qed.

Lemma turn_more n i : i < n -> turn n Load i = Load i.
Proof. intros. unfold turn. destruct (Z.ltb_spec i n); [done|lia]. Qed.

Lemma losing_ends n k : 1 <= n -> - n <= k <= n ->
  schedule n true (losing n k) (start n true) = Some (State k None Return Return).
Proof.
  intros Hn Hk. unfold losing, start. cbv zeta. destruct (Z.leb_spec 0 k).
  - rewrite bank_schedule_app, withdraw_alone, Z2Nat.id by lia. cbn [mbind option_bind app schedule].
    rewrite (turn_more n 0) by lia.
    cbn [exec pc_deposit balance lock mbind option_bind deposit_bad unguarded pc_withdraw].
    rewrite bank_schedule_app, withdraw_alone, Z2Nat.id by lia. cbn [mbind option_bind app schedule].
    cbn [exec pc_deposit balance lock mbind option_bind deposit_bad unguarded pc_withdraw].
    rewrite deposit_alone, Z2Nat.id by lia. rewrite !turn_end by lia. do 2 f_equal. lia.
  - rewrite bank_schedule_app, deposit_alone, Z2Nat.id by lia. cbn [mbind option_bind app schedule].
    rewrite (turn_more n 0) by lia.
    cbn [exec pc_deposit balance lock mbind option_bind withdraw_bad unguarded pc_withdraw].
    rewrite bank_schedule_app, deposit_alone, Z2Nat.id by lia. cbn [mbind option_bind app schedule].
    cbn [exec pc_deposit balance lock mbind option_bind withdraw_bad unguarded pc_withdraw].
    rewrite withdraw_alone, Z2Nat.id by lia. rewrite !turn_end by lia. do 2 f_equal. lia.
Qed.

(** C33: without the mutex every balance is possible.  The final balances of the
    unsynchronised version are exactly the values from -n to n: no interleaving
    leaves that range, and for each value of it there is a complete run that ends
    there. *)
Theorem bank_race n k :
  1 <= n ->
  (exists l s, schedule n true l (start n true) = Some s /\ finished s /\ balance s = k)
  <-> - n <= k <= n.
Proof.
  intros Hn. split.
  - intros (l & s & E & [F1 F2] & <-).
    destruct (schedule_ind n true (racy_inv n) (fun s => left n (pc_deposit s) + left n (pc_withdraw s)))
      with (l := l) (s := start n true) (s' := s) as [[H1 H2 Hb _ _] _]; [|apply racy_start; lia|done|].
    { intros t s1 s2 H1 E1. apply racy_exec_inv with t; [lia|done..]. }
    rewrite F1, F2 in Hb. done.
  - intros Hk. eexists _, _. by rewrite losing_ends.
Qed.

Lemma bank_race_witness :
  exists l s, schedule NUM_ITERATIONS true l (start NUM_ITERATIONS true) = Some s /\
    finished s /\ balance s = -17.
Proof. apply (bank_race NUM_ITERATIONS (-17)); unfold NUM_ITERATIONS; lia. Defined.

(** ** main *)

(** pthread_create gave no usable identifier. *)
Definition no_thread (fn : string) (tr : list event) : Prop :=
  exists r, EvCall (Csys "pthread_create" [AS fn]) r ∈ tr /\ (ret r <> 0 \/ nth 0 (out r) 0 = 0).

Definition good_end (b : Z) (o : outcome Z) (tr : list event) : Prop :=
  match o with
  | Done r => r = 0 /\ exists c1 c2 j1 j2,
      tr = [EvCall (Csys "pthread_create" [AS "deposit"]) c1;
            EvCall (Csys "pthread_create" [AS "withdraw"]) c2;
            EvCall (Csys "pthread_join" [AI (nth 0 (out c1) 0)]) j1;
            EvCall (Csys "pthread_join" [AI (nth 0 (out c2) 0)]) j2;
            EvOut stdout (cat ["Final balance: "; fmt_d b; nl])] /\ ret c1 = 0 /\ ret c2 = 0
  | Halt (HUB _) => no_thread "deposit" tr \/ no_thread "withdraw" tr
  | _ => False
  end.

Section Main.
Context {K : Type} {HK : Kernel K}.

Lemma no_identifier r :
  identifier r = None \/ identifier r = Some 0 -> ret r <> 0 \/ nth 0 (out r) 0 = 0.
Proof. unfold identifier. destruct (Z.eqb_spec (ret r) 0); [|by left]. right. by destruct H as [|[= ?]]. Qed.

Lemma wp_bank_join (t : option Z) (Q : outcome unit -> world K -> Prop) w :
  (forall u, t = None \/ t = Some 0 -> Q (Halt (HUB u)) w) ->
  (forall z r k, t = Some z -> z <> 0 ->
     Q (Done tt) (after (Csys "pthread_join" [AI z]) r k w)) ->
  wp (join t) Q w.
Proof.
  intros H0 HQ. destruct t as [[|z|z]|]; cbn [join]; [apply wp_halt; auto| | |apply wp_halt; auto];
    wp_seq; by apply HQ.
Qed.

Lemma wp_bank_good prg opt b (w : world K) :
  atoi opt = 0 ->
  wp (main [prg; opt] b) (fun o w' => exists tr, trace w' = trace w ++ tr /\ good_end b o tr) w.
Proof.
  intros E. unfold main. change (argc [prg; opt] <? 2) with false. cbn [arg_n nth]. rewrite E.
  change (0 =? 0) with true. unfold create. wp_seq. cbv iota beta. wp_seq. apply wp_bank_join.
  { intros u Hu. leaf. left. exists r. split; [ev_in|by apply no_identifier]. }
  intros z1 j1 k1 Hz1 Hn1. wp_seq. apply wp_bank_join.
  { intros u Hu. leaf. right. exists r0. split; [ev_in|by apply no_identifier]. }
  intros z2 j2 k2 Hz2 Hn2. wp_seq. leaf. split; [done|]. unfold identifier in *.
  destruct (Z.eqb_spec (ret r) 0); [|done]. destruct (Z.eqb_spec (ret r0) 0); [|done].
  simplify_eq. by exists r, r0, j1, j2.
Qed.

End Main.

(** The guarded program prints 0.  When the threads main creates run to their
    end, under any schedule, main prints "Final balance: 0" and returns 0; the
    only other ending is a join of an identifier that pthread_create did not
    provide. *)
Theorem bank_prints_zero {K} `{Kernel K} n prg opt l s (w : world K) :
  0 <= n -> atoi opt = 0 ->
  schedule n false l (start n false) = Some s -> stuck n false s ->
  exists o w' tr, main [prg; opt] (balance s) w = (o, w') /\ trace w' = trace w ++ tr /\
    good_end 0 o tr.
Proof.
  intros Hn Hopt E Hs. destruct (bank_end n l s Hn E Hs) as [_ ->].
  destruct (wp_run _ _ _ (wp_bank_good prg opt 0 w Hopt)) as (o & w' & E' & tr & H'). by exists o, w', tr.
Qed.

Lemma bank_prints_zero_witness :
  exists o w' tr,
    main ["bank"; "0"] (balance (State 0 None Return Return))
      (World [Resp 0 0 [7]; Resp 0 0 [8]; Resp 0 0 []; Resp 0 0 []] 0 []) = (o, w') /\
    trace w' = [] ++ tr /\ good_end 0 o tr.
Proof.
  apply (bank_prints_zero 2 "bank" "0" (replicate 8 Depositor ++ replicate 8 Withdrawer)
           (State 0 None Return Return)); [lia|by vm_compute..|by intros []].
Defined.

(** The two-thread program run to its end. *)
Lemma bank_prints_zero_run :
  main ["bank"; "0"] 0 (World [Resp 0 0 [7]; Resp 0 0 [8]; Resp 0 0 []; Resp 0 0 []] 0 [])
    = (Done 0, World [] 0
        [EvCall (Csys "pthread_create" [AS "deposit"]) (Resp 0 0 [7]);
         EvCall (Csys "pthread_create" [AS "withdraw"]) (Resp 0 0 [8]);
         EvCall (Csys "pthread_join" [AI 7]) (Resp 0 0 []);
         EvCall (Csys "pthread_join" [AI 8]) (Resp 0 0 []);
         EvOut stdout (cat ["Final balance: "; "0"; nl])]).
Proof. by vm_compute. Qed.
