(* ===== verification/Mmap.v ===== *)
(** src/ipc/mmap_ipc: mmap_fileio/mmap_fileio.c copies a file through two mappings,
    mmap_simple/mmap_simple.c dumps a part of a mapped file.  Mapped memory belongs
    to the kernel: mmap answers with the bytes it shows, and a copy between two
    mappings is a call. *)
From S2P Require Import Prelude CMonad CLib Decimal Common Restart FileSys FileCopy.

(** ** mmap_fileio.c *)

Module FileIo.

Section Code.
Context {K : Type} {HK : Kernel K}.

Definition main (fuel : nat) (argv : list string) : C K Z :=
  (if negb (argc argv =? 3) then
     fprintf stderr (cat ["Usage: "; arg_n argv 0; " source-file dest-file"; nl]);; exit 1
   else mret tt);;
  fd_from ← r_open2 fuel (arg_n argv 1) O_RDONLY;
  fail_if (-1 =? fd_from) "open: src file";;
  fd_to ← r_open3 fuel (arg_n argv 2) O_DEST DEST_MODE;
  fail_if (-1 =? fd_to) "open: dest file";;
  s ← syscall (Csys "stat" [AS (arg_n argv 1)]);
  fail_if (ret s =? -1) "stat";;
  let len := nth 0 (out s) 0 in
  (if len =? 0 then
     fprintf stderr (cat [arg_n argv 0; ": source-file "; arg_n argv 1;
                          " size is zero bytes, aborting..."; nl]);;
     exit 1
   else mret tt);;
  sys "lseek" [AI fd_to; AI (len - 1); AI 0];;
  n ← syscall (Cwrite fd_to [0]);
  fail_if (ret n <? 0) "write: to fd_to for 1 byte at eof failed";;
  data_src ← sys "mmap" [AI len; AS "PROT_READ"; AS "MAP_PRIVATE"; AI fd_from];
  fail_if (data_src =? -1) "mmap: to src file";;
  data_dest ← sys "mmap" [AI len; AS "PROT_READ|PROT_WRITE"; AS "MAP_SHARED"; AI fd_to];
  fail_if (data_dest =? -1) "mmap: to dest file";;
  sys "memcpy" [AI data_dest; AI data_src; AI len];;
  exit 0.

End Code.

(** *** On a file system *)

(** The byte main writes first makes the destination as long as the source. *)
Lemma extended (cs old : list Z) : cs <> [] ->
  cs ++ zdrop (zlen cs) (pwrite old (zlen cs - 1) [0]) = cs ++ zdrop (zlen cs) old.
Proof.
  intros Hc. f_equal. pose proof (zlen_nonneg cs). assert (zlen cs <> 0) by (intros ?%zlen_0; done).
  unfold pwrite. rewrite app_assoc. change (zlen [0]) with 1.
  set (front := ztake (zlen cs - 1) _ ++ [0]).
  assert (zlen front = zlen cs) as Hf.
  { unfold front. rewrite zlen_snoc, zlen_ztake; [lia|]. rewrite zlen_app, zlen_replicate. lia. }
  unfold zdrop at 1. rewrite drop_app_length' by (unfold zlen in *; lia).
  f_equal. lia.
Qed.

(** [s] is the source when main copies it: it has lost its last byte if it is the
    destination too. *)
Lemma wp_fs_mmap fuel prg src dst (i j : nat) cs old (w : world fs) (Q : outcome Z -> world fs -> Prop) :
  dir (kern w) !! src = Some i -> inodes (kern w) !! i = Some cs -> cs <> [] ->
  target dst j old (kern w) -> 0 <= next (kern w) ->
  (forall w' s, let c := pwrite old (zlen cs - 1) [0] in
     dir (kern w') !! src = Some i -> dir (kern w') !! dst = Some j ->
     inodes (kern w') !! j = Some (pwrite c 0 (ztake (zlen cs) s)) ->
     (i <> j -> s = cs /\ inodes (kern w') !! i = Some cs) -> (i = j -> s = c) ->
     Q (Halt (HExit 0)) w') ->
  wp (main (S fuel) [prg; src; dst]) Q w.
Proof.
  intros Hsrc Hi Hcs Htgt Hnext HQ. pose proof (zlen_nonneg cs).
  assert (zlen cs <> 0) by (intros ?%zlen_0; done).
  unfold main. change (argc [prg; src; dst] =? 3) with true.
  cbn [negb arg_n nth]. unfold r_open2, r_open3, fail_if. wp_call.
  eapply wp_fs_restart; [by apply open_source|left; cbn; lia|]. cbn [post]. wp_call.
  cbn [ret]. destruct (Z.eqb_spec (-1) (next (kern w))); [lia|]. wp_call.
  destruct (open_target src dst O_DEST i j cs old (kern w)) as (k2 & E2 & Ho & Hj2 & Hi2 & Hn2); [done..|].
  eapply wp_fs_restart; [exact E2|left; cbn; lia|]. cbn [post ret]. wp_call.
  destruct (Z.eqb_spec (-1) (next (kern w) + 1)); [lia|]. wp_call. eapply wp_fs_call.
  { cbn [kern after]. unfold fs_kernel, do_stat. rewrite (o_src _ _ _ _ _ _ _ _ _ Ho). cbn [mbind option_bind].
    by rewrite Hi2. }
  cbn [post ret out]. change (0 =? -1) with false. wp_call. cbn [nth].
  destruct (Z.eqb_spec (zlen cs) 0); [done|]. wp_call. eapply wp_fs_call.
  { cbn [kern after]. unfold fs_kernel, do_lseek. by rewrite (o_to _ _ _ _ _ _ _ _ _ Ho). }
  cbn [post]. wp_call. set (to := next (kern w) + 1) in *. set (from := next (kern w)) in *.
  apply (opened_to _ _ _ _ _ _ _ _ (zlen cs - 1)) in Ho. eapply wp_fs_call.
  { cbn [kern after]. unfold fs_kernel, do_write. erewrite file_of_to by done. reflexivity. }
  cbn [post ret]. change (zlen [0] <? 0) with false. wp_call.
  set (c := pwrite old (zlen cs - 1) [0]) in *.
  set (k4 := set_fd to j _ _). assert (Ho4 : opened src dst from to i j 0 (zlen cs - 1 + zlen [0]) k4).
  { eapply opened_to, opened_inode, Ho. }
  assert (exists s, inodes k4 !! i = Some s /\ (i <> j -> s = cs) /\ (i = j -> s = c)) as (s & Hs & Hs1 & Hs2).
  { unfold k4. cbn. destruct (decide (i = j)) as [->|Hij].
    - rewrite lookup_insert_eq. by exists c.
    - rewrite lookup_insert_ne by done. by exists cs. }
  assert (Hc : inodes k4 !! j = Some c) by (unfold k4; cbn; by rewrite lookup_insert_eq).
  assert (Hn4 : next k4 = from + 2) by (unfold k4; cbn; done).
  eapply wp_fs_call.
  { cbn [kern after]. unfold fs_kernel, do_mmap. erewrite file_of_from by done. reflexivity. }
  cbn [post ret]. wp_call. destruct (Z.eqb_spec (next k4) (-1)); [lia|]. wp_call. eapply wp_fs_call.
  { cbn [kern after]. unfold fs_kernel, do_mmap. erewrite file_of_to; [|by eapply opened_map|done]. reflexivity. }
  cbn [post ret]. wp_call. destruct (Z.eqb_spec (next (new_map i (zlen cs) k4)) (-1)); [cbn in *; lia|].
  wp_call. eapply wp_fs_call.
  { cbn [kern after]. unfold fs_kernel, do_memcpy, mapped. cbn [maps new_map next inodes].
    rewrite lookup_insert_eq, (lookup_insert_ne _ (next k4 + 1)), lookup_insert_eq by lia.
    cbn [mbind option_bind]. rewrite Hs, Hc. reflexivity. }
  cbn [post]. wp_call. apply (HQ _ s); cbn [kern after dir inodes set_inode new_map].
  - apply Ho4.
  - apply Ho4.
  - by rewrite lookup_insert_eq.
  - intros Hij. split; [auto|]. rewrite lookup_insert_ne by done. rewrite Hs. f_equal. auto.
  - done.
Qed.

Lemma wp_fs_mmap_apart fuel prg src dst (i j : nat) cs old (w : world fs) :
  dir (kern w) !! src = Some i -> inodes (kern w) !! i = Some cs -> cs <> [] ->
  target dst j old (kern w) -> i <> j -> 0 <= next (kern w) ->
  wp (main (S fuel) [prg; src; dst]) (fun o w' => o = Halt (HExit 0) /\
    contents (kern w') dst = Some (cs ++ zdrop (zlen cs) old) /\ contents (kern w') src = Some cs) w.
Proof.
  intros H1 H2 Hcs H4 Hij H6. eapply wp_fs_mmap; [done..|]. cbv zeta.
  intros w' s Hs Hd Hj Ha _. destruct (Ha Hij) as [-> Hi]. split; [done|].
  unfold contents. rewrite Hs, Hd. cbn [mbind option_bind]. rewrite Hj, Hi. split; [|done].
  by rewrite ztake_all, pwrite_front, extended by (lia || done).
Qed.

(** The file written over itself: the byte that makes the destination long enough
    has replaced the last byte. *)
Lemma self_copy cs : cs <> [] ->
  let c := pwrite cs (zlen cs - 1) [0] in
  pwrite c 0 (ztake (zlen cs) c) = ztake (zlen cs - 1) cs ++ [0].
Proof.
  intros Hc c. pose proof (zlen_nonneg cs). assert (zlen cs <> 0) by (intros ?%zlen_0; done).
  assert (Ec : c = ztake (zlen cs - 1) cs ++ [0]).
  { unfold c, pwrite. change (zlen [0]) with 1. rewrite (zdrop_all _ cs) by lia.
    replace (Z.to_nat (zlen cs - 1 - zlen cs)) with 0%nat by lia. cbn [replicate].
    by rewrite !app_nil_r. }
  assert (zlen c = zlen cs) as Hz by (rewrite Ec, zlen_snoc, zlen_ztake; lia).
  rewrite pwrite_front, ztake_all, zdrop_all, app_nil_r by lia. done.
Qed.

End FileIo.

(** The mapped copy on a file system.  When the source is a file that is not
    empty, the program exits with 0.  If the destination is another file or none
    yet, its front is then the source's bytes and what it had after that length is
    still there.  If it is the source itself, the last byte of the file is lost. *)
Theorem mmap_file fuel prg src dst (i j : nat) cs old (w : world fs) :
  dir (kern w) !! src = Some i -> inodes (kern w) !! i = Some cs -> cs <> [] ->
  target dst j old (kern w) -> 0 <= next (kern w) ->
  exists w', FileIo.main (S fuel) [prg; src; dst] w = (Halt (HExit 0), w') /\
    (i <> j -> contents (kern w') dst = Some (cs ++ zdrop (zlen cs) old) /\
               contents (kern w') src = Some cs) /\
    (i = j -> contents (kern w') src = Some (ztake (zlen cs - 1) cs ++ [0])).
Proof.
  intros H1 H2 Hcs H4 H6. destruct (decide (i = j)) as [<-|Hij].
  - enough (wp (FileIo.main (S fuel) [prg; src; dst]) (fun o w' => o = Halt (HExit 0) /\
      contents (kern w') src = Some (ztake (zlen cs - 1) cs ++ [0])) w)
      as (o & w' & E & -> & H')%wp_run by (by exists w').
    eapply FileIo.wp_fs_mmap; [done..|]. cbv zeta. intros w' s Hs _ Hi _ Hself. split; [done|].
    unfold contents. rewrite Hs. cbn [mbind option_bind]. rewrite Hi, (Hself eq_refl).
    assert (old = cs) as ->.
    { destruct H4 as [[_ ?]|(_ & -> & _)]; [congruence|]. exfalso.
      apply (is_fresh (dom (inodes (kern w)))). by apply elem_of_dom. }
    by rewrite FileIo.self_copy.
  - destruct (wp_run _ _ _ (FileIo.wp_fs_mmap_apart fuel prg src dst i j cs old w H1 H2 Hcs H4 Hij H6))
      as (o & w' & E & -> & H'). by exists w'.
Qed.

Lemma mmap_file_witness :
  exists w', FileIo.main 2 ["copy"; "a"; "b"] (World two_files 0 []) = (Halt (HExit 0), w') /\
    (0%nat <> 1%nat -> contents (kern w') "b" = Some ([1; 2; 3] ++ zdrop (zlen [1; 2; 3]) [9; 9; 9; 9]) /\
               contents (kern w') "a" = Some [1; 2; 3]) /\
    (0%nat = 1%nat -> contents (kern w') "a" = Some (ztake (zlen [1; 2; 3] - 1) [1; 2; 3] ++ [0])).
Proof.
  apply (mmap_file 1 "copy" "a" "b" 0 1 [1; 2; 3] [9; 9; 9; 9] (World two_files 0 [])); try done.
  by left.
Defined.



(** ** mmap_simple.c *)

Module Simple.

Definition MAX_NUMERALS : Z := 20.

Section Code.
Context {K : Type} {HK : Kernel K}.

(** [snprintf(temp, MAX_NUMERALS, "+%06d", off)] *)
Definition temp_of (off : Z) : list Z := bytes_of (snprintf MAX_NUMERALS ("+" +:+ fmt_0wd 6 off)).

(** The label of the line at [i]: seven bytes of [temp]. *)
Definition label (offset i : Z) : C K (list Z) :=
  if INT_MAX <? i + offset then undefined (UB_overflow "i+offset")
  else mret (take 7 (temp_of (i + offset))).

Definition hex_dump_iter (offset : Z) : list Z -> Z -> Z * Z * mem -> C K ((Z * Z * mem) + (Z * mem)) :=
  dump_iter (label offset).

(** [buffer[i] = temp[i]] *)
Definition put (temp : mem) (i : Z) (buffer : mem) : C K mem :=
  t ← rd "temp" temp i; wr "buffer" buffer i t.

(** [data] is the memory from the argument on; [addr] is the text [%p] prints for it. *)
Definition hex_dump (data : list Z) (offset size : Z) (caption : option string) (verbose : Z)
    (addr : string) : C K unit :=
  buffer ← memset "buffer" (uninit 128) 0 0 128;
  match caption with
  | Some cap =>
      when (negb (verbose =? 0))
        (printf (cat ["---------> "; cap; " <--------- ("; fmt_d size; " bytes from ";
                      addr; ")"; nl]))
  | None => mret tt
  end;;
  printf ruler;;
  buffer ← memset "buffer" buffer 0 32 (58 + 16);
  let temp := init (temp_of offset ++ [0]) in
  buffer ← wr "buffer" buffer (58 + 16) 10;
  buffer ← wr "buffer" buffer (58 + 17) 0;
  buffer ← wr "buffer" buffer 0 43;
  buffer ← put temp 1 buffer;
  buffer ← put temp 2 buffer;
  buffer ← put temp 3 buffer;
  buffer ← put temp 4 buffer;
  buffer ← put temp 5 buffer;
  buffer ← put temp 6 buffer;
  '(j, buffer) ← loop (S (Z.to_nat size)) (hex_dump_iter offset data size) (0, 0, buffer);
  if negb (j =? 0) then
    line ← cstr "buffer" buffer 0;
    printf (text_of line)
  else mret tt.

(** [(off < 0) || ((off+len) > fsz)]; the sum is a signed one. *)
Definition out_of_range (off len fsz : Z) : C K bool :=
  if off <? 0 then mret true
  else if LONG_MAX <? off + len then undefined (UB_overflow "off+len")
  else mret (fsz <? off + len).

(** fstat stores the size of the file, mmap answers with the address and the bytes
    it shows there. *)
Definition main (fuel : nat) (argv : list string) : C K Z :=
  (if negb (argc argv =? 4) then
     fprintf stderr (cat ["Usage: "; arg_n argv 0; " source-file start_offset length"; nl]);; exit 1
   else mret tt);;
  fd_from ← r_open2 fuel (arg_n argv 1) O_RDONLY;
  fail_if (-1 =? fd_from) "open: src file";;
  s ← syscall (Csys "fstat" [AI fd_from]);
  fail_if (ret s =? -1) "fstat";;
  let fsz := nth 0 (out s) 0 in
  (if 0 =? fsz then
     fprintf stderr (cat [arg_n argv 0; ": source-file "; arg_n argv 1;
                          " size is zero bytes, aborting..."; nl]);;
     exit 1
   else mret tt);;
  let len := atol (arg_n argv 3) in
  (if len <=? 0 then
     fprintf stderr (cat [arg_n argv 0; ": invalid length "; fmt_d len; ", aborting..."; nl]);; exit 1
   else mret tt);;
  let off := atol (arg_n argv 2) in
  bad ← out_of_range off len fsz;
  (if (bad : bool) then
     fprintf stderr (cat [arg_n argv 0; ": invalid offset or offset/length combination, aborting..."; nl]);;
     exit 1
   else mret tt);;
  m ← syscall (Csys "mmap" [AI fsz; AS "PROT_READ"; AS "MAP_PRIVATE"; AI fd_from]);
  fail_if (ret m =? -1) "mmap: to src file";;
  hex_dump (zdrop off (out m)) (to_int off) (to_int len) (Some "Data") 0 (fmt_p (ret m + off));;
  r ← sys "msync" [AI (ret m); AI len; AS "MS_SYNC"];
  (if r <? 0 then perror "mysnc" else mret tt);;
  r ← sys "munmap" [AI (ret m); AI len];
  fail_if (r =? -1) "munmap";;
  syscall (Cclose fd_from);;
  exit 0.

End Code.

(** *** The dump *)

(** The label of the line at [i]: seven characters of the offset in decimal. *)
Definition dec_label (offset i : Z) : list Z := take 7 (43 :: bytes_of (fmt_0wd 6 (i + offset))).

Lemma isdigit_nz b : isdigit b = true -> b <> 0.
Proof. unfold isdigit. lia. Qed.

Lemma dec_label_fits offset i : 0 <= i + offset ->
  (length (dec_label offset i) <= 8)%nat /\ nonzero (dec_label offset i).
Proof.
  intros H. destruct (fmt_0wd_dec 6 (i + offset) H) as (Hd & _). split.
  - unfold dec_label. rewrite length_take. lia.
  - apply Forall_take. constructor; [done|]. eapply Forall_impl; [exact Hd|]. apply isdigit_nz.
Qed.

(** The label is the offset exactly below a million; from there on its last digits
    are cut. *)
Lemma dec_label_value offset i : 0 <= i + offset < 1000000 ->
  digits_val 0 (drop 1 (dec_label offset i)) = i + offset.
Proof.
  intros H. destruct (fmt_0wd_dec 6 (i + offset)) as (_ & Hv & _ & Hn); [lia|].
  unfold dec_label. rewrite take_ge; [done|]. cbn [length].
  rewrite <- zlen_bytes_of in Hn. unfold zlen in Hn. lia.
Qed.

Lemma dec_label_cut : dec_label 1000000 0 = dec_label 1000000 9.
Proof. by vm_compute. Qed.

Lemma temp_of_digits offset : 0 <= offset <= INT_MAX ->
  temp_of offset = 43 :: bytes_of (fmt_0wd 6 offset) /\
  (6 <= length (bytes_of (fmt_0wd 6 offset)))%nat.
Proof.
  intros H. destruct (fmt_0wd_dec 6 offset) as (_ & _ & Hw & _); [lia|].
  assert (strlen (fmt_0wd 6 offset) <= 10) as Hs.
  { unfold fmt_0wd. destruct (Z.ltb_spec offset 0); [lia|]. unfold padl.
    destruct (fmt_d_dec offset) as (_ & _ & _ & Hn); [lia|].
    rewrite strlen_app, <- (zlen_bytes_of (rep _ _)), bytes_of_rep, zlen_replicate by done.
    specialize (Hn 10). unfold INT_MAX, strlen in *. lia. }
  unfold temp_of. rewrite snprintf_all by (rewrite strlen_app; change (strlen "+") with 1; unfold MAX_NUMERALS; lia).
  split; [by rewrite bytes_of_app|]. rewrite <- zlen_bytes_of in Hw. unfold zlen in Hw. lia.
Qed.

Section Dump.
Context {K : Type} {HK : Kernel K}.

Lemma label_run offset i (w : world K) : 0 <= i + offset <= INT_MAX ->
  label offset i w = (Done (dec_label offset i), w).
Proof.
  intros H. unfold label. destruct (Z.ltb_spec INT_MAX (i + offset)); [lia|].
  unfold dec_label. by rewrite (proj1 (temp_of_digits _ H)).
Qed.

Lemma wp_put temp i buffer t (Q : outcome mem -> world K -> Prop) w :
  znth temp i = Some (Some t) -> 0 <= i < zlen buffer ->
  Q (Done (zset buffer i (Some t))) w -> wp (put temp i buffer) Q w.
Proof. intros. unfold put. wp_step. eapply wp_rd; [done|]. cbn [post]. by apply wp_wr. Qed.

(** hex_dump of [data], which lies [offset] bytes into the file. *)
Lemma wp_simple_hex_dump data beyond offset size addr (Q : outcome unit -> world K -> Prop) w :
  Forall byte_ok data -> size = zlen data -> 0 <= offset <= INT_MAX -> offset + zlen data <= INT_MAX + 1 ->
  Q (Done tt) (World (kern w) (errno w) (trace w ++ EvOut stdout ruler
     :: map (EvOut stdout) (dump_lines (dec_label offset) data))) ->
  wp (hex_dump (data ++ beyond) offset size (Some "Data") 0 addr) Q w.
Proof.
  intros Hb -> Ho Hs HQ. destruct (temp_of_digits offset Ho) as [Et Hl].
  unfold hex_dump. rewrite Et. wp_step. unfold memset at 1.
  apply wp_copy_in; [done|done|]. cbn [post]. change (negb (0 =? 0)) with false. wp_call.
  unfold memset. apply wp_copy_in; [done|done|]. cbn [post].
  assert (El : dec_label offset 0 = 43 :: take 6 (bytes_of (fmt_0wd 6 offset))) by done.
  destruct (bytes_of (fmt_0wd 6 offset)) as [|d1 [|d2 [|d3 [|d4 [|d5 [|d6 rest]]]]]]; cbn in Hl; try lia.
  do 3 (wp_step; apply wp_wr; [by vm_compute|]; cbn [post]).
  do 6 (wp_step; eapply wp_put; [by vm_compute|by vm_compute|]; cbn [post]).
  match goal with |- context [(0, 0, ?b)] =>
    replace b with (line_buf (dump_line (dec_label offset 0) [])) by (by rewrite El) end.
  apply (wp_dump_body data Hb beyond _ (dec_label offset)).
  - intros i Hi. apply dec_label_fits. lia.
  - intros i w' Hi. apply label_run. lia.
  - cbn [kern errno trace]. by rewrite <- app_assoc.
Qed.

End Dump.

(** *** main *)

(** What the program printed on its standard output. *)
Definition shown1 (e : event) : list string := match e with EvOut stdout t => [t] | _ => [] end.
Definition shown (tr : list event) : list string := concat (map shown1 tr).

Lemma shown_app t1 t2 : shown (t1 ++ t2) = shown t1 ++ shown t2.
Proof. unfold shown. by rewrite map_app, concat_app. Qed.

Lemma shown_lines l : shown (map (EvOut stdout) l) = l.
Proof. induction l as [|x l IH]; [done|]. unfold shown in *. cbn. by rewrite IH. Qed.

(** mmap shows as many bytes as it was asked to map. *)
Definition mmap_shows (K : Type) `{Kernel K} : Prop :=
  forall n prot flags fd (k k' : K) r,
    kstep (Csys "mmap" [AI n; AS prot; AS flags; AI fd]) k = (r, k') -> ret r <> -1 ->
    zlen (out r) = n /\ Forall byte_ok (out r).

(** Nothing was printed, or exactly the lines of the bytes asked for. *)
Definition dump_end (off len : Z) (o : outcome Z) (tr : list event) : Prop :=
  exists c, o = Halt (HExit c) /\
  ((c = 1 /\ shown tr = []) \/
   ((c = 0 \/ c = 1) /\ exists fsz fd m,
      EvCall (Csys "mmap" [AI fsz; AS "PROT_READ"; AS "MAP_PRIVATE"; AI fd]) m ∈ tr /\
      0 <= off /\ 0 < len /\ off + len <= fsz /\ zlen (out m) = fsz /\
      shown tr = ruler :: dump_lines (dec_label off) (ztake len (zdrop off (out m))))).

Lemma shown_restarted c tr r : restarted c tr r -> shown tr = [].
Proof. intros (ints & _ & _ & ->). induction (ints ++ [r]) as [|x l IH]; [done|]. exact IH. Qed.

(** The part of a mapping that is dumped, and what lies after it. *)
Lemma split_mapping (l : list Z) off len :
  Forall byte_ok l -> 0 <= off -> 0 <= len -> off + len <= zlen l ->
  exists d beyond, ztake len (zdrop off l) = d /\ zdrop off l = d ++ beyond /\ len = zlen d /\
    Forall byte_ok d.
Proof.
  intros Hb Ho Hl Hs. exists (ztake len (zdrop off l)), (zdrop len (zdrop off l)).
  split; [done|]. split; [by rewrite ztake_zdrop|]. split; [|by apply Forall_take, Forall_drop].
  rewrite zlen_ztake; [done|]. rewrite zlen_zdrop; lia.
Qed.

Section Main.
Context {K : Type} {HK : Kernel K} {HP : PosixKernel K} {HL : LiveKernel K}.

(** After the dump: the mapping and the file are given up. *)
Lemma wp_simple_finish m len fd (w : world K) :
  wp (r ← sys "msync" [AI m; AI len; AS "MS_SYNC"];
      (if r <? 0 then perror "mysnc" else mret tt);;
      r ← sys "munmap" [AI m; AI len];
      fail_if (r =? -1) "munmap";;
      syscall (Cclose fd);;
      exit 0)
     (fun o w' => exists c tr, o = (Halt (HExit c) : outcome Z) /\ (c = 0 \/ c = 1) /\
        trace w' = trace w ++ tr /\ shown tr = []) w.
Proof.
  unfold fail_if. wp_go; (eexists _, _; split; [done|]; split; [by auto|];
    split; [cbn [after trace]; rewrite <- ?app_assoc; reflexivity|done]).
Qed.

Lemma wp_simple_main fuel prg file offs lens (w : world K) :
  (patience (kern w) < fuel)%nat -> mmap_shows K -> atol offs + atol lens <= INT_MAX ->
  wp (main fuel [prg; file; offs; lens])
     (fun o w' => exists tr, trace w' = trace w ++ tr /\ dump_end (atol offs) (atol lens) o tr) w.
Proof.
  intros Hf Hm Hsz. unfold main. change (argc [prg; file; offs; lens] =? 4) with true.
  cbn [negb arg_n nth]. generalize dependent (atol offs). generalize dependent (atol lens).
  intros len off Hsz. unfold r_open2, fail_if. wp_call. apply wp_restart; [done|done|].
  intros op tr1 w1 k1 Hr1 _ Ht1 _ _ _. apply shown_restarted in Hr1 as Hs1. cbn [post].
  assert (Hquit : forall (w' : world K) tr, trace w' = trace w1 ++ tr -> shown tr = [] ->
    exists tr, trace w' = trace w ++ tr /\ dump_end off len (Halt (HExit 1)) tr).
  { intros w' tr Ht Hs. exists (tr1 ++ tr). split; [by rewrite Ht, Ht1, app_assoc|].
    exists 1. split; [done|]. left. split; [done|]. by rewrite shown_app, Hs1, Hs. }
  wp_call. destruct (-1 =? ret op); wp_call; [by eapply Hquit|].
  apply wp_syscall. intros r k2 _. cbn [post]. wp_call. destruct (ret r =? -1).
  { wp_call. eapply Hquit; [cbn [after trace]; by rewrite <- app_assoc|done]. }
  wp_call. destruct (Z.eqb_spec 0 (nth 0 (out r) 0)) as [E0|E0].
  { wp_call. eapply Hquit; [cbn [after trace]; by rewrite <- app_assoc|done]. }
  wp_call. destruct (Z.leb_spec len 0).
  { wp_call. eapply Hquit; [cbn [after trace]; by rewrite <- app_assoc|done]. }
  wp_call. unfold out_of_range. destruct (Z.ltb_spec off 0).
  { wp_call. eapply Hquit; [cbn [after trace]; by rewrite <- app_assoc|done]. }
  destruct (Z.ltb_spec LONG_MAX (off + len)); [unfold LONG_MAX, INT_MAX in *; lia|]. wp_call.
  set (fsz := nth 0 (out r) 0) in *. destruct (Z.ltb_spec fsz (off + len)).
  { wp_call. eapply Hquit; [cbn [after trace]; by rewrite <- app_assoc|done]. }
  wp_call. apply wp_syscall. intros m km Ekm. cbn [post]. wp_call. destruct (Z.eqb_spec (ret m) (-1)).
  { wp_call. eapply Hquit; [cbn [after trace]; by rewrite <- !app_assoc|done]. }
  wp_call. destruct (Hm _ _ _ _ _ _ _ Ekm) as [Hlm Hbm]; [done|].
  rewrite (to_int_id off), (to_int_id len) by (unfold INT_MAX, INT_MIN in *; lia).
  destruct (split_mapping (out m) off len) as (d & beyond & Ed & Hd & Hzl & Hbd); [done|lia..|].
  rewrite Hd. apply wp_simple_hex_dump; [done|done|lia|lia|].
  cbn [post]. eapply wp_mono; [|apply wp_simple_finish].
  intros o w' (c & tr & -> & Hc & Ht & Hs). cbn [after trace] in Ht.
  exists (tr1 ++ [EvCall (Csys "fstat" [AI (ret op)]) r;
     EvCall (Csys "mmap" [AI fsz; AS "PROT_READ"; AS "MAP_PRIVATE"; AI (ret op)]) m] ++
     (EvOut stdout ruler :: map (EvOut stdout) (dump_lines (dec_label off) d)) ++ tr).
  split. { rewrite Ht, Ht1, <- !(app_assoc (trace w)). f_equal. rewrite <- !app_assoc. done. }
  exists c. split; [done|]. right. split; [done|]. exists fsz, (ret op), m.
  split; [apply elem_of_app; right; ev_in|]. split_and!; [lia..|done|].
  rewrite !shown_app, Hs1, Hs, app_nil_r. cbn [app].
  change (shown (?x :: ?l)) with (shown1 x ++ shown l). cbn [shown1 app].
  by rewrite shown_lines, Ed.
Qed.

End Main.

End Simple.

(** The dump of a mapped file.  For an offset and a length within the first 2 GiB
    the program always exits, with 0 or 1; it prints nothing, or the ruler and
    exactly the lines of the bytes asked for, each labelled with its offset in the
    file; it stays inside its line buffer and inside the mapping. *)
Theorem mmap_simple_dumps {K} `{HL : LiveKernel K} fuel prg file offs lens (w : world K) :
  (patience (kern w) < fuel)%nat -> Simple.mmap_shows K -> atol offs + atol lens <= INT_MAX ->
  exists o w' tr,
    Simple.main fuel [prg; file; offs; lens] w = (o, w') /\ trace w' = trace w ++ tr /\
    Simple.dump_end (atol offs) (atol lens) o tr.
Proof.
  intros H1 H2 H3. destruct (wp_run _ _ _ (Simple.wp_simple_main fuel prg file offs lens w H1 H2 H3))
    as (o & w' & E & tr & H'). by exists o, w', tr.
Qed.

(** A kernel with one file of forty bytes, mapped as often as one likes. *)
Definition one_file : Kernel unit := fun c k =>
  (match c with
   | Cread _ n => if n <? 0 then Resp (-1) EINVAL [] else Resp 0 0 []
   | Cwrite _ d => Resp (zlen d) 0 []
   | Copen _ _ _ | Cmalloc _ => Resp 3 0 []
   | Csys "fstat" _ => Resp 0 0 [40]
   | Csys "mmap" (AI n :: _) =>
       if n <? 0 then Resp (-1) EINVAL [] else Resp 4096 0 (replicate (Z.to_nat n) 65)
   | Csys fn _ => Resp (if decide (fn ∈ ptr_calls) then 1 else 0) 0 []
   | _ => Resp 0 0 []
   end, k).

Lemma one_file_fails c k : call_failed c (ret (fst (one_file c k))) = true -> 0 < err (fst (one_file c k)).
Proof.
  unfold one_file. destruct c as [fd n|fd d|?| | | |fn args]; cbn [fst ret err call_failed]; try done.
  - by destruct (n <? 0).
  - destruct (Z.eqb_spec (zlen d) (-1)) as [E|]; [by apply zlen_neg in E|done].
  - repeat (case_match; simplify_eq/=; try done); cbn in *; case_decide; try done; set_solver.
Qed.

#[local] Instance one_file_posix : @PosixKernel unit one_file.
Proof.
  intros c k. split; [apply one_file_fails|]. unfold kstep.
  destruct c as [fd n|fd d| | | | |]; try done.
  - cbn. destruct (Z.ltb_spec n 0); cbn; [by left|right]. split; [lia|]. by split; [|constructor].
  - cbn. right. pose proof (zlen_nonneg d). lia.
  - cbn. by right.
Qed.

#[local] Program Instance one_file_live : @LiveKernel unit one_file one_file_posix :=
  {| patience k := 0%nat; pending fd k := 0%nat |}.
Next Obligation. done. Qed.
Next Obligation.
  intros c k. unfold kstep, one_file. destruct c as [fd n|fd d| | | | |fn args]; cbn [fst ret err]; try done.
  - destruct (n <? 0); [|done]. done.
  - repeat (case_match; simplify_eq/=; try done); case_decide; done.
Qed.
Next Obligation. done. Qed.
Next Obligation.
  intros fd n k. unfold kstep, one_file. by destruct (n <? 0).
Qed.
Next Obligation.
  intros fd d k Hd. unfold kstep, one_file. cbn [fst ret]. intros E. by apply zlen_0 in E.
Qed.

Lemma one_file_shows : @Simple.mmap_shows unit one_file.
Proof.
  intros n prot flags fd k k' r. unfold kstep, one_file. destruct (Z.ltb_spec n 0); intros [= <- <-] Hr.
  - done.
  - cbn [out]. rewrite zlen_replicate. split; [lia|]. by apply Forall_replicate.
Qed.

Lemma mmap_simple_dumps_witness :
  exists o w' tr,
    @Simple.main unit one_file 1 ["dump"; "file"; "7"; "20"] (World tt 0 []) = (o, w') /\
    trace w' = [] ++ tr /\ Simple.dump_end (atol "7") (atol "20") o tr.
Proof.
  apply (@mmap_simple_dumps unit one_file one_file_posix one_file_live 1 "dump" "file" "7" "20" (World tt 0 [])).
  - vm_compute. lia.
  - apply one_file_shows.
  - by vm_compute.
Defined.

(** There the program exits with 0 and prints two lines, labelled +000007 and +000023. *)
Lemma mmap_simple_run :
  let r := @Simple.main unit one_file 1 ["dump"; "file"; "7"; "20"] (World tt 0 []) in
  fst r = Halt (HExit 0) /\
  map (String.substring 0 7) (Simple.shown (trace (snd r))) = ["       "; "+000007"; "+000023"].
Proof. by vm_compute. Qed.
