(* ===== verification/Transfer.v ===== *)
(** The file transfer of src/ipc/net_sockets/zero_copy_sendfile/xfer_file.c from end
    to end: the server and the client, each on a kernel of its own, joined by a
    connection. *)
From S2P Require Import Prelude CMonad CLib Common Restart XferFile.

(** A TCP connection between descriptor [sc] of the client and [ss] of the server,
    as the two traces show it: the server's read takes the whole request; the client
    receives the server's bytes in order, and a read of its that returns 0 means that
    the server has closed the connection and that all of them have been received. *)
Record connected (contents : Z -> list Z) (sc : Z) (trc : list event) (ss : Z) (trs : list event)
    : Prop := Connected {
  request_arrives : forall req, EvCall (Cread ss PATH_MAX) req ∈ trs -> out req = accepted sc trc;
  reply_in_order : received sc trc `prefix_of` put contents ss trs;
  reply_ends : stops_at_eof sc trc -> received sc trc = put contents ss trs }.

(** The files the server opened for reading: read delivers the contents from the
    start and returns 0 at their end, fstat gives their length. *)
Record on_disk (contents : Z -> list Z) (trs : list event) : Prop := OnDisk {
  read_in_order : forall path op, EvCall (Copen path O_RDONLY 0) op ∈ trs ->
    received (ret op) trs `prefix_of` contents (ret op);
  read_to_end : forall path op, EvCall (Copen path O_RDONLY 0) op ∈ trs ->
    stops_at_eof (ret op) trs -> received (ret op) trs = contents (ret op);
  fstat_size : forall fd st, EvCall (Csys "fstat" [AI fd]) st ∈ trs -> 0 <= ret st ->
    nth 0 (out st) 0 = zlen (contents fd) }.

(** What the destination file of the client has got, in terms of the file the
    server opened: the whole file from the read/write loop; from sendfile the part
    that the one call, made for the whole file, sent. *)
Definition transferred (contents : Z -> list Z) (howto ss : Z) (file : string) (os : outcome Z)
    (trs trc : list event) : Prop :=
  exists dest, EvCall (Copen DESTFILE O_DEST 420) dest ∈ trc /\
  match os with
  | Done _ => exists src, EvCall (Copen file O_RDONLY 0) src ∈ trs /\
      (howto = TRADITIONAL /\ accepted (ret dest) trc = contents (ret src) \/
       howto = MODERN /\ exists sf,
         EvCall (Csys "sendfile" [AI ss; AI (ret src); AI 0; AI (zlen (contents (ret src)))]) sf ∈ trs /\
         accepted (ret dest) trc = ztake (ret sf) (contents (ret src)))
  | Halt (HExit c) => c = 1 /\
      (accepted (ret dest) trc = [] \/
       exists src, EvCall (Copen file O_RDONLY 0) src ∈ trs /\
         accepted (ret dest) trc `prefix_of` contents (ret src))
  | Halt (HUB u) => PATH_MAX <= strlen file
  | Halt _ => False
  end.

(** The name the server reads is the name the client sent. *)
Lemma request_is_name req name file :
  request_name req name -> out req = bytes_of file -> no_nul file -> text_of name = file.
Proof.
  unfold request_name, no_nul. intros Hn Ho Hf. rewrite Ho in Hn.
  pose proof (cstr_of_init (bytes_of file) [] Hf) as E. rewrite E in Hn. simplify_eq.
  apply text_of_bytes_of.
Qed.

(** The file the server opened is the one the client asked for. *)
Lemma asked_is_file contents sc trc ss trs file fd name :
  connected contents sc trc ss trs -> no_nul file -> accepted sc trc = bytes_of file ->
  asked ss trs fd name ->
  exists src, EvCall (Copen file O_RDONLY 0) src ∈ trs /\ fd = ret src.
Proof.
  intros [Hreq _ _] Hf Hsent (req & op & H1 & _ & Hn & Hopen & ->). exists op. split; [|done].
  rewrite <- (request_is_name req name file Hn); [done| |done]. by rewrite (Hreq req H1).
Qed.

Lemma link_ends contents howto sc trc ss trs file os :
  connected contents sc trc ss trs -> on_disk contents trs -> no_nul file ->
  served contents howto ss os trs -> saved sc file (Done tt) trc ->
  transferred contents howto ss file os trs trc.
Proof.
  intros Hconn [Hord Hend Hsize] Hf Hs (dest & Hin & Hsent & Hsaved & Heof). exists dest. split; [done|].
  rewrite Hsaved, (reply_ends _ _ _ _ _ Hconn Heof).
  destruct os as [z|[c| | | | | |u|]]; cbn [served] in Hs; try done.
  - destruct Hs as (_ & fd & name & Hask & Hall).
    destruct (asked_is_file _ _ _ _ _ _ _ _ Hconn Hf Hsent Hask) as (src & Hopen & ->).
    exists src. split; [done|].
    destruct Hall as [(-> & -> & He)|(-> & st & sf & Hst & Hst0 & Hsf & _ & ->)]; [left|right].
    + split; [done|]. by eapply Hend.
    + split; [done|]. exists sf. split; [|done]. by rewrite <- (Hsize _ _ Hst Hst0).
  - destruct Hs as [-> [Hs|(fd & name & Hask & Hpart)]]; (split; [done|]); [by left|right].
    destruct (asked_is_file _ _ _ _ _ _ _ _ Hconn Hf Hsent Hask) as (src & Hopen & ->).
    exists src. split; [done|]. destruct Hpart as [(_ & Hp & _)|[_ Hp]]; [|done].
    etrans; [exact Hp|]. by eapply Hord.
  - destruct Hs as (_ & req & H1 & _ & Hlen).
    rewrite (request_arrives _ _ _ _ _ Hconn req H1), Hsent, zlen_bytes_of in Hlen. lia.
Qed.


(** A server whose first read delivers the five bytes of the request, with pages of
    four bytes, and a client that is sent the contents in pieces of five bytes. *)
Definition server_world : world pipe := World (Pipe (bytes_of "fstab" ++ bytes_of "some text") [] [] 4) 0 [].
Definition client_world : world pipe := World (Pipe (bytes_of "some text") [] [false; true; false; true] 4) 0 [].
Definition file_world (fd : Z) : list Z := if fd =? 3 then bytes_of "some text" else [].


(** These two runs are connected and the disk is as read, so the hypotheses of the
    last part hold of them, and both return. *)
Lemma transfer_connected :
  let s := process_client 4 100 false 4 TRADITIONAL "svr" server_world in
  let c := client 4 100 "cli" "fstab" false 5 client_world in
  fst s = Done 0 /\ fst c = Done tt /\
  connected file_world 5 (trace (snd c)) 4 (trace (snd s)) /\ on_disk file_world (trace (snd s)).
Proof.
  cbv zeta.
  assert (Hs : Forall (fun e => match e with
      | EvCall (Cread 4 4096) r => out r = bytes_of "fstab"
      | EvCall (Copen _ _ _) r => ret r = 3
      | EvCall (Csys "fstat" _) _ => False
      | _ => True end)
    (trace (snd (process_client 4 100 false 4 TRADITIONAL "svr" server_world))))
    by (vm_compute; repeat constructor).
  rewrite Forall_forall in Hs.
  assert (Hr : received 3 (trace (snd (process_client 4 100 false 4 TRADITIONAL "svr" server_world)))
               = bytes_of "some text") by (by vm_compute).
  split; [by vm_compute|]. split; [by vm_compute|]. split.
  - split; [|exists []; by vm_compute|intros _; by vm_compute].
    intros req Hin. specialize (Hs _ Hin). cbn in Hs. rewrite Hs. by vm_compute.
  - split.
    + intros path op Hin. specialize (Hs _ Hin). cbn in Hs. rewrite Hs, Hr. done.
    + intros path op Hin _. specialize (Hs _ Hin). cbn in Hs. rewrite Hs, Hr. done.
    + intros fd st Hin. specialize (Hs _ Hin). cbn in Hs. destruct Hs.
Qed.
