(* ===== verification/Pipe2.v ===== *)
(** src/ipc/pipes/unnamed_pipes/pipe2.c: a parent sends a line of input to its child
    over a pipe.  The two processes are separate runs after fork; the last theorem
    joins them. *)
From S2P Require Import Prelude CMonad CLib Common Restart.

Definition LINE : Z := 80.
Definition SIGPIPE : Z := 13.

Section Code.
Context {K : Type} {HK : Kernel K}.

Definition pipe_broke (sig : Z) : C K unit :=
  printf (cat ["In SIGPIPE signal handler::pipe_broke: signal "; fmt_d sig; nl]).

(** fgets stores a line and its NUL; when it fails [line] stays as it was. *)
Definition parent (child_exit_flag : bool) (fd0 fd1 : Z) : C K Z :=
  (if child_exit_flag then
     r ← sys "wait" [];
     if r =? -1 then perror "parent: wait failed";; exit 1 else mret tt
   else mret tt);;
  syscall (Cclose fd0);;
  printf "Enter line: ";;
  l ← syscall (Csys "fgets" [AI LINE; AS "stdin"]);
  line ← (if ret l =? 0 then mret (uninit LINE)
          else copy_in "line" (uninit LINE) 0 (out l ++ [0]));
  printf (cat ["Writing your line to child with pipe..."; nl]);;
  text ← cstr "line" line 0;
  w ← syscall (Cwrite fd1 text);
  let n := ret w in
  (if n =? -1 then perror "parent:write failed" else mret tt);;
  printf (cat ["write: "; fmt_d n; " bytes written"; nl]);;
  syscall (Cclose fd1);;
  sys "wait" [];;
  exit 0.

Definition child (child_exit_flag : bool) (fd0 fd1 : Z) : C K Z :=
  if child_exit_flag then exit 1
  else
    syscall (Cclose fd1);;
    r ← syscall (Cread fd0 LINE);
    let n := ret r in
    buffer ← (if n =? -1 then mret (uninit LINE) else copy_in "buffer" (uninit LINE) 0 (out r));
    buffer ← wr "buffer" buffer n 0;
    text ← cstr "buffer" buffer 0;
    fprintf stderr (cat ["Child: your line was "; text_of text; nl]);;
    syscall (Cclose fd0);;
    exit 0.

(** pipe stores the two descriptors. *)
Definition main (argv : list string) : C K Z :=
  (if argc argv <? 2 then
     fprintf stderr (cat ["Usage: "; arg_n argv 0; " child_exit_flag=[0]|1"; nl;
       "where child_exit_flag = 0 : normal execution (default)"; nl;
       "child_exit_flag = 1 : child process dies immd. (resulting in SIGPIPE to parent)"; nl]);;
     exit 1
   else mret tt);;
  let child_exit_flag := (argc argv =? 2) && (atoi (arg_n argv 1) =? 1) in
  a ← sys "sigaction" [AI SIGPIPE; AS "pipe_broke"; AS "SA_RESTART"];
  (if a =? -1 then perror "sigaction failed";; exit 1 else mret tt);;
  fprintf stderr (cat ["Now creating pipe.."; nl]);;
  p ← syscall (Csys "pipe" []);
  (if negb (ret p =? 0) then perror (arg_n argv 0);; exit 1 else mret tt);;
  pid ← sys "fork" [];
  (if pid <? 0 then perror (arg_n argv 0);; exit 1 else mret tt);;
  if negb (pid =? 0) then parent child_exit_flag (nth 0 (out p) 0) (nth 1 (out p) 0)
  else child child_exit_flag (nth 0 (out p) 0) (nth 1 (out p) 0).

End Code.

(** ** The child *)

Definition line_text (text : list Z) : event :=
  EvOut stderr (cat ["Child: your line was "; text_of text; nl]).

(** The endings of the child: one byte too far when the read fills the buffer, one
    before it when the read fails. *)
Definition child_end (fd0 : Z) (o : outcome Z) (tr : list event) : Prop :=
  exists r, EvCall (Cread fd0 LINE) r ∈ tr /\
  match o with
  | Halt (HExit c) => c = 0 /\ 0 <= ret r < LINE /\ received fd0 tr = out r /\
      exists text, cstr_of (init (out r) ++ [Some 0]) = Some text /\ line_text text ∈ tr
  | Halt (HUB u) => u = UB_bounds "buffer" (ret r) /\ (ret r = LINE \/ ret r = -1)
  | _ => False
  end.

Lemma received_cons_other fd e tr :
  match e with EvCall (Cread _ _) _ => False | _ => True end -> received fd (e :: tr) = received fd tr.
Proof. intros. unfold received. cbn. by destruct e as [[]| | |]. Qed.

Lemma received_read fd n r tr :
  0 <= ret r -> zlen (out r) = ret r -> received fd (EvCall (Cread fd n) r :: tr) = out r ++ received fd tr.
Proof.
  intros H1 H2. unfold received. cbn. rewrite Z.eqb_refl. cbn [andb].
  destruct (Z.ltb_spec 0 (ret r)).
  - by rewrite ztake_all by lia.
  - by rewrite (zlen_0 (out r)) by lia.
Qed.

Lemma wp_pipe_child {K} `{PosixKernel K} fd0 fd1 (w : world K) :
  wp (child false fd0 fd1)
     (fun o w' => exists tr, trace w' = trace w ++ tr /\ child_end fd0 o tr) w.
Proof.
  unfold child. wp_call. apply wp_syscall. intros c1 k1 _. cbn [post]. wp_step.
  apply wp_syscall_posix. intros rd kr [_ Hok] _. cbn [post].
  destruct (Z.eqb_spec (ret rd) (-1)) as [E|E].
  { wp_step. wp_step. wp_step. rewrite E. unfold wr. change (znth (uninit LINE) (-1)) with (@None (option Z)).
    cbv iota. wp_step. leaf. exists rd. split; [ev_in|]. rewrite E. auto. }
  destruct Hok as [?|(Hr & Hl & _)]; [done|]. rewrite <- Hl. apply wp_terminated_then; [lia| |].
  - intros text Hlt Ht. wp_seq. leaf. exists rd. split; [ev_in|]. split; [done|]. split; [lia|]. split.
    + cbn [app]. rewrite received_cons_other by done. rewrite received_read by lia. apply app_nil_r.
    + exists text. split; [done|ev_in].
  - intros Hz. leaf. exists rd. split; [ev_in|]. rewrite <- Hl, Hz. auto.
Qed.

(** ** The parent *)

(** fgets stores at most 79 bytes, none of them NUL here. *)
Definition gets_line (r : resp) : Prop := ret r <> 0 -> zlen (out r) < LINE /\ nonzero (out r).

Definition fgets_call : call := Csys "fgets" [AI LINE; AS "stdin"].

(** The endings of the parent: it writes the line it read, once, or reads a line
    that was never stored. *)
Definition parent_end (fd1 : Z) (o : outcome Z) (tr : list event) : Prop :=
  exists l, EvCall fgets_call l ∈ tr /\
  match o with
  | Halt (HExit c) => c = 0 /\ ret l <> 0 /\ accepted fd1 tr `prefix_of` out l /\
      exists r, EvCall (Cwrite fd1 (out l)) r ∈ tr /\ (ret r = zlen (out l) -> accepted fd1 tr = out l)
  | Halt (HUB u) => u = UB_bounds "line" LINE /\ ret l = 0
  | _ => False
  end.

Lemma accepted_cons_other fd e tr :
  match e with EvCall (Cwrite _ _) _ => False | _ => True end -> accepted fd (e :: tr) = accepted fd tr.
Proof. intros. unfold accepted. cbn. by destruct e as [[]| | |]. Qed.

Lemma accepted_write fd d r tr :
  accepted fd (EvCall (Cwrite fd d) r :: tr) = ztake (ret r) d ++ accepted fd tr.
Proof.
  unfold accepted. cbn. rewrite Z.eqb_refl. cbn [andb]. destruct (Z.ltb_spec 0 (ret r)); [done|].
  unfold ztake. by replace (Z.to_nat (ret r)) with 0%nat by lia.
Qed.

Lemma wp_pipe_parent {K} `{PosixKernel K} fd0 fd1 (w : world K) :
  (forall (k k' : K) r, kstep fgets_call k = (r, k') -> gets_line r) ->
  wp (parent false fd0 fd1)
     (fun o w' => exists tr, trace w' = trace w ++ tr /\ parent_end fd1 o tr) w.
Proof.
  intros Hg. unfold parent. fold fgets_call. wp_call. apply wp_syscall. intros c1 k1 _. cbn [post]. wp_call.
  apply wp_syscall. intros l kl El. cbn [post]. wp_call. apply Hg in El.
  destruct (Z.eqb_spec (ret l) 0) as [E|E].
  { wp_step. wp_call. unfold cstr. change (cstr_of (zdrop 0 (uninit LINE))) with (@None (list Z)).
    cbv iota. wp_step. leaf. exists l. split; [ev_in|done]. }
  destruct (El E) as [Hlen Hnz].
  apply wp_copy_in; [done|rewrite zlen_snoc, zlen_uninit; unfold LINE in *; lia|]. cbn [post]. wp_call.
  eapply wp_cstr.
  { rewrite zdrop_0. unfold blit. rewrite init_app. change (ztake 0 (uninit LINE)) with (@nil (option Z)).
    cbn [app]. rewrite <- app_assoc. by apply cstr_of_init. }
  cbn [post]. wp_step. apply wp_syscall_posix. intros r kr [_ Hok] _. cbn [post].
  wp_go; leaf; exists l; (split; [ev_in|]); (split; [done|]); (split; [done|]); cbn [app];
    repeat first [rewrite accepted_write | rewrite accepted_cons_other by done];
    rewrite app_nil_r; (split; [apply ztake_prefix|]);
    exists r; (split; [ev_in|]); intros ->; by apply ztake_all.
Qed.

(** The line reaches the child.  Parent and child are run on kernels of their
    own.  The parent ends: it writes the line it read, or, at the end of the input,
    reads a line that was never stored.  The child ends too: it prints the text of
    what its read returned, and it writes outside its buffer exactly when the read
    fills the buffer or fails.  When the pipe carries the whole line, the child
    exits with 0 and prints that line. *)
Theorem pipe_line {Kp Kc} `{HPp : PosixKernel Kp} `{HPc : PosixKernel Kc}
    fd0 fd1 (wp0 : world Kp) (wc0 : world Kc) :
  (forall (k k' : Kp) r, kstep fgets_call k = (r, k') -> gets_line r) ->
  exists op wp1 trp oc wc1 trc,
    parent false fd0 fd1 wp0 = (op, wp1) /\ trace wp1 = trace wp0 ++ trp /\ parent_end fd1 op trp /\
    child false fd0 fd1 wc0 = (oc, wc1) /\ trace wc1 = trace wc0 ++ trc /\ child_end fd0 oc trc /\
    (forall l, EvCall fgets_call l ∈ trp -> gets_line l -> ret l <> 0 ->
       (forall r, EvCall (Cread fd0 LINE) r ∈ trc -> out r = out l /\ ret r = zlen (out l)) ->
       oc = Halt (HExit 0) /\ line_text (out l) ∈ trc).
Proof.
  intros Hg.
  destruct (wp_run _ _ _ (wp_pipe_parent fd0 fd1 wp0 Hg)) as (op & wp1 & Ep & trp & Htp & Hp).
  destruct (wp_run _ _ _ (wp_pipe_child fd0 fd1 wc0)) as (oc & wc1 & Ec & trc & Htc & Hc).
  exists op, wp1, trp, oc, wc1, trc. split_and!; [done..|]. intros l _ Hl Hret Hwire.
  destruct (Hl Hret) as [Hlen Hnz]. destruct Hc as (r & Hin & Hc). destruct (Hwire r Hin) as [Eo Er].
  pose proof (zlen_nonneg (out l)). destruct oc as [|[c| | | | | |u|]]; try done.
  - destruct Hc as (-> & _ & _ & text & Et & Hprint). split; [done|].
    rewrite Eo, cstr_of_init in Et by done. by simplify_eq.
  - destruct Hc as (_ & [?|?]); lia.
Qed.

(** A kernel on whose standard input "hello" is typed. *)
Definition typed (c : call) : option resp :=
  match c with Csys "fgets" _ => Some (Resp 1 0 (bytes_of "hello")) | _ => None end.

#[local] Instance typist : Kernel pipe := override typed pipe_kernel.

#[local] Instance typist_posix : @PosixKernel pipe typist.
Proof.
  apply override_posix; [apply _|]. intros c r. unfold typed. repeat (case_match; try done).
  intros [= <-]. split; [|done]. by vm_compute.
Qed.

Lemma typist_gets (k k' : pipe) r : @kstep pipe typist fgets_call k = (r, k') -> gets_line r.
Proof. intros [= <- _] _. split; [by vm_compute|]. repeat constructor; done. Qed.

Lemma pipe_line_witness :
  exists op wp1 trp oc wc1 trc,
    @parent pipe typist false 3 4 (World (Pipe [] [] [] 100) 0 []) = (op, wp1) /\ trace wp1 = [] ++ trp /\
    parent_end 4 op trp /\
    @child pipe pipe_kernel false 3 4 (World (Pipe (bytes_of "hello") [] [] 100) 0 []) = (oc, wc1) /\
    trace wc1 = [] ++ trc /\ child_end 3 oc trc /\
    (forall l, EvCall fgets_call l ∈ trp -> gets_line l -> ret l <> 0 ->
       (forall r, EvCall (Cread 3 LINE) r ∈ trc -> out r = out l /\ ret r = zlen (out l)) ->
       oc = Halt (HExit 0) /\ line_text (out l) ∈ trc).
Proof.
  apply (@pipe_line pipe pipe typist typist_posix pipe_kernel pipe_posix 3 4
           (World (Pipe [] [] [] 100) 0 []) (World (Pipe (bytes_of "hello") [] [] 100) 0 [])).
  exact typist_gets.
Defined.

(** In these two runs the child prints what the parent read. *)
Lemma pipe_line_run :
  line_text (bytes_of "hello") ∈
    trace (snd (@child pipe pipe_kernel false 3 4 (World (Pipe (bytes_of "hello") [] [] 100) 0 []))).
Proof. vm_compute. ev_in. Qed.
