(* ===== verification/FileLock.v ===== *)
(** src/filelock/filelock_fcntl_demo.c: a file is written under an fcntl record lock
    and read back after it is released.  [main] is one process; the step relation
    at the end is any number of them on one file. *)
From S2P Require Import Prelude CMonad CLib Common Restart FileSys.
From stdpp Require Import relations.
#[local] Open Scope Z_scope.

Definition FILE_NAME : string := "locked_file.txt".
Definition MESSAGE : string := cat ["Hello, this is a test of file locking!"; nl].
(** [O_RDWR | O_CREAT], 0666 *)
Definition O_RDWR_CREAT : Z := 66.
Definition FILE_MODE : Z := 438.

(** fcntl(fd, F_SETLK, &lock) with the fields of [lock]. *)
Definition setlk (fd : Z) (l_type : string) (l_pid : Z) : call :=
  Csys "fcntl" [AI fd; AS "F_SETLK"; AS l_type; AS "SEEK_SET"; AI 0; AI 0; AI l_pid].

Section Code.
Context {K : Type} {HK : Kernel K}.

Definition lock_file (fd : Z) : C K unit :=
  pid ← sys "getpid" [];
  r ← syscall (setlk fd "F_WRLCK" pid);
  (if ret r =? -1 then perror "Error locking file";; exit 1 else mret tt);;
  pid ← sys "getpid" [];
  printf (cat ["File locked by process "; fmt_d pid; nl]).

Definition unlock_file (fd : Z) : C K unit :=
  pid ← sys "getpid" [];
  r ← syscall (setlk fd "F_UNLCK" pid);
  (if ret r =? -1 then perror "Error unlocking file";; exit 1 else mret tt);;
  pid ← sys "getpid" [];
  printf (cat ["File unlocked by process "; fmt_d pid; nl]).

Definition write_to_file (fd : Z) (message : string) : C K unit :=
  r ← syscall (Cwrite fd (bytes_of message));
  (if ret r =? -1 then perror "Error writing to file";; exit 1 else mret tt);;
  printf (cat ["Data written to file: "; message; nl]).

Definition read_from_file (fd : Z) : C K unit :=
  sys "lseek" [AI fd; AI 0; AI 0];;
  r ← syscall (Cread fd (256 - 1));
  (if ret r =? -1 then perror "Error reading from file";; exit 1 else mret tt);;
  buffer ← copy_in "buffer" (uninit 256) 0 (out r);
  buffer ← wr "buffer" buffer (ret r) 0;
  text ← cstr "buffer" buffer 0;
  printf (cat ["Data read from file: "; text_of text; nl]).

Definition main : C K Z :=
  r ← syscall (Copen FILE_NAME O_RDWR_CREAT FILE_MODE);
  let fd := ret r in
  (if fd =? -1 then perror "Error opening file";; exit 1 else mret tt);;
  lock_file fd;;
  write_to_file fd MESSAGE;;
  printf (cat ["Sleeping for 5 seconds (simulate another process locking)..."; nl]);;
  sys "sleep" [AI 5];;
  unlock_file fd;;
  syscall (Cclose fd);;
  r ← syscall (Copen FILE_NAME 0 0);
  let fd := ret r in
  (if fd =? -1 then perror "Error opening file";; exit 1 else mret tt);;
  read_from_file fd;;
  syscall (Cclose fd);;
  mret 0.

End Code.

(** ** One process *)

(** Whether a process holds the lock on [fd] after the calls of a trace. *)
Definition lock_after (fd : Z) (held : bool) (e : event) : bool :=
  match e with
  | EvCall (Csys "fcntl" [AI fd'; _; AS ty; _; _; _; _]) r =>
      if (fd' =? fd) && negb (ret r =? -1) then String.eqb ty "F_WRLCK" else held
  | EvCall (Cclose fd') _ => if fd' =? fd then false else held
  | _ => held
  end.

Definition holds_lock (fd : Z) (tr : list event) : bool := foldl (lock_after fd) false tr.

(** Every write of a trace is made while the lock is held. *)
Definition guarded (tr : list event) : Prop :=
  forall fd d r pre suf, tr = pre ++ EvCall (Cwrite fd d) r :: suf -> holds_lock fd pre = true.

(** The same, read along the trace. *)
Fixpoint guarded_from (pre tr : list event) : Prop :=
  match tr with
  | [] => True
  | e :: tr' =>
      match e with EvCall (Cwrite fd _) _ => holds_lock fd pre = true | _ => True end /\
      guarded_from (pre ++ [e]) tr'
  end.

Lemma guarded_from_spec tr : guarded_from [] tr -> guarded tr.
Proof.
  intros H fd d r pre suf ->.
  enough (forall p, guarded_from p (pre ++ EvCall (Cwrite fd d) r :: suf) -> holds_lock fd (p ++ pre) = true) as He
    by (by apply (He [])).
  clear H. induction pre as [|e pre IH]; intros p; cbn [app guarded_from].
  - intros [H _]. by rewrite app_nil_r.
  - intros [_ H]. apply IH in H. by rewrite <- app_assoc in H.
Qed.

Definition writes (tr : list event) : list (Z * list Z) :=
  concat (map (fun e => match e with EvCall (Cwrite fd d) _ => [(fd, d)] | _ => [] end) tr).

(** How main can end: a failed call and status 1, or the text read back. *)
Definition lock_end (o : outcome Z) (tr : list event) : Prop :=
  match o with
  | Done z => z = 0 /\ exists op r text fd,
      EvCall (Copen FILE_NAME O_RDWR_CREAT FILE_MODE) op ∈ tr /\
      writes tr = [(ret op, bytes_of MESSAGE)] /\ holds_lock (ret op) tr = false /\
      EvCall (Cread fd 255) r ∈ tr /\ cstr_of (init (out r) ++ [Some 0]) = Some text /\
      EvOut stdout (cat ["Data read from file: "; text_of text; nl]) ∈ tr
  | Halt h => h = HExit 1
  end.

(** An ending with status 1: the calls so far were guarded. *)
Ltac lock_eval :=
  apply guarded_from_spec; cbn; rewrite ?Z.eqb_refl;
  repeat match goal with H : (ret _ =? -1) = _ |- _ => rewrite ?H; clear H end; cbn; auto 40.

Ltac quit := split; [lock_eval|done].

Section Main.
Context {K : Type} {HK : Kernel K} {HP : PosixKernel K}.

(** A read of at most 255 bytes leaves room for the terminator. *)
Lemma wp_read_from_file fd (Q : outcome unit -> world K -> Prop) (w : world K) :
  (forall ls rd text w', cstr_of (init (out rd) ++ [Some 0]) = Some text ->
     trace w' = trace w ++ [EvCall (Csys "lseek" [AI fd; AI 0; AI 0]) ls; EvCall (Cread fd 255) rd;
       EvOut stdout (cat ["Data read from file: "; text_of text; nl])] -> Q (Done tt) w') ->
  (forall ls rd e w', trace w' = trace w ++ [EvCall (Csys "lseek" [AI fd; AI 0; AI 0]) ls;
       EvCall (Cread fd 255) rd; EvPerror "Error reading from file" e] -> Q (Halt (HExit 1)) w') ->
  wp (read_from_file fd) Q w.
Proof.
  intros HQ HX. unfold read_from_file. wp_step. unfold sys. wp_step. apply wp_syscall. intros ls kl _. cbn [post].
  wp_call. apply wp_syscall_posix. intros rd kr [_ Hok] _. cbn [post]. wp_step.
  destruct (Z.eqb_spec (ret rd) (-1)) as [E|E].
  { wp_call. eapply (HX ls rd). cbn [after trace]. by rewrite <- !app_assoc. }
  destruct Hok as [?|(Hr & Hl & _)]; [done|]. wp_step. rewrite <- Hl. apply wp_terminated_then; [lia| |lia].
  intros text _ Ht. wp_step. eapply (HQ ls rd text); [done|]. cbn [after trace]. by rewrite <- !app_assoc.
Qed.

Lemma wp_filelock_main (w : world K) :
  wp main (fun o w' => exists tr, trace w' = trace w ++ tr /\ guarded tr /\ lock_end o tr) w.
Proof.
  unfold main, lock_file, write_to_file, unlock_file, setlk.
  wp_step. apply wp_syscall. intros op ko _. cbn [post]. wp_call.
  destruct (ret op =? -1) eqn:E1; [wp_call; leaf; quit|]. wp_call.
  apply wp_syscall. intros g1 kg1 _. cbn [post]. wp_call. apply wp_syscall. intros lk kl _. cbn [post]. wp_call.
  destruct (ret lk =? -1) eqn:E2; [wp_call; leaf; quit|]. wp_call.
  apply wp_syscall. intros g2 kg2 _. cbn [post]. wp_call. apply wp_syscall. intros wt kw _. cbn [post]. wp_call.
  destruct (ret wt =? -1) eqn:E3; [wp_call; leaf; quit|]. wp_call.
  apply wp_syscall. intros sl ks _. cbn [post]. wp_call. apply wp_syscall. intros g3 kg3 _. cbn [post]. wp_call.
  apply wp_syscall. intros ul ku _. cbn [post]. wp_call.
  destruct (ret ul =? -1) eqn:E4; [wp_call; leaf; quit|]. wp_call.
  apply wp_syscall. intros g4 kg4 _. cbn [post]. wp_call. apply wp_syscall. intros cl kc _. cbn [post]. wp_call.
  apply wp_syscall. intros op2 ko2 _. cbn [post]. wp_call.
  destruct (ret op2 =? -1) eqn:E5; [wp_call; leaf; quit|]. wp_call.
  apply wp_read_from_file.
  2: { intros ls rd e w' Ht. cbn [after trace] in Ht. eexists. split; [rewrite Ht, <- !app_assoc; reflexivity|]. quit. }
  intros ls rd text w' Htext Ht. cbn [after trace] in Ht. cbn [post]. wp_step.
  apply wp_syscall. intros c2 kc2 _. cbn [post]. wp_step. eexists. split.
  { cbn [after trace]. rewrite Ht, <- !app_assoc. reflexivity. }
  split; [lock_eval|]. split; [done|]. exists op, rd, text, (ret op2).
  split; [ev_in|]. split; [done|]. split.
  { cbn. rewrite !Z.eqb_refl. by destruct (ret op2 =? ret op). }
  split; [ev_in|]. split; [done|ev_in].
Qed.

End Main.

(** The file is written only under the lock.  main ends, with 0 or with status 1
    after a failed call.  In every run each write is made between a successful
    F_WRLCK and the release; when main returns, the message was written exactly
    once, the lock is released, and the text printed is what the read delivered,
    inside the 256-byte buffer. *)
Theorem filelock_guarded {K} `{PosixKernel K} (w : world K) :
  exists o w' tr, main w = (o, w') /\ trace w' = trace w ++ tr /\ guarded tr /\ lock_end o tr.
Proof.
  destruct (wp_run _ _ _ (wp_filelock_main w)) as (o & w' & E & tr & H'). by exists o, w', tr.
Qed.

Lemma filelock_guarded_witness :
  exists o w' tr, main (World (Pipe (bytes_of "text") [] [] 100) 0 []) = (o, w') /\
    trace w' = [] ++ tr /\ guarded tr /\ lock_end o tr.
Proof. apply (filelock_guarded (World (Pipe (bytes_of "text") [] [] 100) 0 [])). Defined.

(** ** Many processes

    Any number of processes run [main] on one file.  Where a process is follows from
    the answers its calls got so far: its next call is the one [main] makes after
    them. *)

Definition calls_in (tr : list event) : list call :=
  omap (fun e => match e with EvCall c _ => Some c | _ => None end) tr.

Definition calls_on (h : list resp) : list call := calls_in (trace (snd (main (World (h : script) 0 [])))).

Definition next_call (h : list resp) : option call := calls_on h !! length h.

(** The end of a process and the close of the file release its lock. *)
Definition release (p : nat) (o : option nat) : option nat := if decide (o = Some p) then None else o.

(** What the kernel may answer to a call of process [p] while [o] owns the lock and the
    file has the contents [c], and what they are then.  F_SETLK does not wait: it
    fails while another process has the lock, and may fail for other reasons; so may
    the release, the write, which may also be short, the read and open.  Each process
    opens the file for itself, so that its only write goes to the start of the file and
    its read, after lseek, starts there. *)
Inductive answers (p : nat) (o : option nat) (c : list Z) : call -> resp -> option nat -> list Z -> Prop :=
| an_lock fd pid r :
    o = None \/ o = Some p -> ret r <> -1 -> answers p o c (setlk fd "F_WRLCK" pid) r (Some p) c
| an_unlock fd pid r : ret r <> -1 -> answers p o c (setlk fd "F_UNLCK" pid) r (release p o) c
| an_setlk_fails fd ty pid r : ret r = -1 -> answers p o c (setlk fd ty pid) r o c
| an_write fd d r : 0 <= ret r <= zlen d -> answers p o c (Cwrite fd d) r o (pwrite c 0 (ztake (ret r) d))
| an_write_fails fd d r : ret r = -1 -> answers p o c (Cwrite fd d) r o c
| an_read fd n r : 0 <= ret r <= n -> zlen (out r) = ret r -> out r = ztake (ret r) c -> answers p o c (Cread fd n) r o c
| an_read_fails fd n r : ret r = -1 -> answers p o c (Cread fd n) r o c
| an_open path flags mode r : -1 <= ret r -> answers p o c (Copen path flags mode) r o c
| an_close fd r : ret r = 0 \/ ret r = -1 -> answers p o c (Cclose fd) r (release p o) c
| an_other fn args r : fn ∈ ["getpid"; "sleep"; "lseek"] -> answers p o c (Csys fn args) r o c.

(** The processes with the answers they got, and whether they have ended; the owner of
    the lock; the contents of the file. *)
Record system := System { procs : list (list resp * bool); owner : option nat; content : list Z }.

Inductive step : system -> system -> Prop :=
| step_call ps o c p h cl r o' c' :
    ps !! p = Some (h, false) -> next_call h = Some cl -> answers p o c cl r o' c' ->
    step (System ps o c) (System (<[p := (h ++ [r], false)]> ps) o' c')
| step_end ps o c p h :
    ps !! p = Some (h, false) -> next_call h = None ->
    step (System ps o c) (System (<[p := (h, true)]> ps) (release p o) c).

(** *** What main does after some answers *)

Definition getpid : call := Csys "getpid" [].

(** The next call, written out. *)
Definition expect (h : list resp) : option call :=
  match h with
  | [] => Some (Copen FILE_NAME O_RDWR_CREAT FILE_MODE)
  | op :: h => if ret op =? -1 then None else
  match h with
  | [] => Some getpid
  | [g1] => Some (setlk (ret op) "F_WRLCK" (ret g1))
  | g1 :: lk :: h => if ret lk =? -1 then None else
  match h with
  | [] => Some getpid
  | [g2] => Some (Cwrite (ret op) (bytes_of MESSAGE))
  | g2 :: wt :: h => if ret wt =? -1 then None else
  match h with
  | [] => Some (Csys "sleep" [AI 5])
  | [sl] => Some getpid
  | [sl; g3] => Some (setlk (ret op) "F_UNLCK" (ret g3))
  | sl :: g3 :: ul :: h => if ret ul =? -1 then None else
  match h with
  | [] => Some getpid
  | [g4] => Some (Cclose (ret op))
  | [g4; cl] => Some (Copen FILE_NAME 0 0)
  | g4 :: cl :: op2 :: h => if ret op2 =? -1 then None else
  match h with
  | [] => Some (Csys "lseek" [AI (ret op2); AI 0; AI 0])
  | [ls] => Some (Cread (ret op2) 255)
  | ls :: rd :: h => if ret rd =? -1 then None else
  match h with
  | [] => Some (Cclose (ret op2))
  | _ => None
  end end end end end end end.

(** An answer to the read that fits the buffer. *)
Definition read_ok (h : list resp) : Prop :=
  forall r, h !! 12%nat = Some r -> ret r = -1 \/ (0 <= ret r <= 255 /\ zlen (out r) = ret r).

(** A call with the next answer of the script. *)
Lemma wp_scripted c r h (Q : outcome resp -> world script -> Prop) (w : world script) :
  kern w = r :: h -> Q (Done r) (after c r h w) -> wp (syscall c) Q w.
Proof. intros E HQ. apply wp_syscall. intros r' k. unfold kstep, script_kernel. rewrite E. by intros [= <- <-]. Qed.

(** A call without one. *)
Lemma wp_unscripted c (Q : outcome resp -> world script -> Prop) (w : world script) :
  kern w = [] -> Q (Done (Resp (if call_failed c 0 then 0 else -1) EIO []))
    (after c (Resp (if call_failed c 0 then 0 else -1) EIO []) [] w) -> wp (syscall c) Q w.
Proof. intros E HQ. apply wp_syscall. intros r' k. unfold kstep, script_kernel. rewrite E. by intros [= <- <-]. Qed.

(** Run on with a script that is used up; the conditions are decided. *)
Ltac run_out :=
  repeat (wp_call; first
    [ apply wp_unscripted; [reflexivity|]; cbn [post ret];
      change (call_failed _ 0) with false; cbv iota; change (-1 =? -1) with true; cbv iota ]).

Ltac calls_simp :=
  unfold calls_in; cbn [after trace app omap list_omap lookup list_lookup length expect];
  repeat match goal with H : (ret _ =? -1) = _ |- _ => rewrite ?H; clear H end; reflexivity.

(** The next answer [r] of the script, or the end of it. *)
Ltac next_answer h r :=
  destruct h as [|r h];
  [ apply wp_unscripted; [reflexivity|]; cbn [post ret]; change (call_failed _ 0) with false; cbv iota;
    change (-1 =? -1) with true; cbv iota; run_out; calls_simp
  | apply (wp_scripted _ r h); [reflexivity|]; cbn [post]; wp_call ].

Lemma wp_main_next h : read_ok h ->
  wp main (fun _ w' => calls_in (trace w') !! length h = expect h) (World (h : script) 0 []).
Proof.
  intros Hrd. unfold main, lock_file, write_to_file, unlock_file. wp_call.
  next_answer h op. destruct (ret op =? -1) eqn:E1; [wp_call; calls_simp|]. wp_call.
  next_answer h g1. next_answer h lk. destruct (ret lk =? -1) eqn:E2; [wp_call; calls_simp|]. wp_call.
  next_answer h g2. next_answer h wt. destruct (ret wt =? -1) eqn:E3; [wp_call; calls_simp|]. wp_call.
  next_answer h sl. next_answer h g3. next_answer h ul.
  destruct (ret ul =? -1) eqn:E4; [wp_call; calls_simp|]. wp_call.
  next_answer h g4. next_answer h cl. next_answer h op2.
  destruct (ret op2 =? -1) eqn:E5; [wp_call; calls_simp|]. wp_call.
  unfold read_from_file. wp_call. next_answer h ls. next_answer h rr.
  destruct (ret rr =? -1) eqn:E6; [wp_call; calls_simp|]. wp_step.
  destruct (Hrd rr eq_refl) as [E|[Hr Hl]]; [lia|]. rewrite <- Hl.
  apply wp_terminated_then; [lia| |lia]. intros text _ _. wp_call.
  next_answer h cl2. calls_simp.
Qed.

Lemma next_call_expect h : read_ok h -> next_call h = expect h.
Proof. intros Hrd. destruct (wp_run _ _ _ (wp_main_next h Hrd)) as (o & w' & E & H). unfold next_call, calls_on. by rewrite E. Qed.

(** *** The lock *)

(** The lock was given to the process and it has not given it back. *)
Definition held (h : list resp) : bool :=
  match h with
  | _ :: _ :: lk :: h => negb (ret lk =? -1) &&
      match h with _ :: _ :: _ :: _ :: ul :: _ => ret ul =? -1 | _ => true end
  | _ => false
  end.

(** The calls that matter, and what they do to the lock. *)
Inductive kind (h : list resp) : call -> Prop :=
| k_lock fd pid : length h = 2%nat -> held h = false ->
    (forall r, held (h ++ [r]) = negb (ret r =? -1)) -> kind h (setlk fd "F_WRLCK" pid)
| k_unlock fd pid : length h = 7%nat -> held h = true ->
    (forall r, held (h ++ [r]) = (ret r =? -1)) -> kind h (setlk fd "F_UNLCK" pid)
| k_write fd : length h = 4%nat -> held h = true -> (forall r, held (h ++ [r]) = true) ->
    kind h (Cwrite fd (bytes_of MESSAGE))
| k_read fd : length h = 12%nat -> held h = false -> (forall r, held (h ++ [r]) = false) ->
    kind h (Cread fd 255)
| k_open path flags mode : length h = 0%nat \/ length h = 10%nat -> held h = false ->
    (forall r, held (h ++ [r]) = false) -> kind h (Copen path flags mode)
| k_close fd : length h = 9%nat \/ length h = 13%nat -> held h = false ->
    (forall r, held (h ++ [r]) = false) -> kind h (Cclose fd)
| k_other fn args : fn ∈ ["getpid"; "sleep"; "lseek"] ->
    length h ∈ [1; 3; 5; 6; 8; 11]%nat -> (forall r, held (h ++ [r]) = held h) -> kind h (Csys fn args).

Lemma expect_kind h c : expect h = Some c -> kind h c.
Proof.
  unfold expect, getpid.
  repeat (match goal with
          | |- context [match ?l with [] => _ | _ :: _ => _ end] => destruct l
          | |- context [if ret ?r =? -1 then None else _] => destruct (ret r =? -1) eqn:?; [done|]
          end); try done; intros <-%(inj Some);
    lazymatch goal with
    | |- kind _ (setlk _ "F_WRLCK" _) => apply k_lock
    | |- kind _ (setlk _ "F_UNLCK" _) => apply k_unlock
    | |- kind _ (Cwrite _ _) => apply k_write
    | |- kind _ (Cread _ _) => apply k_read
    | |- kind _ (Copen _ _ _) => apply k_open
    | |- kind _ (Cclose _) => apply k_close
    | |- kind _ (Csys _ _) => apply k_other
    end; cbn [length held app]; intros;
    repeat match goal with H : (ret _ =? -1) = _ |- _ => rewrite H end;
    first [reflexivity | by left | by right | by rewrite andb_true_r | set_solver].
Qed.

(** The file with the first [n] bytes of the message over its front. *)
Definition marked (c0 : list Z) (n : Z) : list Z := pwrite c0 0 (ztake n (bytes_of MESSAGE)).

Definition msg_len : Z := zlen (bytes_of MESSAGE).

(** Writing the message again over it leaves the longer of the two. *)
Lemma pwrite_longer c0 d n m : 0 <= n <= zlen d -> 0 <= m <= zlen d ->
  pwrite (pwrite c0 0 (ztake n d)) 0 (ztake m d) = pwrite c0 0 (ztake (Z.max n m) d).
Proof.
  intros Hn Hm. rewrite !pwrite_front, !zlen_ztake by lia.
  destruct (Z.le_gt_cases m n).
  - rewrite Z.max_l by lia. unfold ztake, zdrop, zlen in *.
    rewrite drop_app_le by (rewrite length_take; lia).
    rewrite app_assoc. f_equal. rewrite <- (take_drop (Z.to_nat m) (take (Z.to_nat n) d)) at 2.
    rewrite take_take. by replace (Z.to_nat m `min` Z.to_nat n)%nat with (Z.to_nat m) by lia.
  - rewrite Z.max_r by lia. f_equal. unfold ztake, zdrop, zlen in *.
    rewrite drop_app_ge by (rewrite length_take; lia). rewrite drop_drop, length_take. f_equal. lia.
Qed.

(** What holds of the answers of one process, of which [n] bytes of the message are in
    the file at least. *)
Record answers_ok (c0 : list Z) (n : Z) (h : list resp) : Prop := AnswersOk {
  ao_read : read_ok h;
  ao_len : (length h <= 14)%nat;
  ao_wrote : forall wt, h !! 4%nat = Some wt -> ret wt <= n;
  ao_text : forall wt r, h !! 4%nat = Some wt -> h !! 12%nat = Some r -> 0 <= ret r ->
    exists m, ret wt <= m <= msg_len /\ out r = ztake (ret r) (marked c0 m) }.

Record sys_inv (c0 : list Z) (s : system) : Prop := SysInv {
  si_holder : forall p h, procs s !! p = Some (h, false) -> held h = true -> owner s = Some p;
  si_owned : forall p, owner s = Some p -> exists h, procs s !! p = Some (h, false) /\ held h = true;
  si_content : exists n, 0 <= n <= msg_len /\ content s = marked c0 n /\
    forall p h e, procs s !! p = Some (h, e) -> answers_ok c0 n h }.

Lemma answers_ok_mono c0 n n' h : n <= n' -> answers_ok c0 n h -> answers_ok c0 n' h.
Proof. intros Hn [H1 H2 H3 H4]. constructor; [done|done| |done]. intros wt Hw. specialize (H3 wt Hw). lia. Qed.

(** One more answer, which is neither that of the write nor that of the read. *)
Lemma answers_ok_snoc c0 n h r : answers_ok c0 n h -> (length h <= 13)%nat ->
  length h <> 4%nat -> length h <> 12%nat -> answers_ok c0 n (h ++ [r]).
Proof.
  intros [H1 H2 H3 H4] Hl N4 N12. unfold read_ok in *. constructor.
  - intros x Hx. apply lookup_snoc_Some in Hx as [[_ Hx]|[? _]]; [by apply H1|done].
  - rewrite length_app. simpl. lia.
  - intros x Hx. apply lookup_snoc_Some in Hx as [[_ Hx]|[? _]]; [by apply H3|done].
  - intros x y Hx Hy. apply lookup_snoc_Some in Hx as [[_ Hx]|[? _]]; [|done].
    apply lookup_snoc_Some in Hy as [[_ Hy]|[? _]]; [by apply H4|done].
Qed.

Lemma answers_ok_write c0 n h r : answers_ok c0 n h -> length h = 4%nat -> ret r <= n -> answers_ok c0 n (h ++ [r]).
Proof.
  intros [H1 H2 H3 H4] Hl Hr. unfold read_ok in *. constructor.
  - intros x Hx. apply lookup_snoc_Some in Hx as [[_ Hx]|[? _]]; [by apply H1|lia].
  - rewrite length_app. simpl. lia.
  - intros x Hx. apply lookup_snoc_Some in Hx as [[Hx _]|[_ <-]]; [lia|done].
  - intros x y _ Hy. apply lookup_snoc_Some in Hy as [[Hy _]|[Hy _]]; lia.
Qed.

Lemma answers_ok_read c0 n h r : 0 <= n <= msg_len -> answers_ok c0 n h -> length h = 12%nat ->
  ret r = -1 \/ (0 <= ret r <= 255 /\ zlen (out r) = ret r) ->
  (0 <= ret r -> out r = ztake (ret r) (marked c0 n)) -> answers_ok c0 n (h ++ [r]).
Proof.
  intros Hn [H1 H2 H3 H4] Hl Hr Ho. unfold read_ok in *. constructor.
  - intros x Hx. apply lookup_snoc_Some in Hx as [[Hx _]|[_ <-]]; [lia|done].
  - rewrite length_app. simpl. lia.
  - intros x Hx. apply lookup_snoc_Some in Hx as [[_ Hx]|[? _]]; [by apply H3|lia].
  - intros x y Hx Hy Hpos. apply lookup_snoc_Some in Hx as [[_ Hx]|[? _]]; [|lia].
    apply lookup_snoc_Some in Hy as [[Hy _]|[_ <-]]; [lia|]. exists n. split; [|auto].
    specialize (H3 x Hx). lia.
Qed.

Lemma procs_insert (ps : list (list resp * bool)) p x q y :
  <[p := x]> ps !! q = Some y -> (p = q /\ y = x) \/ (p <> q /\ ps !! q = Some y).
Proof. intros [(-> & <- & _)|[? ?]]%list_lookup_insert_Some; auto. Qed.

(** What a step of [p] to the answers [h'] may do to the owner: [p] becomes it, or is
    not it any more, or nothing changes. *)
Definition owner_moves (p : nat) (h h' : list resp) (e' : bool) (o o' : option nat) : Prop :=
  (o' = Some p /\ held h' = true /\ e' = false /\ (o = None \/ o = Some p)) \/
  (o' = release p o /\ (held h' = false \/ e' = true)) \/
  (o' = o /\ e' = false /\ held h' = held h).

Lemma owner_update c0 ps o c p h h' e' o' c' n :
  sys_inv c0 (System ps o c) -> ps !! p = Some (h, false) -> owner_moves p h h' e' o o' ->
  0 <= n <= msg_len -> c' = marked c0 n -> answers_ok c0 n h' ->
  (forall q h e, ps !! q = Some (h, e) -> answers_ok c0 n h) ->
  sys_inv c0 (System (<[p := (h', e')]> ps) o' c').
Proof.
  intros [H1 H2 _] Ep Ho Hn Hc Hh Hall. cbn in *. pose proof (lookup_lt_Some _ _ _ Ep) as Hlt.
  assert (Hrel : forall q, release p o = Some q -> q <> p /\ o = Some q).
  { intros q. unfold release. case_decide; [done|]. intros Eq. split; [congruence|done]. }
  constructor; cbn.
  - intros q hq Hq Hheld. apply procs_insert in Hq as [[<- [= -> <-]]|[Hne Hq]].
    + destruct Ho as [(-> & _)|[(_ & [?|?])|(-> & _ & Hs)]]; [done|congruence|done|].
      apply (H1 _ _ Ep). congruence.
    + pose proof (H1 _ _ Hq Hheld) as Eo. destruct Ho as [(_ & _ & _ & [?|?])|[(-> & _)|(-> & _)]]; [congruence..| |done].
      unfold release. rewrite decide_False by congruence. done.
  - intros q Eq. destruct (decide (p = q)) as [<-|Hne].
    + exists h'. rewrite list_lookup_insert_eq by done.
      destruct Ho as [(_ & Hh' & -> & _)|[(-> & _)|(-> & -> & Hs)]]; [done| |].
      * by destruct (Hrel _ Eq).
      * destruct (H2 _ Eq) as (h0 & E0 & Hh0). rewrite Ep in E0. injection E0 as <-. split; [done|congruence].
    + rewrite list_lookup_insert_ne by done. destruct Ho as [(-> & _)|[(-> & _)|(-> & _)]].
      * congruence.
      * destruct (Hrel _ Eq) as [_ Eo]. by apply H2.
      * by apply H2.
  - exists n. split; [done|]. split; [done|]. intros q hq e Hq.
    apply procs_insert in Hq as [[_ [= -> ->]]|[_ Hq]]; [done|by eapply Hall].
Qed.

Lemma step_inv c0 s s' : sys_inv c0 s -> step s s' -> sys_inv c0 s'.
Proof.
  intros Hs Hst. pose proof Hs as [_ _ (n & Hn & Hc & Hall)].
  destruct Hst as [ps o c p h cl r o' c' Ep Hnext Hans|ps o c p h Ep Hnext]; cbn in *.
  2: { eapply owner_update; [done|done| |done|done|by eapply Hall|done]. right. left. auto. }
  pose proof (Hall _ _ _ Ep) as Hok. rewrite next_call_expect in Hnext by apply Hok.
  apply expect_kind in Hnext. subst c.
  destruct Hnext as [fd pid Hl Hh Hr|fd pid Hl Hh Hr|fd Hl Hh Hr|fd Hl Hh Hr|path f m Hl Hh Hr|fd Hl Hh Hr|fn args Hfn Hl Hr];
    inversion Hans; subst.
  - (* the lock *)
    eapply owner_update; [done|done| |done|done|by apply answers_ok_snoc; [done|lia..]|done].
    left. rewrite Hr. destruct (Z.eqb_spec (ret r) (-1)); [done|]. auto.
  - eapply owner_update; [done|done| |done|done|by apply answers_ok_snoc; [done|lia..]|done].
    right. right. rewrite Hr, Hh. destruct (Z.eqb_spec (ret r) (-1)); [done|done].
  - exfalso. set_solver.
  - (* the release *)
    eapply owner_update; [done|done| |done|done|by apply answers_ok_snoc; [done|lia..]|done].
    right. left. rewrite Hr. split; [done|left]. by apply Z.eqb_neq.
  - eapply owner_update; [done|done| |done|done|by apply answers_ok_snoc; [done|lia..]|done].
    right. right. rewrite Hr, Hh. split_and!; [done..|]. by apply Z.eqb_eq.
  - exfalso. set_solver.
  - (* the write *)
    assert (Hlen : 0 <= ret r <= msg_len) by done.
    eapply (owner_update _ _ _ _ _ _ _ _ _ _ (Z.max n (ret r))); [done|done| |lia| | |].
    + right. right. by rewrite Hr, Hh.
    + unfold marked. by apply pwrite_longer.
    + apply answers_ok_write; [|done|lia]. eapply answers_ok_mono; [|done]. lia.
    + intros q hq e Hq. eapply answers_ok_mono; [|by eapply Hall]. lia.
  - eapply owner_update; [done|done| |done|done|by apply answers_ok_write; [done|done|lia]|done].
    right. right. by rewrite Hr, Hh.
  - (* the read *)
    eapply owner_update; [done|done| |done|done| |done].
    + right. right. by rewrite Hr, Hh.
    + apply answers_ok_read; [done|done|done| |done]. right. done.
  - eapply owner_update; [done|done| |done|done| |done].
    + right. right. by rewrite Hr, Hh.
    + apply answers_ok_read; [done|done|done|by left|]. lia.
  - eapply owner_update; [done|done| |done|done|by apply answers_ok_snoc; [done|lia..]|done].
    right. right. by rewrite Hr, Hh.
  - eapply owner_update; [done|done| |done|done|by apply answers_ok_snoc; [done|lia..]|done].
    right. left. rewrite Hr. auto.
  - exfalso. set_solver.
  - exfalso. set_solver.
  - exfalso. set_solver.
  - assert (Hlen : (length h <= 13)%nat /\ length h <> 4%nat /\ length h <> 12%nat).
    { clear -Hl. rewrite !elem_of_cons in Hl. set_unfold. lia. }
    destruct Hlen as (? & ? & ?).
    eapply owner_update; [done|done| |done|done|by apply answers_ok_snoc|done]. right. right. by rewrite Hr.
Qed.

(** The steps that processes have left: fourteen calls and the end. *)
Definition left_of (x : list resp * bool) : Z := if snd x then 0 else 15 - zlen (fst x).

Fixpoint steps_left (ps : list (list resp * bool)) : Z :=
  match ps with [] => 0 | x :: ps' => left_of x + steps_left ps' end.

Lemma steps_left_insert ps : forall p x y, ps !! p = Some x ->
  steps_left (<[p := y]> ps) = steps_left ps - left_of x + left_of y.
Proof.
  induction ps as [|z ps IH]; intros [|p] x y E; cbn in E; [done..| |].
  - injection E as ->. change (<[0%nat := y]> (x :: ps)) with (y :: ps). cbn [steps_left]. lia.
  - change (<[S p := y]> (z :: ps)) with (z :: <[p := y]> ps). cbn [steps_left]. rewrite (IH _ _ _ E). lia.
Qed.

Lemma kind_length h c : kind h c -> (length h <= 13)%nat.
Proof.
  intros []; try lia. rewrite !elem_of_cons in *. set_unfold. lia.
Qed.

Lemma step_left c0 s s' : sys_inv c0 s -> step s s' -> steps_left (procs s') < steps_left (procs s).
Proof.
  intros [_ _ (n & _ & _ & Hall)] Hst.
  destruct Hst as [ps o c p h cl r o' c' Ep Hnext _|ps o c p h Ep Hnext]; cbn in *;
    rewrite (steps_left_insert _ _ _ _ Ep); unfold left_of; cbn [fst snd]; pose proof (Hall _ _ _ Ep) as Hok.
  - rewrite zlen_app, zlen_cons, zlen_nil. lia.
  - pose proof (ao_len _ _ _ Hok). unfold zlen. lia.
Qed.

Lemma steps_inv c0 m s s' : sys_inv c0 s -> nsteps step m s s' ->
  sys_inv c0 s' /\ steps_left (procs s') + Z.of_nat m <= steps_left (procs s).
Proof.
  intros Hs Hm. revert Hs. induction Hm as [s|m s s1 s' H1 _ IH]; intros Hs; [split; [done|lia]|].
  pose proof (step_left _ _ _ Hs H1). destruct (IH (step_inv _ _ _ Hs H1)). split; [done|lia].
Qed.

(** A process that has not ended can always go on: no call waits for another process. *)
Lemma filelock_progress c0 s p h :
  sys_inv c0 s -> procs s !! p = Some (h, false) -> exists s', step s s'.
Proof.
  intros [_ _ (n & _ & _ & Hall)] Ep. destruct s as [ps o c]. cbn in *. pose proof (Hall _ _ _ Ep) as Hok.
  destruct (next_call h) as [cl|] eqn:E; [|eexists; by eapply step_end].
  assert (Hk : kind h cl) by (apply expect_kind; by rewrite <- next_call_expect by apply Hok).
  assert (exists r o' c', answers p o c cl r o' c') as (r & o' & c' & Ha).
  { destruct Hk; do 3 eexists;
      first [by apply (an_setlk_fails _ _ _ _ _ _ (Resp (-1) EIO []))
            |by apply (an_write_fails _ _ _ _ _ (Resp (-1) EIO []))
            |by apply (an_read_fails _ _ _ _ _ (Resp (-1) EIO []))
            |by apply (an_open _ _ _ _ _ _ (Resp (-1) EIO []))
            |apply (an_close _ _ _ _ (Resp (-1) EIO [])); by right
            |by apply (an_other _ _ _ _ _ (Resp 0 0 []))]. }
  eexists. by eapply step_call.
Qed.

(** All processes are at the start of main, and the file has the contents [c0]. *)
Definition all_start (k : nat) (c0 : list Z) : system := System (replicate k ([], false)) None c0.

Lemma start_inv k c0 : sys_inv c0 (all_start k c0).
Proof.
  constructor; cbn.
  - intros p h [[= ->] _]%lookup_replicate. done.
  - done.
  - exists 0. split; [split; [done|apply zlen_nonneg]|]. split.
    + unfold marked. rewrite pwrite_front. done.
    + intros p h e [[= -> _] _]%lookup_replicate. constructor; [done|cbn; lia|done|done].
Qed.

Lemma start_left k c0 : steps_left (procs (all_start k c0)) = 15 * Z.of_nat k.
Proof. cbn. induction k as [|k IH]; [done|]. cbn [replicate steps_left]. rewrite IH. change (left_of ([], false)) with 15. lia. Qed.


(** Process 0 gets the lock, process 1 is refused and ends, process 0 writes ten bytes,
    and then its release fails. *)
Definition two_run : system :=
  System [([Resp 3 0 []; Resp 7 0 []; Resp 0 0 []; Resp 7 0 []; Resp 10 0 []; Resp 0 0 []; Resp 7 0 []; Resp (-1) EIO []], true);
          ([Resp 3 0 []; Resp 8 0 []; Resp (-1) EAGAIN []], true)]
    None (bytes_of "Hello, thi").

Lemma call_first p r h cl o' c' m s s' :
  procs s !! p = Some (h, false) -> expect h = Some cl -> read_ok h -> answers p (owner s) (content s) cl r o' c' ->
  nsteps step m (System (<[p := (h ++ [r], false)]> (procs s)) o' c') s' -> nsteps step (S m) s s'.
Proof.
  intros Hp Hc Hr Ha Hm. destruct s as [ps o c]. eapply nsteps_l; [|exact Hm].
  eapply step_call; [done| |done]. by rewrite next_call_expect.
Qed.

Lemma end_first p h m s s' :
  procs s !! p = Some (h, false) -> expect h = None -> read_ok h ->
  nsteps step m (System (<[p := (h, true)]> (procs s)) (release p (owner s)) (content s)) s' -> nsteps step (S m) s s'.
Proof.
  intros Hp Hc Hr Hm. destruct s as [ps o c]. eapply nsteps_l; [|exact Hm].
  eapply step_end; [done|]. by rewrite next_call_expect.
Qed.

