(* ===== verification/ChldSig.v ===== *)
(** src/signalling/chld_sig/chld_sig.c: a parent with a signal handler, two children
    that sleep, and a loop that reaps them.  [main] is the run of one process: what
    fork answers decides which. *)
From S2P Require Import Prelude CMonad CLib Decimal.

Definition SIGUSR1 : Z := 10.

Section Code.
Context {K : Type} {HK : Kernel K}.

Definition catcher (sig : Z) : C K unit :=
  printf (cat ["**************** catcher():sig "; fmt_d sig; " ****************"; nl]).

(** [do { rem = sleep(rem); printf(...); } while (rem);] *)
Definition sleep_r_iter (rem : Z) : C K (Z + unit) :=
  r ← sys "sleep" [AI rem];
  let rem := wrapu 32 r in
  printf (cat ["sleep_r():rem="; fmt_d (to_int rem); nl]);;
  mret (if negb (rem =? 0) then inl rem else inr tt).

Definition sleep_r (fuel : nat) (sec : Z) : C K unit :=
  loop fuel sleep_r_iter (wrapu 32 sec).

Definition displayChildStatus (stat cpid : Z) : C K unit :=
  printf (cat [nl; "Child "; fmt_d cpid; " just died!"; nl;
    "WIFEXITED : "; fmt_d (Z.b2z (WIFEXITED stat)); nl;
    "Exit status: "; fmt_d (WEXITSTATUS stat); nl;
    "WIFSIGNALED : "; fmt_d (Z.b2z (WIFSIGNALED stat)); nl;
    "Termination signal: "; fmt_d (WTERMSIG stat); nl;
    "WIFSTOPPED : "; fmt_d (Z.b2z (WIFSTOPPED stat)); nl;
    "Stop signal: "; fmt_d (WSTOPSIG stat); nl;
    "WCOREDUMP: "; fmt_d (Z.land stat 128); nl;
    "WIFCONTINUED: "; fmt_d (Z.b2z (WIFCONTINUED stat)); nl]).

(** The child's part of both forks. *)
Definition child (fuel : nat) (name : string) (sleep_time : Z) : C K unit :=
  pid ← sys "getpid" [];
  printf (cat [name; " PID "; fmt_d pid; " sleeping for "; fmt_d sleep_time; "s..."; nl]);;
  sleep_r fuel sleep_time;;
  exit 0.

Definition createChild (fuel : nat) (sleep_time : Z) : C K unit :=
  n ← sys "fork" [];
  if n =? -1 then perror "fork";; exit 1
  else if n =? 0 then child fuel "Child 2" sleep_time
  else mret tt.

Definition chkrange (num min max : Z) : Z :=
  if num <? min then -2 else if max <? num then -3 else 0.

(** [c1_slptm = atoi(argv[1])]: an unsigned short. *)
Definition sleep_arg (argv0 which arg : string) : C K Z :=
  let slptm := wrapu 16 (atoi arg) in
  if chkrange slptm 1 60 <? 0 then
    fprintf stderr (cat [argv0; ": ensure "; which; " param ["; fmt_d slptm;
                         "] is within acceptable range [1-60]"; nl]);;
    exit 1
  else mret slptm.

(** One turn of [while ((cpid = wait(&stat)) != -1)]; wait stores the status. *)
Definition reap_iter (stat : Z) : C K (Z + unit) :=
  r ← syscall (Csys "wait" []);
  if ret r =? -1 then mret (inr tt)
  else
    let stat := nth 0 (out r) stat in
    displayChildStatus stat (ret r);;
    mret (inl stat).

Definition main (fuel : nat) (argv : list string) : C K Z :=
  '(c1_slptm, c2_slptm) ←
    (if argc argv =? 3 then
       c1 ← sleep_arg (arg_n argv 0) "first" (arg_n argv 1);
       c2 ← sleep_arg (arg_n argv 0) "second" (arg_n argv 2);
       mret (c1, c2)
     else mret (3, 7));
  a ← sys "sigaction" [AI SIGUSR1; AS "catcher"; AI 0];
  (if a =? -1 then perror "sigaction failure";; exit 1 else mret tt);;
  n ← sys "fork" [];
  (if n =? -1 then perror "fork";; exit 1
   else if n =? 0 then child fuel "Child 1" c1_slptm
   else
     createChild fuel c2_slptm;;
     loop fuel reap_iter 0);;
  printf (cat [nl; "Parent: all children dead, exiting..."; nl]);;
  exit 0.

End Code.

(** ** sleep_r *)

Definition sleep_call (rem : Z) : call := Csys "sleep" [AI rem].

(** The calls of a sleep: each asks for what the one before left, the last one left
    nothing. *)
Inductive sleeps : Z -> list event -> Prop :=
| sleeps_done rem r :
    wrapu 32 (ret r) = 0 ->
    sleeps rem [EvCall (sleep_call rem) r; EvOut stdout (cat ["sleep_r():rem="; fmt_d 0; nl])]
| sleeps_more rem r tr :
    wrapu 32 (ret r) <> 0 -> sleeps (wrapu 32 (ret r)) tr ->
    sleeps rem (EvCall (sleep_call rem) r ::
      EvOut stdout (cat ["sleep_r():rem="; fmt_d (to_int (wrapu 32 (ret r))); nl]) :: tr).

(** Only finitely many sleeps are cut short. *)
Definition wakes {K} `{Kernel K} (m : K -> nat) : Prop :=
  forall rem (k k' : K) r, kstep (sleep_call rem) k = (r, k') -> wrapu 32 (ret r) <> 0 -> (m k' < m k)%nat.

Section Sleep.
Context {K : Type} {HK : Kernel K} (m : K -> nat) (Hm : wakes m).

Lemma wp_sleep_r_loop fuel : forall rem (Q : outcome unit -> world K -> Prop) (w : world K),
  (m (kern w) < fuel)%nat ->
  (forall w' tr, trace w' = trace w ++ tr -> sleeps rem tr -> Q (Done tt) w') ->
  wp (loop fuel sleep_r_iter rem) Q w.
Proof.
  induction fuel as [|fuel IH]; intros rem Q w Hf HQ; [lia|]. cbn [loop]. wp_step.
  unfold sleep_r_iter at 1. unfold sys. wp_step. wp_step. apply wp_syscall. intros r k E. cbn [post].
  wp_call. destruct (Z.eqb_spec (wrapu 32 (ret r)) 0) as [E0|E0]; cbn [negb].
  - wp_call. eapply HQ; [cbn [after trace]; rewrite <- app_assoc; reflexivity|]. rewrite E0. by constructor.
  - pose proof (Hm _ _ _ _ E E0). apply IH; [cbn; lia|]. intros w' tr Ht Hs.
    eapply HQ; [rewrite Ht; cbn [after trace]; rewrite <- !app_assoc; reflexivity|]. by constructor.
Qed.

End Sleep.

(** Sleep_r sleeps out its time.  However often its sleep is cut short, as long as
    that is finitely often, sleep_r returns; each sleep asks for exactly the seconds
    the one before left, the first for the argument, and the last left none. *)
Theorem sleep_r_total {K} `{Kernel K} (m : K -> nat) fuel sec (w : world K) :
  wakes m -> (m (kern w) < fuel)%nat ->
  exists w' tr, sleep_r fuel sec w = (Done tt, w') /\ trace w' = trace w ++ tr /\ sleeps (wrapu 32 sec) tr.
Proof.
  intros Hm Hf.
  enough (wp (sleep_r fuel sec) (fun o w' => o = Done tt /\ exists tr, trace w' = trace w ++ tr /\
    sleeps (wrapu 32 sec) tr) w) as (o & w' & E & -> & tr & Ht & Hs)%wp_run by (by exists w', tr).
  apply (wp_sleep_r_loop m); [done..|]. intros w' tr Ht Hs. split; [done|]. by exists tr.
Qed.

(** Every sleep is cut short until the counter is used up. *)
#[local] Instance alarm_kernel : Kernel nat := fun c k =>
  match c, k with
  | Csys "sleep" _, S k' => (Resp 1 0 [], k')
  | Csys "fork" _, _ => (Resp 77 0 [], k)
  | Csys "wait" _, S k' => (Resp 77 0 [0], k')
  | Csys "wait" _, O => (Resp (-1) 10 [], k)
  | _, _ => (Resp 0 0 [], k)
  end.

Lemma alarm_wakes : @wakes nat alarm_kernel id.
Proof.
  intros rem k k' r. unfold kstep, alarm_kernel, sleep_call. destruct k; intros [= <- <-]; cbn; [done|lia].
Qed.

Lemma sleep_r_total_witness :
  exists w' tr, sleep_r 5 40 (World 3%nat 0 []) = (Done tt, w') /\ trace w' = [] ++ tr /\ sleeps (wrapu 32 40) tr.
Proof. apply (sleep_r_total id 5 40 (World 3%nat 0 [])); [apply alarm_wakes|cbn; lia]. Defined.

(** ** The parent *)

Definition status_text (stat cpid : Z) : event :=
  EvOut stdout (cat [nl; "Child "; fmt_d cpid; " just died!"; nl;
    "WIFEXITED : "; fmt_d (Z.b2z (WIFEXITED stat)); nl;
    "Exit status: "; fmt_d (WEXITSTATUS stat); nl;
    "WIFSIGNALED : "; fmt_d (Z.b2z (WIFSIGNALED stat)); nl;
    "Termination signal: "; fmt_d (WTERMSIG stat); nl;
    "WIFSTOPPED : "; fmt_d (Z.b2z (WIFSTOPPED stat)); nl;
    "Stop signal: "; fmt_d (WSTOPSIG stat); nl;
    "WCOREDUMP: "; fmt_d (Z.land stat 128); nl;
    "WIFCONTINUED: "; fmt_d (Z.b2z (WIFCONTINUED stat)); nl]).

Definition wait_call : call := Csys "wait" [].

(** Each child that is reaped is reported with its own status, until none is left. *)
Inductive reaps : Z -> list event -> Prop :=
| reaps_done stat r : ret r = -1 -> reaps stat [EvCall wait_call r]
| reaps_more stat r tr :
    ret r <> -1 -> reaps (nth 0 (out r) stat) tr ->
    reaps stat (EvCall wait_call r :: status_text (nth 0 (out r) stat) (ret r) :: tr).

(** The sleeping times main accepts. *)
Definition arg_ok (s : string) : Prop := 1 <= wrapu 16 (atoi s) <= 60.

Definition args_ok (argv : list string) : Prop :=
  argc argv = 3 -> arg_ok (arg_n argv 1) /\ arg_ok (arg_n argv 2).

Definition sigaction_call : call := Csys "sigaction" [AI SIGUSR1; AS "catcher"; AI 0].

(** The endings of the parent. *)
Definition parent_done (argv : list string) (o : outcome Z) (tr : list event) : Prop :=
  (o = Halt (HExit 1) /\
     (~ args_ok argv \/ args_ok argv /\ exists r, EvCall sigaction_call r ∈ tr /\ ret r = -1)) \/
  (o = Halt (HExit 0) /\ args_ok argv /\ exists pre reap,
     tr = pre ++ reap ++ [EvOut stdout (cat [nl; "Parent: all children dead, exiting..."; nl])] /\
     reaps 0 reap).

(** What the parent's kernel does: fork answers with a child's number, and there
    are finitely many children to wait for. *)
Record parents_kernel {K} `{Kernel K} (m : K -> nat) : Prop := ParentsKernel {
  pk_fork : forall (k k' : K) r, kstep (Csys "fork" []) k = (r, k') -> 0 < ret r;
  pk_wait : forall (k k' : K) r, kstep wait_call k = (r, k') -> ret r <> -1 -> (m k' < m k)%nat }.

Section Parent.
Context {K : Type} {HK : Kernel K} (m : K -> nat) (Hm : parents_kernel m).

Lemma wp_reap_loop fuel : forall stat (Q : outcome unit -> world K -> Prop) (w : world K),
  (m (kern w) < fuel)%nat ->
  (forall w' tr, trace w' = trace w ++ tr -> reaps stat tr -> Q (Done tt) w') ->
  wp (loop fuel reap_iter stat) Q w.
Proof.
  induction fuel as [|fuel IH]; intros stat Q w Hf HQ; [lia|]. cbn [loop]. wp_step.
  unfold reap_iter at 1. wp_step. apply wp_syscall. intros r k E. cbn [post].
  destruct (Z.eqb_spec (ret r) (-1)) as [E0|E0].
  - wp_call. eapply HQ; [cbn [after trace]; reflexivity|]. by constructor.
  - unfold displayChildStatus. wp_call. pose proof (pk_wait m Hm _ _ _ E E0).
    apply IH; [cbn; lia|]. intros w' tr Ht Hs.
    eapply HQ; [rewrite Ht; cbn [after trace]; rewrite <- !app_assoc; reflexivity|]. by constructor.
Qed.

Lemma wp_sleep_arg argv0 which arg (Q : outcome Z -> world K -> Prop) (w : world K) :
  (arg_ok arg -> Q (Done (wrapu 16 (atoi arg))) w) ->
  (forall w' e, trace w' = trace w ++ [e] -> ~ arg_ok arg -> Q (Halt (HExit 1)) w') ->
  wp (sleep_arg argv0 which arg) Q w.
Proof.
  intros HQ HX. unfold sleep_arg, chkrange, arg_ok in *.
  destruct (Z.ltb_spec (wrapu 16 (atoi arg)) 1).
  { change (-2 <? 0) with true. wp_call. eapply HX; [done|lia]. }
  destruct (Z.ltb_spec 60 (wrapu 16 (atoi arg))).
  { change (-3 <? 0) with true. wp_call. eapply HX; [done|lia]. }
  change (0 <? 0) with false. wp_call. apply HQ. lia.
Qed.

(** From the handler to the end, for arguments that were accepted. *)
Lemma wp_parent_rest fuel argv c1 c2 (w0 w : world K) :
  (forall k, (m k < fuel)%nat) -> args_ok argv -> trace w = trace w0 ->
  wp (a ← sys "sigaction" [AI SIGUSR1; AS "catcher"; AI 0];
      (if a =? -1 then perror "sigaction failure";; exit 1 else mret tt);;
      n ← sys "fork" [];
      (if n =? -1 then perror "fork";; exit 1
       else if n =? 0 then child fuel "Child 1" c1
       else createChild fuel c2;; loop fuel reap_iter 0);;
      printf (cat [nl; "Parent: all children dead, exiting..."; nl]);;
      exit 0)
     (fun o w' => exists tr, trace w' = trace w0 ++ tr /\ parent_done argv o tr) w.
Proof.
  intros Hf Hargs Hw. unfold createChild. wp_call. apply wp_syscall. intros a ka _. cbn [post]. wp_call.
  destruct (Z.eqb_spec (ret a) (-1)) as [Ea|Ea].
  { wp_call. eexists. split; [cbn [after trace]; rewrite Hw, <- app_assoc; reflexivity|].
    left. split; [done|]. right. split; [done|]. exists a. split; [ev_in|done]. }
  wp_call. apply wp_syscall. intros f1 k1 E1. cbn [post]. apply (pk_fork m Hm) in E1. wp_call.
  destruct (Z.eqb_spec (ret f1) (-1)); [lia|]. destruct (Z.eqb_spec (ret f1) 0); [lia|]. wp_call.
  apply wp_syscall. intros f2 k2 E2. cbn [post]. apply (pk_fork m Hm) in E2. wp_call.
  destruct (Z.eqb_spec (ret f2) (-1)); [lia|]. destruct (Z.eqb_spec (ret f2) 0); [lia|]. wp_call.
  apply wp_reap_loop; [apply Hf|]. intros w' reap Ht Hr. cbn [post]. wp_call.
  eexists. split; [cbn [after trace] in *; rewrite Ht, Hw, <- !app_assoc; reflexivity|].
  right. split; [done|]. split; [done|]. cbn [app].
  eexists [_; _; _], reap. split; [cbn [app]; reflexivity|done].
Qed.

Lemma wp_chld_main fuel argv (w : world K) :
  (forall k, (m k < fuel)%nat) ->
  wp (main fuel argv) (fun o w' => exists tr, trace w' = trace w ++ tr /\ parent_done argv o tr) w.
Proof.
  intros Hf. unfold main. wp_step. destruct (Z.eqb_spec (argc argv) 3) as [E3|E3].
  - wp_step. apply wp_sleep_arg.
    2: { intros w' e Ht Hb. exists [e]. split; [done|]. left. split; [done|]. left. intros Ha. by destruct (Ha E3). }
    intros H1. cbn [post]. wp_step. apply wp_sleep_arg.
    2: { intros w' e Ht Hb. exists [e]. split; [done|]. left. split; [done|]. left. intros Ha. by destruct (Ha E3). }
    intros H2. cbn [post]. wp_step. cbn [post]. cbv iota beta. by apply wp_parent_rest.
  - wp_step. cbv iota beta. by apply wp_parent_rest.
Qed.

End Parent.

(** The parent reaps its children.  For every kernel on which fork makes a child
    and finitely many children are left to wait for, main ends.  It exits with 1 only
    when an argument, taken modulo 65536, is outside 1 to 60 or the handler cannot be
    installed; otherwise it exits with 0, after each child it waited for was reported
    with its own status and no child was left. *)
Theorem chld_parent_reaps {K} `{Kernel K} (m : K -> nat) fuel argv (w : world K) :
  parents_kernel m -> (forall k, (m k < fuel)%nat) ->
  exists o w' tr, main fuel argv w = (o, w') /\ trace w' = trace w ++ tr /\ parent_done argv o tr.
Proof.
  intros H1 H2. destruct (wp_run _ _ _ (wp_chld_main m H1 fuel argv w H2)) as (o & w' & E & tr & H'). by exists o, w', tr.
Qed.

(** Two children at most. *)
Definition family (k : nat) : nat := Nat.min k 2.

#[local] Instance family_kernel : Kernel nat := fun c k => alarm_kernel c (family k).

Lemma family_parents : @parents_kernel nat family_kernel family.
Proof.
  split.
  - intros k k' r. unfold kstep, family_kernel, alarm_kernel. destruct (family k); by intros [= <- <-].
  - intros k k' r. unfold kstep, family_kernel, alarm_kernel, wait_call.
    assert (family k <= 2)%nat by (unfold family; lia). destruct (family k) as [|n] eqn:E; intros [= <- <-]; [done|].
    intros _. unfold family in *. lia.
Qed.

Lemma chld_parent_reaps_witness :
  exists o w' tr, @main nat family_kernel 3 ["chld_sig"; "65541"; "4"] (World 2%nat 0 []) = (o, w') /\
    trace w' = [] ++ tr /\ parent_done ["chld_sig"; "65541"; "4"] o tr.
Proof.
  apply (@chld_parent_reaps nat family_kernel family 3 ["chld_sig"; "65541"; "4"] (World 2%nat 0 [])).
  - apply family_parents.
  - intros k. unfold family. lia.
Defined.

(** The argument 65541 is accepted, as 5. *)
Lemma chld_arg_wraps : arg_ok "65541" /\ atoi "65541" = 65541 /\ wrapu 16 (atoi "65541") = 5.
Proof. unfold arg_ok. by vm_compute. Qed.
