(* ===== verification/Strerror.v ===== *)
(** The three strerror functions of src/pthreads/tls_eg and
    src/pthreads/tlpi_TLS_TSD/tsd_and_tls: with a static buffer, with a thread-local
    buffer and with thread-specific data, and the program strerror_test.c that tells
    them apart.  What a client needs of a strerror is the class [ThreadSafe]; two
    of the functions have it, and the client's theorems follow from it. *)
From S2P Require Import Prelude CMonad CLib Decimal.

Definition MAX_ERROR_LEN : Z := 256.
Definition EPERM : Z := 1.

(** ** The memory of a process with threads

    [cells] are the memory objects by address; [once] and [key] belong to
    pthread_once and the key, [specific] is the value of the key in each thread;
    [faults] tells which of the calls that can fail do. *)
Record heap := Heap {
  cells : gmap Z mem;
  once : bool;
  key : bool;
  specific : gmap nat Z;
  next : Z;
  faults : list bool }.

(** A call that allocates fails when the next fault says so. *)
Definition next_fault (h : heap) : bool * heap :=
  match faults h with
  | [] => (false, h)
  | b :: fs => (b, Heap (cells h) (once h) (key h) (specific h) (next h) fs)
  end.

(** The thread calls of the programs: 0 or an error number. *)
#[export] Instance heap_kernel : Kernel heap :=
  fun c h => let '(b, h') := next_fault h in (Resp (if b then 11 else 0) 0 [], h').

Definition get {A} (f : heap -> A) : C heap A := fun w => (Done (f (kern w)), w).

Definition put (f : heap -> heap) : C heap unit :=
  fun w => (Done tt, World (f (kern w)) (errno w) (trace w)).

Definition fault : C heap bool :=
  fun w => let '(b, h) := next_fault (kern w) in (Done b, World h (errno w) (trace w)).

Definition load (a : Z) : C heap mem :=
  m ← get (fun h => cells h !! a);
  match m with Some m => mret m | None => undefined (UB_bounds "memory" a) end.

Definition set_cell (a : Z) (m : mem) (h : heap) : heap :=
  Heap (<[a := m]> (cells h)) (once h) (key h) (specific h) (next h) (faults h).

Definition store (a : Z) (m : mem) : C heap unit := put (set_cell a m).

Definition malloc (n : Z) : C heap Z :=
  b ← fault;
  if (b : bool) then mret 0
  else
    a ← get next;
    put (fun h => Heap (<[a := uninit n]> (cells h)) (once h) (key h) (specific h) (next h + 1) (faults h));;
    mret a.

Definition pthread_key_create : C heap Z :=
  b ← fault;
  if (b : bool) then mret 11
  else put (fun h => Heap (cells h) (once h) true (specific h) (next h) (faults h));; mret 0.

Definition pthread_once (f : C heap unit) : C heap Z :=
  o ← get once;
  if (o : bool) then mret 0
  else f;; put (fun h => Heap (cells h) true (key h) (specific h) (next h) (faults h));; mret 0.

Definition pthread_getspecific (t : nat) : C heap Z := get (fun h => default 0 (specific h !! t)).

Definition pthread_setspecific (t : nat) (a : Z) : C heap Z :=
  b ← fault;
  if (b : bool) then mret 12
  else put (fun h => Heap (cells h) (once h) (key h) (<[t := a]> (specific h)) (next h) (faults h));; mret 0.

Section Strerror.
(** The table of the C library. *)
Context (sys_nerr : Z) (sys_errlist : Z -> option string).

Definition handleErr (fn : string) (use_errno fatal_error : bool) : C heap unit :=
  fprintf stderr (cat [fn; ": error!"; nl]);;
  when use_errno (perror "failed.");;
  if fatal_error then exit 1 else mret tt.

(** The entry of the table, if it has one. *)
Definition entry (err : Z) : option string :=
  if (err <? 0) || (sys_nerr <=? err) then None else sys_errlist err.

(** [strncpy(buf, s, n)] pads with NUL bytes. *)
Definition strncpy (n : Z) (s : list Z) : list Z :=
  ztake n s ++ replicate (Z.to_nat (n - zlen s)) 0.

(** The body the three functions share: the text of [err] goes to [buf]. *)
Definition fill_buf (buf : Z) (err : Z) : C heap unit :=
  m ← load buf;
  m ← match entry err with
      | None => copy_in "buf" m 0
                  (bytes_of (snprintf MAX_ERROR_LEN (cat ["Unknown error "; fmt_d err])) ++ [0])
      | Some s => m ← copy_in "buf" m 0 (strncpy (MAX_ERROR_LEN - 1) (bytes_of s));
                  wr "buf" m (MAX_ERROR_LEN - 1) 0
      end;
  store buf m.

(** strerror.c: one buffer for all threads. *)
Definition STATIC_BUF : Z := 1.

Definition strerror_unsafe (t : nat) (err : Z) : C heap Z :=
  fill_buf STATIC_BUF err;; mret STATIC_BUF.

(** strerror_tls.c: a buffer in each thread's own storage. *)
Definition tls_buf (t : nat) : Z := 1 + Z.of_nat t.

Definition strerror_tls (t : nat) (err : Z) : C heap Z :=
  fill_buf (tls_buf t) err;; mret (tls_buf t).

(** strerror_tsd.c *)
Definition createKey : C heap unit :=
  s ← pthread_key_create;
  if negb (s =? 0) then handleErr "pthread_key_create" true true else mret tt.

Definition strerror_tsd (t : nat) (err : Z) : C heap Z :=
  s ← pthread_once createKey;
  (if negb (s =? 0) then handleErr "pthread_once" true true else mret tt);;
  buf ← pthread_getspecific t;
  buf ← (if buf =? 0 then
           buf ← malloc MAX_ERROR_LEN;
           (if buf =? 0 then handleErr "malloc" false true else mret tt);;
           s ← pthread_setspecific t buf;
           (if negb (s =? 0) then handleErr "pthread_setspecific" true true else mret tt);;
           mret buf
         else mret buf);
  fill_buf buf err;;
  mret buf.

Definition free (a : Z) : C heap unit :=
  put (fun h => Heap (delete a (cells h)) (once h) (key h) (specific h) (next h) (faults h)).

Definition destructor (buf : Z) : C heap unit := free buf.

(** What the C library does with the key when a thread ends: the value is reset and
    the destructor called with it. *)
Definition tsd_leave (t : nat) : C heap unit :=
  buf ← pthread_getspecific t;
  if buf =? 0 then mret tt
  else
    put (fun h => Heap (cells h) (once h) (key h) (delete t (specific h)) (next h) (faults h));;
    destructor buf.

(** A static or thread-local buffer needs no such step; nobody reads the storage
    of a thread that has ended. *)
Definition no_leave (t : nat) : C heap unit := mret tt.

(** ** The programs, for any strerror *)

Section Test.
Context (strerror : nat -> Z -> C heap Z) (leave : nat -> C heap unit).

(** [printf("... %s", str)] reads the text at the address then. *)
Definition show (who : string) (str : Z) : C heap unit :=
  m ← load str;
  text ← cstr "str" m 0;
  printf (cat [who; fmt_p str; ") = "; text_of text; nl]).

Definition threadFunc : C heap unit :=
  printf (cat ["Other thread about to call strerror()"; nl]);;
  str ← strerror 1%nat EPERM;
  show "Other thread: str (" str.

(** The other thread runs between its creation and the join. *)
Definition test_main : C heap Z :=
  str ← strerror 0%nat EINVAL;
  printf (cat ["Main thread has called strerror()"; nl]);;
  s ← sys "pthread_create" [AS "threadFunc"];
  (if negb (s =? 0) then handleErr "pthread_create" true true else mret tt);;
  threadFunc;; leave 1%nat;;
  s ← sys "pthread_join" [AI 1];
  (if negb (s =? 0) then handleErr "pthread_create" true true else mret tt);;
  show "Main thread:  str (" str;;
  exit 0.

(** The programs of src/pthreads/tls_eg; [buf] is the address of the thread's buffer. *)
Definition thrd_func (buf : nat -> Z) : C heap unit :=
  str ← strerror 1%nat ENOMEM;
  m ← load str;
  text ← cstr "str" m 0;
  printf (cat ["thrd_func: &buf = "; fmt_p (buf 1%nat); " ; str ("; fmt_p str; ") = "; text_of text; nl]).

Definition eg_main (buf : nat -> Z) : C heap Z :=
  str ← strerror 0%nat EPERM;
  m ← load str;
  text ← cstr "str" m 0;
  printf (cat ["main:      &buf = "; fmt_p (buf 0%nat); " ; str ("; fmt_p str; ") = "; text_of text; nl]);;
  s ← sys "pthread_create" [AS "thrd_func"];
  (if negb (s =? 0) then perror "p_c failed";; exit 1 else mret tt);;
  thrd_func buf;; leave 1%nat;;
  rc ← sys "pthread_join" [AI 1];
  if negb (rc =? 0) then
    printf (cat ["ERROR; return code from pthread_join() is "; fmt_d rc; nl]);; exit 1
  else mret 0.

(** What threads do, one after the other: a call with an error number, or the end
    of the thread.  The result is the address and the error number of the last call
    of each thread that still runs. *)
Fixpoint calls (l : list (nat * option Z)) (last : gmap nat (Z * Z)) : C heap (gmap nat (Z * Z)) :=
  match l with
  | [] => mret last
  | (t, Some err) :: l' => a ← strerror t err; calls l' (<[t := (a, err)]> last)
  | (t, None) :: l' => leave t;; calls l' (delete t last)
  end.

End Test.

End Strerror.

(** ** What the functions promise *)

Lemma wp_load a m (Q : outcome mem -> world heap -> Prop) w :
  cells (kern w) !! a = Some m -> Q (Done m) w -> wp (load a) Q w.
Proof. intros E HQ. unfold wp, load, mbind, C_bind, get. cbn [fst snd]. by rewrite E. Qed.

Section Promise.
Context (sys_nerr : Z) (sys_errlist : Z -> option string).
(** The texts of the table are C strings. *)
Hypothesis table : forall err s, sys_errlist err = Some s -> no_nul s.

(** The text strerror stands for, cut to the room in the buffer. *)
Definition message (err : Z) : list Z :=
  match entry sys_nerr sys_errlist err with
  | None => bytes_of (snprintf MAX_ERROR_LEN (cat ["Unknown error "; fmt_d err]))
  | Some s => ztake (MAX_ERROR_LEN - 1) (bytes_of s)
  end.

Definition reads (h : heap) (a : Z) (text : list Z) : Prop :=
  exists m, cells h !! a = Some m /\ cstr_of m = Some text.

Lemma entry_text err s : entry sys_nerr sys_errlist err = Some s -> no_nul s.
Proof. unfold entry. destruct (_ || _); [done|]. apply table. Qed.

Lemma message_text err : nonzero (message err) /\ zlen (message err) < MAX_ERROR_LEN.
Proof.
  unfold message. destruct (entry _ _ err) as [s|] eqn:E.
  - apply entry_text in E. split; [by apply Forall_take|].
    unfold zlen, ztake, MAX_ERROR_LEN. rewrite length_take. lia.
  - split.
    + unfold snprintf. rewrite bytes_of_substring. apply Forall_take.
      change (no_nul (cat ["Unknown error "; fmt_d err])). unfold cat. cbn [foldr].
      apply no_nul_app; [by repeat constructor|]. apply no_nul_app; [apply fmt_d_no_nul|constructor].
    + rewrite zlen_bytes_of. unfold snprintf. pose proof (strlen_substring (Z.to_nat (MAX_ERROR_LEN - 1))
        (cat ["Unknown error "; fmt_d err])). unfold MAX_ERROR_LEN in *. lia.
Qed.

(** A buffer that starts with a text and a NUL. *)
Lemma cstr_blit m text rest :
  nonzero text -> zlen text + 1 + zlen rest <= zlen m ->
  cstr_of (blit m 0 (text ++ 0 :: rest)) = Some text.
Proof.
  intros Hn Hl. unfold blit. cbn [app]. change (ztake 0 m) with (@nil (option Z)). cbn [app].
  rewrite init_app. cbn [init map]. rewrite <- app_assoc. cbn [app]. by apply cstr_of_init.
Qed.

(** [strncpy] and the store of the last NUL leave the cut text in the buffer. *)
Lemma strncpy_text m s :
  nonzero s -> zlen m = MAX_ERROR_LEN ->
  cstr_of (zset (blit m 0 (strncpy (MAX_ERROR_LEN - 1) s)) (MAX_ERROR_LEN - 1) (Some 0))
    = Some (ztake (MAX_ERROR_LEN - 1) s).
Proof.
  intros Hs Hm. unfold strncpy. pose proof (zlen_nonneg s).
  destruct (Z.le_gt_cases (MAX_ERROR_LEN - 1) (zlen s)) as [Hl|Hl].
  - replace (Z.to_nat (MAX_ERROR_LEN - 1 - zlen s)) with 0%nat by lia. cbn [replicate]. rewrite app_nil_r.
    set (t := ztake (MAX_ERROR_LEN - 1) s). assert (zlen t = MAX_ERROR_LEN - 1) as Ht
      by (apply zlen_ztake; unfold MAX_ERROR_LEN in *; lia).
    assert (Hb : blit m 0 t = overlay t m).
    { apply (overlay_blit [] t m). rewrite (@zlen_nil Z). unfold MAX_ERROR_LEN in *. lia. }
    rewrite Hb, <- Ht, zset_overlay by (unfold MAX_ERROR_LEN in *; lia).
    apply cstr_overlay. by apply Forall_take.
  - rewrite ztake_all by lia.
    assert (exists k, Z.to_nat (MAX_ERROR_LEN - 1 - zlen s) = S k) as [k Ek]
      by (exists (Z.to_nat (MAX_ERROR_LEN - 2 - zlen s)); lia).
    rewrite Ek. cbn [replicate]. unfold blit. change (ztake 0 m) with (@nil (option Z)). cbn [app].
    rewrite init_app. cbn [init map]. rewrite <- app_assoc. cbn [app]. unfold zset.
    destruct (Z.ltb_spec (MAX_ERROR_LEN - 1) 0); [unfold MAX_ERROR_LEN in *; lia|].
    rewrite insert_app_r_alt by (rewrite length_init; unfold zlen, MAX_ERROR_LEN in *; lia).
    rewrite length_init.
    assert (exists j, (Z.to_nat (MAX_ERROR_LEN - 1) - length s)%nat = S j) as [j Ej].
    { exists (Z.to_nat (MAX_ERROR_LEN - 2) - length s)%nat. unfold zlen, MAX_ERROR_LEN in *. lia. }
    rewrite Ej. cbn [insert list_insert]. by apply cstr_of_init.
Qed.

Lemma wp_fill_buf buf err m (Q : outcome unit -> world heap -> Prop) w :
  cells (kern w) !! buf = Some m -> zlen m = MAX_ERROR_LEN ->
  (forall m', zlen m' = MAX_ERROR_LEN -> cstr_of m' = Some (message err) ->
     Q (Done tt) (World (set_cell buf m' (kern w)) (errno w) (trace w))) ->
  wp (fill_buf sys_nerr sys_errlist buf err) Q w.
Proof.
  intros Hm Hl HQ. destruct (message_text err) as [Hnz Hlen]. unfold message in *.
  unfold fill_buf. wp_step. eapply wp_load; [done|]. cbn [post]. wp_step.
  destruct (entry sys_nerr sys_errlist err) as [s|] eqn:E.
  - pose proof (zlen_nonneg (bytes_of s)). assert (Hz : zlen (strncpy (MAX_ERROR_LEN - 1) (bytes_of s)) = MAX_ERROR_LEN - 1).
    { unfold strncpy. rewrite zlen_app, zlen_replicate. unfold ztake, zlen, MAX_ERROR_LEN in *. rewrite length_take. lia. }
    wp_step. apply wp_copy_in; [done|rewrite Hz; unfold MAX_ERROR_LEN in *; lia|]. cbn [post].
    assert (Hb : zlen (blit m 0 (strncpy (MAX_ERROR_LEN - 1) (bytes_of s))) = MAX_ERROR_LEN).
    { rewrite zlen_blit; [done|done|]. rewrite Hz. unfold MAX_ERROR_LEN in *. lia. }
    apply wp_wr; [rewrite Hb; unfold MAX_ERROR_LEN; lia|]. cbn [post].
    apply HQ; [by rewrite zlen_zset|]. apply strncpy_text; [by eapply entry_text|done].
  - apply wp_copy_in; [done|rewrite zlen_snoc; lia|]. cbn [post]. apply HQ.
    + rewrite zlen_blit; [done|done|]. rewrite zlen_snoc. lia.
    + apply (cstr_blit m _ []); [done|]. rewrite (@zlen_nil Z). lia.
Qed.

(** Two heaps that differ at most in their faults and in pthread_once. *)
Definition like (h h' : heap) : Prop :=
  cells h' = cells h /\ specific h' = specific h /\ next h' = next h.

(** What a client relies on.  A call by one of the first [n] threads returns an
    address that is its own and shows the message, or ends the process; neither it
    nor the end of a thread touches the addresses of the other threads, and calls
    of other functions matter to none. *)
Class ThreadSafe (n : nat) (strerror : nat -> Z -> C heap Z) (leave : nat -> C heap unit) := {
  ts_inv : heap -> Prop;
  ts_owns : heap -> nat -> Z -> Prop;
  ts_like : forall h h', like h h' -> ts_inv h -> ts_inv h' /\
    forall t a, ts_owns h t a -> ts_owns h' t a;
  ts_call : forall t err (w : world heap), (t < n)%nat -> ts_inv (kern w) ->
    wp (strerror t err)
       (post (fun a w' => ts_inv (kern w') /\ ts_owns (kern w') t a /\ reads (kern w') a (message err) /\
                trace w' = trace w /\
                forall t' a', t' <> t -> ts_owns (kern w) t' a' ->
                  ts_owns (kern w') t' a' /\ cells (kern w') !! a' = cells (kern w) !! a')
             (fun h _ => h = HExit 1)) w;
  ts_leave : forall t (w : world heap), (t < n)%nat -> ts_inv (kern w) ->
    wp (leave t)
       (post (fun _ w' => ts_inv (kern w') /\ trace w' = trace w /\
                forall t' a', t' <> t -> ts_owns (kern w) t' a' ->
                  ts_owns (kern w') t' a' /\ cells (kern w') !! a' = cells (kern w) !! a')
             (fun _ _ => False)) w }.

(** *** Thread-local storage *)

(** Each thread has its buffer. *)
Definition tls_inv (n : nat) (h : heap) : Prop :=
  forall t, (t < n)%nat -> exists m, cells h !! tls_buf t = Some m /\ zlen m = MAX_ERROR_LEN.

#[export] Program Instance tls_safe n : ThreadSafe n (strerror_tls sys_nerr sys_errlist) no_leave :=
  {| ts_inv := tls_inv n; ts_owns h t a := (t < n)%nat /\ a = tls_buf t |}.
Next Obligation. intros n h h' (E & _ & _) Hi. unfold tls_inv. by rewrite E. Qed.
Next Obligation.
  intros n t err w Ht Hi. unfold strerror_tls. wp_step. destruct (Hi t Ht) as (m & Hm & Hl).
  eapply wp_fill_buf; [done..|]. intros m' Hl' Hc'. cbn [post]. wp_step. cbn [kern].
  split_and!; [|done|done|by exists m'; cbn; rewrite lookup_insert_eq|done|].
  - intros t' Ht'. cbn. destruct (decide (t' = t)) as [->|Hne]; [rewrite lookup_insert_eq; by exists m'|].
    rewrite lookup_insert_ne by (unfold tls_buf; lia). by apply Hi.
  - intros t' a' Hne [Ht' ->]. split; [done|]. cbn. by rewrite lookup_insert_ne by (unfold tls_buf; lia).
Qed.

Next Obligation. intros n t w Ht Hi. unfold no_leave. wp_step. auto. Qed.

(** *** Thread-specific data *)

(** The key's value in a thread is the thread's own block. *)
Record tsd_inv (h : heap) : Prop := TsdInv {
  tsd_next : 0 < next h;
  tsd_block : forall t a, specific h !! t = Some a ->
    0 < a < next h /\ exists m, cells h !! a = Some m /\ zlen m = MAX_ERROR_LEN;
  tsd_own : forall t t' a, specific h !! t = Some a -> specific h !! t' = Some a -> t = t' }.

Lemma wp_fault (Q : outcome bool -> world heap -> Prop) w :
  (forall b h, like (kern w) h -> Q (Done b) (World h (errno w) (trace w))) -> wp fault Q w.
Proof.
  intros HQ. unfold wp, fault, next_fault. destruct w as [h e tr]. cbn [kern errno trace] in *.
  destruct (faults h); cbn [fst snd]; by apply HQ.
Qed.

Lemma wp_heap_get {A} (f : heap -> A) (Q : outcome A -> world heap -> Prop) w :
  Q (Done (f (kern w))) w -> wp (get f) Q w.
Proof. done. Qed.

Lemma wp_heap_put f (Q : outcome unit -> world heap -> Prop) w :
  Q (Done tt) (World (f (kern w)) (errno w) (trace w)) -> wp (put f) Q w.
Proof. done. Qed.

Lemma wp_fatal fn b (Q : outcome unit -> world heap -> Prop) w :
  (forall w', Q (Halt (HExit 1)) w') -> wp (handleErr fn b true) Q w.
Proof. intros HQ. unfold handleErr. destruct b; wp_go; apply HQ. Qed.

Lemma wp_once (Q : outcome Z -> world heap -> Prop) w :
  (forall h, like (kern w) h -> Q (Done 0) (World h (errno w) (trace w))) ->
  (forall w', Q (Halt (HExit 1)) w') -> wp (pthread_once createKey) Q w.
Proof.
  intros HQ HX. unfold pthread_once. wp_step. apply wp_heap_get. cbn [post]. destruct (once (kern w)).
  - wp_step. destruct w. by apply HQ.
  - wp_step. unfold createKey, pthread_key_create. wp_step. wp_step. apply wp_fault. intros b h Hh. cbn [post].
    destruct b.
    + wp_step. change (negb (11 =? 0)) with true. cbv iota. apply wp_fatal. intros w'. apply HX.
    + wp_step. apply wp_heap_put. cbn [post]. wp_step. change (negb (0 =? 0)) with false. wp_call.
      apply wp_heap_put. cbn [post]. wp_step. by apply HQ.
Qed.

Lemma like_inv h h' : like h h' -> tsd_inv h -> tsd_inv h'.
Proof. intros (E1 & E2 & E3) [H1 H2 H3]. constructor; rewrite ?E1, ?E2, ?E3; auto. Qed.

(** The thread's buffer, allocated on its first call. *)
Lemma wp_tsd_buf {A} t (f : Z -> C heap A) (Q : outcome A -> world heap -> Prop) w :
  tsd_inv (kern w) ->
  (forall a h, tsd_inv h -> specific h !! t = Some a ->
     (forall t' a', t' <> t -> specific (kern w) !! t' = Some a' ->
        specific h !! t' = Some a' /\ cells h !! a' = cells (kern w) !! a') ->
     wp (f a) Q (World h (errno w) (trace w))) ->
  (forall w', Q (Halt (HExit 1)) w') ->
  wp (buf ← pthread_getspecific t;
      buf ← (if buf =? 0 then
               buf ← malloc MAX_ERROR_LEN;
               (if buf =? 0 then handleErr "malloc" false true else mret tt);;
               s ← pthread_setspecific t buf;
               (if negb (s =? 0) then handleErr "pthread_setspecific" true true else mret tt);;
               mret buf
             else mret buf);
      f buf) Q w.
Proof.
  intros Hi HQ HX. wp_step. apply wp_heap_get. cbn [post]. wp_step. destruct Hi as [H1 H2 H3].
  destruct (specific (kern w) !! t) as [a|] eqn:Et; cbn [from_option id].
  { destruct (H2 t a Et) as [Ha _]. destruct (Z.eqb_spec a 0); [lia|]. wp_step. destruct w as [h e tr]. apply HQ; [by constructor|done|auto]. }
  change (0 =? 0) with true. cbv iota. wp_step. unfold malloc. wp_step. apply wp_fault. intros b h (E1 & E2 & E3).
  cbn [post]. destruct b.
  { wp_step. change (0 =? 0) with true. cbv iota. wp_step. apply wp_fatal. intros w'. apply HX. }
  wp_step. apply wp_heap_get. cbn [post kern]. wp_step. apply wp_heap_put. cbn [post]. wp_step.
  destruct (Z.eqb_spec (next h) 0); [lia|]. wp_call. unfold pthread_setspecific. wp_step. apply wp_fault.
  intros b h2 (F1 & F2 & F3). cbn [post kern cells specific next] in *. destruct b.
  { wp_step. change (negb (12 =? 0)) with true. cbv iota. wp_step. apply wp_fatal. intros w'. apply HX. }
  wp_step. apply wp_heap_put. cbn [post]. wp_step. change (negb (0 =? 0)) with false. wp_call. cbn [kern].
  assert (Hold : forall t' a', t' <> t -> specific (kern w) !! t' = Some a' ->
    a' <> next h /\ 0 < a' < next (kern w)).
  { intros t' a' _ E'. destruct (H2 t' a' E') as [? _]. lia. }
  apply HQ; cbn [specific cells next].
  - constructor; cbn [specific cells next].
    + lia.
    + intros t' a'. rewrite lookup_insert_Some, F2, E2, F1, E1, F3, E3. intros [[<- <-]|[Hne E']].
      * split; [lia|]. rewrite lookup_insert_eq. eexists. split; [done|]. by apply zlen_uninit.
      * destruct (H2 t' a' E') as [Ha (m & Hm & Hz)]. split; [lia|]. rewrite lookup_insert_ne by lia. by exists m.
    + intros t1 t2 a'. rewrite !lookup_insert_Some, F2, E2. intros [[<- <-]|[N1 G1]] [[<- G]|[N2 G2]]; try done.
      * destruct (H2 _ _ G2) as [? _]. lia.
      * destruct (H2 _ _ G1) as [? _]. lia.
      * by eapply H3.
  - by rewrite lookup_insert_eq.
  - intros t' a' Hne E'. rewrite lookup_insert_ne, F2, E2 by done. split; [done|].
    rewrite F1, E1. destruct (Hold t' a' Hne E'). by rewrite lookup_insert_ne by lia.
Qed.

#[export] Program Instance tsd_safe n : ThreadSafe n (strerror_tsd sys_nerr sys_errlist) tsd_leave :=
  {| ts_inv := tsd_inv; ts_owns h t a := specific h !! t = Some a |}.
Next Obligation. intros n h h' Hh Hi. split; [by eapply like_inv|]. destruct Hh as (_ & E & _). intros t a. by rewrite E. Qed.
Next Obligation.
  intros n t err w _ Hi. unfold strerror_tsd. wp_step. apply wp_once; [|done]. intros h Hh. cbn [post].
  change (negb (0 =? 0)) with false. wp_step. wp_step.
  apply (like_inv _ _ Hh) in Hi. destruct Hh as (E1 & E2 & E3).
  apply wp_tsd_buf; [done| |done]. cbn [kern errno trace]. intros a h2 Hi2 Ha Hfr.
  destruct Hi2 as [N1 N2 N3]. destruct (N2 t a Ha) as [Hpos (m & Hm & Hl)].
  wp_step. eapply wp_fill_buf; [done..|]. intros m' Hl' Hc'. cbn [post]. wp_step. cbn [kern trace].
  split_and!; [|done|by exists m'; cbn; rewrite lookup_insert_eq|done|].
  - constructor; cbn [specific cells next set_cell]; [done| |done].
    intros t' a' E'. destruct (N2 t' a' E') as [? (m2 & Hm2 & Hl2)]. split; [done|].
    destruct (decide (a' = a)) as [->|]; [rewrite lookup_insert_eq; by exists m'|].
    rewrite lookup_insert_ne by done. by exists m2.
  - intros t' a' Hne E'. rewrite <- E2 in E'. destruct (Hfr t' a' Hne E') as [F1 F2]. split; [done|].
    rewrite <- E1, <- F2. cbn. rewrite lookup_insert_ne; [done|]. intros ->. by apply Hne, (N3 t' t a').
Qed.

Next Obligation.
  intros n t w _ [N1 N2 N3]. unfold tsd_leave, destructor, free. wp_step. apply wp_heap_get. cbn [post].
  destruct (specific (kern w) !! t) as [a|] eqn:Et; cbn [default from_option id].
  2: { change (0 =? 0) with true. wp_step. split_and!; [by constructor|done|auto]. }
  destruct (N2 t a Et) as [Ha _]. destruct (Z.eqb_spec a 0); [lia|].
  wp_step. apply wp_heap_put. cbn [post]. apply wp_heap_put. cbn [post kern trace cells specific next].
  assert (Hne : forall t' a', specific (kern w) !! t' = Some a' -> t' <> t -> a' <> a).
  { intros t' a' E' Hn ->. by apply Hn, (N3 t' t a). }
  split_and!; [|done|].
  - constructor; cbn [specific cells next]; [done| |].
    + intros t' a' [Hn E']%lookup_delete_Some. destruct (N2 t' a' E') as [? Hb]. split; [done|].
      rewrite lookup_delete_ne; [done|]. by apply not_eq_sym, (Hne t').
    + intros t1 t2 a' [_ E1]%lookup_delete_Some [_ E2]%lookup_delete_Some. by eapply N3.
  - intros t' a' Hn E'. rewrite lookup_delete_ne by done. split; [done|].
    rewrite lookup_delete_ne; [done|]. by apply not_eq_sym, (Hne t').
Qed.

(** ** Clients of a thread-safe strerror *)

Section Client.
Context (n : nat) (strerror : nat -> Z -> C heap Z) (leave : nat -> C heap unit).
Context `{HS : !ThreadSafe n strerror leave}.

(** The last addresses of the threads, each with the message of the thread's last
    error number. *)
Definition shown (last : gmap nat (Z * Z)) (h : heap) : Prop :=
  ts_inv h /\ forall t a err, last !! t = Some (a, err) -> ts_owns h t a /\ reads h a (message err).

Lemma reads_frame h h' a text : cells h' !! a = cells h !! a -> reads h a text -> reads h' a text.
Proof. intros E (m & Hm & Ht). exists m. by rewrite E. Qed.

(** The error number of the last call of thread [t]; none once it has ended. *)
Definition last_err (t : nat) (l : list (nat * option Z)) (start : option Z) : option Z :=
  foldl (fun r c => if decide (c.1 = t) then c.2 else r) start l.

Lemma wp_calls l : forall last (w : world heap),
  Forall (fun c => (c.1 < n)%nat) l -> shown last (kern w) ->
  wp (calls strerror leave l last)
     (post (fun last' w' => shown last' (kern w') /\
              forall t, snd <$> last' !! t = last_err t l (snd <$> last !! t))
           (fun h _ => h = HExit 1)) w.
Proof.
  induction l as [|[t [err|]] l IH]; intros last w Hl [Hi Hs]; cbn [calls].
  { wp_step. done. }
  - inversion_clear Hl. wp_step. eapply wp_mono; [|by apply ts_call].
    intros [a|h] w1 H1; cbn [post] in *; [|done]. destruct H1 as (Hi1 & Ho1 & Hr1 & _ & Hf1).
    eapply wp_mono; [|apply IH; [done|]].
    + intros [last'|h] w2 H2; cbn [post] in *; [|done]. destruct H2 as [Hs2 Ht2]. split; [done|].
      intros t'. rewrite Ht2. unfold last_err. cbn [foldl fst snd]. f_equal.
      case_decide as Ht; [by rewrite Ht, lookup_insert_eq|]. by rewrite lookup_insert_ne.
    + split; [done|]. intros t' a' err'. rewrite lookup_insert_Some. intros [[<- [= <- <-]]|[Hne E']]; [done|].
      destruct (Hs t' a' err' E') as [Ho Hr]. destruct (Hf1 t' a' (not_eq_sym Hne) Ho) as [Ho' Hc].
      split; [done|]. by eapply reads_frame.
  - inversion_clear Hl. wp_step. eapply wp_mono; [|by apply ts_leave].
    intros [[]|h] w1 H1; cbn [post] in *; [|done]. destruct H1 as (Hi1 & _ & Hf1).
    eapply wp_mono; [|apply IH; [done|]].
    + intros [last'|h] w2 H2; cbn [post] in *; [|done]. destruct H2 as [Hs2 Ht2]. split; [done|].
      intros t'. rewrite Ht2. unfold last_err. cbn [foldl fst snd]. f_equal.
      case_decide as Ht; [by rewrite Ht, lookup_delete_eq|]. by rewrite lookup_delete_ne.
    + split; [done|]. intros t' a' err'. rewrite lookup_delete_Some. intros [Hne E'].
      destruct (Hs t' a' err' E') as [Ho Hr]. destruct (Hf1 t' a' (not_eq_sym Hne) Ho) as [Ho' Hc].
      split; [done|]. by eapply reads_frame.
Qed.

Definition line (who : string) (a : Z) (text : list Z) : event :=
  EvOut stdout (cat [who; fmt_p a; ") = "; text_of text; nl]).

Lemma wp_show who a text (Q : outcome unit -> world heap -> Prop) w :
  reads (kern w) a text -> Q (Done tt) (World (kern w) (errno w) (trace w ++ [line who a text])) ->
  wp (show who a) Q w.
Proof.
  intros (m & Hm & Ht) HQ. unfold show. wp_step. eapply wp_load; [done|]. cbn [post]. wp_step.
  eapply wp_cstr; [by rewrite zdrop_0|]. cbn [post]. by wp_step.
Qed.

(** A thread call leaves the heap as it is. *)
Lemma wp_sys_like fn args (Q : outcome Z -> world heap -> Prop) w :
  (forall z w', like (kern w) (kern w') -> (exists ev, trace w' = trace w ++ ev) -> Q (Done z) w') ->
  wp (sys fn args) Q w.
Proof.
  intros HQ. unfold sys. wp_step. apply wp_syscall. intros r k E. cbn [post]. wp_step. apply HQ; [|by eexists].
  cbn. unfold kstep, heap_kernel, next_fault in E. destruct (faults (kern w)); by injection E as <- <-.
Qed.

(** What the other thread's call and its end leave of the main thread's string. *)
Lemma wp_other_thread {A} a0 (f : C heap A) (Q : outcome A -> world heap -> Prop) w :
  (2 <= n)%nat -> ts_inv (kern w) -> ts_owns (kern w) 0%nat a0 -> reads (kern w) a0 (message EINVAL) ->
  (forall w' a1 ev, reads (kern w') a0 (message EINVAL) ->
     trace w' = trace w ++ ev ++ [line "Other thread: str (" a1 (message EPERM)] -> wp f Q w') ->
  (forall w', Q (Halt (HExit 1)) w') ->
  wp (threadFunc strerror;; leave 1%nat;; f) Q w.
Proof.
  intros Hn Hi Ho Hr HQ HX. unfold threadFunc. wp_step. wp_step. wp_step. wp_step.
  eapply wp_mono; [|apply ts_call; [lia|done]].
  intros [a1|h] w1 H1; cbn [post kern] in *; [|subst h; apply HX]. destruct H1 as (Hi1 & Ho1 & Hr1 & Ht1 & Hf1).
  destruct (Hf1 0%nat a0 (Nat.neq_0_succ 0) Ho) as [Ho0 Hc0]. apply (reads_frame _ _ _ _ Hc0) in Hr.
  eapply wp_show; [done|]. cbn [post]. wp_step. eapply wp_mono; [|apply ts_leave; [lia|done]].
  intros [[]|h] w2 H2; cbn [post kern trace] in *; [|done]. destruct H2 as (Hi2 & Ht2 & Hf2).
  destruct (Hf2 0%nat a0 (Nat.neq_0_succ 0) Ho0) as [Ho2 Hc2]. eapply HQ; [by eapply reads_frame|].
  rewrite Ht2, Ht1. rewrite <- app_assoc. reflexivity.
Qed.

(** What strerror_test prints: each thread its own message. *)
Lemma wp_test_main (w : world heap) :
  (2 <= n)%nat -> ts_inv (kern w) ->
  wp (test_main strerror leave)
     (post (fun _ _ => False)
           (fun h w' => h = HExit 1 \/ h = HExit 0 /\ exists a0 a1 e1 e2,
              trace w' = trace w ++ e1 ++ [line "Other thread: str (" a1 (message EPERM)] ++ e2 ++
                         [line "Main thread:  str (" a0 (message EINVAL)])) w.
Proof.
  intros Hn Hi. unfold test_main. wp_step. eapply wp_mono; [|apply ts_call; [lia|done]].
  intros [a0|h] w1 H1; cbn [post] in *; [|by left]. destruct H1 as (Hi1 & Ho1 & Hr1 & Ht1 & _).
  wp_step. wp_step. wp_step. apply wp_sys_like. intros z w2 Hl2 [ev2 Ht2]. cbn [post kern trace] in *.
  destruct (ts_like _ _ Hl2 Hi1) as [Hi2 Hown2]. apply Hown2 in Ho1.
  eapply (reads_frame _ (kern w2)) in Hr1; [|destruct Hl2 as [E _]; by rewrite E].
  wp_step. destruct (negb (z =? 0)); [apply wp_fatal; intros w'; by left|]. wp_step.
  eapply wp_other_thread; [done..| |by left]. intros w3 a1 ev3 Hr3 Ht3.
  wp_step. apply wp_sys_like. intros z4 w4 [E4 _] [ev4 Ht4]. cbn [post].
  apply (reads_frame _ (kern w4)) in Hr3; [|by rewrite E4].
  wp_step. destruct (negb (z4 =? 0)); [apply wp_fatal; intros w'; by left|]. wp_step.
  wp_step. eapply wp_show; [done|]. cbn [post]. wp_step. right. split; [done|]. cbn [trace].
  exists a0, a1. rewrite Ht4, Ht3, Ht2, Ht1. rewrite <- !app_assoc. eexists (_ :: ev2 ++ ev3), ev4.
  cbn [app]. by rewrite <- !app_assoc.
Qed.

End Client.

(** ** The three functions *)

(** What the three functions stand on: a static buffer, a buffer of each thread, or
    an allocator and a key not used yet. *)
Definition fresh_heap (cs : gmap Z mem) (fs : list bool) : heap := Heap cs false false ∅ 1 fs.

Lemma fresh_tsd_inv fs : tsd_inv (fresh_heap ∅ fs).
Proof. constructor; cbn; [done| |]; intros *; by rewrite lookup_empty. Qed.

(** One buffer: the main thread's string has become the other thread's. *)
Lemma wp_test_unsafe (w : world heap) m :
  cells (kern w) !! STATIC_BUF = Some m -> zlen m = MAX_ERROR_LEN ->
  wp (test_main (strerror_unsafe sys_nerr sys_errlist) no_leave)
     (post (fun _ _ => False)
           (fun h w' => h = HExit 1 \/ h = HExit 0 /\ exists e,
              trace w' = trace w ++ e ++ [line "Main thread:  str (" STATIC_BUF (message EPERM)])) w.
Proof.
  intros Hm Hl. unfold test_main, threadFunc, strerror_unsafe, no_leave. wp_step. wp_step.
  eapply wp_fill_buf; [done..|]. intros m1 Hl1 _. cbn [post]. wp_step. wp_step. wp_step. wp_step.
  apply wp_sys_like. intros z w2 [E2 _] [ev2 Ht2]. cbn [post kern trace set_cell cells] in *.
  wp_step. destruct (negb (z =? 0)); [apply wp_fatal; intros w'; by left|]. wp_step. wp_step. wp_step. wp_step.
  wp_step. wp_step.
  eapply wp_fill_buf; [cbn [kern]; by rewrite E2, lookup_insert_eq|done|]. intros m3 Hl3 Hc3. cbn [post]. wp_step.
  assert (Hr3 : forall k, cells k = <[STATIC_BUF := m3]> (cells (kern w2)) -> reads k STATIC_BUF (message EPERM)).
  { intros k Ek. exists m3. by rewrite Ek, lookup_insert_eq. }
  eapply wp_show; [by apply Hr3|]. cbn [post]. wp_step. wp_step. wp_step.
  apply wp_sys_like. intros z4 w4 [E4 _] [ev4 Ht4]. cbn [post kern trace] in *.
  wp_step. destruct (negb (z4 =? 0)); [apply wp_fatal; intros w'; by left|]. wp_step. wp_step.
  eapply wp_show; [by apply Hr3; rewrite E4|]. cbn [post]. wp_step. right. split; [done|]. cbn [trace].
  rewrite Ht4, Ht2. rewrite <- !app_assoc. by eexists (_ :: ev2 ++ _ :: _ :: ev4); cbn [app]; rewrite <- !app_assoc.
Qed.

(** The programs of tls_eg with the buffer of thread [t] at [b t]: each thread
    prints the message of its own call, which it reads before the other one calls. *)
Definition eg_line (who : string) (a : Z) (text : list Z) : event :=
  EvOut stdout (cat [who; fmt_p a; " ; str ("; fmt_p a; ") = "; text_of text; nl]).

Lemma wp_eg_main b leave m0 m1 (w : world heap) :
  leave = no_leave ->
  cells (kern w) !! b 0%nat = Some m0 -> zlen m0 = MAX_ERROR_LEN ->
  cells (kern w) !! b 1%nat = Some m1 -> zlen m1 = MAX_ERROR_LEN ->
  wp (eg_main (fun t err => fill_buf sys_nerr sys_errlist (b t) err;; mret (b t)) leave b)
     (fun o w' => o = Halt (HExit 1) \/ o = Done 0 /\ exists e1 e2,
        trace w' = trace w ++ [eg_line "main:      &buf = " (b 0%nat) (message EPERM)] ++ e1 ++
                   [eg_line "thrd_func: &buf = " (b 1%nat) (message ENOMEM)] ++ e2) w.
Proof.
  intros -> H0 L0 H1 L1. unfold eg_main, thrd_func, no_leave. wp_step. wp_step. eapply wp_fill_buf; [done..|].
  intros m0' L0' C0'. cbn [post]. wp_step. wp_step. eapply wp_load; [cbn; by rewrite lookup_insert_eq|].
  cbn [post]. wp_step. eapply wp_cstr; [by rewrite zdrop_0|]. cbn [post]. wp_step. wp_step. wp_step.
  apply wp_sys_like. intros z w2 [E2 _] [ev2 Ht2]. cbn [post kern trace set_cell cells] in *.
  assert (exists m1', cells (kern w2) !! b 1%nat = Some m1' /\ zlen m1' = MAX_ERROR_LEN) as (m1' & H1' & L1').
  { rewrite E2. destruct (decide (b 1%nat = b 0%nat)) as [->|]; [rewrite lookup_insert_eq; eauto|].
    rewrite lookup_insert_ne by done. eauto. }
  wp_step. destruct (negb (z =? 0)); [wp_go; by left|]. wp_step. wp_step. wp_step. wp_step.
  eapply wp_fill_buf; [done..|]. intros m3 L3 C3. cbn [post]. wp_step. wp_step.
  eapply wp_load; [cbn; by rewrite lookup_insert_eq|]. cbn [post]. wp_step.
  eapply wp_cstr; [by rewrite zdrop_0|]. cbn [post]. wp_step. wp_step. wp_step. wp_step.
  apply wp_sys_like. intros z4 w4 _ [ev4 Ht4]. cbn [post kern trace] in *.
  destruct (negb (z4 =? 0)); [wp_go; by left|]. wp_step. right. split; [done|].
  rewrite Ht4, Ht2. rewrite <- !app_assoc. by eexists ev2, ev4.
Qed.

End Promise.

(** ** The properties *)

(** C14: After any calls of strerror by any threads in any order, threads ending
    in between, with thread-local or with thread-specific buffers, either the process
    has ended for want of memory or the key, or every running thread that has called
    strerror reads at the address it got last the message of its own last error. *)
Theorem strerror_isolated nerr errlist n l (fs : list bool) (h : heap) :
  (forall err s, errlist err = Some s -> no_nul s) ->
  Forall (fun c => (c.1 < n)%nat) l -> tls_inv n h ->
  let ok r := match r with
    | (Done last, w') => forall t, match last !! t with
        | Some (a, err) => last_err t l None = Some err /\ reads (kern w') a (message nerr errlist err)
        | None => last_err t l None = None
        end
    | (Halt x, _) => x = HExit 1
    end in
  ok (calls (strerror_tls nerr errlist) no_leave l ∅ (World h 0 [])) /\
  ok (calls (strerror_tsd nerr errlist) tsd_leave l ∅ (World (fresh_heap ∅ fs) 0 [])).
Proof.
  intros Ht Hl Hi ok.
  assert (Hok : forall strerror leave (TS : ThreadSafe nerr errlist n strerror leave) h0, @ts_inv _ _ _ _ _ TS h0 ->
            ok (calls strerror leave l ∅ (World h0 0 []))).
  { intros strerror leave TS h0 H0.
    pose proof (wp_calls nerr errlist n strerror leave l ∅ (World h0 0 []) Hl) as Hw. unfold wp in Hw.
    destruct (calls _ _ _ _ _) as [[last|x] w']; unfold ok; cbn [fst snd post] in *.
    - destruct Hw as [[_ Hs] He]; [split; [done|]; intros *; by rewrite lookup_empty|]. intros t. specialize (He t).
      rewrite lookup_empty in He. destruct (last !! t) as [[a err]|] eqn:E; [|exact (eq_sym He)].
      split; [exact (eq_sym He)|]. by eapply Hs.
    - apply Hw. split; [done|]. intros *; by rewrite lookup_empty. }
  split; [by apply (Hok _ _ (tls_safe nerr errlist Ht n))|apply (Hok _ _ (tsd_safe nerr errlist Ht n))].
  apply fresh_tsd_inv.
Qed.

(** A table as a C library has it, for the witnesses. *)
Definition small_table (err : Z) : option string :=
  if err =? 1 then Some "Operation not permitted"
  else if err =? 12 then Some "Cannot allocate memory"
  else if err =? 22 then Some "Invalid argument" else None.

Lemma small_table_text err s : small_table err = Some s -> no_nul s.
Proof.
  unfold small_table. repeat case_match; intros E; simplify_eq; by repeat constructor.
Qed.

Definition two_buffers : heap := fresh_heap {[ 1 := uninit 256; 2 := uninit 256 ]} [].

Lemma two_buffers_inv : tls_inv 2 two_buffers.
Proof. intros [|[|t]] Ht; [by eexists|by eexists|lia]. Qed.

Lemma strerror_isolated_witness :
  match calls (strerror_tsd 134 small_table) tsd_leave
          [(0%nat, Some 22); (1%nat, Some 1); (0%nat, Some (-5)); (1%nat, None); (1%nat, Some 12)] ∅
          (World (fresh_heap ∅ []) 0 []) with
  | (Done last, w') => last = {[ 0%nat := (1, -5); 1%nat := (3, 12) ]} /\
      reads (kern w') 1 (bytes_of "Unknown error -5") /\ reads (kern w') 3 (bytes_of "Cannot allocate memory")
  | _ => False
  end.
Proof.
  pose proof (strerror_isolated 134 small_table 2
    [(0%nat, Some 22); (1%nat, Some 1); (0%nat, Some (-5)); (1%nat, None); (1%nat, Some 12)] [] two_buffers
    small_table_text ltac:(repeat constructor) two_buffers_inv) as [_ H].
  destruct (calls _ _ _ _ (World (fresh_heap ∅ []) 0 [])) as [[last|x] w'] eqn:E; [|by vm_compute in E].
  assert (last = {[ 0%nat := (1, -5); 1%nat := (3, 12) ]}) as ->
    by (vm_compute in E; injection E as <- _; reflexivity).
  split; [done|]. split; [exact (proj2 (H 0%nat))|exact (proj2 (H 1%nat))].
Defined.

(** Strerror_test.c tells the functions apart.  With thread-local or
    thread-specific buffers a run that ends well prints for the other thread the
    message of EPERM and then for the main thread the message of EINVAL; with the
    static buffer the main thread's line shows the message of EPERM. *)
Theorem strerror_test_verdict nerr errlist (fs : list bool) (h : heap) m :
  (forall err s, errlist err = Some s -> no_nul s) ->
  tls_inv 2 h -> zlen m = MAX_ERROR_LEN ->
  let own r := match r : outcome Z * world heap with
    | (Halt (HExit x), w') => x = 1 \/ x = 0 /\ exists a0 a1 e1 e2, trace w' =
        e1 ++ [line "Other thread: str (" a1 (message nerr errlist EPERM)] ++ e2 ++
        [line "Main thread:  str (" a0 (message nerr errlist EINVAL)]
    | _ => False
    end in
  own (test_main (strerror_tls nerr errlist) no_leave (World h 0 [])) /\
  own (test_main (strerror_tsd nerr errlist) tsd_leave (World (fresh_heap ∅ fs) 0 [])) /\
  match test_main (strerror_unsafe nerr errlist) no_leave (World (fresh_heap {[STATIC_BUF := m]} fs) 0 []) with
  | (Halt (HExit x), w') => x = 1 \/ x = 0 /\ exists e, trace w' =
      e ++ [line "Main thread:  str (" STATIC_BUF (message nerr errlist EPERM)]
  | _ => False
  end.
Proof.
  intros Ht Hi Hm own.
  assert (Hok : forall strerror leave (TS : ThreadSafe nerr errlist 2 strerror leave) h0, @ts_inv _ _ _ _ _ TS h0 ->
            own (test_main strerror leave (World h0 0 []))).
  { intros strerror leave TS h0 H0.
    pose proof (wp_test_main nerr errlist 2 strerror leave (World h0 0 []) ltac:(lia) H0) as Hw. unfold wp in Hw.
    destruct (test_main _ _ _) as [[z|x] w']; unfold own; cbn [fst snd post trace app] in *; [done|].
    destruct Hw as [->|[-> Hw]]; auto. }
  split; [by apply (Hok _ _ (tls_safe nerr errlist Ht 2))|].
  split; [apply (Hok _ _ (tsd_safe nerr errlist Ht 2)), fresh_tsd_inv|].
  pose proof (wp_test_unsafe nerr errlist Ht (World (fresh_heap {[STATIC_BUF := m]} fs) 0 []) m) as Hw. unfold wp in Hw.
  destruct (test_main _ _ _) as [[z|x] w']; cbn [fst snd post trace app kern cells fresh_heap] in *.
  - by destruct Hw; [rewrite lookup_singleton_eq|].
  - destruct Hw as [->|[-> Hw]]; [by rewrite lookup_singleton_eq|done|by left|by right].
Qed.

Lemma strerror_test_verdict_witness :
  (exists w', test_main (strerror_tls 134 small_table) no_leave (World two_buffers 0 []) = (Halt (HExit 0), w')) /\
  match test_main (strerror_unsafe 134 small_table) no_leave
          (World (fresh_heap {[STATIC_BUF := uninit 256]} []) 0 []) with
  | (Halt (HExit x), w') => x = 1 \/ x = 0 /\ exists e, trace w' =
      e ++ [line "Main thread:  str (" STATIC_BUF (bytes_of "Operation not permitted")]
  | _ => False
  end.
Proof.
  split; [eexists; vm_compute; reflexivity|].
  exact (proj2 (proj2 (strerror_test_verdict 134 small_table [] two_buffers (uninit 256)
    small_table_text two_buffers_inv eq_refl))).
Defined.

(** The programs of tls_eg: both print each thread's own message, as each thread
    reads its string before the other one calls. *)
Theorem strerror_eg nerr errlist h m :
  (forall err s, errlist err = Some s -> no_nul s) -> tls_inv 2 h -> zlen m = MAX_ERROR_LEN ->
  let own b r := match r : outcome Z * world heap with
    | (Halt x, _) => x = HExit 1
    | (Done z, w') => z = 0 /\ exists e1 e2,
        trace w' = [eg_line "main:      &buf = " (b 0%nat) (message nerr errlist EPERM)] ++ e1 ++
                   [eg_line "thrd_func: &buf = " (b 1%nat) (message nerr errlist ENOMEM)] ++ e2
    end in
  own tls_buf (eg_main (strerror_tls nerr errlist) no_leave tls_buf (World h 0 [])) /\
  own (fun _ => STATIC_BUF) (eg_main (strerror_unsafe nerr errlist) no_leave (fun _ => STATIC_BUF)
         (World (fresh_heap {[STATIC_BUF := m]} []) 0 [])).
Proof.
  intros Ht Hi Hm own.
  assert (Hok : forall b m0 m1 h0, cells h0 !! b 0%nat = Some m0 -> zlen m0 = MAX_ERROR_LEN ->
            cells h0 !! b 1%nat = Some m1 -> zlen m1 = MAX_ERROR_LEN ->
            own b (eg_main (fun t err => fill_buf nerr errlist (b t) err;; mret (b t)) no_leave b (World h0 0 []))).
  { intros b m0 m1 h0 H0 L0 H1 L1.
    pose proof (wp_eg_main nerr errlist Ht b _ m0 m1 (World h0 0 []) eq_refl H0 L0 H1 L1) as Hw. unfold wp in Hw.
    destruct (eg_main _ _ _ _) as [[z|x] w']; unfold own; cbn [fst snd trace app] in *.
    - destruct Hw as [|[[= ->] Hw]]; done.
    - by destruct Hw as [[= ->]|[? _]]. }
  split.
  - destruct (Hi 0%nat) as (m0 & ? & ?); [lia|]. destruct (Hi 1%nat) as (m1 & ? & ?); [lia|]. by eapply Hok.
  - eapply (Hok (fun _ => STATIC_BUF)); [apply lookup_singleton_eq|done|apply lookup_singleton_eq|done].
Qed.

Lemma strerror_eg_witness :
  zlen (uninit 256) = MAX_ERROR_LEN /\ tls_inv 2 two_buffers /\
  match eg_main (strerror_tls 134 small_table) no_leave tls_buf (World two_buffers 0 []) with
  | (Done z, _) => z = 0
  | _ => False
  end.
Proof.
  split; [done|]. split; [exact two_buffers_inv|].
  pose proof (proj1 (strerror_eg 134 small_table two_buffers (uninit 256) small_table_text two_buffers_inv eq_refl)) as H.
  destruct (eg_main _ _ _ _) as [[z|x] w'] eqn:E; [exact (proj1 H)|]. by vm_compute in E.
Defined.
