(* ===== verification/SemCount.v ===== *)
(** src/ipc/posix_ipc/more_demos/appdemo_sem_as_counting: a server that takes
    requests from a POSIX message queue and its clients, which pass a counting
    semaphore before they send one.  The clients run between the server's calls:
    class [MqKernel] says that a call sees the semaphore and the queue after any
    number of client steps, and the client steps are those the client program
    makes. *)
From stdpp Require Import relations.
From S2P Require Import Prelude CMonad CLib.
#[local] Open Scope Z_scope.

Definition MQ_NAME : string := "/mq_client_request".
Definition SEM_NAME : string := "/appdemo_sem_counting".
Definition O_WRONLY : Z := 1.
Definition O_RDWR : Z := 2.
Definition O_CREAT : Z := 64.
Definition O_EXCL : Z := 128.

Section Code.
Context {K : Type} {HK : Kernel K}.

Definition handle_error {A} (msg : string) : C K A := perror msg;; exit 1.

(** ** server_sem_as_counting.c *)

(** sem_open returns SEM_FAILED, here 0, when it fails. *)
Definition sem_setup (max_sem_count : Z) : C K Z :=
  printf (cat [nl; "server: initializing sem value to "; fmt_d max_sem_count;
               "; this, in effect, is the max 'queue length' or 'count' allowed by this (counting) semaphore ..."; nl]);;
  sem ← sys "sem_open" [AS SEM_NAME; AI (Z.lor O_CREAT O_EXCL); AI 384; AI max_sem_count];
  e ← get_errno;
  sem ← (if (sem =? 0) && (e =? EEXIST) then
           sem ← sys "sem_open" [AS SEM_NAME; AI 0];
           if sem =? 0 then fprintf stderr (cat ["sem_open() failed"; nl]);; exit 1
           else mret sem
         else mret sem);
  printf (cat ["(Counting) Semaphore open.."; nl]);;
  mret sem.

(** mq_getattr stores the message size; mq_receive stores the priority and the
    message. *)
Definition receive_client_msg : C K unit :=
  mq ← sys "mq_open" [AS MQ_NAME; AI (Z.lor (Z.lor O_RDWR O_CREAT) O_EXCL); AI 420];
  e ← get_errno;
  mq ← (if (mq =? -1) && (e =? EEXIST) then
          mq ← sys "mq_open" [AS MQ_NAME; AI O_RDWR];
          if mq =? -1 then handle_error "mq_open failed" else mret mq
        else mret mq);
  a ← syscall (Csys "mq_getattr" [AI mq]);
  (if ret a =? -1 then handle_error "mq_getattr failed" else mret tt);;
  let mq_msgsize := hd 0 (out a) in
  buf ← sys "calloc" [AI mq_msgsize; AI 1];
  (if buf =? 0 then sys "mq_close" [AI mq];; handle_error "calloc failed" else mret tt);;
  printf (cat ["server: awaiting msg from client..."; nl]);;
  m ← syscall (Csys "mq_receive" [AI mq; AI mq_msgsize]);
  (if ret m =? -1 then sys "mq_close" [AI mq];; handle_error "mq_receive failed" else mret tt);;
  b ← copy_in "buf" (init (replicate (Z.to_nat mq_msgsize) 0)) 0 (tl (out m));
  text ← cstr "buf" b 0;
  printf (cat ["server: Received:"; nl; " "; dquote; text_of text; dquote; " ["; fmt_d (ret m);
               " bytes, prio "; fmt_d (hd 0 (out m)); "]"; nl]);;
  syscall (Cfree buf);;
  sys "mq_close" [AI mq];;
  mret tt.

(** One turn of the server's loop; [i] counts the requests.  The semaphore calls
    follow the pointer [sem]. *)
Definition serve_turn (sem i : Z) : C K Z :=
  receive_client_msg;;
  (if sem =? 0 then undefined (UB_null "sem") else mret tt);;
  g ← syscall (Csys "sem_getvalue" [AI sem]);
  (if ret g =? -1 then perror "sem_getvalue() failed";; undefined (UB_uninit "semval" 0) else mret tt);;
  printf (cat ["server "; fmt_d i; ": sem val = "; fmt_d (hd 0 (out g)); nl]);;
  printf " server: performing 'work' for 3s... ";;
  fflush stdout;;
  sys "sleep" [AI 3];;
  printf (cat [" done! (will now 'unlock' by incrementing the sem...)"; nl; nl]);;
  r ← sys "sem_post" [AI sem];
  (if r =? -1 then perror "sem_post() failed" else mret tt);;
  mret (i + 1).

Fixpoint serve (fuel : nat) (sem i : Z) : C K unit :=
  match fuel with
  | O => halt_with HFuel
  | S fuel' => i ← serve_turn sem i; serve fuel' sem i
  end.

Definition server_main (fuel : nat) (argv : list string) : C K unit :=
  (if negb (argc argv =? 2) then
     fprintf stderr (cat ["Usage: "; arg_n argv 0; " max-sem-count"; nl]);; exit 1
   else mret tt);;
  sys "mq_unlink" [AS MQ_NAME];;
  sys "sem_unlink" [AS SEM_NAME];;
  sem ← sem_setup (atoi (arg_n argv 1));
  serve fuel sem 1.

(** ** client_sem_as_counting.c *)

Definition client_sem_setup : C K Z :=
  sem ← sys "sem_open" [AS SEM_NAME; AI 0];
  if sem =? 0 then perror "sem_open() failed";; exit 1 else mret sem.

Definition client_send_request (msg : string) (prio : Z) : C K unit :=
  mq ← sys "mq_open" [AS MQ_NAME; AI O_WRONLY];
  (if mq =? -1 then handle_error "mq_open failed" else mret tt);;
  r ← sys "mq_send" [AI mq; AB (bytes_of msg); AI prio];
  (if r =? -1 then sys "mq_close" [AI mq];; handle_error "client: mq_send() failed" else mret tt);;
  printf (cat ["client: msg sent to MQ"; nl]);;
  sys "mq_close" [AI mq];;
  mret tt.

Definition client_main (argv : list string) : C K unit :=
  (if negb (argc argv =? 2) then
     fprintf stderr (cat ["Usage: "; arg_n argv 0; " message-to-send-to-client-request-MQ(ASCII text)"; nl]);; exit 1
   else mret tt);;
  sem ← client_sem_setup;
  printf (cat [nl; "client: waiting on the semaphore ..."; nl]);;
  r ← sys "sem_wait" [AI sem];
  (if r =? -1 then perror "sem_wait() failed" else mret tt);;
  printf (cat ["client: got the sem! sending msg to MQ"; nl]);;
  client_send_request (arg_n argv 1) 100;;
  sys "sem_close" [AI sem];;
  exit 0.

End Code.

(** ** What the processes share *)

(** The semaphore's value and the queue, if it exists.  The rest is bookkeeping:
    how many clients are between the semaphore and the queue, what has been sent,
    how many places were given up (a client that got the semaphore and ended
    without sending, a failed sem_post) and how many clients went on although
    sem_wait failed. *)
Record ipc := Ipc {
  value : Z;
  queue : option (list (list Z));
  holders : Z;
  sent : list (list Z);
  lost : Z;
  barged : Z }.

Definition waiting (v : ipc) : list (list Z) := default [] (queue v).

Definition set_queue (q : option (list (list Z))) (v : ipc) : ipc :=
  Ipc (value v) q (holders v) (sent v) (lost v) (barged v).

(** What a client does to them. *)
Inductive cact :=
| CWait
| CBarge
| CSend (msg : list Z)
| CLose.

Section Shared.
(** The size of a message of the queue. *)
Context (msgsize : Z).

Definition do_cact (a : cact) (v : ipc) : option ipc :=
  match a with
  | CWait => if 0 <? value v
             then Some (Ipc (value v - 1) (queue v) (holders v + 1) (sent v) (lost v) (barged v)) else None
  | CBarge => Some (Ipc (value v) (queue v) (holders v + 1) (sent v) (lost v) (barged v + 1))
  | CSend msg =>
      match queue v with
      | Some q => if (0 <? holders v) && (zlen msg <=? msgsize)
                  then Some (Ipc (value v) (Some (q ++ [msg])) (holders v - 1) (sent v ++ [msg]) (lost v) (barged v))
                  else None
      | None => None
      end
  | CLose => if 0 <? holders v
             then Some (Ipc (value v) (queue v) (holders v - 1) (sent v) (lost v + 1) (barged v)) else None
  end.

Definition cstep (v v' : ipc) : Prop := exists a, do_cact a v = Some v'.

(** A new semaphore: nobody has passed it, and a message already in the queue was
    sent without it. *)
Definition fresh_sem (n : Z) (v : ipc) : ipc :=
  Ipc n (queue v) 0 (waiting v) 0 (zlen (waiting v)).

(** What the server's calls do to them, as POSIX documents it. *)
Definition effect (c : call) (r : resp) (v v' : ipc) : Prop :=
  match c with
  | Csys fn args =>
      if decide (fn = "sem_open") then
        match args with
        | [_; _; _; AI n] => if ret r =? 0 then v' = v else 0 <= n /\ v' = fresh_sem n v
        | _ => v' = v
        end
      else if decide (fn = "mq_unlink") then v' = if ret r =? -1 then v else set_queue None v
      else if decide (fn = "mq_open") then
        match args with
        | [_; _; _] => if ret r =? -1 then v' = v else queue v = None /\ v' = set_queue (Some []) v
        | _ => v' = v
        end
      else if decide (fn = "mq_getattr") then v' = v /\ (ret r <> -1 -> hd 0 (out r) = msgsize)
      else if decide (fn = "mq_receive") then
        if ret r =? -1 then v' = v
        else exists msg q prio, queue v = Some (msg :: q) /\ ret r = zlen msg /\ out r = prio :: msg /\
                                zlen msg <= msgsize /\ v' = set_queue (Some q) v
      else if decide (fn = "sem_getvalue") then v' = v /\ (ret r <> -1 -> hd 0 (out r) = value v)
      else if decide (fn = "sem_post") then
        v' = if ret r =? -1 then Ipc (value v) (queue v) (holders v) (sent v) (lost v + 1) (barged v)
             else Ipc (value v + 1) (queue v) (holders v) (sent v) (lost v) (barged v)
      else v' = v
  | _ => v' = v
  end.

End Shared.

(** A kernel on which the clients run between the calls of the server. *)
Class MqKernel (msgsize : Z) (K : Type) {HK : Kernel K} := {
  view : K -> ipc;
  mq_step : forall c k r k', kstep c k = (r, k') ->
    exists v, rtc (cstep msgsize) (view k) v /\ effect msgsize c r v (view k') }.

(** ** The books of the server *)

(** The messages the server took from the queue. *)
Definition got (e : event) : option (list Z) :=
  match e with
  | EvCall (Csys fn _) r => if decide (fn = "mq_receive" /\ ret r <> -1) then Some (tl (out r)) else None
  | _ => None
  end.

Definition received (tr : list event) : list (list Z) := omap got tr.

(** Every place of the semaphore is free, held by a client, in the queue, with the
    server ([busy]) or lost; and the messages sent are those received and those still
    in the queue, in that order. *)
Record books (max busy : Z) (rs : list (list Z)) (v : ipc) : Prop := Books {
  bk_sum : value v + holders v + zlen (waiting v) + busy = max + barged v - lost v;
  bk_pos : 0 <= value v /\ 0 <= holders v /\ 0 <= lost v /\ 0 <= barged v;
  bk_sent : sent v = rs ++ waiting v }.

Lemma cstep_books msgsize max busy rs v v' : cstep msgsize v v' -> books max busy rs v -> books max busy rs v'.
Proof.
  intros [a E] [Hs Hp Hr]. destruct a; cbn in E.
  - destruct (Z.ltb_spec 0 (value v)); [|done]. injection E as <-. constructor; unfold waiting in *; cbn in *; [lia|lia|done].
  - injection E as <-. constructor; unfold waiting in *; cbn in *; [lia|lia|done].
  - destruct (queue v) as [q|] eqn:Eq; [|done]. destruct (_ && _) eqn:Eb; [|done]. injection E as <-.
    apply andb_true_iff in Eb as [Eb _]. apply Z.ltb_lt in Eb.
    unfold waiting in *. rewrite Eq in *. constructor; unfold waiting; cbn in *.
    + rewrite zlen_snoc. lia.
    + lia.
    + by rewrite Hr, app_assoc.
  - destruct (Z.ltb_spec 0 (holders v)); [|done]. injection E as <-. constructor; unfold waiting in *; cbn in *; [lia|lia|done].
Qed.

Lemma csteps_books msgsize max busy rs v v' :
  rtc (cstep msgsize) v v' -> books max busy rs v -> books max busy rs v'.
Proof. induction 1; eauto using cstep_books. Qed.

(** The calls that matter to the books. *)
Definition accounting : list string := ["sem_open"; "mq_unlink"; "mq_receive"; "sem_post"].

Lemma effect_books msgsize max busy rs fn args r v v' :
  fn ∉ accounting -> effect msgsize (Csys fn args) r v v' -> books max busy rs v -> books max busy rs v'.
Proof.
  intros Hn He [Hs Hp Hr]. unfold effect in He.
  rewrite (decide_False (P := fn = "sem_open")), (decide_False (P := fn = "mq_unlink")),
    (decide_False (P := fn = "mq_receive")), (decide_False (P := fn = "sem_post")) in He
    by (intros ->; apply Hn; set_solver).
  repeat case_decide; try (by subst v'); try (destruct He as [-> _]; done).
  repeat (case_match; try (by subst v')). destruct He as [Eq ->].
  unfold waiting in *. rewrite Eq in *. by constructor.
Qed.

Section Server.
Context (msgsize : Z) {K : Type} {HK : Kernel K} `{!MqKernel msgsize K} (max : Z).
(** Whether the semaphore is the server's own. *)
Context (own : bool).

Definition create : call := Csys "sem_open" [AS SEM_NAME; AI (Z.lor O_CREAT O_EXCL); AI 384; AI max].

(** The books are in order, or the server could not create the semaphore. *)
Definition in_order (busy : Z) (w : world K) : Prop :=
  (own = false /\ exists r, EvCall create r ∈ trace w /\ ret r = 0) \/
  (own = true /\ books max busy (received (trace w)) (view (kern w))).

Lemma in_order_emit busy e w : got e = None ->
  in_order busy w -> in_order busy (World (kern w) (errno w) (trace w ++ [e])).
Proof.
  intros He [(Ho & r & Hr & H0)|[Ho Hb]]; [left; split; [done|]; exists r; cbn; set_solver|right; split; [done|]]. cbn. unfold received.
  rewrite omap_app. cbn. by rewrite He, app_nil_r.
Qed.

Definition neutral (c : call) : Prop := match c with Csys fn _ => fn ∉ accounting | _ => True end.

Lemma in_order_call busy c r k w :
  neutral c -> kstep c (kern w) = (r, k) -> in_order busy w -> in_order busy (after c r k w).
Proof.
  intros Hn E [(Ho & r0 & Hr & H0)|[Ho Hb]]; [left; split; [done|]; exists r0; cbn; set_solver|right; split; [done|]].
  apply mq_step in E as (v & Hv & He). cbn [after kern trace]. unfold received. rewrite omap_app.
  assert (Hg : got (EvCall c r) = None).
  { destruct c; try done. cbn in *. rewrite decide_False; [done|]. intros [-> _]. apply Hn. set_solver. }
  cbn [omap list_omap]. rewrite Hg, app_nil_r. apply (csteps_books _ _ _ _ _ _ Hv) in Hb.
  destruct c; [by rewrite He..|]. by eapply effect_books.
Qed.

Lemma wp_books_call busy c (Q : outcome resp -> world K -> Prop) w :
  neutral c -> in_order busy w ->
  (forall r k, kstep c (kern w) = (r, k) -> in_order busy (after c r k w) -> Q (Done r) (after c r k w)) ->
  wp (syscall c) Q w.
Proof. intros Hn Hi HQ. apply wp_syscall. intros r k E. apply HQ; [done|]. by apply in_order_call. Qed.

Lemma wp_books_sys busy fn args (Q : outcome Z -> world K -> Prop) w :
  fn ∉ accounting -> in_order busy w ->
  (forall z w', in_order busy w' -> Q (Done z) w') -> wp (sys fn args) Q w.
Proof. intros Hn Hi HQ. unfold sys. wp_step. eapply wp_books_call; [done..|]. intros r k E Hi'. cbn [post]. wp_step. by apply HQ. Qed.

Lemma wp_out busy e (Q : outcome unit -> world K -> Prop) w :
  got e = None -> in_order busy w -> (forall w', in_order busy w' -> Q (Done tt) w') -> wp (emit e) Q w.
Proof. intros He Hi HQ. apply wp_emit. apply HQ. by apply in_order_emit. Qed.

(** The ways the server ends: an error it reports; the semaphore it failed to open
    is used; the value of a failed sem_getvalue is printed; a message that fills the
    buffer is printed as a string. *)
Definition ended (h : halt) (w : world K) : Prop :=
  (exists busy, 0 <= busy <= 1 /\ in_order busy w) /\
  (h = HExit 1 \/ h = HFuel \/ h = HUB (UB_uninit "semval" 0) \/
   (h = HUB (UB_null "sem") /\ exists r, EvCall create r ∈ trace w /\ ret r = 0) \/
   (h = HUB (UB_bounds "buf" msgsize) /\ exists msg, msg ∈ received (trace w) /\ zlen msg = msgsize)).

Lemma wp_error {A} busy msg (Q : outcome A -> world K -> Prop) w :
  0 <= busy <= 1 -> in_order busy w -> (forall w', ended (HExit 1) w' -> Q (Halt (HExit 1)) w') ->
  wp (handle_error msg) Q w.
Proof.
  intros Hb Hi HQ. unfold handle_error. wp_go. apply HQ. split; [|by left]. exists busy. split; [done|].
  by apply in_order_emit.
Qed.

(** Taking a request: a message, the oldest in the queue, moves to the server. *)
Lemma wp_take mq (Q : outcome resp -> world K -> Prop) w :
  in_order 0 w ->
  (forall r w', ret r = -1 -> in_order 0 w' -> Q (Done r) w') ->
  (forall r w', ret r <> -1 -> ret r = zlen (tl (out r)) -> zlen (tl (out r)) <= msgsize ->
     tl (out r) ∈ received (trace w') -> in_order 1 w' -> Q (Done r) w') ->
  wp (syscall (Csys "mq_receive" [AI mq; AI msgsize])) Q w.
Proof.
  intros Hi HF HQ. apply wp_syscall. intros r k E. pose proof E as E0. apply mq_step in E as (v & Hv & He).
  unfold effect in He. do 4 (rewrite decide_False in He by done). rewrite decide_True in He by done.
  destruct (Z.eqb_spec (ret r) (-1)) as [Er|Er].
  - apply HF; [done|]. destruct Hi as [(Ho & r0 & Hr & H0)|[Ho Hb]]; [left; split; [done|]; exists r0; cbn; set_solver|right; split; [done|]].
    cbn [after kern trace]. unfold received. rewrite omap_app. cbn.
    rewrite decide_False by tauto. rewrite app_nil_r, He. by eapply csteps_books.
  - destruct He as (msg & q & prio & Eq & Elen & Eo & Hl & Ev).
    assert (Hrec : received (trace (after (Csys "mq_receive" [AI mq; AI msgsize]) r k w)) =
                   received (trace w) ++ [msg]).
    { cbn [after trace]. unfold received. rewrite omap_app. cbn. rewrite decide_True by done. by rewrite Eo. }
    apply HQ; [done|by rewrite Eo|by rewrite Eo|rewrite Hrec, Eo; cbn; set_solver|].
    destruct Hi as [(Ho & r0 & Hr & H0)|[Ho Hb]]; [left; split; [done|]; exists r0; cbn; set_solver|right; split; [done|]].
    rewrite Hrec. cbn [after kern]. rewrite Ev. apply (csteps_books _ _ _ _ _ _ Hv) in Hb as [Hs Hp Hse].
    unfold waiting in *. rewrite Eq in *. cbn [default from_option id] in *. constructor; unfold waiting; cbn in *.
    + rewrite zlen_cons in Hs. lia.
    + done.
    + by rewrite Hse, <- app_assoc.
Qed.

(** A zeroed block holds the message; it is a string unless the message fills it. *)
Lemma zeroed_text msg size : zlen msg <= size ->
  cstr_of (blit (init (replicate (Z.to_nat size) 0)) 0 msg) = None -> zlen msg = size.
Proof.
  intros Hl Hc. pose proof (zlen_nonneg msg). destruct (Z.eq_dec (zlen msg) size) as [|Hne]; [done|]. exfalso.
  unfold blit in Hc. change (ztake 0 _) with (@nil (option Z)) in Hc. cbn [app] in Hc.
  unfold zdrop in Hc. unfold init at 2 in Hc. rewrite skipn_map, drop_replicate in Hc.
  destruct (Z.to_nat size - Z.to_nat (0 + zlen msg))%nat eqn:En; [lia|]. cbn [replicate map] in Hc.
  destruct (cstr_terminated msg) as [t Ht]. pose proof (cstr_of_app _ (map Some (replicate n 0)) _ Ht) as Ha.
  rewrite <- app_assoc in Ha. cbn [app] in Ha. by rewrite Ha in Hc.
Qed.

Ltac neutral_call := eapply wp_books_sys; [cbv; set_solver|eassumption|]; cbn [post].
Ltac output := eapply wp_out; [reflexivity|eassumption|]; cbn [post].
Ltac reported := eapply (wp_error 0); [lia|eassumption|]; cbn [post]; auto.

Lemma wp_receive_msg (w : world K) :
  in_order 0 w -> wp receive_client_msg (post (fun _ w' => in_order 1 w') ended) w.
Proof.
  intros H0. unfold receive_client_msg. wp_step. neutral_call. intros mq w1 H1.
  wp_step. apply wp_get_errno. cbn [post]. wp_step.
  assert (Hopen : wp (if (mq =? -1) && (errno w1 =? EEXIST) then
          mq ← sys "mq_open" [AS MQ_NAME; AI O_RDWR];
          if mq =? -1 then handle_error "mq_open failed" else mret mq
        else mret mq) (post (fun _ w' => in_order 0 w') ended) w1).
  { destruct (_ && _); [|by wp_step]. wp_step. neutral_call. intros mq2 w2 H2.
    destruct (mq2 =? -1); [reported|by wp_step]. }
  eapply wp_mono; [|exact Hopen]. clear mq Hopen. intros [mq|h] w2 H2; [|done]. cbn [post] in *.
  wp_step. eapply wp_books_call; [cbv; set_solver|exact H2|]. intros a k Ea H3. cbn [post]. wp_step.
  destruct (Z.eqb_spec (ret a) (-1)) as [|Ha]; [reported|]. wp_step.
  assert (Hsz : hd 0 (out a) = msgsize).
  { apply mq_step in Ea as (v & _ & He). unfold effect in He. do 3 (rewrite decide_False in He by done).
    rewrite decide_True in He by done. by apply He. }
  rewrite Hsz. clear Hsz Ea. revert H3. generalize (after (Csys "mq_getattr" [AI mq]) a k w2). intros w3 H3.
  wp_step. neutral_call. intros buf w4 H4. wp_step. destruct (buf =? 0).
  { wp_step. neutral_call. intros z w5 H5. reported. }
  wp_step. wp_step. output. intros w5 H5. wp_step.
  apply wp_take; [done|..]; cbn [post].
  { intros r w6 Er H6. rewrite Er. change (-1 =? -1) with true. wp_step. wp_step. neutral_call. intros z w7 H7. reported. }
  intros r w6 Er Elen Hl Hin H6. apply Z.eqb_neq in Er. rewrite Er. wp_step. wp_step. wp_step.
  pose proof (zlen_nonneg (tl (out r))). apply wp_copy_in; [lia|rewrite zlen_init, zlen_replicate; lia|]. cbn [post]. wp_step.
  unfold cstr. rewrite zdrop_0. destruct (cstr_of _) as [text|] eqn:Et.
  2: { wp_step. rewrite zlen_blit, zlen_init, zlen_replicate by (rewrite ?zlen_init, ?zlen_replicate; lia).
       replace (Z.of_nat (Z.to_nat msgsize)) with msgsize by lia.
       split; [exists 1; split; [lia|done]|]. do 4 right. split; [done|]. exists (tl (out r)).
       split; [done|]. by apply zeroed_text in Et. }
  wp_step. wp_step. output. intros w7 H7. wp_step.
  eapply wp_books_call; [done|exact H7|]. intros r8 k8 _ H8. cbn [post]. wp_step. neutral_call. intros z w9 H9. by wp_step.
Qed.

(** Giving the place back. *)
Lemma wp_give sem (Q : outcome Z -> world K -> Prop) w :
  in_order 1 w -> (forall z w', in_order 0 w' -> Q (Done z) w') -> wp (sys "sem_post" [AI sem]) Q w.
Proof.
  intros Hi HQ. unfold sys. wp_step. apply wp_syscall. intros r k E. cbn [post]. wp_step. apply HQ.
  destruct Hi as [(Ho & r0 & Hr & H0)|[Ho Hb]]; [left; split; [done|]; exists r0; cbn; set_solver|right; split; [done|]].
  apply mq_step in E as (v & Hv & He). unfold effect in He. do 6 (rewrite decide_False in He by done).
  rewrite decide_True in He by done.
  cbn [after kern trace]. unfold received. rewrite omap_app. cbn.
  rewrite decide_False by (by intros []). rewrite app_nil_r, He.
  apply (csteps_books _ _ _ _ _ _ Hv) in Hb as [Hs Hp Hse]. unfold waiting in *.
  case_match; constructor; unfold waiting; cbn in *; try lia; done.
Qed.

Lemma wp_serve_turn sem i (w : world K) :
  in_order 0 w -> (sem = 0 -> own = false) ->
  wp (serve_turn sem i) (post (fun _ w' => in_order 0 w') ended) w.
Proof.
  intros H0 Hs. unfold serve_turn. wp_step. eapply wp_mono; [|by apply wp_receive_msg].
  intros [[]|h] w1 H1; [|done]. cbn [post] in *. wp_step. destruct (Z.eqb_spec sem 0) as [E|Hne].
  { wp_step. split; [exists 1; split; [lia|done]|]. do 3 right. left. split; [done|].
    destruct H1 as [[_ ?]|[Ho _]]; [done|]. by rewrite Hs in Ho. }
  wp_step. wp_step. eapply wp_books_call; [cbv; set_solver|exact H1|]. intros g k _ H2. cbn [post].
  revert H2. generalize (after (Csys "sem_getvalue" [AI sem]) g k w1). intros w2 H2. wp_step.
  destruct (ret g =? -1).
  { wp_go. split; [exists 1; split; [lia|by apply in_order_emit]|]. do 2 right. by left. }
  wp_step. wp_step. output. intros w3 H3. wp_step. output. intros w4 H4. wp_step. output. intros w5 H5.
  wp_step. neutral_call. intros z w6 H6. wp_step. output. intros w7 H7. wp_step.
  apply wp_give; [done|]. intros r w8 H8. cbn [post]. wp_step. destruct (r =? -1).
  - wp_go. by apply in_order_emit.
  - by wp_go.
Qed.

Lemma wp_serve sem fuel : (sem = 0 -> own = false) -> forall i (w : world K), in_order 0 w ->
  wp (serve fuel sem i) (post (fun _ _ => False) ended) w.
Proof.
  intros Hs. induction fuel as [|fuel IH]; intros i w Hi; cbn [serve].
  { wp_step. split; [exists 0; split; [lia|done]|]. by right; left. }
  wp_step. eapply wp_mono; [|by apply wp_serve_turn]. intros [j|h] w1 H1; [|done]. by apply IH.
Qed.

End Server.

(** How the server's run ends, the semaphore being its own or not. *)
Definition server_ended msgsize `{MqKernel msgsize K} (max : Z) (h : halt) (w : world K) : Prop :=
  exists own, ended msgsize max own h w.

Section Main.
Context (msgsize : Z) {K : Type} {HK : Kernel K} `{!MqKernel msgsize K} (max : Z).

Lemma failed_in_order busy (w : world K) r :
  EvCall (create max) r ∈ trace w -> ret r = 0 -> in_order msgsize max false busy w.
Proof. left. split; [done|]. by exists r. Qed.

(** Creating the semaphore opens the books. *)
Lemma wp_sem_setup (w : world K) :
  received (trace w) = [] ->
  wp (sem_setup max)
     (post (fun sem w' => exists own, in_order msgsize max own 0 w' /\ (sem = 0 -> own = false))
           (server_ended msgsize max)) w.
Proof.
  intros Hr. unfold sem_setup. wp_step. wp_step. wp_step. unfold sys at 1. wp_step. apply wp_syscall.
  intros r k E. cbn [post]. wp_step. wp_step. apply wp_get_errno. cbn [post]. wp_step. fold (create max) in *.
  set (w1 := World _ _ _) in *.
  assert (Hin : EvCall (create max) r ∈ trace (after (create max) r k w1)) by (cbn; set_solver).
  assert (Hend : ret r = 0 -> forall w', trace (after (create max) r k w1) ⊆ trace w' ->
            in_order msgsize max false 0 w') by (intros; eapply failed_in_order; eauto).
  destruct (Z.eqb_spec (ret r) 0) as [E0|E0]; cbn [andb].
  - specialize (Hend E0). destruct (_ =? EEXIST).
    + wp_step. unfold sys. wp_step. apply wp_syscall. intros r2 k2 _. cbn [post]. wp_step. destruct (ret r2 =? 0).
      * wp_go. exists false. split; [|by left]. exists 0. split; [lia|]. apply Hend. cbn. set_solver.
      * wp_go. exists false. split; [|done]. apply Hend. cbn. set_solver.
    + wp_go. exists false. split; [|done]. apply Hend. cbn. set_solver.
  - wp_go. exists true. split; [|done]. right. split; [done|]. cbn [kern trace after].
    apply mq_step in E as (v & Hv & He). unfold effect in He. cbn [create] in He. rewrite decide_True in He by done.
    apply Z.eqb_neq in E0. rewrite E0 in He. destruct He as [Hm Ev]. rewrite Ev.
    unfold received in *. subst w1. cbn [trace]. rewrite !omap_app, Hr. cbn. rewrite decide_False by (by intros []). cbn.
    pose proof (zlen_nonneg (waiting v)). constructor; cbn [fresh_sem value holders lost barged sent app]; [|lia|done].
    change (waiting (fresh_sem max v)) with (waiting v). lia.
Qed.

Lemma wp_server_main argv fuel k e :
  argc argv = 2 -> atoi (arg_n argv 1) = max ->
  wp (server_main fuel argv) (post (fun _ _ => False) (server_ended msgsize max)) (World k e []).
Proof.
  intros Ha Hm. unfold server_main. rewrite Ha, Hm. change (negb (2 =? 2)) with false. wp_step. wp_step.
  unfold sys. wp_step. wp_step. apply wp_syscall. intros r1 k1 E1. cbn [post]. wp_step. wp_step. wp_step.
  apply wp_syscall. intros r2 k2 E2. cbn [post]. wp_step. wp_step. eapply wp_mono; [|apply wp_sem_setup].
  - intros [sem|h] w' Hw; cbn [post] in *; [|done]. destruct Hw as (own & Hi & Hs).
    eapply wp_mono; [|by eapply wp_serve]. intros [[]|h] w2 H2; cbn [post] in *; [done|]. by exists own.
  - cbn. rewrite !decide_False by (by intros []). done.
Qed.

End Main.

(** C13: the counting semaphore of the server.  Whatever the clients do between its
    calls, the server never returns; when it stops, either it could not create the
    semaphore, or every place of the semaphore is accounted for, so that never more
    requests are with clients, queue and server than the count given on the command
    line and the clients that went on without the semaphore, and the server has
    taken exactly the oldest messages, in the order in which they were sent. *)
Theorem server_capacity msgsize `{MqKernel msgsize K} max argv fuel (k : K) e :
  argc argv = 2 -> atoi (arg_n argv 1) = max ->
  match server_main fuel argv (World k e []) with
  | (Done _, _) => False
  | (Halt h, w') =>
      (exists r, EvCall (create max) r ∈ trace w' /\ ret r = 0) \/
      (exists busy, 0 <= busy <= 1 /\
         let v := view (kern w') in
         value v + holders v + zlen (waiting v) + busy = max + barged v - lost v /\
         holders v + zlen (waiting v) + busy <= max + barged v /\
         sent v = received (trace w') ++ waiting v) /\
      (h = HExit 1 \/ h = HFuel \/ h = HUB (UB_uninit "semval" 0) \/
       h = HUB (UB_bounds "buf" msgsize) /\ exists msg, msg ∈ received (trace w') /\ zlen msg = msgsize)
  end.
Proof.
  intros Ha Hm. destruct (wp_run _ _ _ (wp_server_main msgsize max argv fuel k e Ha Hm)) as (o & w' & E & Hw).
  rewrite E. destruct o as [[]|h]; cbn [post] in Hw; [done|].
  destruct Hw as (own & (busy & Hb & [[_ Hf]|[_ Hk]]) & Hh); [by left|].
  assert (Hbal : exists busy, 0 <= busy <= 1 /\
    let v := view (kern w') in
    value v + holders v + zlen (waiting v) + busy = max + barged v - lost v /\
    holders v + zlen (waiting v) + busy <= max + barged v /\ sent v = received (trace w') ++ waiting v).
  { exists busy. split; [done|]. destruct Hk as [Hs Hp Hse]. cbn zeta. split_and!; [done|lia|done]. }
  destruct Hh as [|[|[|[[_ Hf]|]]]]; [right; split; auto..|by left|right; split; auto].
Qed.

(** ** The client *)

(** What the calls of the client do to what the processes share. *)
Definition cact_of (e : event) : option cact :=
  match e with
  | EvCall (Csys fn args) r =>
      if decide (fn = "sem_wait") then Some (if ret r =? -1 then CBarge else CWait)
      else match args with
           | [_; AB msg; _] => if decide (fn = "mq_send") then if ret r =? -1 then None else Some (CSend msg) else None
           | _ => None
           end
  | _ => None
  end.

(** The client keeps the protocol.  It always ends: with code 0 after it passed
    the semaphore, or saw sem_wait fail, and then sent its argument as one message;
    or with code 1, having sent nothing, in which case the place it got is lost. *)
Theorem client_protocol {K} `{Kernel K} argv (k : K) e :
  exists code w', client_main argv (World k e []) = (Halt (HExit code), w') /\
    let acts := omap cact_of (trace w') in
    (code = 0 /\ (acts = [CWait; CSend (bytes_of (arg_n argv 1))] \/ acts = [CBarge; CSend (bytes_of (arg_n argv 1))])) \/
    (code = 1 /\ (acts = [] \/ acts = [CWait] \/ acts = [CBarge])).
Proof.
  enough (wp (client_main argv) (fun o w' => exists code, o = Halt (HExit code) /\
    let acts := omap cact_of (trace w') in
    (code = 0 /\ (acts = [CWait; CSend (bytes_of (arg_n argv 1))] \/ acts = [CBarge; CSend (bytes_of (arg_n argv 1))])) \/
    (code = 1 /\ (acts = [] \/ acts = [CWait] \/ acts = [CBarge]))) (World k e []))
    as (o & w' & E & code & -> & Hw)%wp_run by eauto.
  unfold client_main, client_sem_setup, client_send_request, handle_error, sys.
  wp_go; eexists; (split; [reflexivity|]);
    repeat match goal with Hk : kstep _ _ = _ |- _ => clear Hk end; cbn;
    repeat match goal with Hb : (ret _ =? _) = _ |- _ => rewrite Hb; clear Hb end; auto 10.
Qed.

(** ** A kernel with clients *)

(** Before each call of the server the next batch of client acts is carried out;
    an act that is not possible is skipped. *)
Record demo := Demo { dview : ipc; batches : list (list cact) }.

Definition run_acts (msgsize : Z) (acts : list cact) (v : ipc) : ipc :=
  foldl (fun v a => default v (do_cact msgsize a v)) v acts.

Definition answer (msgsize : Z) (c : call) (v : ipc) : resp * ipc :=
  match c with
  | Csys fn args =>
      if decide (fn = "sem_open") then
        match args with
        | [_; _; _; AI n] => if 0 <=? n then (Resp 1 0 [], fresh_sem n v) else (Resp 0 EINVAL [], v)
        | _ => (Resp 1 0 [], v)
        end
      else if decide (fn = "mq_unlink") then (Resp 0 0 [], set_queue None v)
      else if decide (fn = "mq_open") then
        match args, queue v with
        | [_; _; _], None => (Resp 3 0 [], set_queue (Some []) v)
        | [_; _; _], Some _ => (Resp (-1) EEXIST [], v)
        | _, _ => (Resp 3 0 [], v)
        end
      else if decide (fn = "mq_getattr") then (Resp 0 0 [msgsize], v)
      else if decide (fn = "mq_receive") then
        match queue v with
        | Some (msg :: q) => if zlen msg <=? msgsize then (Resp (zlen msg) 0 (100 :: msg), set_queue (Some q) v)
                             else (Resp (-1) EINVAL [], v)
        | _ => (Resp (-1) EINTR [], v)
        end
      else if decide (fn = "sem_getvalue") then (Resp 0 0 [value v], v)
      else if decide (fn = "sem_post") then
        (Resp 0 0 [], Ipc (value v + 1) (queue v) (holders v) (sent v) (lost v) (barged v))
      else (Resp 1 0 [], v)
  | _ => (Resp 1 0 [], v)
  end.

#[export] Instance demo_kernel : Kernel demo := fun c k =>
  let '(batch, rest) := match batches k with [] => ([], []) | b :: l => (b, l) end in
  let '(r, v) := answer 16 c (run_acts 16 batch (dview k)) in (r, Demo v rest).

Lemma run_acts_steps msgsize acts : forall v, rtc (cstep msgsize) v (run_acts msgsize acts v).
Proof.
  induction acts as [|a acts IH]; intros v; cbn; [done|]. destruct (do_cact msgsize a v) as [v'|] eqn:E; cbn.
  - eapply rtc_l; [by exists a|]. apply IH.
  - apply IH.
Qed.

Lemma answer_effect msgsize c v r v' : answer msgsize c v = (r, v') -> effect msgsize c r v v'.
Proof.
  unfold answer, effect. destruct c as [| | | | | |fn args]; try (by injection 1).
  repeat case_decide; intros E; repeat case_match; simplify_eq; cbn in *; try done.
  all: try (split; [by apply Z.leb_le|done]).
  all: try lia.
  - match goal with Hb : (zlen ?l =? -1) = true |- _ => pose proof (zlen_nonneg l); apply Z.eqb_eq in Hb end. lia.
  - eexists _, _, _. split_and!; [done..|by apply Z.leb_le|done].
Qed.

#[export] Program Instance demo_mq : MqKernel 16 demo := {| view := dview |}.
Next Obligation.
  intros c k r k' E. unfold kstep, demo_kernel in E.
  destruct (batches k) as [|b l]; [destruct (answer 16 c (run_acts 16 [] (dview k))) as [r0 v0] eqn:Ea
    | destruct (answer 16 c (run_acts 16 b (dview k))) as [r0 v0] eqn:Ea];
    injection E as <- <-; eexists; (split; [apply run_acts_steps|]); by apply answer_effect.
Qed.

Lemma server_capacity_witness :
  argc ["server"; "2"] = 2 /\ atoi "2" = 2 /\
  match server_main 5 ["server"; "2"]
          (World (Demo (Ipc 0 None 0 [] 0 0) [[]; []; []; [CWait; CWait; CWait]; []; [];
             [CSend (bytes_of "first")]; [CSend (bytes_of "second"); CSend (bytes_of "third")]]) 0 []) with
  | (Halt h, w') => h = HExit 1 /\ received (trace w') = [bytes_of "first"; bytes_of "second"] /\
                    value (view (kern w')) = 2 /\ (EvCall (create 2) (Resp 1 0 []) ∈ trace w')
  | _ => False
  end.
Proof.
  split; [done|]. split; [done|].
  pose proof (server_capacity 16 2 ["server"; "2"] 5 (Demo (Ipc 0 None 0 [] 0 0) [[]; []; []; [CWait; CWait; CWait]; []; [];
     [CSend (bytes_of "first")]; [CSend (bytes_of "second"); CSend (bytes_of "third")]]) 0 eq_refl eq_refl) as H.
  destruct (server_main _ _ _) as [[u|h] w'] eqn:E; [done|].
  vm_compute in E. injection E as <- <-. split; [done|]. split; [by vm_compute|]. split; [by vm_compute|].
  cbn [trace]. repeat first [by apply list_elem_of_here|apply list_elem_of_further].
Defined.
