(* ===== verification/Cleanup.v ===== *)
(** src/pthreads/tlpi_code_cancel_cleanup/thread_cleanup.c: a thread that waits on a
    condition variable and is either cancelled or signalled by the main thread, and
    the cleanup handler that frees its block and unlocks the mutex in both cases.  The
    two threads are a transition system; a step is a library call or a test of the
    shared variable.  The calls on the statically initialised mutex and condition
    variable do not fail, so the branches to fatalError are not taken. *)
From S2P Require Import Prelude CMonad CLib.

Inductive who := Main | Thread.

#[export] Instance who_eq_dec : EqDecision who.
Proof. solve_decision. Defined.

(** Where [threadFunc] is, with the source line; [cancelled] tells the way a thread
    came to the handler. *)
Inductive tpc :=
| TNone
| TMalloc
| TPrint1
| TLock
| TTest
| TWaiting
| TWoken
| TCancelled
| TPrint2
| TFree (cancelled : bool)
| TUnlock (cancelled : bool)
| TEnd (cancelled : bool).

Inductive mpc :=
| MCreate
| MChoose
| MSet
| MUnlock
| MSignal
| MJoin
| MPrint (cancelled : bool)
| MEnd.

Inductive block := NoBlock | Live | Freed.

(** The mutex, the predicate, the thread's block, the pending cancellation, how often
    the handler ran, what main printed last. *)
Record state := State {
  mtx : option who;
  glob : bool;
  buf : block;
  pending : bool;
  runs : nat;
  verdict : option string;
  thr : tpc;
  mn : mpc }.

Definition start : state := State None false NoBlock false 0 None TNone MCreate.

(** A wait may also end for no reason. *)
Inductive move := RunMain | RunThread | Cancel | Spurious.

#[export] Instance move_eq_dec : EqDecision move.
Proof. solve_decision. Defined.

Section Run.
(** argc == 1, and whether malloc finds memory. *)
Context (cancel room : bool).

(** A step of [threadFunc] and [cleanupHandler] that is not a reaction to a
    cancellation. *)
Definition threadFunc (s : state) : option state :=
  let go p := State (mtx s) (glob s) (buf s) (pending s) (runs s) (verdict s) p (mn s) in
  match thr s with
  | TMalloc => Some (State (mtx s) (glob s) (if room then Live else NoBlock) (pending s) (runs s) (verdict s) TPrint1 (mn s))
  | TPrint1 => Some (go TLock)
  | TLock => if decide (mtx s = None)
             then Some (State (Some Thread) (glob s) (buf s) (pending s) (runs s) (verdict s) TTest (mn s)) else None
  | TTest => if glob s then Some (go TPrint2)
             else Some (State None (glob s) (buf s) (pending s) (runs s) (verdict s) TWaiting (mn s))
  | TWoken => if decide (mtx s = None)
              then Some (State (Some Thread) (glob s) (buf s) (pending s) (runs s) (verdict s) TTest (mn s)) else None
  | TCancelled => if decide (mtx s = None)
                  then Some (State (Some Thread) (glob s) (buf s) (pending s) (runs s) (verdict s) (TFree true) (mn s)) else None
  | TPrint2 => Some (go (TFree false))
  | TFree c => Some (State (mtx s) (glob s) (match buf s with Live => Freed | b => b end) (pending s) (S (runs s))
                       (verdict s) (TUnlock c) (mn s))
  | TUnlock c => Some (State None (glob s) (buf s) (pending s) (runs s) (verdict s) (TEnd c) (mn s))
  | TNone | TWaiting | TEnd _ => None
  end.

(** A pending cancellation acts at a cancellation point: at the first printf no
    handler is registered; in the wait the mutex is taken again first; at the second
    printf the handler runs. *)
Definition act_on_cancel (s : state) : option state :=
  if pending s then
    let go p := State (mtx s) (glob s) (buf s) (pending s) (runs s) (verdict s) p (mn s) in
    match thr s with
    | TPrint1 => Some (go (TEnd true))
    | TWaiting => Some (go TCancelled)
    | TPrint2 => Some (go (TFree true))
    | _ => None
    end
  else None.

Definition main (s : state) : option state :=
  let go p := State (mtx s) (glob s) (buf s) (pending s) (runs s) (verdict s) (thr s) p in
  match mn s with
  | MCreate => Some (State (mtx s) (glob s) (buf s) (pending s) (runs s) (verdict s) TMalloc MChoose)
  | MChoose =>
      if cancel then Some (State (mtx s) (glob s) (buf s) true (runs s) (verdict s) (thr s) MJoin)
      else if decide (mtx s = None)
      then Some (State (Some Main) (glob s) (buf s) (pending s) (runs s) (verdict s) (thr s) MSet) else None
  | MSet => Some (State (mtx s) true (buf s) (pending s) (runs s) (verdict s) (thr s) MUnlock)
  | MUnlock => Some (State None (glob s) (buf s) (pending s) (runs s) (verdict s) (thr s) MSignal)
  | MSignal => Some (State (mtx s) (glob s) (buf s) (pending s) (runs s) (verdict s)
                       (match thr s with TWaiting => TWoken | p => p end) MJoin)
  | MJoin => match thr s with TEnd c => Some (go (MPrint c)) | _ => None end
  | MPrint c => Some (State (mtx s) (glob s) (buf s) (pending s) (runs s)
                        (Some (if c then "main:    thread was canceled" else "main:    thread terminated normally"))
                        (thr s) MEnd)
  | MEnd => None
  end.

Definition exec (m : move) (s : state) : option state :=
  match m with
  | RunMain => main s
  | RunThread => threadFunc s
  | Cancel => act_on_cancel s
  | Spurious =>
      match thr s with
      | TWaiting => Some (State (mtx s) (glob s) (buf s) (pending s) (runs s) (verdict s) TWoken (mn s))
      | _ => None
      end
  end.

Fixpoint do_moves (l : list move) (s : state) : option state :=
  match l with
  | [] => Some s
  | m :: l' => s' ← exec m s; do_moves l' s'
  end.

Definition stuck (s : state) : Prop := forall m, m <> Spurious -> exec m s = None.

(** ** Invariant *)

Definition thread_holds (p : tpc) : bool :=
  match p with TTest | TPrint2 | TFree _ | TUnlock _ => true | _ => false end.

Definition main_holds (p : mpc) : bool := match p with MSet | MUnlock => true | _ => false end.

(** The ways the handler's work shows: the block before it, after it, and when the
    thread ended at the first printf. *)
Definition handled (s : state) : Prop :=
  match thr s with
  | TNone | TMalloc => runs s = 0%nat /\ buf s = NoBlock
  | TUnlock _ => runs s = 1%nat /\ buf s = if room then Freed else NoBlock
  | TEnd _ => (runs s = 1%nat /\ buf s = if room then Freed else NoBlock) \/
              (runs s = 0%nat /\ cancel = true /\ buf s = if room then Live else NoBlock)
  | _ => runs s = 0%nat /\ buf s = if room then Live else NoBlock
  end.

(** Main has given the predicate, and a wait that has not been woken is woken by
    the signal that is still to come. *)
Definition stage (s : state) : Prop :=
  match mn s with
  | MCreate => thr s = TNone /\ glob s = false /\ pending s = false
  | MChoose => thr s <> TNone /\ glob s = false /\ pending s = false
  | MSet => thr s <> TNone /\ cancel = false /\ glob s = false /\ pending s = false
  | MUnlock | MSignal => thr s <> TNone /\ cancel = false /\ glob s = true /\ pending s = false
  | MJoin => thr s <> TNone /\ glob s = negb cancel /\ pending s = cancel /\ (cancel = false -> thr s <> TWaiting)
  | MPrint c => thr s = TEnd c /\ glob s = negb cancel /\ pending s = cancel
  | MEnd => glob s = negb cancel /\ pending s = cancel /\ exists c, thr s = TEnd c /\
      verdict s = Some (if c then "main:    thread was canceled" else "main:    thread terminated normally")
  end.

(** A thread only goes to its end the way main chose. *)
Definition way (s : state) : Prop :=
  match thr s with
  | TCancelled | TFree true | TUnlock true | TEnd true => cancel = true
  | TPrint2 | TFree false | TUnlock false | TEnd false => glob s = true
  | _ => True
  end.

Definition holder (s : state) : option who :=
  if thread_holds (thr s) then Some Thread else if main_holds (mn s) then Some Main else None.

Record inv (s : state) : Prop := Inv {
  inv_excl : thread_holds (thr s) && main_holds (mn s) = false;
  inv_mtx : mtx s = holder s;
  inv_handled : handled s;
  inv_stage : stage s;
  inv_way : way s }.

(** The steps that are left when no wait ends for no reason. *)
Definition left_thread (p : tpc) : nat :=
  match p with
  | TNone => 12 | TMalloc => 11 | TPrint1 => 10 | TLock => 9 | TWoken => 9 | TTest => 8 | TWaiting => 5
  | TCancelled => 4 | TPrint2 => 3 | TFree _ => 2 | TUnlock _ => 1 | TEnd _ => 0
  end.

Definition left_main (p : mpc) : nat :=
  match p with
  | MCreate => 11 | MChoose => 10 | MSet => 9 | MUnlock => 8 | MSignal => 7 | MJoin => 2 | MPrint _ => 1 | MEnd => 0
  end.

Definition left (s : state) : nat := left_thread (thr s) + left_main (mn s).

Lemma start_ok : inv start.
Proof. by constructor. Qed.

(** One step, by cases on where the two threads are. *)
Ltac settle := split; [constructor; unfold handled, stage, way, holder in *; cbn in *; naive_solver|cbn; first [lia|naive_solver]].

Lemma thread_inv_left s s' : inv s -> threadFunc s = Some s' -> inv s' /\ (left s' < left s)%nat.
Proof.
  intros [H1 H2 H3 H4 H5] E. destruct s as [x g b pd r v t m]. unfold holder, handled, stage, way, left in *.
  destruct t; cbn in *; try done; repeat case_decide; repeat case_match; simplify_eq; settle.
Qed.

Lemma main_inv_left s s' : inv s -> main s = Some s' -> inv s' /\ (left s' < left s)%nat.
Proof.
  intros [H1 H2 H3 H4 H5] E. destruct s as [x g b pd r v t m]. unfold holder, handled, stage, way, left in *.
  destruct m; cbn in *; try done; repeat case_decide; destruct t; cbn in *; repeat case_match; simplify_eq; settle.
Qed.

Lemma exec_inv_left mv s s' : inv s -> exec mv s = Some s' ->
  inv s' /\ (left s' < left s + (if decide (mv = Spurious) then 5 else 0))%nat.
Proof.
  intros Hi E. destruct mv; cbn [exec] in E; [rewrite decide_False by done; rewrite Nat.add_0_r..|].
  - by apply main_inv_left.
  - by apply thread_inv_left.
  - destruct Hi as [H1 H2 H3 H4 H5]. destruct s as [x g b pd r v t m].
    unfold act_on_cancel, holder, handled, stage, way, left in *.
    destruct pd, t; cbn in *; try done; simplify_eq; destruct m; cbn in *; settle.
  - destruct Hi as [H1 H2 H3 H4 H5]. destruct s as [x g b pd r v t m]. unfold holder, handled, stage, way, left in *.
    destruct t; cbn in *; try done; simplify_eq; destruct m; cbn in *; settle.
Qed.

Definition spurious (l : list move) : nat := length (filter (fun m => m = Spurious) l).

Lemma cleanup_moves_inv l : forall s s', inv s -> do_moves l s = Some s' ->
  inv s' /\ (length l + left s' <= left s + 5 * spurious l)%nat.
Proof.
  induction l as [|m l IH]; intros s s' Hi E; cbn [do_moves] in E.
  { injection E as <-. split; [done|]. cbn. lia. }
  apply bind_Some in E as (s1 & E1 & E). destruct (exec_inv_left m s s1 Hi E1) as [Hi1 Hl].
  destruct (IH s1 s' Hi1 E) as [Hi' Hl']. split; [done|]. cbn [length]. unfold spurious in *.
  rewrite filter_cons. case_decide; cbn [length]; lia.
Qed.

(** Somebody can go on until both are done. *)
Lemma stuck_done s : inv s -> stuck s -> mn s = MEnd /\ exists c, thr s = TEnd c.
Proof.
  intros [H1 H2 H3 H4 H5] Hs. pose proof (Hs RunMain ltac:(done)) as HM. pose proof (Hs RunThread ltac:(done)) as HT.
  pose proof (Hs Cancel ltac:(done)) as HC. clear Hs. destruct s as [x g b pd r v t m].
  unfold holder, handled, stage, way in *. cbn in *. subst x.
  destruct m; cbn in *; try done; destruct t, pd, cancel, g; cbn in *; try done; try (intuition congruence); naive_solver.
Qed.

End Run.

(** ** The property *)

(** C16: cancellation and cleanup.  Over every interleaving of the two threads, with
    and without an argument, however often the wait ends for no reason: the mutex is
    held by at most the thread that is between its lock and unlock, the handler runs
    at most once, the run is finite, and when nobody can go on both threads are
    done, the mutex is free, main reports a cancellation exactly when it asked for
    one, and the block is freed unless the cancellation came before the handler was
    registered. *)
Theorem cleanup_correct cancel room l s :
  do_moves cancel room l start = Some s ->
  mtx s = holder s /\ (runs s <= 1)%nat /\ (length l <= 23 + 5 * spurious l)%nat /\
  (stuck cancel room s ->
     mn s = MEnd /\ thr s = TEnd cancel /\ mtx s = None /\
     verdict s = Some (if cancel then "main:    thread was canceled" else "main:    thread terminated normally") /\
     (buf s <> Live \/ cancel = true /\ runs s = 0%nat)).
Proof.
  intros E. destruct (cleanup_moves_inv cancel room l start s (start_ok cancel room) E) as [Hi Hl].
  split; [by apply Hi|]. split; [|split; [cbn in *; lia|]].
  - pose proof (inv_handled _ _ _ Hi) as Hh. unfold handled in Hh. destruct (thr s); naive_solver lia.
  - intros Hs. destruct (stuck_done cancel room s Hi Hs) as [Hm [c Ht]]. destruct Hi as [H1 H2 H3 H4 H5].
    unfold handled, stage, way, holder in *. rewrite Hm, Ht in *. cbn in *. destruct H4 as (Hg & _ & c0 & [= <-] & Hv).
    assert (c = cancel) as -> by (destruct c, cancel; cbn in *; congruence).
    split_and!; [done..|]. destruct H3 as [[_ ->]|(? & ? & _)]; [left; by destruct room|by right].
Qed.

Lemma cleanup_correct_witness :
  exists s, do_moves true true (RunMain :: replicate 4 RunThread ++ [RunMain; Spurious; RunThread; RunThread; Cancel] ++
                                replicate 3 RunThread ++ [RunMain; RunMain]) start = Some s /\
    buf s = Freed /\ runs s = 1%nat /\ mtx s = holder s.
Proof.
  eexists. split; [vm_compute; reflexivity|]. split; [done|]. split; [done|].
  refine (proj1 (cleanup_correct true true (RunMain :: replicate 4 RunThread ++ [RunMain; Spurious; RunThread; RunThread; Cancel] ++
    replicate 3 RunThread ++ [RunMain; RunMain]) _ _)). vm_compute. reflexivity.
Defined.

(** A cancellation that acts at the first printf leaves the block allocated. *)
Lemma cleanup_leak :
  exists l s, do_moves true true l start = Some s /\ stuck true true s /\ buf s = Live /\
    verdict s = Some "main:    thread was canceled".
Proof.
  exists [RunMain; RunThread; RunMain; Cancel; RunMain; RunMain]. eexists. split; [vm_compute; reflexivity|].
  split; [by intros []|done].
Qed.
