(* ===== verification/RobustMtx.v ===== *)
(** src/pthreads/misc/mutex_debugcheck/mutex_debugcheck.c: the dot product program
    with an error-checking robust mutex, a thread that locks the mutex twice and one
    that dies holding it.  The threads are a transition system over the mutex as
    POSIX defines it for these attributes, including the owner's death and the state
    that cannot be recovered. *)
From S2P Require Import Prelude CMonad CLib Threads.
Import Dotprod.

(** ** The mutex *)

Definition EDEADLK : Z := 35.
Definition EOWNERDEAD : Z := 130.
Definition ENOTRECOVERABLE : Z := 131.

(** Free, held, left by a dead owner, held but not yet made consistent, or lost. *)
Inductive mutex := Free | Held (t : nat) | Dead | HeldInc (t : nat) | NotRec.

#[export] Instance mutex_eq_dec : EqDecision mutex.
Proof. solve_decision. Defined.

Definition owner (m : mutex) : option nat :=
  match m with Held t | HeldInc t => Some t | _ => None end.

(** The result and the new state; [None] while the caller blocks. *)
Definition mutex_lock (t : nat) (m : mutex) : option (Z * mutex) :=
  match m with
  | Free => Some (0, Held t)
  | Dead => Some (EOWNERDEAD, HeldInc t)
  | NotRec => Some (ENOTRECOVERABLE, NotRec)
  | Held t' | HeldInc t' => if decide (t' = t) then Some (EDEADLK, m) else None
  end.

Definition mutex_consistent (t : nat) (m : mutex) : Z * mutex :=
  match m with
  | HeldInc t' => if decide (t' = t) then (0, Held t) else (22, m)
  | _ => (22, m)
  end.

(** An unlock of a mutex that was not made consistent makes it unusable. *)
Definition mutex_unlock (t : nat) (m : mutex) : Z * mutex :=
  match m with
  | Held t' => if decide (t' = t) then (0, Free) else (1, m)
  | HeldInc t' => if decide (t' = t) then (0, NotRec) else (1, m)
  | _ => (1, m)
  end.

Definition owner_exits (t : nat) (m : mutex) : mutex :=
  if decide (owner m = Some t) then Dead else m.

(** ** The threads *)

Inductive rpc :=
| RLock1
| RConsist
| RReadA
| RRelock (len : Z)
| RReadB (len : Z)
| RUnlock1 (len : Z)
| RSum (len : Z)
| RLock2 (mysum : Z)
| RLoad (mysum : Z)
| RStore (mysum v : Z)
| RUnlock2
| RDie
| RExited
| RFault.

Record rstate := RState { gDotstr : DOTDATA; mtx : mutex; rpcs : list rpc; log : list string }.

(** The lines of [pthread_mutex_lock_wrapped]; no call of the thread sets errno. *)
Definition lock_wrapped_lines (ret : Z) : list string :=
  (if negb (ret =? 0) then [cat ["Warning! pthread_mutex_lock() failed, err="; fmt_d ret]] else []) ++
  (if ret =? EOWNERDEAD then ["owner died without unlocking"] else []).

(** [for (i = start; i < end; i++) mysum += x[i] * y[i]] *)
Fixpoint sum_loop (x y : list Z) (i : Z) (n : nat) (mysum : Z) : option Z :=
  match n with
  | O => Some mysum
  | S n' => match znth x i, znth y i with
            | Some u, Some v => sum_loop x y (i + 1) n' (mysum + u * v)
            | _, _ => None
            end
  end.

(** One step of [dotprod] in the thread created with offset [t]. *)
Definition dotprod_dbg (t : nat) (p : rpc) (d : DOTDATA) (m : mutex)
    : option (DOTDATA * mutex * rpc * list string) :=
  match p with
  | RLock1 =>
      '(ret, m) ← mutex_lock t m;
      Some (d, m, if ret =? EOWNERDEAD then RConsist else RReadA,
            [cat ["Thread T"; fmt_d (Z.of_nat t)]] ++ lock_wrapped_lines ret ++
            (if ret =? EOWNERDEAD then ["pthread_mutex_lock() returned EOWNERDEAD"; "Lets now make the mutex consistent"] else []))
  | RConsist =>
      let '(ret, m) := mutex_consistent t m in
      if ret =? 0 then Some (d, m, RReadA, ["mutex now consistent!"])
      else Some (d, snd (mutex_unlock t m), RReadA, ["Warning! pthread_mutex_consistent() failed"])
  | RReadA => Some (d, m, if Nat.eqb t 0 then RRelock (veclen d) else RReadB (veclen d), [])
  | RRelock len => '(ret, m) ← mutex_lock t m; Some (d, m, RReadB len, lock_wrapped_lines ret)
  | RReadB len => Some (d, m, RUnlock1 len, [])
  | RUnlock1 len => Some (d, snd (mutex_unlock t m), RSum len, [])
  | RSum len =>
      match sum_loop (a d) (b d) (Z.of_nat t * len) (Z.to_nat len) 0 with
      | Some mysum => Some (d, m, RLock2 mysum, [])
      | None => Some (d, m, RFault, [])
      end
  | RLock2 mysum => '(ret, m) ← mutex_lock t m; Some (d, m, RLoad mysum, [])
  | RLoad mysum => Some (d, m, RStore mysum (sum d), [])
  | RStore mysum v => Some (set_sum d (v + mysum), m, if Nat.eqb t 2 then RDie else RUnlock2, [])
  | RUnlock2 => Some (d, snd (mutex_unlock t m), RExited, [])
  | RDie => Some (d, owner_exits t m, RExited, [])
  | RExited | RFault => None
  end.

Definition rexec (t : nat) (s : rstate) : option rstate :=
  p ← rpcs s !! t;
  '(d, m, p, out) ← dotprod_dbg t p (gDotstr s) (mtx s);
  Some (RState d m (<[t := p]> (rpcs s)) (log s ++ out)).

Fixpoint rschedule (l : list nat) (s : rstate) : option rstate :=
  match l with
  | [] => Some s
  | t :: l' => s' ← rexec t s; rschedule l' s'
  end.

Definition rstart (n : nat) (d : DOTDATA) : rstate := RState d Free (replicate n RLock1) [].

Definition rstuck (s : rstate) : Prop := forall t, rexec t s = None.

(** The start of [main]: the attributes are read before they are initialised. *)
Definition dbg_main {K} `{Kernel K} (name : string) : C K unit :=
  printf (cat [name; ": mutex process-shared is true."; nl]);;
  a ← syscall (Cmalloc (NUMTHRDS * VECLEN * 8));
  b ← syscall (Cmalloc (NUMTHRDS * VECLEN * 8));
  (if (ret a =? 0) || (ret b =? 0) then undefined (UB_null "a[i]") else mret tt);;
  undefined (UB_uninit "mutexattr" 0).

(** ** Invariant *)

Definition rholds (p : rpc) : bool :=
  match p with
  | RConsist | RReadA | RRelock _ | RReadB _ | RUnlock1 _ | RLoad _ | RStore _ _ | RUnlock2 | RDie => true
  | _ => false
  end.

(** Where a thread may hold the mutex without having made it consistent. *)
Definition may_inc (p : rpc) : bool :=
  match p with RConsist | RLoad _ | RStore _ _ | RUnlock2 | RDie => true | _ => false end.

(** The steps a thread has left. *)
Definition rleft (p : rpc) : Z :=
  match p with
  | RLock1 => 11 | RConsist => 10 | RReadA => 9 | RRelock _ => 8 | RReadB _ => 7 | RUnlock1 _ => 6
  | RSum _ => 5 | RLock2 _ => 4 | RLoad _ => 3 | RStore _ _ => 2 | RUnlock2 => 1 | RDie => 1
  | RExited | RFault => 0
  end.

Section Inv.
Context (d0 : DOTDATA) (n len : nat).
Context (Hlen : veclen d0 = Z.of_nat len).
Context (Ha : length (a d0) = (n * len)%nat) (Hb : length (b d0) = (n * len)%nat).

Lemma sum_loop_dot t : (t < n)%nat -> forall j k, (k + j = len)%nat ->
  sum_loop (a d0) (b d0) (Z.of_nat t * Z.of_nat len + Z.of_nat k) j (dot d0 (Z.of_nat t * Z.of_nat len) k)
    = Some (part d0 len t).
Proof.
  intros Ht. induction j as [|j IH]; intros k Hk; cbn [sum_loop].
  { unfold part. by replace k with len by lia. }
  destruct (znth_in d0 n len Ha Hb (a d0) t k Ha Ht) as [x Hx]; [lia|].
  destruct (znth_in d0 n len Ha Hb (b d0) t k Hb Ht) as [y Hy]; [lia|]. rewrite Hx, Hy.
  replace (Z.of_nat t * Z.of_nat len + Z.of_nat k + 1) with (Z.of_nat t * Z.of_nat len + Z.of_nat (S k)) by lia.
  rewrite <- (IH (S k)) by lia. f_equal. cbn [dot]. by rewrite Hx, Hy.
Qed.

Definition rpc_ok (t : nat) (p : rpc) : Prop :=
  match p with
  | RRelock l | RReadB l | RUnlock1 l | RSum l => l = Z.of_nat len
  | RLock2 mysum | RLoad mysum | RStore mysum _ => mysum = part d0 len t
  | RFault => False
  | _ => True
  end.

Definition radded (t : nat) (p : rpc) : Z :=
  match p with RUnlock2 | RDie | RExited => part d0 len t | _ => 0 end.

(** What holds of a thread while the mutex is usable. *)
Record good (t : nat) (p : rpc) (s : Z) (m : mutex) : Prop := Good {
  gd_holds : rholds p = bool_decide (owner m = Some t);
  gd_inc : m = HeldInc t -> may_inc p = true;
  gd_dead : p = RConsist -> m = HeldInc t;
  gd_store : forall mysum v, p = RStore mysum v -> v = s }.

(** What a step does to the shared data while the mutex is usable. *)
Record good_step (t : nat) (p p' : rpc) (d d' : DOTDATA) (m m' : mutex) : Prop := GoodStep {
  gs_good : good t p' (sum d') m';
  gs_sum : sum d' = sum d - radded t p + radded t p';
  gs_excl : sum d' = sum d \/ owner m = Some t;
  gs_owner : owner m' = owner m \/ (owner m = None /\ owner m' = Some t) \/ (owner m = Some t /\ owner m' = None);
  gs_inc : forall t', t' <> t -> m' = HeldInc t' <-> m = HeldInc t' }.

Lemma rstep_always t p d m d' m' p' out :
  dotprod_dbg t p d m = Some (d', m', p', out) -> (t < n)%nat -> same_data d0 d -> rpc_ok t p ->
  same_data d0 d' /\ rpc_ok t p' /\ rleft p' < rleft p /\ (m = NotRec -> m' = NotRec).
Proof.
  intros E Ht Hd Hp. pose proof Hd as (Da & Db & Dl).
  destruct p; cbn in E, Hp; try done.
  - apply bind_Some in E as ([r m1] & Em & [= <- <- <- <-]). split; [done|]. split; [by case_match|].
    split; [case_match; cbn; lia|]. intros ->. cbn in Em. congruence.
  - case_match; simplify_eq. repeat case_match; simplify_eq; (split; [done|]; split; [done|]; split; [cbn; lia|]); intros ->; cbn in *; by simplify_eq.
  - simplify_eq. split; [done|]. split; [case_match; cbn; congruence|]. split; [case_match; cbn; lia|done].
  - apply bind_Some in E as ([r m1] & Em & [= <- <- <- <-]). split_and!; [done|done|cbn; lia|]. intros ->. cbn in Em. congruence.
  - simplify_eq. split_and!; [done..|cbn; lia|done].
  - simplify_eq. split_and!; [done..|cbn; lia|by intros ->].
  - subst len0. rewrite Da, Db, Nat2Z.id in E.
    pose proof (sum_loop_dot t Ht len 0 eq_refl) as Hs. cbn [dot] in Hs. rewrite Z.add_0_r in Hs. rewrite Hs in E.
    simplify_eq. split_and!; [done..|cbn; lia|done].
  - apply bind_Some in E as ([r m1] & Em & [= <- <- <- <-]). split_and!; [done..|cbn; lia|]. intros ->. cbn in Em. congruence.
  - simplify_eq. split_and!; [done..|cbn; lia|done].
  - simplify_eq. split_and!; [done..|by case_match|case_match; cbn; lia|done].
  - simplify_eq. split_and!; [done..|cbn; lia|by intros ->].
  - simplify_eq. split_and!; [done..|cbn; lia|]. intros ->. unfold owner_exits. by rewrite decide_False.
Qed.

(** Locking a usable mutex that one does not hold. *)
Lemma lock_other t m r m' :
  mutex_lock t m = Some (r, m') -> m <> NotRec -> owner m <> Some t ->
  owner m = None /\ ((m = Free /\ r = 0 /\ m' = Held t) \/ (m = Dead /\ r = EOWNERDEAD /\ m' = HeldInc t)).
Proof. destruct m; cbn; intros E Hn Ho; try done; try case_decide; simplify_eq; naive_solver. Qed.

(** The mutex of a thread that is not where it may be inconsistent. *)
Lemma held_by t p s m : good t p s m -> rholds p = true -> may_inc p = false -> m = Held t.
Proof.
  intros [Hh Hi _ _] Hp Hm. rewrite Hp in Hh. symmetry in Hh. apply bool_decide_eq_true in Hh.
  destruct m as [|t'| |t'|]; cbn in Hh; simplify_eq; [done|]. by rewrite Hi in Hm.
Qed.

Lemma owned_by t p s m : good t p s m -> rholds p = true -> m = Held t \/ m = HeldInc t.
Proof.
  intros [Hh _ _ _] Hp. rewrite Hp in Hh. symmetry in Hh. apply bool_decide_eq_true in Hh.
  destruct m as [|t'| |t'|]; cbn in Hh; simplify_eq; auto.
Qed.

Lemma not_owned t p s m : good t p s m -> rholds p = false -> owner m <> Some t.
Proof. intros [Hh _ _ _] Hp. rewrite Hp in Hh. symmetry in Hh. by apply bool_decide_eq_false in Hh. Qed.

Ltac by_good := constructor; [constructor; cbn; try (by rewrite bool_decide_eq_true_2); try (by rewrite bool_decide_eq_false_2); naive_solver
                             |cbn; lia|cbn; naive_solver|cbn; naive_solver|cbn; naive_solver].

Lemma rstep_good t p d m d' m' p' out :
  dotprod_dbg t p d m = Some (d', m', p', out) -> m <> NotRec -> m' <> NotRec -> good t p (sum d) m ->
  rpc_ok t p -> good_step t p p' d d' m m'.
Proof.
  intros E Hn Hn' Hg Hok. destruct p; cbn in E; try done.
  - apply bind_Some in E as ([r m1] & Em & [= <- <- <- _]). pose proof (not_owned _ _ _ _ Hg eq_refl) as Ho.
    destruct (lock_other _ _ _ _ Em Hn Ho) as [Hnone [(-> & -> & ->)|(-> & -> & ->)]].
    + change (0 =? EOWNERDEAD) with false. by_good.
    + change (EOWNERDEAD =? EOWNERDEAD) with true. by_good.
  - rewrite (gd_dead _ _ _ _ Hg eq_refl) in *. cbn in E. rewrite decide_True in E by done. cbn in E. simplify_eq. by_good.
  - simplify_eq. rewrite (held_by _ _ _ _ Hg eq_refl eq_refl) in *. destruct (Nat.eqb t 0); by_good.
  - apply bind_Some in E as ([r m1] & Em & [= <- <- <- _]). rewrite (held_by _ _ _ _ Hg eq_refl eq_refl) in *.
    cbn in Em. rewrite decide_True in Em by done. simplify_eq. by_good.
  - simplify_eq. rewrite (held_by _ _ _ _ Hg eq_refl eq_refl) in *. by_good.
  - simplify_eq. rewrite (held_by _ _ _ _ Hg eq_refl eq_refl) in *. cbn in *. rewrite decide_True by done. by_good.
  - pose proof (not_owned _ _ _ _ Hg eq_refl) as Ho. repeat case_match; simplify_eq; by_good.
  - apply bind_Some in E as ([r m1] & Em & [= <- <- <- _]). pose proof (not_owned _ _ _ _ Hg eq_refl) as Ho.
    destruct (lock_other _ _ _ _ Em Hn Ho) as [Hnone [(-> & -> & ->)|(-> & -> & ->)]]; by_good.
  - simplify_eq. destruct (owned_by _ _ _ _ Hg eq_refl) as [-> | ->]; by_good.
  - simplify_eq. cbn in Hok. rewrite (gd_store _ _ _ _ Hg _ _ eq_refl).
    destruct (owned_by _ _ _ _ Hg eq_refl) as [-> | ->]; destruct (Nat.eqb t 2); by_good.
  - simplify_eq. destruct (owned_by _ _ _ _ Hg eq_refl) as [-> | ->]; cbn in *; rewrite decide_True in * by done; [by_good|done].
  - simplify_eq. unfold owner_exits in *. destruct (owned_by _ _ _ _ Hg eq_refl) as [-> | ->]; rewrite decide_True in * by done; by_good.
Qed.

Record rinv (s : rstate) : Prop := RInv {
  ri_data : same_data d0 (gDotstr s);
  ri_n : length (rpcs s) = n;
  ri_pc : forall t p, rpcs s !! t = Some p -> rpc_ok t p;
  ri_good : mtx s <> NotRec ->
    sum (gDotstr s) = total radded 0 (rpcs s) /\
    (forall t p, rpcs s !! t = Some p -> good t p (sum (gDotstr s)) (mtx s)) /\
    (forall t, owner (mtx s) = Some t -> (t < n)%nat) }.

(** The other threads do not see a step of [t] as far as their own part goes. *)
Lemma good_other t t' p p' q d d' m m' :
  t <> t' -> good_step t p p' d d' m m' -> good t p (sum d) m -> good t' q (sum d) m -> good t' q (sum d') m'.
Proof.
  intros Hne [_ _ Hx Ho Hi] Ht [G1 G2 G3 G4].
  assert (Hown : bool_decide (owner m' = Some t') = bool_decide (owner m = Some t')).
  { apply bool_decide_ext. destruct Ho as [->|[[-> ->]|[-> ->]]]; naive_solver. }
  constructor.
  - by rewrite Hown.
  - intros E. apply G2. by apply Hi.
  - intros E. apply Hi; [done|]. by apply G3.
  - intros mysum v E. rewrite (G4 _ _ E). destruct Hx as [->|Hx]; [done|]. subst q. cbn in G1.
    symmetry in G1. apply bool_decide_eq_true in G1. congruence.
Qed.

Lemma rexec_inv t s s' : rinv s -> rexec t s = Some s' ->
  rinv s' /\ total (fun _ => rleft) 0 (rpcs s') < total (fun _ => rleft) 0 (rpcs s).
Proof.
  intros [Hd Hn Hp Hg] E. unfold rexec in E.
  apply bind_Some in E as (p & Ep & E). apply bind_Some in E as ([[[d' m'] p'] out] & Ed & [= <-]).
  pose proof (lookup_lt_Some _ _ _ Ep) as Ht. rewrite Hn in Ht.
  destruct (rstep_always _ _ _ _ _ _ _ _ Ed Ht Hd (Hp _ _ Ep)) as (S1 & S2 & S3 & S4).
  split; [|cbn; rewrite (total_insert _ _ _ _ _ _ Ep); lia].
  constructor; cbn; [done|by rewrite length_insert| |].
  - intros t' q [(<- & <- & _)|[_ Hq]]%list_lookup_insert_Some; [done|by apply Hp].
  - intros Hm'. assert (Hm : mtx s <> NotRec) by auto. destruct (Hg Hm) as (Hs & Hgd & Ho).
    pose proof (rstep_good _ _ _ _ _ _ _ _ Ed Hm Hm' (Hgd _ _ Ep) (Hp _ _ Ep)) as Hst.
    split; [|split].
    + rewrite (total_insert _ _ _ _ _ _ Ep), (gs_sum _ _ _ _ _ _ _ Hst), Hs. done.
    + intros t' q [(<- & <- & _)|[Hne Hq]]%list_lookup_insert_Some; [apply Hst|].
      eapply good_other; [done|done|by apply Hgd|by apply Hgd].
    + intros t' Hown. destruct (gs_owner _ _ _ _ _ _ _ Hst) as [E|[[_ E]|[_ E]]]; rewrite E in Hown; [by apply Ho| |done].
      by injection Hown as <-.
Qed.

Lemma rschedule_inv l s s' : rinv s -> rschedule l s = Some s' ->
  rinv s' /\ total (fun _ => rleft) 0 (rpcs s') + zlen l <= total (fun _ => rleft) 0 (rpcs s).
Proof.
  revert s. induction l as [|t l IH]; intros s Hs E; cbn in E.
  { simplify_eq. split; [done|]. rewrite zlen_nil. lia. }
  apply bind_Some in E as (s1 & E1 & E). destruct (rexec_inv _ _ _ Hs E1) as [Hs1 Hl].
  destruct (IH s1 Hs1 E). split; [done|]. rewrite zlen_cons. lia.
Qed.

(** The thread [t] of [s] is about to take the mutex of a dead owner with the second
    lock of [dotprod], which does not look at the result. *)
Definition takes_over (t : nat) (s : rstate) : Prop :=
  mtx s = Dead /\ exists mysum, rpcs s !! t = Some (RLock2 mysum).

(** How the mutex can be lost: only by a thread that took it over like that, [T]. *)
Record loss (T : Prop) (s : rstate) : Prop := Loss {
  lo_inc : forall t p, mtx s = HeldInc t -> rpcs s !! t = Some p -> p = RConsist \/ T;
  lo_lost : mtx s = NotRec -> T }.

Lemma dotprod_loss t p d m d' m' p' out :
  dotprod_dbg t p d m = Some (d', m', p', out) -> (m <> NotRec -> good t p (sum d) m) ->
  (m' = NotRec -> m = NotRec \/ m = HeldInc t /\ p <> RConsist) /\
  (forall t', m' = HeldInc t' -> m = HeldInc t' /\ (t' = t -> p <> RConsist) \/
     t' = t /\ m = Dead /\ (p' = RConsist \/ exists mysum, p = RLock2 mysum)).
Proof.
  intros E Hg.
  assert (Hlock : forall r m1, mutex_lock t m = Some (r, m1) ->
    (m1 = NotRec -> m = NotRec) /\ (forall t', m1 = HeldInc t' -> m = HeldInc t' \/ t' = t /\ m = Dead /\ r = EOWNERDEAD)).
  { intros r m1 Em. destruct m; cbn in Em; try case_decide; simplify_eq; naive_solver. }
  destruct p; cbn in E; try done.
  - apply bind_Some in E as ([r m1] & Em & [= <- <- <- _]). destruct (Hlock _ _ Em) as [H1 H2]. split; [auto|].
    intros t' Ht'. destruct (H2 t' Ht') as [->|(-> & -> & ->)]; [by left|right]. by auto.
  - assert (m = NotRec \/ m = HeldInc t) as [-> | ->].
    { destruct (decide (m = NotRec)); [by left|right]. by apply Hg. }
    + cbn in E. simplify_eq. naive_solver.
    + cbn in E. rewrite decide_True in E by done. simplify_eq. naive_solver.
  - simplify_eq. naive_solver.
  - apply bind_Some in E as ([r m1] & Em & [= <- <- <- _]). destruct (Hlock _ _ Em) as [H1 H2]. split; [auto|].
    intros t' Ht'. destruct (H2 t' Ht') as [->|(-> & -> & ->)]; [by left|].
    exfalso. pose proof (held_by _ _ _ _ (Hg ltac:(done)) eq_refl eq_refl) as Hh. discriminate Hh.
  - simplify_eq. naive_solver.
  - simplify_eq. destruct m; cbn; try case_decide; cbn; naive_solver.
  - repeat case_match; simplify_eq; naive_solver.
  - apply bind_Some in E as ([r m1] & Em & [= <- <- <- _]). destruct (Hlock _ _ Em) as [H1 H2]. split; [auto|].
    intros t' Ht'. destruct (H2 t' Ht') as [->|(-> & -> & ->)]; [by left|right]. by eauto.
  - simplify_eq. naive_solver.
  - simplify_eq. naive_solver.
  - simplify_eq. destruct m; cbn; try case_decide; cbn; naive_solver.
  - simplify_eq. unfold owner_exits. case_decide; naive_solver.
Qed.

Lemma rexec_loss T t s s' : rinv s -> loss T s -> rexec t s = Some s' -> loss (T \/ takes_over t s) s'.
Proof.
  intros [_ _ _ Hg] [Hi Hl] E. unfold rexec in E.
  apply bind_Some in E as (p & Ep & E). apply bind_Some in E as ([[[d' m'] p'] out] & Ed & [= <-]).
  destruct (dotprod_loss _ _ _ _ _ _ _ _ Ed) as [Hlost Hinc].
  { intros Hm. by apply (Hg Hm). }
  constructor; cbn.
  - intros t' q Hm' Hq. destruct (Hinc t' Hm') as [[Hm Hne]|(-> & Hm & Hcase)].
    + apply list_lookup_insert_Some in Hq as [(<- & <- & _)|[Hne' Hq]].
      * destruct (Hi t p Hm Ep) as [->|]; [by destruct Hne|by auto].
      * destruct (Hi t' q Hm Hq); auto.
    + apply list_lookup_insert_Some in Hq as [(_ & <- & _)|[? _]]; [|done].
      destruct Hcase as [->|[mysum ->]]; [by left|]. right. right. by split; eauto.
  - intros Hm'. destruct (Hlost Hm') as [Hm|[Hm Hne]]; [by auto|].
    destruct (Hi t p Hm Ep); [done|by auto].
Qed.

(** In the run of [l] from [s] a thread takes the mutex over with the second lock. *)
Definition taken_late (l : list nat) (s : rstate) : Prop :=
  exists l1 t l2 s1, l = l1 ++ t :: l2 /\ rschedule l1 s = Some s1 /\ takes_over t s1.

Lemma taken_late_cons t l s s1 : rexec t s = Some s1 -> taken_late l s1 -> taken_late (t :: l) s.
Proof.
  intros E (l1 & t' & l2 & s2 & -> & E2 & H). exists (t :: l1), t', l2, s2. split_and!; [done| |done].
  cbn. by rewrite E.
Qed.

Lemma rschedule_loss l : forall T s s', rinv s -> loss T s -> rschedule l s = Some s' -> loss (T \/ taken_late l s) s'.
Proof.
  assert (Hmono : forall (T T' : Prop) s, (T -> T') -> loss T s -> loss T' s).
  { intros T T' s HT [H1 H2]. constructor; [|auto]. intros t p Hm Hp. destruct (H1 t p Hm Hp); auto. }
  induction l as [|t l IH]; intros T s s' Hs HL E; cbn in E.
  { simplify_eq. eapply Hmono; [|exact HL]. auto. }
  apply bind_Some in E as (s1 & E1 & E). destruct (rexec_inv _ _ _ Hs E1) as [Hs1 _].
  eapply Hmono; [|exact (IH _ s1 s' Hs1 (rexec_loss T t s s1 Hs HL E1) E)].
  intros [[HT|Ht]|Hl]; [by left|right|right].
  - by exists [], t, l, s.
  - by eapply taken_late_cons.
Qed.

Lemma rstart_inv : sum d0 = 0 -> rinv (rstart n d0).
Proof.
  intros H0. constructor; cbn; [done|apply length_replicate|by intros t p [-> _]%lookup_replicate|].
  intros _. split; [|split; [|done]].
  - rewrite H0, (total_replicate _ _ _ _ 0) by done. lia.
  - intros t p [-> _]%lookup_replicate. constructor; try done.
Qed.

(** A thread only blocks on a mutex that another thread holds. *)
Lemma blocked_only t p d m : dotprod_dbg t p d m = None ->
  p = RExited \/ p = RFault \/ exists t', owner m = Some t' /\ t' <> t.
Proof.
  destruct p; cbn; try naive_solver;
    try (intros E; apply bind_None in E as [E|([] & _ & ?)]; [|done]; destruct m; cbn in E; try case_decide; naive_solver).
  - intros E. repeat case_match; simplify_eq.
  - intros E. by case_match.
Qed.

Lemma rstuck_exited s : rinv s -> rstuck s -> rpcs s = replicate n RExited.
Proof.
  intros [Hd Hn Hp Hg] Hst.
  assert (Hstep : forall t p, rpcs s !! t = Some p -> dotprod_dbg t p (gDotstr s) (mtx s) = None).
  { intros t p Ep. specialize (Hst t). unfold rexec in Hst. rewrite Ep in Hst. cbn in Hst.
    by destruct (dotprod_dbg _ _ _ _) as [[[[]]]|]. }
  assert (Hfree : owner (mtx s) = None).
  { destruct (owner (mtx s)) as [t|] eqn:E; [|done]. destruct (Hg ltac:(by intros Hm; rewrite Hm in E)) as (_ & Hgd & Ho).
    specialize (Ho t eq_refl). rewrite <- Hn in Ho. apply lookup_lt_is_Some in Ho as [p Ep].
    pose proof (gd_holds _ _ _ _ (Hgd t p Ep)) as Hh. rewrite E, bool_decide_eq_true_2 in Hh by done.
    destruct (blocked_only _ _ _ _ (Hstep t p Ep)) as [->|[->|(t' & E' & Hne)]]; [done..|]. congruence. }
  symmetry. apply replicate_as_Forall_2; [done|]. apply Forall_lookup_2. intros t p Ep.
  destruct (blocked_only _ _ _ _ (Hstep t p Ep)) as [->|[->|(t' & E' & _)]]; [done|by apply Hp in Ep|congruence].
Qed.

Lemma total_radded t k : total radded t (replicate k RExited) = dot d0 (Z.of_nat t * Z.of_nat len) (k * len).
Proof. rewrite <- (total_parts d0 n len Ha Hb). revert t. induction k as [|k IH]; intros t; [done|]. cbn. by rewrite IH. Qed.

End Inv.

(** ** The property *)

(** C17: the error-checking robust mutex.  Under every schedule of any number of
    threads, one of which locks the mutex twice and one of which dies with it: no
    thread reads outside the vectors, the run has at most eleven steps per thread,
    nobody is ever blocked for good (when no thread can step all have exited), and
    the sum is then the dot product of the vectors, whatever owner died, unless the
    mutex was lost; and it is only ever lost when a thread has taken it over from a
    dead owner with the second lock, whose result [dotprod] does not look at: the
    first lock makes it consistent again. *)
Theorem robust_mutex n len x y l s :
  length x = (n * len)%nat -> length y = (n * len)%nat ->
  rschedule l (rstart n (Dotdata x y 0 (Z.of_nat len))) = Some s ->
  (RFault ∉ rpcs s) /\ zlen l <= Z.of_nat n * 11 /\
  (mtx s = NotRec -> taken_late l (rstart n (Dotdata x y 0 (Z.of_nat len)))) /\
  (rstuck s -> rpcs s = replicate n RExited /\
     (mtx s <> NotRec -> sum (gDotstr s) = dot (Dotdata x y 0 (Z.of_nat len)) 0 (n * len))).
Proof.
  intros Hx Hy E. set (d0 := Dotdata x y 0 (Z.of_nat len)) in *.
  destruct (rschedule_inv d0 n len eq_refl Hx Hy l _ _ (rstart_inv d0 n len Hx Hy eq_refl) E) as [Hs Hl].
  cbn [rpcs rstart] in Hl. rewrite (total_replicate _ _ _ _ 11) in Hl by done. split_and!.
  - intros [t Ht]%list_elem_of_lookup. by apply (ri_pc _ _ _ _ Hs) in Ht.
  - assert (0 <= total (fun _ => rleft) 0 (rpcs s)) as Hpos; [|lia].
    apply total_nonneg, Forall_true. intros [] _; cbn; lia.
  - intros Hm. pose proof (rstart_inv d0 n len Hx Hy eq_refl) as H0.
    destruct (rschedule_loss d0 n len eq_refl Hx Hy l False _ _ H0 ltac:(by constructor) E) as [_ H].
    by destruct (H Hm).
  - intros Hst. pose proof (rstuck_exited d0 n len s Hs Hst) as Hex. split; [done|]. intros Hm.
    destruct (ri_good _ _ _ _ Hs Hm) as [Hsum _]. rewrite Hsum, Hex, (total_radded d0 n len Hx Hy). done.
Qed.

(** The data of the program. *)
Definition dbg_data (v : Z) : DOTDATA := Dotdata ones ones v 100.

(** Thread 2 runs first and dies with the mutex; thread 0, which has one step more
    than the others, finds it with its first lock and makes it consistent. *)
Definition recovered_run : list nat := replicate 9 2%nat ++ replicate 11 0%nat ++ replicate 9 1%nat ++ replicate 9 3%nat.

Lemma robust_mutex_witness :
  exists s, rschedule recovered_run (rstart 4 (dbg_data 0)) = Some s /\
    rpcs s = replicate 4 RExited /\ mtx s = Free /\ ("mutex now consistent!" ∈ log s) /\
    sum (gDotstr s) = dot (dbg_data 0) 0 (4 * 100) /\ sum (gDotstr s) = 400.
Proof.
  destruct (rschedule recovered_run (rstart 4 (dbg_data 0))) as [s|] eqn:E; [|by vm_compute in E].
  exists s. split; [done|].
  destruct (robust_mutex 4 100 ones ones recovered_run s eq_refl eq_refl E) as (_ & _ & _ & H).
  assert (Hs : rpcs s = replicate 4 RExited /\ mtx s = Free /\ ("mutex now consistent!" ∈ log s) /\
               sum (gDotstr s) = 400)
    by (vm_compute in E; injection E as <-; split_and!; [done|done|apply (bool_decide_unpack _); by vm_compute|done]).
  destruct Hs as (Hp & Hm & Hl & Hsum).
  assert (Hst : rstuck s).
  { intros t. unfold rexec. rewrite Hp. destruct (replicate 4 RExited !! t) as [p|] eqn:Ep; [|done].
    by apply lookup_replicate in Ep as [-> _]. }
  destruct (H Hst) as [H1 H2]. split_and!; [done|done|done|apply H2; by rewrite Hm|done].
Defined.

(** The second lock of [dotprod] ignores its result: after the owner has died there
    a thread unlocks a mutex that was not made consistent, the mutex is lost, and
    the last two updates run without it; one of them can be overwritten. *)
Lemma robust_mutex_lost :
  exists l s, rschedule l (rstart 4 (dbg_data 0)) = Some s /\ rstuck s /\ mtx s = NotRec /\ sum (gDotstr s) = 300.
Proof.
  exists (replicate 6 0%nat ++ replicate 5 1%nat ++ replicate 5 3%nat ++ replicate 9 2%nat ++
          [0; 0; 0; 0]%nat ++ [1; 3; 1; 3; 1; 3; 1; 3]%nat).
  eexists. split; [vm_compute; reflexivity|]. split; [|done].
  intros t. unfold rexec. cbn [rpcs]. do 4 (destruct t as [|t]; [done|]). done.
Qed.

(** The program itself leaves defined behaviour before it creates a thread. *)
Lemma dbg_main_undefined {K} `{Kernel K} name (w : world K) :
  exists u w', dbg_main name w = (Halt (HUB u), w') /\ (u = UB_null "a[i]" \/ u = UB_uninit "mutexattr" 0).
Proof.
  enough (wp (dbg_main name) (fun o _ => exists u, o = Halt (HUB u) /\ (u = UB_null "a[i]" \/ u = UB_uninit "mutexattr" 0)) w)
    as (o & w' & E & u & -> & Hu)%wp_run by eauto.
  unfold dbg_main. wp_go; eauto.
Qed.
