(* ===== verification/ErrFns.v ===== *)
(** src/pthreads/tlpi_TLS_TSD/error_functions.c (and its copy in
    src/pthreads/tlpi_code_cancel_cleanup): the functions the thread programs report
    errors with.  The error names come from a generated table and the error texts
    from the C library; both are parameters.  A format and its arguments stand for
    the text they give.  The calls of the C library that write are calls like others
    here: they can fail, and then they change errno. *)
From S2P Require Import Prelude CMonad CLib.

Definition BUF_SIZE : Z := 500.

Section Code.
Context {K : Type} {HK : Kernel K}.
(** ename.c.inc and strerror. *)
Context (MAX_ENAME : Z) (ename strerror : Z -> string).

Definition terminate {A} (useExit3 : bool) : C K A :=
  s ← syscall (Csys "getenv" [AS "EF_DUMPCORE"]);
  if negb (ret s =? 0) && negb (hd 0 (out s) =? 0) then halt_with HAbort
  else if useExit3 then exit 1
  else halt_with (H_exit 1).

(** The text [outputError] builds in its three buffers. *)
Definition error_text (useErr : bool) (err : Z) (msg : string) : string :=
  let userMsg := snprintf BUF_SIZE msg in
  let errText :=
    if useErr
    then snprintf BUF_SIZE (cat [" ["; if (0 <? err) && (err <=? MAX_ENAME) then ename err else "?UNKNOWN?"; " ";
                                 strerror err; "]"])
    else snprintf BUF_SIZE ":" in
  snprintf BUF_SIZE (cat ["ERROR"; errText; " "; userMsg; nl]).

(** The calls that write or look up; strerror answers -1 when it sets errno, for a
    number it does not know. *)
Definition c_strerror (err : Z) : call := Csys "strerror" [AI err].
Definition c_fflush (f : string) : call := Csys "fflush" [AS f].
Definition c_fputs (txt f : string) : call := Csys "fputs" [AS txt; AS f].
Definition c_fprintf (f txt : string) : call := Csys "fprintf" [AS f; AS txt].

Definition run (c : call) : C K unit := syscall c;; mret tt.

Definition outputError (useErr : bool) (err : Z) (flushStdout : bool) (msg : string) : C K unit :=
  when useErr (run (c_strerror err));;
  let buf := error_text useErr err msg in
  when flushStdout (run (c_fflush "stdout"));;
  run (c_fputs buf "stderr");;
  run (c_fflush "stderr").

Definition errMsg (msg : string) : C K unit :=
  savedErrno ← get_errno;
  e ← get_errno;
  outputError true e true msg;;
  set_errno savedErrno.

Definition errExit {A} (msg : string) : C K A :=
  e ← get_errno;
  outputError true e true msg;;
  terminate true.

Definition err_exit {A} (msg : string) : C K A :=
  e ← get_errno;
  outputError true e false msg;;
  terminate false.

Definition errExitEN {A} (errnum : Z) (msg : string) : C K A :=
  outputError true errnum true msg;;
  terminate true.

Definition fatal {A} (msg : string) : C K A :=
  outputError false 0 true msg;;
  terminate true.

Definition usageErr {A} (msg : string) : C K A :=
  run (c_fflush "stdout");;
  run (c_fprintf "stderr" "Usage: ");;
  run (c_fprintf "stderr" msg);;
  run (c_fflush "stderr");;
  exit 1.

Definition cmdLineErr {A} (msg : string) : C K A :=
  run (c_fflush "stdout");;
  run (c_fprintf "stderr" "Command-line usage error: ");;
  run (c_fprintf "stderr" msg);;
  run (c_fflush "stderr");;
  exit 1.

End Code.

(** ** The text *)

(** The text without the limits of the buffers. *)
Definition full_text (MAX_ENAME : Z) (ename strerror : Z -> string) (useErr : bool) (err : Z) (msg : string) : string :=
  cat ["ERROR"; if useErr then cat [" ["; if (0 <? err) && (err <=? MAX_ENAME) then ename err else "?UNKNOWN?"; " ";
                                    strerror err; "]"] else ":"; " "; msg; nl].

Lemma strlen_cat_cons s l : strlen (cat (s :: l)) = strlen s + strlen (cat l).
Proof. apply strlen_app. Qed.

Lemma strlen_snprintf n s : 0 < n -> strlen (snprintf n s) < n.
Proof. intros. unfold snprintf. pose proof (strlen_substring (Z.to_nat (n - 1)) s). lia. Qed.

(** Nothing is cut while the whole fits the last buffer. *)
Lemma error_text_full nmax ename strerror useErr err msg :
  strlen (full_text nmax ename strerror useErr err msg) < BUF_SIZE ->
  error_text nmax ename strerror useErr err msg = full_text nmax ename strerror useErr err msg.
Proof.
  unfold error_text, full_text. set (et := cat [" ["; _; _; _; _]). intros Hl.
  rewrite !strlen_cat_cons in Hl. pose proof (strlen_nonneg msg). pose proof (strlen_nonneg et).
  change (strlen "ERROR") with 5 in Hl. change (strlen " ") with 1 in Hl. change (strlen nl) with 1 in Hl.
  change (strlen (cat [])) with 0 in Hl. unfold BUF_SIZE in *.
  rewrite (snprintf_all 500 msg) by (destruct useErr; change (strlen ":") with 1 in *; lia). destruct useErr.
  - rewrite (snprintf_all 500 et) by lia. apply snprintf_all. rewrite !strlen_cat_cons.
    change (strlen "ERROR") with 5. change (strlen " ") with 1. change (strlen nl) with 1. change (strlen (cat [])) with 0. lia.
  - apply snprintf_all. change (snprintf 500 ":") with ":". rewrite !strlen_cat_cons.
    change (strlen "ERROR") with 5. change (strlen " ") with 1. change (strlen nl) with 1.
    change (strlen ":") with 1. change (strlen (cat [])) with 0. change (strlen ":") with 1 in Hl. lia.
Qed.

(** ** What the functions do *)

(** The run made exactly the calls [cs], in order, with some answers. *)
Definition made (cs : list call) (tr : list event) : Prop :=
  exists rs, length rs = length cs /\ tr = zip_with EvCall cs rs.

(** The calls of a report of [txt] about the error [err], if any. *)
Definition report_calls (err : option Z) (flush : bool) (txt : string) : list call :=
  match err with Some e => [c_strerror e] | None => [] end ++
  (if flush then [c_fflush "stdout"] else []) ++ [c_fputs txt "stderr"; c_fflush "stderr"].

(** The core dump that EF_DUMPCORE asks for. *)
Definition dumps_core (r : resp) : bool := negb (ret r =? 0) && negb (hd 0 (out r) =? 0).

(** A function that reports with the calls [cs] and ends the process: with [how], or
    with a core dump if the environment asks for one. *)
Definition reports {K} `{Kernel K} (m : C K unit) (w : world K) (cs : list call) (how : halt) : Prop :=
  exists r w' tr, m w = (Halt (if dumps_core r then HAbort else how), w') /\
    trace w' = trace w ++ tr ++ [EvCall (Csys "getenv" [AS "EF_DUMPCORE"]) r] /\ made cs tr.

Lemma made_nil : made [] [].
Proof. by exists []. Qed.

Lemma made_snoc cs tr c r : made cs tr -> made (cs ++ [c]) (tr ++ [EvCall c r]).
Proof.
  intros (rs & Hl & ->). exists (rs ++ [r]). rewrite !length_app, Hl. split; [done|].
  by rewrite zip_with_app.
Qed.

Section Theorems.
Context {K : Type} {HK : Kernel K} (nmax : Z) (ename strerror : Z -> string).

(** A sequence of calls, of which nothing is looked at. *)
Lemma wp_run_call c (w0 : world K) cs tr (Q : outcome unit -> world K -> Prop) w :
  trace w = trace w0 ++ tr -> made cs tr ->
  (forall w' tr', trace w' = trace w0 ++ tr' -> made (cs ++ [c]) tr' -> Q (Done tt) w') ->
  wp (run c) Q w.
Proof.
  intros Ht Hm HQ. unfold run. wp_step. apply wp_syscall. intros r k _. cbn [post]. wp_step.
  eapply HQ; [|by apply made_snoc]. cbn [after trace]. by rewrite Ht, <- app_assoc.
Qed.

Lemma wp_outputError (useErr : bool) e b msg (Q : outcome unit -> world K -> Prop) w :
  (forall w' tr, trace w' = trace w ++ tr ->
     made (report_calls (if useErr then Some e else None) b (error_text nmax ename strerror useErr e msg)) tr ->
     Q (Done tt) w') ->
  wp (outputError nmax ename strerror useErr e b msg) Q w.
Proof.
  intros HQ. unfold outputError. generalize dependent (error_text nmax ename strerror useErr e msg). intros txt HQ.
  assert (Hend : forall w1 cs tr, trace w1 = trace w ++ tr -> made cs tr ->
    cs ++ [c_fputs txt "stderr"; c_fflush "stderr"]
      = report_calls (if useErr then Some e else None) b txt ->
    wp (run (c_fputs txt "stderr");; run (c_fflush "stderr")) Q w1).
  { intros w1 cs tr Ht Hm E. wp_step. eapply wp_run_call; [exact Ht|exact Hm|].
    intros w2 tr2 Ht2 Hm2. cbn [post]. eapply wp_run_call; [exact Ht2|exact Hm2|].
    intros w3 tr3 Ht3 Hm3. rewrite <- app_assoc in Hm3. cbn [app] in Hm3. rewrite E in Hm3. eauto. }
  assert (Hmid : forall w1 cs tr, trace w1 = trace w ++ tr -> made cs tr ->
    cs = match (if useErr then Some e else None) with Some e => [c_strerror e] | None => [] end ->
    wp (when b (run (c_fflush "stdout"));; run (c_fputs txt "stderr");; run (c_fflush "stderr")) Q w1).
  { intros w1 cs tr Ht Hm E. wp_step. unfold when. destruct b.
    - eapply wp_run_call; [exact Ht|exact Hm|]. intros w2 tr2 Ht2 Hm2. cbn [post].
      eapply Hend; [exact Ht2|exact Hm2|]. rewrite E. unfold report_calls. by rewrite <- app_assoc.
    - wp_step. eapply Hend; [exact Ht|exact Hm|]. by rewrite E. }
  wp_step. unfold when at 1. destruct useErr.
  - eapply (wp_run_call _ w [] []); [by rewrite app_nil_r|apply made_nil|]. intros w2 tr2 Ht2 Hm2. cbn [post].
    eapply Hmid; [exact Ht2|exact Hm2|done].
  - wp_step. eapply (Hmid w [] []); [by rewrite app_nil_r|apply made_nil|done].
Qed.

Lemma reports_terminate (useErr : bool) e b (c : bool) msg (w : world K) :
  reports (outputError nmax ename strerror useErr e b msg;; terminate c) w
    (report_calls (if useErr then Some e else None) b (error_text nmax ename strerror useErr e msg))
    (if c then HExit 1 else H_exit 1).
Proof.
  enough (wp (outputError nmax ename strerror useErr e b msg;; terminate (A := unit) c) (fun o w' => exists r tr,
    o = Halt (if dumps_core r then HAbort else if c then HExit 1 else H_exit 1) /\
    trace w' = trace w ++ tr ++ [EvCall (Csys "getenv" [AS "EF_DUMPCORE"]) r] /\
    made (report_calls (if useErr then Some e else None) b (error_text nmax ename strerror useErr e msg)) tr) w)
    as (o & w' & E & r & tr & -> & Ht & Hm)%wp_run by (by exists r, w', tr).
  wp_step. apply wp_outputError. intros w1 tr Ht Hm. cbn [post]. unfold terminate. wp_step.
  apply wp_syscall. intros r k _. cbn [post]. fold (dumps_core r).
  destruct (dumps_core r) eqn:Ed, c; wp_go; (exists r, tr; rewrite Ed; split; [done|]; split; [|done]);
    cbn [after trace]; by rewrite Ht, <- app_assoc.
Qed.

Lemma bind_get_errno {A} (f : Z -> C K A) w : (e ← get_errno; f e) w = f (errno w) w.
Proof. done. Qed.

(** errMsg returns, with the errno it was called with. *)
Lemma errMsg_keeps msg (w : world K) :
  exists w' tr, errMsg nmax ename strerror msg w = (Done tt, w') /\ errno w' = errno w /\
    trace w' = trace w ++ tr /\
    made (report_calls (Some (errno w)) true (error_text nmax ename strerror true (errno w) msg)) tr.
Proof.
  enough (wp (errMsg nmax ename strerror msg) (fun o w' => exists tr, o = Done tt /\ errno w' = errno w /\
    trace w' = trace w ++ tr /\
    made (report_calls (Some (errno w)) true (error_text nmax ename strerror true (errno w) msg)) tr) w)
    as (o & w' & E & tr & -> & H)%wp_run by (by exists w', tr).
  unfold errMsg. do 3 wp_step. wp_step. wp_step. apply wp_outputError. intros w1 tr Ht Hm. cbn [post]. wp_step.
  exists tr. by split_and!.
Qed.

(** C29: the error functions, on any kernel, whichever of the calls that write fail
    and change errno.  errMsg reports the errno it was called with, returns, and
    leaves that errno behind; errExit, errExitEN and fatal flush stdout, write their
    message and exit, err_exit writes it without flushing stdout and ends with
    _exit, all four with a core dump instead when EF_DUMPCORE is set and not empty;
    each makes these calls and no others.  The message names the error, is always
    shorter than the buffer, and is complete when the whole of it is. *)
Theorem error_functions_report msg errnum (w : world K) :
  (exists w' tr, errMsg nmax ename strerror msg w = (Done tt, w') /\ errno w' = errno w /\
     trace w' = trace w ++ tr /\
     made (report_calls (Some (errno w)) true (error_text nmax ename strerror true (errno w) msg)) tr) /\
  reports (errExit nmax ename strerror msg) w
    (report_calls (Some (errno w)) true (error_text nmax ename strerror true (errno w) msg)) (HExit 1) /\
  reports (err_exit nmax ename strerror msg) w
    (report_calls (Some (errno w)) false (error_text nmax ename strerror true (errno w) msg)) (H_exit 1) /\
  reports (errExitEN nmax ename strerror errnum msg) w
    (report_calls (Some errnum) true (error_text nmax ename strerror true errnum msg)) (HExit 1) /\
  reports (fatal nmax ename strerror msg) w
    (report_calls None true (error_text nmax ename strerror false 0 msg)) (HExit 1) /\
  (forall useErr e, strlen (error_text nmax ename strerror useErr e msg) < BUF_SIZE /\
     (strlen (full_text nmax ename strerror useErr e msg) < BUF_SIZE ->
      error_text nmax ename strerror useErr e msg = full_text nmax ename strerror useErr e msg)).
Proof.
  split; [|split; [|split; [|split; [|split]]]].
  - apply errMsg_keeps.
  - unfold reports, errExit. rewrite bind_get_errno. exact (reports_terminate true (errno w) true true msg w).
  - unfold reports, err_exit. rewrite bind_get_errno. exact (reports_terminate true (errno w) false false msg w).
  - exact (reports_terminate true errnum true true msg w).
  - exact (reports_terminate false 0 true true msg w).
  - intros useErr e. split; [by apply strlen_snprintf|apply error_text_full].
Qed.

(** The two functions for usage errors write the whole message and exit. *)
Lemma usage_functions_report msg (w : world K) :
  let shown what := [c_fflush "stdout"; c_fprintf "stderr" what; c_fprintf "stderr" msg; c_fflush "stderr"] in
  (exists w' tr, usageErr (A := unit) msg w = (Halt (HExit 1), w') /\ trace w' = trace w ++ tr /\
     made (shown "Usage: ") tr) /\
  (exists w' tr, cmdLineErr (A := unit) msg w = (Halt (HExit 1), w') /\ trace w' = trace w ++ tr /\
     made (shown "Command-line usage error: ") tr).
Proof.
  cbv zeta.
  assert (H : forall what, wp (run (c_fflush "stdout");; run (c_fprintf "stderr" what);;
      run (c_fprintf "stderr" msg);; run (c_fflush "stderr");; (exit 1 : C K unit))
    (fun o w' => exists tr, o = Halt (HExit 1) /\ trace w' = trace w ++ tr /\
       made [c_fflush "stdout"; c_fprintf "stderr" what; c_fprintf "stderr" msg; c_fflush "stderr"] tr) w).
  { intros what. wp_step. eapply (wp_run_call _ w [] []); [by rewrite app_nil_r|apply made_nil|].
    intros w1 tr1 Ht1 Hm1. cbn [post]. wp_step. eapply wp_run_call; [exact Ht1|exact Hm1|].
    intros w2 tr2 Ht2 Hm2. cbn [post]. wp_step. eapply wp_run_call; [exact Ht2|exact Hm2|].
    intros w3 tr3 Ht3 Hm3. cbn [post]. wp_step. eapply wp_run_call; [exact Ht3|exact Hm3|].
    intros w4 tr4 Ht4 Hm4. cbn [post]. wp_step. exists tr4. by split_and!. }
  split.
  - destruct (wp_run _ _ _ (H "Usage: ")) as (o & w' & E & tr & -> & H'). by exists w', tr.
  - destruct (wp_run _ _ _ (H "Command-line usage error: ")) as (o & w' & E & tr & -> & H'). by exists w', tr.
Qed.

End Theorems.

(** The save and restore of errMsg matters: on a kernel whose stdout cannot be flushed
    the report leaves another errno behind. *)
Lemma outputError_changes_errno :
  errno (snd (outputError 0 (fun _ => EmptyString) (fun _ => EmptyString) true EINTR true "msg"
    (World [Resp 0 0 []; Resp (-1) EIO []; Resp 0 0 []; Resp 0 0 []] EINTR []))) = EIO.
Proof. by vm_compute. Qed.

(** A message that does not fit loses its newline. *)
Lemma error_text_cut : exists msg, strlen msg = 499 /\
  error_text 0 (fun _ => "") (fun _ => "") false 0 msg = snprintf BUF_SIZE (cat ["ERROR: "; msg]).
Proof. exists (rep 499 97). split; vm_compute; reflexivity. Qed.
