(* ===== verification/HxDump.v ===== *)
(** src/gdb/hxdump_buggy/hxdump_buggy.c: a debugging exercise that dumps the first
    bytes of the files named in a data file.  It is run on the file system of
    FileSys, extended with the stream of the data file.  The program is meant to
    fail: fgets leaves the newline in the path. *)
From S2P Require Import Prelude CMonad CLib Common Restart FileSys.

Definition MAXCOL : Z := 20.
Definition PATH_MAX : Z := 4096.

Section Code.
Context {K : Type} {HK : Kernel K}.

(** [while ((n = read(fd, buf, len)))]: every read goes to the start of [buf]. *)
Fixpoint read_loop (fuel : nat) (fd len : Z) (buf : mem) (fail : C K unit) : C K mem :=
  match fuel with
  | O => halt_with HFuel
  | S fuel' =>
      r ← syscall (Cread fd len);
      if ret r =? 0 then mret buf
      else if ret r =? -1 then perror "open";; syscall (Cclose fd);; fail;; exit 1
      else
        buf ← copy_in "buf" buf 0 (out r);
        if len <=? ret r then mret buf else read_loop fuel' fd len buf fail
  end.

(** [for (j = 0; j < len; j++)]: [n] bytes from [j] on. *)
Fixpoint print_hex (buf : mem) (j : Z) (n : nat) : C K unit :=
  match n with
  | O => mret tt
  | S n' =>
      b ← rd "buf" buf j;
      printf (cat [text_of (fmt_0wx 2 (to_uchar b)); " "]);;
      when (negb (j =? 0) && (j mod MAXCOL =? 0)) (printf nl);;
      print_hex buf (j + 1) n'
  end.

Definition rule : string := "-----------------------------------------------------------------------".

(** The body of the loop over the names, from the open descriptor on; [fail] frees
    the path and closes the data file. *)
Definition dump_opened (fuel : nat) (fd : Z) (path : string) (len : Z) (fail : C K unit) : C K unit :=
  b ← syscall (Cmalloc len);
  (if ret b =? 0 then perror "malloc";; syscall (Cclose fd);; fail;; exit 1 else mret tt);;
  printf (cat [rule; nl; "Reading "; path; "..."; nl; rule; nl]);;
  buf ← read_loop fuel fd len (uninit len) fail;
  syscall (Cclose fd);;
  print_hex buf 0 (Z.to_nat len);;
  printf nl;;
  syscall (Cfree (ret b));;
  mret tt.

Definition dump_one (fuel : nat) (path : string) (len : Z) (fail : C K unit) : C K unit :=
  f ← syscall (Copen path 0 0);
  (if ret f =? -1 then fail;; exit 1 else mret tt);;
  dump_opened fuel (ret f) path len fail.

(** The string that [path] holds after fgets stored [bs] there. *)
Fixpoint path_of (bs : list Z) : list Z :=
  match bs with
  | [] => []
  | b :: bs' => if b =? 0 then [] else b :: path_of bs'
  end.

(** [while (fgets(path, PATH_MAX, fp))] *)
Fixpoint names_loop (fuel : nat) (path fp len : Z) (fail : C K unit) : C K unit :=
  match fuel with
  | O => halt_with HFuel
  | S fuel' =>
      r ← syscall (Csys "fgets" [AI PATH_MAX; AI fp]);
      if ret r =? 0 then mret tt
      else dump_one fuel (text_of (path_of (out r))) len fail;; names_loop fuel' path fp len fail
  end.

Definition main (fuel : nat) (argv : list string) : C K unit :=
  (if negb (argc argv =? 3) then
     fprintf stderr (cat ["Usage: "; arg_n argv 0; " pathnames_datafile num"; nl; tab;
       "num: number of bytes to display from BOF in hexadecimal"; nl]);; exit 1
   else mret tt);;
  let len := atoi (arg_n argv 2) in
  (if len <=? 0 then
     fprintf stderr (cat [arg_n argv 0; ": Invalid number of bytes to read : "; fmt_d len; nl]);; exit 1
   else mret tt);;
  fp ← sys "fopen" [AS (arg_n argv 1); AS "r"];
  (if fp =? 0 then perror "fopen failed";; exit 1 else mret tt);;
  p ← syscall (Cmalloc PATH_MAX);
  (if ret p =? 0 then perror "malloc";; sys "fclose" [AI fp];; exit 1 else mret tt);;
  let fail := (syscall (Cfree (ret p));; sys "fclose" [AI fp];; mret tt) in
  names_loop fuel (ret p) fp len fail;;
  syscall (Cfree (ret p));;
  c ← sys "fclose" [AI fp];
  if negb (c =? 0) then perror "fclose failed";; exit 1 else exit 0.

End Code.

(** ** The files and the data file *)

(** The file system and the bytes the stream of the data file still holds. *)
Record disk := Disk { files : fs; unread : list Z }.

#[export] Instance disk_kernel : Kernel disk := fun c k =>
  match c with
  | Csys "fopen" _ => (Resp 1 0 [], k)
  | Csys "fgets" (AI n :: _) =>
      let '(l, r) := fgets_of (Z.to_nat (n - 1)) (unread k) in
      (Resp (if decide (l = []) then 0 else 1) 0 l, Disk (files k) r)
  | _ => let '(r, f) := fs_kernel c (files k) in (r, Disk f (unread k))
  end.

(** ** What is printed *)

Definition printed (tr : list event) : list event :=
  omap (fun e => match e with EvOut _ _ => Some e | _ => None end) tr.

(** The bytes from position [j] on, twenty or twenty-one to a line. *)
Fixpoint hex_events (j : Z) (d : list Z) : list event :=
  match d with
  | [] => []
  | b :: d' => EvOut stdout (cat [text_of (hex2 b); " "]) ::
               (if negb (j =? 0) && (j mod MAXCOL =? 0) then [EvOut stdout nl] else []) ++ hex_events (j + 1) d'
  end.

Definition header (path : string) : event :=
  EvOut stdout (cat [rule; nl; "Reading "; path; "..."; nl; rule; nl]).

Definition dump_events (path : string) (d : list Z) : list event :=
  header path :: hex_events 0 d ++ [EvOut stdout nl].

(** What the program does with a list of names: it dumps the first [len] bytes of
    each file and ends; at the first name that names no file it ends with an error,
    and at the first file that has less than [len] bytes the dump goes on into bytes
    that were never read. *)
Fixpoint dump_all (f : fs) (len : Z) (names : list string) : outcome unit * list event :=
  match names with
  | [] => (Done tt, [])
  | n :: names' =>
      match contents f n with
      | None => (Halt (HExit 1), [])
      | Some c =>
          if len <=? zlen c then
            let '(o, evs) := dump_all f len names' in (o, dump_events n (ztake len c) ++ evs)
          else (Halt (HUB (UB_uninit "buf" (zlen c))), header n :: hex_events 0 c)
      end
  end.

(** The names in a data file: its lines, each with its newline. *)
Definition names_in (bs : list Z) : list string :=
  map (fun l => text_of (path_of l)) (fgets_lines (length bs) 4095 bs).

Lemma printed_app t1 t2 : printed (t1 ++ t2) = printed t1 ++ printed t2.
Proof. apply omap_app. Qed.

Lemma printed_hex d : forall j, printed (hex_events j d) = hex_events j d.
Proof.
  induction d as [|b d IH]; intros j; [done|]. cbn [hex_events]. rewrite app_comm_cons, printed_app, IH. f_equal.
  by destruct (_ && _).
Qed.

Lemma wp_print_hex {K} (d : list Z) : forall buf j m (Q : outcome unit -> world K -> Prop) w,
  0 <= j -> Forall byte_ok d -> (forall i b, d !! i = Some b -> znth buf (j + Z.of_nat i) = Some (Some b)) ->
  wp (print_hex buf (j + zlen d) m) Q (World (kern w) (errno w) (trace w ++ hex_events j d)) ->
  wp (print_hex buf j (length d + m)) Q w.
Proof.
  induction d as [|b d IH]; intros buf j m Q w Hj Hb Hd HQ.
  { cbn [hex_events] in HQ. rewrite (@zlen_nil Z), Z.add_0_r, app_nil_r in HQ. by destruct w. }
  apply Forall_cons in Hb as [Hb Hbs]. cbn [length Nat.add print_hex]. wp_step.
  eapply wp_rd; [rewrite <- (Z.add_0_r j); apply (Hd 0%nat); done|]. cbn [post]. wp_step. wp_step.
  assert (Hd' : forall i c, d !! i = Some c -> znth buf (j + 1 + Z.of_nat i) = Some (Some c)).
  { intros i c Hi. replace (j + 1 + Z.of_nat i) with (j + Z.of_nat (S i)) by lia. by apply Hd. }
  rewrite to_uchar_id by (unfold byte_ok in Hb; lia). rewrite fmt_0wx_2 by done.
  rewrite zlen_cons in HQ. cbn [hex_events] in HQ. unfold when.
  destruct (negb (j =? 0) && (j mod MAXCOL =? 0)).
  - wp_step. wp_step. apply IH; [lia|done|done|]. cbn [kern errno trace].
    replace (j + 1 + zlen d) with (j + (zlen d + 1)) by lia. rewrite <- !app_assoc. exact HQ.
  - wp_step. wp_step. apply IH; [lia|done|done|]. cbn [kern errno trace].
    replace (j + 1 + zlen d) with (j + (zlen d + 1)) by lia. rewrite <- !app_assoc. exact HQ.
Qed.

Lemma znth_init_lookup (d : list Z) rest i b :
  d !! i = Some b -> znth (init d ++ rest) (0 + Z.of_nat i) = Some (Some b).
Proof.
  intros Hi. unfold znth. destruct (Z.ltb_spec (0 + Z.of_nat i) 0); [lia|].
  replace (Z.to_nat (0 + Z.of_nat i)) with i by lia.
  apply lookup_app_l_Some. unfold init. by rewrite list_lookup_fmap, Hi.
Qed.

(** ** Dumping a file *)

Section Disk.
Implicit Types (k : disk) (w : world disk).

Lemma wp_disk c r k' (Q : outcome resp -> world disk -> Prop) w :
  disk_kernel c (kern w) = (r, k') -> Q (Done r) (after c r k' w) -> wp (syscall c) Q w.
Proof. intros E HQ. apply wp_syscall. intros r0 k0 E0. unfold kstep in E0. congruence. Qed.

(** Names and contents are the same, and the next descriptor is new. *)
Definition same_files k k' : Prop :=
  dir (files k') = dir (files k) /\ inodes (files k') = inodes (files k) /\ unread k' = unread k /\
  next (files k) <= next (files k').

(** The file of [path] is opened: a new descriptor at its start. *)
Lemma wp_open_file {A} path i c (f : Z -> C disk A) (fail : C disk unit) (Q : outcome A -> world disk -> Prop) w :
  dir (files (kern w)) !! path = Some i -> inodes (files (kern w)) !! i = Some c -> 0 <= next (files (kern w)) ->
  (forall fd w', same_files (kern w) (kern w') -> file_of (files (kern w')) fd = Some (i, 0, c) ->
     printed (trace w') = printed (trace w) -> wp (f fd) Q w') ->
  wp (r ← syscall (Copen path 0 0); (if ret r =? -1 then fail;; exit 1 else mret tt);; f (ret r)) Q w.
Proof.
  intros Hd Hi Hn HQ. wp_step. eapply wp_disk.
  { unfold disk_kernel, fs_kernel, do_open. by rewrite Hd. }
  cbn [post ret]. destruct (Z.eqb_spec (next (files (kern w))) (-1)); [lia|]. wp_step. wp_step. apply HQ.
  - split_and!; cbn; [done..|lia].
  - unfold file_of. cbn. rewrite lookup_insert_eq. cbn. by rewrite Hi.
  - cbn [after trace]. unfold printed. rewrite omap_app. cbn. by rewrite app_nil_r.
Qed.

(** Calls that neither print nor touch names and contents. *)
Lemma wp_quiet c (Q : outcome resp -> world disk -> Prop) w :
  match c with Cclose _ | Cfree _ | Cmalloc _ => True | _ => False end ->
  (forall r w', (forall n, c = Cmalloc n -> ret r = 1 /\ kern w' = kern w) -> same_files (kern w) (kern w') ->
     printed (trace w') = printed (trace w) -> Q (Done r) w') ->
  wp (syscall c) Q w.
Proof.
  intros Hc HQ. apply wp_syscall. intros r k' E. unfold kstep in E. apply HQ.
  - intros n ->. cbn in E. injection E as <- <-. split; [done|]. cbn. by destruct (kern w).
  - destruct c; try done; cbn in E; try case_decide; injection E as <- <-; cbn; by split_and!.
  - cbn [after trace]. unfold printed. rewrite omap_app. cbn. by rewrite app_nil_r.
Qed.

Lemma same_files_trans k1 k2 k3 : same_files k1 k2 -> same_files k2 k3 -> same_files k1 k3.
Proof. intros (A1 & A2 & A3 & A4) (B1 & B2 & B3 & B4). split_and!; [congruence..|lia]. Qed.

(** The reads of a file that has [len] bytes, and of one that has not. *)
Lemma wp_read_file fuel fd len i c fail (Q : outcome mem -> world disk -> Prop) w :
  0 < len -> file_of (files (kern w)) fd = Some (i, 0, c) ->
  (forall w', same_files (kern w) (kern w') -> printed (trace w') = printed (trace w) ->
     Q (Done (init (ztake len c) ++ uninit (len - zlen c))) w') ->
  wp (read_loop (S (S fuel)) fd len (uninit len) fail) Q w.
Proof.
  intros Hl Hf HQ. cbn [read_loop]. wp_step. eapply wp_disk.
  { unfold disk_kernel, fs_kernel, do_read. by rewrite Hf. }
  cbn [post ret out]. rewrite zdrop_0. pose proof (zlen_nonneg c). set (d := ztake len c) in *.
  assert (Hd : zlen d = Z.min len (zlen c)) by (unfold d, ztake, zlen; rewrite length_take; lia).
  set (w1 := after _ _ _ w).
  assert (Hs1 : same_files (kern w) (kern w1)) by (by split_and!).
  assert (Hp1 : printed (trace w1) = printed (trace w)).
  { cbn [w1 after trace]. unfold printed. rewrite omap_app. cbn. by rewrite app_nil_r. }
  destruct (Z.eqb_spec (zlen d) 0) as [E0|E0].
  { wp_step. assert (c = []) as Ec by (apply zlen_0; lia). assert (d = []) as Ed by (by apply zlen_0).
    specialize (HQ w1 Hs1 Hp1). rewrite Ed, Ec, (@zlen_nil Z), Z.sub_0_r in HQ. exact HQ. }
  destruct (Z.eqb_spec (zlen d) (-1)); [lia|]. wp_step.
  apply wp_copy_in; [lia|rewrite zlen_uninit by lia; lia|]. cbn [post].
  assert (Hb : blit (uninit len) 0 d = init d ++ uninit (len - zlen c)).
  { unfold blit. change (ztake 0 _) with (@nil (option Z)). cbn [app]. f_equal. unfold zdrop, uninit.
    rewrite drop_replicate. f_equal. lia. }
  rewrite Hb. destruct (Z.leb_spec len (zlen d)); [wp_step; by apply HQ|].
  cbn [read_loop]. wp_step. eapply wp_disk.
  { unfold disk_kernel, fs_kernel, do_read. cbn [w1 after kern files]. unfold file_of. cbn [set_fd fds inodes].
    rewrite lookup_insert_eq. cbn. unfold file_of in Hf. apply bind_Some in Hf as ([i0 pos] & Hi & Hf).
    apply bind_Some in Hf as (c0 & Hc & [= -> -> ->]). by rewrite Hc. }
  cbn [post ret]. rewrite zdrop_all by lia. unfold ztake. rewrite take_nil, (@zlen_nil Z).
  change (0 =? 0) with true. wp_step. wp_step. apply HQ.
  - by split_and!.
  - cbn [after trace]. unfold printed in *. rewrite omap_app. cbn. by rewrite app_nil_r.
Qed.

(** The body of the loop on a file that exists: it is dumped if it has [len] bytes;
    if not, the dump runs into bytes that were never read. *)
Lemma wp_dump_one fuel path len i c fail (Q : outcome unit -> world disk -> Prop) w :
  0 < len -> Forall byte_ok c -> 0 <= next (files (kern w)) ->
  dir (files (kern w)) !! path = Some i -> inodes (files (kern w)) !! i = Some c ->
  (len <= zlen c -> forall w', same_files (kern w) (kern w') ->
     printed (trace w') = printed (trace w) ++ dump_events path (ztake len c) -> Q (Done tt) w') ->
  (zlen c < len -> forall w', printed (trace w') = printed (trace w) ++ header path :: hex_events 0 c ->
     Q (Halt (HUB (UB_uninit "buf" (zlen c)))) w') ->
  wp (dump_one (S (S fuel)) path len fail) Q w.
Proof.
  intros Hl Hb Hn Hd Hi HQ HU. unfold dump_one.
  apply (wp_open_file path i c (fun fd => dump_opened (S (S fuel)) fd path len fail)); [done..|]. intros fd w1 S1 Hf P1.
  unfold dump_opened. wp_step. apply wp_quiet; [done|]. intros r2 w2 R2 S2 P2. cbn [post].
  destruct (R2 len eq_refl) as [-> K2]. change (1 =? 0) with false. wp_step. wp_step. wp_step. wp_step. wp_step.
  eapply wp_read_file; [done|cbn [kern]; rewrite K2; done|]. intros w3 S3 P3. cbn [post]. wp_step.
  apply wp_quiet; [done|]. intros r4 w4 _ S4 P4. cbn [post]. wp_step.
  assert (P : printed (trace w4) = printed (trace w) ++ [header path]).
  { rewrite P4, P3. cbn [trace]. by rewrite printed_app, P2, P1. }
  assert (Sw : same_files (kern w) (kern w4)) by (eauto using same_files_trans).
  pose proof (zlen_nonneg c). destruct (Z.le_gt_cases len (zlen c)) as [Hle|Hgt].
  - assert (Hz : zlen (ztake len c) = len) by (apply zlen_ztake; lia).
    replace (Z.to_nat len) with (length (ztake len c) + 0)%nat by (unfold zlen in Hz; lia).
    apply wp_print_hex; [lia|by apply Forall_take|intros j b; apply znth_init_lookup|]. cbn [print_hex].
    wp_step. wp_step. wp_step. wp_step. apply wp_quiet; [done|]. intros r5 w5 _ S5 P5. cbn [post]. wp_step.
    apply HQ; [done|by eapply same_files_trans|]. rewrite P5. cbn [trace]. rewrite !printed_app, printed_hex, P. unfold dump_events. cbn. by rewrite <- !app_assoc.
  - assert (Hz : ztake len c = c) by (apply ztake_all; lia). rewrite Hz.
    replace (Z.to_nat len) with (length c + S (Z.to_nat (len - zlen c - 1)))%nat by (unfold zlen in *; lia).
    apply wp_print_hex; [lia|done|intros j b; apply znth_init_lookup|]. cbn [print_hex]. wp_step.
    assert (Hu : znth (init c ++ uninit (len - zlen c)) (0 + zlen c) = Some None).
    { unfold znth, zlen. destruct (Z.ltb_spec (0 + Z.of_nat (length c)) 0); [lia|].
      rewrite lookup_app_r by (rewrite length_init; lia). rewrite length_init. unfold uninit.
      apply lookup_replicate_2. unfold zlen in *. lia. }
    unfold rd. rewrite Hu. wp_step. rewrite Z.add_0_l. apply HU; [done|]. cbn [trace].
    by rewrite printed_app, printed_hex, P, <- app_assoc.
Qed.

Lemma names_loop_S fuel path fp len (fail : C disk unit) :
  names_loop (S fuel) path fp len fail =
  (r ← syscall (Csys "fgets" [AI PATH_MAX; AI fp]);
   if ret r =? 0 then mret tt
   else dump_one (S fuel) (text_of (path_of (out r))) len fail;; names_loop fuel path fp len fail).
Proof. done. Qed.

(** A path that names no file: the cleanup, then the error exit. *)
Lemma wp_no_file fuel path len (fail : C disk unit) (Q : outcome unit -> world disk -> Prop) w :
  (forall i, dir (files (kern w)) !! path = Some i -> inodes (files (kern w)) !! i <> None) ->
  contents (files (kern w)) path = None ->
  (forall (Q' : outcome unit -> world disk -> Prop) w1,
     (forall w2, printed (trace w2) = printed (trace w1) -> Q' (Done tt) w2) -> wp fail Q' w1) ->
  (forall w', printed (trace w') = printed (trace w) -> Q (Halt (HExit 1)) w') ->
  wp (dump_one fuel path len fail) Q w.
Proof.
  intros Hdi Hc Hfail HQ. unfold dump_one. wp_step.
  assert (Hd : dir (files (kern w)) !! path = None).
  { unfold contents in Hc. destruct (dir (files (kern w)) !! path) as [i|] eqn:E; [|done].
    cbn in Hc. by destruct (Hdi i). }
  eapply wp_disk; [unfold disk_kernel, fs_kernel, do_open; rewrite Hd; done|].
  cbn [post ret]. change (-1 =? -1) with true. wp_step. wp_step. apply Hfail. intros w2 P2. cbn [post].
  wp_step. apply HQ. rewrite P2. cbn [after trace]. rewrite printed_app. cbn. by rewrite app_nil_r.
Qed.

(** Files that can be opened have contents, which are bytes. *)
Definition fs_ok (f : fs) : Prop :=
  0 <= next f /\ (forall path i, dir f !! path = Some i -> inodes f !! i <> None) /\
  map_Forall (fun _ c => Forall byte_ok c) (inodes f).

Lemma same_files_ok k k' : same_files k k' -> fs_ok (files k) -> fs_ok (files k').
Proof. intros (S1 & S2 & _ & S4) (H1 & H2 & H3). unfold fs_ok. rewrite S1, S2. split_and!; [lia|done|done]. Qed.

Lemma same_files_dump k k' len names :
  same_files k k' -> dump_all (files k') len names = dump_all (files k) len names.
Proof.
  intros (S1 & S2 & _). induction names as [|n names IH]; [done|]. cbn [dump_all].
  unfold contents. rewrite S1, S2, IH. done.
Qed.

(** The loop over the lines of the data file. *)
Lemma wp_names_loop len path fp fail :
  0 < len ->
  (forall (Q' : outcome unit -> world disk -> Prop) w1,
     (forall w2, printed (trace w2) = printed (trace w1) -> Q' (Done tt) w2) -> wp fail Q' w1) ->
  forall m bs fuel (Q : outcome unit -> world disk -> Prop) w,
  unread (kern w) = bs -> (length bs <= m)%nat -> (length bs + 1 < fuel)%nat -> fs_ok (files (kern w)) ->
  (forall w', printed (trace w') = printed (trace w) ++
       snd (dump_all (files (kern w)) len (map (fun l => text_of (path_of l)) (fgets_lines m 4095 bs))) ->
     Q (fst (dump_all (files (kern w)) len (map (fun l => text_of (path_of l)) (fgets_lines m 4095 bs)))) w') ->
  wp (names_loop fuel path fp len fail) Q w.
Proof.
  intros Hl Hfail. induction m as [|m IH]; intros bs fuel Q w Hb Hm Hf Hok HQ;
    (destruct fuel as [|[|fuel]]; [lia..|]); rewrite names_loop_S.
  { destruct bs; [|cbn in Hm; lia]. wp_step. eapply wp_disk; [unfold disk_kernel; rewrite Hb; done|].
    cbn [post ret]. rewrite decide_True by done. change (0 =? 0) with true. wp_step. wp_step.
    apply HQ. cbn [after trace]. by rewrite printed_app. }
  destruct bs as [|b bs].
  { wp_step. eapply wp_disk; [unfold disk_kernel; rewrite Hb; done|].
    cbn [post ret]. rewrite decide_True by done. change (0 =? 0) with true. wp_step. wp_step.
    apply HQ. cbn [after trace]. by rewrite printed_app. }
  change 4095%nat with (S 4094) in *. cbn [fgets_lines] in HQ.
  pose proof (fgets_of_progress 4094 b bs) as Hp. pose proof (fgets_of_shorter 4094 b bs) as Hs.
  destruct (fgets_of (S 4094) (b :: bs)) as [l r] eqn:El. cbn [fst snd] in Hp, Hs. cbn [map] in HQ.
  wp_step. eapply wp_disk.
  { unfold disk_kernel. change (Z.to_nat (PATH_MAX - 1)) with (S 4094). rewrite Hb, El. done. }
  cbn [post ret out]. rewrite decide_False by done. change (1 =? 0) with false. wp_step. wp_step.
  set (w1 := after _ _ _ w). set (n := text_of (path_of l)) in *. destruct Hok as (Hn & Hdi & Hby).
  assert (P1 : printed (trace w1) = printed (trace w)).
  { unfold w1. cbn [after trace]. rewrite printed_app. cbn. by rewrite app_nil_r. }
  cbn [dump_all] in HQ. destruct (contents (files (kern w)) n) as [c|] eqn:Ec.
  2: { apply wp_no_file; [apply Hdi|done|done|]. intros w' P'. cbn [post]. apply HQ. cbn [snd].
       by rewrite P', P1, app_nil_r. }
  pose proof Ec as Ec'. unfold contents in Ec'. apply bind_Some in Ec' as (i & Hd & Hi).
  apply (wp_dump_one _ _ _ i c); [done|by eapply Hby|done|done|done| |].
  - intros Hle w' Hsame P'. cbn [post]. destruct (Z.leb_spec len (zlen c)); [|lia].
    assert (Hsame' : same_files (Disk (files (kern w)) r) (kern w')) by done.
    apply (IH r); [by destruct Hsame as (_ & _ & -> & _)|cbn in *; lia|cbn in *; lia| |].
    { by apply (same_files_ok _ _ Hsame'). }
    rewrite (same_files_dump _ _ len _ Hsame'). cbn [files].
    destruct (dump_all (files (kern w)) len _) as [o evs]. cbn [fst snd] in *. intros w'' P''.
    apply HQ. by rewrite P'', P', P1, <- app_assoc.
  - intros Hgt w' P'. cbn [post]. destruct (Z.leb_spec len (zlen c)); [lia|]. apply HQ. cbn [snd]. by rewrite P', P1.
Qed.

End Disk.

(** ** The program *)

(** Calls on the stream and on memory do not touch the files. *)
Lemma wp_stream fn args (Q : outcome Z -> world disk -> Prop) w :
  fn = "fopen" \/ fn = "fclose" ->
  (forall w', kern w' = kern w -> printed (trace w') = printed (trace w) ->
     Q (Done (if decide (fn = "fopen") then 1 else 0)) w') ->
  wp (sys fn args) Q w.
Proof.
  intros Hfn HQ. unfold sys. wp_step. apply wp_syscall. intros r k E. cbn [post]. wp_step.
  unfold kstep in E. destruct Hfn as [-> | ->]; cbn in E; injection E as <- <-; cbn [ret].
  - apply (HQ (after _ _ _ w)); [done|]. cbn [after trace]. by rewrite printed_app, app_nil_r.
  - apply (HQ (after _ _ _ w)); [by destruct (kern w)|]. cbn [after trace]. by rewrite printed_app, app_nil_r.
Qed.

(** How the program ends: with success once the names are done. *)
Definition finished (o : outcome unit) : halt := match o with Done _ => HExit 0 | Halt h => h end.

(** The cleanup of the error exits. *)
Lemma wp_fail p fp (Q : outcome unit -> world disk -> Prop) w :
  (forall w', printed (trace w') = printed (trace w) -> Q (Done tt) w') ->
  wp (syscall (Cfree p);; sys "fclose" [AI fp];; mret tt) Q w.
Proof.
  intros HQ. wp_step. apply wp_quiet; [done|]. intros r4 w4 _ _ P4. cbn [post]. wp_step. apply wp_stream; [by right|].
  intros w5 _ P5. cbn [post]. wp_step. apply HQ. by rewrite P5, P4.
Qed.

Lemma hxdump_run len fuel argv k e :
  argc argv = 3 -> atoi (arg_n argv 2) = len -> 0 < len -> (length (unread k) + 1 < fuel)%nat ->
  fs_ok (files k) ->
  exists w', main fuel argv (World k e []) = (Halt (finished (fst (dump_all (files k) len (names_in (unread k))))), w') /\
    printed (trace w') = snd (dump_all (files k) len (names_in (unread k))).
Proof.
  intros Ha Hm Hl Hf Hok. set (da := dump_all (files k) len (names_in (unread k))).
  enough (wp (main fuel argv) (fun o w' => o = Halt (finished (fst da)) /\ printed (trace w') = snd da) (World k e []))
    as (o & w' & E & -> & Hw)%wp_run by eauto.
  unfold main. rewrite Ha, Hm. change (negb (3 =? 3)) with false. wp_step. wp_step. wp_step.
  destruct (Z.leb_spec len 0); [lia|]. wp_step. wp_step. apply wp_stream; [by left|]. intros w1 K1 P1. cbn [post].
  rewrite decide_True by done. change (1 =? 0) with false. wp_step. wp_step.
  wp_step. apply wp_quiet; [done|]. intros r2 w2 R2 S2 P2. cbn [post]. destruct (R2 _ eq_refl) as [E2 K2].
  rewrite E2. change (1 =? 0) with false. wp_step. wp_step. wp_step.
  assert (Hk : kern w2 = k) by (by rewrite K2, K1).
  apply (wp_names_loop len 1 1 _ Hl (wp_fail 1 1) (length (unread k)) (unread k)); [by rewrite Hk|done|done|by rewrite Hk|].
  rewrite Hk. fold (names_in (unread k)). fold da. rewrite P2, P1. change (printed (trace (World k e []))) with (@nil event).
  cbn [app]. intros w3 P3. destruct (fst da) as [[]|h]; cbn [post finished].
  2: { by split. }
  wp_step. apply wp_quiet; [done|]. intros r4 w4 _ _ P4. cbn [post]. wp_step. apply wp_stream; [by right|].
  intros w5 _ P5. cbn [post]. rewrite decide_False by done. change (negb (0 =? 0)) with false. wp_step. wp_step.
  split; [done|]. by rewrite P5, P4.
Qed.


(** Three data files: a name that ends the file without a newline; an ordinary file of
    lines; and names with a newline in them. *)
Definition some_files (bs : list Z) : disk :=
  Disk (FS {[ "a" := 1%nat; "b" +:+ nl := 2%nat ]} {[ 1%nat := [1; 2; 255]; 2%nat := [7; 8; 9] ]} ∅ ∅ 3) bs.

Lemma some_files_ok bs : fs_ok (files (some_files bs)).
Proof.
  split; [done|]. split.
  - intros path i H. change (({["a" := 1%nat; "b" +:+ nl := 2%nat]} : gmap string nat) !! path = Some i) in H.
    apply lookup_insert_Some in H as [[_ <-]|[_ H]]; [by vm_compute|].
    apply lookup_singleton_Some in H as [_ <-]. by vm_compute.
  - assert (Hb : forall c, forallb (fun b => (0 <=? b) && (b <? 256)) c = true -> Forall byte_ok c).
    { intros c Hc. apply Forall_forall. intros b Hb.
      rewrite forallb_forall in Hc. apply list_elem_of_In in Hb. specialize (Hc b Hb). unfold byte_ok. lia. }
    cbn [some_files files inodes]. apply map_Forall_insert_2; [by apply Hb|].
    apply map_Forall_singleton. by apply Hb.
Qed.


Lemma path_of_nonzero t : nonzero t -> path_of t = t.
Proof.
  intros H. induction H as [|b t Hb _ IH]; [done|]. cbn. rewrite IH. by destruct (Z.eqb_spec b 0).
Qed.

(** The ordinary data file: where no file has a newline at the end of its name, a
    file of lines makes the program end with an error at its first line, without a
    word. *)
Theorem hxdump_newline n more len fuel argv k e :
  argc argv = 3 -> atoi (arg_n argv 2) = len -> 0 < len -> (length (unread k) + 1 < fuel)%nat ->
  fs_ok (files k) -> (forall n, dir (files k) !! (n +:+ nl) = None) ->
  unread k = bytes_of n ++ 10 :: more -> nonzero (bytes_of n) -> (10 ∉ bytes_of n) -> strlen n < PATH_MAX - 1 ->
  exists w', main fuel argv (World k e []) = (Halt (HExit 1), w') /\ printed (trace w') = [].
Proof.
  intros Ha Hm Hl Hf Hok Hd Hu Hz Hnl Hlen.
  destruct (hxdump_run len fuel argv k e Ha Hm Hl Hf Hok) as (w' & E & P). exists w'.
  enough (Hda : dump_all (files k) len (names_in (unread k)) = (Halt (HExit 1), [])) by (by rewrite Hda in E, P).
  unfold names_in. rewrite Hu. rewrite length_app. cbn [length]. rewrite Nat.add_succ_r.
  assert (Hhd : exists b bs, bytes_of n ++ 10 :: more = b :: bs) by (destruct (bytes_of n); eauto).
  destruct Hhd as (b & bs & Hhd). cbn [fgets_lines]. rewrite Hhd, <- Hhd.
  rewrite fgets_of_line; [|done|pose proof (zlen_bytes_of n); unfold zlen, PATH_MAX in *; lia]. cbn [map dump_all].
  rewrite path_of_nonzero by (apply Forall_app; split; [done|by repeat constructor]).
  change [10] with (bytes_of nl). rewrite <- bytes_of_app, text_of_bytes_of.
  unfold contents. by rewrite Hd.
Qed.
