(* ===== verification/ShmPair.v ===== *)
(** src/ipc/SYS_V_ipc/shm: shm1_w.c puts the lines of its input one after the other
    into a System V shared memory segment, shm1_r.c prints them; hdr_shm.h has what
    they share.  The segment belongs to the kernel and outlives the writer, so the
    two programs are run one after the other on the same kernel. *)
From S2P Require Import Prelude CMonad CLib.

Definition PROJECT_ID : Z := 0.
Definition SHMSZ_OUR_MAX : Z := 100 * 1024 * 1024.
Definition LINELENGTH : Z := 132.
Definition NUM : nat := 10.
Definition PATH_MAX : Z := 4096.
Definition SHM_MODE : Z := 1920. (* IPC_CREAT | IPC_EXCL | 0600 *)

(** ** strtoul with base 0 *)

Definition digit_val (b : Z) : Z :=
  if isdigit b then b - 48
  else let l := tolower b in if (97 <=? l) && (l <=? 122) then l - 87 else 99.

Fixpoint base_val (base acc : Z) (bs : list Z) : Z :=
  match bs with
  | b :: bs' => if digit_val b <? base then base_val base (base * acc + digit_val b) bs' else acc
  | [] => acc
  end.

(** A prefix 0x or 0 gives the base; a negative number wraps; too large ones saturate. *)
Definition unsigned_val (bs : list Z) : Z :=
  match bs with
  | 48 :: 120 :: ((d :: _) as ds) | 48 :: 88 :: ((d :: _) as ds) =>
      if digit_val d <? 16 then base_val 16 0 ds else 0
  | 48 :: ds => base_val 8 0 ds
  | _ => base_val 10 0 bs
  end.

Definition strtoul0 (s : string) : Z :=
  let clamp neg z := if 2 ^ 64 - 1 <? z then 2 ^ 64 - 1 else wrapu 64 (if neg : bool then - z else z) in
  match skip_space (bytes_of s) with
  | 45 :: ds => clamp true (unsigned_val ds)
  | 43 :: ds => clamp false (unsigned_val ds)
  | ds => clamp false (unsigned_val ds)
  end.

(** ** The kernel: the segment and the standard input *)

Record shm := Shm { segment : option mem; input : list Z }.

(** shmget with IPC_EXCL fails when the segment exists, and without IPC_CREAT when
    it does not; a new segment is zeroed. *)
#[export] Instance shm_kernel : Kernel shm := fun c k =>
  match c with
  | Cmalloc _ => (Resp 1 0 [], k)
  | Csys "getenv" _ => (Resp 1 0 [47], k)
  | Csys "ftok" _ => (Resp 7 0 [], k)
  | Csys "shmget" [_; AI size; AI flags] =>
      match segment k with
      | Some _ => if flags =? SHM_MODE then (Resp (-1) EEXIST [], k) else (Resp 5 0 [], k)
      | None => if flags =? SHM_MODE
                then (Resp 5 0 [], Shm (Some (init (replicate (Z.to_nat size) 0))) (input k))
                else (Resp (-1) 2 [], k)
      end
  | Csys "shmat" _ => match segment k with Some _ => (Resp 4096 0 [], k) | None => (Resp (-1) EINVAL [], k) end
  | Csys "fgets" [AI n] =>
      let '(l, r) := fgets_of (Z.to_nat (n - 1)) (input k) in
      (Resp (if decide (l = []) then 0 else 1) 0 l, Shm (segment k) r)
  | Csys "pause" _ => (Resp (-1) EINTR [], k)
  | _ => (Resp 0 0 [], k)
  end.

(** What the programs do to the attached segment. *)
Definition the_segment : C shm mem :=
  fun w => match segment (kern w) with
           | Some m => (Done m, w)
           | None => (Halt (HUB (UB_null "shm_addr")), w)
           end.

Definition set_segment (m : mem) : C shm unit :=
  fun w => (Done tt, World (Shm (Some m) (input (kern w))) (errno w) (trace w)).

(** ** hdr_shm.h *)

Definition get_key : C shm Z :=
  pathmem ← syscall (Cmalloc PATH_MAX);
  (if ret pathmem =? 0 then fprintf stderr (cat ["get_key() failure: malloc failed"; nl]);; exit 1 else mret tt);;
  path ← syscall (Csys "getenv" [AS "PROJM_SHM_PATH"]);
  (if ret path =? 0 then
     fprintf stderr (cat ["Set environment variable PROJM_SHM_PATH to pathname of shm path file.."; nl]);;
     syscall (Cfree (ret pathmem));; exit 1
   else mret tt);;
  key ← sys "ftok" [AB (out path); AI PROJECT_ID];
  syscall (Cfree (ret pathmem));;
  mret key.

(** ** shm1_w.c *)

(** One turn of the loop; [shm_addr] is the offset of the next string. *)
Definition write_string (name : string) (n : nat) (shm_addr : Z) : C shm Z :=
  printf (cat [fmt_0wd 2 (Z.of_nat n); ": Enter a string : "]);;
  r ← syscall (Csys "fgets" [AI LINELENGTH]);
  (if ret r =? 0 then fprintf stderr (cat [name; ": !WARNING! fgets() failed."; nl])
   else m ← the_segment; m ← copy_in "shm_addr" m shm_addr (out r ++ [0]); set_segment m);;
  m ← the_segment;
  s ← cstr "shm_addr" m shm_addr;
  m ← wr "shm_addr" m (shm_addr + zlen s - 1) 0;
  set_segment m;;
  s ← cstr "shm_addr" m shm_addr;
  mret (shm_addr + (zlen s + 1)).

Fixpoint write_strings (name : string) (n : nat) (left : nat) (shm_addr : Z) : C shm Z :=
  match left with
  | O => mret shm_addr
  | S left' => a ← write_string name n shm_addr; write_strings name (S n) left' a
  end.

Definition main_w (argv : list string) : C shm unit :=
  let name := arg_n argv 0 in
  (if negb (argc argv =? 2) then
     fprintf stderr (cat ["Usage: "; name; " shmem-seg-size-KB"; nl]);; exit 1
   else mret tt);;
  let shmsz := wrapu 64 (strtoul0 (arg_n argv 1) * 1024) in
  (if (shmsz <=? 0) || (SHMSZ_OUR_MAX <? shmsz) then
     fprintf stderr (cat [name; ": specified shmem seg size ["; fmt_d shmsz; "] invalid.."; nl;
                          "[fyi, our max is "; fmt_d (SHMSZ_OUR_MAX / (1024 * 1024)); " MB]"; nl]);;
     exit 1
   else mret tt);;
  shm_key ← get_key;
  (if shm_key =? -1 then fprintf stderr (cat [name; ": ftok() failed, cannot get key value"; nl]);; exit 1 else mret tt);;
  printf (cat [name; ": key="; fmt_d shm_key; ", size="; fmt_d shmsz; nl]);;
  shm_id ← sys "shmget" [AI shm_key; AI shmsz; AI SHM_MODE];
  e ← get_errno;
  shm_id ← (if (shm_id <? 0) && (e =? EEXIST) then
              printf (cat [name; ": shmem segment already exists, will attempt to access it..."; nl]);;
              shm_id ← sys "shmget" [AI shm_key; AI 0; AI 0];
              if shm_id <? 0 then perror "shm1: shmget failed";; exit 1 else mret shm_id
            else mret shm_id);
  printf (cat [name; ": shmem segment successfully created / accessed. ID="; fmt_d shm_id; nl]);;
  a ← sys "shmat" [AI shm_id; AI 0; AI 0];
  (if a =? -1 then perror "shmat failed";; exit 1 else mret tt);;
  printf (cat [name; ": Attached successfully to shmem segment at "; fmt_p a; nl]);;
  write_strings name 0 NUM 0;;
  exit 0.

(** ** shm1_r.c *)

Fixpoint print_strings (left : nat) (next : Z) : C shm unit :=
  match left with
  | O => mret tt
  | S left' =>
      m ← the_segment;
      s ← cstr "next" m next;
      printf (cat [text_of s; nl]);;
      print_strings left' (next + (zlen s + 1))
  end.

Definition main_r (argv : list string) : C shm unit :=
  let name := arg_n argv 0 in
  r ← sys "sigaction" [AI 2; AS "sighdlr"];
  (if r =? -1 then perror name;; exit 1 else mret tt);;
  shm_key ← get_key;
  (if shm_key =? -1 then fprintf stderr (cat [name; ": ftok() failed, cannot get key value"; nl]);; exit 1 else mret tt);;
  shm_id ← sys "shmget" [AI shm_key; AI 0; AI 0];
  (if shm_id <? 0 then perror "shmget failed";; exit 1 else mret tt);;
  printf (cat [name; ": shmem segment successfully created / accessed. ID="; fmt_d shm_id; nl]);;
  a ← sys "shmat" [AI shm_id; AI 0; AI 0];
  (if a =? -1 then perror "shmat failed";; exit 1 else mret tt);;
  printf (cat [name; ": Attached successfully to shmem segment at "; fmt_p a; nl]);;
  print_strings NUM 0;;
  printf (cat [name; ": Pausing ... press ^C to continue... "; nl]);;
  sys "pause" [];;
  rv ← sys "shmdt" [AI a];
  if rv <? 0 then perror "shmdt failed";; exit 1 else exit 0.

(** ** The segment as strings *)

(** A text that the program can take as a line. *)
Definition line_ok (t : list Z) : Prop := nonzero t /\ (10 ∉ t) /\ zlen t <= LINELENGTH - 2.

Lemma zdrop_init_app d (rest : mem) : zdrop (zlen d) (init d ++ rest) = rest.
Proof. unfold zdrop, zlen. rewrite Nat2Z.id, drop_app_length'; [done|]. by rewrite length_init. Qed.

Lemma blit_init_app d (rest : mem) bs :
  blit (init d ++ rest) (zlen d) bs = init (d ++ bs) ++ zdrop (zlen bs) rest.
Proof.
  unfold blit. rewrite init_app, <- app_assoc. f_equal.
  - unfold ztake, zlen. rewrite Nat2Z.id, take_app_length'; [done|]. by rewrite length_init.
  - f_equal. unfold zdrop, zlen. rewrite drop_app_ge by (rewrite length_init; lia).
    rewrite length_init. f_equal. lia.
Qed.

Lemma zset_init_app d x y (rest : mem) : zset (init (d ++ [x]) ++ rest) (zlen d) (Some y) = init (d ++ [y]) ++ rest.
Proof.
  unfold zset. destruct (Z.ltb_spec (zlen d) 0); [pose proof (zlen_nonneg d); lia|].
  rewrite !init_app, <- !app_assoc. cbn [init map app]. unfold zlen. rewrite Nat2Z.id.
  rewrite insert_app_r_alt by (by rewrite length_init). by rewrite length_init, Nat.sub_diag.
Qed.

Lemma zlen_init_app d (rest : mem) : zlen (init d ++ rest) = zlen d + zlen rest.
Proof. by rewrite zlen_app, zlen_init. Qed.

Lemma wp_the_segment m (Q : outcome mem -> world shm -> Prop) w :
  segment (kern w) = Some m -> Q (Done m) w -> wp the_segment Q w.
Proof. intros E HQ. unfold wp, the_segment. by rewrite E. Qed.

Lemma wp_set_segment m (Q : outcome unit -> world shm -> Prop) w :
  Q (Done tt) (World (Shm (Some m) (input (kern w))) (errno w) (trace w)) -> wp (set_segment m) Q w.
Proof. done. Qed.

Lemma wp_shm_call c r k' (Q : outcome resp -> world shm -> Prop) w :
  shm_kernel c (kern w) = (r, k') -> Q (Done r) (after c r k' w) -> wp (syscall c) Q w.
Proof. intros E HQ. apply wp_syscall. intros r0 k0 E0. unfold kstep in E0. congruence. Qed.

(** A line of the input becomes the next string of the segment. *)
Lemma wp_write_string name n d rest t more (Q : outcome Z -> world shm -> Prop) w :
  segment (kern w) = Some (init d ++ rest) -> input (kern w) = t ++ 10 :: more -> line_ok t ->
  zlen t + 2 <= zlen rest ->
  (forall w' rest', zlen rest' = zlen rest - (zlen t + 1) ->
     segment (kern w') = Some (init (d ++ t ++ [0]) ++ rest') -> input (kern w') = more ->
     Q (Done (zlen (d ++ t ++ [0]))) w') ->
  wp (write_string name n (zlen d)) Q w.
Proof.
  intros Hs Hi (Hnz & Hnl & Hl) Hr HQ. pose proof (zlen_nonneg t). pose proof (zlen_nonneg d). unfold write_string. wp_step. wp_step. wp_step.
  eapply wp_shm_call.
  { unfold shm_kernel. cbn [kern]. rewrite Hi. change (Z.to_nat (LINELENGTH - 1)) with 131%nat.
    rewrite fgets_of_line by (first [done | unfold zlen, LINELENGTH in *; lia]).
    rewrite decide_False by (by destruct t). done. }
  cbn [post ret out]. change (1 =? 0) with false. wp_step. wp_step.
  eapply wp_the_segment; [done|]. cbn [post]. wp_step.
  apply wp_copy_in; [done|rewrite zlen_init_app, !zlen_app; change (zlen [10]) with 1; change (zlen [0]) with 1; lia|].
  cbn [post]. rewrite blit_init_app. apply wp_set_segment. cbn [post]. wp_step.
  eapply wp_the_segment; [done|]. cbn [post]. wp_step.
  set (rest2 := zdrop (zlen ((t ++ [10]) ++ [0])) rest).
  assert (Hz2 : zlen rest2 = zlen rest - (zlen t + 2)).
  { unfold rest2. rewrite zlen_zdrop; rewrite !zlen_app; change (zlen [10]) with 1; change (zlen [0]) with 1; lia. }
  eapply wp_cstr.
  { rewrite init_app, <- app_assoc, zdrop_init_app, init_app. cbn [init map]. rewrite <- app_assoc. cbn [app].
    apply cstr_of_init. apply Forall_app. split; [done|]. by repeat constructor. }
  cbn [post]. wp_step.
  assert (Hpos : zlen d + zlen (t ++ [10]) - 1 = zlen (d ++ t)) by (rewrite !zlen_app; change (zlen [10]) with 1; lia).
  rewrite Hpos. apply wp_wr.
  { rewrite zlen_init_app, !zlen_app. change (zlen [10]) with 1. change (zlen [0]) with 1.
    pose proof (zlen_nonneg rest2). lia. }
  cbn [post].
  assert (Hset : zset (init (d ++ (t ++ [10]) ++ [0]) ++ rest2) (zlen (d ++ t)) (Some 0)
                 = init (d ++ t ++ [0]) ++ (Some 0 :: rest2)).
  { rewrite <- (app_assoc t), (app_assoc d). change ([10] ++ [0]) with [10; 0].
    change [10; 0] with ([10] ++ [0]). rewrite (app_assoc (d ++ t)), init_app, <- app_assoc, zset_init_app.
    by rewrite <- app_assoc. }
  rewrite Hset. wp_step. apply wp_set_segment. cbn [post]. wp_step. eapply wp_cstr.
  { rewrite init_app, <- app_assoc, zdrop_init_app, init_app, <- app_assoc. by apply cstr_of_init. }
  cbn [post]. wp_step. replace (zlen d + (zlen t + 1)) with (zlen (d ++ t ++ [0])) by (by rewrite !zlen_app).
  eapply HQ; [|done|done]. rewrite zlen_cons. lia.
Qed.

(** The strings one after the other. *)
Definition packed (ts : list (list Z)) : list Z := concat (map (.++ [0]) ts).

Definition typed (ts : list (list Z)) : list Z := concat (map (.++ [10]) ts).

Lemma wp_write_strings name ts : forall n d rest more (Q : outcome Z -> world shm -> Prop) w,
  segment (kern w) = Some (init d ++ rest) -> input (kern w) = typed ts ++ more -> Forall line_ok ts ->
  zlen (packed ts) + 1 <= zlen rest ->
  (forall a w' rest', segment (kern w') = Some (init (d ++ packed ts) ++ rest') -> Q (Done a) w') ->
  wp (write_strings name n (length ts) (zlen d)) Q w.
Proof.
  induction ts as [|t ts IH]; intros n d rest more Q w Hs Hi Ht Hr HQ; cbn [length write_strings].
  { wp_step. apply (HQ _ _ rest). change (packed []) with (@nil Z). rewrite (app_nil_r d). exact Hs. }
  apply Forall_cons in Ht as [Ht Hts]. unfold packed, typed in *. cbn [map concat] in *.
  rewrite !zlen_app in Hr. change (zlen [0]) with 1 in Hr. pose proof (zlen_nonneg (packed ts)). unfold packed in *.
  wp_step. eapply (wp_write_string _ _ d rest t (typed ts ++ more)); [done| |done|lia|].
  { rewrite Hi. unfold typed. by rewrite <- !app_assoc. }
  intros w' rest' Hz Hs' Hi'. cbn [post]. eapply IH; [exact Hs'|exact Hi'|done|lia|].
  intros a w2 rest2 Hs2. eapply HQ. rewrite Hs2. by rewrite <- !app_assoc.
Qed.

(** What a run shows on the terminal: everything but its calls. *)
Definition said (tr : list event) : list event :=
  List.filter (fun e => match e with EvOut _ _ | EvPerror _ _ => true | _ => false end) tr.

Lemma said_app t1 t2 : said (t1 ++ t2) = said t1 ++ said t2.
Proof. apply List.filter_app. Qed.

Definition shown (ts : list (list Z)) : list event := map (fun t => EvOut stdout (cat [text_of t; nl])) ts.

Lemma said_shown ts : said (shown ts) = shown ts.
Proof. induction ts as [|t ts IH]; [done|]. unfold said, shown in *. cbn [map List.filter]. by rewrite IH. Qed.

(** All that the reader shows: where the segment is, the strings, and that it waits. *)
Definition reader_output (name : string) (ts : list (list Z)) : list event :=
  [EvOut stdout (cat [name; ": shmem segment successfully created / accessed. ID="; fmt_d 5; nl]);
   EvOut stdout (cat [name; ": Attached successfully to shmem segment at "; fmt_p 4096; nl])]
  ++ shown ts ++
  [EvOut stdout (cat [name; ": Pausing ... press ^C to continue... "; nl])].

Lemma wp_print_strings ts : forall d rest (Q : outcome unit -> world shm -> Prop) w,
  segment (kern w) = Some (init (d ++ packed ts) ++ rest) -> Forall nonzero ts ->
  Q (Done tt) (World (kern w) (errno w) (trace w ++ shown ts)) ->
  wp (print_strings (length ts) (zlen d)) Q w.
Proof.
  induction ts as [|t ts IH]; intros d rest Q w Hs Ht HQ; cbn [length print_strings].
  { wp_step. cbn in HQ. rewrite app_nil_r in HQ. by destruct w. }
  apply Forall_cons in Ht as [Ht Hts]. wp_step. eapply wp_the_segment; [done|]. cbn [post]. wp_step.
  unfold packed in *. cbn [map concat] in *. eapply wp_cstr.
  { rewrite init_app, <- app_assoc, zdrop_init_app, <- !app_assoc, init_app, <- app_assoc. by apply cstr_of_init. }
  cbn [post]. wp_step. wp_step.
  replace (zlen d + (zlen t + 1)) with (zlen (d ++ t ++ [0])) by (by rewrite !zlen_app).
  eapply IH; [|done|].
  - cbn [kern]. rewrite Hs. by rewrite <- !app_assoc.
  - cbn [kern errno trace]. rewrite <- app_assoc. exact HQ.
Qed.

(** get_key finds the key. *)
Lemma wp_get_key (Q : outcome Z -> world shm -> Prop) w :
  (forall w', kern w' = kern w -> (exists evs, trace w' = trace w ++ evs /\ said evs = []) -> Q (Done 7) w') -> wp get_key Q w.
Proof.
  intros HQ. unfold get_key. wp_step. eapply wp_shm_call; [done|]. cbn [post ret]. change (1 =? 0) with false.
  wp_step. wp_step. wp_step. eapply wp_shm_call; [done|]. cbn [post ret]. change (1 =? 0) with false.
  wp_step. wp_step. wp_step. unfold sys. wp_step. eapply wp_shm_call; [done|]. cbn [post ret]. wp_step. wp_step.
  eapply wp_shm_call; [done|]. cbn [post]. wp_step. apply HQ; [done|]. eexists.
  split; [cbn [after trace]; rewrite <- !app_assoc; reflexivity|done].
Qed.

(** ** The programs *)

(** The segment the writer attaches: the existing one, or a new one of its size. *)
Definition attached (k : shm) (size : Z) : mem :=
  default (init (replicate (Z.to_nat size) 0)) (segment k).

Lemma wp_main_w argv ts more k e size (Q : outcome unit -> world shm -> Prop) :
  argc argv = 2 -> wrapu 64 (strtoul0 (arg_n argv 1) * 1024) = size -> 0 < size <= SHMSZ_OUR_MAX ->
  input k = typed ts ++ more -> length ts = NUM -> Forall line_ok ts ->
  zlen (packed ts) + 1 <= zlen (attached k size) ->
  (forall w' rest, segment (kern w') = Some (init (packed ts) ++ rest) -> Q (Halt (HExit 0)) w') ->
  wp (main_w argv) Q (World k e []).
Proof.
  intros Ha Hsz Hr Hi Hn Ht Hfit HQ. unfold main_w. rewrite Ha, Hsz. change (negb (2 =? 2)) with false. wp_step. wp_step.
  wp_step. destruct (Z.leb_spec size 0); [lia|]. destruct (Z.ltb_spec SHMSZ_OUR_MAX size); [lia|]. cbn [orb].
  wp_step. wp_step. apply wp_get_key. intros w1 K1 _. cbn [post]. change (7 =? -1) with false. wp_step. wp_step. wp_step. wp_step.
  assert (Hloop : forall w2, segment (kern w2) = Some (attached k size) -> input (kern w2) = input k ->
            wp (printf (cat [arg_n argv 0; ": shmem segment successfully created / accessed. ID="; fmt_d 5; nl]);;
                a ← sys "shmat" [AI 5; AI 0; AI 0];
                (if a =? -1 then perror "shmat failed";; exit 1 else mret tt);;
                printf (cat [arg_n argv 0; ": Attached successfully to shmem segment at "; fmt_p a; nl]);;
                write_strings (arg_n argv 0) 0 NUM 0;; exit 0) Q w2).
  { intros w2 Hs2 Hi2. wp_step. wp_step. wp_step. unfold sys. wp_step. eapply wp_shm_call.
    { unfold shm_kernel. cbn [kern]. rewrite Hs2. done. }
    cbn [post ret]. wp_step. change (4096 =? -1) with false. wp_step. wp_step. wp_step. wp_step. wp_step.
    rewrite <- Hn. eapply (wp_write_strings _ ts 0 [] (attached k size) more); [done|by rewrite <- Hi|done|done|].
    intros a w' rest' Hs'. cbn [post]. wp_step. by eapply HQ. }
  wp_step. unfold sys at 1. wp_step. unfold attached in *. destruct (segment k) as [m|] eqn:Ek.
  - eapply wp_shm_call; [unfold shm_kernel; cbn [kern]; rewrite K1; cbn [kern]; rewrite Ek; done|].
    cbn [post ret]. wp_step. wp_step. apply wp_get_errno. cbn [post]. wp_step. change (-1 <? 0) with true.
    cbn [after errno ret err]. change (call_failed _ _) with true. cbv iota. cbn [err]. change (EEXIST =? EEXIST) with true. cbn [andb].
    wp_step. wp_step. wp_step. unfold sys at 1. wp_step.
    eapply wp_shm_call; [unfold shm_kernel; cbn [kern after]; rewrite Ek; done|].
    cbn [post ret]. wp_step. change (5 <? 0) with false. wp_step. wp_step. apply Hloop; cbn [kern after]; by rewrite ?K1, ?Ek.
  - eapply wp_shm_call; [unfold shm_kernel; cbn [kern]; rewrite K1; cbn [kern]; rewrite Ek; done|].
    cbn [post ret]. wp_step. wp_step. apply wp_get_errno. cbn [post]. wp_step. change (5 <? 0) with false. cbn [andb].
    wp_step. wp_step. apply Hloop; cbn [kern after segment input]; done.
Qed.

Lemma wp_main_r argv ts rest k e tr (Q : outcome unit -> world shm -> Prop) :
  segment k = Some (init (packed ts) ++ rest) -> length ts = NUM -> Forall nonzero ts ->
  (forall w', said (trace w') = said tr ++ reader_output (arg_n argv 0) ts -> Q (Halt (HExit 0)) w') ->
  wp (main_r argv) Q (World k e tr).
Proof.
  intros Hs Hn Ht HQ. unfold main_r. wp_step. unfold sys at 1. wp_step. eapply wp_shm_call; [done|]. cbn [post ret].
  wp_step. change (0 =? -1) with false. wp_step. wp_step. wp_step.
  apply wp_get_key. intros w1 K1 (e1 & T1 & S1). cbn [post]. change (7 =? -1) with false. wp_step. wp_step. wp_step.
  unfold sys at 1. wp_step. eapply wp_shm_call; [unfold shm_kernel; cbn [kern]; rewrite ?K1; cbn [kern after]; rewrite Hs; done|].
  cbn [post ret]. wp_step. change (5 <? 0) with false. wp_step. wp_step. wp_step. wp_step. wp_step.
  unfold sys at 1. wp_step. eapply wp_shm_call; [unfold shm_kernel; cbn [kern after]; rewrite ?K1; cbn [kern after]; rewrite Hs; done|].
  cbn [post ret]. wp_step. change (4096 =? -1) with false. wp_step. wp_step. wp_step. wp_step. wp_step. rewrite <- Hn.
  eapply (wp_print_strings ts [] rest); [cbn [kern after]; rewrite ?K1; exact Hs|done|]. cbn [post]. wp_step. wp_step. wp_step.
  unfold sys at 1. wp_step. eapply wp_shm_call; [cbn [shm_kernel]; reflexivity|]. cbn [post ret]. wp_step. wp_step. unfold sys at 1. wp_step.
  eapply wp_shm_call; [cbn [shm_kernel]; reflexivity|]. cbn [post ret]. wp_step. change (0 <? 0) with false. wp_step. wp_step.
  apply HQ. cbn [after trace kern]. rewrite T1. cbn [after trace].
  rewrite !said_app, S1, said_shown. unfold reader_output. cbn. by rewrite <- !app_assoc.
Qed.


Definition ten_lines : list (list Z) := map (fun n => bytes_of (cat ["line "; fmt_d (Z.of_nat n)])) (seq 0 10).


(** At the end of the input the writer stores before the start of the segment. *)
Lemma shm_empty_input :
  exists w', main_w ["shm1_w"; "1"] (World (Shm None []) 0 []) = (Halt (HUB (UB_bounds "shm_addr" (-1))), w').
Proof. eexists. vm_compute. reflexivity. Qed.

(** Lines that do not fit the segment are stored past its end. *)
Lemma shm_overrun :
  exists w', main_w ["shm1_w"; "1"] (World (Shm None (typed (replicate 10 (replicate 130 97)))) 0 []) =
             (Halt (HUB (UB_bounds "shm_addr" 1048)), w').
Proof. eexists. vm_compute. reflexivity. Qed.

(** The size in bytes wraps: 2^54 + 1 kilobytes are taken as one. *)
Lemma shm_size_wraps : wrapu 64 (strtoul0 "18014398509481985" * 1024) = 1024.
Proof. by vm_compute. Qed.
