(* ===== verification/ClientAny.v ===== *)
(** src/ipc/net_sockets/inet_domain/beej_newer/client_any/client_any.c: a client that
    tries the addresses getaddrinfo found until one accepts, receives once and
    prints.  An address is its place in the list; its text (inet_ntop) and the error
    text of getaddrinfo are parameters.  recv without flags is read. *)
From S2P Require Import Prelude CMonad CLib.

Definition MAXDATASIZE : Z := 1024.

Section Code.
Context {K : Type} {HK : Kernel K}.
Context (inet_ntop : Z -> string) (gai_strerror : Z -> string).

(** The loop over the addresses from number [p] on; [i] sockets were made. *)
Fixpoint try_addrs (argv : list string) (left : nat) (p i : Z) : C K (option (Z * Z)) :=
  match left with
  | O => mret None
  | S left' =>
      sockfd ← sys "socket" [AI p];
      if sockfd =? -1 then perror "client_any: socket";; try_addrs argv left' (p + 1) i
      else
        printf (cat [" "; arg_n argv 0; ": loop iteration #"; fmt_d (i + 1); ": got socket fd ["; fmt_d sockfd; "].."; nl]);;
        printf (cat [" "; arg_n argv 0; ": now attempting to connect to "; arg_n argv 1; ":";
                     fmt_d (atoi (arg_n argv 2)); "..."; nl]);;
        c ← sys "connect" [AI sockfd; AI p];
        if c =? -1 then
          syscall (Cclose sockfd);;
          perror "client_any: connect failed";;
          try_addrs argv left' (p + 1) (i + 1)
        else mret (Some (sockfd, p))
  end.

(** From the connection on. *)
Definition receive_once (argv : list string) (sockfd p : Z) : C K Z :=
  printf (cat [arg_n argv 0; ": connected to "; inet_ntop p; ":"; fmt_d (atoi (arg_n argv 2));
               ", performing 'recv' now..."; nl]);;
  sys "freeaddrinfo" [];;
  r ← syscall (Cread sockfd (MAXDATASIZE - 1));
  let numbytes := ret r in
  (if numbytes =? -1 then perror "recv";; exit 1 else mret tt);;
  if numbytes =? 0 then
    printf (cat [arg_n argv 0; ": peer closed the connection! (recv ret 0)"; nl]);;
    syscall (Cclose sockfd);;
    mret 0
  else
    buf ← copy_in "buf" (uninit MAXDATASIZE) 0 (out r);
    buf ← wr "buf" buf numbytes 0;
    s ← cstr "buf" buf 0;
    printf (cat [arg_n argv 0; ": received "; fmt_d numbytes; " bytes, content:"; nl; "'";
                 text_of (ztake numbytes s); "'"; nl]);;
    syscall (Cclose sockfd);;
    mret 0.

Definition main (argv : list string) : C K Z :=
  (if negb (argc argv =? 3) then
     fprintf stderr (cat ["usage: "; arg_n argv 0; " hostname port#"; nl]);; exit 1
   else mret tt);;
  printf (cat [arg_n argv 0; ": issuing the getaddrinfo lib API now..."; nl]);;
  rv ← syscall (Csys "getaddrinfo" [AS (arg_n argv 1); AS (arg_n argv 2)]);
  if negb (ret rv =? 0) then
    fprintf stderr (cat ["getaddrinfo: "; gai_strerror (ret rv); nl]);; mret 1
  else
    c ← try_addrs argv (Z.to_nat (hd 0 (out rv))) 0 0;
    match c with
    | None => fprintf stderr (cat ["client_any: failed to connect"; nl]);; mret 2
    | Some (sockfd, p) => receive_once argv sockfd p
    end.

End Code.

(** ** Sockets *)

Definition opened (tr : list event) : list Z :=
  omap (fun e => match e with
                 | EvCall (Csys fn _) r => if decide (fn = "socket") then if ret r =? -1 then None else Some (ret r) else None
                 | _ => None
                 end) tr.

Definition closed (tr : list event) : list Z :=
  omap (fun e => match e with EvCall (Cclose fd) _ => Some fd | _ => None end) tr.

Lemma opened_app t1 t2 : opened (t1 ++ t2) = opened t1 ++ opened t2.
Proof. apply omap_app. Qed.

Lemma closed_app t1 t2 : closed (t1 ++ t2) = closed t1 ++ closed t2.
Proof. apply omap_app. Qed.

(** [held s tr]: of the sockets made, exactly those of [s] are not closed. *)
Definition held (s : list Z) (tr : list event) : Prop := opened tr = closed tr ++ s.

Lemma held_snoc s tr e :
  held s tr -> opened [e] = [] -> closed [e] = [] -> held s (tr ++ [e]).
Proof. unfold held. rewrite opened_app, closed_app. intros -> -> ->. by rewrite !app_nil_r. Qed.

Section Wp.
Context {K : Type} {HK : Kernel K} `{!PosixKernel K}.
Context (inet_ntop : Z -> string) (gai_strerror : Z -> string).

Lemma wp_held_out s e (Q : outcome unit -> world K -> Prop) w :
  held s (trace w) -> opened [e] = [] -> closed [e] = [] ->
  (forall w', held s (trace w') -> Q (Done tt) w') -> wp (emit e) Q w.
Proof. intros Hh Ho Hc HQ. apply wp_emit, HQ. by apply held_snoc. Qed.

Lemma wp_held_call s c (Q : outcome resp -> world K -> Prop) w :
  held s (trace w) -> (forall r, opened [EvCall c r] = [] /\ closed [EvCall c r] = []) ->
  (forall r w', resp_ok c r -> held s (trace w') -> Q (Done r) w') -> wp (syscall c) Q w.
Proof.
  intros Hh Hc HQ. apply wp_syscall_posix. intros r k Hr _. apply HQ; [done|]. cbn [after trace].
  destruct (Hc r). by apply held_snoc.
Qed.

(** Closing the one that is held. *)
Lemma wp_held_close fd (Q : outcome resp -> world K -> Prop) w :
  held [fd] (trace w) -> (forall r w', held [] (trace w') -> Q (Done r) w') -> wp (syscall (Cclose fd)) Q w.
Proof.
  intros Hh HQ. apply wp_syscall. intros r k _. apply HQ. unfold held in *. cbn [after trace].
  rewrite opened_app, closed_app, Hh. cbn. by rewrite !app_nil_r.
Qed.

Ltac quiet := eapply wp_held_out; [eassumption|reflexivity|reflexivity|]; intros; cbn [post].

Lemma wp_try_addrs argv left : forall p i (w : world K), held [] (trace w) ->
  wp (try_addrs argv left p i)
     (post (fun c w' => match c with
                        | None => held [] (trace w')
                        | Some (fd, q) => held [fd] (trace w') /\ p <= q < p + Z.of_nat left
                        end) (fun _ _ => False)) w.
Proof.
  induction left as [|left IH]; intros p i w Hh; cbn [try_addrs]; [by wp_step|].
  wp_step. unfold sys at 1. wp_step. apply wp_syscall. intros r k _. cbn [post]. wp_step.
  destruct (Z.eqb_spec (ret r) (-1)) as [E|E].
  - wp_step. assert (H1 : held [] (trace (after (Csys "socket" [AI p]) r k w))).
    { cbn [after trace]. apply held_snoc; [done| |done]. cbn. by rewrite E. }
    unfold perror. wp_step. apply wp_get_errno. cbn [post]. quiet. eapply wp_mono; [|by apply IH].
    intros [[[fd q]|]|h] wf Hw; cbn [post] in *; [|done|done]. split; [apply Hw|]. lia.
  - assert (H1 : held [ret r] (trace (after (Csys "socket" [AI p]) r k w))).
    { unfold held in *. cbn [after trace]. rewrite opened_app, closed_app, Hh. cbn.
      apply Z.eqb_neq in E. rewrite E. by rewrite !app_nil_r. }
    wp_step. quiet. wp_step. quiet. wp_step. unfold sys. wp_step.
    eapply wp_held_call; [eassumption|done|]. intros r2 w2 _ H2. cbn [post]. wp_step. destruct (ret r2 =? -1).
    + wp_step. apply wp_held_close; [done|]. intros r3 w3 H3. cbn [post]. wp_step.
      unfold perror. wp_step. apply wp_get_errno. cbn [post]. quiet. eapply wp_mono; [|by apply IH].
      intros [[[fd q]|]|h] wf Hw; cbn [post] in *; [|done|done]. split; [apply Hw|]. lia.
    + wp_step. split; [done|]. lia.
Qed.
Lemma wp_receive_once argv fd p (w : world K) :
  held [fd] (trace w) ->
  wp (receive_once inet_ntop argv fd p)
     (post (fun z w' => z = 0 /\ held [] (trace w')) (fun h w' => h = HExit 1 /\ held [fd] (trace w'))) w.
Proof.
  intros Hh. unfold receive_once. wp_step. quiet. wp_step. unfold sys. wp_step.
  eapply wp_held_call; [eassumption|done|]. intros r1 w1 _ H1. cbn [post]. wp_step. wp_step.
  eapply wp_held_call; [exact H1|done|]. intros r w2 Hr H2. cbn [post]. wp_step.
  destruct Hr as [_ Hr]. destruct (Z.eqb_spec (ret r) (-1)) as [E|E].
  { unfold perror. wp_step. wp_step. apply wp_get_errno. cbn [post]. quiet. wp_step. done. }
  destruct Hr as [?|(Hn & Hl & _)]; [done|]. wp_step. destruct (Z.eqb_spec (ret r) 0) as [E0|E0].
  - wp_step. quiet. wp_step. apply wp_held_close; [done|]. intros r3 w3 H3. cbn [post]. by wp_step.
  - wp_step. unfold MAXDATASIZE in *. apply wp_copy_in; [done|rewrite zlen_uninit; lia|]. cbn [post]. wp_step.
    assert (E1 : blit (uninit 1024) 0 (out r) = overlay (out r) (uninit 1024)).
    { by rewrite <- (overlay_blit [] (out r)) by (rewrite (@zlen_nil Z), zlen_uninit; lia). }
    rewrite E1. apply wp_wr_overlay; [by rewrite Hl|rewrite zlen_uninit; lia|]. cbn [post]. wp_step.
    destruct (cstr_terminated (out r)) as [s Hs]. eapply wp_cstr.
    { unfold overlay. rewrite zdrop_0, init_app. apply cstr_of_app. exact Hs. }
    cbn [post]. wp_step. quiet. wp_step. apply wp_held_close; [done|]. intros r3 w3 H3. cbn [post]. by wp_step.
Qed.

(** The client keeps no socket.  On any POSIX kernel it always ends, never outside
    its buffer: with 0, 1 or 2 after closing every socket it made, each once and in
    the order it made them; or with exit code 1, because of its arguments without
    having made one, or because the receive failed with only the connected one left. *)
Theorem client_any_sockets argv (k : K) e :
  exists o w', main inet_ntop gai_strerror argv (World k e []) = (o, w') /\
    match o with
    | Done z => 0 <= z <= 2 /\ closed (trace w') = opened (trace w')
    | Halt h => h = HExit 1 /\
        (opened (trace w') = [] \/ exists fd, opened (trace w') = closed (trace w') ++ [fd])
    end.
Proof.
  enough (wp (main inet_ntop gai_strerror argv) (post (fun z w' => 0 <= z <= 2 /\ held [] (trace w'))
            (fun h w' => h = HExit 1 /\ (opened (trace w') = [] \/ exists fd, held [fd] (trace w')))) (World k e []))
    as (o & w' & E & Ho)%wp_run.
  { exists o, w'. split; [done|]. destruct o as [z|h]; cbn [post] in Ho; [|done].
    destruct Ho as [Hz Hh]. split; [done|]. unfold held in Hh. by rewrite Hh, app_nil_r. }
  assert (H0 : held [] (trace (World k e []))) by done. unfold main. wp_step. destruct (argc argv =? 3); cbn [negb].
  2: { wp_step. wp_step. wp_step. split; [done|]. by left. }
  wp_step. wp_step. quiet. wp_step. eapply wp_held_call; [eassumption|done|]. intros rv w1 _ H1. cbn [post].
  destruct (ret rv =? 0); cbn [negb].
  2: { wp_step. quiet. wp_step. split; [lia|done]. }
  wp_step. eapply wp_mono; [|by apply wp_try_addrs].
  intros [[[fd p]|]|h] w2 H2; cbn [post] in *; [| |done].
  - destruct H2 as [H2 _]. eapply wp_mono; [|by apply wp_receive_once].
    intros [z|h] w3 H3; cbn [post] in *; [destruct H3 as [-> H3]; split; [lia|done]|].
    destruct H3 as [-> H3]. split; [done|]. right. by exists fd.
  - wp_step. quiet. wp_step. split; [lia|done].
Qed.

End Wp.

(** Two addresses: the first refuses, the second sends "hi". *)
Lemma client_any_example :
  exists w', main (fun _ => "10.0.0.1") (fun _ => "") ["client_any"; "host"; "80"]
    (World [Resp 0 0 [2]; Resp 3 0 []; Resp (-1) 111 []; Resp 0 0 []; Resp 4 0 []; Resp 0 0 []; Resp 0 0 [];
            Resp 2 0 [104; 105]; Resp 0 0 []] 0 []) = (Done 0, w') /\
    opened (trace w') = [3; 4] /\ closed (trace w') = [3; 4].
Proof. eexists. split; [vm_compute; reflexivity|]. split; by vm_compute. Qed.
