(* ===== verification/Proc.v ===== *)
(** Processes and signals.  A program is a tree of its calls, [prog], so that fork can
    duplicate what is left of it and a signal handler can run in the middle of it; a
    system is a list of processes and a log; [step] makes one move of one process, or
    delivers a signal, or ends a sleep.  A schedule is a list of moves: the theorems
    about the programs on this machine ([ForkDemo], [Fork2c], [SigDemo], [SigCrit],
    [Zombies], [Sanodef]) hold for every schedule.

    Standard output is a terminal: what is printed appears at once.  Time is not
    modelled, a sleep ends at any moment.  The parent of the first process is outside
    of the system; process 1 (init) reaps at once. *)
From S2P Require Import Prelude CMonad CLib.

(** ** Data *)

(** A variable of the program, or a byte of an allocated block. *)
Inductive loc := LVar (x : string) | LHeap (base off : Z).

Definition loc_eqb (a b : loc) : bool :=
  match a, b with
  | LVar x, LVar y => String.eqb x y
  | LHeap p i, LHeap q j => (p =? q) && (i =? j)
  | _, _ => false
  end.

Definition pmem := loc -> option Z.

Definition mem_set (m : pmem) (l : loc) (v : Z) : pmem :=
  fun l' => if loc_eqb l' l then Some v else m l'.

Definition mem_free (m : pmem) (p : Z) : pmem :=
  fun l => match l with LHeap q _ => if q =? p then None else m l | _ => m l end.

(** A function pointer is the name of the function. *)
Inductive disposition := SIG_DFL | SIG_IGN | SIG_FN (f : string).

Record sigact := Sigact { sa_handler : disposition; sa_mask : Z; sa_flags : Z }.

Definition SA_NOCLDSTOP : Z := 1.
Definition SA_NOCLDWAIT : Z := 2.
Definition SA_RESTART : Z := 268435456.
Definition SA_NODEFER : Z := 1073741824.
Definition SA_RESETHAND : Z := 2147483648.

Definition SIGINT : Z := 2.
Definition SIGQUIT : Z := 3.
Definition SIGKILL : Z := 9.
Definition SIGUSR1 : Z := 10.
Definition SIGCHLD : Z := 17.
Definition SIGSTOP : Z := 19.

(** A signal set is a bit mask, signal n its bit n - 1. *)
Definition sigemptyset : Z := 0.
Definition sigfillset : Z := 2 ^ 64 - 1.
Definition sigmask (sig : Z) : Z := Z.shiftl 1 (sig - 1).
Definition sigaddset (set sig : Z) : Z := Z.lor set (sigmask sig).
Definition sigdelset (set sig : Z) : Z := Z.ldiff set (sigmask sig).
Definition sigismember (set sig : Z) : bool := Z.testbit set (sig - 1).

Inductive how := SIG_BLOCK | SIG_UNBLOCK | SIG_SETMASK.

Inductive pcall :=
| Fork
| Getpid
| Getppid
| Wait (nohang : bool)
| Sleep (sec : Z)
| Nanosleep (nsec : Z)
| Pause
| Kill (pid sig : Z)
| Sigaction (sig : Z) (act : sigact)
| Sigprocmask (h : how) (set : Z)
| Malloc (n : Z)
| Free (p : Z).

(** A call answers with a value and with what it stores (a status, a signal set). *)
Inductive prog (A : Type) :=
| Ret (a : A)
| Exit (code : Z)
| Out (s : stream) (txt : string) (k : prog A)
| Perror (msg : string) (k : prog A)
| Get (l : loc) (k : Z -> prog A)
| Set_ (l : loc) (v : Z) (k : prog A)
| Call (c : pcall) (k : Z * Z -> prog A)
| Forever (f : string)
| Sigreturn (mask : Z) (k : prog A).
Arguments Ret {A} a.
Arguments Exit {A} code.
Arguments Out {A} s txt k.
Arguments Perror {A} msg k.
Arguments Get {A} l k.
Arguments Set_ {A} l v k.
Arguments Call {A} c k.
Arguments Forever {A} f.
Arguments Sigreturn {A} mask k.

Fixpoint pbind {A B} (f : A -> prog B) (m : prog A) : prog B :=
  match m with
  | Ret a => f a
  | Exit c => Exit c
  | Out s t k => Out s t (pbind f k)
  | Perror t k => Perror t (pbind f k)
  | Get l k => Get l (fun v => pbind f (k v))
  | Set_ l v k => Set_ l v (pbind f k)
  | Call c k => Call c (fun r => pbind f (k r))
  | Forever g => Forever g
  | Sigreturn m' k => Sigreturn m' (pbind f k)
  end.

#[export] Instance prog_ret : MRet prog := fun A a => Ret a.
#[export] Instance prog_bind : MBind prog := fun A B f m => pbind f m.

Definition pprintf (txt : string) : prog unit := Out stdout txt (Ret tt).
Definition pfprintf (s : stream) (txt : string) : prog unit := Out s txt (Ret tt).
Definition pperror (msg : string) : prog unit := Perror msg (Ret tt).
Definition pexit {A} (code : Z) : prog A := Exit code.
Definition pcall2 (c : pcall) : prog (Z * Z) := Call c Ret.
Definition pcall1 (c : pcall) : prog Z := Call c (fun r => Ret (fst r)).
Definition pget (l : loc) : prog Z := Get l Ret.
Definition pset (l : loc) (v : Z) : prog unit := Set_ l v (Ret tt).

(** A loop whose body says whether it goes on, for at most [fuel] turns; it then
    hangs. *)
Fixpoint ploop {S R} (fuel : nat) (body : S -> prog (S + R)) (s : S) : prog R :=
  match fuel with
  | O => Forever ""
  | Datatypes.S n => pbind (fun r => match r with inl s' => ploop n body s' | inr x => Ret x end) (body s)
  end.

Record proc := Proc {
  p_pid : Z;
  p_ppid : Z;
  p_code : prog unit;
  p_mem : pmem;
  p_blocked : bool;            (* inside its call *)
  p_mask : Z;
  p_pend : Z;
  p_act : Z -> sigact;
  p_zombie : option Z }.       (* the status of a dead process *)

Inductive pevent :=
| EOut (s : stream) (txt : string)
| EPerror (msg : string)
| EHandler (sig : Z)           (* a handler starts *)
| EReap (pid status : Z)       (* wait fetched a child *)
| EExit (status : Z).

Record sys := Sys { procs : list proc; plog : list (Z * pevent) }.

(** The functions whose addresses are taken. *)
Definition table := string -> Z -> prog unit.

Definition act_default : sigact := Sigact SIG_DFL 0 0.

(** A program that was just started: the value of main is its exit code. *)
Definition boot (pid : Z) (ppid : Z) (main : prog Z) : proc :=
  Proc pid ppid (pbind (fun r => Exit r) main) (fun _ => None) false 0 0 (fun _ => act_default) None.

(** ** The process table *)

Definition find_pid (pid : Z) (ps : list proc) : option proc :=
  List.find (fun p => p_pid p =? pid) ps.

Definition put_proc (p : proc) (ps : list proc) : list proc :=
  map (fun q => if p_pid q =? p_pid p then p else q) ps.

Definition del_pid (pid : Z) (ps : list proc) : list proc :=
  List.filter (fun p => negb (p_pid p =? pid)) ps.

Definition dead (p : proc) : bool := match p_zombie p with Some _ => true | None => false end.

(** The process goes on with [code]. *)
Definition goto (p : proc) (code : prog unit) : proc :=
  Proc (p_pid p) (p_ppid p) code (p_mem p) false (p_mask p) (p_pend p) (p_act p) (p_zombie p).

Definition block (p : proc) : proc :=
  Proc (p_pid p) (p_ppid p) (p_code p) (p_mem p) true (p_mask p) (p_pend p) (p_act p) (p_zombie p).

Definition with_mem (p : proc) (m : pmem) : proc :=
  Proc (p_pid p) (p_ppid p) (p_code p) m (p_blocked p) (p_mask p) (p_pend p) (p_act p) (p_zombie p).

Definition with_mask (p : proc) (m : Z) : proc :=
  Proc (p_pid p) (p_ppid p) (p_code p) (p_mem p) (p_blocked p) m (p_pend p) (p_act p) (p_zombie p).

Definition with_pend (p : proc) (m : Z) : proc :=
  Proc (p_pid p) (p_ppid p) (p_code p) (p_mem p) (p_blocked p) (p_mask p) m (p_act p) (p_zombie p).

Definition with_act (p : proc) (f : Z -> sigact) : proc :=
  Proc (p_pid p) (p_ppid p) (p_code p) (p_mem p) (p_blocked p) (p_mask p) (p_pend p) f (p_zombie p).

Definition with_ppid (p : proc) (q : Z) : proc :=
  Proc (p_pid p) q (p_code p) (p_mem p) (p_blocked p) (p_mask p) (p_pend p) (p_act p) (p_zombie p).

Definition with_zombie (p : proc) (st : Z) : proc :=
  Proc (p_pid p) (p_ppid p) (p_code p) (p_mem p) false (p_mask p) (p_pend p) (p_act p) (Some st).

Definition add_log (s : sys) (pid : Z) (e : pevent) : sys := Sys (procs s) (plog s ++ [(pid, e)]).

Definition put (s : sys) (p : proc) : sys := Sys (put_proc p (procs s)) (plog s).

(** ** Signals *)

(** A standard signal that is already pending stays pending once. *)
Definition post_signal (pid sig : Z) (ps : list proc) : list proc :=
  map (fun q => if (p_pid q =? pid) && negb (dead q) then with_pend q (sigaddset (p_pend q) sig) else q) ps.

Definition default_ignored (sig : Z) : bool :=
  (sig =? SIGCHLD) || (sig =? 18) || (sig =? 23) || (sig =? 28).

(** Neither SIGKILL nor SIGSTOP can be blocked. *)
Definition settable (mask : Z) : Z := sigdelset (sigdelset mask SIGKILL) SIGSTOP.

Definition new_mask (h : how) (old set : Z) : Z :=
  settable match h with
           | SIG_BLOCK => Z.lor old set
           | SIG_UNBLOCK => Z.ldiff old set
           | SIG_SETMASK => set
           end.

Definition auto_reap (act : sigact) : bool :=
  match sa_handler act with SIG_IGN => true | _ => negb (Z.land (sa_flags act) SA_NOCLDWAIT =? 0) end.

(** What becomes of the children of a process that dies: init adopts them, and reaps
    the dead ones. *)
Definition disown (pid : Z) (ps : list proc) : list proc :=
  map (fun q => if p_ppid q =? pid then with_ppid q 1 else q)
      (List.filter (fun q => negb ((p_ppid q =? pid) && dead q)) ps).

Definition do_exit (s : sys) (p : proc) (status : Z) : sys :=
  let ps := disown (p_pid p) (procs s) in
  let ps := if p_ppid p =? 1 then del_pid (p_pid p) ps
            else match find_pid (p_ppid p) ps with
                 | Some q => post_signal (p_ppid p) SIGCHLD
                     (if auto_reap (p_act q SIGCHLD) then del_pid (p_pid p) ps
                      else put_proc (with_zombie p status) ps)
                 | None => put_proc (with_zombie p status) ps
                 end in
  add_log (Sys ps (plog s)) (p_pid p) (EExit status).

(** ** Calls *)

Definition answer (s : sys) (p : proc) (k : Z * Z -> prog unit) (r : Z * Z) : option sys :=
  Some (put s (goto p (k r))).

Definition fresh (pid : Z) (ps : list proc) : bool :=
  (1 <? pid) && negb (existsb (fun q => (p_pid q =? pid) || (p_ppid q =? pid)) ps).

Definition child_of (pid : Z) (q : proc) : bool := p_ppid q =? pid.

(** wait: [o] chooses among the dead children. *)
Definition do_wait (s : sys) (p : proc) (o : Z) (nohang : bool) (k : Z * Z -> prog unit) : option sys :=
  match find_pid o (procs s) with
  | Some (Proc _ ppid _ _ _ _ _ _ (Some st)) =>
      if ppid =? p_pid p then
        answer (add_log (Sys (del_pid o (procs s)) (plog s)) (p_pid p) (EReap o st)) p k (o, st)
      else None
  | _ =>
      if existsb (fun q => child_of (p_pid p) q && dead q) (procs s) then None
      else if negb (existsb (child_of (p_pid p)) (procs s)) then answer s p k (-1, 0)
      else if nohang then answer s p k (0, 0)
      else if p_blocked p then None else Some (put s (block p))
  end.

Definition do_call (s : sys) (p : proc) (o : Z) (c : pcall) (k : Z * Z -> prog unit) : option sys :=
  match c with
  | Fork =>
      if fresh o (procs s) then
        let child := Proc o (p_pid p) (k (0, 0)) (p_mem p) false (p_mask p) 0 (p_act p) None in
        answer (Sys (procs s ++ [child]) (plog s)) p k (o, 0)
      else answer s p k (-1, 0)
  | Getpid => answer s p k (p_pid p, 0)
  | Getppid => answer s p k (p_ppid p, 0)
  | Wait nohang => do_wait s p o nohang k
  | Sleep _ | Nanosleep _ | Pause => if p_blocked p then None else Some (put s (block p))
  | Kill q sig =>
      match find_pid q (procs s) with
      | None => answer s p k (-1, 0)
      | Some _ =>
          if sig =? 0 then answer s p k (0, 0)
          else if q =? p_pid p then answer s (with_pend p (sigaddset (p_pend p) sig)) k (0, 0)
          else answer (Sys (post_signal q sig (procs s)) (plog s)) p k (0, 0)
      end
  | Sigaction sig act =>
      if (sig <? 1) || (64 <? sig) || (sig =? SIGKILL) || (sig =? SIGSTOP) then answer s p k (-1, 0)
      else answer s (with_act p (fun x => if x =? sig then act else p_act p x)) k (0, 0)
  | Sigprocmask h set => answer s (with_mask p (new_mask h (p_mask p) set)) k (0, p_mask p)
  | Malloc _ =>
      if (0 <? o) && match p_mem p (LHeap o 0) with Some _ => false | None => true end then answer s p k (o, 0)
      else answer s p k (0, 0)
  | Free q => answer s (with_mem p (mem_free (p_mem p) q)) k (0, 0)
  end.

(** One move of a process; [o] is what the system chooses (the number of a child,
    the address of a block). *)
Definition run1 (T : table) (s : sys) (p : proc) (o : Z) : option sys :=
  match p_code p with
  | Ret _ => None
  | Exit c => Some (do_exit s p (Z.shiftl (Z.land c 255) 8))
  | Out st txt k => Some (add_log (put s (goto p k)) (p_pid p) (EOut st txt))
  | Perror msg k => Some (add_log (put s (goto p k)) (p_pid p) (EPerror msg))
  | Get l k => match p_mem p l with Some v => Some (put s (goto p (k v))) | None => None end
  | Set_ l v k => Some (put s (goto (with_mem p (mem_set (p_mem p) l v)) k))
  | Call c k => do_call s p o c k
  | Forever f => Some (put s (goto p (pbind (fun _ => Forever f) (T f 0))))
  | Sigreturn m k => Some (put s (goto (with_mask p m) k))
  end.

(** The code after a handler that interrupted [p].  A process that is inside a call
    comes out of it; a process that had not entered it yet will. *)
Definition resume (p : proc) (restart : bool) (o : Z) : prog unit :=
  if p_blocked p then
    match p_code p with
    | Call (Sleep _) k => k (o, 0)
    | Call Pause k | Call (Nanosleep _) k => k (-1, 0)
    | Call (Wait nohang) k => if restart then p_code p else k (-1, 0)
    | c => c
    end
  else p_code p.

Definition handler_mask (p : proc) (act : sigact) (sig : Z) : Z :=
  settable (Z.lor (Z.lor (p_mask p) (sa_mask act))
    (if Z.land (sa_flags act) SA_NODEFER =? 0 then sigmask sig else 0)).

Definition deliver (T : table) (s : sys) (p : proc) (sig o : Z) : option sys :=
  let q := with_pend p (sigdelset (p_pend p) sig) in
  let act := p_act p sig in
  match sa_handler act with
  | SIG_IGN => Some (put s q)
  | SIG_DFL => Some (if default_ignored sig then put s q else do_exit s q sig)
  | SIG_FN f =>
      let restart := negb (Z.land (sa_flags act) SA_RESTART =? 0) in
      let acts := if Z.land (sa_flags act) SA_RESETHAND =? 0 then p_act p
                  else fun x => if x =? sig then act_default else p_act p x in
      let h := goto (with_act (with_mask q (handler_mask p act sig)) acts)
                    (pbind (fun _ => Sigreturn (p_mask p) (resume p restart o)) (T f sig)) in
      Some (add_log (put s h) (p_pid p) (EHandler sig))
  end.

(** ** Moves *)

Inductive move :=
| Run (pid o : Z)              (* the process makes a step *)
| Deliver (pid sig o : Z)      (* a pending signal is delivered; [o] of a sleep are left *)
| Wake (pid : Z)               (* a sleep is over *)
| Send (pid sig : Z).          (* somebody outside sends a signal *)

Definition deliverable (p : proc) (sig : Z) : bool :=
  (1 <=? sig) && sigismember (p_pend p) sig && negb (sigismember (p_mask p) sig).

Definition wake (s : sys) (p : proc) : option sys :=
  if p_blocked p then
    match p_code p with
    | Call (Sleep _) k | Call (Nanosleep _) k => answer s p k (0, 0)
    | _ => None
    end
  else None.

(** [None]: the move is not possible. *)
Definition step (T : table) (s : sys) (m : move) : option sys :=
  let on pid f := match find_pid pid (procs s) with
                  | Some p => if dead p then None else f p
                  | None => None
                  end in
  match m with
  | Run pid o => on pid (fun p => run1 T s p o)
  | Deliver pid sig o => on pid (fun p => if deliverable p sig then deliver T s p sig o else None)
  | Wake pid => on pid (wake s)
  | Send pid sig => on pid (fun p => Some (Sys (post_signal pid sig (procs s)) (plog s)))
  end.

Fixpoint steps (T : table) (s : sys) (ms : list move) : option sys :=
  match ms with
  | [] => Some s
  | m :: ms' => match step T s m with Some s' => steps T s' ms' | None => None end
  end.

(** Moves that nobody outside makes. *)
Definition internal (m : move) : bool := match m with Send _ _ => false | _ => true end.

(** ** Schedules *)

Create HintDb proc.

Lemma steps_app T s ms ms' :
  steps T s (ms ++ ms') = match steps T s ms with Some s' => steps T s' ms' | None => None end.
Proof. revert s. induction ms as [|m ms IH]; intros s; cbn; [done|]. by destruct (step T s m). Qed.

(** What holds at the start and is kept by every allowed move holds after every
    schedule of allowed moves. *)
Lemma moves_inv T (ok : move -> Prop) (I : sys -> Prop) s ms s' :
  (forall s m s', ok m -> I s -> step T s m = Some s' -> I s') ->
  I s -> Forall ok ms -> steps T s ms = Some s' -> I s'.
Proof.
  intros Hstep Hs Hok. revert s Hs. induction Hok as [|m ms Hm Hms IH]; intros s Hs; cbn; [by intros [= <-]|].
  destruct (step T s m) eqn:E; [|done]. intros Hr. by eapply IH; [eapply Hstep|].
Qed.

(** ** Processes are separate *)

(** What a process has for itself. *)
Definition image (p : proc) :=
  (p_code p, p_mem p, p_blocked p, p_mask p, p_act p, p_zombie p).

Definition mover (m : move) : option Z :=
  match m with Run p _ | Deliver p _ _ | Wake p => Some p | Send _ _ => None end.

Lemma find_pid_eq pid ps p : find_pid pid ps = Some p -> p_pid p = pid.
Proof. intros [_ E]%List.find_some. by apply Z.eqb_eq. Qed.

(** An operation that keeps the number and the image of a process. *)
Lemma find_map f pid ps p' :
  (forall q, p_pid (f q) = p_pid q) -> find_pid pid (map f ps) = Some p' ->
  exists p, find_pid pid ps = Some p /\ p' = f p.
Proof.
  intros Hf. unfold find_pid. induction ps as [|q ps IH]; cbn; [done|]. rewrite Hf.
  destruct (p_pid q =? pid); [|done]. intros [= <-]. by exists q.
Qed.

Lemma find_filter f pid ps p' :
  (forall q, p_pid q = pid -> In q ps -> f q = true) -> find_pid pid (List.filter f ps) = Some p' ->
  find_pid pid ps = Some p'.
Proof.
  unfold find_pid. induction ps as [|q ps IH]; cbn; [done|]. intros Hf.
  destruct (Z.eqb_spec (p_pid q) pid) as [E|E].
  - rewrite (Hf q E (or_introl eq_refl)). cbn. by rewrite (proj2 (Z.eqb_eq _ _) E).
  - intros H. apply IH; [intros q' ? ?; apply Hf; auto|]. destruct (f q); [|done]. cbn in H.
    by rewrite (proj2 (Z.eqb_neq _ _) E) in H.
Qed.

Lemma find_put pid p ps p' :
  pid <> p_pid p -> find_pid pid (put_proc p ps) = Some p' -> find_pid pid ps = Some p'.
Proof.
  intros Hn (q & Hq & ->)%find_map.
  - assert (p_pid q = pid) as E by by eapply find_pid_eq. by rewrite (proj2 (Z.eqb_neq _ _)) by congruence.
  - intros q. destruct (Z.eqb_spec (p_pid q) (p_pid p)); congruence.
Qed.

Lemma find_del pid pid' ps p' :
  pid <> pid' -> find_pid pid (del_pid pid' ps) = Some p' -> find_pid pid ps = Some p'.
Proof. intros Hn. apply find_filter. intros q E _. by rewrite (proj2 (Z.eqb_neq _ _)) by congruence. Qed.

(** The table after an operation has no other image for [b]. *)
Definition keeps (b : Z) (ps ps' : list proc) : Prop :=
  forall p', find_pid b ps' = Some p' -> exists p, find_pid b ps = Some p /\ image p' = image p.

#[export] Instance keeps_preorder b : PreOrder (keeps b).
Proof.
  split; [by intros ps p' H; exists p'|]. intros x y z H1 H2 p' (p & Hp & E)%H2.
  destruct (H1 _ Hp) as (p0 & H0 & E0). exists p0. split; [done|congruence].
Qed.

Lemma keeps_map b f ps :
  (forall q, p_pid (f q) = p_pid q) -> (forall q, image (f q) = image q) -> keeps b ps (map f ps).
Proof. intros Hf Hi p' (p & Hp & ->)%find_map; [|done]. exists p. by rewrite Hi. Qed.

Lemma keeps_put b p ps : b <> p_pid p -> keeps b ps (put_proc p ps).
Proof. intros Hn p' H%find_put; [|done]. by exists p'. Qed.

Lemma keeps_del b pid ps : b <> pid -> keeps b ps (del_pid pid ps).
Proof. intros Hn p' H%find_del; [|done]. by exists p'. Qed.

Lemma keeps_post b pid sig ps : keeps b ps (post_signal pid sig ps).
Proof. apply keeps_map; intros q; by destruct (_ && _). Qed.

(** Pids are unique, and a process that is gone does not come back under a filter. *)
Definition unique_pids (s : sys) : Prop := List.NoDup (map p_pid (procs s)).

Lemma unique_filter f ps : List.NoDup (map p_pid ps) -> List.NoDup (map p_pid (List.filter f ps)).
Proof.
  induction ps as [|q ps IH]; cbn; [done|]. intros [Hq Hn]%List.NoDup_cons_iff. destruct (f q); [|auto].
  cbn. constructor; [|auto]. intros (x & E & Hx)%List.in_map_iff. apply Hq. rewrite <- E.
  apply List.in_map. by apply (List.filter_In f x ps).
Qed.

Lemma unique_map f ps : (forall q, p_pid (f q) = p_pid q) ->
  List.NoDup (map p_pid ps) -> List.NoDup (map p_pid (map f ps)).
Proof. intros Hf Hn. rewrite List.map_map. by rewrite (List.map_ext _ p_pid Hf). Qed.

Lemma find_in pid ps p : List.NoDup (map p_pid ps) -> In p ps -> p_pid p = pid -> find_pid pid ps = Some p.
Proof.
  unfold find_pid. induction ps as [|q ps IH]; cbn; [done|]. intros [Hq Hn]%List.NoDup_cons_iff [-> | Hp] E.
  - by rewrite (proj2 (Z.eqb_eq _ _) E).
  - rewrite (proj2 (Z.eqb_neq _ _)); [auto|]. intros E'. apply Hq. rewrite E', <- E. by apply List.in_map.
Qed.

Lemma keeps_filter b f ps : List.NoDup (map p_pid ps) -> keeps b ps (List.filter f ps).
Proof.
  intros Hn p' Hp. exists p'. split; [|done]. apply List.find_some in Hp as [[Hi _]%List.filter_In E].
  apply find_in; [done..|]. by apply Z.eqb_eq.
Qed.

Lemma keeps_disown b pid ps : List.NoDup (map p_pid ps) -> keeps b ps (disown pid ps).
Proof.
  intros Hn. etransitivity; [by apply (keeps_filter b)|]. apply keeps_map; intros q; by destruct (_ =? _).
Qed.

Lemma unique_disown pid ps : List.NoDup (map p_pid ps) -> List.NoDup (map p_pid (disown pid ps)).
Proof.
  intros Hn. apply unique_map; [intros q; by destruct (_ =? _)|]. by apply unique_filter.
Qed.

Lemma unique_put p ps : List.NoDup (map p_pid ps) -> List.NoDup (map p_pid (put_proc p ps)).
Proof. apply unique_map. intros q. by destruct (Z.eqb_spec (p_pid q) (p_pid p)). Qed.

Lemma unique_post pid sig ps :
  List.NoDup (map p_pid ps) -> List.NoDup (map p_pid (post_signal pid sig ps)).
Proof. apply unique_map. intros q. by destruct (_ && _). Qed.

#[export] Hint Resolve unique_disown unique_put unique_post unique_filter keeps_post keeps_put keeps_del
  keeps_disown keeps_filter : proc.

(** *** Every move keeps the numbers unique and the others' images *)

Lemma answer_keeps b s p k r s' : b <> p_pid p -> answer s p k r = Some s' -> keeps b (procs s) (procs s').
Proof. intros Hn [= <-]. by apply keeps_put. Qed.

Lemma answer_unique s p k r s' : unique_pids s -> answer s p k r = Some s' -> unique_pids s'.
Proof. intros Hu [= <-]. by apply unique_put. Qed.

Lemma do_exit_spec b s p st : unique_pids s ->
  unique_pids (do_exit s p st) /\ (b <> p_pid p -> keeps b (procs s) (procs (do_exit s p st))).
Proof.
  intros Hu. unfold do_exit, unique_pids. cbn [procs add_log].
  pose proof (keeps_disown b (p_pid p) _ Hu) as Hk. pose proof (unique_disown (p_pid p) _ Hu) as Hd.
  destruct (_ =? 1); [split; [by apply unique_filter|]; intros; etransitivity; [done|by apply keeps_del]|].
  destruct (find_pid _ _) as [q|].
  - destruct (auto_reap _); (split; [apply unique_post; first [by apply unique_filter | by apply unique_put]|]);
      intros; (etransitivity; [done|]); (etransitivity; [|apply keeps_post]);
      first [by apply keeps_del | by apply keeps_put].
  - split; [by apply unique_put|]. intros. etransitivity; [done|]. by apply keeps_put.
Qed.

Lemma fresh_find o ps : fresh o ps = true -> find_pid o ps = None.
Proof.
  intros [_ H]%andb_prop. apply negb_true_iff in H. unfold find_pid.
  destruct (List.find _ ps) eqn:E; [|done]. apply List.find_some in E as [Hi E].
  assert (existsb (fun q => (p_pid q =? o) || (p_ppid q =? o)) ps = true); [|congruence].
  apply existsb_exists. exists p. by rewrite E.
Qed.

Lemma find_app b ps qs : find_pid b (ps ++ qs) = match find_pid b ps with Some p => Some p | None => find_pid b qs end.
Proof. unfold find_pid. induction ps as [|q ps IH]; cbn; [done|]. by destruct (_ =? _). Qed.

Lemma unique_app ps o child : p_pid child = o -> find_pid o ps = None ->
  List.NoDup (map p_pid ps) -> List.NoDup (map p_pid (ps ++ [child])).
Proof.
  intros <- Hf Hn. rewrite List.map_app. apply List.NoDup_app; [done|repeat constructor; by intros []|].
  intros x (q & <- & Hq)%List.in_map_iff [E | []]. by rewrite (find_in _ _ _ Hn Hq) in Hf.
Qed.

(** What one move may do to the table, seen by a process other than the mover. *)
Definition frame (b : Z) (p : proc) (s s' : sys) : Prop :=
  unique_pids s' /\
  (b <> p_pid p -> forall q q', find_pid b (procs s) = Some q -> find_pid b (procs s') = Some q' ->
     image q' = image q).

Lemma frame_keeps b p s s' :
  unique_pids s' -> (b <> p_pid p -> keeps b (procs s) (procs s')) -> frame b p s s'.
Proof.
  intros Hu Hk. split; [done|]. intros Hn q q' Hq Hq'. destruct (Hk Hn _ Hq') as (q0 & H0 & E). congruence.
Qed.

Lemma frame_answer b s0 s p p' k r s' :
  unique_pids s0 -> (b <> p_pid p -> keeps b (procs s) (procs s0)) -> p_pid p' = p_pid p ->
  answer s0 p' k r = Some s' -> frame b p s s'.
Proof.
  intros Hu Hk Hp Ha. apply frame_keeps; [by eapply answer_unique|]. intros Hn. etransitivity; [by apply Hk|].
  eapply answer_keeps; [|done]. congruence.
Qed.

Lemma frame_put b s p p' :
  unique_pids s -> p_pid p' = p_pid p -> frame b p s (put s p').
Proof. intros Hu Hp. apply frame_keeps; [by apply unique_put|]. intros. apply keeps_put. congruence. Qed.

Lemma do_wait_frame b s p o nh k s' : unique_pids s -> do_wait s p o nh k = Some s' -> frame b p s s'.
Proof.
  intros Hu. unfold do_wait.
  assert ((if existsb (fun q => child_of (p_pid p) q && dead q) (procs s) then None
      else if negb (existsb (child_of (p_pid p)) (procs s)) then answer s p k (-1, 0)
      else if nh then answer s p k (0, 0)
      else if p_blocked p then None else Some (put s (block p))) = Some s' -> frame b p s s') as Hrest.
  { intros H. repeat case_match; simplify_eq; try by eapply frame_answer. by apply frame_put. }
  destruct (find_pid o (procs s)) as [[o' pp ? ? ? ? ? ? [st|]]|] eqn:Ef; [|exact Hrest..].
  destruct (pp =? p_pid p); [|done]. apply frame_answer; cbn; [by apply unique_filter|intros _; by apply keeps_filter|done].
Qed.

Lemma do_call_frame b s p o c k s' :
  unique_pids s -> do_call s p o c k = Some s' -> frame b p s s'.
Proof.
  intros Hu. destruct c; cbn [do_call].
  - destruct (fresh o (procs s)) eqn:Ef; [|by eapply frame_answer].
    pose proof (fresh_find _ _ Ef) as Hf. intros [= <-]. split.
    + apply unique_put. cbn. by eapply unique_app.
    + intros Hn q q' Hq Hq'%find_put; [|done]. cbn [procs] in Hq'. rewrite find_app, Hq in Hq'. congruence.
  - by eapply frame_answer.
  - by eapply frame_answer.
  - by apply do_wait_frame.
  - case_match; [done|]. intros [= <-]. by apply frame_put.
  - case_match; [done|]. intros [= <-]. by apply frame_put.
  - case_match; [done|]. intros [= <-]. by apply frame_put.
  - destruct (find_pid pid (procs s)); [|by eapply frame_answer]. destruct (sig =? 0); [by eapply frame_answer|].
    destruct (pid =? p_pid p); [by eapply frame_answer|]. apply frame_answer; [by apply unique_post|intros _; apply keeps_post|done].
  - case_match; by eapply frame_answer.
  - by eapply frame_answer.
  - repeat case_match; by eapply frame_answer.
  - by eapply frame_answer.
Qed.

Lemma frame_log b p s s' pid e : frame b p s s' -> frame b p s (add_log s' pid e).
Proof. done. Qed.

Lemma do_exit_frame b s p p' st : unique_pids s -> p_pid p' = p_pid p -> frame b p s (do_exit s p' st).
Proof. intros Hu Hp. destruct (do_exit_spec b s p' st Hu) as [H1 H2]. apply frame_keeps; [done|]. by rewrite <- Hp. Qed.

Lemma run1_frame b T s p o s' : unique_pids s -> run1 T s p o = Some s' -> frame b p s s'.
Proof.
  intros Hu. unfold run1. destruct (p_code p); try (intros [= <-]; by apply frame_put).
  - intros [= <-]. by apply do_exit_frame.
  - case_match; [|done]. intros [= <-]. by apply frame_put.
  - by apply do_call_frame.
Qed.

Lemma deliver_frame b T s p sig o s' : unique_pids s -> deliver T s p sig o = Some s' -> frame b p s s'.
Proof.
  intros Hu. unfold deliver. destruct (sa_handler _).
  - destruct (default_ignored sig); intros [= <-]; [by apply frame_put|by apply do_exit_frame].
  - intros [= <-]. by apply frame_put.
  - intros [= <-]. by apply frame_put.
Qed.

Lemma step_frame T s m s' : unique_pids s -> step T s m = Some s' ->
  unique_pids s' /\ forall b q q', mover m <> Some b ->
    find_pid b (procs s) = Some q -> find_pid b (procs s') = Some q' -> image q' = image q.
Proof.
  intros Hu.
  assert (forall pid f, (forall b p, f p = Some s' -> frame b p s s') ->
    match find_pid pid (procs s) with Some p => if dead p then None else f p | None => None end = Some s' ->
    unique_pids s' /\ forall b q q', Some pid <> Some b ->
    find_pid b (procs s) = Some q -> find_pid b (procs s') = Some q' -> image q' = image q) as Hon.
  { intros pid f Hf. destruct (find_pid pid _) as [p|] eqn:Ep; [|done]. destruct (dead p); [done|]. intros E.
    split; [exact (proj1 (Hf 0 _ E))|]. intros b q q' Hn. apply (proj2 (Hf b _ E)).
    rewrite (find_pid_eq _ _ _ Ep). congruence. }
  destruct m; cbn [step mover].
  - apply Hon. intros b p. by apply run1_frame.
  - apply Hon. intros b p. destruct (deliverable p sig); [by apply deliver_frame|done].
  - apply Hon. intros b p. unfold wake. repeat case_match; try done; by eapply frame_answer.
  - destruct (find_pid pid _) as [p|]; [|done]. destruct (dead p); [done|]. intros [= <-].
    split; [by apply unique_post|]. intros b q q' _ Hq Hq'.
    destruct (keeps_post b pid sig _ _ Hq') as (q0 & H0 & E). congruence.
Qed.

(** ** Processes that depend on nobody

    What a process prints that makes no calls whose answers depend on others (it may
    ask for its number, sleep and free memory) is fixed by its code and its memory,
    whatever the others do. *)

(** What [pid] did. *)
Definition proj (pid : Z) (l : list (Z * pevent)) : list pevent :=
  map snd (List.filter (fun e => fst e =? pid) l).

Definition exit_status (code : Z) : Z := Z.shiftl (Z.land code 255) 8.

(** The rest of the output of [c] in process [pid], if it is such a program and
    reads nothing that was not written. *)
Fixpoint transcript (pid : Z) (c : prog unit) (m : pmem) : option (list pevent) :=
  match c with
  | Exit x => Some [EExit (exit_status x)]
  | Out s t k => cons (EOut s t) <$> transcript pid k m
  | Perror t k => cons (EPerror t) <$> transcript pid k m
  | Get l k => match m l with Some v => transcript pid (k v) m | None => None end
  | Set_ l v k => transcript pid k (mem_set m l v)
  | Call (Free q) k => transcript pid (k (0, 0)) (mem_free m q)
  | Call Getpid k => transcript pid (k (pid, 0)) m
  | Call (Sleep _) k | Call (Nanosleep _) k => transcript pid (k (0, 0)) m
  | _ => None
  end.

Lemma transcript_assoc {A B} pid (f : B -> prog unit) (g : A -> prog B) c : forall m,
  transcript pid (pbind f (pbind g c)) m = transcript pid (pbind (fun x => pbind f (g x)) c) m.
Proof.
  induction c as [a|x|s t k IH|t k IH|l k IH|l v k IH|c k IH|h|m' k IH]; intros m; cbn; try done.
  - by rewrite IH.
  - by rewrite IH.
  - by destruct (m l).
  - by destruct c.
Qed.

(** A process that goes on: only its code, its memory and whether it is inside a call
    change. *)
Definition advanced (p p' : proc) : Prop :=
  p_pid p' = p_pid p /\ p_ppid p' = p_ppid p /\ p_mask p' = p_mask p /\ p_pend p' = p_pend p /\
  p_act p' = p_act p /\ p_zombie p' = p_zombie p.

(** A step of such a program is the next part of its transcript, or its end. *)
Lemma transcript_run T s p o s' t : transcript (p_pid p) (p_code p) (p_mem p) = Some t -> run1 T s p o = Some s' ->
  (exists x, t = [EExit (exit_status x)] /\ s' = do_exit s p (exit_status x)) \/
  (exists p' es t', s' = Sys (put_proc p' (procs s)) (plog s ++ map (pair (p_pid p)) es) /\ advanced p p' /\
     t = es ++ t' /\ transcript (p_pid p) (p_code p') (p_mem p') = Some t').
Proof.
  set (next := fun s1 => exists p' es t', s1 = Sys (put_proc p' (procs s)) (plog s ++ map (pair (p_pid p)) es) /\
    advanced p p' /\ t = es ++ t' /\ transcript (p_pid p) (p_code p') (p_mem p') = Some t').
  assert (forall p', advanced p p' -> transcript (p_pid p) (p_code p') (p_mem p') = Some t -> next (put s p')) as Hgo.
  { intros p' Ha Ht. exists p', [], t. cbn [map]. by rewrite app_nil_r. }
  intros Et. unfold run1. destruct (p_code p) as [| |st txt k|txt k|l k|l v k|c k| |] eqn:Ec; cbn [transcript] in Et; try done.
  - intros [= <-]. left. exists code. by simplify_eq.
  - intros [= <-]. destruct (transcript (p_pid p) k (p_mem p)) as [t'|] eqn:Et'; [|done]. simplify_eq/=. right.
    by exists (goto p k), [EOut st txt], t'.
  - intros [= <-]. destruct (transcript (p_pid p) k (p_mem p)) as [t'|] eqn:Et'; [|done]. simplify_eq/=. right.
    by exists (goto p k), [EPerror txt], t'.
  - destruct (p_mem p l) as [v|]; [|done]. intros [= <-]. right. by apply Hgo.
  - intros [= <-]. right. by apply Hgo.
  - intros E. right. destruct c; try done; cbn [do_call answer] in E; try (destruct (p_blocked p); [done|]); injection E as <-;
      apply Hgo; try done; cbn; by rewrite Ec.
Qed.

Lemma transcript_wake s p s' t : transcript (p_pid p) (p_code p) (p_mem p) = Some t -> wake s p = Some s' ->
  exists p', s' = Sys (put_proc p' (procs s)) (plog s) /\ advanced p p' /\
    transcript (p_pid p) (p_code p') (p_mem p') = Some t.
Proof.
  intros Et. unfold wake. destruct (p_blocked p); [|done].
  destruct (p_code p) as [| | | | | |[] k| |] eqn:Ec; try done; intros [= <-]; by exists (goto p (k (0, 0))).
Qed.

Record private_proc (out : Z -> list pevent) (log : list (Z * pevent)) (p : proc) : Prop := PrivateProc {
  pp_out : exists t, transcript (p_pid p) (p_code p) (p_mem p) = Some t /\ proj (p_pid p) log ++ t = out (p_pid p);
  pp_act : p_act p SIGCHLD = act_default;
  pp_pend : forall sig, 1 <= sig -> sigismember (p_pend p) sig = true -> sig = SIGCHLD }.

(** Every process makes no calls any more and will have done [out]. *)
Record private_sys (out : Z -> list pevent) (s : sys) : Prop := PrivateSys {
  ps_unique : unique_pids s;
  ps_live : forall p, In p (procs s) -> dead p = false -> private_proc out (plog s) p;
  ps_done : forall pid, (forall p, In p (procs s) -> p_pid p = pid -> dead p = true) ->
            proj pid (plog s) = out pid }.

Lemma proj_app pid l l' : proj pid (l ++ l') = proj pid l ++ proj pid l'.
Proof. unfold proj. by rewrite List.filter_app, List.map_app. Qed.

Lemma proj_own pid l e : proj pid (l ++ [(pid, e)]) = proj pid l ++ [e].
Proof. rewrite proj_app. unfold proj at 2. cbn. by rewrite Z.eqb_refl. Qed.

Lemma proj_other pid pid' l e : pid <> pid' -> proj pid (l ++ [(pid', e)]) = proj pid l.
Proof.
  intros Hn. rewrite proj_app. unfold proj at 2. cbn. rewrite (proj2 (Z.eqb_neq _ _)) by congruence.
  apply app_nil_r.
Qed.

Lemma proj_map pid l es : proj pid (l ++ map (pair pid) es) = proj pid l ++ es.
Proof.
  induction es as [|e es IH] using rev_ind; cbn; [by rewrite !app_nil_r|].
  rewrite List.map_app. cbn. rewrite !app_assoc. by rewrite proj_own, IH.
Qed.

Lemma proj_map_other pid pid' l es : pid <> pid' -> proj pid (l ++ map (pair pid') es) = proj pid l.
Proof.
  intros Hn. induction es as [|e es IH] using rev_ind; cbn; [by rewrite app_nil_r|].
  rewrite List.map_app. cbn. rewrite app_assoc. by rewrite proj_other.
Qed.

Lemma in_put q p ps : In q (put_proc p ps) -> q = p \/ In q ps /\ p_pid q <> p_pid p.
Proof.
  intros (q0 & E & Hq)%List.in_map_iff. destruct (Z.eqb_spec (p_pid q0) (p_pid p)); subst; auto.
Qed.

Lemma put_in p ps q : In q ps -> p_pid q = p_pid p -> In p (put_proc p ps).
Proof. intros Hq E. apply List.in_map_iff. exists q. by rewrite (proj2 (Z.eqb_eq _ _) E). Qed.

Lemma in_put_other q p ps : p_pid q <> p_pid p -> In q ps -> In q (put_proc p ps).
Proof. intros Hn Hq. apply List.in_map_iff. exists q. by rewrite (proj2 (Z.eqb_neq _ _) Hn). Qed.

Lemma unique_in s p q : unique_pids s -> In p (procs s) -> In q (procs s) -> p_pid p = p_pid q -> p = q.
Proof.
  intros Hu Hp Hq E. pose proof (find_in _ _ _ Hu Hp eq_refl). pose proof (find_in _ _ _ Hu Hq eq_refl). congruence.
Qed.

Lemma sigismember_add set sig sig' : 1 <= sig -> 1 <= sig' ->
  sigismember (sigaddset set sig) sig' = sigismember set sig' || (sig =? sig').
Proof.
  intros H H'. unfold sigismember, sigaddset, sigmask. rewrite Z.lor_spec. f_equal.
  rewrite Z.shiftl_1_l, Z.pow2_bits_eqb by lia. zbool; (lia || done).
Qed.

Lemma sigismember_del set sig sig' : 1 <= sig -> 1 <= sig' ->
  sigismember (sigdelset set sig) sig' = sigismember set sig' && negb (sig =? sig').
Proof.
  intros H H'. unfold sigismember, sigdelset, sigmask. rewrite Z.ldiff_spec. f_equal. f_equal.
  rewrite Z.shiftl_1_l, Z.pow2_bits_eqb by lia. zbool; (lia || done).
Qed.

(** What is left of another process when [p] dies. *)
Definition survives (q q' : proc) : Prop :=
  p_pid q' = p_pid q /\ image q' = image q /\
  (p_pend q' = p_pend q \/ p_pend q' = sigaddset (p_pend q) SIGCHLD).

Lemma survives_refl q : survives q q.
Proof. repeat split; auto. Qed.

Lemma in_disown q pid ps : In q (disown pid ps) -> exists q0, In q0 ps /\ survives q0 q.
Proof.
  intros (q0 & E & [Hq _]%List.filter_In)%List.in_map_iff. exists q0. split; [done|].
  destruct (_ =? _); subst; [|apply survives_refl]. repeat split; auto.
Qed.

Lemma in_post q pid ps : In q (post_signal pid SIGCHLD ps) ->
  exists q0, In q0 ps /\ p_pid q = p_pid q0 /\ image q = image q0 /\ p_ppid q = p_ppid q0 /\
    (p_pend q = p_pend q0 \/ p_pend q = sigaddset (p_pend q0) SIGCHLD).
Proof.
  intros (q0 & E & Hq)%List.in_map_iff. exists q0. split; [done|].
  destruct (_ && _); subst; cbn; auto.
Qed.

Lemma in_del q pid ps : In q (del_pid pid ps) -> In q ps /\ p_pid q <> pid.
Proof. intros [Hq Hn]%List.filter_In. split; [done|]. apply negb_true_iff in Hn. by apply Z.eqb_neq. Qed.

Lemma disown_in q pid ps : In q ps -> dead q = false -> exists q', In q' (disown pid ps) /\ survives q q'.
Proof.
  intros Hq Hd. unfold disown. eexists. split.
  - apply List.in_map_iff. exists q. split; [reflexivity|]. apply List.filter_In. split; [done|].
    by rewrite Hd, andb_false_r.
  - destruct (_ =? _); [|apply survives_refl]. repeat split; auto.
Qed.

Lemma image_dead q q' : image q' = image q -> dead q' = dead q.
Proof. unfold dead. by intros [= _ _ _ _ _ ->]. Qed.

(** After the death of [p] the table has its zombie, if any, and the other
    processes; no living process is lost. *)
Lemma do_exit_in s p st q' : In q' (procs (do_exit s p st)) ->
  p_pid q' = p_pid p /\ dead q' = true \/
  p_pid q' <> p_pid p /\ exists q, In q (procs s) /\ survives q q'.
Proof.
  unfold do_exit. cbn [procs add_log]. set (ps := disown (p_pid p) (procs s)).
  assert (forall q, In q ps -> exists q0, In q0 (procs s) /\ survives q0 q /\ p_pend q = p_pend q0) as Hd.
  { intros q (q0 & E & [Hq _]%List.filter_In)%List.in_map_iff. exists q0. split; [done|].
    destruct (_ =? _); subst; repeat split; auto. }
  assert (forall q, In q (del_pid (p_pid p) ps) \/ In q (put_proc (with_zombie p st) ps) ->
    p_pid q = p_pid p /\ dead q = true \/
    p_pid q <> p_pid p /\ exists q0, In q0 (procs s) /\ survives q0 q /\ p_pend q = p_pend q0) as H.
  { intros q [[Hq Hn]%in_del | [-> | [Hq Hn]]%in_put]; auto. }
  destruct (_ =? 1); [intros Hq; destruct (H _ (or_introl Hq)); naive_solver|].
  destruct (find_pid _ _) as [q|]; [|intros Hq; destruct (H _ (or_intror Hq)); naive_solver].
  intros (q0 & Hq & E & Ei & _ & Hpend)%in_post.
  destruct (H q0) as [[E1 E2] | (E1 & q1 & Hq1 & (S1 & S2 & _) & S4)]; [destruct (auto_reap _); auto|..].
  - left. split; [congruence|]. by rewrite (image_dead _ _ Ei).
  - right. split; [congruence|]. exists q1. split; [done|]. unfold survives. rewrite <- S4.
    split; [congruence|]. split; [congruence|done].
Qed.

Lemma do_exit_live s p st q : In q (procs s) -> dead q = false -> p_pid q <> p_pid p ->
  exists q', In q' (procs (do_exit s p st)) /\ p_pid q' = p_pid q /\ dead q' = false.
Proof.
  intros Hq Hd Hn. unfold do_exit. cbn [procs add_log].
  destruct (disown_in q (p_pid p) _ Hq Hd) as (q1 & Hq1 & E1 & Ei & _).
  rewrite <- E1 in Hn. rewrite <- (image_dead _ _ Ei) in Hd. rewrite <- E1. clear Hq E1 Ei q.
  assert (In q1 (del_pid (p_pid p) (disown (p_pid p) (procs s)))) as Hdel.
  { apply List.filter_In. split; [done|]. apply negb_true_iff. by apply Z.eqb_neq. }
  pose proof (in_put_other _ (with_zombie p st) _ Hn Hq1) as Hput.
  destruct (_ =? 1); [eauto|]. destruct (find_pid _ _) as [r|]; [|eauto].
  set (ps := if auto_reap _ then _ else _). assert (In q1 ps) as Hps by (subst ps; by destruct (auto_reap _)).
  exists (if (p_pid q1 =? p_ppid p) && negb (dead q1) then with_pend q1 (sigaddset (p_pend q1) SIGCHLD) else q1).
  split; [apply List.in_map_iff; by exists q1|]. by destruct (_ && _).
Qed.

Lemma survives_private out log q q' : survives q q' -> private_proc out log q -> private_proc out log q'.
Proof.
  intros (E & [= Ec Em _ _ Ea _] & Hp) [Ho Ha Hs]. constructor.
  - by rewrite E, Ec, Em.
  - by rewrite Ea.
  - intros sig Hsig. destruct Hp as [-> | ->]; [by apply Hs|].
    rewrite sigismember_add by (unfold SIGCHLD; lia). intros [?|?%Z.eqb_eq]%orb_true_iff; [by apply Hs|done].
Qed.

Lemma private_log out log p pid e : p_pid p <> pid -> private_proc out log p -> private_proc out (log ++ [(pid, e)]) p.
Proof. intros Hn [(t & Ht & E) Ha Hs]. constructor; [|done..]. exists t. by rewrite proj_other. Qed.

(** A private process that is replaced by a private process. *)
Lemma private_put out s s' p p' :
  private_sys out s -> In p (procs s) -> dead p = false -> dead p' = false -> p_pid p' = p_pid p ->
  procs s' = put_proc p' (procs s) ->
  private_proc out (plog s') p' -> (forall q, p_pid q <> p_pid p -> private_proc out (plog s) q -> private_proc out (plog s') q) ->
  (forall pid, pid <> p_pid p -> proj pid (plog s') = proj pid (plog s)) -> private_sys out s'.
Proof.
  intros [Hu Hl Hd] Hin Hp Hp' E Eps Hpriv Hother Hproj. constructor.
  - unfold unique_pids. rewrite Eps. by apply unique_put.
  - rewrite Eps. intros q [-> | [Hq Hn]]%in_put Hdq; [done|]. apply Hother; [congruence|auto].
  - rewrite Eps. intros pid Hall. destruct (decide (pid = p_pid p)) as [-> | Hn].
    + specialize (Hall p' (put_in _ _ _ Hin (eq_sym E)) E). congruence.
    + rewrite Hproj by done. apply Hd. intros q Hq Eq. apply Hall; [|done]. apply in_put_other; [congruence|done].
Qed.

Lemma private_exit out s p st :
  private_sys out s -> In p (procs s) -> proj (p_pid p) (plog s) ++ [EExit st] = out (p_pid p) ->
  private_sys out (do_exit s p st).
Proof.
  intros [Hu Hl Hd] Hin Eo. constructor.
  - apply (do_exit_spec 0 s p st Hu).
  - intros q [[_ ?] | (Hn & q0 & Hq0 & Hs)]%do_exit_in Hq; [congruence|]. cbn [plog do_exit add_log].
    apply private_log; [done|]. eapply survives_private; [done|]. destruct Hs as (_ & Ei & _).
    apply Hl; [done|]. by rewrite <- (image_dead _ _ Ei).
  - cbn [plog do_exit add_log]. intros pid Hall. destruct (decide (pid = p_pid p)) as [-> | Hn].
    + by rewrite proj_own.
    + rewrite proj_other by done. apply Hd. intros q Hq Eq. destruct (dead q) eqn:Edq; [done|].
      destruct (do_exit_live s p st q Hq Edq) as (q' & Hq' & Epid & Ed'); [congruence|].
      rewrite (Hall q' Hq') in Ed' by congruence. done.
Qed.

(** The process writes [es] to the log and goes on as [p'] with the rest of its
    transcript. *)
Lemma private_advance out s p p' es t :
  private_sys out s -> In p (procs s) -> dead p = false ->
  p_pid p' = p_pid p -> p_act p' = p_act p -> dead p' = false ->
  (forall sig, 1 <= sig -> sigismember (p_pend p') sig = true -> sigismember (p_pend p) sig = true) ->
  transcript (p_pid p) (p_code p) (p_mem p) = Some (es ++ t) -> transcript (p_pid p) (p_code p') (p_mem p') = Some t ->
  private_sys out (Sys (put_proc p' (procs s)) (plog s ++ map (pair (p_pid p)) es)).
Proof.
  intros Hs Hin Hd E Ea Hd' Hpend Ht Ht'. destruct (ps_live _ _ Hs p Hin Hd) as [(t0 & Et0 & Eo) Hact Hsig].
  assert (t0 = es ++ t) as -> by congruence.
  eapply private_put; try done; cbn [plog].
  - constructor; [|by rewrite Ea|auto]. exists t. rewrite E. split; [done|]. by rewrite proj_map, <- app_assoc.
  - intros q Hn [(t' & Et' & Eq) Ha Hsg]. constructor; [|done..]. exists t'. by rewrite proj_map_other.
  - intros pid Hn. by apply proj_map_other.
Qed.

Lemma private_run out T s p o s' : private_sys out s -> In p (procs s) -> dead p = false ->
  run1 T s p o = Some s' -> private_sys out s'.
Proof.
  intros Hs Hin Hd. destruct (ps_live _ _ Hs p Hin Hd) as [(t & Et & Eo) Hact Hsig].
  intros [(x & -> & ->) | (p' & es & t' & -> & (E1 & E2 & E3 & E4 & E5 & E6) & -> & Et')]%(transcript_run _ _ _ _ _ _ Et);
    [by apply private_exit|].
  apply (private_advance out s p p' es t'); try done; [|by rewrite E4]. by unfold dead in *; rewrite E6.
Qed.

Lemma private_step out T s m s' :
  internal m = true -> private_sys out s -> step T s m = Some s' -> private_sys out s'.
Proof.
  intros Hm Hs. destruct m as [pid o|pid sig o|pid|pid sig]; cbn [step]; [..|done];
    (destruct (find_pid pid (procs s)) as [p|] eqn:Ef; [|done]); (destruct (dead p) eqn:Hd; [done|]);
    pose proof (proj1 (List.find_some _ _ Ef)) as Hin.
  - by apply private_run.
  - destruct (ps_live _ _ Hs p Hin Hd) as [(t & Et & _) Hact Hsig].
    destruct (deliverable p sig) eqn:Edel; [|done]. unfold deliverable in Edel.
    apply andb_prop in Edel as [[Hpos%Z.leb_le Hpd]%andb_prop _].
    assert (sig = SIGCHLD) as -> by auto. unfold deliver. rewrite Hact. cbn [sa_handler act_default default_ignored]. intros [= <-].
    unfold put. rewrite <- (app_nil_r (plog s)). apply (private_advance out s p (with_pend p _) [] t); try done.
    cbn. intros sig' H'. rewrite sigismember_del by lia. by intros [? _]%andb_prop.
  - destruct (ps_live _ _ Hs p Hin Hd) as [(t & Et & _) Hact Hsig]. unfold wake.
    destruct (p_blocked p); [|done]. destruct (p_code p) as [| | | | | |[] k| |] eqn:Ec; try done; intros [= <-];
      unfold put; rewrite <- (app_nil_r (plog s)); apply (private_advance out s p (goto p _) [] t); try done;
      by rewrite Ec.
Qed.

(** Whatever the schedule, a private process has done a prefix of what it will do,
    and all of it when it is dead. *)
Lemma private_steps out T s ms s' : Forall (fun m => internal m = true) ms ->
  private_sys out s -> steps T s ms = Some s' -> private_sys out s'.
Proof.
  intros Hm Hs. eapply (moves_inv T (fun m => internal m = true) (private_sys out)); [|done..].
  intros s1 m s2 H1 H2. by apply private_step.
Qed.

Lemma private_prefix out s pid : private_sys out s -> proj pid (plog s) `prefix_of` out pid.
Proof.
  intros [Hu Hl Hd]. destruct (List.find (fun p => (p_pid p =? pid) && negb (dead p)) (procs s)) as [p|] eqn:E.
  - apply List.find_some in E as [Hin [E%Z.eqb_eq Hp%negb_true_iff]%andb_prop]. subst pid.
    destruct (Hl p Hin Hp) as [(t & _ & Eo) _ _]. by exists t.
  - rewrite (Hd pid); [done|]. intros p Hin Ep. pose proof (List.find_none _ _ E p Hin) as H. cbn in H.
    rewrite (proj2 (Z.eqb_eq _ _) Ep) in H. by apply negb_false_iff in H.
Qed.

(** A living private process can always go on. *)
Lemma private_can_move out T s p : private_proc out (plog s) p -> find_pid (p_pid p) (procs s) = Some p -> dead p = false ->
  exists s', step T s (Run (p_pid p) 0) = Some s' \/ step T s (Wake (p_pid p)) = Some s'.
Proof.
  intros [(t & Et & _) _ _] Hf Hd. cbn [step]. rewrite Hf, Hd. unfold run1, wake.
  destruct (p_code p) as [| | | |l k| |[] k| |]; cbn [transcript] in Et; try done; cbn;
    try (destruct (p_blocked p)); try (by eexists; left); try (by eexists; right).
  - destruct (p_mem p l); [by eexists; left|done].
  - destruct (p_mem p l); [by eexists; left|done].
Qed.

Lemma private_progress out T s p : private_sys out s -> In p (procs s) -> dead p = false ->
  exists s', step T s (Run (p_pid p) 0) = Some s' \/ step T s (Wake (p_pid p)) = Some s'.
Proof.
  intros Hs Hin Hd. apply (private_can_move out); [by apply ps_live|by apply find_in; [apply (ps_unique _ _ Hs)|..]|done].
Qed.

(** The number of steps a private process has left. *)
Fixpoint path_len (pid : Z) (c : prog unit) (m : pmem) : nat :=
  match c with
  | Exit _ => 1
  | Out _ _ k | Perror _ k => S (path_len pid k m)
  | Get l k => S (match m l with Some v => path_len pid (k v) m | None => 0 end)
  | Set_ l v k => S (path_len pid k (mem_set m l v))
  | Call (Free q) k => S (path_len pid (k (0, 0)) (mem_free m q))
  | Call Getpid k => S (path_len pid (k (pid, 0)) m)
  | Call (Sleep _) k | Call (Nanosleep _) k => S (S (path_len pid (k (0, 0)) m))
  | _ => 0
  end.

Definition asleep (p : proc) : nat :=
  match p_code p with
  | Call (Sleep _) _ | Call (Nanosleep _) _ => if p_blocked p then 1 else 0
  | _ => 0
  end.

Definition left_of (p : proc) : nat :=
  if dead p then 0 else path_len (p_pid p) (p_code p) (p_mem p) - asleep p.

Definition steps_left (s : sys) (pid : Z) : nat :=
  match find_pid pid (procs s) with Some p => left_of p | None => 0 end.

(** The moves by which [pid] goes on: all but the delivery of signals. *)
Definition advances (pid : Z) (m : move) : bool :=
  match m with Run q _ | Wake q => q =? pid | _ => false end.

Definition moves_of (pid : Z) (ms : list move) : nat := length (List.filter (advances pid) ms).

Lemma find_put_same p ps q : find_pid (p_pid p) ps = Some q -> find_pid (p_pid p) (put_proc p ps) = Some p.
Proof.
  unfold find_pid, put_proc. induction ps as [|r ps IH]; cbn; [done|].
  destruct (Z.eqb_spec (p_pid r) (p_pid p)) as [E|E]; cbn; [by rewrite Z.eqb_refl|].
  by rewrite (proj2 (Z.eqb_neq _ _) E).
Qed.

(** What is left of a process after it was replaced, and after it died. *)
Lemma steps_left_put s p p' l : find_pid (p_pid p) (procs s) = Some p -> p_pid p' = p_pid p ->
  steps_left (Sys (put_proc p' (procs s)) l) (p_pid p) = left_of p'.
Proof.
  intros Hf E. rewrite <- E in Hf |- *. unfold steps_left. cbn [procs]. by rewrite (find_put_same _ _ _ Hf).
Qed.

Lemma steps_left_exit s p st : steps_left (do_exit s p st) (p_pid p) = 0%nat.
Proof.
  unfold steps_left. destruct (find_pid (p_pid p) (procs (do_exit s p st))) as [q|] eqn:Eq; [|done].
  pose proof (find_pid_eq _ _ _ Eq). apply List.find_some in Eq as [Hq _].
  apply do_exit_in in Hq as [[_ E] | (? & _)]; [|congruence]. unfold left_of. by rewrite E.
Qed.

(** A move of the process itself takes one from what is left. *)
Lemma private_own out T s p o s' : private_sys out s -> In p (procs s) -> dead p = false ->
  run1 T s p o = Some s' \/ wake s p = Some s' -> (S (steps_left s' (p_pid p)) <= left_of p)%nat.
Proof.
  intros Hs Hin Hd. destruct (ps_live _ _ Hs p Hin Hd) as [(t & Et & Eo) _ _].
  pose proof (find_in _ _ _ (ps_unique _ _ Hs) Hin eq_refl) as Hf.
  pose proof (fun p' l E => steps_left_put s p p' l Hf E) as Hput.
  unfold run1, wake, left_of, asleep, answer, put. rewrite Hd.
  destruct (p_code p) as [| | | |l k| |[] k| |] eqn:Ec; cbn [transcript path_len do_call] in *; unfold answer in *; try done;
    destruct (p_blocked p) eqn:Eb; try (by intros []).
  all: intros [E|E]; simplify_eq; unfold add_log, put; cbn [procs plog]; rewrite ?steps_left_exit; try lia.
  all: try (destruct (p_mem p l); simplify_eq; unfold put); rewrite ?Hput by done; try done;
    unfold left_of, asleep; cbn [dead p_zombie goto block with_mem p_blocked p_code p_mem p_pid]; rewrite ?Ec; cbn [path_len];
    repeat match goal with |- context [if dead ?x then _ else _] => destruct (dead x) end; lia.
Qed.

(** A move of a private system replaces a living process, keeping its place in the
    family, or is the death of one. *)
Definition key (p : proc) : Z * Z * bool := (p_pid p, p_ppid p, dead p).

Lemma private_shape out T s m s' : private_sys out s -> internal m = true -> step T s m = Some s' ->
  exists p, find_pid (p_pid p) (procs s) = Some p /\ dead p = false /\ mover m = Some (p_pid p) /\
    ((exists p', key p' = key p /\ procs s' = put_proc p' (procs s)) \/ exists st, s' = do_exit s p st).
Proof.
  intros Hs Hm.
  destruct m as [pid o|pid sig o|pid|pid sig]; cbn [step mover]; [..|done];
    (destruct (find_pid pid (procs s)) as [p|] eqn:Ef; [|done]); (destruct (dead p) eqn:Hd; [done|]);
    pose proof (proj1 (List.find_some _ _ Ef)) as Hin; pose proof (find_pid_eq _ _ _ Ef) as <-; intros E;
    exists p; (split; [done|]); (split; [done|]); (split; [done|]);
    destruct (ps_live _ _ Hs p Hin Hd) as [(t & Et & _) Hact Hsig].
  - unfold run1 in E. destruct (p_code p) as [| | | |l k| |[] k| |] eqn:Ec; cbn [transcript do_call] in *; try done;
      try (destruct (p_blocked p); [done|]); try (destruct (p_mem p l); [|done]);
      unfold answer in E; simplify_eq/=; solve [left; eexists; split; [|reflexivity]; done | right; by eexists].
  - destruct (deliverable p sig) eqn:Edel; [|done]. unfold deliverable in Edel.
    apply andb_prop in Edel as [[Hpos%Z.leb_le Hpd]%andb_prop _]. assert (sig = SIGCHLD) as -> by auto.
    unfold deliver in E. rewrite Hact in E. cbn in E. simplify_eq/=. left. eexists. by split; [|reflexivity].
  - unfold wake, answer in E. destruct (p_blocked p); [|done]. destruct (p_code p) as [| | | | | |[] k| |]; try done;
      simplify_eq/=; left; eexists; (split; [|reflexivity]); done.
Qed.

(** A private system gets no new processes. *)
Lemma private_keeps out T s m s' b : private_sys out s -> internal m = true -> mover m <> Some b ->
  step T s m = Some s' -> keeps b (procs s) (procs s').
Proof.
  intros Hs Hm Hb E. destruct (private_shape _ _ _ _ _ Hs Hm E) as (p & Hp & Hd & Emv & H).
  assert (b <> p_pid p) as Hn by congruence. destruct H as [(p' & [= Epid _ _] & ->) | (st & ->)].
  - apply keeps_put. congruence.
  - by apply (do_exit_spec b s p _ (ps_unique _ _ Hs)).
Qed.

Lemma private_left out T s m s' b : private_sys out s -> internal m = true -> step T s m = Some s' ->
  (moves_of b [m] + steps_left s' b <= steps_left s b)%nat.
Proof.
  intros Hs Hm E. destruct (decide (mover m = Some b)) as [Em|Em].
  - destruct m as [pid o|pid sig o|pid|pid sig]; simplify_eq/=;
      (destruct (find_pid b (procs s)) as [p|] eqn:Ef; [|done]); (destruct (dead p) eqn:Hd; [done|]);
      pose proof (proj1 (List.find_some _ _ Ef)) as Hin; pose proof (find_pid_eq _ _ _ Ef) as <-;
      unfold steps_left at 2; rewrite Ef; unfold moves_of; cbn [List.filter advances]; rewrite ?Z.eqb_refl.
    + eapply private_own; eauto.
    + destruct (ps_live _ _ Hs p Hin Hd) as [(t & Et & _) Hact Hsig].
      destruct (deliverable p sig) eqn:Edel; [|done]. unfold deliverable in Edel.
      apply andb_prop in Edel as [[Hpos%Z.leb_le Hpd]%andb_prop _]. assert (sig = SIGCHLD) as -> by auto.
      unfold deliver in E. rewrite Hact in E. cbn [sa_handler act_default] in E. change (default_ignored SIGCHLD) with true in E. simplify_eq.
      unfold put. by rewrite steps_left_put by done.
    + eapply (private_own out T s p 0); eauto.
  - assert (moves_of b [m] = 0%nat) as ->.
    { unfold moves_of. destruct m; cbn [List.filter advances]; try done;
        (rewrite (proj2 (Z.eqb_neq _ _)); [done|]); intros ->; done. }
    unfold steps_left at 1. destruct (find_pid b (procs s')) as [q'|] eqn:Eq'; [|lia].
    destruct (private_keeps _ _ _ _ _ _ Hs Hm Em E _ Eq') as (q & Eq & Ei). unfold steps_left. rewrite Eq.
    unfold left_of, asleep. rewrite (image_dead _ _ Ei), (find_pid_eq _ _ _ Eq), (find_pid_eq _ _ _ Eq').
    by injection Ei as -> -> -> _ _ _.
Qed.

(** A private process makes no more moves than it has left. *)
Lemma private_bounded out T ms : forall s s' pid, Forall (fun m => internal m = true) ms ->
  private_sys out s -> steps T s ms = Some s' ->
  (moves_of pid ms + steps_left s' pid <= steps_left s pid)%nat.
Proof.
  induction ms as [|m ms IH]; intros s s' pid Hm Hs; cbn [steps]; [intros [= <-]; cbn; lia|].
  inversion_clear Hm as [|? ? Hm1 Hms]. destruct (step T s m) as [s1|] eqn:E; [|done]. intros Hr.
  pose proof (IH _ _ pid Hms (private_step _ _ _ _ _ Hm1 Hs E) Hr).
  pose proof (private_left _ _ _ _ _ pid Hs Hm1 E). unfold moves_of in *. cbn [List.filter] in *.
  destruct (advances pid m); cbn [length] in *; lia.
Qed.

Lemma key_put p p' ps : List.NoDup (map p_pid ps) -> find_pid (p_pid p) ps = Some p -> key p' = key p ->
  map key (put_proc p' ps) = map key ps.
Proof.
  intros Hu Hf Hk. unfold put_proc. rewrite List.map_map. apply List.map_ext_in. intros q Hq.
  injection Hk as E1 E2 E3. destruct (Z.eqb_spec (p_pid q) (p_pid p')) as [E|E]; [|done].
  pose proof (find_in _ _ _ Hu Hq eq_refl) as Hf'. rewrite E, E1 in Hf'. simplify_eq. unfold key. congruence.
Qed.

Lemma private_single out a pp code m :
  transcript a code m = Some (out a) -> (forall b, b <> a -> out b = []) ->
  private_sys out (Sys [Proc a pp code m false 0 0 (fun _ => act_default) None] []).
Proof.
  intros Ht Hb. constructor.
  - cbn. repeat constructor. by intros [].
  - cbn. intros p [<- | []] _. constructor; [by eexists|done|]. intros sig Hs. cbn.
    unfold sigismember. by rewrite Z.bits_0.
  - cbn. intros pid Hall. destruct (decide (pid = a)) as [-> | Hn]; [|by rewrite Hb].
    specialize (Hall _ (or_introl eq_refl) eq_refl). done.
Qed.

Lemma private_double out a b pp pq code code' m m' : a <> b ->
  transcript a code m = Some (out a) -> transcript b code' m' = Some (out b) ->
  (forall c, c <> a -> c <> b -> out c = []) ->
  private_sys out (Sys [Proc a pp code m false 0 0 (fun _ => act_default) None;
                        Proc b pq code' m' false 0 0 (fun _ => act_default) None] []).
Proof.
  intros Hab Ha Hb Hc. constructor.
  - cbn. repeat constructor; cbn; naive_solver.
  - cbn. intros q [<- | [<- | []]] _; constructor; try done; try (by eexists); intros sig Hs; cbn;
      unfold sigismember; by rewrite Z.bits_0.
  - cbn. intros pid Hall. destruct (decide (pid = a)) as [-> | H1].
    + by specialize (Hall _ (or_introl eq_refl) eq_refl).
    + destruct (decide (pid = b)) as [-> | H2]; [|by rewrite Hc].
      by specialize (Hall _ (or_intror (or_introl eq_refl)) eq_refl).
Qed.

(** A process alone, with nothing pending, can only run. *)
Lemma alone_step T a pp code m mv s' : internal mv = true ->
  step T (Sys [Proc a pp code m false 0 0 (fun _ => act_default) None] []) mv = Some s' ->
  exists o, run1 T (Sys [Proc a pp code m false 0 0 (fun _ => act_default) None] [])
              (Proc a pp code m false 0 0 (fun _ => act_default) None) o = Some s'.
Proof.
  intros Hm. destruct mv as [pid o|pid sig o|pid|pid sig]; cbn [step procs find_pid List.find p_pid dead p_zombie]; [..|done];
    (destruct (a =? pid); [|done]).
  - intros E. by exists o.
  - unfold deliverable. cbn [p_pend]. unfold sigismember. by rewrite Z.bits_0, andb_false_r.
  - by unfold wake.
Qed.

Lemma private_logs out log p es pid : p_pid p <> pid -> private_proc out log p ->
  private_proc out (log ++ map (pair pid) es) p.
Proof.
  intros Hn Hp. induction es as [|e es IH] using rev_ind; cbn; [by rewrite app_nil_r|].
  rewrite List.map_app, app_assoc. by apply private_log.
Qed.

(** A move of one private process, in any system: it stays private, or dies with its
    text complete. *)
Lemma private_move out T s p m s' :
  private_proc out (plog s) p -> find_pid (p_pid p) (procs s) = Some p -> dead p = false ->
  internal m = true -> mover m = Some (p_pid p) -> step T s m = Some s' ->
  (exists p' es, s' = Sys (put_proc p' (procs s)) (plog s ++ map (pair (p_pid p)) es) /\ key p' = key p /\
     private_proc out (plog s ++ map (pair (p_pid p)) es) p') \/
  (exists st, s' = do_exit s p st /\ proj (p_pid p) (plog s) ++ [EExit st] = out (p_pid p)).
Proof.
  intros [(t & Et & Eo) Hact Hsig] Hf Hd Hm Emv.
  assert (forall p' es t', key p' = key p -> p_act p' = p_act p ->
    (forall sig, 1 <= sig -> sigismember (p_pend p') sig = true -> sigismember (p_pend p) sig = true) ->
    t = es ++ t' -> transcript (p_pid p) (p_code p') (p_mem p') = Some t' ->
    s' = Sys (put_proc p' (procs s)) (plog s ++ map (pair (p_pid p)) es) ->
    exists p' es, s' = Sys (put_proc p' (procs s)) (plog s ++ map (pair (p_pid p)) es) /\ key p' = key p /\
     private_proc out (plog s ++ map (pair (p_pid p)) es) p') as Hgo.
  { intros p' es t' Hk Ha Hpd Est Et' Es. exists p', es. split; [done|]. split; [done|].
    injection Hk as E _ _. constructor; [|by rewrite Ha|auto]. exists t'. rewrite E, proj_map, <- app_assoc. by subst t. }
  destruct m as [pid o|pid sig o|pid|pid sig]; simplify_eq/=; rewrite Hf, Hd.
  - unfold run1. destruct (p_code p) as [| |st txt k|txt k|l k| |[] k| |] eqn:Ec; cbn [transcript do_call] in *; try done.
    + intros [= <-]. right. eexists. split; [done|]. by injection Et as <-.
    + intros [= <-]. left. destruct (transcript _ k _) as [t'|] eqn:Et'; [|done]. injection Et as <-.
      by apply (Hgo (goto p k) [EOut st txt] t').
    + intros [= <-]. left. destruct (transcript _ k _) as [t'|] eqn:Et'; [|done]. injection Et as <-.
      by apply (Hgo (goto p k) [EPerror txt] t').
    + destruct (p_mem p l) as [v|] eqn:El; [|done]. intros [= <-]. left.
      apply (Hgo (goto p (k v)) [] t); cbn; rewrite ?app_nil_r; done.
    + intros [= <-]. left. eapply (Hgo (goto (with_mem p _) _) [] t); cbn; rewrite ?app_nil_r; done.
    + intros [= <-]. left. eapply (Hgo (goto p _) [] t); cbn; rewrite ?app_nil_r; done.
    + destruct (p_blocked p); [done|]. intros [= <-]. left.
      apply (Hgo (block p) [] t); cbn; rewrite ?app_nil_r, ?Ec; done.
    + destruct (p_blocked p); [done|]. intros [= <-]. left.
      apply (Hgo (block p) [] t); cbn; rewrite ?app_nil_r, ?Ec; done.
    + intros [= <-]. left. eapply (Hgo (goto (with_mem p _) _) [] t); cbn; rewrite ?app_nil_r; done.
  - destruct (deliverable p sig) eqn:Edel; [|done]. unfold deliverable in Edel.
    apply andb_prop in Edel as [[Hpos%Z.leb_le Hpd]%andb_prop _]. assert (sig = SIGCHLD) as -> by auto.
    unfold deliver. rewrite Hact. cbn. intros [= <-]. left.
    apply (Hgo (with_pend p (sigdelset (p_pend p) SIGCHLD)) [] t); try done; [|by cbn; rewrite app_nil_r].
    intros sig' H'. cbn [p_pend with_pend]. rewrite sigismember_del by lia. by intros [? _]%andb_prop.
  - unfold wake. destruct (p_blocked p); [|done]. destruct (p_code p) as [| | | | | |[] k| |] eqn:Ec; try done;
      intros [= <-]; left; apply (Hgo (goto p (k (0, 0))) [] t); cbn; rewrite ?app_nil_r; done.
Qed.

(** ** The moves of systems with one and with two processes *)

(** [p] makes a move in [s]. *)
Definition moves (T : table) (s : sys) (p : proc) (s' : sys) : Prop :=
  dead p = false /\
  ((exists o, run1 T s p o = Some s') \/
   (exists sig o, deliverable p sig = true /\ deliver T s p sig o = Some s') \/
   wake s p = Some s').

Lemma step_moves T s m s' : internal m = true -> step T s m = Some s' ->
  exists p, In p (procs s) /\ moves T s p s'.
Proof.
  intros Hm. unfold moves. destruct m as [pid o|pid sig o|pid|pid sig]; cbn [step]; [..|done];
    (destruct (find_pid pid (procs s)) as [p|] eqn:Ef; [|done]); (destruct (dead p) eqn:Hd; [done|]);
    apply List.find_some in Ef as [Hin _]; intros E; exists p; (split; [done|]); (split; [done|]).
  - left. by exists o.
  - destruct (deliverable p sig) eqn:Edel; [|done]. right. left. by exists sig, o.
  - by right; right.
Qed.

(** A process with nothing pending gets no signal, one with only SIGCHLD pending
    only that. *)
Lemma deliverable_none p sig : p_pend p = 0 -> deliverable p sig = false.
Proof. intros E. unfold deliverable, sigismember. by rewrite E, Z.bits_0, andb_false_r. Qed.

Definition only (sig0 pend : Z) : Prop := forall sig, 1 <= sig -> sigismember pend sig = true -> sig = sig0.

Lemma only_0 sig0 : only sig0 0.
Proof. intros sig _. unfold sigismember. by rewrite Z.bits_0. Qed.

Lemma only_add sig0 pend : 1 <= sig0 -> only sig0 pend -> only sig0 (sigaddset pend sig0).
Proof.
  intros H0 Ho sig Hs. rewrite sigismember_add by lia. intros [?|?%Z.eqb_eq]%orb_true_iff; [by apply Ho|done].
Qed.

Lemma only_del sig0 sig1 pend : 1 <= sig1 -> only sig0 pend -> only sig0 (sigdelset pend sig1).
Proof. intros H1 Ho sig Hs. rewrite sigismember_del by lia. intros [? _]%andb_prop. by apply Ho. Qed.

Lemma deliverable_only sig0 p sig : only sig0 (p_pend p) -> deliverable p sig = true -> sig = sig0.
Proof.
  intros Ho Hd. unfold deliverable in Hd. apply andb_prop in Hd as [[Hp%Z.leb_le Hm]%andb_prop _]. by apply Ho.
Qed.

#[export] Hint Resolve only_0 only_add only_del : proc.

Lemma put_first p p' qs log : p_pid p' = p_pid p -> (forall q, In q qs -> p_pid q <> p_pid p) ->
  put (Sys (p :: qs) log) p' = Sys (p' :: qs) log.
Proof.
  intros E Hq. unfold put, put_proc. cbn. rewrite E, Z.eqb_refl. f_equal. f_equal.
  rewrite <- (List.map_id qs) at 2. apply List.map_ext_in. intros q Hin. by rewrite (proj2 (Z.eqb_neq _ _) (Hq q Hin)).
Qed.

Lemma put_second p q q' log : p_pid p <> p_pid q -> p_pid q' = p_pid q ->
  put (Sys [p; q] log) q' = Sys [p; q'] log.
Proof.
  intros Hn E. unfold put, put_proc. cbn. by rewrite E, Z.eqb_refl, (proj2 (Z.eqb_neq _ _) Hn).
Qed.

(** ** Deaths *)

Lemma disown_none pid ps : (forall q, In q ps -> p_ppid q <> pid) -> disown pid ps = ps.
Proof.
  induction ps as [|q ps IH]; intros H; [done|]. unfold disown in *. cbn.
  rewrite (proj2 (Z.eqb_neq (p_ppid q) pid)) by (apply H; by left). cbn.
  rewrite (proj2 (Z.eqb_neq (p_ppid q) pid)) by (apply H; by left). f_equal. apply IH. intros q' Hq'. apply H. by right.
Qed.

Lemma post_none pid sig ps : (forall q, In q ps -> p_pid q <> pid) -> post_signal pid sig ps = ps.
Proof.
  intros H. unfold post_signal. rewrite <- (List.map_id ps) at 2. apply List.map_ext_in. intros q Hq.
  by rewrite (proj2 (Z.eqb_neq _ _) (H q Hq)).
Qed.

Lemma put_cons_other p q ps : p_pid q <> p_pid p -> put_proc p (q :: ps) = q :: put_proc p ps.
Proof. intros H. unfold put_proc. cbn. by rewrite (proj2 (Z.eqb_neq _ _) H). Qed.

Lemma put_cons_same p q ps : p_pid q = p_pid p -> put_proc p (q :: ps) = p :: put_proc p ps.
Proof. intros H. unfold put_proc. cbn. by rewrite (proj2 (Z.eqb_eq _ _) H). Qed.

Lemma put_pids p ps : map p_pid (put_proc p ps) = map p_pid ps.
Proof.
  unfold put_proc. rewrite List.map_map. apply List.map_ext. intros q. by destruct (Z.eqb_spec (p_pid q) (p_pid p)).
Qed.

Lemma put_none p ps : (forall q, In q ps -> p_pid q <> p_pid p) -> put_proc p ps = ps.
Proof.
  intros H. unfold put_proc. rewrite <- (List.map_id ps) at 2. apply List.map_ext_in. intros q Hq.
  by rewrite (proj2 (Z.eqb_neq _ _) (H q Hq)).
Qed.

(** The death of a child whose parent is first in the table: it becomes a zombie, the
    parent has SIGCHLD pending. *)
Lemma child_exit p0 cs log q st :
  p_pid p0 <> 1 -> p_pid q <> p_pid p0 -> p_ppid p0 <> p_pid q -> p_ppid q = p_pid p0 ->
  dead p0 = false -> auto_reap (p_act p0 SIGCHLD) = false ->
  (forall c, In c cs -> p_pid c <> p_pid p0 /\ p_ppid c = p_pid p0) ->
  do_exit (Sys (p0 :: cs) log) q st =
  Sys (with_pend p0 (sigaddset (p_pend p0) SIGCHLD) :: put_proc (with_zombie q st) cs) (log ++ [(p_pid q, EExit st)]).
Proof.
  intros Ha Hq Hpp Eq Hd Hr Hcs. unfold do_exit, add_log. cbn [procs plog]. f_equal.
  rewrite disown_none by (intros c [<- | Hc]; [done|by rewrite (proj2 (Hcs c Hc))]).
  rewrite Eq, (proj2 (Z.eqb_neq (p_pid p0) 1)) by done. unfold find_pid. cbn [List.find]. rewrite Z.eqb_refl, Hr.
  rewrite put_cons_other by (cbn; congruence). unfold post_signal. cbn [map]. rewrite Z.eqb_refl, Hd. cbn [andb negb].
  f_equal. apply (post_none (p_pid p0) SIGCHLD). intros c [-> | [Hc _]]%in_put; [done|]. by apply Hcs.
Qed.
