(* ===== verification/ForkDemo.v ===== *)
(** The programs around fork: src/fork/fork_data_addr/fork_data_addr.c ([DataAddr]),
    src/fork/orphan/orphan.c ([Orphan]) and src/fork/zombie/zombie.c ([Zombie]), as
    programs of the machine of [Proc], with theorems over every schedule. *)
From S2P Require Import Prelude CMonad CLib Decimal Proc.

(** The systems of these programs have no signal handlers. *)
Definition no_functions : table := fun _ _ => Forever "".

(** ** fork_data_addr.c *)

Module DataAddr.

Section Code.
(** The text of %p for an address, and getpagesize(). *)
Context (show_ptr : loc -> string) (getpagesize : Z).

Definition FEW : nat := 16.

Definition i : loc := LVar "i".
Definition j : loc := LVar "j".

Definition pr_text (vi vj : Z) : string :=
  cat ["   i="; fmt_d vi; " j="; fmt_d vj; nl; "   &i="; show_ptr i; " &j="; show_ptr j; nl].

Definition PR : prog unit :=
  vi ← pget i; vj ← pget j; pprintf (pr_text vi vj).

(** [x++], [x--]. *)
Definition incr (l : loc) (d : Z) : prog unit := v ← pget l; pset l (to_int (v + d)).

(** memset(p + off, c, n) *)
Fixpoint memset (p c off : Z) (n : nat) : prog unit :=
  match n with
  | O => mret tt
  | S n' => pset (LHeap p off) c ≫= fun _ => memset p c (off + 1) n'
  end.

(** [for (k = 0; k < FEW; k++) printf("%c ", p[k]); printf("\n");] *)
Fixpoint show_few (p k : Z) (n : nat) : prog unit :=
  match n with
  | O => pprintf nl
  | S n' => c ← pget (LHeap p k); pprintf (cat [chr c; " "]) ≫= fun _ => show_few p (k + 1) n'
  end.

(** One of the two processes after the fork: its name, what it does to i and j, its
    letter.  The parent starts a new line before the second print. *)
Definition side (name : string) (sep : string) (di dj c p : Z) : prog unit :=
  pprintf (cat [nl; name; ": before var update: "]) ≫= fun _ =>
  PR ≫= fun _ => incr i di ≫= fun _ => incr j dj ≫= fun _ =>
  pprintf (cat [sep; name; ": after var update: "]) ≫= fun _ =>
  PR ≫= fun _ =>
  memset p c 0 (Z.to_nat getpagesize) ≫= fun _ =>
  pprintf (cat [nl; name; ": malloc ret: "; show_ptr (LHeap p 0); nl]) ≫= fun _ =>
  show_few p 0 FEW.

Definition main : prog Z :=
  pset i 5 ≫= fun _ => pset j 6 ≫= fun _ =>
  p ← pcall1 (Malloc getpagesize);
  if p =? 0 then pperror "malloc failed, aborting" ≫= fun _ => pexit 1
  else
    ret ← pcall1 Fork;
    if ret =? -1 then pperror "fork failed" ≫= fun _ => pexit 1
    else if ret =? 0 then side "Child" "" (-1) 1 99 p ≫= fun _ => pexit 0
    else side "Parent" nl 1 (-1) 112 p ≫= fun _ => pcall1 (Free p) ≫= fun _ => pexit 0.

End Code.

(** What a side prints when i is [vi] and j is [vj] at first. *)
Definition side_text (show_ptr : loc -> string) (name sep : string) (vi vj di dj c p : Z) : list pevent :=
  [EOut stdout (cat [nl; name; ": before var update: "]); EOut stdout (pr_text show_ptr vi vj);
   EOut stdout (cat [sep; name; ": after var update: "]); EOut stdout (pr_text show_ptr (vi + di) (vj + dj));
   EOut stdout (cat [nl; name; ": malloc ret: "; show_ptr (LHeap p 0); nl])] ++
  replicate FEW (EOut stdout (cat [chr c; " "])) ++ [EOut stdout nl].

(** What the processes do, once malloc has answered [p] and fork [b]: the child is
    process [b], 0 stands for a fork that failed. *)
Definition outputs (show_ptr : loc -> string) (a b p pid : Z) : list pevent :=
  if pid =? a then
    if p =? 0 then [EPerror "malloc failed, aborting"; EExit 256]
    else if b =? 0 then [EPerror "fork failed"; EExit 256]
    else side_text show_ptr "Parent" nl 5 6 1 (-1) 112 p ++ [EExit 0]
  else if negb (b =? 0) && (pid =? b) then side_text show_ptr "Child" "" 5 6 (-1) 1 99 p ++ [EExit 0]
  else [].

Fixpoint fill (m : pmem) (p c off : Z) (n : nat) : pmem :=
  match n with O => m | S n' => fill (mem_set m (LHeap p off) c) p c (off + 1) n' end.

Lemma fill_out m p c off n l : (forall x, l = LHeap p x -> x < off) -> fill m p c off n l = m l.
Proof.
  revert m off. induction n as [|n IH]; intros m off Hl; cbn; [done|].
  rewrite IH by (intros x E; specialize (Hl x E); lia). unfold mem_set.
  destruct l as [x|q x]; cbn; [done|]. destruct (Z.eqb_spec q p) as [-> | ?]; [|done]. specialize (Hl x eq_refl).
  by rewrite (proj2 (Z.eqb_neq _ _)) by lia.
Qed.

Lemma fill_in m p c off n x : off <= x < off + Z.of_nat n -> fill m p c off n (LHeap p x) = Some c.
Proof.
  revert m off. induction n as [|n IH]; intros m off Hx; cbn; [lia|].
  destruct (decide (x = off)) as [-> | ?]; [|apply IH; lia].
  rewrite fill_out by (intros y [= ->]; lia). unfold mem_set. cbn. by rewrite !Z.eqb_refl.
Qed.

Lemma transcript_memset me (f : unit -> prog unit) p c n : forall off m,
  transcript me (pbind f (memset p c off n)) m = transcript me (f tt) (fill m p c off n).
Proof. induction n as [|n IH]; intros off m; [done|]. apply IH. Qed.

Lemma transcript_show_few me (f : unit -> prog unit) p c m n : forall k,
  (forall x, k <= x < k + Z.of_nat n -> m (LHeap p x) = Some c) ->
  transcript me (pbind f (show_few p k n)) m =
  app (replicate n (EOut stdout (cat [chr c; " "])) ++ [EOut stdout nl]) <$> transcript me (f tt) m.
Proof.
  induction n as [|n IH]; intros k Hm; [done|].
  change (pbind f (show_few p k (S n))) with
    (Get (LHeap p k) (fun c => Out stdout (cat [chr c; " "]) (pbind f (show_few p (k + 1) n)))).
  cbn [transcript]. rewrite Hm by lia. rewrite IH by (intros x Hx; apply Hm; lia).
  by destruct (transcript me (f tt) m).
Qed.

Lemma transcript_side me show_ptr pgsz (f : unit -> prog unit) name sep vi vj di dj c p m :
  m i = Some vi -> m j = Some vj -> to_int (vi + di) = vi + di -> to_int (vj + dj) = vj + dj ->
  16 <= pgsz ->
  transcript me (pbind f (side show_ptr pgsz name sep di dj c p)) m =
  app (side_text show_ptr name sep vi vj di dj c p) <$>
    transcript me (f tt) (fill (mem_set (mem_set m i (vi + di)) j (vj + dj)) p c 0 (Z.to_nat pgsz)).
Proof.
  intros Hi Hj Ei Ej Hp. unfold side, PR, incr, pprintf, pget, pset, mbind, prog_bind. cbn [pbind transcript].
  rewrite Hi, Hj. cbn [pbind transcript].
  change (mem_set m i _ j) with (m j). rewrite Hj, Ei, Ej. cbn [pbind transcript].
  set (m2 := mem_set _ j _). change (m2 i) with (Some (vi + di)). cbn [pbind transcript].
  change (m2 j) with (Some (vj + dj)). cbn [pbind transcript].
  rewrite transcript_assoc, transcript_memset. cbn [pbind transcript].
  rewrite (transcript_show_few me f p c) by (intros x Hx; apply fill_in; unfold FEW in Hx; lia).
  by destruct (transcript me (f tt) _).
Qed.

(** *** Before the fork *)

Section Run.
Context (show_ptr : loc -> string) (pgsz : Z) (Hpg : 16 <= pgsz) (a pp : Z).
Context (Ha : 1 < a) (Hpp : 1 < pp) (Hne : pp <> a).

Definition start : sys := Sys [boot a pp (main show_ptr pgsz)] [].

Definition single (code : prog unit) (m : pmem) : sys :=
  Sys [Proc a pp code m false 0 0 (fun _ => act_default) None] [].

Definition mem1 : pmem := mem_set (fun _ => None) i 5.
Definition mem2 : pmem := mem_set mem1 j 6.

(** The code before malloc is called, and before fork is called. *)
Definition at_malloc : prog unit :=
  match boot a pp (main show_ptr pgsz) with Proc _ _ (Set_ _ _ (Set_ _ _ k)) _ _ _ _ _ _ => k | _ => Ret tt end.

Definition at_fork (p : Z) : prog unit :=
  match at_malloc with Call _ k => k (p, 0) | _ => Ret tt end.

(** The system before the fork, or two processes that make no more calls. *)
Inductive reach : sys -> Prop :=
| reach_start : reach start
| reach_i : reach (single (Set_ j 6 at_malloc) mem1)
| reach_malloc : reach (single at_malloc mem2)
| reach_fork p : 0 < p -> reach (single (at_fork p) mem2)
| reach_private b p s :
    0 <= p -> b = 0 \/ 1 < b /\ b <> a -> private_sys (outputs show_ptr a b p) s -> reach s.

Lemma parent_transcript p b : 0 < p -> 1 < b -> b <> a ->
  transcript a (match at_fork p with Call _ k => k (b, 0) | _ => Ret tt end) mem2 = Some (outputs show_ptr a b p a).
Proof.
  intros Hp Hb Hn. unfold at_fork, at_malloc, outputs. cbn [boot main pbind mbind prog_bind pset pcall1 fst].
  rewrite Z.eqb_refl. rewrite (proj2 (Z.eqb_neq p 0)) by lia. cbn [pbind mbind prog_bind pcall1 fst].
  rewrite (proj2 (Z.eqb_neq b (-1))), (proj2 (Z.eqb_neq b 0)) by lia. rewrite transcript_assoc.
  rewrite (transcript_side _ _ _ _ _ _ 5 6) by done. done.
Qed.

Lemma child_transcript p b : 0 < p -> 1 < b -> b <> a ->
  transcript b (match at_fork p with Call _ k => k (0, 0) | _ => Ret tt end) mem2 = Some (outputs show_ptr a b p b).
Proof.
  intros Hp Hb Hn. unfold at_fork, at_malloc, outputs. cbn [boot main pbind mbind prog_bind pset pcall1 fst].
  rewrite Z.eqb_refl, (proj2 (Z.eqb_neq b a)), (proj2 (Z.eqb_neq b 0)) by lia.
  rewrite (proj2 (Z.eqb_neq p 0)) by lia. cbn [pbind mbind prog_bind pcall1 fst]. cbn [Z.eqb Z.opp]. rewrite transcript_assoc.
  rewrite (transcript_side _ _ _ _ _ _ 5 6) by done. done.
Qed.

Lemma single_fork p o s' : 0 < p ->
  run1 no_functions (single (at_fork p) mem2) (Proc a pp (at_fork p) mem2 false 0 0 (fun _ => act_default) None) o = Some s' ->
  reach s'.
Proof.
  intros Hp.
  assert (exists k, at_fork p = Call Fork k) as [k Ek].
  { unfold at_fork, at_malloc. cbn [boot main pbind mbind prog_bind pset pcall1 fst].
    rewrite (proj2 (Z.eqb_neq p 0)) by lia. by eexists. }
  pose proof (parent_transcript p) as Hpar. pose proof (child_transcript p) as Hch.
  assert (transcript a (k (-1, 0)) mem2 = Some (outputs show_ptr a 0 p a)) as Hfail.
  { assert (k (-1, 0) = match at_fork p with Call _ k => k (-1, 0) | _ => Ret tt end) as -> by by rewrite Ek.
    unfold at_fork, at_malloc, outputs. cbn [boot main pbind mbind prog_bind pset pcall1 fst].
    rewrite (proj2 (Z.eqb_neq p 0)) by lia. by rewrite Z.eqb_refl. }
  rewrite Ek in *. unfold run1. cbn [p_code do_call]. destruct (fresh o _) eqn:Ef.
  - cbn in Ef. intros [= <-]. apply andb_prop in Ef as [Hb%Z.ltb_lt Hn%negb_true_iff].
    apply orb_false_iff in Hn as [[Hn1%Z.eqb_neq Hn2]%orb_false_iff _]. specialize (Hpar o Hp Hb (not_eq_sym Hn1)).
    specialize (Hch o Hp Hb (not_eq_sym Hn1)).
    apply (reach_private o p); [lia|right; by split|]. unfold put. cbn.
    rewrite Z.eqb_refl, (proj2 (Z.eqb_neq o a)) by done. apply private_double; try done.
    intros c H1 H2. unfold outputs. by rewrite (proj2 (Z.eqb_neq c a)), (proj2 (Z.eqb_neq c o)), andb_false_r by done.
  - intros [= <-]. apply (reach_private 0 p); [lia|by left|]. unfold put. cbn. rewrite Z.eqb_refl.
    apply private_single; [done|]. intros b Hb. unfold outputs. rewrite (proj2 (Z.eqb_neq b a)) by done.
    done.
Qed.

Lemma single_malloc o s' :
  run1 no_functions (single at_malloc mem2) (Proc a pp at_malloc mem2 false 0 0 (fun _ => act_default) None) o = Some s' ->
  reach s'.
Proof.
  assert (exists k, at_malloc = Call (Malloc pgsz) k) as [k Ek] by by eexists.
  assert (forall p, k (p, 0) = at_fork p) as Hk by (intros p; unfold at_fork; by rewrite Ek).
  rewrite Ek. unfold run1. cbn [p_code do_call p_mem].
  destruct ((0 <? o) && _) eqn:Eo; intros [= <-]; unfold put, goto; cbn; rewrite Z.eqb_refl, Hk.
  - apply andb_prop in Eo as [Ho%Z.ltb_lt _]. by apply reach_fork.
  - apply (reach_private 0 0); [lia|by left|]. apply private_single.
    + unfold outputs. by rewrite Z.eqb_refl.
    + intros b Hb. unfold outputs. by rewrite (proj2 (Z.eqb_neq b a)) by done.
Qed.

Lemma reach_step s mv s' : internal mv = true -> reach s -> step no_functions s mv = Some s' -> reach s'.
Proof.
  intros Hm [ | | |p Hp|b p s0 Hp Hb Hs].
  - intros [o E]%alone_step; [|done]. cbn in E. injection E as <-. unfold put. cbn. rewrite Z.eqb_refl. exact reach_i.
  - intros [o E]%alone_step; [|done]. cbn in E. injection E as <-. unfold put. cbn. rewrite Z.eqb_refl. exact reach_malloc.
  - intros [o E]%alone_step; [|done]. by apply single_malloc in E.
  - assert (exists k, at_fork p = Call Fork k) as [k Ek].
    { unfold at_fork, at_malloc. cbn [boot main pbind mbind prog_bind pset pcall1 fst].
      rewrite (proj2 (Z.eqb_neq p 0)) by lia. by eexists. }
    intros [o E]%alone_step; [|done]. by eapply single_fork.
  - intros E. eapply reach_private; [done..|]. by eapply private_step.
Qed.

Lemma reach_progress s q : reach s -> In q (procs s) -> dead q = false ->
  exists m s', mover m = Some (p_pid q) /\ step no_functions s m = Some s'.
Proof.
  intros [ | | |p Hp|b p s0 Hp Hb Hs] Hq Hd;
    [..|destruct (private_progress _ no_functions _ _ Hs Hq Hd) as [s' [E|E]];
        [by exists (Run (p_pid q) 0), s'|by exists (Wake (p_pid q)), s']].
  all: destruct Hq as [<- | []]; exists (Run a 0); cbn [step procs find_pid List.find p_pid single start boot]; rewrite Z.eqb_refl; cbn [dead p_zombie].
  1-3: by eexists; split.
  unfold at_fork, at_malloc. cbn [boot main pbind mbind prog_bind pset pcall1 fst].
  rewrite (proj2 (Z.eqb_neq p 0)) by lia. by eexists; split.
Qed.

Lemma reach_out s : reach s -> exists b p, (b = 0 \/ 1 < b /\ b <> a) /\
  forall pid, proj pid (plog s) `prefix_of` outputs show_ptr a b p pid.
Proof.
  intros [ | | |p Hp|b p s0 Hp Hb Hs]; [exists 0, 0; split; [by left|]; intros pid; apply prefix_nil..|].
  exists b, p. split; [done|]. intros pid. by apply private_prefix.
Qed.

End Run.

(** The memory of parent and child is separate.  In every schedule of
    fork_data_addr.c what each process has printed is a prefix of a fixed text, which
    does not depend on the other process: the parent sees i = 5, j = 6 and then 6, 5
    and only its own letter p in the block, the child sees 5, 6 and then 4, 7 and only
    c, at the same addresses; where malloc or fork fails there is only the error.  A
    process that is alive can go on. *)
Theorem fork_data_isolated show_ptr pgsz a pp ms s' :
  16 <= pgsz -> 1 < a -> 1 < pp -> pp <> a ->
  Forall (fun m => internal m = true) ms -> steps no_functions (start show_ptr pgsz a pp) ms = Some s' ->
  (exists b p, (b = 0 \/ 1 < b /\ b <> a) /\
    forall pid, proj pid (plog s') `prefix_of` outputs show_ptr a b p pid) /\
  (forall q, In q (procs s') -> dead q = false ->
    exists m s'', mover m = Some (p_pid q) /\ step no_functions s' m = Some s'').
Proof.
  intros Hpg Ha Hpp Hn Hm Hs. assert (reach show_ptr pgsz a pp s') as Hr.
  { eapply (moves_inv no_functions (fun m => internal m = true) (reach show_ptr pgsz a pp)); [|constructor|done..].
    intros s m s1 H1 H2. by apply reach_step. }
  split; [by eapply reach_out|]. intros q. by apply (reach_progress show_ptr pgsz a pp).
Qed.

(** Parent 100 and child 101, one step each in turn. *)
Fixpoint turns (n : nat) : list move :=
  match n with O => [] | S n' => Run 100 0 :: Run 101 0 :: turns n' end.

Definition eg_moves : list move := [Run 100 0; Run 100 0; Run 100 7; Run 100 101] ++ turns 67 ++ [Run 100 0].

Definition eg_start : sys := start (fun _ => "0x7f") 20 100 50.

Definition texts (s : sys) : list (list pevent) := map (fun pid => proj pid (plog s)) [100; 101].

Lemma eg_texts : texts <$> steps no_functions eg_start eg_moves =
  Some (map (outputs (fun _ => "0x7f") 100 101 7) [100; 101]).
Proof. vm_compute. reflexivity. Qed.

Lemma fork_data_isolated_witness : exists s',
  steps no_functions eg_start eg_moves = Some s' /\
  texts s' = map (outputs (fun _ => "0x7f") 100 101 7) [100; 101] /\
  exists b p, (b = 0 \/ 1 < b /\ b <> 100) /\
    forall pid, proj pid (plog s') `prefix_of` outputs (fun _ => "0x7f") 100 b p pid.
Proof.
  destruct (fmap_Some_1 _ _ _ eg_texts) as (s' & E & Et). exists s'. split; [exact E|]. split; [exact (eq_sym Et)|].
  apply (fork_data_isolated (fun _ => "0x7f") 20 100 50 eg_moves s'); try lia; [|exact E].
  by repeat constructor.
Defined.

End DataAddr.

(** ** A program that forks first, and whose two processes depend on nobody *)

(** The process table of a parent [a] that does not wait and its child [b]. *)
Inductive family2 (a pp b : Z) : list (Z * Z * bool) -> Prop :=
| both_alive : family2 a pp b [(a, pp, false); (b, a, false)]
| child_zombie : family2 a pp b [(a, pp, false); (b, a, true)]
| child_orphan : family2 a pp b [(a, pp, true); (b, 1, false)]
| child_gone : family2 a pp b [(a, pp, true)].

(** The parent alone, after a fork that failed. *)
Definition family1 (a pp : Z) (ks : list (Z * Z * bool)) : Prop :=
  ks = [(a, pp, false)] \/ ks = [(a, pp, true)].

(** Decide the comparisons of distinct numbers. *)
Ltac eqbs :=
  repeat first [rewrite Z.eqb_refl | progress cbn -[Z.eqb]
    | match goal with |- context [?x =? ?y] => rewrite (proj2 (Z.eqb_neq x y)) by congruence end].

(** The death of a process in such a table: the parent is outside of the table, and
    does not ask for its children to be reaped for it. *)
Lemma family2_exit a pp b s p st : a <> 1 -> b <> 1 -> pp <> 1 -> a <> b -> pp <> a -> pp <> b ->
  (forall q, In q (procs s) -> dead q = false -> p_act q SIGCHLD = act_default) ->
  In p (procs s) -> dead p = false -> family2 a pp b (map key (procs s)) ->
  family2 a pp b (map key (procs (do_exit s p st))).
Proof.
  intros Ha1 Hb1 Hp1 Hab Hpa Hpb Hact Hin Hd Hf. destruct s as [ps log]. cbn in Hact, Hin, Hf.
  inversion Hf as [E|E|E|E]; (destruct ps as [|[i1 pp1 c1 m1 b1 k1 e1 a1 z1] [|[i2 pp2 c2 m2 b2 k2 e2 a2 z2] [|]]]; try done);
    unfold key, dead in E; cbn in E; simplify_eq;
    repeat (match goal with z : option Z |- _ => destruct z end); try done;
    (pose proof (Hact _ (or_introl eq_refl)) as Hq; cbn in Hq; try specialize (Hq eq_refl));
    cbn in Hin; destruct_or? Hin; try done; subst p; try done; unfold do_exit, disown, auto_reap; eqbs;
    rewrite ?Hq; unfold key, dead, post_signal; eqbs;
    first [exact (both_alive _ _ _) | exact (child_zombie _ _ _) | exact (child_orphan _ _ _) | exact (child_gone _ _ _)].
Qed.

Lemma family1_exit a pp s p st : a <> 1 -> pp <> 1 -> pp <> a -> In p (procs s) -> dead p = false ->
  family1 a pp (map key (procs s)) -> family1 a pp (map key (procs (do_exit s p st))).
Proof.
  intros Ha1 Hp1 Hpa Hin Hd Hf. destruct s as [ps log]. cbn in Hin, Hf.
  destruct Hf as [E|E]; (destruct ps as [|[i1 pp1 c1 m1 b1 k1 e1 a1 z1] [|]]; try done);
    unfold key, dead in E; cbn in E; simplify_eq; destruct z1; try done;
    destruct Hin as [<- | []]; try done; unfold do_exit, disown; eqbs; right; unfold key, dead; by eqbs.
Qed.

(** The table changes only by deaths. *)
Lemma private_family (F : list (Z * Z * bool) -> Prop) out T s m s' :
  (forall p st, In p (procs s) -> dead p = false -> F (map key (procs (do_exit s p st)))) ->
  private_sys out s -> internal m = true -> step T s m = Some s' ->
  F (map key (procs s)) -> F (map key (procs s')).
Proof.
  intros HF Hs Hm E Hf. destruct (private_shape _ _ _ _ _ Hs Hm E) as (p & Hp & Hd & _ & [(p' & Hk & ->) | (st & ->)]).
  - by rewrite (key_put p p' _ (ps_unique _ _ Hs) Hp Hk).
  - apply HF; [|done]. by apply List.find_some in Hp as [? _].
Qed.

(** A program starts with nothing written. *)
Definition mem0 : pmem := fun _ => None.

Section ForkTwo.
Context (main : prog Z) (k : Z * Z -> prog unit) (out : Z -> Z -> Z -> list pevent) (a pp : Z).
Context (Ha : 1 < a) (Hpp : 1 < pp) (Hne : pp <> a).
Context (Hcode : pbind (fun r => Exit r) main = Call Fork k).

(** [out a b] are the texts of parent [a] and child [b], 0 for a fork that failed. *)
Context (Hfail : transcript a (k (-1, 0)) mem0 = Some (out a 0 a)).
Context (Hparent : forall b, 1 < b -> b <> a -> transcript a (k (b, 0)) mem0 = Some (out a b a)).
Context (Hchild : forall b, 1 < b -> b <> a -> transcript b (k (0, 0)) mem0 = Some (out a b b)).
Context (Hother : forall b pid, pid <> a -> b = 0 \/ pid <> b -> out a b pid = []).

Inductive forked : sys -> Prop :=
| forked_start : forked (Sys [boot a pp main] [])
| forked_fail s : private_sys (out a 0) s -> family1 a pp (map key (procs s)) -> forked s
| forked_two b s : 1 < b -> b <> a -> b <> pp -> private_sys (out a b) s ->
    family2 a pp b (map key (procs s)) -> forked s.

Lemma forked_step T s m s' : internal m = true -> forked s -> step T s m = Some s' -> forked s'.
Proof.
  intros Hm [ |s0 Hs Hf|b s0 Hb Hba Hbp Hs Hf].
  - unfold boot. rewrite Hcode. intros [o E]%alone_step; [|done]. unfold run1 in E. cbn [p_code do_call] in E.
    destruct (fresh o _) eqn:Ef; cbn [answer] in E; injection E as <-; unfold put; cbn [procs plog].
    + cbn in Ef. apply andb_prop in Ef as [Hb%Z.ltb_lt Hn%negb_true_iff].
      apply orb_false_iff in Hn as [[Hn1%Z.eqb_neq Hn2%Z.eqb_neq]%orb_false_iff _].
      cbn -[Z.eqb]. rewrite Z.eqb_refl, (proj2 (Z.eqb_neq o a)) by (intros ->; done).
      apply (forked_two o); [done|by apply not_eq_sym|by apply not_eq_sym| |constructor]. apply private_double; [done|auto..].
    + cbn. rewrite Z.eqb_refl. apply forked_fail; [|by left]. apply private_single; auto.
  - intros E. eapply forked_fail; [by eapply private_step|].
    refine (private_family (family1 a pp) _ _ _ _ _ _ Hs Hm E Hf). intros p st H1 H2.
    apply family1_exit; try lia; done.
  - intros E. eapply (forked_two b); [done..|by eapply private_step|].
    refine (private_family (family2 a pp b) _ _ _ _ _ _ Hs Hm E Hf). intros p st H1 H2.
    apply family2_exit; try lia; try done. intros q Hq Hd. by destruct (ps_live _ _ Hs q Hq Hd).
Qed.

Lemma forked_steps T ms s' : Forall (fun m => internal m = true) ms ->
  steps T (Sys [boot a pp main] []) ms = Some s' -> forked s'.
Proof.
  intros Hm. eapply (moves_inv T (fun m => internal m = true) forked); [|constructor|done].
  intros s m s1 H1 H2. by apply forked_step.
Qed.

Lemma forked_progress T s q : forked s -> In q (procs s) -> dead q = false ->
  exists m s', mover m = Some (p_pid q) /\ step T s m = Some s'.
Proof.
  assert (forall o s, private_sys o s -> In q (procs s) -> dead q = false ->
    exists m s', mover m = Some (p_pid q) /\ step T s m = Some s') as Hpriv.
  { intros o s0 Hs Hq Hd. destruct (private_progress _ T _ _ Hs Hq Hd) as [s' [E|E]];
      [by exists (Run (p_pid q) 0), s'|by exists (Wake (p_pid q)), s']. }
  intros [ |s0 Hs Hf|b s0 Hb Hba Hbp Hs Hf] Hq Hd; [|by eapply Hpriv..].
  destruct Hq as [<- | []]. exists (Run a 0). unfold boot. rewrite Hcode.
  cbn [step procs find_pid List.find p_pid]. rewrite Z.eqb_refl. by eexists.
Qed.

(** What holds after every schedule. *)
Lemma forked_result T ms s' : Forall (fun m => internal m = true) ms ->
  steps T (Sys [boot a pp main] []) ms = Some s' ->
  (exists b, (forall pid, proj pid (plog s') `prefix_of` out a b pid) /\
    (family1 a pp (map key (procs s')) \/ b <> a /\ family2 a pp b (map key (procs s')))) /\
  (forall q, In q (procs s') -> dead q = false ->
    exists m s'', mover m = Some (p_pid q) /\ step T s' m = Some s'').
Proof.
  intros Hm Hr. pose proof (forked_steps _ _ _ Hm Hr) as Hf. split; [|intros q; by apply forked_progress].
  destruct Hf as [ |s0 Hs Hf|b s0 Hb Hba Hbp Hs Hf].
  - exists 0. split; [intros pid; apply prefix_nil|]. left. by left.
  - exists 0. split; [intros pid; by apply private_prefix|]. by left.
  - exists b. split; [intros pid; by apply private_prefix|]. by right.
Qed.

End ForkTwo.

(** The premises about the texts, by evaluation. *)
Ltac fork_texts outputs a :=
  match goal with |- context [boot a _ ?main] => idtac | H : context [boot a _ ?main] |- _ =>
    assert (exists k, pbind (fun r => Exit r) main = Call Fork k /\
      transcript a (k (-1, 0)) mem0 = Some (outputs a 0 a) /\
      (forall b, 1 < b -> b <> a -> transcript a (k (b, 0)) mem0 = Some (outputs a b a)) /\
      (forall b, 1 < b -> b <> a -> transcript b (k (0, 0)) mem0 = Some (outputs a b b)))
      as (? & Hcode & Hfail & Hpar & Hch);
    [ eexists; split; [reflexivity|]; unfold outputs; rewrite (Z.eqb_refl a); split; [done|];
      split; intros b Hb Hba; cbn [pbind pcall1 fst mbind prog_bind];
      [ rewrite (proj2 (Z.eqb_neq b (-1))), (proj2 (Z.eqb_neq b 0)) by lia; done
      | rewrite (proj2 (Z.eqb_neq b a)), (proj2 (Z.eqb_neq b 0)), (Z.eqb_refl b) by lia; done ]
    | assert (forall b pid, pid <> a -> b = 0 \/ pid <> b -> outputs a b pid = []) as Hoth;
      [ intros b pid H1 H2; unfold outputs; rewrite (proj2 (Z.eqb_neq pid a)) by done;
        destruct (Z.eqb_spec b 0), (Z.eqb_spec pid b); cbn; try done; lia |] ]
  end.

(** ** orphan.c *)

Module Orphan.

Definition main : prog Z :=
  p ← pcall1 Fork;
  if p =? -1 then pperror "fork failed" ≫= fun _ => pexit 1
  else if p =? 0 then
    me ← pcall1 Getpid;
    pprintf (cat ["Child pid "; fmt_d me; " : p="; fmt_d p; "; sleeping now for 10s.."; nl]) ≫= fun _ =>
    pcall1 (Sleep 10) ≫= fun _ =>
    pprintf (cat ["Child: sleep done, exiting."; nl]) ≫= fun _ =>
    pexit 0
  else
    me ← pcall1 Getpid;
    pprintf (cat ["Parent pid "; fmt_d me; " : p="; fmt_d p;
                  "; exiting now (resulting in an orphaned child).."; nl]) ≫= fun _ =>
    pexit 0.

(** The texts of parent [a] and child [b]. *)
Definition outputs (a b pid : Z) : list pevent :=
  if pid =? a then
    if b =? 0 then [EPerror "fork failed"; EExit 256]
    else [EOut stdout (cat ["Parent pid "; fmt_d a; " : p="; fmt_d b;
                            "; exiting now (resulting in an orphaned child).."; nl]); EExit 0]
  else if negb (b =? 0) && (pid =? b) then
    [EOut stdout (cat ["Child pid "; fmt_d b; " : p="; fmt_d 0; "; sleeping now for 10s.."; nl]);
     EOut stdout (cat ["Child: sleep done, exiting."; nl]); EExit 0]
  else [].

(** The orphan is adopted and lives on.  In every schedule of orphan.c parent and
    child print a prefix of their texts, each with its own number, and the process
    table is in one of four states: both alive; the child dead before its parent, a
    zombie; the parent dead and the child alive with process 1 for its parent; both
    dead and the child gone.  So a child that survives its parent is adopted by
    process 1 and never becomes a zombie.  A living process can go on. *)
Theorem orphan_adopted a pp ms s' :
  1 < a -> 1 < pp -> pp <> a -> Forall (fun m => internal m = true) ms ->
  steps no_functions (Sys [boot a pp main] []) ms = Some s' ->
  (exists b, (forall pid, proj pid (plog s') `prefix_of` outputs a b pid) /\
    (family1 a pp (map key (procs s')) \/ b <> a /\ family2 a pp b (map key (procs s')))) /\
  (forall q, In q (procs s') -> dead q = false ->
    exists m s'', mover m = Some (p_pid q) /\ step no_functions s' m = Some s'').
Proof.
  intros Ha Hpp Hn Hm Hs.
  fork_texts outputs a.
  exact (forked_result main _ outputs a pp Ha Hpp Hn Hcode Hfail Hpar Hch Hoth _ _ _ Hm Hs).
Qed.

(** The parent exits while the child sleeps. *)
Definition eg_moves : list move :=
  [Run 100 101; Run 100 0; Run 101 0; Run 101 0; Run 101 0; Run 100 0; Run 100 0; Wake 101; Run 101 0].

Lemma orphan_adopted_witness : exists s',
  steps no_functions (Sys [boot 100 50 main] []) eg_moves = Some s' /\
  map key (procs s') = [(100, 50, true); (101, 1, false)] /\
  exists b, (forall pid, proj pid (plog s') `prefix_of` outputs 100 b pid).
Proof.
  destruct (steps no_functions (Sys [boot 100 50 main] []) eg_moves) as [s'|] eqn:E; [|by vm_compute in E].
  exists s'. split; [done|]. split; [by vm_compute in E; injection E as <-|].
  destruct (orphan_adopted 100 50 eg_moves s') as [(b & Hb & _) _]; [lia..|by repeat constructor|done|].
  by exists b.
Defined.

End Orphan.

(** ** zombie.c *)

Module Zombie.

Definition main : prog Z :=
  p ← pcall1 Fork;
  if p =? -1 then pperror "fork failed" ≫= fun _ => pexit 1
  else if p =? 0 then
    me ← pcall1 Getpid;
    pprintf (cat ["Child pid "; fmt_d me; " : p="; fmt_d p; "; exiting now (generating a zombie!).."; nl]) ≫= fun _ =>
    pexit 0
  else
    me ← pcall1 Getpid;
    pprintf (cat ["Parent pid "; fmt_d me; " : p="; fmt_d p;
                  "; sleeping now for 300s without wait()-ing (resulting in an orphaned child).."; nl]) ≫= fun _ =>
    pcall1 (Sleep 300) ≫= fun _ =>
    pprintf (cat ["Parent: sleep done, exiting. Notice how (on Linux) the zombie is now cleared!"; nl]) ≫= fun _ =>
    pexit 0.

(** The texts of parent [a] and child [b]. *)
Definition outputs (a b pid : Z) : list pevent :=
  if pid =? a then
    if b =? 0 then [EPerror "fork failed"; EExit 256]
    else [EOut stdout (cat ["Parent pid "; fmt_d a; " : p="; fmt_d b;
            "; sleeping now for 300s without wait()-ing (resulting in an orphaned child).."; nl]);
          EOut stdout (cat ["Parent: sleep done, exiting. Notice how (on Linux) the zombie is now cleared!"; nl]);
          EExit 0]
  else if negb (b =? 0) && (pid =? b) then
    [EOut stdout (cat ["Child pid "; fmt_d b; " : p="; fmt_d 0; "; exiting now (generating a zombie!).."; nl]); EExit 0]
  else [].

(** A child that exits before its parent is a zombie until the parent exits, and
    then gone: in every schedule of zombie.c the table is one of the four of
    [family2], and the texts are prefixes of the two texts. *)
Theorem zombie_until_parent_exits a pp ms s' :
  1 < a -> 1 < pp -> pp <> a -> Forall (fun m => internal m = true) ms ->
  steps no_functions (Sys [boot a pp main] []) ms = Some s' ->
  (exists b, (forall pid, proj pid (plog s') `prefix_of` outputs a b pid) /\
    (family1 a pp (map key (procs s')) \/ b <> a /\ family2 a pp b (map key (procs s')))) /\
  (forall q, In q (procs s') -> dead q = false ->
    exists m s'', mover m = Some (p_pid q) /\ step no_functions s' m = Some s'').
Proof.
  intros Ha Hpp Hn Hm Hs. fork_texts outputs a.
  exact (forked_result main _ outputs a pp Ha Hpp Hn Hcode Hfail Hpar Hch Hoth _ _ _ Hm Hs).
Qed.

(** The child exits first; then the parent: a zombie, then nothing. *)
Definition eg_moves : list move :=
  [Run 100 101; Run 101 0; Run 101 0; Run 101 0; Run 100 0; Run 100 0; Run 100 0].

Lemma zombie_until_parent_exits_witness : exists s1 s2,
  steps no_functions (Sys [boot 100 50 main] []) eg_moves = Some s1 /\
  map key (procs s1) = [(100, 50, false); (101, 100, true)] /\
  steps no_functions s1 [Deliver 100 SIGCHLD 0; Wake 100; Run 100 0; Run 100 0] = Some s2 /\
  map key (procs s2) = [(100, 50, true)] /\
  exists b, (forall pid, proj pid (plog s1) `prefix_of` outputs 100 b pid).
Proof.
  destruct (steps no_functions (Sys [boot 100 50 main] []) eg_moves) as [s1|] eqn:E; [|by vm_compute in E].
  exists s1. eexists. split; [done|]. split; [by vm_compute in E; injection E as <-|].
  split; [vm_compute in E; injection E as <-; by vm_compute|]. split; [by vm_compute|].
  destruct (zombie_until_parent_exits 100 50 eg_moves s1) as [(b & Hb & _) _]; [lia..|by repeat constructor|done|].
  by exists b.
Defined.

End Zombie.
