(* ===== verification/Fork2c.v ===== *)
(** src/fork/fork2c/fork2c.c: a parent with two children that sleep; it reaps and
    reports both.  The program runs on the machine of [Proc]; the theorem is about
    every schedule. *)
From S2P Require Import Prelude CMonad CLib Decimal Proc ForkDemo.

Definition status_text (stat cpid : Z) : string :=
  cat [nl; "Child "; fmt_d cpid; " just died!"; nl;
    "WIFEXITED : "; fmt_d (Z.b2z (WIFEXITED stat)); nl;
    "Exit status: "; fmt_d (WEXITSTATUS stat); nl;
    "WIFSIGNALED : "; fmt_d (Z.b2z (WIFSIGNALED stat)); nl;
    "Termination signal: "; fmt_d (WTERMSIG stat); nl;
    "WIFSTOPPED : "; fmt_d (Z.b2z (WIFSTOPPED stat)); nl;
    "Stop signal: "; fmt_d (WSTOPSIG stat); nl;
    "WCOREDUMP: "; fmt_d (Z.land stat 128); nl;
    "WIFCONTINUED: "; fmt_d (Z.b2z (WIFCONTINUED stat)); nl].

Definition displayChildStatus (stat cpid : Z) : prog unit := pprintf (status_text stat cpid).

(** The child's case of both forks. *)
Definition child (name : string) (sleep_time : Z) : prog unit :=
  me ← pcall1 Getpid;
  pprintf (cat [name; " PID "; fmt_d me; " sleeping for "; fmt_d sleep_time; "s..."; nl]) ≫= fun _ =>
  pcall1 (Sleep sleep_time) ≫= fun _ =>
  pexit 0.

Definition createChild (sleep_time : Z) : prog unit :=
  n ← pcall1 Fork;
  if n =? -1 then pperror "fork" ≫= fun _ => pexit 1
  else if n =? 0 then child "Child 2" sleep_time
  else mret tt.

Definition chkrange (num min max : Z) : Z :=
  if num <? min then -2 else if max <? num then -3 else 0.

(** [cN_slptm = atoi(argv[N])] into an unsigned short, and its check. *)
Definition sleep_arg (argv0 which arg : string) : prog Z :=
  let slptm := wrapu 16 (atoi arg) in
  if chkrange slptm 1 60 <? 0 then
    pfprintf stderr (cat [argv0; ": ensure "; which; " param ["; fmt_d slptm;
                          "] is within acceptable range [1-60]"; nl]) ≫= fun _ => pexit 1
  else mret slptm.

(** One turn of [while ((cpid = wait(&stat)) != -1)]. *)
Definition reap_iter (stat : Z) : prog (Z + unit) :=
  r ← pcall2 (Wait false);
  if fst r =? -1 then mret (inr tt)
  else displayChildStatus (snd r) (fst r) ≫= fun _ => mret (inl (snd r)).

Definition all_dead : string := cat [nl; "Parent: all children dead, exiting..."; nl].

Definition main (fuel : nat) (argv : list string) : prog Z :=
  times ← (if argc argv =? 3 then
             c1 ← sleep_arg (arg_n argv 0) "first" (arg_n argv 1);
             c2 ← sleep_arg (arg_n argv 0) "second" (arg_n argv 2);
             mret (c1, c2)
           else mret (3, 7));
  n ← pcall1 Fork;
  (if n =? -1 then pperror "fork" ≫= fun _ => pexit 1
   else if n =? 0 then child "Child 1" (fst times)
   else createChild (snd times) ≫= fun _ => ploop fuel reap_iter 0) ≫= fun _ =>
  pprintf all_dead ≫= fun _ =>
  pexit 0.

(** *** The texts *)

Definition kid_text (name : string) (b sec : Z) : list pevent :=
  [EOut stdout (cat [name; " PID "; fmt_d b; " sleeping for "; fmt_d sec; "s..."; nl]); EExit 0].

(** The children [b1] and [b2]; 0 for one that there is not. *)
Definition kids_out (c1 c2 b1 b2 pid : Z) : list pevent :=
  if negb (b1 =? 0) && (pid =? b1) then kid_text "Child 1" b1 c1
  else if negb (b2 =? 0) && (pid =? b2) then kid_text "Child 2" b2 c2
  else [].

(** The parent fetched the children [l], each with status 0, and reported each. *)
Definition reports (l : list Z) : list pevent :=
  concat (map (fun b => [EReap b 0; EOut stdout (status_text 0 b)]) l).

Definition fin : prog unit := Out stdout all_dead (Exit 0).

(** The parent in its loop. *)
Definition reaping (fuel : nat) (stat : Z) : prog unit :=
  pbind (fun r => Exit r) (pbind (fun _ : unit => pprintf all_dead ≫= fun _ => pexit 0) (ploop fuel reap_iter stat)).

Definition reaping_k (fuel : nat) (stat : Z) : Z * Z -> prog unit :=
  match reaping (S fuel) stat with Call _ k => k | _ => fun _ => Ret tt end.

Lemma reaping_S fuel stat : reaping (S fuel) stat = Call (Wait false) (reaping_k fuel stat).
Proof. done. Qed.

Lemma reaping_none fuel stat x : reaping_k fuel stat (-1, x) = fin.
Proof. done. Qed.

Lemma reaping_some fuel stat b st : b <> -1 ->
  reaping_k fuel stat (b, st) = Out stdout (status_text st b) (reaping fuel st).
Proof. intros Hb. unfold reaping_k. cbn. by rewrite (proj2 (Z.eqb_neq b (-1))). Qed.

(** *** The table *)

Definition par (a pp : Z) (code : prog unit) (blk : bool) (pend : Z) : proc :=
  Proc a pp code mem0 blk 0 pend (fun _ => act_default) None.

(** A child of the parent: alive and private, or dead after it did all it should. *)
Definition kid_ok (a : Z) (out : Z -> list pevent) (log : list (Z * pevent)) (q : proc) : Prop :=
  p_ppid q = a /\
  (dead q = false /\ private_proc out log q \/ p_zombie q = Some 0 /\ proj (p_pid q) log = out (p_pid q)).

(** The death of a child: it becomes a zombie, the parent has SIGCHLD pending. *)
Lemma kid_exit a pp code blk pend cs log q st :
  a <> 1 -> p_pid q <> a -> pp <> p_pid q -> p_ppid q = a ->
  (forall c, In c cs -> p_pid c <> a /\ p_ppid c = a) ->
  do_exit (Sys (par a pp code blk pend :: cs) log) q st =
  Sys (par a pp code blk (sigaddset pend SIGCHLD) :: put_proc (with_zombie q st) cs) (log ++ [(p_pid q, EExit st)]).
Proof.
  intros Ha Hq Hpp Eq Hcs. rewrite (child_exit (par a pp code blk pend)); [done..|]. intros c Hc. by apply Hcs.
Qed.

(** *** The invariant *)

Section Run.
Context (fuel : nat) (Hfuel : (3 <= fuel)%nat) (c1 c2 a pp : Z).
Context (Ha : 1 < a) (Hpp : 1 < pp) (Hne : pp <> a).

(** The rest of main once the times are known. *)
Definition body : prog Z :=
  n ← pcall1 Fork;
  (if n =? -1 then pperror "fork" ≫= fun _ => pexit 1
   else if n =? 0 then child "Child 1" c1
   else createChild c2 ≫= fun _ => ploop fuel reap_iter 0) ≫= fun _ =>
  pprintf all_dead ≫= fun _ =>
  pexit 0.

Definition fork1_k : Z * Z -> prog unit :=
  match pbind (fun r => Exit r) body with Call _ k => k | _ => fun _ => Ret tt end.

(** The parent before the second fork. *)
Definition fork2_k : Z * Z -> prog unit :=
  match fork1_k (2, 0) with Call _ k => k | _ => fun _ => Ret tt end.

Lemma fork1_parent b : b <> -1 -> b <> 0 -> fork1_k (b, 0) = Call Fork fork2_k.
Proof. intros H1 H2. unfold fork1_k. cbn. by rewrite (proj2 (Z.eqb_neq b (-1))), (proj2 (Z.eqb_neq b 0)). Qed.

Lemma fork2_parent b : b <> -1 -> b <> 0 -> fork2_k (b, 0) = reaping fuel 0.
Proof. intros H1 H2. unfold fork2_k. cbn. by rewrite (proj2 (Z.eqb_neq b (-1))), (proj2 (Z.eqb_neq b 0)). Qed.

Definition created (b1 b2 : Z) : list Z := if b2 =? 0 then [b1] else [b1; b2].

(** Where the parent is: [kids] are in the table, [done] were fetched; what it has done. *)
Inductive at_parent (kids done : list Z) : Z -> prog unit -> list pevent -> Prop :=
| at_fork2 b1 : kids = [b1] -> done = [] -> at_parent kids done 0 (Call Fork fork2_k) []
| at_fail b1 : kids = [b1] -> done = [] -> at_parent kids done 0 (Perror "fork" (Exit 1)) []
| at_fail_exit b1 : kids = [b1] -> done = [] -> at_parent kids done 0 (Exit 1) [EPerror "fork"]
| at_wait b2 f stat : b2 <> 0 -> (length kids < f)%nat ->
    at_parent kids done b2 (reaping f stat) (reports done)
| at_show b2 f done' b : b2 <> 0 -> (length kids < f)%nat -> done = done' ++ [b] ->
    at_parent kids done b2 (Out stdout (status_text 0 b) (reaping f 0)) (reports done' ++ [EReap b 0])
| at_fin b2 : b2 <> 0 -> kids = [] -> at_parent kids done b2 fin (reports done)
| at_exit b2 : b2 <> 0 -> kids = [] ->
    at_parent kids done b2 (Exit 0) (reports done ++ [EOut stdout all_dead]).

(** Numbers the children may have. *)
Definition pid_ok (b : Z) : Prop := 1 < b /\ b <> a /\ b <> pp.

Record alive_inv (b1 b2 : Z) (code : prog unit) (blk : bool) (pend : Z) (cs : list proc) (done : list Z)
    (log : list (Z * pevent)) : Prop := AliveInv {
  ai_pids : Forall pid_ok (created b1 b2);
  ai_nodup : List.NoDup (created b1 b2);
  ai_kids : Permutation (created b1 b2) (map p_pid cs ++ done);
  ai_pend : forall sig, 1 <= sig -> sigismember pend sig = true -> sig = SIGCHLD;
  ai_cs : Forall (kid_ok a (kids_out c1 c2 b1 b2) log) cs;
  ai_done : Forall (fun b => proj b log = kids_out c1 c2 b1 b2 b) done;
  ai_other : forall b, b <> a -> (b ∉ created b1 b2) -> proj b log = [];
  ai_at : at_parent (map p_pid cs) done b2 code (proj a log) }.

(** A child left behind when the second fork failed. *)
Definition left_ok (b1 : Z) (log : list (Z * pevent)) (q : proc) : Prop :=
  p_pid q = b1 /\ p_ppid q = 1 /\ dead q = false /\ private_proc (kids_out c1 c2 b1 0) log q.

Inductive inv : sys -> Prop :=
| inv_start : inv (Sys [par a pp (Call Fork fork1_k) false 0] [])
| inv_alone o s : private_sys o s -> (forall pid, pid <> a -> o pid = []) ->
    o a = [EPerror "fork"; EExit 256] -> inv s
| inv_alive b1 b2 code blk pend cs done log : alive_inv b1 b2 code blk pend cs done log ->
    inv (Sys (par a pp code blk pend :: cs) log)
| inv_left b1 p cs log : pid_ok b1 -> dead p = true -> p_pid p = a -> p_ppid p = pp ->
    (cs = [] \/ exists q, cs = [q] /\ left_ok b1 log q) ->
    (forall b, b <> a -> proj b log `prefix_of` kids_out c1 c2 b1 0 b) ->
    proj a log = [EPerror "fork"; EExit 256] -> inv (Sys (p :: cs) log)
| inv_done b1 b2 p done log : b2 <> 0 -> dead p = true -> p_pid p = a -> p_ppid p = pp ->
    List.NoDup (created b1 b2) -> Permutation (created b1 b2) done ->
    (forall b, b <> a -> proj b log = kids_out c1 c2 b1 b2 b) ->
    proj a log = reports done ++ [EOut stdout all_dead; EExit 0] -> inv (Sys [p] log).

Lemma alive_facts b1 b2 code blk pend cs done log : alive_inv b1 b2 code blk pend cs done log ->
  (forall q, In q cs -> pid_ok (p_pid q) /\ p_ppid q = a) /\ List.NoDup (map p_pid cs) /\
  (forall q, In q cs -> ~ In (p_pid q) done).
Proof.
  intros [Hp Hn Hk _ Hc _ _ _]. pose proof (Permutation_NoDup Hk Hn) as Hn2. split; [|split].
  - intros q Hq. split.
    + rewrite List.Forall_forall in Hp. apply Hp. eapply Permutation_in; [by symmetry|]. apply in_or_app. left.
      by apply List.in_map.
    + rewrite List.Forall_forall in Hc. by destruct (Hc q Hq).
  - by eapply List.NoDup_app_remove_r.
  - intros q Hq Hd. apply List.in_map with (f := p_pid) in Hq. apply NoDup_ListNoDup, NoDup_app in Hn2 as (_ & H & _).
    apply (H (p_pid q)); by apply list_elem_of_In.
Qed.

(** Another log, in which only a child did something. *)
Lemma at_parent_log log log' b kids done b2 code : b <> a -> (forall x, x <> b -> proj x log' = proj x log) ->
  at_parent kids done b2 code (proj a log) -> at_parent kids done b2 code (proj a log').
Proof. intros Hb Hl. by rewrite Hl by congruence. Qed.

Lemma in_created b1 b2 code blk pend cs done log q : alive_inv b1 b2 code blk pend cs done log -> In q cs ->
  p_pid q ∈ created b1 b2.
Proof.
  intros Hi Hq. apply list_elem_of_In. eapply Permutation_in; [symmetry; apply (ai_kids _ _ _ _ _ _ _ _ Hi)|].
  apply in_or_app. left. by apply List.in_map.
Qed.

(** A child moves: it is replaced by [q'], and the log grows by what it did. *)
Lemma kid_moves b1 b2 code blk pend pend' cs done log log' q q' :
  alive_inv b1 b2 code blk pend cs done log -> In q cs -> p_pid q' = p_pid q ->
  (forall x, x <> p_pid q -> proj x log' = proj x log) ->
  (forall sig, 1 <= sig -> sigismember pend' sig = true -> sigismember pend sig = true \/ sig = SIGCHLD) ->
  kid_ok a (kids_out c1 c2 b1 b2) log' q' ->
  (forall c, p_pid c <> p_pid q -> private_proc (kids_out c1 c2 b1 b2) log c -> private_proc (kids_out c1 c2 b1 b2) log' c) ->
  alive_inv b1 b2 code blk pend' (put_proc q' cs) done log'.
Proof.
  intros Hi Hq E Hl Hpend Hok Hpriv. destruct (alive_facts _ _ _ _ _ _ _ _ Hi) as (Hf & Hn & Hnd).
  pose proof (in_created _ _ _ _ _ _ _ _ _ Hi Hq) as Hcr. pose proof Hi as [H1 H2 H3 H4 H5 H6 H7 H8].
  destruct (Hf q Hq) as [(_ & Hqa & _) _]. constructor; rewrite ?put_pids; try done.
  - intros sig Hs Hm. destruct (Hpend sig Hs Hm); auto.
  - apply List.Forall_forall. intros c [-> | [Hc Hcn]]%in_put; [done|]. rewrite List.Forall_forall in H5.
    destruct (H5 c Hc) as [Hc1 [[Hc2 Hc3] | [Hc2 Hc3]]]; (split; [done|]).
    + left. split; [done|]. apply Hpriv; [congruence|done].
    + right. split; [done|]. by rewrite Hl by congruence.
  - apply List.Forall_forall. intros b Hb. rewrite List.Forall_forall in H6. rewrite Hl; [by apply H6|].
    intros ->. by apply (Hnd q Hq).
  - intros b Hb Hbc. rewrite Hl; [by apply H7|]. by intros ->.
  - eapply at_parent_log; [exact Hqa|done|done].
Qed.

Lemma kids_out_last b1 b2 b l st : l ++ [EExit st] = kids_out c1 c2 b1 b2 b -> st = 0.
Proof.
  assert (forall n x y, l ++ [EExit st] = kid_text n x y -> st = 0) as H.
  { intros n x y E. unfold kid_text in E. change [?u; ?v] with ([u] ++ [v]) in E. by apply app_inj_tail in E as [_ [= ->]]. }
  unfold kids_out. destruct (_ && _); [apply H|]. destruct (_ && _); [apply H|]. by destruct l.
Qed.

(** A move of a living child keeps the invariant. *)
Lemma kid_step b1 b2 code blk pend cs done log q m s' :
  alive_inv b1 b2 code blk pend cs done log -> In q cs -> dead q = false -> internal m = true ->
  mover m = Some (p_pid q) -> step no_functions (Sys (par a pp code blk pend :: cs) log) m = Some s' -> inv s'.
Proof.
  intros Hi Hq Hd Hm Emv E. destruct (alive_facts _ _ _ _ _ _ _ _ Hi) as (Hf & Hn & Hnd).
  destruct (Hf q Hq) as [(_ & Hqa & Hqp) Hqpp].
  pose proof (ai_cs _ _ _ _ _ _ _ _ Hi) as Hcs. rewrite List.Forall_forall in Hcs.
  destruct (Hcs q Hq) as [_ [[_ Hpriv] | [Hz _]]]; [|unfold dead in Hd; by rewrite Hz in Hd].
  assert (find_pid (p_pid q) (par a pp code blk pend :: cs) = Some q) as Hfind.
  { cbn [find_pid List.find par p_pid]. rewrite (proj2 (Z.eqb_neq a (p_pid q))) by congruence. by apply find_in. }
  destruct (private_move _ _ (Sys _ log) q m s' Hpriv Hfind Hd Hm Emv E) as [(p' & es & -> & Hk & Hp') | (st & -> & Eo)];
    cbn [procs plog] in *.
  - injection Hk as E1 E2 E3. rewrite put_cons_other by (cbn; congruence). eapply inv_alive.
    eapply (kid_moves _ _ _ _ _ _ _ _ _ _ q p'); [done..| |auto| |].
    + intros x Hx. by apply proj_map_other.
    + split; [congruence|]. left. by rewrite E3.
    + intros c Hc. by apply private_logs.
  - rewrite kid_exit; [|lia|congruence..|]; [|intros c Hc; destruct (Hf c Hc) as [(_ & ? & _) ?]; done].
    eapply inv_alive. eapply (kid_moves _ _ _ _ _ _ _ _ _ _ q (with_zombie q st)); [done..| | | |].
    + intros x Hx. by apply proj_other.
    + intros sig Hs. rewrite sigismember_add by (unfold SIGCHLD; lia). intros [?|?%Z.eqb_eq]%orb_true_iff; auto.
    + split; [done|]. right. cbn [p_zombie p_pid with_zombie]. rewrite proj_own. split; [|done]. f_equal.
      exact (kids_out_last _ _ _ _ _ Eo).
    + intros c Hc. by apply private_log.
Qed.

(** *** The parent moves *)

Lemma find_kid o code blk pend cs q : find_pid o (par a pp code blk pend :: cs) = Some q -> dead q = true -> In q cs.
Proof.
  intros [[<- | Hq] _]%List.find_some Hd; [done|done].
Qed.

Lemma del_none pid ps : ~ In pid (map p_pid ps) -> del_pid pid ps = ps.
Proof.
  induction ps as [|q ps IH]; intros H; [done|]. unfold del_pid in *. cbn in *.
  rewrite (proj2 (Z.eqb_neq (p_pid q) pid)) by auto. cbn. f_equal. auto.
Qed.

Lemma del_perm q ps : In q ps -> List.NoDup (map p_pid ps) ->
  Permutation (map p_pid ps) (p_pid q :: map p_pid (del_pid (p_pid q) ps)).
Proof.
  induction ps as [|c ps IH]; [done|]. intros Hq [Hc Hn]%List.NoDup_cons_iff. destruct Hq as [-> | Hq].
  - unfold del_pid. cbn. rewrite Z.eqb_refl. cbn. fold (del_pid (p_pid q) ps). by rewrite del_none.
  - unfold del_pid in *. cbn.
    rewrite (proj2 (Z.eqb_neq (p_pid c) (p_pid q))) by (intros E; apply Hc; rewrite E; by apply List.in_map).
    cbn. rewrite (IH Hq Hn) at 1. apply perm_swap.
Qed.

(** The system after the parent took [b] out of the table. *)
Lemma reap_inv b1 b2 f stat blk pend cs done log q :
  alive_inv b1 b2 (reaping (S f) stat) blk pend cs done log -> In q cs -> p_zombie q = Some 0 ->
  b2 <> 0 -> (length (map p_pid cs) < S f)%nat -> proj a log = reports done ->
  alive_inv b1 b2 (Out stdout (status_text 0 (p_pid q)) (reaping f 0)) false pend (del_pid (p_pid q) cs)
    (done ++ [p_pid q]) (log ++ [(a, EReap (p_pid q) 0)]).
Proof.
  intros Hi Hq Hz Hb2 Hf Hpa. destruct (alive_facts _ _ _ _ _ _ _ _ Hi) as (Hfa & Hn & Hnd).
  pose proof Hi as [H1 H2 H3 H4 H5 H6 H7 H8]. rewrite List.Forall_forall in H5.
  pose proof (del_perm q cs Hq Hn) as Hperm.
  constructor; try done.
  - rewrite H3, Hperm. cbn. rewrite app_assoc. by rewrite (Permutation_app_comm _ [p_pid q]).
  - apply List.Forall_forall. intros c [Hc Hcn]%in_del. destruct (Hfa c Hc) as [(_ & Hca & _) _].
    destruct (H5 c Hc) as [Hc1 [[Hc2 Hc3] | [Hc2 Hc3]]]; (split; [done|]).
    + left. split; [done|]. by apply private_log.
    + right. split; [done|]. by rewrite proj_other by done.
  - rewrite List.Forall_forall in H6 |- *. destruct (Hfa q Hq) as [(_ & Hqa & _) _].
    intros b [Hb | [<- | []]]%in_app_or.
    + rewrite proj_other; [by apply H6|]. rewrite List.Forall_forall in H1. apply (H1 b).
      eapply Permutation_in; [by symmetry|]. apply in_or_app. by right.
    + rewrite proj_other by done. destruct (H5 q Hq) as [_ [[Hd _] | [_ Hp]]]; [|done].
      unfold dead in Hd. by rewrite Hz in Hd.
  - intros b Hb Hbc. rewrite proj_other by done. by apply H7.
  - rewrite proj_own, Hpa. eapply at_show; [done| |done]. rewrite (Permutation_length Hperm) in Hf. cbn in Hf. lia.
Qed.

(** The parent goes on, the table is as before. *)
Lemma par_goes b1 b2 code blk pend cs done log code' blk' es :
  alive_inv b1 b2 code blk pend cs done log ->
  at_parent (map p_pid cs) done b2 code' (proj a log ++ es) ->
  alive_inv b1 b2 code' blk' pend cs done (log ++ map (pair a) es).
Proof.
  intros Hi Hat. destruct (alive_facts _ _ _ _ _ _ _ _ Hi) as (Hfa & Hn & Hnd).
  pose proof Hi as [H1 H2 H3 H4 H5 H6 H7 H8]. rewrite List.Forall_forall in H5, H6.
  constructor; try done.
  - apply List.Forall_forall. intros c Hc. destruct (Hfa c Hc) as [(_ & Hca & _) _].
    destruct (H5 c Hc) as [Hc1 [[Hc2 Hc3] | [Hc2 Hc3]]]; (split; [done|]).
    + left. split; [done|]. by apply private_logs.
    + right. split; [done|]. by rewrite proj_map_other by done.
  - apply List.Forall_forall. intros b Hb. rewrite proj_map_other; [by apply H6|].
    rewrite List.Forall_forall in H1. apply (H1 b).
    eapply Permutation_in; [by symmetry|]. apply in_or_app. by right.
  - intros b Hb Hbc. rewrite proj_map_other by done. by apply H7.
  - by rewrite proj_map.
Qed.

Lemma par_put code blk pend cs log p' : p_pid p' = a -> (forall q, In q cs -> p_pid q <> a) ->
  put (Sys (par a pp code blk pend :: cs) log) p' = Sys (p' :: cs) log.
Proof.
  intros E Hcs. unfold put. cbn [procs plog]. f_equal.
  change (put_proc p' (par a pp code blk pend :: cs)) with
    ((if a =? p_pid p' then p' else par a pp code blk pend) :: put_proc p' cs).
  rewrite put_none by (by rewrite E). by rewrite E, Z.eqb_refl.
Qed.

(** The second child starts. *)
Lemma second_child b1 code blk pend cs log o :
  alive_inv b1 0 code blk pend cs [] log -> map p_pid cs = [b1] -> proj a log = [] ->
  pid_ok o -> o <> b1 ->
  alive_inv b1 o (reaping fuel 0) false pend
    (cs ++ [Proc o a (fork2_k (0, 0)) mem0 false 0 0 (fun _ => act_default) None]) [] log.
Proof.
  intros Hi Hcs Hpa Ho Hob. pose proof Hi as [H1 H2 H3 H4 H5 H6 H7 H8]. unfold created in *. cbn in H1, H2, H3.
  assert (o <> 0) as Ho0 by (destruct Ho; lia). pose proof (proj1 (List.Forall_cons_iff _ _ _) H1) as [Hb1 _].
  assert (forall x, kids_out c1 c2 b1 x b1 = kid_text "Child 1" b1 c1) as Hk1.
  { intros x. unfold kids_out. by rewrite (proj2 (Z.eqb_neq b1 0)), Z.eqb_refl by (destruct Hb1; lia). }
  assert (kids_out c1 c2 b1 o o = kid_text "Child 2" o c2) as Hk2.
  { unfold kids_out. rewrite (proj2 (Z.eqb_neq o b1)), andb_false_r by done.
    by rewrite (proj2 (Z.eqb_neq o 0)), Z.eqb_refl. }
  constructor; unfold created; rewrite ?(proj2 (Z.eqb_neq o 0)) by done; try done.
  - constructor; [done|]. constructor; [done|]. constructor.
  - repeat constructor; cbn; naive_solver.
  - rewrite List.map_app, Hcs. done.
  - apply List.Forall_app. split.
    + rewrite List.Forall_forall in H5 |- *. intros c Hc.
      assert (p_pid c = b1) as Ec by (apply (List.in_map p_pid) in Hc; rewrite Hcs in Hc; by destruct Hc as [<- | []]).
      destruct (H5 c Hc) as [Hc1 [[Hc2 [(t & Ht & Eo) ? ?]] | [Hc2 Hc3]]]; (split; [done|]).
      * left. split; [done|]. constructor; [|done..]. exists t. split; [done|].
        rewrite Eo. by rewrite Ec, !Hk1.
      * right. split; [done|]. rewrite Hc3, Ec. by rewrite !Hk1.
    + constructor; [|constructor]. split; [done|]. left. split; [done|]. constructor; cbn [p_pid p_code p_mem p_act p_pend]; [|done|].
      * exists (kid_text "Child 2" o c2). split; [done|]. rewrite Hk2, H7; [done|by destruct Ho as (_ & ? & _)|].
        apply not_elem_of_cons. split; [done|]. apply not_elem_of_nil.
      * intros sig Hs. unfold sigismember. by rewrite Z.bits_0.
  - intros b Hb [Hn1 _]%not_elem_of_cons. apply H7; [done|]. apply not_elem_of_cons. split; [done|]. apply not_elem_of_nil.
  - rewrite Hpa. eapply at_wait; [done|]. rewrite List.map_app, Hcs. cbn. lia.
Qed.

Lemma private_proc_prefix out log p : private_proc out log p -> proj (p_pid p) log `prefix_of` out (p_pid p).
Proof. intros [(t & _ & E) _ _]. by exists t. Qed.

Lemma alive_prefix b1 b2 code blk pend cs done log b : alive_inv b1 b2 code blk pend cs done log ->
  b <> a -> proj b log `prefix_of` kids_out c1 c2 b1 b2 b.
Proof.
  intros Hi Hb. pose proof Hi as [H1 H2 H3 H4 H5 H6 H7 H8]. rewrite List.Forall_forall in H5, H6.
  destruct (decide (b ∈ created b1 b2)) as [Hin|Hout]; [|rewrite H7 by done; apply prefix_nil].
  apply list_elem_of_In in Hin. eapply Permutation_in in Hin; [|done]. apply in_app_or in Hin as [Hin|Hin].
  - apply List.in_map_iff in Hin as (q & <- & Hq). destruct (H5 q Hq) as [_ [[_ Hp] | [_ ->]]]; [|done].
    by apply private_proc_prefix.
  - by rewrite (H6 b Hin).
Qed.

Lemma alive_done b1 b2 code blk pend done log b : alive_inv b1 b2 code blk pend [] done log ->
  b <> a -> proj b log = kids_out c1 c2 b1 b2 b.
Proof.
  intros Hi Hb. pose proof Hi as [H1 H2 H3 H4 H5 H6 H7 H8]. rewrite List.Forall_forall in H6. cbn in H3.
  destruct (decide (b ∈ created b1 b2)) as [Hin|Hout].
  - apply H6. eapply Permutation_in; [done|]. by apply list_elem_of_In.
  - rewrite H7 by done. unfold kids_out, created in *. destruct (Z.eqb_spec b2 0) as [-> | Hb2]; cbn [negb andb].
    + apply not_elem_of_cons in Hout as [Hn _]. by rewrite (proj2 (Z.eqb_neq b b1)), andb_false_r.
    + apply not_elem_of_cons in Hout as [Hn [Hn2 _]%not_elem_of_cons].
      by rewrite (proj2 (Z.eqb_neq b b1)), (proj2 (Z.eqb_neq b b2)), andb_false_r.
Qed.

(** The parent dies: with its children all fetched, or after the second fork failed. *)
Lemma par_exit code blk pend cs log st : (forall q, In q cs -> p_pid q <> pp) ->
  do_exit (Sys (par a pp code blk pend :: cs) log) (par a pp code blk pend) st =
  Sys (put_proc (with_zombie (par a pp code blk pend) st) (par a pp code blk pend :: disown a cs)) (log ++ [(a, EExit st)]).
Proof.
  intros Hcs. unfold do_exit, add_log. cbn [procs plog par p_ppid p_pid]. f_equal.
  rewrite (proj2 (Z.eqb_neq pp 1)) by lia.
  assert (disown a (par a pp code blk pend :: cs) = par a pp code blk pend :: disown a cs) as ->.
  { unfold disown. cbn. rewrite (proj2 (Z.eqb_neq pp a)) by done. cbn. by rewrite (proj2 (Z.eqb_neq pp a)) by done. }
  assert (find_pid pp (par a pp code blk pend :: disown a cs) = None) as ->; [|done].
  cbn [find_pid List.find par p_pid]. rewrite (proj2 (Z.eqb_neq a pp)) by congruence.
  destruct (List.find _ _) as [q|] eqn:E; [|done]. apply List.find_some in E as [Hq E%Z.eqb_eq].
  apply in_disown in Hq as (q0 & Hq0 & Eq & _). by destruct (Hcs q0 Hq0); congruence.
Qed.

Lemma exit_done b1 b2 blk pend done log :
  alive_inv b1 b2 (Exit 0) blk pend [] done log -> b2 <> 0 ->
  proj a log = reports done ++ [EOut stdout all_dead] ->
  inv (do_exit (Sys [par a pp (Exit 0) blk pend] log) (par a pp (Exit 0) blk pend) 0).
Proof.
  intros Hi Hb2 Hpa. rewrite par_exit by done. change (disown a []) with (@nil proc). unfold put_proc. cbn [map par p_pid with_zombie].
  rewrite Z.eqb_refl. pose proof Hi as [H1 H2 H3 H4 H5 H6 H7 H8]. cbn in H3.
  apply (inv_done b1 b2 _ done); try done.
  - intros b Hb. rewrite proj_other by done. by eapply alive_done.
  - rewrite proj_own, Hpa. by rewrite <- app_assoc.
Qed.

Lemma exit_left b1 blk pend cs log :
  alive_inv b1 0 (Exit 1) blk pend cs [] log -> map p_pid cs = [b1] -> proj a log = [EPerror "fork"] ->
  inv (do_exit (Sys (par a pp (Exit 1) blk pend :: cs) log) (par a pp (Exit 1) blk pend) 256).
Proof.
  intros Hi Hcs Hpa. destruct (alive_facts _ _ _ _ _ _ _ _ Hi) as (Hfa & _ & _).
  rewrite par_exit by (intros q Hq; by destruct (Hfa q Hq) as [(_ & _ & ?) _]).
  destruct cs as [|q [|]]; try done. cbn in Hcs. injection Hcs as Eq.
  destruct (Hfa q (or_introl eq_refl)) as [Hok Hpq]. pose proof Hok as (Hq1 & Hqa & _).
  pose proof (ai_cs _ _ _ _ _ _ _ _ Hi) as Hks. inversion_clear Hks as [|? ? Hk _].
  assert (forall log', (forall b, b <> a -> proj b log' = proj b log) ->
    forall b, b <> a -> proj b log' `prefix_of` kids_out c1 c2 b1 0 b) as Hpre.
  { intros log' Hl b Hb. rewrite Hl by done. by eapply alive_prefix. }
  rewrite put_cons_same by done.
  eapply (inv_left b1); [by rewrite <- Eq|done..| |apply Hpre; intros; by apply proj_other|by rewrite proj_own, Hpa].
  assert (disown a [q] = if dead q then [] else [with_ppid q 1]) as ->.
  { unfold disown. cbn. rewrite Hpq, Z.eqb_refl. destruct (dead q); [done|]. cbn. by rewrite Hpq, Z.eqb_refl. }
  destruct Hk as [_ [[Hd Hp] | [Hz _]]].
  - rewrite Hd. right. rewrite put_none by (intros c [<- | []]; done). eexists. split; [done|]. split; [done|]. split; [done|]. split; [done|]. apply private_log; [done|].
    destruct Hp as [H1 H2 H3]. by constructor.
  - unfold dead. rewrite Hz. by left.
Qed.

Lemma reports_snoc l b : reports (l ++ [b]) = reports l ++ [EReap b 0; EOut stdout (status_text 0 b)].
Proof. unfold reports. rewrite List.map_app, concat_app. cbn. by rewrite ?app_nil_r. Qed.

(** The parent in wait. *)
Lemma par_wait b1 b2 f stat blk pend cs done log o s' :
  alive_inv b1 b2 (reaping (S f) stat) blk pend cs done log -> b2 <> 0 -> (length (map p_pid cs) < S f)%nat ->
  proj a log = reports done ->
  do_wait (Sys (par a pp (reaping (S f) stat) blk pend :: cs) log) (par a pp (reaping (S f) stat) blk pend) o false
    (reaping_k f stat) = Some s' -> inv s'.
Proof.
  intros Hi Hb2 Hf Hpa. destruct (alive_facts _ _ _ _ _ _ _ _ Hi) as (Hfa & Hn & Hnd).
  assert (forall q, In q cs -> p_pid q <> a) as Hna by (intros q Hq; by destruct (Hfa q Hq) as [(_ & ? & _) _]).
  pose proof (ai_cs _ _ _ _ _ _ _ _ Hi) as Hks. rewrite List.Forall_forall in Hks. unfold do_wait. cbn [procs plog].
  set (ps := par a pp _ blk pend :: cs).
  assert ((if existsb (fun q => child_of a q && dead q) ps then None
      else if negb (existsb (child_of a) ps) then answer (Sys ps log) (par a pp (reaping (S f) stat) blk pend) (reaping_k f stat) (-1, 0)
      else if blk then None else Some (put (Sys ps log) (block (par a pp (reaping (S f) stat) blk pend)))) = Some s' -> inv s') as Hrest.
  { destruct (existsb _ ps); [done|]. destruct (existsb (child_of a) ps) eqn:Ek; cbn [negb].
    - destruct blk; [done|]. intros [= <-]. unfold ps. rewrite par_put by done. eapply (inv_alive _ _ _ true).
      rewrite <- (app_nil_r log). eapply (par_goes _ _ _ _ _ _ _ _ _ _ []); [done|]. rewrite app_nil_r, Hpa. by apply at_wait.
    - destruct cs as [|c cs']; [|destruct (Hfa c (or_introl eq_refl)) as [_ E]; unfold ps in Ek; cbn in Ek;
        unfold child_of in Ek; rewrite E, Z.eqb_refl, orb_true_r in Ek; done].
      unfold answer. intros [= <-]. unfold ps. rewrite par_put by done. rewrite reaping_none. eapply (inv_alive _ _ fin false).
      rewrite <- (app_nil_r log). eapply (par_goes _ _ _ _ _ _ _ _ _ _ []); [done|]. rewrite app_nil_r, Hpa. by apply at_fin. }
  destruct (find_pid o ps) as [q|] eqn:Eo; [|exact Hrest].
  destruct q as [o' pq cq mq bq kq eq aq [st|]]; [|exact Hrest].
  assert (In (Proc o' pq cq mq bq kq eq aq (Some st)) cs) as Hq by by eapply find_kid.
  pose proof (find_pid_eq _ _ _ Eo) as Epid. cbn in Epid. subst o'.
  destruct (Hks _ Hq) as [Epp [[? _] | [[= ->] _]]]; [done|]. cbn in Epp. subst pq. cbn [p_pid par]. rewrite Z.eqb_refl.
  pose proof (Hna _ Hq) as Hoa. cbn in Hoa.
  assert (del_pid o ps = par a pp (reaping (S f) stat) blk pend :: del_pid o cs) as Edel.
  { unfold ps, del_pid. cbn [List.filter par p_pid]. by rewrite (proj2 (Z.eqb_neq a o)) by congruence. }
  rewrite Edel. unfold answer, add_log. cbn [procs plog]. intros [= <-].
  rewrite par_put; [|done|intros q [Hq' _]%in_del; by apply Hna].
  destruct (Hfa _ Hq) as [(Ho1 & _) _]. cbn in Ho1. rewrite reaping_some by lia.
  eapply (inv_alive _ _ _ false). exact (reap_inv _ _ _ _ _ _ _ _ _ _ Hi Hq eq_refl Hb2 Hf Hpa).
Qed.

Lemma par_run b1 b2 code blk pend cs done log o s' :
  alive_inv b1 b2 code blk pend cs done log ->
  run1 no_functions (Sys (par a pp code blk pend :: cs) log) (par a pp code blk pend) o = Some s' -> inv s'.
Proof.
  intros Hi. destruct (alive_facts _ _ _ _ _ _ _ _ Hi) as (Hfa & Hn & Hnd).
  assert (forall q, In q cs -> p_pid q <> a) as Hna by (intros q Hq; by destruct (Hfa q Hq) as [(_ & ? & _) _]).
  pose proof (ai_at _ _ _ _ _ _ _ _ Hi) as Hat. inversion Hat as [x Hk Hd E1 E2 E3|x Hk Hd E1 E2 E3|x Hk Hd E1 E2 E3|
    x f stat Hb2 Hf E1 E2 E3|x f done' b Hb2 Hf Hd E1 E2 E3|x Hb2 Hk E1 E2 E3|x Hb2 Hk E1 E2 E3]; subst; unfold run1; cbn [p_code par].
  - assert (x = b1) as ->.
    { pose proof (ai_kids _ _ _ _ _ _ _ _ Hi) as Hp. rewrite Hk in Hp. by apply Permutation_length_1 in Hp. }
    cbn [do_call]. destruct (fresh o _) eqn:Ef; unfold answer; intros [= <-].
    + unfold fresh in Ef. apply andb_prop in Ef as [Ho%Z.ltb_lt Hnot%negb_true_iff].
      cbn [procs existsb par p_pid p_ppid] in Hnot.
      apply orb_false_iff in Hnot as [[Hoa%Z.eqb_neq Hop%Z.eqb_neq]%orb_false_iff Hrest].
      destruct cs as [|q [|]]; try done. cbn in Hk. injection Hk as Eq. cbn [existsb] in Hrest.
      apply orb_false_iff in Hrest as [[Hoq%Z.eqb_neq _]%orb_false_iff _].
      unfold put. cbn [procs plog app]. rewrite put_cons_same by done.
      rewrite put_none by (intros c [<- | [<- | []]]; [by apply Hna; left|by cbn; congruence]).
      cbn [goto par]. rewrite fork2_parent by lia. eapply (inv_alive b1 o (reaping fuel 0) false pend [q; _] []).
      apply (second_child b1 _ _ _ [q] log o Hi); [by cbn; rewrite Eq|done|by split_and!; congruence || done|congruence].
    + rewrite par_put by done. eapply (inv_alive _ _ (Perror "fork" (Exit 1)) false).
      rewrite <- (app_nil_r log). eapply (par_goes _ _ _ _ _ _ _ _ _ _ []); [done|].
      rewrite app_nil_r, <- E3. by eapply at_fail.
  - intros [= <-]. rewrite par_put by done. unfold add_log. cbn [procs plog]. eapply (inv_alive _ _ _ false).
    eapply (par_goes _ _ _ _ _ _ _ _ _ _ [EPerror "fork"]); [done|]. rewrite <- E3. by eapply at_fail_exit.
  - intros [= <-]. assert (x = b1) as ->.
    { pose proof (ai_kids _ _ _ _ _ _ _ _ Hi) as Hp. rewrite Hk in Hp. by apply Permutation_length_1 in Hp. }
    by apply (exit_left b1).
  - destruct f as [|f]; [lia|]. rewrite reaping_S. cbn [do_call]. rewrite <- reaping_S. by eapply par_wait.
  - intros [= <-]. rewrite par_put by done. unfold add_log. cbn [procs plog]. eapply (inv_alive _ _ _ false).
    eapply (par_goes _ _ _ _ _ _ _ _ _ _ [EOut stdout (status_text 0 b)]); [done|].
    rewrite <- E3, <- app_assoc. cbn [app]. rewrite <- reports_snoc. by eapply at_wait.
  - intros [= <-]. rewrite par_put by done. unfold add_log. cbn [procs plog]. eapply (inv_alive _ _ _ false).
    eapply (par_goes _ _ _ _ _ _ _ _ _ _ [EOut stdout all_dead]); [done|]. rewrite <- E3. by eapply at_exit.
  - intros [= <-]. destruct cs; [|done]. by eapply exit_done.
Qed.

(** The parent's code is never a sleep. *)
Lemma par_wake b1 b2 code blk pend cs done log s' : alive_inv b1 b2 code blk pend cs done log ->
  wake (Sys (par a pp code blk pend :: cs) log) (par a pp code blk pend) <> Some s'.
Proof.
  intros Hi E. unfold wake in E. cbn [p_blocked p_code par] in E. destruct blk; [|done].
  pose proof (ai_at _ _ _ _ _ _ _ _ Hi) as Hat.
  inversion Hat as [? ? ?|? ? ?|? ? ?|? f ? ? ?|? f ? ? ? ?|?|?]; subst; try done.
  destruct f; [lia|]. by rewrite reaping_S in E.
Qed.

Lemma par_deliver b1 b2 code blk pend cs done log sig o s' : alive_inv b1 b2 code blk pend cs done log ->
  deliverable (par a pp code blk pend) sig = true ->
  deliver no_functions (Sys (par a pp code blk pend :: cs) log) (par a pp code blk pend) sig o = Some s' -> inv s'.
Proof.
  intros Hi Hdel. destruct (alive_facts _ _ _ _ _ _ _ _ Hi) as (Hfa & _ & _). unfold deliverable in Hdel.
  apply andb_prop in Hdel as [[Hpos%Z.leb_le Hpd]%andb_prop _].
  pose proof Hi as [H1 H2 H3 H4 H5 H6 H7 H8]. assert (sig = SIGCHLD) as -> by auto.
  unfold deliver. cbn [p_act par sa_handler act_default]. change (default_ignored SIGCHLD) with true. intros [= <-].
  rewrite par_put by (try done; intros q Hq; by destruct (Hfa q Hq) as [(_ & ? & _) _]).
  eapply (inv_alive b1 b2 code blk (sigdelset pend SIGCHLD)). constructor; try done.
  intros sig Hs. rewrite sigismember_del by (unfold SIGCHLD; lia). intros [? _]%andb_prop. auto.
Qed.

Lemma left_step b1 p q log m s' : pid_ok b1 -> dead p = true -> p_pid p = a -> p_ppid p = pp -> left_ok b1 log q ->
  (forall b, b <> a -> proj b log `prefix_of` kids_out c1 c2 b1 0 b) -> proj a log = [EPerror "fork"; EExit 256] ->
  internal m = true -> mover m = Some b1 -> step no_functions (Sys [p; q] log) m = Some s' -> inv s'.
Proof.
  intros Hb1 Hp Epid Eppid (Eq & Eppq & Hdq & Hpriv) Hpre Hpa Hm Emv E. pose proof Hb1 as (Hb & Hba & Hbp).
  assert (find_pid (p_pid q) [p; q] = Some q) as Hf.
  { cbn. rewrite Epid, Eq, Z.eqb_refl, (proj2 (Z.eqb_neq a b1)) by congruence. done. }
  rewrite <- Eq in Emv.
  destruct (private_move _ _ (Sys [p; q] log) q m s' Hpriv Hf Hdq Hm Emv E) as [(q' & es & -> & Hk & Hq') | (st & -> & Eo)];
    cbn [procs plog] in *.
  - injection Hk as E1 E2 E3. rewrite put_cons_other by congruence. rewrite put_cons_same by congruence.
    eapply (inv_left b1); try done.
    + right. eexists. split; [done|]. split; [congruence|]. split; [congruence|]. split; [congruence|done].
    + intros b Hbb. destruct (decide (b = b1)) as [-> | Hn].
      * pose proof (private_proc_prefix _ _ _ Hq') as H. by rewrite (eq_trans E1 Eq) in H.
      * rewrite proj_map_other by congruence. auto.
    + by rewrite proj_map_other by congruence.
  - assert (procs (do_exit (Sys [p; q] log) q st) = [p]) as Eps.
    { unfold do_exit. cbn [procs add_log]. rewrite disown_none; [|intros c [<- | [<- | []]]; congruence || lia].
      rewrite Eppq. cbn [Z.eqb]. change (1 =? 1) with true. cbn iota. unfold del_pid. cbn.
      rewrite Epid, (proj2 (Z.eqb_neq a (p_pid q))), Z.eqb_refl by congruence. done. }
    assert (plog (do_exit (Sys [p; q] log) q st) = log ++ [(p_pid q, EExit st)]) as El by done.
    destruct (do_exit (Sys [p; q] log) q st) as [ps' log']. cbn [procs plog] in Eps, El. subst.
    eapply (inv_left (p_pid q)); try done; [by left| |by rewrite proj_other by congruence].
    intros b Hbb. destruct (decide (b = p_pid q)) as [-> | Hn]; [|rewrite proj_other by done; auto].
    by rewrite proj_own, Eo.
Qed.

Lemma start_step m s' : internal m = true ->
  step no_functions (Sys [par a pp (Call Fork fork1_k) false 0] []) m = Some s' -> inv s'.
Proof.
  intros Hm [o E]%alone_step; [|done]. unfold run1 in E. cbn [p_code do_call] in E.
  destruct (fresh o _) eqn:Ef; unfold answer in E; injection E as <-; unfold put; cbn [procs plog app].
  - cbn in Ef. apply andb_prop in Ef as [Hb%Z.ltb_lt Hn%negb_true_iff].
    apply orb_false_iff in Hn as [[Hn1%Z.eqb_neq Hn2%Z.eqb_neq]%orb_false_iff _].
    rewrite put_cons_same by done. rewrite put_none by (intros c [<- | []]; by apply not_eq_sym).
    unfold goto. cbn [p_pid p_ppid p_mem p_mask p_pend p_act p_zombie]. rewrite fork1_parent by lia.
    assert (pid_ok o) as Hok by (split_and!; [done|by apply not_eq_sym|by apply not_eq_sym]).
    assert (kids_out c1 c2 o 0 o = kid_text "Child 1" o c1) as Hk.
    { unfold kids_out. by rewrite (proj2 (Z.eqb_neq o 0)), Z.eqb_refl by lia. }
    eapply (inv_alive o 0 (Call Fork fork2_k) false 0 [_] [] []). constructor; try done.
    + constructor; [done|constructor].
    + cbn. repeat constructor. by intros [].
    + intros sig Hs. unfold sigismember. by rewrite Z.bits_0.
    + constructor; [|constructor]. split; [done|]. left. split; [done|]. constructor; [|done|].
      * exists (kid_text "Child 1" o c1). split; [done|]. cbn [p_pid]. by rewrite Hk.
      * intros sig Hs. cbn. unfold sigismember. by rewrite Z.bits_0.
    + by eapply at_fork2.
  - rewrite put_cons_same by done.
    eapply (inv_alone (fun pid => if pid =? a then [EPerror "fork"; EExit 256] else [])).
    + apply private_single; [by rewrite Z.eqb_refl|]. intros b Hb. by rewrite (proj2 (Z.eqb_neq b a)).
    + intros b Hb. by rewrite (proj2 (Z.eqb_neq b a)).
    + by rewrite Z.eqb_refl.
Qed.

Lemma inv_step s m s' : internal m = true -> inv s -> step no_functions s m = Some s' -> inv s'.
Proof.
  intros Hm [ |o s0 Hs Ho Hoa|b1 b2 code blk pend cs done log Hi|b1 p cs log Hb1 Hp Epid Eppid Hcs Hpre Hpa|
    b1 b2 p done log Hb2 Hp Epid Eppid Hnd Hperm Hall Hpa].
  - by apply start_step.
  - intros E. eapply inv_alone; [by eapply private_step|done..].
  - destruct (decide (mover m = Some a)) as [Emv|Emv].
    + destruct m as [pid o|pid sig o|pid|pid sig]; cbn in Emv; [..|done]; injection Emv as ->;
        cbn [step procs find_pid List.find par p_pid]; rewrite Z.eqb_refl; cbn [dead p_zombie].
      * by eapply par_run.
      * destruct (deliverable _ sig) eqn:Ed; [|done]. by eapply par_deliver.
      * intros E. by destruct (par_wake _ _ _ _ _ _ _ _ s' Hi).
    + intros E. assert (exists q, In q cs /\ dead q = false /\ mover m = Some (p_pid q)) as (q & Hq & Hd & Eq).
      { assert (forall pid (f : proc -> option sys), pid <> a ->
          match find_pid pid (par a pp code blk pend :: cs) with Some p => if dead p then None else f p | None => None end = Some s' ->
          exists q, In q cs /\ dead q = false /\ Some pid = Some (p_pid q)) as Hon.
        { intros pid f Hn. destruct (find_pid pid _) as [q|] eqn:Ef; [|done]. destruct (dead q) eqn:Hd; [done|]. intros _.
          exists q. pose proof (find_pid_eq _ _ _ Ef). apply List.find_some in Ef as [[<- | Hq] _]; [by cbn in *|]. by subst. }
        destruct m as [pid o|pid sig o|pid|pid sig]; cbn [step procs mover] in *; [..|done];
          (refine (Hon pid _ _ E); intros ->; done). }
      by eapply kid_step.
  - intros E. assert (exists q, cs = [q] /\ left_ok b1 log q /\ mover m = Some b1) as (q & -> & Hq & Emv).
    { assert (forall pid (f : proc -> option sys),
          match find_pid pid (p :: cs) with Some p => if dead p then None else f p | None => None end = Some s' ->
          exists q, cs = [q] /\ left_ok b1 log q /\ Some pid = Some b1) as Hon.
      { intros pid f. destruct Hcs as [-> | (q & -> & Hq)].
        - cbn. destruct (p_pid p =? pid); [by rewrite Hp|done].
        - cbn. destruct (p_pid p =? pid); [by rewrite Hp|]. destruct (Z.eqb_spec (p_pid q) pid) as [<- | ?]; [|done].
          intros _. exists q. pose proof Hq as (Eq & _). by rewrite Eq. }
      destruct m as [pid o|pid sig o|pid|pid sig]; cbn [step procs mover] in *; [..|done];
        exact (Hon pid _ E). }
    by eapply left_step.
  - destruct m as [pid o|pid sig o|pid|pid sig]; [..|done]; cbn [step procs find_pid List.find];
      (destruct (p_pid p =? pid); [by rewrite Hp|done]).
Qed.

Lemma wait_alone code blk pend log k :
  do_wait (Sys [par a pp code blk pend] log) (par a pp code blk pend) 0 false k =
  answer (Sys [par a pp code blk pend] log) (par a pp code blk pend) k (-1, 0).
Proof.
  unfold do_wait. cbn -[Z.eqb answer par]. cbn [par p_pid]. unfold child_of. cbn -[Z.eqb answer].
  rewrite (proj2 (Z.eqb_neq pp a)) by done. by destruct (a =? 0).
Qed.

(** As long as a process lives, the system can move. *)
Lemma inv_progress s q : inv s -> In q (procs s) -> dead q = false ->
  exists m s', internal m = true /\ step no_functions s m = Some s'.
Proof.
  assert (forall out s p, private_proc out (plog s) p -> find_pid (p_pid p) (procs s) = Some p -> dead p = false ->
    exists m s', internal m = true /\ step no_functions s m = Some s') as Hpriv.
  { intros out s0 p Hp Hf Hd. destruct (private_can_move out no_functions s0 p Hp Hf Hd) as [s' [E|E]];
      [by exists (Run (p_pid p) 0), s' | by exists (Wake (p_pid p)), s']. }
  intros [ |o s0 Hs Ho Hoa|b1 b2 code blk pend cs done log Hi|b1 p cs log Hb1 Hp Epid Eppid Hcs Hpre Hpa|
    b1 b2 p done log Hb2 Hp Epid Eppid Hnd Hperm Hall Hpa] Hq Hd.
  - exists (Run a 0). cbn [step procs find_pid List.find par p_pid]. rewrite Z.eqb_refl.
    unfold run1. cbn [p_code dead p_zombie do_call fresh]. by eexists.
  - eapply Hpriv; [by apply (ps_live _ _ Hs q)|by apply find_in; [apply (ps_unique _ _ Hs)|..]|done].
  - clear Hq Hd q. destruct (alive_facts _ _ _ _ _ _ _ _ Hi) as (Hfa & Hn & Hnd).
    assert (forall o, (exists s', run1 no_functions (Sys (par a pp code blk pend :: cs) log) (par a pp code blk pend) o = Some s') ->
      exists m s', internal m = true /\ step no_functions (Sys (par a pp code blk pend :: cs) log) m = Some s') as Hrun.
    { intros o [s' E]. exists (Run a o), s'. split; [done|]. cbn [step procs find_pid List.find par p_pid]. by rewrite Z.eqb_refl. }
    assert (forall q, In q cs -> find_pid (p_pid q) (par a pp code blk pend :: cs) = Some q) as Hfind.
    { intros q Hq. cbn [find_pid List.find par p_pid]. destruct (Hfa q Hq) as [(_ & ? & _) _].
      rewrite (proj2 (Z.eqb_neq a (p_pid q))) by congruence. by apply find_in. }
    pose proof (ai_cs _ _ _ _ _ _ _ _ Hi) as Hks. rewrite List.Forall_forall in Hks.
    pose proof (ai_at _ _ _ _ _ _ _ _ Hi) as Hat. inversion Hat as [x Hk E0 E1 E2 E3|x Hk E0 E1 E2 E3|x Hk E0 E1 E2 E3|
      x f stat Hb2 Hf E1 E2 E3|x f done' b Hb2 Hf E0 E1 E2 E3|x Hb2 Hk E1 E2 E3|x Hb2 Hk E1 E2 E3]; subst;
      try (apply (Hrun 0); by eexists).
    destruct f as [|f]; [lia|]. destruct cs as [|q cs'].
    + apply (Hrun 0). unfold run1. cbn [p_code par]. rewrite reaping_S. cbn [do_call].
      rewrite <- reaping_S. setoid_rewrite wait_alone. by eexists.
    + destruct (Hks q (or_introl eq_refl)) as [Hpp' [[Hd Hp] | [Hz _]]].
      * eapply (Hpriv _ (Sys _ log)); [exact Hp|apply Hfind; by left|done].
      * apply (Hrun (p_pid q)). unfold run1. cbn [p_code par]. rewrite reaping_S. cbn [do_call]. rewrite <- reaping_S.
        unfold do_wait. cbn [procs]. setoid_rewrite (Hfind q (or_introl eq_refl)).
        destruct q as [i0 i1 i2 i3 i4 i5 i6 i7 z]. cbn in Hz, Hpp'. subst. cbn [p_pid par]. rewrite Z.eqb_refl. by eexists.
  - destruct Hcs as [-> | (c & -> & Hc)]; [destruct Hq as [<- | []]; congruence|].
    destruct Hc as (Ec & _ & Hdc & Hpc). destruct Hb1 as (_ & Hba & _).
    eapply (Hpriv _ (Sys [p; c] log)); [done| |done]. cbn. rewrite Epid, Ec, Z.eqb_refl.
    by rewrite (proj2 (Z.eqb_neq a b1)) by congruence.
  - destruct Hq as [<- | []]. congruence.
Qed.
End Run.

(** *** The whole program *)

(** What main says of its arguments, if it does not accept them. *)
Definition arg_error (argv : list string) : option string :=
  let bad which arg := cat [arg_n argv 0; ": ensure "; which; " param ["; fmt_d (wrapu 16 (atoi arg));
                            "] is within acceptable range [1-60]"; nl] in
  if argc argv =? 3 then
    if chkrange (wrapu 16 (atoi (arg_n argv 1))) 1 60 <? 0 then Some (bad "first" (arg_n argv 1))
    else if chkrange (wrapu 16 (atoi (arg_n argv 2))) 1 60 <? 0 then Some (bad "second" (arg_n argv 2))
    else None
  else None.

Definition times (argv : list string) : Z * Z :=
  if argc argv =? 3 then (wrapu 16 (atoi (arg_n argv 1)), wrapu 16 (atoi (arg_n argv 2))) else (3, 7).

Lemma main_start fuel argv : pbind (fun r => Exit r) (main fuel argv) =
  match arg_error argv with
  | Some txt => Out stderr txt (Exit 1)
  | None => Call Fork (fork1_k fuel (fst (times argv)) (snd (times argv)))
  end.
Proof.
  unfold main, arg_error, times, sleep_arg. destruct (argc argv =? 3); [|done].
  destruct (chkrange (wrapu 16 (atoi (arg_n argv 1))) 1 60 <? 0); [done|].
  by destruct (chkrange (wrapu 16 (atoi (arg_n argv 2))) 1 60 <? 0).
Qed.

(** The parent's text when it fetched [done], in that order. *)
Definition parent_text (done : list Z) : list pevent := reports done ++ [EOut stdout all_dead; EExit 0].

(** What holds of a system of fork2c at any time. *)
Definition reaped_all (argv : list string) (a : Z) (s : sys) : Prop :=
  let log := plog s in
  exists b1 b2 done,
    (forall pid, pid <> a -> proj pid log `prefix_of` kids_out (fst (times argv)) (snd (times argv)) b1 b2 pid) /\
    (proj a log `prefix_of` parent_text done \/ proj a log `prefix_of` [EPerror "fork"; EExit 256]) /\
    List.NoDup done /\ incl done [b1; b2] /\
    (EOut stdout all_dead ∈ proj a log ->
       Permutation done [b1; b2] /\ map p_pid (procs s) = [a] /\
       forall pid, pid <> a -> proj pid log = kids_out (fst (times argv)) (snd (times argv)) b1 b2 pid).

Lemma reports_no_text l : ~ In (EOut stdout all_dead) (reports l).
Proof.
  unfold reports. induction l as [|b l IH]; cbn; [by intros []|]. intros [E|[E|?]]; [done| |done].
  injection E as E. by vm_compute in E.
Qed.

Lemma created_two b1 b2 : b2 <> 0 -> created b1 b2 = [b1; b2].
Proof. intros H. unfold created. by rewrite (proj2 (Z.eqb_neq b2 0)). Qed.

Lemma created_incl b1 b2 : incl (created b1 b2) [b1; b2].
Proof. unfold created. destruct (b2 =? 0); [|apply incl_refl]. intros x [<- | []]. by left. Qed.

(** What the parent has done, wherever it is. *)
Lemma at_parent_text fuel c1 c2 kids done b2 code l : at_parent fuel c1 c2 kids done b2 code l ->
  l `prefix_of` parent_text done \/ l `prefix_of` [EPerror "fork"; EExit 256].
Proof.
  unfold parent_text. intros [x Hk Hd|x Hk Hd|x Hk Hd|x f stat Hb2 Hf|x f done' b Hb2 Hf ->|x Hb2 Hk|x Hb2 Hk].
  - left. apply prefix_nil.
  - left. apply prefix_nil.
  - right. by eexists [_].
  - left. by eexists.
  - left. rewrite reports_snoc, <- app_assoc. apply prefix_app. by eexists.
  - left. by eexists.
  - left. apply prefix_app. by eexists [_].
Qed.

(** When it has said that all are dead, they are. *)
Lemma at_parent_said fuel c1 c2 kids done b2 code l : at_parent fuel c1 c2 kids done b2 code l ->
  EOut stdout all_dead ∈ l -> kids = [] /\ b2 <> 0.
Proof.
  intros [x Hk Hd|x Hk Hd|x Hk Hd|x f stat Hb2 Hf|x f done' b Hb2 Hf ->|x Hb2 Hk|x Hb2 Hk] Hin%list_elem_of_In; try done.
  - by destruct Hin as [?|[]].
  - by apply reports_no_text in Hin.
  - apply in_app_or in Hin as [Hin|[?|[]]]; [by apply reports_no_text in Hin|done].
Qed.

Lemma said_error : EOut stdout all_dead ∈ [EPerror "fork"; EExit 256] -> False.
Proof. intros Hin%list_elem_of_In. by destruct Hin as [?|[?|[]]]. Qed.

Lemma prefix_elem {A} (x : A) l l' : l `prefix_of` l' -> x ∈ l -> x ∈ l'.
Proof. intros [t ->] Hx. apply elem_of_app. by left. Qed.

Lemma inv_result fuel argv a pp s :
  (3 <= fuel)%nat -> 1 < a -> pp <> a -> inv fuel (fst (times argv)) (snd (times argv)) a pp s -> reaped_all argv a s.
Proof.
  intros Hfuel Ha Hne Hi. unfold reaped_all. destruct Hi as [ |o s0 Hs Ho Hoa|b1 b2 code blk pend cs done log Hi|
    b1 p cs log Hb1 Hp Epid Eppid Hcs Hpre Hpa|b1 b2 p done log Hb2 Hp Epid Eppid Hnd Hperm Hall Hpa]; cbn [plog procs].
  - exists 0, 0, []. split; [intros; apply prefix_nil|]. split; [left; apply prefix_nil|].
    split; [constructor|]. split; [by intros x []|]. intros []%elem_of_nil.
  - pose proof (private_prefix _ _ a Hs) as H. rewrite Hoa in H.
    exists 0, 0, []. split; [intros pid Hn; pose proof (private_prefix _ _ pid Hs) as H'; rewrite Ho in H' by done;
      apply prefix_nil_inv in H'; rewrite H'; apply prefix_nil|]. split; [by right|].
    split; [constructor|]. split; [by intros x []|]. intros Hin. destruct said_error. by eapply prefix_elem.
  - pose proof Hi as [H1 H2 H3 H4 H5 H6 H7 H8]. exists b1, b2, done. split; [intros pid Hn; by eapply alive_prefix|].
    split; [by eapply at_parent_text|]. pose proof (Permutation_NoDup H3 H2) as Hn.
    split; [apply NoDup_ListNoDup in Hn; apply NoDup_ListNoDup; by apply NoDup_app in Hn as (_ & _ & ?)|].
    split; [intros x Hx; apply created_incl; eapply Permutation_in; [by symmetry|]; apply in_or_app; by right|].
    intros Hin. destruct (at_parent_said _ _ _ _ _ _ _ _ H8 Hin) as [Hk Hb2]. destruct cs; [|done].
    cbn in H3. rewrite created_two in H3 by done. split; [by symmetry|]. split; [done|].
    intros pid Hpid. by eapply alive_done.
  - exists b1, 0, []. split; [done|]. split; [right; by rewrite Hpa|]. split; [constructor|]. split; [by intros x []|].
    rewrite Hpa. by intros ?%said_error.
  - exists b1, b2, done. split; [intros pid Hn; by rewrite Hall|]. split; [left; by rewrite Hpa|].
    split; [by eapply Permutation_NoDup|]. rewrite created_two in Hperm by done.
    split; [intros x Hx; eapply Permutation_in; [by symmetry|done]|]. intros _. split; [by symmetry|].
    split; [by rewrite <- Epid|done].
Qed.

(** C25: fork2c.c reaps and reports every child.  In every schedule each child prints its
    line with its own number and time; the parent fetches children one by one, each at
    most once and with status 0, and reports each of them; when it says that all
    children are dead it has fetched and reported both, they have finished, and the
    parent is the only process left.  Where a fork fails it only reports the error; bad
    arguments are refused before anything is forked.  As long as a process is alive,
    the system can go on: it does not deadlock. *)
Theorem fork2c_reaps_all fuel argv a pp ms s' :
  (3 <= fuel)%nat -> 1 < a -> 1 < pp -> pp <> a ->
  Forall (fun m => internal m = true) ms ->
  steps no_functions (Sys [boot a pp (main fuel argv)] []) ms = Some s' ->
  match arg_error argv with
  | Some txt => forall pid, proj pid (plog s') `prefix_of` (if pid =? a then [EOut stderr txt; EExit 256] else [])
  | None =>
      reaped_all argv a s' /\
      (forall q, In q (procs s') -> dead q = false ->
        exists m s'', internal m = true /\ step no_functions s' m = Some s'')
  end.
Proof.
  intros Hf Ha Hpp Hne Hm. unfold boot. rewrite main_start. destruct (arg_error argv) as [txt|]; intros Hs.
  - intros pid. refine (private_prefix (fun pid => if pid =? a then [EOut stderr txt; EExit 256] else []) _ pid _).
    eapply private_steps; [done| |done]. apply private_single; [by rewrite Z.eqb_refl|].
    intros b Hb. by rewrite (proj2 (Z.eqb_neq b a)).
  - assert (inv fuel (fst (times argv)) (snd (times argv)) a pp s') as Hi.
    { eapply (moves_inv no_functions (fun m => internal m = true)); [|apply inv_start|done..].
      intros s m s1 H1 H2. by apply inv_step. }
    split; [by eapply inv_result|]. intros q. by eapply inv_progress.
Qed.

(** The second child is done first. *)
Definition eg_moves : list move :=
  [Run 100 101; Run 100 102; Run 102 0; Run 102 0; Run 101 0; Run 100 0; Run 102 0; Wake 102; Run 102 0;
   Deliver 100 SIGCHLD 0; Run 100 102; Run 100 0; Run 101 0; Run 101 0; Wake 101; Run 101 0; Run 100 101; Run 100 0;
   Run 100 0; Run 100 0; Run 100 0].

Lemma fork2c_reaps_all_witness : exists s',
  steps no_functions (Sys [boot 100 50 (main 3 ["fork2c"; "5"; "2"])] []) eg_moves = Some s' /\
  proj 100 (plog s') = parent_text [102; 101] /\
  reaped_all ["fork2c"; "5"; "2"] 100 s'.
Proof.
  destruct (steps no_functions (Sys [boot 100 50 (main 3 ["fork2c"; "5"; "2"])] []) eg_moves) as [s'|] eqn:E;
    [|by vm_compute in E].
  exists s'. split; [done|]. split; [by vm_compute in E; injection E as <-; vm_compute|].
  assert (arg_error ["fork2c"; "5"; "2"] = None) as Ea by by vm_compute.
  assert (Forall (fun m => internal m = true) eg_moves) as Hm by by repeat constructor.
  pose proof (fork2c_reaps_all 3 ["fork2c"; "5"; "2"] 100 50 eg_moves s' ltac:(lia) ltac:(lia) ltac:(lia) ltac:(lia) Hm E) as H.
  rewrite Ea in H. exact (proj1 H).
Defined.
