(* ===== verification/SigDemo.v ===== *)
(** Signal programs on the machine of [Proc]: src/signalling/killer.c ([Killer]). *)
From S2P Require Import Prelude CMonad CLib Decimal Proc ForkDemo Fork2c.

(** ** killer.c *)

Module Killer.

Definition SIG2SEND : Z := SIGUSR1.
Definition MAXTRIES : Z := 3.

Definition catchit (signo : Z) : prog unit :=
  if signo =? SIG2SEND then
    me ← pcall1 Getpid;
    pprintf (cat ["catcher: process "; fmt_d me; " received signal "; fmt_d SIG2SEND; "; will now die."; nl]) ≫= fun _ =>
    pexit 0
  else pprintf (cat ["catchit: error, handler for "; fmt_d SIG2SEND; " only"; nl]).

(** One turn of [while (kill(pid, 0) < 0)]. *)
Definition poll_iter (argv0 : string) (pid try_ : Z) : prog (Z + unit) :=
  r ← pcall1 (Kill pid 0);
  if r <? 0 then
    pprintf "." ≫= fun _ =>
    if MAXTRIES <=? try_ then
      pfprintf stderr (cat [nl; argv0; ": parent: child still not alive, aborting.."; nl]) ≫= fun _ => pexit 1
    else pcall1 (Sleep 1) ≫= fun _ => mret (inl (try_ + 1))
  else mret (inr tt).

(** The parent's case; the loop ends at the latest when try is MAXTRIES. *)
Definition parent (argv0 : string) (pid : Z) : prog unit :=
  me ← pcall1 Getpid;
  pprintf (cat ["parent is "; fmt_d me; ", child is "; fmt_d pid; nl]) ≫= fun _ =>
  ploop 5 (poll_iter argv0 pid) 0 ≫= fun _ =>
  pprintf nl ≫= fun _ =>
  r ← pcall1 (Kill pid SIG2SEND);
  if r <? 0 then pperror "kill(2) failed" ≫= fun _ => pexit 1
  else
    n ← pcall1 (Wait false);
    if n =? -1 then pperror "wait failed" ≫= fun _ => pexit 1
    else
      me ← pcall1 Getpid;
      pprintf (cat ["parent "; fmt_d me; ": child process fetched, wait returned "; fmt_d n; nl]).

Definition main (argv0 : string) : prog Z :=
  r ← pcall1 (Sigaction SIG2SEND (Sigact (SIG_FN "catchit") sigemptyset SA_RESTART));
  if r =? -1 then pperror "killer: sigaction failed." ≫= fun _ => pexit 1
  else
    pid ← pcall1 Fork;
    (if pid =? -1 then pperror "fork failed" ≫= fun _ => pexit 1
     else if pid =? 0 then pcall1 Pause ≫= fun _ => pexit 0
     else parent argv0 pid) ≫= fun _ =>
    mret 0.

Definition functions : table := fun f sig => if String.eqb f "catchit" then catchit sig else Forever "".

(** *** The states *)

Section Run.
Context (argv0 : string) (a pp : Z) (Ha : 1 < a) (Hpp : 1 < pp) (Hne : pp <> a).

Definition acts : Z -> sigact :=
  fun x => if x =? SIG2SEND then Sigact (SIG_FN "catchit") sigemptyset SA_RESTART else act_default.

Definition pa (code : prog unit) (blk : bool) (pend : Z) : proc := Proc a pp code mem0 blk 0 pend acts None.

Definition kid (b : Z) (code : prog unit) (blk : bool) (mask pend : Z) : proc :=
  Proc b a code mem0 blk mask pend acts None.

Definition next (r : Z) (code : prog unit) : prog unit :=
  match code with Call _ k => k (r, 0) | Out _ _ k => k | c => c end.

(** The code of the parent, from the fork on. *)
Definition P1 (b : Z) : prog unit :=
  pbind (fun r => Exit r) (pbind (fun _ => mret 0) (parent argv0 b)).
Definition P2 (b : Z) : prog unit := next a (P1 b).
Definition P3 (b : Z) : prog unit := next 0 (P2 b).
Definition P4 (b : Z) : prog unit := next 0 (P3 b).
Definition P5 (b : Z) : prog unit := next 0 (P4 b).
Definition P6 (b : Z) : prog unit := next 0 (P5 b).

Definition text1 (b : Z) : string := cat ["parent is "; fmt_d a; ", child is "; fmt_d b; nl].
Definition text2 (b : Z) : string :=
  cat ["catcher: process "; fmt_d b; " received signal "; fmt_d SIG2SEND; "; will now die."; nl].
Definition text3 (b : Z) : string :=
  cat ["parent "; fmt_d a; ": child process fetched, wait returned "; fmt_d b; nl].

Definition P8 (b : Z) : prog unit := Out stdout (text3 b) (Exit 0).

(** The whole run, in order. *)
Definition story (b : Z) : list (Z * pevent) :=
  [(a, EOut stdout (text1 b)); (a, EOut stdout nl); (b, EHandler SIG2SEND); (b, EOut stdout (text2 b)); (b, EExit 0);
   (a, EReap b 0); (a, EOut stdout (text3 b)); (a, EExit 0)].

Definition pausing : prog unit := Call Pause (fun _ => Exit 0).

Example parent_codes b :
  (exists k, P1 b = Call Getpid k /\ k (a, 0) = P2 b) /\ P2 b = Out stdout (text1 b) (P3 b) /\
  (exists k, P3 b = Call (Kill b 0) k /\ k (0, 0) = P4 b) /\ P4 b = Out stdout nl (P5 b) /\
  (exists k, P5 b = Call (Kill b SIG2SEND) k /\ k (0, 0) = P6 b) /\
  (exists k, P6 b = Call (Wait false) k /\ (b <> -1 -> exists k', k (b, 0) = Call Getpid k' /\ k' (a, 0) = P8 b)).
Proof.
  split; [by eexists|]. split; [done|]. split; [by eexists|]. split; [done|]. split; [by eexists|].
  eexists. split; [reflexivity|]. intros Hb. eexists. cbn [fst pbind mbind prog_bind]. rewrite (proj2 (Z.eqb_neq b (-1))) by done.
  split; [reflexivity|done].
Qed.

(** The child in its handler. *)
Definition catching : prog unit :=
  Call Getpid (fun r => Out stdout (cat ["catcher: process "; fmt_d (fst r); " received signal "; fmt_d SIG2SEND;
                                         "; will now die."; nl]) (Exit 0)).

(** The child after the signal was sent, and how much of the story is told. *)
Inductive signalled (b : Z) : proc -> nat -> Prop :=
| sig_pending blk : signalled b (kid b pausing blk 0 (sigaddset 0 SIG2SEND)) 2
| sig_handler mask : signalled b (kid b catching false mask 0) 3
| sig_print mask : signalled b (kid b (Out stdout (text2 b) (Exit 0)) false mask 0) 3
| sig_exit mask : signalled b (kid b (Exit 0) false mask 0) 4
| sig_dead q : p_pid q = b -> p_ppid q = a -> p_zombie q = Some 0 -> signalled b q 5.

(** The parent after it fetched the child. *)
Inductive fetched (b : Z) : prog unit -> nat -> Prop :=
| fetched_getpid k : k (a, 0) = P8 b -> fetched b (Call Getpid k) 6
| fetched_print : fetched b (P8 b) 6
| fetched_exit : fetched b (Exit 0) 7.

(** Before the signal is sent. *)
Inductive unsent (b : Z) : prog unit -> nat -> Prop :=
| unsent_1 : unsent b (P1 b) 0
| unsent_2 : unsent b (P2 b) 0
| unsent_3 : unsent b (P3 b) 1
| unsent_4 : unsent b (P4 b) 1
| unsent_5 : unsent b (P5 b) 2.

Definition pid_ok (b : Z) : Prop := 1 < b /\ b <> a /\ b <> pp.

Definition at_fork : prog unit :=
  match boot a pp (main argv0) with Proc _ _ (Call _ k) _ _ _ _ _ _ => k (0, 0) | _ => Ret tt end.

Inductive reach : sys -> Prop :=
| reach_start : reach (Sys [boot a pp (main argv0)] [])
| reach_fork : reach (Sys [pa at_fork false 0] [])
| reach_fail1 : reach (Sys [pa (Perror "fork failed" (Exit 1)) false 0] [])
| reach_fail2 : reach (Sys [pa (Exit 1) false 0] [(a, EPerror "fork failed")])
| reach_fail3 p : dead p = true -> reach (Sys [p] [(a, EPerror "fork failed"); (a, EExit 256)])
| reach_unsent b code n blk : pid_ok b -> unsent b code n ->
    reach (Sys [pa code false 0; kid b pausing blk 0 0] (take n (story b)))
| reach_wait b blk pend q n : pid_ok b -> only SIGCHLD pend -> signalled b q n ->
    reach (Sys [pa (P6 b) blk pend; q] (take n (story b)))
| reach_fetched b code n pend : pid_ok b -> only SIGCHLD pend -> fetched b code n ->
    reach (Sys [pa code false pend] (take n (story b)))
| reach_done b p : pid_ok b -> dead p = true -> reach (Sys [p] (story b)).

(** A parent with at most SIGCHLD pending ignores it. *)
Lemma pa_deliver code blk pend ps log sig o s' : only SIGCHLD pend ->
  deliverable (pa code blk pend) sig = true ->
  deliver functions (Sys ps log) (pa code blk pend) sig o = Some s' ->
  exists pend', only SIGCHLD pend' /\ s' = put (Sys ps log) (pa code blk pend').
Proof.
  intros Ho Hd. pose proof (deliverable_only SIGCHLD (pa code blk pend) sig Ho Hd) as ->. unfold deliver. cbn.
  intros [= <-]. exists (sigdelset pend SIGCHLD). split; [by apply only_del|done].
Qed.

(** A move of the parent, of the child. *)
Lemma put_pa code blk pend q log code' blk' pend' : p_pid q <> a ->
  put (Sys [pa code blk pend; q] log) (pa code' blk' pend') = Sys [pa code' blk' pend'; q] log.
Proof. intros Hq. apply put_first; [done|]. by intros c [<- | []]. Qed.

Lemma put_pa1 code blk pend log code' blk' pend' :
  put (Sys [pa code blk pend] log) (pa code' blk' pend') = Sys [pa code' blk' pend'] log.
Proof. by apply put_first. Qed.

Lemma put_kid code blk pend q q' log : p_pid q <> a -> p_pid q' = p_pid q ->
  put (Sys [pa code blk pend; q] log) q' = Sys [pa code blk pend; q'] log.
Proof. intros Hq E. by apply put_second; [apply not_eq_sym|]. Qed.

Lemma goto_pa code blk pend c : goto (pa code blk pend) c = pa c false pend.
Proof. done. Qed.

Lemma unsent_step b code n blk m s' : pid_ok b -> unsent b code n -> internal m = true ->
  step functions (Sys [pa code false 0; kid b pausing blk 0 0] (take n (story b))) m = Some s' -> reach s'.
Proof.
  intros Hb Hu Hm (p & Hin & Hd & Hmv)%step_moves; [|done]. pose proof Hb as (Hb1 & Hba & Hbp).
  destruct (parent_codes b) as ((k1 & E1 & E1') & E2 & (k3 & E3 & E3') & E4 & (k5 & E5 & E5') & _).
  destruct Hin as [<- | [<- | []]].
  - destruct Hmv as [[o E] | [(sig & o & Edel & _) | E]]; [|by rewrite deliverable_none in Edel|done].
    unfold run1 in E. cbn [p_code pa] in E.
    assert (find_pid b [pa code false 0; kid b pausing blk 0 0] = Some (kid b pausing blk 0 0)) as Hf.
    { cbn -[Z.eqb]. by rewrite (proj2 (Z.eqb_neq a b)), Z.eqb_refl by congruence. }
    destruct Hu.
    + rewrite E1 in E. injection E as <-. rewrite goto_pa, put_pa by done. rewrite E1'.
      eapply (reach_unsent b _ 0); [done|constructor].
    + rewrite E2 in E. injection E as <-. rewrite goto_pa, put_pa by done. unfold add_log. cbn [procs plog].
      eapply (reach_unsent b _ 1); [done|constructor].
    + rewrite E3 in E, Hf. cbn [do_call procs] in E. rewrite Hf in E. change (0 =? 0) with true in E. injection E as <-.
      rewrite goto_pa, put_pa by done. rewrite E3'. eapply (reach_unsent b _ 1); [done|constructor].
    + rewrite E4 in E. injection E as <-. rewrite goto_pa, put_pa by done. unfold add_log. cbn [procs plog].
      eapply (reach_unsent b _ 2); [done|constructor].
    + rewrite E5 in E, Hf. cbn [do_call procs] in E. rewrite Hf in E. change (SIG2SEND =? 0) with false in E.
      change (p_pid (pa _ _ _)) with a in E. rewrite (proj2 (Z.eqb_neq b a)) in E by done. injection E as <-.
      rewrite goto_pa. unfold post_signal. cbn [map]. change (p_pid (pa _ _ _)) with a. change (p_pid (kid b _ _ _ _)) with b.
      rewrite (proj2 (Z.eqb_neq a b)), Z.eqb_refl by congruence. cbn [andb negb dead p_zombie kid].
      rewrite put_pa by done. rewrite E5'.
      apply (reach_wait b false 0 _ 2); [done|auto with proc|exact (sig_pending b blk)].
  - destruct Hmv as [[o E] | [(sig & o & Edel & _) | E]]; [|by rewrite deliverable_none in Edel|].
    + unfold run1 in E. cbn [p_code kid pausing do_call p_blocked] in E. destruct blk; [done|]. injection E as <-.
      rewrite put_kid by done. by apply (reach_unsent b _ n true).
    + unfold wake in E. cbn [p_code kid pausing p_blocked] in E. by destruct blk.
Qed.

Lemma fetched_step b code n pend m s' : pid_ok b -> only SIGCHLD pend -> fetched b code n -> internal m = true ->
  step functions (Sys [pa code false pend] (take n (story b))) m = Some s' -> reach s'.
Proof.
  intros Hb Hp Hf Hm (p & Hin & Hd & Hmv)%step_moves; [|done]. destruct Hin as [<- | []].
  destruct Hmv as [[o E] | [(sig & o & Edel & E) | E]]; [| |done].
  - unfold run1 in E. cbn [p_code pa] in E. destruct Hf as [k Ek| | ].
    + cbn [do_call] in E. unfold answer in E. injection E as <-.
      rewrite goto_pa. rewrite put_pa1, Ek. apply (reach_fetched b _ 6); [done..|constructor].
    + injection E as <-. rewrite goto_pa. rewrite put_pa1. unfold add_log. cbn [procs plog].
      apply (reach_fetched b _ 7); [done..|constructor].
    + injection E as <-. assert (pp <> 1) by lia. unfold do_exit, disown. eqbs. by apply reach_done.
  - destruct (pa_deliver _ _ _ _ _ _ _ _ Hp Edel E) as (pend' & Hp' & ->). rewrite put_pa1. by eapply reach_fetched.
Qed.

Lemma reach_block b pend q n : pid_ok b -> only SIGCHLD pend -> signalled b q n ->
  reach (put (Sys [pa (P6 b) false pend; q] (take n (story b))) (block (pa (P6 b) false pend))).
Proof.
  intros Hb Hp Hq. assert (p_pid q <> a) by (destruct Hb as (_ & ? & _); destruct Hq; cbn; congruence).
  change (block _) with (pa (P6 b) true pend). rewrite put_pa by done. by apply reach_wait.
Qed.

(** The parent's wait. *)
Lemma wait_run b blk pend q n k o s' : pid_ok b -> only SIGCHLD pend -> signalled b q n ->
  P6 b = Call (Wait false) k ->
  do_wait (Sys [pa (P6 b) blk pend; q] (take n (story b))) (pa (P6 b) blk pend) o false k = Some s' -> reach s'.
Proof.
  intros Hb Hp Hq Ek. pose proof Hb as (Hb1 & Hba & Hbp).
  assert (p_pid q = b /\ p_ppid q = a) as [Eq Eqq] by by destruct Hq.
  destruct (parent_codes b) as (_ & _ & _ & _ & _ & (k6 & E6 & E6')).
  destruct (E6' ltac:(lia)) as (k7 & E7 & E7'). assert (k = k6) as -> by congruence.
  unfold do_wait. cbn [procs plog].
  assert (existsb (fun c => child_of a c && dead c) [pa (P6 b) blk pend; q] = dead q) as Hx.
  { cbn -[Z.eqb]. unfold child_of. rewrite Eqq, Z.eqb_refl. change (p_ppid (pa _ _ _)) with pp.
    rewrite (proj2 (Z.eqb_neq pp a)) by done. cbn. by destruct (dead q). }
  assert (existsb (child_of a) [pa (P6 b) blk pend; q] = true) as Hy.
  { cbn -[Z.eqb]. unfold child_of. by rewrite Eqq, Z.eqb_refl, orb_true_r. }
  change (p_pid (pa _ _ _)) with a. rewrite Hx, Hy. cbn [negb].
  destruct Hq as [blk'|mask|mask|mask|q Eq' Eqq' Hz].
  1-4: unfold find_pid; cbn [List.find]; destruct (p_pid (pa _ _ _) =? o); [|destruct (p_pid (kid _ _ _ _ _) =? o)];
    (destruct blk; [done|]); intros [= <-]; 
    first [refine (reach_block b pend _ 2 Hb Hp _); constructor | refine (reach_block b pend _ 3 Hb Hp _); constructor
          | refine (reach_block b pend _ 4 Hb Hp _); constructor].
  assert (dead q = true) as -> by (unfold dead; by rewrite Hz).
  unfold find_pid. cbn [List.find]. change (p_pid (pa _ _ _)) with a. destruct (Z.eqb_spec a o) as [<- | Ho]; [done|].
  rewrite Eq. destruct (Z.eqb_spec b o) as [<- | Ho']; [|done].
  destruct q as [i0 i1 i2 i3 i4 i5 i6 i7 z]. cbn in Eq, Eqq, Hz. subst. rewrite Z.eqb_refl. unfold answer. intros [= <-].
  unfold add_log, del_pid. cbn -[Z.eqb put pa story]. change (p_pid (pa _ _ _)) with a.
  rewrite Z.eqb_refl, (proj2 (Z.eqb_neq a i0)) by congruence. cbn [negb]. rewrite goto_pa, put_pa1. cbn [p_pid] in E7. rewrite E7.
  apply (reach_fetched i0 _ 6); [done..|by constructor].
Qed.

(** The child after the signal was sent. *)
Lemma signalled_moves b blk pend q n s' : pid_ok b -> only SIGCHLD pend -> signalled b q n ->
  moves functions (Sys [pa (P6 b) blk pend; q] (take n (story b))) q s' -> reach s'.
Proof.
  intros Hb Hp Hq [Hd Hmv]. pose proof Hb as (Hb1 & Hba & Hbp).
  destruct Hq as [blk'|mask|mask|mask|q Eq' Eqq' Hz]; [..|unfold dead in Hd; by rewrite Hz in Hd].
  - destruct Hmv as [[o E] | [(sig & o & Edel & E) | E]].
    + unfold run1 in E. cbn [p_code kid pausing do_call p_blocked] in E. destruct blk'; [done|]. injection E as <-.
      rewrite put_kid by done. apply (reach_wait b blk pend _ 2); [done..|exact (sig_pending b true)].
    + assert (sig = SIG2SEND) as ->.
      { apply (deliverable_only SIG2SEND _ _) in Edel; [done|]. cbn [p_pend kid]. by apply only_add; [|apply only_0]. }
      unfold deliver in E. change (sa_handler (p_act (kid _ _ _ _ _) SIG2SEND)) with (SIG_FN "catchit") in E. cbn iota in E.
      injection E as <-. rewrite put_kid by done. unfold add_log. cbn [procs plog].
      eapply (reach_wait b blk pend _ 3); [done..|]. exact (sig_handler b _).
    + unfold wake in E. cbn [p_code kid pausing p_blocked] in E. by destruct blk'.
  - destruct Hmv as [[o E] | [(sig & o & Edel & E) | E]]; [|by rewrite deliverable_none in Edel|done].
    injection E as <-. rewrite put_kid by done. apply (reach_wait b blk pend _ 3); [done..|exact (sig_print b mask)].
  - destruct Hmv as [[o E] | [(sig & o & Edel & E) | E]]; [|by rewrite deliverable_none in Edel|done].
    injection E as <-. rewrite put_kid by done. unfold add_log. cbn [procs plog].
    apply (reach_wait b blk pend _ 4); [done..|exact (sig_exit b mask)].
  - destruct Hmv as [[o E] | [(sig & o & Edel & E) | E]]; [|by rewrite deliverable_none in Edel|done].
    injection E as <-. assert (a <> 1) by lia. assert (a <> b) by congruence. assert (pp <> b) by congruence.
    rewrite child_exit; [|done..|by intros c [<- | []]]. rewrite put_cons_same by done.
    refine (reach_wait b blk (sigaddset pend SIGCHLD) _ 5 Hb _ _); [by apply only_add|by apply sig_dead].
Qed.

Lemma wait_step b blk pend q n m s' : pid_ok b -> only SIGCHLD pend -> signalled b q n -> internal m = true ->
  step functions (Sys [pa (P6 b) blk pend; q] (take n (story b))) m = Some s' -> reach s'.
Proof.
  intros Hb Hp Hq Hm (p & Hin & Hmv)%step_moves; [|done]. destruct Hin as [<- | [<- | []]]; [|by eapply signalled_moves].
  destruct (parent_codes b) as (_ & _ & _ & _ & _ & (k6 & E6 & E6')).
  assert (p_pid q <> a) by (destruct Hb as (_ & ? & _); destruct Hq; cbn; congruence).
  destruct Hmv as [_ [[o E] | [(sig & o & Edel & E) | E]]].
  - unfold run1 in E. cbn [p_code pa] in E. rewrite E6 in E. cbn [do_call] in E. rewrite <- E6 in E. by eapply wait_run.
  - destruct (pa_deliver _ _ _ _ _ _ _ _ Hp Edel E) as (pend' & Hp' & ->). rewrite put_pa by done. by eapply reach_wait.
  - unfold wake in E. cbn [p_code pa p_blocked] in E. rewrite E6 in E. by destruct blk.
Qed.

Definition fork_k : Z * Z -> prog unit := match at_fork with Call _ k => k | _ => fun _ => Ret tt end.

Lemma at_fork_eq : at_fork = Call Fork fork_k.
Proof. done. Qed.

Lemma fork_parent b : b <> -1 -> b <> 0 -> fork_k (b, 0) = P1 b.
Proof.
  intros H1 H2. unfold fork_k. cbn. by rewrite (proj2 (Z.eqb_neq b (-1))), (proj2 (Z.eqb_neq b 0)).
Qed.

Lemma reach_forks m s' : internal m = true -> step functions (Sys [pa at_fork false 0] []) m = Some s' -> reach s'.
Proof.
  intros Hm (p & Hin & Hd & Hmv)%step_moves; [|done]. destruct Hin as [<- | []].
  destruct Hmv as [[o E] | [(sig & o & Edel & _) | E]]; [|by rewrite deliverable_none in Edel|done].
  unfold run1 in E. cbn [p_code pa] in E. rewrite at_fork_eq in E. cbn [do_call] in E.
  destruct (fresh o _) eqn:Ef; unfold answer in E; injection E as <-.
  - unfold fresh in Ef. cbn -[Z.eqb Z.ltb] in Ef. apply andb_prop in Ef as [Ho%Z.ltb_lt Hn%negb_true_iff].
    apply orb_false_iff in Hn as [[Hn1%Z.eqb_neq Hn2%Z.eqb_neq]%orb_false_iff _]. cbn in Hn1, Hn2.
    cbn [procs plog app]. rewrite goto_pa, put_first; [|done|intros q [<- | []]; by apply not_eq_sym].
    rewrite fork_parent by lia.
    refine (reach_unsent o (P1 o) 0 false _ _); [split_and!; [done|by apply not_eq_sym|by apply not_eq_sym]|constructor].
  - rewrite goto_pa, put_pa1. exact reach_fail1.
Qed.

Lemma killer_reach_step s m s' : internal m = true -> reach s -> step functions s m = Some s' -> reach s'.
Proof.
  intros Hm [ | | | |p Hp|b code n blk Hb Hu|b blk pend q n Hb Hp Hq|b code n pend Hb Hp Hf|b p Hb Hp].
  - intros [o E]%alone_step; [|done]. injection E as <-. unfold put, put_proc. cbn -[Z.eqb at_fork]. rewrite Z.eqb_refl. exact reach_fork.
  - by apply reach_forks.
  - intros (p & [<- | []] & Hd & [[o E] | [(sig & o & Edel & _) | E]])%step_moves; [|by rewrite deliverable_none in Edel|done|done].
    injection E as <-. rewrite goto_pa, put_pa1. exact reach_fail2.
  - intros (p & [<- | []] & Hd & [[o E] | [(sig & o & Edel & _) | E]])%step_moves; [|by rewrite deliverable_none in Edel|done|done].
    injection E as <-. assert (pp <> 1) by lia. unfold do_exit, disown. eqbs. by apply reach_fail3.
  - intros (q & [<- | []] & Hd & _)%step_moves; [congruence|done].
  - by apply unsent_step.
  - by apply wait_step.
  - by apply fetched_step.
  - intros (q & [<- | []] & Hd & _)%step_moves; [congruence|done].
Qed.

(** A process that is alive can make a move, or waits for one that can. *)
Lemma killer_reach_progress s q : reach s -> In q (procs s) -> dead q = false ->
  exists m s', internal m = true /\ step functions s m = Some s'.
Proof.
  intros Hr Hq Hd.
  assert (forall code blk pend qs log o, (exists s', run1 functions (Sys (pa code blk pend :: qs) log) (pa code blk pend) o = Some s') ->
    exists m s', internal m = true /\ step functions (Sys (pa code blk pend :: qs) log) m = Some s') as Hrun.
  { intros code blk pend qs log o [s' E]. exists (Run a o), s'. split; [done|].
    cbn [step procs find_pid List.find p_pid pa]. by rewrite Z.eqb_refl. }
  destruct Hr as [ | | | |p Hp|b code n blk Hb Hu|b blk pend q' n Hb Hp Hq'|b code n pend Hb Hp Hf|b p Hb Hp].
  - exists (Run a 0). cbn [step procs find_pid List.find p_pid boot]. rewrite Z.eqb_refl. by eexists.
  - apply (Hrun _ _ _ _ _ 0). by eexists.
  - apply (Hrun _ _ _ _ _ 0). by eexists.
  - apply (Hrun _ _ _ _ _ 0). by eexists.
  - destruct Hq as [<- | []]. congruence.
  - destruct (parent_codes b) as ((k1 & E1 & _) & E2 & (k3 & E3 & _) & E4 & (k5 & E5 & _) & _).
    apply (Hrun _ _ _ _ _ 0). unfold run1. cbn [p_code pa]. destruct Hu; rewrite ?E1, ?E2, ?E4; try by eexists.
    + rewrite E3. cbn [do_call procs]. destruct (find_pid b _); by eexists.
    + rewrite E5. cbn [do_call procs]. destruct (find_pid b _); [|by eexists]. cbn [Z.eqb]. change (SIG2SEND =? 0) with false.
      destruct (b =? _); by eexists.
  - pose proof Hb as (Hb1 & Hba & _). assert (a <> b) by congruence.
    assert (forall c, p_pid c = b -> find_pid b [pa (P6 b) blk pend; c] = Some c) as Hf.
    { intros c <-. cbn [find_pid List.find p_pid pa]. by rewrite (proj2 (Z.eqb_neq a (p_pid c))), Z.eqb_refl. }
    destruct Hq' as [blk'|mask|mask|mask|q' Eq' Eqq' Hz].
    + exists (Deliver b SIG2SEND 0). cbn [step procs]. rewrite Hf by done. by eexists.
    + exists (Run b 0). cbn [step procs]. rewrite Hf by done. by eexists.
    + exists (Run b 0). cbn [step procs]. rewrite Hf by done. by eexists.
    + exists (Run b 0). cbn [step procs]. rewrite Hf by done. by eexists.
    + apply (Hrun _ _ _ _ _ b). destruct (parent_codes b) as (_ & _ & _ & _ & _ & (k6 & E6 & _)).
      unfold run1. cbn [p_code pa]. rewrite E6. cbn [do_call]. unfold do_wait. rewrite <- E6. cbn [procs].
      setoid_rewrite (Hf q' Eq'). destruct q' as [i0 i1 i2 i3 i4 i5 i6 i7 z]. cbn in Eqq', Hz. subst.
      cbn [p_pid pa]. rewrite Z.eqb_refl. by eexists.
  - apply (Hrun _ _ _ _ _ 0). unfold run1. cbn [p_code pa]. destruct Hf; by eexists.
  - destruct Hq as [<- | []]. congruence.
Qed.

Lemma reach_log s : reach s -> exists b, b <> a /\
  (plog s `prefix_of` story b \/ plog s `prefix_of` [(a, EPerror "fork failed"); (a, EExit 256)]).
Proof.
  assert (forall b n, take n (story b) `prefix_of` story b) as Ht by (intros b n; exists (drop n (story b)); by rewrite take_drop).
  intros [ | | | |p Hp|b code n blk (_ & Hb & _) Hu|b blk pend q n (_ & Hb & _) Hp Hq|b code n pend (_ & Hb & _) Hp Hf|b p (_ & Hb & _) Hp];
    [exists 0; split; [lia|]..|exists b; split; [done|]; left; apply Ht|exists b; split; [done|]; left; apply Ht|
     exists b; split; [done|]; left; apply Ht|exists b; split; [done|]; by left].
  - left. apply prefix_nil.
  - left. apply prefix_nil.
  - left. apply prefix_nil.
  - right. by eexists [_].
  - by right.
Qed.

End Run.

(** C20: The signal is never lost.  In every schedule of killer.c - whether the child has
    reached its pause or not when the parent's SIGUSR1 arrives - what happens is a
    prefix of one story: the parent announces itself, polls and sends, the child's
    handler runs, prints and exits with status 0, the parent fetches the child, says so
    and exits with 0.  So the child never leaves its pause without the handler, and
    the parent never waits in vain: while a process is alive, some process can move.
    The only other run is that of a fork that fails. *)
Theorem killer_signal_delivered argv0 a pp ms s' :
  1 < a -> 1 < pp -> pp <> a -> Forall (fun m => internal m = true) ms ->
  steps functions (Sys [boot a pp (main argv0)] []) ms = Some s' ->
  (exists b, b <> a /\
    (plog s' `prefix_of` story a b \/ plog s' `prefix_of` [(a, EPerror "fork failed"); (a, EExit 256)])) /\
  (forall q, In q (procs s') -> dead q = false ->
    exists m s'', internal m = true /\ step functions s' m = Some s'').
Proof.
  intros Ha Hpp Hne Hm Hs. assert (reach argv0 a pp s') as Hr.
  { eapply (moves_inv functions (fun m => internal m = true)); [|apply reach_start|done..].
    intros s m s1 H1 H2. by apply killer_reach_step. }
  split; [by eapply reach_log|]. intros q. by eapply killer_reach_progress.
Qed.

(** The signal arrives before the child's pause. *)
Definition eg_moves : list move :=
  [Run 100 0; Run 100 101; Run 100 0; Run 100 0; Run 100 0; Run 100 0; Run 100 0; Deliver 101 SIG2SEND 0;
   Run 100 0; Run 101 0; Run 101 0; Run 101 0; Deliver 100 SIGCHLD 0; Run 100 101; Run 100 0; Run 100 0; Run 100 0].

Lemma killer_signal_delivered_witness : exists s',
  steps functions (Sys [boot 100 50 (main "killer")] []) eg_moves = Some s' /\ plog s' = story 100 101 /\
  exists b, b <> 100 /\
    (plog s' `prefix_of` story 100 b \/ plog s' `prefix_of` [(100, EPerror "fork failed"); (100, EExit 256)]).
Proof.
  destruct (steps functions (Sys [boot 100 50 (main "killer")] []) eg_moves) as [s'|] eqn:E; [|by vm_compute in E].
  exists s'. split; [done|]. split; [by vm_compute in E; injection E as <-|].
  apply (killer_signal_delivered "killer" 100 50 eg_moves s'); [lia..|by repeat constructor|done].
Defined.

End Killer.
