(* ===== verification/SigCrit.v ===== *)
(** src/signalling/sigcrit.c: a critical section with SIGINT and SIGQUIT blocked, and
    the delay loop of src/convenient.h.  The program runs on the machine of [Proc];
    somebody at the keyboard sends SIGINT and SIGQUIT at any time. *)
From S2P Require Import Prelude CMonad CLib Decimal Proc.

(** ** convenient.h *)

(** [write(STDOUT_FILENO, &buf, 1)] of a char. *)
Definition beep (what : Z) : prog unit := pprintf (chr (to_uchar what)).

(** ms milliseconds in nanoseconds, an unsigned long; interruptions are ignored. *)
Definition msleep (ms : Z) : prog unit :=
  pcall1 (Nanosleep (wrapu 64 (ms * 1000000))) ≫= fun _ => mret tt.

(** The loops that only count have no effect. *)
Fixpoint DELAY_LOOP (val : Z) (loop_count : nat) : prog unit :=
  match loop_count with
  | O => mret tt
  | S n => beep val ≫= fun _ => msleep 100 ≫= fun _ => DELAY_LOOP val n
  end.

(** ** sigcrit.c *)

Definition c : loc := LVar "c".
Definition d : loc := LVar "d".

Definition int_text (n : Z) : string := cat ["SIGINT: count="; fmt_d n; nl].
Definition quit_text (n : Z) : string := cat ["SIGQUIT: count="; fmt_d n; nl].

(** [++x] *)
Definition preinc (l : loc) : prog Z :=
  v ← pget l; pset l (to_int (v + 1)) ≫= fun _ => mret (to_int (v + 1)).

Definition sighdlr (signum : Z) : prog unit :=
  if signum =? SIGINT then n ← preinc c; pprintf (int_text n)
  else if signum =? SIGQUIT then n ← preinc d; pprintf (quit_text n)
  else pprintf (cat ["Signal "; fmt_d signum; ": discarded"; nl]).

Definition entering : string := cat ["Entering critical section now..."; nl].
Definition exiting : string := cat ["Exiting critical section now..."; nl].

Definition trapped : string := cat ["Signals SIGINT and SIGQUIT trapped.."; nl].

Definition act : sigact := Sigact (SIG_FN "sighdlr") sigfillset SA_RESTART.

(** The body of [while (1) (void)pause();] *)
Definition pause_loop (_ : Z) : prog unit := pcall1 Pause ≫= fun _ => mret tt.

Definition functions : table := fun f x =>
  if String.eqb f "sighdlr" then sighdlr x else pause_loop x.

(** sigaddset cannot fail for these signals. *)
Definition main (argv0 : string) : prog Z :=
  r ← pcall1 (Sigaction SIGINT act);
  if r =? -1 then pperror argv0 ≫= fun _ => pexit 1
  else
  r ← pcall1 (Sigaction SIGQUIT act);
  if r =? -1 then pperror argv0 ≫= fun _ => pexit 1
  else
  pfprintf stderr trapped ≫= fun _ =>
  let sigset := sigaddset (sigaddset sigemptyset SIGINT) SIGQUIT in
  rp ← pcall2 (Sigprocmask SIG_BLOCK sigset);
  if fst rp =? -1 then pperror "sigprocmask 1 failure" ≫= fun _ => pexit 1
  else
  pprintf entering ≫= fun _ =>
  DELAY_LOOP 65 500 ≫= fun _ =>
  pprintf exiting ≫= fun _ =>
  r ← pcall1 (Sigprocmask SIG_SETMASK (snd rp));
  if r =? -1 then pperror "sigprocmask 2 failure" ≫= fun _ => pexit 1
  else Forever "pause_loop".

(** *** What the process does *)

(** The critical section. *)
Definition section : list pevent :=
  [EOut stdout entering] ++ replicate 500 (EOut stdout "A") ++ [EOut stdout exiting].

Definition critical (e : pevent) : Prop :=
  e = EOut stdout entering \/ e = EOut stdout "A" \/ e = EOut stdout exiting.

(** What main itself prints. *)
Definition own (e : pevent) : Prop := e = EOut stderr trapped \/ critical e.

(** The events so far, the counters, and the signal whose handler has not printed yet.
    A handler prints the next count before anything else happens. *)
Inductive told : list pevent -> Z -> Z -> option Z -> Prop :=
| told_nil : told [] 0 0 None
| told_own X nc nd e : own e -> told X nc nd None -> told (X ++ [e]) nc nd None
| told_start X nc nd sig : told X nc nd None -> told (X ++ [EHandler sig]) nc nd (Some sig)
| told_int X nc nd sig n : sig = SIGINT -> n = to_int (nc + 1) -> told X nc nd (Some sig) ->
    told (X ++ [EOut stdout (int_text n)]) n nd None
| told_quit X nc nd sig n : sig = SIGQUIT -> n = to_int (nd + 1) -> told X nc nd (Some sig) ->
    told (X ++ [EOut stdout (quit_text n)]) nc n None
| told_killed X nc nd st : told X nc nd None -> told (X ++ [EExit st]) nc nd None.

(** An event that is not of the critical section. *)
Definition outside (e : pevent) : Prop := ~ critical e.

(** [n] events of the critical section happened, without interruption. *)
Definition sectioned (n : nat) (X : list pevent) : Prop :=
  exists pre post, X = pre ++ take n section ++ post /\ Forall outside pre /\ Forall outside post /\
    ((n < length section)%nat -> post = []).

Lemma length_section : length section = 502%nat.
Proof. vm_compute. reflexivity. Qed.

(** ** The states *)

Section Run.
Context (argv0 : string) (a pp : Z) (Ha : 1 < a) (Hpp : 1 < pp) (Hne : pp <> a).

Definition next (r : Z * Z) (code : prog unit) : prog unit :=
  match code with Call _ k => k r | Out _ _ k => k | x => x end.

Definition A0 : prog unit := pbind (fun r => Exit r) (main argv0).
Definition A1 : prog unit := next (0, 0) A0.
Definition A2 : prog unit := next (0, 0) A1.
Definition A3 : prog unit := next (0, 0) A2.

(** Main from the delay loop on, with [k] turns left. *)
Definition rest : prog Z :=
  pprintf exiting ≫= fun _ =>
  r ← pcall1 (Sigprocmask SIG_SETMASK 0);
  if r =? -1 then pperror "sigprocmask 2 failure" ≫= fun _ => pexit 1 else Forever "pause_loop".

Definition delay (k : nat) : prog unit :=
  pbind (fun r => Exit r) (pbind (fun _ => rest) (DELAY_LOOP 65 k)).

Definition asleep_k (k : nat) : Z * Z -> prog unit := fun _ => delay k.

Lemma delay_S k : delay (S k) = Out stdout "A" (Call (Nanosleep 100000000) (asleep_k k)).
Proof. reflexivity. Qed.

Definition unblock : prog unit := next (0, 0) (delay 0).

Lemma delay_0 : delay 0 = Out stdout exiting unblock.
Proof. reflexivity. Qed.

Definition pausing : prog unit := Call Pause (fun _ => Forever "pause_loop").

Lemma main_codes :
  (exists k, A0 = Call (Sigaction SIGINT act) k /\ k (0, 0) = A1) /\
  (exists k, A1 = Call (Sigaction SIGQUIT act) k /\ k (0, 0) = A2) /\
  A2 = Out stderr trapped A3 /\
  (exists k, A3 = Call (Sigprocmask SIG_BLOCK 6) k /\ k (0, 0) = Out stdout entering (delay 500)) /\
  (exists k, unblock = Call (Sigprocmask SIG_SETMASK 0) k /\ forall x, k (0, x) = Forever "pause_loop").
Proof.
  split; [by eexists|]. split; [by eexists|]. split; [done|]. split; eexists; (split; [reflexivity|]).
  - cbn [pbind mbind prog_bind fst snd]. reflexivity.
  - done.
Qed.

(** The actions before, between and after the two calls of sigaction. *)
Definition acts0 : Z -> sigact := fun _ => act_default.
Definition acts1 : Z -> sigact := fun x => if x =? SIGINT then act else acts0 x.
Definition acts2 : Z -> sigact := fun x => if x =? SIGQUIT then act else acts1 x.

(** SIGINT and SIGQUIT blocked. *)
Definition M : Z := 6.

(** Where main is: its code, its mask, its actions and how much of the critical section
    is done. *)
Inductive outer : prog unit -> Z -> (Z -> sigact) -> nat -> Prop :=
| outer_A0 : outer A0 0 acts0 0
| outer_A1 : outer A1 0 acts1 0
| outer_A2 : outer A2 0 acts2 0
| outer_A3 : outer A3 0 acts2 0
| outer_enter : outer (Out stdout entering (delay 500)) M acts2 0
| outer_delay k n : (k + n = 501)%nat -> (1 <= n)%nat -> outer (delay k) M acts2 n
| outer_sleep k n : (k + n = 501)%nat -> (1 <= n)%nat -> outer (Call (Nanosleep 100000000) (asleep_k k)) M acts2 n
| outer_unblock : outer unblock M acts2 502
| outer_forever : outer (Forever "pause_loop") 0 acts2 502
| outer_pause : outer pausing 0 acts2 502.

Definition keyboard (sig : Z) : Prop := sig = SIGINT \/ sig = SIGQUIT.

Definition pend_ok (pend : Z) : Prop := forall sig, 1 <= sig -> sigismember pend sig = true -> keyboard sig.

Definition blocks (mask : Z) : Prop := sigismember mask SIGINT = true /\ sigismember mask SIGQUIT = true.

Definition mem_is (m : pmem) (nc nd : Z) : Prop := m c = Some nc /\ m d = Some nd.

(** The handler of [sig] with [k] to come after it: what is left of it, the memory, and
    the counters it will print. *)
Inductive in_handler (k : prog unit) : Z -> prog unit -> pmem -> Z -> Z -> option Z -> Prop :=
| int_get m nc nd : mem_is m nc nd ->
    in_handler k SIGINT (Get c (fun v => Set_ c (to_int (v + 1)) (Out stdout (int_text (to_int (v + 1))) k))) m nc nd (Some SIGINT)
| int_set m nc nd : mem_is m nc nd ->
    in_handler k SIGINT (Set_ c (to_int (nc + 1)) (Out stdout (int_text (to_int (nc + 1))) k)) m nc nd (Some SIGINT)
| int_out m nc nd : mem_is m (to_int (nc + 1)) nd ->
    in_handler k SIGINT (Out stdout (int_text (to_int (nc + 1))) k) m nc nd (Some SIGINT)
| quit_get m nc nd : mem_is m nc nd ->
    in_handler k SIGQUIT (Get d (fun v => Set_ d (to_int (v + 1)) (Out stdout (quit_text (to_int (v + 1))) k))) m nc nd (Some SIGQUIT)
| quit_set m nc nd : mem_is m nc nd ->
    in_handler k SIGQUIT (Set_ d (to_int (nd + 1)) (Out stdout (quit_text (to_int (nd + 1))) k)) m nc nd (Some SIGQUIT)
| quit_out m nc nd : mem_is m nc (to_int (nd + 1)) ->
    in_handler k SIGQUIT (Out stdout (quit_text (to_int (nd + 1))) k) m nc nd (Some SIGQUIT)
| handler_done sig m nc nd : mem_is m nc nd -> in_handler k sig k m nc nd None.

Inductive inv : sys -> Prop :=
| inv_main code m blk mask pend acts n X nc nd :
    outer code mask acts n -> pend_ok pend -> mem_is m nc nd -> told X nc nd None -> sectioned n X ->
    inv (Sys [Proc a pp code m blk mask pend acts None] (map (pair a) X))
| inv_handler sig code0 code m hmask pend acts n X nc nd o :
    outer code0 0 acts n -> in_handler (Sigreturn 0 code0) sig code m nc nd o -> blocks hmask -> pend_ok pend ->
    told X nc nd o -> sectioned n X ->
    inv (Sys [Proc a pp code m false hmask pend acts None] (map (pair a) X))
| inv_dead p X nc nd : dead p = true -> p_pid p = a -> told X nc nd None -> sectioned 0 X ->
    inv (Sys [p] (map (pair a) X)).

(** *** Events and the section *)

Lemma outside_handler sig : outside (EHandler sig).
Proof. by intros [?|[?|?]]. Qed.

Lemma outside_exit st : outside (EExit st).
Proof. by intros [?|[?|?]]. Qed.

Lemma outside_int n : outside (EOut stdout (int_text n)).
Proof. intros [E|[E|E]]; injection E as E; by vm_compute in E. Qed.

Lemma outside_quit n : outside (EOut stdout (quit_text n)).
Proof. intros [E|[E|E]]; injection E as E; by vm_compute in E. Qed.

Lemma outside_trapped : outside (EOut stderr trapped).
Proof. by intros [E|[E|E]]. Qed.

(** Events outside of the section come before it or after it. *)
Lemma sectioned_out n X e : n = 0%nat \/ n = 502%nat -> outside e -> sectioned n X -> sectioned n (X ++ [e]).
Proof.
  intros Hn He (pre & post & -> & Hpre & Hpost & Hp). destruct Hn as [-> | ->].
  - rewrite Hp by (rewrite length_section; lia). exists (pre ++ [e]), []. cbn [take app]. rewrite !app_nil_r.
    split; [done|]. split; [|done]. apply Forall_app. by split; [|constructor].
  - exists pre, (post ++ [e]). split; [by rewrite <- !app_assoc|]. split; [done|].
    split; [apply Forall_app; by split; [|constructor]|]. rewrite length_section. lia.
Qed.

(** The next event of the section. *)
Lemma sectioned_next n X e : section !! n = Some e -> sectioned n X -> sectioned (S n) (X ++ [e]).
Proof.
  intros Hl (pre & post & -> & Hpre & Hpost & Hp). pose proof (lookup_lt_Some _ _ _ Hl).
  rewrite Hp by done. exists pre, []. rewrite !app_nil_r, (take_S_r _ _ _ Hl), app_assoc.
  split; [done|]. split; [done|]. split; [constructor|done].
Qed.

Lemma section_0 : section !! 0%nat = Some (EOut stdout entering).
Proof. done. Qed.

Lemma section_A n : (1 <= n <= 500)%nat -> section !! n = Some (EOut stdout "A").
Proof.
  intros Hn. unfold section. rewrite lookup_app_r by (cbn; lia). cbn [length].
  rewrite lookup_app_l by (rewrite length_replicate; lia). apply lookup_replicate. split; [done|lia].
Qed.

Lemma section_exit : section !! 501%nat = Some (EOut stdout exiting).
Proof. vm_compute. reflexivity. Qed.

Lemma log_snoc (X : list pevent) e : map (pair a) X ++ [(a, e)] = map (pair a) (X ++ [e]).
Proof. by rewrite List.map_app. Qed.

Lemma put_solo p p' log : p_pid p' = p_pid p -> put (Sys [p] log) p' = Sys [p'] log.
Proof. intros E. by apply put_first. Qed.

(** Main runs. *)
Lemma main_run code m blk mask pend acts n X nc nd o s' :
  outer code mask acts n -> pend_ok pend -> mem_is m nc nd -> told X nc nd None -> sectioned n X ->
  run1 functions (Sys [Proc a pp code m blk mask pend acts None] (map (pair a) X))
    (Proc a pp code m blk mask pend acts None) o = Some s' -> inv s'.
Proof.
  intros Ho Hp Hm Ht Hs.
  destruct main_codes as ((k0 & E0 & E0') & (k1 & E1 & E1') & E2 & (k3 & E3 & E3') & (ku & Eu & Eu')).
  assert (forall code' mask' acts' blk', outer code' mask' acts' n ->
    inv (put (Sys [Proc a pp code m blk mask pend acts None] (map (pair a) X)) (Proc a pp code' m blk' mask' pend acts' None))) as Hgo.
  { intros code' mask' acts' blk' Ho'. rewrite put_solo by done. by eapply inv_main. }
  assert (forall code' n' e, outer code' mask acts n' -> own e -> sectioned n' (X ++ [e]) ->
    inv (add_log (put (Sys [Proc a pp code m blk mask pend acts None] (map (pair a) X))
           (Proc a pp code' m false mask pend acts None)) a e)) as Hout.
  { intros code' n' e Ho' He Hs'. rewrite put_solo by done. unfold add_log. cbn [procs plog]. rewrite log_snoc.
    eapply inv_main; [done..| |done]. by apply told_own. }
  unfold run1. cbn [p_code]. destruct Ho as [ | | | | |k n Hk Hn|k n Hk Hn| | | ].
  - rewrite E0. intros [= <-]. rewrite <- E0. rewrite E0'. refine (Hgo A1 0 acts1 false _). constructor.
  - rewrite E1. intros [= <-]. rewrite <- E1. rewrite E1'. refine (Hgo A2 0 acts2 false _). constructor.
  - rewrite E2. intros [= <-]. rewrite <- E2. refine (Hout A3 0%nat _ _ _ _); [constructor|by left|].
    apply sectioned_out; [by left|apply outside_trapped|done].
  - rewrite E3. intros [= <-]. rewrite <- E3. cbn [p_mask]. rewrite E3'. refine (Hgo _ M acts2 false _). constructor.
  - intros [= <-]. refine (Hout (delay 500) 1%nat _ _ _ _); [by apply outer_delay; lia|by right; left|].
    apply sectioned_next; [apply section_0|done].
  - destruct k as [|k].
    + assert (n = 501%nat) as -> by lia. rewrite delay_0. intros [= <-]. rewrite <- delay_0.
      refine (Hout unblock 502%nat _ _ _ _); [constructor|by right; right; right|].
      apply sectioned_next; [apply section_exit|done].
    + rewrite delay_S. intros [= <-]. rewrite <- delay_S.
      refine (Hout _ (S n) _ _ _ _); [apply outer_sleep; lia|by right; right; left|].
      apply sectioned_next; [apply section_A; lia|done].
  - cbn [do_call p_blocked]. destruct blk; [done|]. intros [= <-]. refine (Hgo _ M acts2 true _). by apply outer_sleep.
  - rewrite Eu. intros [= <-]. rewrite <- Eu. rewrite Eu'. refine (Hgo _ 0 acts2 false _). constructor.
  - intros [= <-]. refine (Hgo pausing 0 acts2 false _). constructor.
  - cbn [do_call p_blocked pausing]. destruct blk; [done|]. intros [= <-]. refine (Hgo pausing 0 acts2 true _). constructor.
Qed.

(** After a handler main goes on where it was; a pause is over. *)
Lemma resume_outer code m blk pend acts n o restart : outer code 0 acts n ->
  outer (resume (Proc a pp code m blk 0 pend acts None) restart o) 0 acts n.
Proof.
  intros Ho. unfold resume. cbn [p_blocked p_code]. destruct blk; [|done].
  destruct main_codes as ((k0 & E0 & _) & (k1 & E1 & _) & E2 & (k3 & E3 & _) & _).
  inversion Ho; subst.
  - rewrite E0. rewrite <- E0. constructor.
  - rewrite E1. rewrite <- E1. constructor.
  - rewrite E2. rewrite <- E2. constructor.
  - rewrite E3. rewrite <- E3. constructor.
  - constructor.
  - constructor.
Qed.

Lemma outer_n code acts n : outer code 0 acts n -> n = 0%nat \/ n = 502%nat.
Proof. intros Ho. inversion Ho; auto. Qed.

(** The action of a signal: the handler, or death before it is set. *)
Lemma outer_act code acts n sig : outer code 0 acts n -> keyboard sig -> acts sig = act \/ acts sig = act_default /\ n = 0%nat.
Proof. intros Ho [-> | ->]; inversion Ho; subst; auto. Qed.

Lemma exit_solo code m blk mask pend acts log st :
  do_exit (Sys [Proc a pp code m blk mask pend acts None] log) (Proc a pp code m blk mask (sigdelset pend st) acts None) st =
  Sys [with_zombie (Proc a pp code m blk mask (sigdelset pend st) acts None) st] (log ++ [(a, EExit st)]).
Proof.
  unfold do_exit, add_log. cbn [procs plog p_pid p_ppid]. rewrite disown_none by (by intros q [<- | []]).
  rewrite (proj2 (Z.eqb_neq pp 1)) by lia. unfold find_pid. cbn [List.find p_pid].
  rewrite (proj2 (Z.eqb_neq a pp)) by congruence. by rewrite put_cons_same.
Qed.

Lemma main_deliver code m blk mask pend acts n X nc nd sig o s' :
  outer code mask acts n -> pend_ok pend -> mem_is m nc nd -> told X nc nd None -> sectioned n X ->
  deliverable (Proc a pp code m blk mask pend acts None) sig = true ->
  deliver functions (Sys [Proc a pp code m blk mask pend acts None] (map (pair a) X))
    (Proc a pp code m blk mask pend acts None) sig o = Some s' -> inv s'.
Proof.
  intros Ho Hp Hm Ht Hs Hdel. unfold deliverable in Hdel. cbn [p_pend p_mask] in Hdel.
  apply andb_prop in Hdel as [[H1%Z.leb_le Hpd]%andb_prop Hmask%negb_true_iff].
  assert (keyboard sig) as Hk by auto.
  assert (mask = 0) as ->.
  { destruct Ho; try done; destruct Hk as [-> | ->]; by vm_compute in Hmask. }
  assert (pend_ok (sigdelset pend sig)) as Hp'.
  { intros x Hx. rewrite sigismember_del by lia. intros [? _]%andb_prop. auto. }
  unfold deliver. cbn [p_act]. destruct (outer_act _ _ _ _ Ho Hk) as [-> | [-> ->]].
  - cbn [sa_handler act]. intros [= <-]. unfold goto, with_act, with_mask, with_pend. cbn [p_pid p_ppid p_mem p_pend p_zombie p_act p_mask].
    rewrite put_solo by done. unfold add_log. cbn [procs plog]. rewrite log_snoc.
    pose proof (resume_outer code m blk pend acts n o true Ho) as Hr.
    assert (sectioned n (X ++ [EHandler sig])) as Hs'.
    { apply sectioned_out; [by eapply outer_n|apply outside_handler|done]. }
    assert (blocks (handler_mask (Proc a pp code m blk 0 pend acts None) act sig)) as Hb by (destruct Hk as [-> | ->]; by vm_compute).
    destruct Hk as [-> | ->].
    + eapply (inv_handler SIGINT); [exact Hr| |done|done|by apply told_start|done]. by apply int_get.
    + eapply (inv_handler SIGQUIT); [exact Hr| |done|done|by apply told_start|done]. by apply quit_get.
  - cbn [sa_handler act_default]. assert (default_ignored sig = false) as -> by (by destruct Hk as [-> | ->]).
    intros [= <-]. unfold with_pend. cbn [p_pid p_ppid p_code p_mem p_blocked p_mask p_pend p_act p_zombie].
    rewrite exit_solo, log_snoc. eapply inv_dead; [done|done|by apply told_killed|].
    apply sectioned_out; [by left|apply outside_exit|done].
Qed.

(** The handler runs; nothing interrupts it. *)
Lemma handler_run sig code0 code m hmask pend acts n X nc nd o r s' :
  outer code0 0 acts n -> in_handler (Sigreturn 0 code0) sig code m nc nd o -> blocks hmask -> pend_ok pend ->
  told X nc nd o -> sectioned n X ->
  run1 functions (Sys [Proc a pp code m false hmask pend acts None] (map (pair a) X))
    (Proc a pp code m false hmask pend acts None) r = Some s' -> inv s'.
Proof.
  intros Ho Hh Hb Hp Ht Hs.
  assert (forall code' m', in_handler (Sigreturn 0 code0) sig code' m' nc nd o ->
    inv (put (Sys [Proc a pp code m false hmask pend acts None] (map (pair a) X)) (Proc a pp code' m' false hmask pend acts None))) as Hgo.
  { intros code' m' Hh'. rewrite put_solo by done. by eapply inv_handler. }
  assert (forall e nc' nd', told (X ++ [e]) nc' nd' None -> mem_is m nc' nd' -> outside e ->
    inv (add_log (put (Sys [Proc a pp code m false hmask pend acts None] (map (pair a) X))
      (Proc a pp (Sigreturn 0 code0) m false hmask pend acts None)) a e)) as Hout.
  { intros e nc' nd' Ht' Hm' He. rewrite put_solo by done. unfold add_log. cbn [procs plog]. rewrite log_snoc.
    eapply (inv_handler SIGINT); [exact Ho|by apply handler_done|done|done|exact Ht'|]. apply sectioned_out; [by eapply outer_n|done|done]. }
  unfold run1. cbn [p_code p_mem]. destruct Hh as [m nc nd Hm|m nc nd Hm|m nc nd Hm|m nc nd Hm|m nc nd Hm|m nc nd Hm|sig m nc nd Hm].
  - destruct Hm as [E1 E2]. rewrite E1. intros [= <-]. refine (Hgo _ m _). by constructor.
  - intros [= <-]. refine (Hgo _ _ _). constructor. by destruct Hm.
  - intros [= <-]. refine (Hout _ _ _ _ Hm _); [by eapply told_int|apply outside_int].
  - destruct Hm as [E1 E2]. rewrite E2. intros [= <-]. refine (Hgo _ m _). by constructor.
  - intros [= <-]. refine (Hgo _ _ _). constructor. by destruct Hm.
  - intros [= <-]. refine (Hout _ _ _ _ Hm _); [by eapply told_quit|apply outside_quit].
  - intros [= <-]. rewrite put_solo by done. by eapply inv_main.
Qed.

Lemma main_wake code m blk mask pend acts n X nc nd s' :
  outer code mask acts n -> pend_ok pend -> mem_is m nc nd -> told X nc nd None -> sectioned n X ->
  wake (Sys [Proc a pp code m blk mask pend acts None] (map (pair a) X)) (Proc a pp code m blk mask pend acts None) = Some s' ->
  inv s'.
Proof.
  intros Ho Hp Hm Ht Hs. unfold wake. cbn [p_blocked p_code]. destruct blk; [|done].
  destruct main_codes as ((k0 & E0 & _) & (k1 & E1 & _) & E2 & (k3 & E3 & _) & (ku & Eu & _)).
  destruct Ho as [ | | | | |k n Hk Hn|k n Hk Hn| | | ]; try done; rewrite ?E0, ?E1, ?E2, ?E3, ?Eu; try done.
  - destruct k; [by rewrite delay_0|by rewrite delay_S].
  - intros [= <-]. rewrite put_solo by done. eapply inv_main; [|done..]. by apply outer_delay.
Qed.

(** The moves of the system, and of somebody at the keyboard. *)
Definition allowed (m : move) : Prop :=
  match m with Send pid sig => keyboard sig | _ => True end.

Lemma pend_send pend sig : keyboard sig -> pend_ok pend -> pend_ok (sigaddset pend sig).
Proof.
  intros Hk Hp x Hx. rewrite sigismember_add by (destruct Hk; subst; done || lia).
  intros [?|<-%Z.eqb_eq]%orb_true_iff; auto.
Qed.

Lemma blocked_deliver hmask code m pend acts sig : blocks hmask -> pend_ok pend ->
  deliverable (Proc a pp code m false hmask pend acts None) sig = false.
Proof.
  intros [H2 H3] Hp. unfold deliverable. cbn [p_pend p_mask]. destruct (Z.leb_spec 1 sig) as [Hs|Hs]; [|done].
  destruct (sigismember pend sig) eqn:E; [|done]. cbn [andb]. destruct (Hp sig Hs E) as [-> | ->]; [by rewrite H2|by rewrite H3].
Qed.

Lemma crit_inv_step s m s' : allowed m -> inv s -> step functions s m = Some s' -> inv s'.
Proof.
  intros Hm [code me blk mask pend acts n X nc nd Ho Hp Hme Ht Hs|
    sig code0 code me hmask pend acts n X nc nd o Ho Hh Hb Hp Ht Hs|p X nc nd Hd Hpid Ht Hs].
  - destruct m as [pid r|pid sig r|pid|pid sig]; cbn [step procs find_pid List.find p_pid]; (destruct (Z.eqb_spec a pid) as [<- | ?]; [|done]);
      cbn [dead p_zombie].
    + by eapply main_run.
    + destruct (deliverable _ sig) eqn:Ed; [|done]. by eapply main_deliver.
    + by eapply main_wake.
    + intros [= <-]. rewrite Z.eqb_refl. cbn [andb].
      refine (inv_main code me blk mask (sigaddset pend sig) acts n X nc nd Ho _ Hme Ht Hs). by apply pend_send.
  - destruct m as [pid r|pid sig' r|pid|pid sig']; cbn [step procs find_pid List.find p_pid]; (destruct (Z.eqb_spec a pid) as [<- | ?]; [|done]);
      cbn [dead p_zombie].
    + by eapply handler_run.
    + by rewrite (blocked_deliver _ _ _ _ _ _ Hb Hp).
    + done.
    + intros [= <-]. rewrite Z.eqb_refl. cbn [andb].
      refine (inv_handler sig code0 code me hmask (sigaddset pend sig') acts n X nc nd o Ho Hh Hb _ Ht Hs). by apply pend_send.
  - destruct m as [pid r|pid sig' r|pid|pid sig']; cbn [step procs find_pid List.find];
      (destruct (p_pid p =? pid); [by rewrite Hd|done]).
Qed.

(** Static variables are zero before main starts. *)
Definition start : sys :=
  Sys [with_mem (boot a pp (main argv0)) (mem_set (mem_set (fun _ => None) c 0) d 0)] [].

Lemma crit_inv_start : inv start.
Proof.
  refine (inv_main A0 _ false 0 0 acts0 0 [] 0 0 _ _ _ _ _); [constructor|by intros sig _; unfold sigismember; rewrite Z.bits_0|done|constructor|].
  exists [], []. by repeat constructor.
Qed.
End Run.

(** C19: Nothing interrupts the critical section of sigcrit.c.  However often and whenever
    SIGINT and SIGQUIT are sent, the events of the process are: events outside of the
    critical section, then the section - the entry line, 500 letters, the exit line -
    without anything in between, then events outside of it; and every handler that
    starts prints the next count of its signal before anything else happens, so no
    signal that is handled is counted twice or lost.  A signal that comes before its
    handler is set kills the process before the section. *)
Theorem sigcrit_uninterrupted argv0 a pp ms s' :
  1 < a -> 1 < pp -> pp <> a -> Forall allowed ms -> steps functions (start argv0 a pp) ms = Some s' ->
  exists X n nc nd o, plog s' = map (pair a) X /\ sectioned n X /\ told X nc nd o.
Proof.
  intros Ha Hpp Hne Hm Hs. assert (inv argv0 a pp s') as Hi.
  { eapply (moves_inv functions allowed); [|by apply crit_inv_start|done..]. intros s m s1 H1 H2. by apply crit_inv_step. }
  destruct Hi as [code me blk mask pend acts n X nc nd Ho Hp Hme Ht Hsec|
    sig code0 code me hmask pend acts n X nc nd o Ho Hh Hb Hp Ht Hsec|p X nc nd Hd Hpid Ht Hsec].
  - by exists X, n, nc, nd, None.
  - by exists X, n, nc, nd, o.
  - by exists X, 0%nat, nc, nd, None.
Qed.

(** Two SIGINT and a SIGQUIT come in the section; each signal is handled once, after it. *)
Definition eg_moves : list move :=
  [Run 100 0; Run 100 0; Run 100 0; Run 100 0; Run 100 0; Send 100 SIGINT; Send 100 SIGQUIT; Send 100 SIGINT] ++
  concat (replicate 500 [Run 100 0; Run 100 0; Wake 100]) ++
  [Run 100 0; Run 100 0; Run 100 0; Run 100 0; Deliver 100 SIGINT 0; Run 100 0; Run 100 0; Run 100 0; Run 100 0;
   Deliver 100 SIGQUIT 0; Run 100 0; Run 100 0; Run 100 0; Run 100 0].

Lemma eg_run : plog <$> steps functions (start "sigcrit" 100 50) eg_moves =
  Some (map (pair 100) ([EOut stderr trapped] ++ section ++
    [EHandler SIGINT; EOut stdout (int_text 1); EHandler SIGQUIT; EOut stdout (quit_text 1)])).
Proof. vm_compute. reflexivity. Qed.

Lemma eg_allowed : Forall allowed eg_moves.
Proof.
  apply Forall_app. split; [repeat (constructor; [first [exact I | by left | by right]|]); constructor|].
  apply Forall_app. split; [apply Forall_concat, Forall_replicate|];
    repeat (constructor; [exact I|]); constructor.
Qed.

Lemma sigcrit_uninterrupted_witness : exists s',
  steps functions (start "sigcrit" 100 50) eg_moves = Some s' /\
  exists X n nc nd o, plog s' = map (pair 100) X /\ sectioned n X /\ told X nc nd o.
Proof.
  destruct (fmap_Some_1 _ _ _ eg_run) as (s' & E & _). exists s'. split; [exact E|].
  apply (sigcrit_uninterrupted "sigcrit" 100 50 eg_moves s'); [lia..|apply eg_allowed|exact E].
Defined.
