(* ===== verification/MqPair.v ===== *)
(** src/ipc/posix_ipc/mq_posix: sender_mq.c sends one message with a priority,
    recv_mq.c prints the messages of the queue for ever.  The queue belongs to the
    kernel, so that the programs are run one after the other on the same kernel. *)
From Stdlib Require Import Sorted.
From S2P Require Import Prelude CMonad CLib Decimal.

Definition MQNAME : string := "/myposixmq".
Definition O_RDONLY : Z := 0.
Definition O_WRONLY : Z := 1.
Definition O_NEW : Z := 194. (* O_RDWR | O_CREAT | O_EXCL *)
Definition EMSGSIZE : Z := 90.

(** A printf precision: at most [n] bytes, up to a NUL. *)
Fixpoint cprefix (n : nat) (m : mem) : option (list Z) :=
  match n, m with
  | O, _ => Some []
  | S _, Some 0 :: _ => Some []
  | S n', Some b :: m' => cons b <$> cprefix n' m'
  | _, _ => None
  end.

Section Code.
Context {K : Type} {HK : Kernel K}.

Definition fatal_error {A} (msg : string) : C K A := perror msg;; exit 1.

(** The queue is created, or opened with [flags] if it exists. *)
Definition open_queue (flags : Z) : C K Z :=
  mymq ← sys "mq_open" [AS MQNAME; AI O_NEW; AI 420];
  e ← get_errno;
  if (mymq =? -1) && (e =? EEXIST) then
    mymq ← sys "mq_open" [AS MQNAME; AI flags];
    if mymq =? -1 then fatal_error "mq_open failed" else mret mymq
  else mret mymq.

(** ** sender_mq.c *)

Definition main_s (argv : list string) : C K unit :=
  let name := arg_n argv 0 in
  (if negb (argc argv =? 3) then
     fprintf stderr (cat ["Usage: "; name; " "; dquote; "msg to send"; dquote; " priority"; nl]);; exit 1
   else mret tt);;
  let len := to_int (strlen (arg_n argv 1)) in
  (if len <=? 0 then fprintf stderr (cat [name; ": invalid message? Aborting..."; nl]);; exit 1 else mret tt);;
  let prio := wrapu 32 (atoi (arg_n argv 2)) in
  max ← sys "sysconf" [AS "_SC_MQ_PRIO_MAX"];
  (if (prio <? 0) || (max <? prio) then
     max ← sys "sysconf" [AS "_SC_MQ_PRIO_MAX"];
     fprintf stderr (cat [name; ": invalid priority value, aborting..."; nl; "Valid priority range is [0-"; fmt_d max; "]"; nl]);;
     exit 1
   else mret tt);;
  mymq ← open_queue O_WRONLY;
  r ← sys "mq_send" [AI mymq; AB (ztake len (bytes_of (arg_n argv 1))); AI prio];
  (if r =? -1 then sys "mq_close" [AI mymq];; fatal_error "mq_send failed" else mret tt);;
  max ← sys "sysconf" [AS "_SC_MQ_PRIO_MAX"];
  printf (cat [name; ": sent a msg to MQ at prio "; fmt_wd 5 (to_int prio); " (max prio="; fmt_d max; ")"; nl]);;
  sys "mq_close" [AI mymq];;
  exit 0.

(** ** recv_mq.c *)

Definition line (name : string) (msg : list Z) (nr prio : Z) : string :=
  cat [name; ": received msg: "; text_of msg; " ["; fmt_wd 5 nr; " bytes, prio "; fmt_wd 5 prio; "]"; nl].

(** One turn of [while (1)]; mq_receive stores the priority and the message. *)
Definition recv_iter (name : string) (mymq msgsize : Z) (buf : mem) : C K (mem + unit) :=
  r ← syscall (Csys "mq_receive" [AI mymq; AI msgsize]);
  (if ret r =? -1 then syscall (Cfree 1);; sys "mq_close" [AI mymq];; fatal_error "mq_receive failed" else mret tt);;
  buf ← copy_in "buf" buf 0 (tl (out r));
  txt ← (match cprefix (Z.to_nat (to_int (ret r))) buf with
         | Some txt => mret txt
         | None => undefined (UB_uninit "buf" 0)
         end);
  printf (line name txt (ret r) (hd 0 (out r)));;
  mret (inl buf).

Definition main_r (fuel : nat) (argv : list string) : C K unit :=
  mymq ← open_queue O_RDONLY;
  a ← syscall (Csys "mq_getattr" [AI mymq]);
  (if ret a =? -1 then sys "mq_close" [AI mymq];; fatal_error "mq_getattr failed" else mret tt);;
  let msgsize := hd 0 (out a) in
  b ← sys "calloc" [AI msgsize; AI 1];
  (if b =? 0 then sys "mq_close" [AI mymq];; fatal_error "calloc failed" else mret tt);;
  loop fuel (recv_iter (arg_n argv 0) mymq msgsize) (init (replicate (Z.to_nat msgsize) 0));;
  syscall (Cfree b);;
  sys "mq_close" [AI mymq];;
  exit 0.

End Code.

(** ** The kernel *)

(** A message with its priority. *)
Definition msg : Type := Z * list Z.

(** The messages in the order in which they will be received. *)
Record mqs := Mqs { queue : option (list msg); maxmsg : nat; msgsize : Z; prio_max : Z }.

(** A message comes after those of its priority and before those of a lower one. *)
Fixpoint mq_insert (m : msg) (q : list msg) : list msg :=
  match q with
  | [] => [m]
  | x :: q' => if fst x <? fst m then m :: x :: q' else x :: mq_insert m q'
  end.

Definition set_queue (k : mqs) (q : list msg) : mqs := Mqs (Some q) (maxmsg k) (msgsize k) (prio_max k).

(** mq_send to a full queue and mq_receive from an empty one wait until they are
    interrupted. *)
#[export] Instance mq_kernel : Kernel mqs := fun c k =>
  match c with
  | Csys "sysconf" _ => (Resp (prio_max k) 0 [], k)
  | Csys "calloc" _ => (Resp 1 0 [], k)
  | Csys "mq_open" (_ :: AI flags :: _) =>
      match queue k with
      | Some _ => if flags =? O_NEW then (Resp (-1) EEXIST [], k) else (Resp 3 0 [], k)
      | None => if flags =? O_NEW then (Resp 3 0 [], set_queue k []) else (Resp (-1) 2 [], k)
      end
  | Csys "mq_getattr" _ => (Resp 0 0 [msgsize k], k)
  | Csys "mq_send" [_; AB d; AI prio] =>
      match queue k with
      | Some q =>
          if prio_max k <=? prio then (Resp (-1) EINVAL [], k)
          else if msgsize k <? zlen d then (Resp (-1) EMSGSIZE [], k)
          else if decide (length q < maxmsg k)%nat then (Resp 0 0 [], set_queue k (mq_insert (prio, d) q))
          else (Resp (-1) EINTR [], k)
      | None => (Resp (-1) EBADF [], k)
      end
  | Csys "mq_receive" _ =>
      match queue k with
      | Some ((prio, d) :: q) => (Resp (zlen d) 0 (prio :: d), set_queue k q)
      | Some [] => (Resp (-1) EINTR [], k)
      | None => (Resp (-1) EBADF [], k)
      end
  | _ => (Resp 0 0 [], k)
  end.

(** ** The order of the queue *)

Lemma mq_insert_perm m q : Permutation (mq_insert m q) (m :: q).
Proof.
  induction q as [|x q IH]; cbn; [done|]. destruct (fst x <? fst m); [done|]. rewrite IH. apply perm_swap.
Qed.

Definition before (x y : msg) : Prop := fst y <= fst x.

Lemma mq_insert_sorted m q : StronglySorted before q -> StronglySorted before (mq_insert m q).
Proof.
  induction 1 as [|x q Hq IH Hx]; cbn; [by repeat constructor|].
  destruct (Z.ltb_spec (fst x) (fst m)) as [Hl|Hl].
  - constructor; [by constructor|]. constructor; [unfold before; lia|]. eapply Forall_impl; [done|].
    unfold before. intros y Hy. lia.
  - constructor; [done|]. rewrite (mq_insert_perm m q). constructor; [unfold before; lia|done].
Qed.

(** The messages of one priority. *)
Definition at_prio (p : Z) (q : list msg) : list msg := List.filter (fun x : msg => fst x =? p) q.

Lemma mq_insert_stable m q p : StronglySorted before q -> at_prio p (mq_insert m q) = at_prio p (q ++ [m]).
Proof.
  unfold at_prio. induction 1 as [|x q Hq IH Hx]; [done|]. cbn [mq_insert app List.filter].
  destruct (Z.ltb_spec (fst x) (fst m)) as [Hl|Hl].
  - assert (forall y, In y (x :: q) -> fst y < fst m) as Hall.
    { intros y [<- | Hy]; [done|]. rewrite List.Forall_forall in Hx. specialize (Hx y Hy). unfold before in Hx. lia. }
    rewrite List.filter_app. cbn [List.filter]. destruct (Z.eqb_spec (fst m) p) as [Em|Em].
    + assert (List.filter (fun y : msg => fst y =? p) (x :: q) = []) as E.
      { clear -Hall Em. induction (x :: q) as [|y l IH]; [done|]. cbn. pose proof (Hall y (or_introl eq_refl)).
        rewrite (proj2 (Z.eqb_neq _ _)) by lia. apply IH. intros z Hz. apply Hall. by right. }
      cbn [List.filter] in E. destruct (fst x =? p); [done|]. cbn [app]. by rewrite E.
    + rewrite app_nil_r. by destruct (fst x =? p).
  - cbn [List.filter]. by rewrite IH.
Qed.

(** What the queue holds after [msgs] were sent in this order. *)
Definition queued (msgs : list msg) : list msg := fold_left (fun q m => mq_insert m q) msgs [].

Lemma queued_snoc msgs m : queued (msgs ++ [m]) = mq_insert m (queued msgs).
Proof. unfold queued. by rewrite fold_left_app. Qed.

Lemma queued_order msgs : Permutation (queued msgs) msgs /\ StronglySorted before (queued msgs) /\
  forall p, at_prio p (queued msgs) = at_prio p msgs.
Proof.
  induction msgs as [|m msgs (IH1 & IH2 & IH3)] using rev_ind; [by repeat constructor|].
  rewrite queued_snoc. split; [rewrite mq_insert_perm, IH1; apply Permutation_cons_append|].
  split; [by apply mq_insert_sorted|]. intros p. rewrite mq_insert_stable by done. unfold at_prio in *.
  by rewrite !List.filter_app, IH3.
Qed.

(** ** The programs on the kernel *)

Lemma wp_mq_call c r k' (Q : outcome resp -> world mqs -> Prop) w :
  mq_kernel c (kern w) = (r, k') -> Q (Done r) (after c r k' w) -> wp (syscall c) Q w.
Proof. intros E HQ. apply wp_syscall. intros r0 k0 E0. unfold kstep in E0. congruence. Qed.

(** The queue is there afterwards. *)
Definition opened (k : mqs) : mqs := set_queue k (default [] (queue k)).

Lemma wp_open_queue flags (Q : outcome Z -> world mqs -> Prop) w : flags <> O_NEW ->
  (forall w' evs, kern w' = opened (kern w) -> trace w' = trace w ++ evs ->
     (forall s t, EvOut s t ∉ evs) -> Q (Done 3) w') ->
  wp (open_queue flags) Q w.
Proof.
  intros Hf HQ. unfold open_queue. wp_step. unfold sys at 1. wp_step. destruct (queue (kern w)) as [q|] eqn:Eq.
  - eapply wp_mq_call; [unfold mq_kernel; rewrite Eq; reflexivity|]. cbn [post ret]. wp_step. wp_step. wp_step.
    cbn [after errno ret err]. change (call_failed _ _) with true. cbv iota. change ((-1 =? -1) && (EEXIST =? EEXIST)) with true.
    wp_step. wp_step. unfold sys at 1. wp_step.
    eapply wp_mq_call; [unfold mq_kernel; cbn [kern after]; rewrite Eq, (proj2 (Z.eqb_neq flags O_NEW) Hf); reflexivity|].
    cbn [post ret]. wp_step. change (3 =? -1) with false. wp_step. wp_step. eapply HQ.
    + cbn [kern after]. unfold opened, set_queue. rewrite Eq. cbn. by destruct (kern w); cbn in *; subst.
    + cbn [trace after]. rewrite <- app_assoc. reflexivity.
    + intros s t. cbn [app]. rewrite !not_elem_of_cons. split_and!; [done|done|]. apply not_elem_of_nil.
  - eapply wp_mq_call; [unfold mq_kernel; rewrite Eq; reflexivity|]. cbn [post ret]. wp_step. wp_step. wp_step.
    change (3 =? -1) with false. cbn [andb]. wp_step. eapply HQ; [|reflexivity|].
    + cbn [kern after]. unfold opened. by rewrite Eq.
    + intros s t. rewrite not_elem_of_cons. split; [done|]. apply not_elem_of_nil.
Qed.

(** A message the sender takes. *)
Definition msg_ok (k : mqs) (m : Z * string) : Prop :=
  0 <= fst m < prio_max k /\ 0 < strlen (snd m) <= msgsize k /\ no_nul (snd m).

Definition sane (k : mqs) : Prop := 0 < prio_max k <= INT_MAX /\ 0 < msgsize k <= INT_MAX.

Definition packet (m : Z * string) : msg := (fst m, bytes_of (snd m)).

Lemma wp_main_s name m q k e (Q : outcome unit -> world mqs -> Prop) :
  sane k -> msg_ok k m -> default [] (queue k) = q -> (length q < maxmsg k)%nat ->
  (forall w', kern w' = set_queue k (mq_insert (packet m) q) -> Q (Halt (HExit 0)) w') ->
  wp (main_s [name; snd m; fmt_d (fst m)]) Q (World k e []).
Proof.
  intros [Hpm Hms] (Hp & Hl & _) Eq Hlen HQ. unfold main_s. cbn [arg_n nth]. change (negb (argc _ =? 3)) with false.
  wp_call. rewrite (to_int_id (strlen (snd m))) by (unfold INT_MIN in *; lia).
  destruct (Z.leb_spec (strlen (snd m)) 0); [lia|]. wp_call.
  rewrite atoi_fmt_d by (unfold INT_MIN in *; lia).
  assert (wrapu 32 (fst m) = fst m) as -> by (apply wrapu_id; unfold in_u, INT_MAX in *; lia).
  eapply wp_mq_call; [reflexivity|]. cbn [post ret]. wp_call.
  destruct (Z.ltb_spec (fst m) 0); [lia|]. cbn [kern]. destruct (Z.ltb_spec (prio_max k) (fst m)); [lia|]. cbn [orb].
  wp_step. wp_step. apply wp_open_queue; [done|]. intros w1 evs K1 _ _. cbn [post kern after] in *. wp_call.
  assert (ztake (strlen (snd m)) (bytes_of (snd m)) = bytes_of (snd m)) as ->.
  { rewrite <- zlen_bytes_of. unfold ztake, zlen. rewrite Nat2Z.id. by apply take_ge. }
  eapply wp_mq_call.
  { unfold mq_kernel. rewrite K1. unfold opened, set_queue at 1 2 3 4. cbn [queue prio_max msgsize maxmsg].
    destruct (Z.leb_spec (prio_max k) (fst m)); [lia|].
    destruct (Z.ltb_spec (msgsize k) (zlen (bytes_of (snd m)))); [rewrite zlen_bytes_of in *; lia|].
    rewrite Eq, decide_True by done. reflexivity. }
  cbn [post ret]. wp_call. change (0 =? -1) with false. wp_call.
  eapply wp_mq_call; [reflexivity|]. cbn [post ret]. wp_call.
  eapply wp_mq_call; [reflexivity|]. cbn [post ret]. wp_call. apply HQ. done.
Qed.

(** What was printed. *)
Definition printed (tr : list event) : list string :=
  omap (fun e => match e with EvOut stdout t => Some t | _ => None end) tr.

Lemma mq_printed_app tr tr' : printed (tr ++ tr') = printed tr ++ printed tr'.
Proof. apply omap_app. Qed.

Lemma cprefix_init d rest : nonzero d -> cprefix (length d) (init d ++ rest) = Some d.
Proof.
  induction 1 as [|b d Hb Hd IH]; [done|]. change (init (b :: d) ++ rest) with (Some b :: (init d ++ rest)).
  cbn [length cprefix]. rewrite IH. by destruct b.
Qed.

Definition show (name : string) (m : msg) : string := line name (snd m) (zlen (snd m)) (fst m).

Definition packet_ok (k : mqs) (m : msg) : Prop := zlen (snd m) <= msgsize k /\ nonzero (snd m).

Lemma wp_recv_loop name size q : forall fuel buf (Q : outcome unit -> world mqs -> Prop) (w : world mqs),
  (length q < fuel)%nat -> zlen buf = size -> size <= INT_MAX -> queue (kern w) = Some q ->
  Forall (fun m => zlen (snd m) <= size /\ nonzero (snd m)) q ->
  (forall w' evs, trace w' = trace w ++ evs -> printed evs = map (show name) q ->
     EvPerror "mq_receive failed" EINTR ∈ evs -> Q (Halt (HExit 1)) w') ->
  wp (loop fuel (recv_iter name 3 size) buf) Q w.
Proof.
  induction q as [|[prio d] q IH]; intros fuel buf Q w Hf Hb Hsz Hq Hall HQ; (destruct fuel as [|fuel]; [lia|]);
    cbn [loop]; wp_step; unfold recv_iter at 1; wp_step.
  - eapply wp_mq_call; [unfold mq_kernel; rewrite Hq; reflexivity|]. cbn [post ret]. change (-1 =? -1) with true.
    wp_call. eapply wp_mq_call; [reflexivity|]. cbn [post]. wp_call. eapply wp_mq_call; [reflexivity|]. cbn [post ret].
    unfold fatal_error. wp_call. cbn [after errno ret err]. change (call_failed (Cfree 1) 0) with false.
    change (call_failed (Csys "mq_receive" _) (-1)) with true. change (call_failed (Csys "mq_close" _) 0) with false. cbv iota.
    eapply HQ; [cbn [trace after]; rewrite <- !app_assoc; reflexivity|done|ev_in].
  - apply Forall_cons in Hall as [[Hd Hn] Hall]. cbn [snd] in Hd, Hn.
    eapply wp_mq_call; [unfold mq_kernel; rewrite Hq; reflexivity|]. cbn [post ret out hd tl].
    pose proof (zlen_nonneg d). destruct (Z.eqb_spec (zlen d) (-1)); [lia|]. wp_step. wp_step. wp_step.
    apply wp_copy_in; [lia|lia|]. cbn [post]. wp_step. unfold blit at 1. change (ztake 0 buf) with (@nil (option Z)). cbn [app].
    rewrite (to_int_id (zlen d)) by (unfold INT_MIN; lia). unfold zlen at 1. rewrite Nat2Z.id, cprefix_init by done.
    wp_call. eapply IH; [cbn in Hf; lia| |done|done|done|].
    + unfold blit. change (ztake 0 buf) with (@nil (option Z)). cbn [app]. rewrite zlen_app, zlen_init, zlen_zdrop; lia.
    + intros w' evs Ht Hp He. cbn [trace after] in Ht. eapply HQ; [rewrite Ht, <- !app_assoc; reflexivity| |].
      * rewrite !mq_printed_app, Hp. done.
      * apply elem_of_app. right. apply elem_of_app. by right.
Qed.

Lemma wp_mq_main_r name fuel q k e (Q : outcome unit -> world mqs -> Prop) :
  sane k -> default [] (queue k) = q -> (length q < fuel)%nat -> Forall (packet_ok k) q ->
  (forall w', printed (trace w') = map (show name) q -> EvPerror "mq_receive failed" EINTR ∈ trace w' ->
     Q (Halt (HExit 1)) w') ->
  wp (main_r fuel [name]) Q (World k e []).
Proof.
  intros [Hpm Hms] Hq Hf Hall HQ. unfold main_r. wp_step. apply wp_open_queue; [done|]. intros w1 evs K1 T1 Hno. cbn [post kern trace] in *.
  wp_step. eapply wp_mq_call; [reflexivity|]. cbn [post ret out hd]. change (0 =? -1) with false. wp_call.
  eapply wp_mq_call; [reflexivity|]. cbn [post ret]. wp_call. change (1 =? 0) with false. wp_step. wp_step. wp_step.
  rewrite K1. cbn [opened set_queue msgsize].
  eapply wp_recv_loop; [done| |lia|cbn [kern after]; cbn; by rewrite Hq|done|].
  - rewrite zlen_init. unfold zlen. rewrite length_replicate. lia.
  - intros w' evs' Ht Hp He. cbn [post]. apply HQ.
    + rewrite Ht. cbn [trace after]. rewrite !mq_printed_app, T1, Hp. cbn [app].
      assert (printed evs = []) as ->; [|done]. unfold printed. clear -Hno.
      induction evs as [|ev evs IH]; [done|]. cbn. rewrite IH by (intros s t Hin; apply (Hno s t); by right).
      destruct ev as [|s t| |]; try done. destruct (Hno s t). by left.
    + rewrite Ht. apply elem_of_app. by right.
Qed.

(** ** Messages through the queue *)

(** Senders one after the other: what each ended with, and the kernel afterwards. *)
Fixpoint send_all (name : string) (ms : list (Z * string)) (k : mqs) : list (outcome unit) * mqs :=
  match ms with
  | [] => ([], k)
  | m :: ms' =>
      let '(o, w) := main_s [name; snd m; fmt_d (fst m)] (World k 0 []) in
      let '(os, k') := send_all name ms' (kern w) in (o :: os, k')
  end.

Lemma send_all_queue name ms : forall sent k, sane k -> Forall (msg_ok k) ms ->
  default [] (queue k) = queued sent -> (length sent + length ms <= maxmsg k)%nat ->
  exists k', send_all name ms k = (replicate (length ms) (Halt (HExit 0)), k') /\
    default [] (queue k') = queued (sent ++ map packet ms) /\ sane k' /\ msgsize k' = msgsize k.
Proof.
  induction ms as [|m ms IH]; intros sent k Hs Hok Hq Hl.
  { exists k. cbn. by rewrite app_nil_r. }
  apply Forall_cons in Hok as [Hm Hok]. cbn [length] in Hl.
  assert (wp (main_s [name; snd m; fmt_d (fst m)]) (fun o w => o = Halt (HExit 0) /\
    kern w = set_queue k (mq_insert (packet m) (queued sent))) (World k 0 [])) as (o & w & E & -> & Ek)%wp_run.
  { eapply wp_main_s; [done..| |by intros w' ->].
    destruct (queued_order sent) as (Hp & _). rewrite (Permutation_length Hp). lia. }
  destruct (IH (sent ++ [packet m]) (kern w)) as (k' & Er & Hq' & Hs' & Hz).
  - by rewrite Ek.
  - by rewrite Ek.
  - rewrite Ek. cbn. by rewrite queued_snoc.
  - rewrite Ek. cbn. rewrite length_app. cbn. lia.
  - exists k'. cbn [send_all]. rewrite E, Er. split; [done|]. cbn [map]. rewrite <- app_assoc in Hq'. cbn [app] in Hq'.
    split; [done|]. split; [done|]. rewrite Hz, Ek. done.
Qed.


Definition eg_kernel : mqs := Mqs None 10 8192 32768.
Definition eg_msgs : list (Z * string) := [(5, "low"); (9, "urgent"); (5, "later"); (9, "urgent too"); (0, "idle")].


(** The largest priority the check accepts is one the queue does not. *)
Lemma mq_largest_priority :
  exists w, main_s ["sender_mq"; "hi"; "32768"] (World eg_kernel 0 []) = (Halt (HExit 1), w) /\
    EvPerror "mq_send failed" EINVAL ∈ trace w.
Proof. eexists. split; [by vm_compute|]. cbn [trace]. ev_in. Qed.
