(* ===== verification/IpcSys.v ===== *)
(** Processes that share IPC objects, and a checked exploration of all their
    schedules.

    A process is its program and the answers its calls got so far; the objects
    (semaphores, shared memory, message queues, fifos) belong to the kernel and outlive the
    processes that use them.  One step is one call, one line of output or the end of
    one process; a call may have several possible answers, among them failures, and
    blocks when it has none.  The calls that can fail whenever they are made are malloc,
    ftok, fork, exec, fopen, the calls that open or create an object, ftruncate, mmap,
    shmat, sem_post, sem_wait, mq_send, msgsnd, semop with an operation other than 0, and
    a write to a fifo; the others fail only on an object that is not there.  So
    sem_unlink and the like fail when the name is gone, while sem_close, munmap, close
    and free, which only an invalid argument makes fail, do not, and the receiving calls
    mq_receive, msgrcv and the read of a fifo are never interrupted.  A theorem that says
    'whichever calls fail' means these calls.  The programs of [IpcPosix], [IpcSysV] and
    [IpcMore] read no input, so that their systems have finitely many runs: [explore] computes the states
    that one step, two steps, ... can lead to until there are none, and
    [explore_sound] turns a property that was evaluated on all of them into a theorem
    about every schedule, which includes that every run ends.

    Each process has a log of its own.  Time is not modelled: a sleep is a step like
    any other. *)
From stdpp Require Import relations.
From S2P Require Import Prelude CMonad CLib.
#[local] Open Scope Z_scope.

(** ** Programs *)

(** What a call returned, and what it stored. *)
Definition answer : Type := Z * list Z.

Inductive forked := FailedFork | InChild | InParent (pid : Z).

Inductive iprog (A : Type) :=
| IRet (a : A)
| IExit (code : Z)
| IUndef (u : ub)
| IOut (s : stream) (txt : string) (k : iprog A)
| IPerror (msg : string) (k : iprog A)
| IGetpid (k : Z -> iprog A)
| ICall (fn : string) (args : list arg) (k : answer -> iprog A)
| IFork (k : forked -> iprog A)
| IExec (file : string) (k : iprog A)
| IWait (k : Z -> iprog A).
Arguments IRet {A} a.
Arguments IExit {A} code.
Arguments IUndef {A} u.
Arguments IOut {A} s txt k.
Arguments IPerror {A} msg k.
Arguments IGetpid {A} k.
Arguments ICall {A} fn args k.
Arguments IFork {A} k.
Arguments IExec {A} file k.
Arguments IWait {A} k.

Fixpoint ibind {A B} (f : A -> iprog B) (m : iprog A) : iprog B :=
  match m with
  | IRet a => f a
  | IExit c => IExit c
  | IUndef u => IUndef u
  | IOut s t k => IOut s t (ibind f k)
  | IPerror t k => IPerror t (ibind f k)
  | IGetpid k => IGetpid (fun v => ibind f (k v))
  | ICall fn args k => ICall fn args (fun v => ibind f (k v))
  | IFork k => IFork (fun v => ibind f (k v))
  | IExec p k => IExec p (ibind f k)
  | IWait k => IWait (fun v => ibind f (k v))
  end.

#[export] Instance iprog_ret : MRet iprog := fun A a => IRet a.
#[export] Instance iprog_bind : MBind iprog := fun A B f m => ibind f m.

Definition iprintf (txt : string) : iprog unit := IOut stdout txt (IRet tt).
Definition ifprintf (s : stream) (txt : string) : iprog unit := IOut s txt (IRet tt).
Definition iperror (msg : string) : iprog unit := IPerror msg (IRet tt).
Definition iexit {A} (code : Z) : iprog A := IExit code.
Definition igetpid : iprog Z := IGetpid IRet.
Definition icall (fn : string) (args : list arg) : iprog answer := ICall fn args IRet.
Definition isys (fn : string) (args : list arg) : iprog Z := ICall fn args (fun r => IRet (fst r)).
Definition ido (fn : string) (args : list arg) : iprog unit := ICall fn args (fun _ => IRet tt).
Definition ifork : iprog forked := IFork IRet.
(** execl returns only when it fails. *)
Definition iexec (file : string) : iprog unit := IExec file (IRet tt).
Definition iwait : iprog unit := IWait (fun _ => IRet tt).
Definition iwhen (b : bool) (m : iprog unit) : iprog unit := if b then m else IRet tt.

(** A pointer compared with 0: addresses are unsigned. *)
Definition ptr_neg (p : Z) : bool := wrapu 64 p <? 0.
Definition ptr_pos (p : Z) : bool := 0 <? wrapu 64 p.

(** ** Objects *)

Inductive obj :=
| OSem (v : Z)                       (* a semaphore *)
| OShm (size : Z) (m : list Z)       (* shared memory: zero beyond what was written *)
| OMq (q : list (Z * list Z))        (* messages with their type or priority *)
| OFifo (r w wopen : bool) (d : list Z)   (* a reader came, a writer came, a writer is there *)
| OGone.                             (* a System V object that was removed *)

(** [sv_base] is the smallest System V identifier; identifiers can be 0. *)
Record ipc := Ipc { objs : list obj; names : list (string * nat); sv_base : Z }.

#[export] Instance obj_eq_dec : EqDecision obj.
Proof. solve_decision. Defined.
#[export] Instance ipc_eq_dec : EqDecision ipc.
Proof. solve_decision. Defined.

Definition ENOENT : Z := 2.
Definition EIDRM : Z := 43.
Definition E2BIG : Z := 7.

Definition O_CREAT : Z := 64.
Definition O_EXCL : Z := 128.
Definition IPC_CREAT : Z := 512.
Definition IPC_EXCL : Z := 1024.
Definition MSG_NOERROR : Z := 4096.

Definition has (flags bit : Z) : bool := negb (Z.land flags bit =? 0).

Definition find_name (n : string) (k : ipc) : option nat :=
  snd <$> List.find (fun x => String.eqb (fst x) n) (names k).

Definition unlink (n : string) (k : ipc) : ipc :=
  Ipc (objs k) (List.filter (fun x => negb (String.eqb (fst x) n)) (names k)) (sv_base k).

Definition set_obj (i : nat) (o : obj) (k : ipc) : ipc := Ipc (<[i := o]> (objs k)) (names k) (sv_base k).

(** The possible answers of a call; [None]: the process is killed (a fault).  A handle,
    descriptor or address is one more than the index of the object; a System V
    identifier counts from [sv_base]. *)
Definition outcomes : Type := list (option answer * ipc).

Definition ok (r : Z) (k : ipc) : option answer * ipc := (Some (r, []), k).
Definition fail (r e : Z) (k : ipc) : option answer * ipc := (Some (r, [e]), k).

(** Open or create a named object; [bad] is what a failure returns, [base] what the
    first object is called. *)
Definition do_open (base bad : Z) (name : string) (creat excl : bool) (new : obj) (k : ipc) : outcomes :=
  match find_name name k with
  | Some i => if creat && excl then [fail bad EEXIST k] else [ok (base + Z.of_nat i) k; fail bad ENOMEM k]
  | None =>
      if creat then
        [ok (base + zlen (objs k)) (Ipc (objs k ++ [new]) ((name, length (objs k)) :: names k) (sv_base k)); fail bad ENOMEM k]
      else [fail bad ENOENT k]
  end.

Definition obj_at (h : Z) (k : ipc) : option obj := if h <=? 0 then None else objs k !! Z.to_nat (h - 1).

Definition upd (h : Z) (o : obj) (k : ipc) : ipc := set_obj (Z.to_nat (h - 1)) o k.

Definition sv_at (id : Z) (k : ipc) : option obj := obj_at (id - sv_base k + 1) k.

Definition sv_upd (id : Z) (o : obj) (k : ipc) : ipc := upd (id - sv_base k + 1) o k.

(** The name space of System V objects is their keys. *)
Definition key_name (key : Z) : string := cat ["key "; fmt_d key].

(** The message that msgrcv takes: the first one, or the first one of a type. *)
Fixpoint take_msg (type : Z) (q : list (Z * list Z)) : option ((Z * list Z) * list (Z * list Z)) :=
  match q with
  | [] => None
  | m :: q' =>
      if (type =? 0) || (fst m =? type) then Some (m, q')
      else match take_msg type q' with Some (x, q'') => Some (x, m :: q'') | None => None end
  end.

Definition store (m : list Z) (off : Z) (bs : list Z) : list Z :=
  take (Z.to_nat off) (m ++ replicate (Z.to_nat off - length m) 0) ++ bs ++ drop (Z.to_nat off + length bs) m.

(** What the memory holds at an offset; what was not written is zero. *)
Definition load (m : list Z) (off n : Z) : list Z :=
  take (Z.to_nat n) (drop (Z.to_nat off) m ++ replicate (Z.to_nat n) 0).

(** A System V call on an object that was removed, or is none of its kind. *)
Definition removed (k : ipc) : outcomes := [fail (-1) EIDRM k].

Definition kdo (fn : string) (args : list arg) (k : ipc) : outcomes :=
  match fn, args with
  | "malloc", _ => [ok 1 k; fail 0 ENOMEM k]
  | "ftok", [AS path; AI _] => [ok 7 k; fail (-1) ENOENT k]
  (* POSIX semaphores *)
  | "sem_open", [AS name; AI flags; AI value] => do_open 1 0 name (has flags O_CREAT) (has flags O_EXCL) (OSem value) k
  | "sem_unlink", [AS name] => match find_name name k with Some _ => [ok 0 (unlink name k)] | None => [fail (-1) ENOENT k] end
  | "sem_post", [AI h] =>
      match obj_at h k with
      | Some (OSem v) => [ok 0 (upd h (OSem (v + 1)) k); fail (-1) EINVAL k]
      | _ => [(None, k)]
      end
  | "sem_wait", [AI h] =>
      match obj_at h k with
      | Some (OSem v) => if 0 <? v then [ok 0 (upd h (OSem (v - 1)) k); fail (-1) EINTR k] else []
      | _ => [(None, k)]
      end
  (* POSIX shared memory; a mapping is its object *)
  | "shm_open", [AS name; AI flags] => do_open 1 (-1) name (has flags O_CREAT) (has flags O_EXCL) (OShm 0 []) k
  | "shm_unlink", [AS name] => match find_name name k with Some _ => [ok 0 (unlink name k)] | None => [fail (-1) ENOENT k] end
  | "ftruncate", [AI h; AI n] =>
      match obj_at h k with
      | Some (OShm _ m) => [ok 0 (upd h (OShm n (take (Z.to_nat n) m)) k); fail (-1) EINVAL k]
      | _ => [fail (-1) EBADF k]
      end
  | "mmap", [AI h] =>
      match obj_at h k with
      | Some (OShm _ _) => [ok h k; fail (-1) ENOMEM k]
      | _ => [fail (-1) EBADF k]
      end
  (* a store and a load through an address *)
  | "store", [AI p; AI off; AB bs] =>
      match obj_at p k with
      | Some (OShm n m) => if off + zlen bs <=? n then [ok 0 (upd p (OShm n (store m off bs)) k)] else [(None, k)]
      | _ => [(None, k)]
      end
  | "load", [AI p; AI off; AI n] =>
      match obj_at p k with
      | Some (OShm size m) => if off + n <=? size then [(Some (0, load m off n), k)] else [(None, k)]
      | _ => [(None, k)]
      end
  (* a C string in the memory: it must end before the memory does *)
  | "loadstr", [AI p; AI off] =>
      match obj_at p k with
      | Some (OShm size m) =>
          match cstr_of (init (drop (Z.to_nat off) m ++ if Z.ltb (zlen m) size then [0] else [])) with
          | Some t => [(Some (0, t), k)]
          | None => [(None, k)]
          end
      | _ => [(None, k)]
      end
  (* POSIX message queues; all messages have one priority *)
  | "mq_open", [AS name; AI flags] => do_open 1 (-1) name (has flags O_CREAT) (has flags O_EXCL) (OMq []) k
  | "mq_send", [AI h; AB d; AI prio] =>
      match obj_at h k with
      | Some (OMq q) => [ok 0 (upd h (OMq (q ++ [(prio, d)])) k); fail (-1) EINVAL k]
      | _ => [fail (-1) EBADF k]
      end
  | "mq_receive", [AI h] =>
      match obj_at h k with
      | Some (OMq ((_, d) :: q)) => [(Some (zlen d, d), upd h (OMq q) k)]
      | Some (OMq []) => []
      | _ => [fail (-1) EBADF k]
      end
  (* fifos: open comes in two steps, it announces itself and then waits for the other end *)
  | "mkfifo", [AS name] =>
      match find_name name k with
      | Some _ => [fail (-1) EEXIST k]
      | None => do_open 1 (-1) name true false (OFifo false false false []) k
      end
  | "unlink", [AS name] => match find_name name k with Some _ => [ok 0 (unlink name k)] | None => [fail (-1) ENOENT k] end
  | "fifo_come", [AS name; AI writing] =>
      match find_name name k with
      | Some i =>
          match objs k !! i with
          | Some (OFifo r w wo d) =>
              [ok (Z.of_nat i + 1) (set_obj i (if writing =? 1 then OFifo r true true d else OFifo true w wo d) k);
               fail (-1) ENOMEM k]
          | _ => [fail (-1) EINVAL k]
          end
      | None => [fail (-1) ENOENT k]
      end
  | "fifo_meet", [AI h; AI writing] =>
      match obj_at h k with
      | Some (OFifo r w wo d) => if if writing =? 1 then r else w then [ok h k] else []
      | _ => [fail (-1) EBADF k]
      end
  | "fifo_write", [AI h; AB bs] =>
      match obj_at h k with
      | Some (OFifo r w wo d) => [ok (zlen bs) (upd h (OFifo r w wo (d ++ bs)) k); fail (-1) EIO k]
      | _ => [fail (-1) EBADF k]
      end
  | "fifo_read", [AI h; AI n] =>
      match obj_at h k with
      | Some (OFifo r w wo []) => if wo then [] else [ok 0 k]
      | Some (OFifo r w wo d) => [(Some (zlen (ztake n d), ztake n d), upd h (OFifo r w wo (drop (Z.to_nat n) d)) k)]
      | _ => [fail (-1) EBADF k]
      end
  | "fifo_close_w", [AI h] =>
      match obj_at h k with
      | Some (OFifo r w wo d) => [ok 0 (upd h (OFifo r w false d) k)]
      | _ => [fail (-1) EBADF k]
      end
  (* the end of a process by a signal of its own *)
  | "abort", _ => [(None, k)]
  (* files that are only appended to; the log of the calls has what was written *)
  | "fopen", _ => [ok 1 k; fail 0 ENOMEM k]
  (* System V; the key of a private object names nothing *)
  | "shmget", [AI key; AI n; AI flags] => do_open (sv_base k) (-1) (key_name key) (has flags IPC_CREAT) (has flags IPC_EXCL) (OShm n []) k
  | "shmget_private", [AI n] =>
      [ok (sv_base k + zlen (objs k)) (Ipc (objs k ++ [OShm n []]) (names k) (sv_base k)); fail (-1) ENOMEM k]
  | "shmat", [AI id] =>
      match sv_at id k with
      | Some (OShm _ _) => [ok (id - sv_base k + 1) k; fail (-1) ENOMEM k]
      | _ => [fail (-1) EINVAL k]
      end
  | "msgget", [AI key; AI flags] => do_open (sv_base k) (-1) (key_name key) (has flags IPC_CREAT) (has flags IPC_EXCL) (OMq []) k
  | "semget", [AI key; AI flags] => do_open (sv_base k) (-1) (key_name key) (has flags IPC_CREAT) (has flags IPC_EXCL) (OSem 0) k
  | "msgsnd", [AI id; AI type; AB d] =>
      match sv_at id k with
      | Some (OMq q) => [ok 0 (sv_upd id (OMq (q ++ [(type, d)])) k); fail (-1) ENOMEM k]
      | _ => removed k
      end
  | "msgrcv", [AI id; AI n; AI type; AI flags] =>
      match sv_at id k with
      | Some (OMq q) =>
          match take_msg type q with
          | Some ((t, d), q') =>
              if n <? zlen d then
                if has flags MSG_NOERROR then [(Some (n, t :: ztake n d), sv_upd id (OMq q') k)] else [fail (-1) E2BIG k]
              else [(Some (zlen d, t :: d), sv_upd id (OMq q') k)]
          | None => []
          end
      | _ => removed k
      end
  | "semop", [AI id; AI op] =>
      match sv_at id k with
      | Some (OSem v) =>
          if op =? 0 then if v =? 0 then [ok 0 k] else []
          else if v + op <? 0 then [] else [ok 0 (sv_upd id (OSem (v + op)) k); fail (-1) ENOMEM k]
      | _ => removed k
      end
  (* IPC_RMID; a segment lives on while it is attached *)
  | "ipc_rmid", [AI id] =>
      let gone := Ipc (objs k) (List.filter (fun x => negb (sv_base k + Z.of_nat (snd x) =? id)) (names k)) (sv_base k) in
      match sv_at id k with
      | Some (OShm _ _) => [ok 0 gone]
      | Some OGone | None => [fail (-1) EINVAL k]
      | Some _ => [ok 0 (sv_upd id OGone gone)]
      end
  (* sleep, close, munmap, shmdt, free and the like *)
  | _, _ => [ok 0 k]
  end.

(** A signal can end a sem_wait that blocks. *)
Definition interrupted (fn : string) (args : list arg) (k : ipc) : outcomes :=
  if String.eqb fn "sem_wait" && bool_decide (kdo fn args k = []) then [fail (-1) EINTR k] else [].

(** ** Processes *)

Inductive ending := Exited (code : Z) | Killed | Undefined.

Record iproc := IProc {
  i_prog : string;                          (* the name of its program *)
  i_hist : list answer;                     (* what its calls returned so far *)
  i_from : nat;                             (* how many of them it has from its parent *)
  i_past : list (string * list answer * nat);     (* the programs it was before exec *)
  i_parent : option nat;
  i_end : option ending;
  i_reaped : bool }.

Record istate := IState { iprocs : list iproc; ikern : ipc }.

#[export] Instance ending_eq_dec : EqDecision ending.
Proof. solve_decision. Defined.
#[export] Instance iproc_eq_dec : EqDecision iproc.
Proof. solve_decision. Defined.
#[export] Instance istate_eq_dec : EqDecision istate.
Proof. solve_decision. Defined.

Inductive ievent := IeOut (s : stream) (txt : string) | IePerror (msg : string).

#[export] Instance ievent_eq_dec : EqDecision ievent.
Proof. solve_decision. Defined.

Section Machine.
(** The programs, and the number of each process. *)
Context (programs : string -> option (iprog Z)) (pid : nat -> Z).

Definition fork_value (a : answer) : forked :=
  if fst a <? 0 then FailedFork else if fst a =? 0 then InChild else InParent (pid (Z.to_nat (hd 0 (snd a)))).

Definition wait_value (a : answer) : Z := if fst a <? 0 then -1 else pid (Z.to_nat (hd 0 (snd a))).

(** What is left of a program after the answers [h], in process [self]. *)
Fixpoint resume {A} (self : nat) (p : iprog A) (h : list answer) : iprog A :=
  match p with
  | IGetpid k => resume self (k (pid self)) h
  | _ =>
      match h with
      | [] => p
      | a :: h' =>
          match p with
          | IOut _ _ k | IPerror _ k | IExec _ k => resume self k h'
          | ICall _ _ k => resume self (k a) h'
          | IFork k => resume self (k (fork_value a)) h'
          | IWait k => resume self (k (wait_value a)) h'
          | _ => p
          end
      end
  end.

(** What it has printed. *)
Fixpoint outputs {A} (self : nat) (p : iprog A) (h : list answer) : list ievent :=
  match p with
  | IGetpid k => outputs self (k (pid self)) h
  | _ =>
      match h with
      | [] => []
      | a :: h' =>
          match p with
          | IOut s t k => IeOut s t :: outputs self k h'
          | IPerror t k => IePerror t :: outputs self k h'
          | IExec _ k => outputs self k h'
          | ICall _ _ k => outputs self (k a) h'
          | IFork k => outputs self (k (fork_value a)) h'
          | IWait k => outputs self (k (wait_value a)) h'
          | _ => []
          end
      end
  end.

(** The calls it has made, with their answers. *)
Fixpoint calls {A} (self : nat) (p : iprog A) (h : list answer) : list (string * Z) :=
  match p with
  | IGetpid k => calls self (k (pid self)) h
  | _ =>
      match h with
      | [] => []
      | a :: h' =>
          match p with
          | IOut _ _ k | IPerror _ k => calls self k h'
          | IExec f k => ("exec", -1) :: calls self k h'
          | ICall fn _ k => (fn, fst a) :: calls self (k a) h'
          | IFork k => ("fork", fst a) :: calls self (k (fork_value a)) h'
          | IWait k => ("wait", fst a) :: calls self (k (wait_value a)) h'
          | _ => []
          end
      end
  end.

Definition program (name : string) : iprog Z := default (IUndef (UB_null name)) (programs name).

(** The programs a process has run, with the answers of each. *)
Definition images (i : nat) (s : istate) : list (string * list answer * nat) :=
  match iprocs s !! i with
  | Some p => i_past p ++ [(i_prog p, i_hist p, i_from p)]
  | None => []
  end.

(** What [f] says of the answers a process got itself. *)
Definition own {A} (f : iprog Z -> list answer -> list A) (x : string * list answer * nat) : list A :=
  let '(name, h, n) := x in drop (length (f (program name) (take n h))) (f (program name) h).

Definition log_of (i : nat) (s : istate) : list ievent := concat (map (own (outputs i)) (images i s)).

Definition calls_of (i : nat) (s : istate) : list (string * Z) := concat (map (own (calls i)) (images i s)).

Definition get_answer (p : iproc) (a : answer) : iproc :=
  IProc (i_prog p) (i_hist p ++ [a]) (i_from p) (i_past p) (i_parent p) (i_end p) (i_reaped p).

Definition end_with (p : iproc) (e : ending) : iproc :=
  IProc (i_prog p) (i_hist p) (i_from p) (i_past p) (i_parent p) (Some e) (i_reaped p).

Definition reap (p : iproc) : iproc :=
  IProc (i_prog p) (i_hist p) (i_from p) (i_past p) (i_parent p) (i_end p) true.

Definition put_iproc (s : istate) (i : nat) (p : iproc) : istate := IState (<[i := p]> (iprocs s)) (ikern s).

(** A child of [i] that was not waited for, and one that is dead. *)
Definition child_of (i : nat) (p : iproc) : bool := bool_decide (i_parent p = Some i) && negb (i_reaped p).

Definition dead_child (i : nat) (p : iproc) : bool := child_of i p && bool_decide (is_Some (i_end p)).

(** The steps of process [i]; [intr] tells whether a signal may come while a call
    blocks. *)
Definition moves (intr : bool) (s : istate) (i : nat) (p : iproc) : list istate :=
  match i_end p with
  | Some _ => []
  | None =>
      match resume i (program (i_prog p)) (i_hist p) with
      | IRet c | IExit c => [put_iproc s i (end_with p (Exited c))]
      | IUndef _ => [put_iproc s i (end_with p Undefined)]
      | IOut _ _ _ | IPerror _ _ => [put_iproc s i (get_answer p (0, []))]
      | IGetpid _ => []
      | ICall fn args _ =>
          map (fun x => IState (<[i := match fst x with Some a => get_answer p a | None => end_with p Killed end]> (iprocs s))
                               (snd x))
              (kdo fn args (ikern s) ++ if intr then interrupted fn args (ikern s) else [])
      | IFork _ =>
          let n := length (iprocs s) in
          let child := IProc (i_prog p) (i_hist p ++ [(0, [])]) (S (length (i_hist p))) [] (Some i) None false in
          [IState (<[i := get_answer p (1, [Z.of_nat n])]> (iprocs s) ++ [child]) (ikern s);
           put_iproc s i (get_answer p (-1, []))]
      | IExec file _ =>
          match programs file with
          | Some _ => [put_iproc s i (IProc file [] 0 (i_past p ++ [(i_prog p, i_hist p, i_from p)]) (i_parent p) None (i_reaped p))]
          | None => []
          end ++ [put_iproc s i (get_answer p (-1, []))]
      | IWait _ =>
          if negb (existsb (child_of i) (iprocs s)) then [put_iproc s i (get_answer p (-1, []))]
          else omap (fun '(j, q) =>
                 if dead_child i q
                 then Some (put_iproc (put_iproc s j (reap q)) i (get_answer p (1, [Z.of_nat j])))
                 else None)
               (imap (fun j q => (j, q)) (iprocs s))
      end
  end.

Definition succs (s : istate) : list istate := concat (imap (moves true s) (iprocs s)).

(** A step of the system. *)
Definition istep (s s' : istate) : Prop := s' ∈ succs s.

(** Nobody can move: who has not ended is blocked, for good unless a signal comes. *)
Definition stuck (s : istate) : Prop := concat (imap (moves false s) (iprocs s)) = [].

(** Every process has ended. *)
Definition all_done (s : istate) : Prop := Forall (fun p => is_Some (i_end p)) (iprocs s).

#[export] Instance stuck_dec s : Decision (stuck s).
Proof. unfold stuck. apply _. Defined.
#[export] Instance all_done_dec s : Decision (all_done s).
Proof. unfold all_done. apply _. Defined.

(** ** All schedules *)

(** Every state that fewer than [n] steps lead to satisfies [P], and [n] steps lead to
    none. *)
Fixpoint explore (P : istate -> bool) (n : nat) (S0 : list istate) : bool :=
  match n with
  | O => bool_decide (S0 = [])
  | S n' => forallb P S0 && explore P n' (remove_dups (concat (map succs S0)))
  end.

Lemma next_level S0 s s' : s ∈ S0 -> istep s s' -> s' ∈ remove_dups (concat (map succs S0)).
Proof.
  intros Hs Hstep. apply elem_of_remove_dups, list_elem_of_In, List.in_concat. exists (succs s).
  split; [|by apply list_elem_of_In]. apply List.in_map. by apply list_elem_of_In.
Qed.

(** What the exploration found holds in every reachable state, and no run has more
    than [n] steps. *)
Lemma explore_sound P n S0 : explore P n S0 = true ->
  forall s m s', s ∈ S0 -> nsteps istep m s s' -> P s' = true /\ (m < n)%nat.
Proof.
  revert S0. induction n as [|n IH]; intros S0; cbn [explore].
  - intros ->%bool_decide_eq_true s m s' Hs. by apply not_elem_of_nil in Hs.
  - intros [HP Hn]%andb_prop s m s' Hs Hm. destruct Hm as [s|m s s1 s' H1 Hm].
    + split; [|lia]. rewrite List.forallb_forall in HP. apply HP. by apply list_elem_of_In.
    + destruct (IH _ Hn s1 m s') as [H2 H3]; [by eapply next_level|done|]. split; [done|lia].
Qed.

Lemma explore_all (P : istate -> Prop) `{!forall s, Decision (P s)} n s0 m s :
  explore (fun s => bool_decide (P s)) n [s0] = true -> nsteps istep m s0 s -> (m < n)%nat /\ P s.
Proof.
  intros He Hm. destruct (explore_sound _ _ _ He s0 m s) as [HP Hn]; [by apply list_elem_of_singleton|done|].
  split; [done|]. by eapply bool_decide_eq_true_1.
Qed.

(** *** Runs in which no call was interrupted *)

(** A call of the process was interrupted: only sem_wait answers that. *)
Definition saw_eintr (p : iproc) : Prop :=
  (-1, [EINTR]) ∈ i_hist p ++ concat (map (fun x => snd (fst x)) (i_past p)).

Definition wait_failed (s : istate) : Prop := Exists saw_eintr (iprocs s).

#[export] Instance wait_failed_dec s : Decision (wait_failed s).
Proof. unfold wait_failed, saw_eintr. apply _. Defined.

Lemma wait_failed_insert l i p p' :
  l !! i = Some p -> (saw_eintr p -> saw_eintr p') -> Exists saw_eintr l -> Exists saw_eintr (<[i := p']> l).
Proof.
  intros Hi Hp H. apply list.Exists_exists in H as (q & Hq & Hs). apply list_elem_of_lookup in Hq as [j Hj].
  apply list.Exists_exists. destruct (decide (i = j)) as [<-|Hne].
  - exists p'. split; [|apply Hp; congruence]. apply list_elem_of_lookup. exists i.
    apply list_lookup_insert_eq. by eapply lookup_lt_Some.
  - exists q. split; [|done]. apply list_elem_of_lookup. exists j. by rewrite list_lookup_insert_ne.
Qed.

Lemma saw_get_answer p a : saw_eintr p -> saw_eintr (get_answer p a).
Proof. unfold saw_eintr. cbn. rewrite !elem_of_app. tauto. Qed.

Lemma saw_end_with p e : saw_eintr p -> saw_eintr (end_with p e).
Proof. done. Qed.

Lemma saw_exec p file : saw_eintr p ->
  saw_eintr (IProc file [] 0 (i_past p ++ [(i_prog p, i_hist p, i_from p)]) (i_parent p) None (i_reaped p)).
Proof.
  unfold saw_eintr. cbn. rewrite map_app, concat_app. cbn. rewrite app_nil_r, !elem_of_app. tauto.
Qed.

(** Once a call was interrupted this stays so. *)
Lemma wait_failed_step s s' : wait_failed s -> istep s s' -> wait_failed s'.
Proof.
  intros H Hs. unfold istep, succs in Hs. apply list_elem_of_In, in_concat in Hs as (l & Hl & Hs).
  apply list_elem_of_In, elem_of_lookup_imap in Hl as (i & p & -> & Hp).
  apply list_elem_of_In in Hs. unfold moves in Hs. destruct (i_end p); [by apply not_elem_of_nil in Hs|].
  assert (Hput : forall p', (saw_eintr p -> saw_eintr p') -> s' = put_iproc s i p' -> wait_failed s').
  { intros p' Hpp ->. by eapply wait_failed_insert. }
  destruct (resume i (program (i_prog p)) (i_hist p)); cbn [iprocs] in *.
  - apply list_elem_of_singleton in Hs. eauto using saw_end_with.
  - apply list_elem_of_singleton in Hs. eauto using saw_end_with.
  - apply list_elem_of_singleton in Hs. eauto using saw_end_with.
  - apply list_elem_of_singleton in Hs. eauto using saw_get_answer.
  - apply list_elem_of_singleton in Hs. eauto using saw_get_answer.
  - by apply not_elem_of_nil in Hs.
  - apply list_elem_of_fmap in Hs as ([[a|] k'] & -> & _); unfold wait_failed; cbn [iprocs fst];
      (eapply wait_failed_insert; [done| |done]); [apply saw_get_answer|done].
  - apply elem_of_cons in Hs as [->|Hs].
    + unfold wait_failed. cbn [iprocs]. apply Exists_app. left.
      eapply wait_failed_insert; [done|apply saw_get_answer|done].
    + apply list_elem_of_singleton in Hs. eauto using saw_get_answer.
  - apply elem_of_app in Hs as [Hs|Hs].
    + destruct (programs file); [|by apply not_elem_of_nil in Hs].
      apply list_elem_of_singleton in Hs. eauto using saw_exec.
    + apply list_elem_of_singleton in Hs. eauto using saw_get_answer.
  - destruct (negb _).
    + apply list_elem_of_singleton in Hs. eauto using saw_get_answer.
    + apply list_elem_of_omap in Hs as ([j q] & Hj & Hs).
      apply elem_of_lookup_imap in Hj as (j' & q' & [= -> ->] & Hq).
      destruct (dead_child i q'); [|done]. injection Hs as <-. unfold wait_failed. cbn [put_iproc iprocs].
      destruct (decide (i = j')) as [<-|Hne].
      * rewrite list_insert_insert_eq. eapply (wait_failed_insert _ _ p); [done|apply saw_get_answer|done].
      * eapply (wait_failed_insert _ i p); [by rewrite list_lookup_insert_ne|apply saw_get_answer|].
        eapply wait_failed_insert; [done| |done]. done.
Qed.

Lemma wait_failed_steps m s s' : nsteps istep m s s' -> wait_failed s -> wait_failed s'.
Proof. induction 1; eauto using wait_failed_step. Qed.

(** The exploration of the runs without an interrupted call. *)
Fixpoint explore_calm (P : istate -> bool) (n : nat) (S0 : list istate) : bool :=
  match n with
  | O => bool_decide (S0 = [])
  | S n' => forallb P S0 &&
      explore_calm P n' (remove_dups (List.filter (fun s => negb (bool_decide (wait_failed s))) (concat (map succs S0))))
  end.

Lemma explore_calm_sound P n S0 : explore_calm P n S0 = true ->
  forall s m s', s ∈ S0 -> nsteps istep m s s' -> ~ wait_failed s' -> P s' = true /\ (m < n)%nat.
Proof.
  revert S0. induction n as [|n IH]; intros S0; cbn [explore_calm].
  - intros ->%bool_decide_eq_true s m s' Hs. by apply not_elem_of_nil in Hs.
  - intros [HP Hn]%andb_prop s m s' Hs Hm Hc. destruct Hm as [s|m s s1 s' H1 Hm].
    + split; [|lia]. rewrite List.forallb_forall in HP. apply HP. by apply list_elem_of_In.
    + destruct (IH _ Hn s1 m s') as [H2 H3]; [|done|done|split; [done|lia]].
      pose proof (next_level S0 s s1 Hs H1) as H2. rewrite elem_of_remove_dups, list_elem_of_In in H2.
      apply elem_of_remove_dups, list_elem_of_In, List.filter_In. split; [exact H2|].
      apply negb_true_iff, bool_decide_eq_false. intros Hw. apply Hc. by eapply wait_failed_steps.
Qed.

Lemma explore_calm_all (P : istate -> Prop) `{!forall s, Decision (P s)} n s0 m s :
  explore_calm (fun s => bool_decide (P s)) n [s0] = true -> nsteps istep m s0 s -> ~ wait_failed s ->
  (m < n)%nat /\ P s.
Proof.
  intros He Hm Hw. destruct (explore_calm_sound _ _ _ He s0 m s) as [HP Hn]; [by apply list_elem_of_singleton|done|done|].
  split; [done|]. by eapply bool_decide_eq_true_1.
Qed.

(** The run that takes the given successor each time. *)
Fixpoint run_choices (cs : list nat) (s : istate) : option istate :=
  match cs with
  | [] => Some s
  | c :: cs' => succs s !! c ≫= run_choices cs'
  end.

Lemma run_choices_nsteps cs s s' : run_choices cs s = Some s' -> nsteps istep (length cs) s s'.
Proof.
  revert s. induction cs as [|c cs IH]; intros s; cbn; [intros [= ->]; constructor|].
  intros (s1 & H1 & H2)%bind_Some. apply nsteps_l with s1; [|auto]. by eapply list_elem_of_lookup_2.
Qed.

End Machine.

(** A process that was just started. *)
Definition started (name : string) : iproc := IProc name [] 0 [] None None false.

(** The ending of process [i]. *)
Definition ended (i : nat) (s : istate) : option ending := iprocs s !! i ≫= i_end.

(** Evaluate a decidable statement about a given state. *)
Ltac decide_true := match goal with |- ?P => refine (bool_decide_eq_true_1 P _); vm_compute; reflexivity end.
