(* ===== verification/IpcPosix.v ===== *)
(** The POSIX pairs of src/ipc/posix_ipc/more_demos/hildstrom_ipc_sysv_posix, in which a
    parent and a child that executes a program of its own meet at a named semaphore, a
    shared memory object or a message queue. *)
From stdpp Require Import relations.
From S2P Require Import Prelude CMonad CLib IpcSys.
#[local] Open Scope Z_scope.

(** The child's case of the parents: it becomes the program [file]; when that fails it
    goes to the cleanup of the parent, with the return code 1. *)
Definition exec_child (file : string) : iprog Z :=
  me ← igetpid;
  iprintf (cat ["child pid is "; fmt_d me; nl]) ≫= fun _ =>
  iexec file ≫= fun _ =>
  iperror "execve" ≫= fun _ =>
  mret 1.

(** ** posix_semaphore_parent.c and posix_semaphore_child.c *)

Module Sem.

Definition SEM_FAILED : Z := 0.
Definition name : string := "/semname".

(** [if (sem != SEM_FAILED)] of the parent. *)
Definition cleanup (sem : Z) : iprog unit :=
  iwhen (negb (sem =? SEM_FAILED)) (ido "sem_close" [AI sem] ≫= fun _ => ido "sem_unlink" [AS name]).

Definition parent (sem cpid : Z) : iprog Z :=
  me ← igetpid;
  iprintf (cat ["parent pid is "; fmt_d me; " and child pid is "; fmt_d cpid; nl]) ≫= fun _ =>
  ido "sleep" [AI 1] ≫= fun _ =>
  iprintf (cat ["parent delay"; nl]) ≫= fun _ =>
  ido "sleep" [AI 2] ≫= fun _ =>
  iprintf (cat ["parent about to increment semaphore to non-zero"; nl]) ≫= fun _ =>
  rv ← isys "sem_post" [AI sem];
  if rv <? 0 then iperror "sem_post" ≫= fun _ => mret 1
  else iwait ≫= fun _ => mret 0.

Definition parent_main : iprog Z :=
  sem ← isys "sem_open" [AS name; AI (Z.lor 2 O_CREAT); AI 0];
  rc ← (if sem =? SEM_FAILED then iperror "sem_open" ≫= fun _ => mret 1
        else
          f ← ifork;
          match f with
          | FailedFork => iperror "fork" ≫= fun _ => mret 1
          | InChild => exec_child "posix_semaphore_child"
          | InParent cpid => parent sem cpid
          end);
  cleanup sem ≫= fun _ =>
  mret rc.

Definition child_main : iprog Z :=
  sem ← isys "sem_open" [AS name; AI 2; AI 0];
  rc ← (if sem =? SEM_FAILED then iperror "sem_open" ≫= fun _ => mret 1
        else
          me ← igetpid;
          iprintf (cat ["execve'd child pid is "; fmt_d me; nl]) ≫= fun _ =>
          iprintf (cat ["execve'd child waiting for semaphore non-zero value"; nl]) ≫= fun _ =>
          rv ← isys "sem_wait" [AI sem];
          if rv <? 0 then iperror "sem_wait" ≫= fun _ => mret 1
          else
            iprintf (cat ["execve'd child detected semaphore non-zero value"; nl]) ≫= fun _ =>
            mret 0);
  iwhen (negb (sem =? SEM_FAILED)) (ido "sem_close" [AI sem]) ≫= fun _ =>
  mret rc.

Definition programs (f : string) : option (iprog Z) :=
  if String.eqb f "posix_semaphore_parent" then Some parent_main
  else if String.eqb f "posix_semaphore_child" then Some child_main
  else None.

Definition start : istate := IState [started "posix_semaphore_parent"] (Ipc [] [] 1).

(** *** Every schedule *)

Definition detected : ievent :=
  IeOut stdout (cat ["execve'd child detected semaphore non-zero value"; nl]).

(** The run in which every call succeeds ends here. *)
Definition final : istate :=
  Eval vm_compute in default start (run_choices programs (fun _ => 0) (replicate 21 0%nat) start).

(** What holds at any time. *)
Definition correct (pid : nat -> Z) (s : istate) : Prop :=
  (detected ∈ log_of programs pid 1 s -> ("sem_post", 0) ∈ calls_of programs pid 0 s) /\
  (stuck programs pid s ->
     ended 0 s <> None /\ names (ikern s) = [] /\
     (~ all_done s -> ("sem_post", -1) ∈ calls_of programs pid 0 s)) /\
  (ended 0 s = Some (Exited 0) -> ended 1 s = Some (Exited 0) -> s = final).

#[export] Instance sem_correct_dec pid s : Decision (correct pid s).
Proof. unfold correct. apply _. Defined.

Lemma sem_explored pid : explore programs pid (fun s => bool_decide (correct pid s)) 22 [start] = true.
Proof. vm_compute. reflexivity. Qed.

Definition parent_log (a b : Z) : list ievent :=
  map (IeOut stdout)
    [cat ["parent pid is "; fmt_d a; " and child pid is "; fmt_d b; nl]; cat ["parent delay"; nl];
     cat ["parent about to increment semaphore to non-zero"; nl]].

Definition child_log (b : Z) : list ievent :=
  map (IeOut stdout)
    [cat ["child pid is "; fmt_d b; nl]; cat ["execve'd child pid is "; fmt_d b; nl];
     cat ["execve'd child waiting for semaphore non-zero value"; nl];
     cat ["execve'd child detected semaphore non-zero value"; nl]].

(** C27: The semaphore orders parent and child, started without a semaphore of that
    name. In every schedule, whichever of the calls that can fail do, the child that was
    executed says that it detected the semaphore only after the parent's sem_post
    succeeded; every run ends within 21 steps; in the end the parent is not blocked, the
    name of the semaphore is gone, and a child that waits for ever is there only if
    sem_post failed. When both end with success their output is exactly the text given
    here. *)
Theorem posix_semaphore_pair pid m s : nsteps (istep programs pid) m start s ->
  (m <= 21)%nat /\
  (detected ∈ log_of programs pid 1 s -> ("sem_post", 0) ∈ calls_of programs pid 0 s) /\
  (stuck programs pid s ->
     ended 0 s <> None /\ names (ikern s) = [] /\
     (~ all_done s -> ("sem_post", -1) ∈ calls_of programs pid 0 s)) /\
  (ended 0 s = Some (Exited 0) -> ended 1 s = Some (Exited 0) ->
     log_of programs pid 0 s = parent_log (pid 0%nat) (pid 1%nat) /\
     log_of programs pid 1 s = child_log (pid 1%nat)).
Proof.
  intros Hm. destruct (explore_all _ _ _ _ _ _ _ (sem_explored pid) Hm) as [Hn (H1 & H2 & H3)].
  split; [lia|]. split; [done|]. split; [done|]. intros E0 E1. by rewrite (H3 E0 E1).
Qed.

Lemma posix_semaphore_pair_witness : let pid i := 100 + Z.of_nat i in
  nsteps (istep programs pid) 21 start final /\ ended 0 final = Some (Exited 0) /\
  log_of programs pid 1 final = child_log 101.
Proof.
  cbn zeta. assert (nsteps (istep programs (fun i => 100 + Z.of_nat i)) 21 start final) as Hm.
  { apply (run_choices_nsteps programs _ (replicate 21 0%nat)). vm_compute. reflexivity. }
  split; [exact Hm|]. split; [reflexivity|].
  by apply (posix_semaphore_pair (fun i => 100 + Z.of_nat i) 21 final Hm).
Defined.

End Sem.

(** ** posix_shared_memory_parent.c and posix_shared_memory_child.c *)

Module Shm.

Definition name : string := "/shmname".
Definition buffer_size : Z := 4096.
Definition message : string := "hello from execve'd child".

(** Both programs test [buffer < 0], which no pointer satisfies. *)
Definition parent_cleanup (buffer shmfd : Z) : iprog unit :=
  iwhen (ptr_pos buffer) (ido "munmap" [AI buffer]) ≫= fun _ =>
  iwhen (0 <? shmfd) (ido "close" [AI shmfd] ≫= fun _ => ido "shm_unlink" [AS name]).

Definition parent (buffer cpid : Z) : iprog Z :=
  me ← igetpid;
  iprintf (cat ["parent pid is "; fmt_d me; " and child pid is "; fmt_d cpid; nl]) ≫= fun _ =>
  iwait ≫= fun _ =>
  iprintf (cat ["Parent: child has written to the shmfile under /dev/shm/shmname"; nl;
                "(delay for a few secs... check it out)"; nl]) ≫= fun _ =>
  ido "sleep" [AI 5] ≫= fun _ =>
  t ← icall "loadstr" [AI buffer; AI 0];
  iprintf (cat ["parent read from shared memory buffer: "; text_of (snd t); nl]) ≫= fun _ =>
  mret 0.

Definition parent_main : iprog Z :=
  shmfd ← isys "shm_open" [AS name; AI (Z.lor 2 O_CREAT)];
  x ← (if shmfd <? 0 then iperror "shm_open" ≫= fun _ => mret (1, 0)
       else
         rv ← isys "ftruncate" [AI shmfd; AI buffer_size];
         if rv <? 0 then iperror "ftruncate" ≫= fun _ => mret (1, 0)
         else
           buffer ← isys "mmap" [AI shmfd];
           if ptr_neg buffer then iperror "mmap" ≫= fun _ => mret (1, buffer)
           else
             iprintf (cat ["parent created shmem (size "; fmt_d buffer_size; ") at "; fmt_p buffer; nl]) ≫= fun _ =>
             f ← ifork;
             rc ← match f with
                  | FailedFork => iperror "fork" ≫= fun _ => mret 1
                  | InChild => exec_child "posix_shared_memory_child"
                  | InParent cpid => parent buffer cpid
                  end;
             mret (rc, buffer));
  parent_cleanup (snd x) shmfd ≫= fun _ =>
  mret (fst x).

Definition child (shmfd buffer : Z) : iprog Z :=
  iprintf (cat ["child accessed shmem (size "; fmt_d buffer_size; ") at "; fmt_p buffer; nl]) ≫= fun _ =>
  me ← igetpid;
  iprintf (cat ["execve'd child pid is "; fmt_d me; nl]) ≫= fun _ =>
  ido "store" [AI buffer; AI 0; AB (bytes_of (snprintf buffer_size message) ++ [0])] ≫= fun _ =>
  let size := strlen message in
  if size <=? 0 then iperror "snprintf" ≫= fun _ => mret 1
  else
    t ← icall "loadstr" [AI buffer; AI 0];
    iprintf (cat ["execve'd child wrote to shared memory buffer: "; text_of (snd t); nl]) ≫= fun _ =>
    mret 0.

Definition child_main : iprog Z :=
  shmfd ← isys "shm_open" [AS name; AI 2];
  x ← (if shmfd <? 0 then iperror "shm_open" ≫= fun _ => mret (1, 0)
       else
         buffer ← isys "mmap" [AI shmfd];
         if ptr_neg buffer then iperror "mmap" ≫= fun _ => mret (1, buffer)
         else rc ← child shmfd buffer; mret (rc, buffer));
  iwhen (ptr_pos (snd x)) (ido "munmap" [AI (snd x)]) ≫= fun _ =>
  iwhen (0 <? shmfd) (ido "close" [AI shmfd]) ≫= fun _ =>
  mret (fst x).

Definition programs (f : string) : option (iprog Z) :=
  if String.eqb f "posix_shared_memory_parent" then Some parent_main
  else if String.eqb f "posix_shared_memory_child" then Some child_main
  else None.

Definition start : istate := IState [started "posix_shared_memory_parent"] (Ipc [] [] 1).

(** *** Every schedule *)

Definition read_line (t : string) : ievent :=
  IeOut stdout (cat ["parent read from shared memory buffer: "; t; nl]).

(** The first alternative of every call. *)
Definition final : istate :=
  Eval vm_compute in default start (run_choices programs (fun _ => 0) (replicate 27 0%nat) start).

Definition correct (pid : nat -> Z) (s : istate) : Prop :=
  (stuck programs pid s ->
     all_done s /\
     (ended 0 s = Some Killed <-> ("mmap", -1) ∈ calls_of programs pid 0 s /\ ("fork", 1) ∈ calls_of programs pid 0 s) /\
     (ended 0 s <> Some Killed -> names (ikern s) = []) /\
     (ended 0 s = Some (Exited 0) ->
        read_line (if decide (ended 1 s = Some (Exited 0)) then message else EmptyString) ∈ log_of programs pid 0 s)) /\
  (ended 0 s = Some (Exited 0) -> ended 1 s = Some (Exited 0) -> s = final).

#[export] Instance shm_correct_dec pid s : Decision (correct pid s).
Proof. unfold correct. apply _. Defined.

Lemma shm_explored pid : explore programs pid (fun s => bool_decide (correct pid s)) 28 [start] = true.
Proof. vm_compute. reflexivity. Qed.

Definition parent_log (a b : Z) : list ievent :=
  map (IeOut stdout)
    [cat ["parent created shmem (size 4096) at "; fmt_p 1; nl];
     cat ["parent pid is "; fmt_d a; " and child pid is "; fmt_d b; nl];
     cat ["Parent: child has written to the shmfile under /dev/shm/shmname"; nl;
          "(delay for a few secs... check it out)"; nl];
     cat ["parent read from shared memory buffer: "; message; nl]].

(** What the child writes to the shared memory is what the parent reads.  In every
    schedule and whichever calls fail, both processes end within 27 steps.  A parent
    that returns 0 printed the child's message if the child succeeded and an empty
    string if not; the object is removed, unless the parent was killed, and it is
    killed exactly when it went on to fork after its mmap had failed, because the
    program takes MAP_FAILED for an address. *)
Theorem posix_shm_pair pid m s : nsteps (istep programs pid) m start s ->
  (m <= 27)%nat /\
  (stuck programs pid s ->
     all_done s /\
     (ended 0 s = Some Killed <-> ("mmap", -1) ∈ calls_of programs pid 0 s /\ ("fork", 1) ∈ calls_of programs pid 0 s) /\
     (ended 0 s <> Some Killed -> names (ikern s) = []) /\
     (ended 0 s = Some (Exited 0) ->
        read_line (if decide (ended 1 s = Some (Exited 0)) then message else EmptyString) ∈ log_of programs pid 0 s)) /\
  (ended 0 s = Some (Exited 0) -> ended 1 s = Some (Exited 0) ->
     log_of programs pid 0 s = parent_log (pid 0%nat) (pid 1%nat)).
Proof.
  intros Hm. destruct (explore_all _ _ _ _ _ _ _ (shm_explored pid) Hm) as [Hn (H1 & H2)].
  split; [lia|]. split; [done|]. intros E0 E1. by rewrite (H2 E0 E1).
Qed.

Lemma posix_shm_pair_witness : let pid i := 100 + Z.of_nat i in
  nsteps (istep programs pid) 27 start final /\ ended 0 final = Some (Exited 0) /\
  log_of programs pid 0 final = parent_log 100 101.
Proof.
  cbn zeta. assert (nsteps (istep programs (fun i => 100 + Z.of_nat i)) 27 start final) as Hm.
  { apply (run_choices_nsteps programs _ (replicate 27 0%nat)). vm_compute. reflexivity. }
  split; [exact Hm|]. split; [reflexivity|].
  by apply (posix_shm_pair (fun i => 100 + Z.of_nat i) 27 final Hm).
Defined.

End Shm.

(** ** posix_message_queue_parent.c and posix_message_queue_child.c *)

Module Mq.

Definition mqname : string := "/posix_mq".

(** The text that is sent. *)
Definition message : string := "1234".

Definition parent (msgid cpid : Z) : iprog Z :=
  me ← igetpid;
  iprintf (cat ["parent pid is "; fmt_d me; " and child pid is "; fmt_d cpid; nl]) ≫= fun _ =>
  ido "sleep" [AI 1] ≫= fun _ =>
  iprintf (cat ["parent about to send message"; nl]) ≫= fun _ =>
  let msg := snprintf 1024 message in
  let rv := strlen message in
  if rv <=? 0 then iperror "snprintf" ≫= fun _ => mret 1
  else
    rv ← isys "mq_send" [AI msgid; AB (bytes_of msg); AI 0];
    if rv <? 0 then iperror "mq_send" ≫= fun _ => mret 1
    else
      iprintf (cat ["parent delay (can lookup /dev/mqueue/ ...)"; nl]) ≫= fun _ =>
      ido "sleep" [AI 20] ≫= fun _ =>
      iwait ≫= fun _ =>
      mret 0.

Definition parent_main (argv0 : string) : iprog Z :=
  msg ← isys "malloc" [AI 1024];
  x ← (if msg =? 0 then iperror "msg" ≫= fun _ => mret (1, 0)
       else
         msgid ← isys "mq_open" [AS mqname; AI (Z.lor 2 O_CREAT)];
         if msgid <? 0 then iperror "mq_open" ≫= fun _ => mret (1, msgid)
         else
           iprintf (cat [argv0; ": created POSIX MQ under /dev/mqueue"; mqname; nl]) ≫= fun _ =>
           f ← ifork;
           rc ← match f with
                | FailedFork => iperror "fork" ≫= fun _ => mret 1
                | InChild => exec_child "posix_message_queue_child"
                | InParent cpid => parent msgid cpid
                end;
           mret (rc, msgid));
  iwhen (0 <? snd x) (ido "mq_close" [AI (snd x)]) ≫= fun _ =>
  mret (fst x).

(** The buffer from malloc with the message at its start. *)
Definition received (d : list Z) : mem := overlay d (uninit 1024).

Definition child_main : iprog Z :=
  msg ← isys "malloc" [AI 1024];
  x ← (if msg =? 0 then iperror "malloc" ≫= fun _ => mret (1, 0)
       else
         msgid ← isys "mq_open" [AS mqname; AI 0];
         if msgid <? 0 then iperror "mq_open" ≫= fun _ => mret (1, msgid)
         else
           me ← igetpid;
           iprintf (cat ["execve'd child pid is "; fmt_d me; "; sleep for 10s..."; nl]) ≫= fun _ =>
           ido "sleep" [AI 10] ≫= fun _ =>
           iprintf (cat ["execve'd child waiting for message"; nl]) ≫= fun _ =>
           rv ← icall "mq_receive" [AI msgid];
           if fst rv <? 0 then iperror "mq_receive" ≫= fun _ => mret (1, msgid)
           else
             match cstr_of (received (snd rv)) with
             | None => IUndef (UB_uninit "msg" (fst rv))
             | Some t =>
                 iprintf (cat ["execve'd child received message "; text_of t; nl]) ≫= fun _ =>
                 mret (0, msgid)
             end);
  ido "free" [AI msg] ≫= fun _ =>
  iwhen (0 <? snd x) (ido "mq_close" [AI (snd x)]) ≫= fun _ =>
  mret (fst x).

Definition programs (argv0 f : string) : option (iprog Z) :=
  if String.eqb f "posix_message_queue_parent" then Some (parent_main argv0)
  else if String.eqb f "posix_message_queue_child" then Some child_main
  else None.

Definition start : istate := IState [started "posix_message_queue_parent"] (Ipc [] [] 1).

(** What the child's mq_receive stored. *)
Definition received_data (s : istate) : list (list Z) :=
  match iprocs s !! 1%nat with
  | Some p => if String.eqb (i_prog p) "posix_message_queue_child" then
                map snd (List.filter (fun a => negb (bool_decide (snd a = []))) (i_hist p))
              else []
  | None => []
  end.

(** The first alternative of every call. *)
Definition final : istate :=
  Eval vm_compute in default start (run_choices (programs "") (fun _ => 0) (replicate 22 0%nat) start).

Definition correct (argv0 : string) (pid : nat -> Z) (s : istate) : Prop :=
  (ended 1 s = Some Undefined ->
     ("mq_send", 0) ∈ calls_of (programs argv0) pid 0 s /\ received_data s = [bytes_of message]) /\
  (received_data s = [bytes_of message] -> ended 1 s = None \/ ended 1 s = Some Undefined) /\
  (stuck (programs argv0) pid s ->
     ended 0 s <> None /\
     (~ all_done s -> ("mq_send", -1) ∈ calls_of (programs argv0) pid 0 s) /\
     (ended 0 s = Some (Exited 0) -> names (ikern s) = [(mqname, 0%nat)])).

#[export] Instance mq_correct_dec argv0 pid s : Decision (correct argv0 pid s).
Proof. unfold correct. apply _. Defined.

Lemma mq_explored argv0 pid : explore (programs argv0) pid (fun s => bool_decide (correct argv0 pid s)) 23 [start] = true.
Proof. vm_compute. reflexivity. Qed.

(** The message arrives, but the child does not survive printing it.  In every schedule
    and whichever calls fail, what the child receives is the text the parent sent, and
    only after it was sent; the buffer it then prints as a string has no NUL at the end
    of the message and unwritten bytes after it, so the behaviour is undefined from
    there on.  The parent always ends, within 22 steps of both; a child that waits for
    ever is there only if mq_send failed; the queue is never removed. *)
Theorem posix_mq_pair argv0 pid m s : nsteps (istep (programs argv0) pid) m start s ->
  (m <= 22)%nat /\
  (ended 1 s = Some Undefined ->
     ("mq_send", 0) ∈ calls_of (programs argv0) pid 0 s /\ received_data s = [bytes_of message]) /\
  (received_data s = [bytes_of message] -> ended 1 s = None \/ ended 1 s = Some Undefined) /\
  (stuck (programs argv0) pid s ->
     ended 0 s <> None /\
     (~ all_done s -> ("mq_send", -1) ∈ calls_of (programs argv0) pid 0 s) /\
     (ended 0 s = Some (Exited 0) -> names (ikern s) = [(mqname, 0%nat)])).
Proof.
  intros Hm. destruct (explore_all _ _ _ _ _ _ _ (mq_explored argv0 pid) Hm) as [Hn H]. split; [lia|exact H].
Qed.

Lemma posix_mq_pair_witness : let pid i := 100 + Z.of_nat i in
  nsteps (istep (programs "parent") pid) 22 start final /\ received_data final = [bytes_of message].
Proof.
  cbn zeta. assert (nsteps (istep (programs "parent") (fun i => 100 + Z.of_nat i)) 22 start final) as Hm.
  { apply (run_choices_nsteps (programs "parent") _ (replicate 22 0%nat)). vm_compute. reflexivity. }
  split; [exact Hm|].
  by apply (posix_mq_pair "parent" (fun i => 100 + Z.of_nat i) 22 final Hm).
Defined.

End Mq.
