(* ===== verification/IpcSysV.v ===== *)
(** The System V pairs of
    src/ipc/posix_ipc/more_demos/hildstrom_ipc_sysv_posix: a parent and a child that
    executes a program of its own meet at a message queue, a semaphore or a shared
    memory segment; and sysv_shared_memory_private.c, a parent and a child of the same
    program on a private segment.

    A System V identifier may be 0, which the programs take for "no object" when they
    clean up: [first] says whether the first identifier is 0. *)
From stdpp Require Import relations.
From S2P Require Import Prelude CMonad CLib IpcSys IpcPosix.
#[local] Open Scope Z_scope.

Definition kernel (first : bool) : ipc := Ipc [] [] (if first then 0 else 1).

(** [if (id > 0) ...ctl(id, IPC_RMID)] *)
Definition remove (id : Z) : iprog unit := iwhen (0 <? id) (ido "ipc_rmid" [AI id]).

(** ** sysv_message_queue_file_parent.c and sysv_message_queue_file_child.c *)

Module SvMq.

Definition path : string := "msgfile".

Definition parent (msgid cpid : Z) : iprog Z :=
  me ← igetpid;
  iprintf (cat ["parent pid is "; fmt_d me; " and child pid is "; fmt_d cpid; nl]) ≫= fun _ =>
  ido "sleep" [AI 1] ≫= fun _ =>
  iprintf (cat ["parent delay"; nl]) ≫= fun _ =>
  ido "sleep" [AI 2] ≫= fun _ =>
  iprintf (cat ["parent about to send message"; nl]) ≫= fun _ =>
  rv ← isys "msgsnd" [AI msgid; AI 1234; AB []];
  if rv <? 0 then iperror "msgsnd" ≫= fun _ => mret 1
  else iwait ≫= fun _ => mret 0.

Definition parent_main : iprog Z :=
  key ← isys "ftok" [AS path; AI 82];
  x ← (if key <? 0 then iperror "ftok" ≫= fun _ => mret (1, 0)
       else
         msgid ← isys "msgget" [AI key; AI (Z.lor IPC_CREAT 438)];
         if msgid <? 0 then iperror "msgget" ≫= fun _ => mret (1, msgid)
         else
           f ← ifork;
           rc ← match f with
                | FailedFork => iperror "fork" ≫= fun _ => mret 1
                | InChild => exec_child "sysv_message_queue_file_child"
                | InParent cpid => parent msgid cpid
                end;
           mret (rc, msgid));
  remove (snd x) ≫= fun _ =>
  mret (fst x).

Definition child_main : iprog Z :=
  key ← isys "ftok" [AS path; AI 82];
  if key <? 0 then iperror "ftok" ≫= fun _ => mret 1
  else
    msgid ← isys "msgget" [AI key; AI 438];
    if msgid <? 0 then iperror "msgget" ≫= fun _ => mret 1
    else
      me ← igetpid;
      iprintf (cat ["execve'd child pid is "; fmt_d me; nl]) ≫= fun _ =>
      iprintf (cat ["execve'd child waiting for message"; nl]) ≫= fun _ =>
      rv ← icall "msgrcv" [AI msgid; AI 0; AI 0; AI 0];
      if fst rv <? 0 then iperror "msgrcv" ≫= fun _ => mret 1
      else
        iprintf (cat ["execve'd child received message type "; fmt_d (hd 0 (snd rv)); nl]) ≫= fun _ =>
        mret 0.

Definition programs (f : string) : option (iprog Z) :=
  if String.eqb f "sysv_message_queue_file_parent" then Some parent_main
  else if String.eqb f "sysv_message_queue_file_child" then Some child_main
  else None.

Definition start (first : bool) : istate := IState [started "sysv_message_queue_file_parent"] (kernel first).

(** *** Every schedule *)

Definition received : ievent := IeOut stdout (cat ["execve'd child received message type "; fmt_d 1234; nl]).

Definition child_log (b : Z) : list ievent :=
  map (IeOut stdout)
    [cat ["child pid is "; fmt_d b; nl]; cat ["execve'd child pid is "; fmt_d b; nl];
     cat ["execve'd child waiting for message"; nl]; cat ["execve'd child received message type "; fmt_d 1234; nl]].

(** The first alternative of every call. *)
Definition final (first : bool) : istate :=
  default (start first) (run_choices programs (fun _ => 0) (replicate (if first then 20 else 21)%nat 0%nat) (start first)).

Definition correct (first : bool) (pid : nat -> Z) (s : istate) : Prop :=
  (received ∈ log_of programs pid 1 s -> ("msgsnd", 0) ∈ calls_of programs pid 0 s) /\
  (stuck programs pid s ->
     ended 0 s <> None /\ (first = false -> all_done s /\ names (ikern s) = []) /\
     (~ all_done s -> ("msgsnd", -1) ∈ calls_of programs pid 0 s)) /\
  (ended 0 s = Some (Exited 0) -> ended 1 s = Some (Exited 0) -> s = final first).

#[export] Instance svmq_correct_dec first pid s : Decision (correct first pid s).
Proof. unfold correct. apply _. Defined.

Lemma svmq_explored first pid :
  explore programs pid (fun s => bool_decide (correct first pid s)) 22 [start first] = true.
Proof. destruct first; vm_compute; reflexivity. Qed.

(** The message goes from the parent to the child.  In every schedule and whichever calls
    fail, the child says that it received the message only after the parent's msgsnd
    succeeded, and the parent ends; unless the identifier of the queue is 0 the queue is
    removed, which ends a child that still waits; with the identifier 0 nothing is
    removed, and a child waits for ever when msgsnd failed.  When both succeed the child
    prints the type that was sent. *)
Theorem sysv_mq_pair first pid m s : nsteps (istep programs pid) m (start first) s ->
  (m <= 21)%nat /\
  (received ∈ log_of programs pid 1 s -> ("msgsnd", 0) ∈ calls_of programs pid 0 s) /\
  (stuck programs pid s ->
     ended 0 s <> None /\ (first = false -> all_done s /\ names (ikern s) = []) /\
     (~ all_done s -> ("msgsnd", -1) ∈ calls_of programs pid 0 s)) /\
  (ended 0 s = Some (Exited 0) -> ended 1 s = Some (Exited 0) ->
     log_of programs pid 1 s = child_log (pid 1%nat)).
Proof.
  intros Hm. destruct (explore_all _ _ _ _ _ _ _ (svmq_explored first pid) Hm) as [Hn (H1 & H2 & H3)].
  split; [lia|]. split; [done|]. split; [done|]. intros E0 E1. rewrite (H3 E0 E1). by destruct first.
Qed.

Lemma sysv_mq_pair_witness : let pid i := 100 + Z.of_nat i in
  nsteps (istep programs pid) 21 (start false) (final false) /\ ended 0 (final false) = Some (Exited 0) /\
  (21 <= 21)%nat.
Proof.
  cbn zeta. assert (nsteps (istep programs (fun i => 100 + Z.of_nat i)) 21 (start false) (final false)) as Hm.
  { apply (run_choices_nsteps programs _ (replicate 21 0%nat)). vm_compute. reflexivity. }
  split; [exact Hm|]. split; [reflexivity|].
  by apply (sysv_mq_pair false (fun i => 100 + Z.of_nat i) 21 (final false) Hm).
Defined.

End SvMq.

(** ** sysv_semaphore_file_parent.c and sysv_semaphore_file_child.c *)

Module SvSem.

Definition path : string := "semfile".

Definition parent (semid cpid : Z) : iprog Z :=
  me ← igetpid;
  iprintf (cat ["parent pid is "; fmt_d me; " and child pid is "; fmt_d cpid; nl]) ≫= fun _ =>
  ido "sleep" [AI 1] ≫= fun _ =>
  iprintf (cat ["parent delay"; nl]) ≫= fun _ =>
  ido "sleep" [AI 2] ≫= fun _ =>
  iprintf (cat ["parent about to decrement semaphore back to zero"; nl]) ≫= fun _ =>
  rv ← isys "semop" [AI semid; AI (-1)];
  if rv <? 0 then iperror "semop" ≫= fun _ => mret 1
  else iwait ≫= fun _ => mret 0.

Definition parent_main : iprog Z :=
  key ← isys "ftok" [AS path; AI 82];
  x ← (if key <? 0 then iperror "ftok" ≫= fun _ => mret (1, 0)
       else
         semid ← isys "semget" [AI key; AI (Z.lor IPC_CREAT 438)];
         if semid <? 0 then iperror "semget" ≫= fun _ => mret (1, semid)
         else
           rv ← isys "semop" [AI semid; AI 1];
           if rv <? 0 then iperror "semop" ≫= fun _ => mret (1, semid)
           else
             f ← ifork;
             rc ← match f with
                  | FailedFork => iperror "fork" ≫= fun _ => mret 1
                  | InChild => exec_child "sysv_semaphore_file_child"
                  | InParent cpid => parent semid cpid
                  end;
             mret (rc, semid));
  remove (snd x) ≫= fun _ =>
  mret (fst x).

Definition child_main : iprog Z :=
  key ← isys "ftok" [AS path; AI 82];
  if key <? 0 then iperror "ftok" ≫= fun _ => mret 1
  else
    semid ← isys "semget" [AI key; AI 438];
    if semid <? 0 then iperror "semget" ≫= fun _ => mret 1
    else
      me ← igetpid;
      iprintf (cat ["execve'd child pid is "; fmt_d me; nl]) ≫= fun _ =>
      iprintf (cat ["execve'd child waiting for semaphore zero value"; nl]) ≫= fun _ =>
      rv ← isys "semop" [AI semid; AI 0];
      if rv <? 0 then iperror "semop" ≫= fun _ => mret 1
      else
        iprintf (cat ["execve'd child detected semaphore zero value"; nl]) ≫= fun _ =>
        mret 0.

Definition programs (f : string) : option (iprog Z) :=
  if String.eqb f "sysv_semaphore_file_parent" then Some parent_main
  else if String.eqb f "sysv_semaphore_file_child" then Some child_main
  else None.

Definition start (first : bool) : istate := IState [started "sysv_semaphore_file_parent"] (kernel first).

(** *** Every schedule *)

Definition detected : ievent := IeOut stdout (cat ["execve'd child detected semaphore zero value"; nl]).

Definition child_log (b : Z) : list ievent :=
  map (IeOut stdout)
    [cat ["child pid is "; fmt_d b; nl]; cat ["execve'd child pid is "; fmt_d b; nl];
     cat ["execve'd child waiting for semaphore zero value"; nl];
     cat ["execve'd child detected semaphore zero value"; nl]].

(** The first alternative of every call. *)
Definition final (first : bool) : istate :=
  default (start first) (run_choices programs (fun _ => 0) (replicate (if first then 21 else 22)%nat 0%nat) (start first)).

Definition correct (first : bool) (pid : nat -> Z) (s : istate) : Prop :=
  (detected ∈ log_of programs pid 1 s ->
     List.filter (fun c => bool_decide (c = ("semop", 0))) (calls_of programs pid 0 s) = [("semop", 0); ("semop", 0)]) /\
  (stuck programs pid s ->
     ended 0 s <> None /\ (first = false -> all_done s /\ names (ikern s) = []) /\
     (~ all_done s -> ("semop", -1) ∈ calls_of programs pid 0 s)) /\
  (ended 0 s = Some (Exited 0) -> ended 1 s = Some (Exited 0) -> s = final first).

#[export] Instance svsem_correct_dec first pid s : Decision (correct first pid s).
Proof. unfold correct. apply _. Defined.

Lemma svsem_explored first pid :
  explore programs pid (fun s => bool_decide (correct first pid s)) 23 [start first] = true.
Proof. destruct first; vm_compute; reflexivity. Qed.

(** The child sees the semaphore at zero only after the parent has raised and lowered it.
    In every schedule and whichever calls fail, the child says so only after both of the
    parent's operations succeeded, and the parent ends; unless the identifier is 0 the
    semaphore is removed, which ends a child that still waits. *)
Theorem sysv_sem_pair first pid m s : nsteps (istep programs pid) m (start first) s ->
  (m <= 22)%nat /\
  (detected ∈ log_of programs pid 1 s ->
     List.filter (fun c => bool_decide (c = ("semop", 0))) (calls_of programs pid 0 s) = [("semop", 0); ("semop", 0)]) /\
  (stuck programs pid s ->
     ended 0 s <> None /\ (first = false -> all_done s /\ names (ikern s) = []) /\
     (~ all_done s -> ("semop", -1) ∈ calls_of programs pid 0 s)) /\
  (ended 0 s = Some (Exited 0) -> ended 1 s = Some (Exited 0) ->
     log_of programs pid 1 s = child_log (pid 1%nat)).
Proof.
  intros Hm. destruct (explore_all _ _ _ _ _ _ _ (svsem_explored first pid) Hm) as [Hn (H1 & H2 & H3)].
  split; [lia|]. split; [done|]. split; [done|]. intros E0 E1. rewrite (H3 E0 E1). by destruct first.
Qed.

Lemma sysv_sem_pair_witness : let pid i := 100 + Z.of_nat i in
  nsteps (istep programs pid) 22 (start false) (final false) /\ ended 0 (final false) = Some (Exited 0) /\
  (22 <= 22)%nat.
Proof.
  cbn zeta. assert (nsteps (istep programs (fun i => 100 + Z.of_nat i)) 22 (start false) (final false)) as Hm.
  { apply (run_choices_nsteps programs _ (replicate 22 0%nat)). vm_compute. reflexivity. }
  split; [exact Hm|]. split; [reflexivity|].
  by apply (sysv_sem_pair false (fun i => 100 + Z.of_nat i) 22 (final false) Hm).
Defined.

End SvSem.

(** ** sysv_shared_memory_file_parent.c and sysv_shared_memory_file_child.c *)

Module SvShm.

Definition path : string := "shmfile".
Definition buffer_size : Z := 4096.
Definition message : string := "hello from execve'd child".

Definition cleanup (buffer shmid : Z) : iprog unit :=
  iwhen (ptr_pos buffer) (ido "shmdt" [AI buffer]) ≫= fun _ => remove shmid.

Definition parent (buffer cpid : Z) : iprog Z :=
  me ← igetpid;
  iprintf (cat ["parent pid is "; fmt_d me; " and child pid is "; fmt_d cpid; nl]) ≫= fun _ =>
  iwait ≫= fun _ =>
  t ← icall "loadstr" [AI buffer; AI 0];
  iprintf (cat ["parent read from shared memory buffer: "; text_of (snd t); nl]) ≫= fun _ =>
  mret 0.

(** [buffer < 0] is never true. *)
Definition parent_main : iprog Z :=
  key ← isys "ftok" [AS path; AI 82];
  x ← (if key <? 0 then iperror "ftok" ≫= fun _ => mret (1, 0, 0)
       else
         shmid ← isys "shmget" [AI key; AI buffer_size; AI (Z.lor IPC_CREAT 438)];
         if shmid <? 0 then iperror "shmget" ≫= fun _ => mret (1, shmid, 0)
         else
           buffer ← isys "shmat" [AI shmid];
           if ptr_neg buffer then iperror "shmat" ≫= fun _ => mret (1, shmid, buffer)
           else
             f ← ifork;
             rc ← match f with
                  | FailedFork => iperror "fork" ≫= fun _ => mret 1
                  | InChild => exec_child "sysv_shared_memory_file_child"
                  | InParent cpid => parent buffer cpid
                  end;
             mret (rc, shmid, buffer));
  let '(rc, shmid, buffer) := x in
  cleanup buffer shmid ≫= fun _ =>
  mret rc.

Definition child_main : iprog Z :=
  key ← isys "ftok" [AS path; AI 82];
  x ← (if key <? 0 then iperror "ftok" ≫= fun _ => mret (1, 0)
       else
         shmid ← isys "shmget" [AI key; AI buffer_size; AI 438];
         if shmid <? 0 then iperror "shmget" ≫= fun _ => mret (1, 0)
         else
           buffer ← isys "shmat" [AI shmid];
           if ptr_neg buffer then iperror "shmat" ≫= fun _ => mret (1, buffer)
           else
             me ← igetpid;
             iprintf (cat ["execve'd child pid is "; fmt_d me; nl]) ≫= fun _ =>
             ido "store" [AI buffer; AI 0; AB (bytes_of (snprintf buffer_size message) ++ [0])] ≫= fun _ =>
             let size := strlen message in
             if size <=? 0 then iperror "snprintf" ≫= fun _ => mret (1, buffer)
             else
               t ← icall "loadstr" [AI buffer; AI 0];
               iprintf (cat ["execve'd child wrote to shared memory buffer: "; text_of (snd t); nl]) ≫= fun _ =>
               mret (0, buffer));
  iwhen (ptr_pos (snd x)) (ido "shmdt" [AI (snd x)]) ≫= fun _ =>
  mret (fst x).

Definition programs (f : string) : option (iprog Z) :=
  if String.eqb f "sysv_shared_memory_file_parent" then Some parent_main
  else if String.eqb f "sysv_shared_memory_file_child" then Some child_main
  else None.

Definition start (first : bool) : istate := IState [started "sysv_shared_memory_file_parent"] (kernel first).

(** *** Every schedule *)

Definition read_line (t : string) : ievent :=
  IeOut stdout (cat ["parent read from shared memory buffer: "; t; nl]).

Definition parent_log (a b : Z) : list ievent :=
  map (IeOut stdout)
    [cat ["parent pid is "; fmt_d a; " and child pid is "; fmt_d b; nl];
     cat ["parent read from shared memory buffer: "; message; nl]].

(** The first alternative of every call. *)
Definition final (first : bool) : istate :=
  default (start first) (run_choices programs (fun _ => 0) (replicate (if first then 21 else 22)%nat 0%nat) (start first)).

Definition correct (first : bool) (pid : nat -> Z) (s : istate) : Prop :=
  (stuck programs pid s ->
     all_done s /\
     (ended 0 s = Some Killed <-> ("shmat", -1) ∈ calls_of programs pid 0 s /\ ("fork", 1) ∈ calls_of programs pid 0 s) /\
     (first = false -> ended 0 s <> Some Killed -> names (ikern s) = [])) /\
  (stuck programs pid s -> ended 0 s = Some (Exited 0) ->
     read_line (if decide (ended 1 s = Some (Exited 0)) then message else EmptyString) ∈ log_of programs pid 0 s) /\
  (ended 0 s = Some (Exited 0) -> ended 1 s = Some (Exited 0) -> s = final first).

#[export] Instance svshm_correct_dec first pid s : Decision (correct first pid s).
Proof. unfold correct. apply _. Defined.

Lemma svshm_explored first pid :
  explore programs pid (fun s => bool_decide (correct first pid s)) 23 [start first] = true.
Proof. destruct first; vm_compute; reflexivity. Qed.

(** What the child writes to the segment is what the parent reads.  In every schedule and
    whichever calls fail both processes end; a parent that returns 0 printed the child's
    message if the child succeeded and an empty string if not; it is killed exactly when
    it went on to fork after shmat had failed; the segment is removed unless the parent
    was killed or the identifier is 0. *)
Theorem sysv_shm_pair first pid m s : nsteps (istep programs pid) m (start first) s ->
  (m <= 22)%nat /\
  (stuck programs pid s ->
     all_done s /\
     (ended 0 s = Some Killed <-> ("shmat", -1) ∈ calls_of programs pid 0 s /\ ("fork", 1) ∈ calls_of programs pid 0 s) /\
     (first = false -> ended 0 s <> Some Killed -> names (ikern s) = [])) /\
  (stuck programs pid s -> ended 0 s = Some (Exited 0) ->
     read_line (if decide (ended 1 s = Some (Exited 0)) then message else EmptyString) ∈ log_of programs pid 0 s) /\
  (ended 0 s = Some (Exited 0) -> ended 1 s = Some (Exited 0) ->
     log_of programs pid 0 s = parent_log (pid 0%nat) (pid 1%nat)).
Proof.
  intros Hm. destruct (explore_all _ _ _ _ _ _ _ (svshm_explored first pid) Hm) as [Hn (H1 & H2 & H3)].
  split; [lia|]. split; [done|]. split; [done|]. intros E0 E1. rewrite (H3 E0 E1). by destruct first.
Qed.

Lemma sysv_shm_pair_witness : let pid i := 100 + Z.of_nat i in
  nsteps (istep programs pid) 22 (start false) (final false) /\ ended 0 (final false) = Some (Exited 0) /\
  (22 <= 22)%nat.
Proof.
  cbn zeta. assert (nsteps (istep programs (fun i => 100 + Z.of_nat i)) 22 (start false) (final false)) as Hm.
  { apply (run_choices_nsteps programs _ (replicate 22 0%nat)). vm_compute. reflexivity. }
  split; [exact Hm|]. split; [reflexivity|].
  by apply (sysv_shm_pair false (fun i => 100 + Z.of_nat i) 22 (final false) Hm).
Defined.

End SvShm.

(** ** sysv_shared_memory_private.c *)

Module SvPriv.

Definition buffer_size : Z := 4096.
Definition message : string := "hello from child".

Definition child (buffer : Z) : iprog Z :=
  me ← igetpid;
  iprintf (cat ["child pid is "; fmt_d me; nl]) ≫= fun _ =>
  ido "store" [AI buffer; AI 0; AB (bytes_of (snprintf buffer_size message) ++ [0])] ≫= fun _ =>
  let size := strlen message in
  if size <=? 0 then iperror "snprintf" ≫= fun _ => mret 1
  else
    t ← icall "loadstr" [AI buffer; AI 0];
    iprintf (cat ["child wrote to shared memory buffer: "; text_of (snd t); nl]) ≫= fun _ =>
    mret 0.

Definition main : iprog Z :=
  shmid ← isys "shmget_private" [AI buffer_size];
  x ← (if shmid <? 0 then iperror "shmget" ≫= fun _ => mret (1, 0)
       else
         buffer ← isys "shmat" [AI shmid];
         if ptr_neg buffer then iperror "shmat" ≫= fun _ => mret (1, buffer)
         else
           f ← ifork;
           rc ← match f with
                | FailedFork => iperror "fork" ≫= fun _ => mret 1
                | InChild => child buffer
                | InParent cpid => SvShm.parent buffer cpid
                end;
           mret (rc, buffer));
  SvShm.cleanup (snd x) shmid ≫= fun _ =>
  mret (fst x).

Definition programs (f : string) : option (iprog Z) :=
  if String.eqb f "sysv_shared_memory_private" then Some main else None.

Definition start (first : bool) : istate := IState [started "sysv_shared_memory_private"] (kernel first).

(** *** Every schedule *)

Definition parent_log (a b : Z) : list ievent :=
  map (IeOut stdout)
    [cat ["parent pid is "; fmt_d a; " and child pid is "; fmt_d b; nl];
     cat ["parent read from shared memory buffer: "; message; nl]].

(** The first alternative of every call. *)
Definition final (first : bool) : istate :=
  default (start first) (run_choices programs (fun _ => 0) (replicate (if first then 15 else 17)%nat 0%nat) (start first)).

Definition correct (first : bool) (pid : nat -> Z) (s : istate) : Prop :=
  (stuck programs pid s ->
     all_done s /\
     (ended 0 s = Some Killed <-> ("shmat", -1) ∈ calls_of programs pid 0 s /\ ("fork", 1) ∈ calls_of programs pid 0 s) /\
     (ended 1 s = Some Killed -> ended 0 s = Some Killed)) /\
  (stuck programs pid s -> ended 0 s = Some (Exited 0) ->
     SvShm.read_line (if decide (ended 1 s = Some (Exited 0)) then message else EmptyString) ∈ log_of programs pid 0 s) /\
  (ended 0 s = Some (Exited 0) -> ended 1 s = Some (Exited 0) -> s = final first).

#[export] Instance svpriv_correct_dec first pid s : Decision (correct first pid s).
Proof. unfold correct. apply _. Defined.

Lemma svpriv_explored first pid :
  explore programs pid (fun s => bool_decide (correct first pid s)) 18 [start first] = true.
Proof. destruct first; vm_compute; reflexivity. Qed.

(** The same for the private segment that parent and child inherit: the child removes it
    before the parent reads it, and the parent still reads the message, because its
    attachment keeps the segment.  Parent and child are killed together, when shmat had
    failed. *)
Theorem sysv_private_pair first pid m s : nsteps (istep programs pid) m (start first) s ->
  (m <= 17)%nat /\
  (stuck programs pid s ->
     all_done s /\
     (ended 0 s = Some Killed <-> ("shmat", -1) ∈ calls_of programs pid 0 s /\ ("fork", 1) ∈ calls_of programs pid 0 s) /\
     (ended 1 s = Some Killed -> ended 0 s = Some Killed)) /\
  (stuck programs pid s -> ended 0 s = Some (Exited 0) ->
     SvShm.read_line (if decide (ended 1 s = Some (Exited 0)) then message else EmptyString) ∈ log_of programs pid 0 s) /\
  (ended 0 s = Some (Exited 0) -> ended 1 s = Some (Exited 0) ->
     log_of programs pid 0 s = parent_log (pid 0%nat) (pid 1%nat)).
Proof.
  intros Hm. destruct (explore_all _ _ _ _ _ _ _ (svpriv_explored first pid) Hm) as [Hn (H1 & H2 & H3)].
  split; [lia|]. split; [done|]. split; [done|]. intros E0 E1. rewrite (H3 E0 E1). by destruct first.
Qed.

Lemma sysv_private_pair_witness : let pid i := 100 + Z.of_nat i in
  nsteps (istep programs pid) 17 (start false) (final false) /\ ended 0 (final false) = Some (Exited 0) /\
  (17 <= 17)%nat.
Proof.
  cbn zeta. assert (nsteps (istep programs (fun i => 100 + Z.of_nat i)) 17 (start false) (final false)) as Hm.
  { apply (run_choices_nsteps programs _ (replicate 17 0%nat)). vm_compute. reflexivity. }
  split; [exact Hm|]. split; [reflexivity|].
  by apply (sysv_private_pair false (fun i => 100 + Z.of_nat i) 17 (final false) Hm).
Defined.

End SvPriv.
