(* ===== verification/IpcMore.v ===== *)
(** Other programs that meet at IPC objects, on the machine of [IpcSys]:
    - [CsfSem] and [CsfShm]: opencsf_sem_posix_3.11.c and opencsf_shm_posix_3.10.c;
    - [WriterReader]: the writer and the reader of chatgpt4_posix_shmem_sem_example;
    - [NamedSem]: named_sem_demo.c, two processes that append to a file in turn;
    - [Fifo]: wr_fifo.c and rd_fifo.c;
    - [Msg1]: msg1_w.c and msg1_r.c, System V messages with types. *)
From stdpp Require Import relations.
From S2P Require Import Prelude CMonad CLib IpcSys.
#[local] Open Scope Z_scope.

Definition SEM_FAILED : Z := 0.
Definition MAP_FAILED : Z := -1.

(** The errno that a failed call left. *)
Definition errno_of (r : answer) : Z := hd 0 (snd r).

(** [sem_open(name, flags, mode, value)], and [sem_open(name, 0)] when it exists
    already; another failure is not noticed. *)
Definition open_sem (name : string) (flags value : Z) (complain : iprog unit) : iprog Z :=
  r ← icall "sem_open" [AS name; AI flags; AI value];
  if (fst r =? SEM_FAILED) && (errno_of r =? EEXIST) then
    sem ← isys "sem_open" [AS name; AI 0; AI 0];
    if sem =? SEM_FAILED then complain ≫= fun _ => iexit 1 else mret sem
  else mret (fst r).

(** ** opencsf_sem_posix_3.11.c *)

Module CsfSem.

Definition SEM_NAME : string := "/opencsf_sem".

Definition main : iprog Z :=
  sem ← open_sem SEM_NAME (Z.lor O_CREAT O_EXCL) 0 (ifprintf stderr (cat ["sem_open() failed"; nl]));
  f ← ifork;
  match f with
  | FailedFork => ido "abort" [AS "child_pid != -1"] ≫= fun _ => mret 0
  | InChild =>
      ido "sem_wait" [AI sem] ≫= fun _ =>
      iprintf (cat ["second"; nl]) ≫= fun _ =>
      ido "sem_close" [AI sem] ≫= fun _ =>
      iexit 0
  | InParent _ =>
      iprintf (cat ["first"; nl]) ≫= fun _ =>
      ido "sem_post" [AI sem] ≫= fun _ =>
      iwait ≫= fun _ =>
      iprintf (cat ["third"; nl]) ≫= fun _ =>
      ido "sem_close" [AI sem] ≫= fun _ =>
      ido "sem_unlink" [AS SEM_NAME] ≫= fun _ =>
      mret 0
  end.

Definition programs (f : string) : option (iprog Z) := if String.eqb f "opencsf_sem" then Some main else None.

Definition start : istate := IState [started "opencsf_sem"] (Ipc [] [] 1).

(** *** Every schedule *)

Definition first : ievent := IeOut stdout (cat ["first"; nl]).
Definition second : ievent := IeOut stdout (cat ["second"; nl]).
Definition third : ievent := IeOut stdout (cat ["third"; nl]).

Definition correct (pid : nat -> Z) (s : istate) : Prop :=
  (second ∈ log_of programs pid 1 s ->
     first ∈ log_of programs pid 0 s /\ ("sem_post", 0) ∈ calls_of programs pid 0 s \/
     ("sem_wait", -1) ∈ calls_of programs pid 1 s) /\
  (third ∈ log_of programs pid 0 s -> second ∈ log_of programs pid 1 s /\ ended 1 s = Some (Exited 0)) /\
  (stuck programs pid s ->
     (ended 0 s = Some (Exited 0) -> all_done s /\ names (ikern s) = []) /\
     (~ all_done s -> ("sem_post", -1) ∈ calls_of programs pid 0 s) /\
     (ended 0 s = Some Killed -> ("sem_open", 0) ∈ calls_of programs pid 0 s \/ ("fork", -1) ∈ calls_of programs pid 0 s)).

#[export] Instance csfsem_correct_dec pid s : Decision (correct pid s).
Proof. unfold correct. apply _. Defined.

Lemma csfsem_explored pid : explore programs pid (fun s => bool_decide (correct pid s)) 14 [start] = true.
Proof. vm_compute. reflexivity. Qed.

(** "first", "second" and "third" are printed in this order in every schedule, whichever
    calls fail but sem_wait: the child prints only after the parent printed and posted,
    or when its sem_wait failed, which the program does not notice; the parent prints its
    last line only after the child printed and ended.  A run blocks only when
    sem_post failed, and a failed sem_open other than for a name that exists, which the
    program does not notice, kills it. *)
Theorem csf_sem_order pid m s : nsteps (istep programs pid) m start s ->
  (m <= 13)%nat /\
  (second ∈ log_of programs pid 1 s ->
     first ∈ log_of programs pid 0 s /\ ("sem_post", 0) ∈ calls_of programs pid 0 s \/
     ("sem_wait", -1) ∈ calls_of programs pid 1 s) /\
  (third ∈ log_of programs pid 0 s -> second ∈ log_of programs pid 1 s /\ ended 1 s = Some (Exited 0)) /\
  (stuck programs pid s ->
     (ended 0 s = Some (Exited 0) -> all_done s /\ names (ikern s) = []) /\
     (~ all_done s -> ("sem_post", -1) ∈ calls_of programs pid 0 s) /\
     (ended 0 s = Some Killed -> ("sem_open", 0) ∈ calls_of programs pid 0 s \/ ("fork", -1) ∈ calls_of programs pid 0 s)).
Proof.
  intros Hm. destruct (explore_all _ _ _ _ _ _ _ (csfsem_explored pid) Hm) as [Hn H]. split; [lia|exact H].
Qed.

(** The first alternative of every call. *)
Definition final : istate :=
  Eval vm_compute in default start (run_choices programs (fun _ => 0) (replicate 13 0%nat) start).

Lemma csf_sem_order_witness : let pid i := 100 + Z.of_nat i in
  nsteps (istep programs pid) 13 start final /\ third ∈ log_of programs (fun i => 100 + Z.of_nat i) 0 final /\ (13 <= 13)%nat.
Proof.
  cbn zeta. assert (nsteps (istep programs (fun i => 100 + Z.of_nat i)) 13 start final) as Hm.
  { apply (run_choices_nsteps programs _ (replicate 13 0%nat)). vm_compute. reflexivity. }
  split; [exact Hm|]. split; [decide_true|].
  by apply (csf_sem_order (fun i => 100 + Z.of_nat i) 13 final Hm).
Defined.

(** With a semaphore of that name left at 1 by an earlier run the order is lost: the
    child prints before its parent. *)
Lemma csf_sem_stale pid : exists s,
  rtc (istep programs pid) (IState (iprocs start) (Ipc [OSem 1] [(SEM_NAME, 0%nat)] 1)) s /\
  second ∈ log_of programs pid 1 s /\ (first ∉ log_of programs pid 0 s).
Proof.
  destruct (run_choices programs pid [0; 0; 0; 1; 1]%nat (IState (iprocs start) (Ipc [OSem 1] [(SEM_NAME, 0%nat)] 1))) as [s|] eqn:E;
    [|by vm_compute in E].
  exists s. split; [eapply rtc_nsteps_2, run_choices_nsteps, E|]. vm_compute in E. injection E as <-.
  split; [decide_true|]. decide_true.
Qed.

End CsfSem.

(** ** opencsf_shm_posix_3.10.c *)

Module CsfShm.

Definition SHM_NAME : string := "/opencsf_shm".

(** sizeof(struct udata): three size_t, 128 chars, an int, padded to 8 bytes. *)
Definition sizeof_udata : Z := 160.
Definition off_lat : Z := 0.
Definition off_longt : Z := 8.
Definition off_alt : Z := 16.
Definition off_name : Z := 24.

(** A size_t in memory, the lowest byte first. *)
Fixpoint le_bytes (n : nat) (z : Z) : list Z :=
  match n with O => [] | S n' => z mod 256 :: le_bytes n' (z / 256) end.

Definition le_value (bs : list Z) : Z := foldr (fun b acc => b + 256 * acc) 0 bs.

Definition read_size_t (p off : Z) : iprog Z :=
  r ← icall "load" [AI p; AI off; AI 8]; mret (le_value (snd r)).

Definition print_udata (what : string) (p : Z) : iprog unit :=
  nm ← icall "loadstr" [AI p; AI off_name];
  lat ← read_size_t p off_lat;
  longt ← read_size_t p off_longt;
  alt ← read_size_t p off_alt;
  iprintf (cat [what; " location "; dquote; text_of (snd nm); dquote; ":("; fmt_d lat; ","; fmt_d longt; ","; fmt_d alt; ")"; nl]).

Definition before_text : string := "Location data before modification:".
Definition after_text : string := "Location data after modification :".

Definition open_shm : iprog Z :=
  r ← icall "shm_open" [AS SHM_NAME; AI (Z.lor (Z.lor O_CREAT O_EXCL) 2)];
  if (fst r =? -1) && (errno_of r =? EEXIST) then
    shmfd ← isys "shm_open" [AS SHM_NAME; AI 0];
    if shmfd =? -1 then iperror "shm_open() failed" ≫= fun _ => iexit 1 else mret shmfd
  else mret (fst r).

Definition child (p shmfd : Z) : iprog Z :=
  ido "store" [AI p; AI off_lat; AB (le_bytes 8 77)] ≫= fun _ =>
  ido "store" [AI p; AI off_longt; AB (le_bytes 8 13)] ≫= fun _ =>
  ido "store" [AI p; AI off_alt; AB (le_bytes 8 900)] ≫= fun _ =>
  ido "store" [AI p; AI off_name; AB (bytes_of "blore")] ≫= fun _ =>
  ido "munmap" [AI p] ≫= fun _ =>
  ido "close" [AI shmfd] ≫= fun _ =>
  iexit 0.

Definition main : iprog Z :=
  ido "shm_unlink" [AS SHM_NAME] ≫= fun _ =>
  shmfd ← open_shm;
  r ← isys "ftruncate" [AI shmfd; AI sizeof_udata];
  if r =? -1 then iperror "ftruncate failed" ≫= fun _ => ido "shm_unlink" [AS SHM_NAME] ≫= fun _ => iexit 1
  else
  p ← isys "mmap" [AI shmfd];
  if p =? MAP_FAILED then iperror "mmap failed" ≫= fun _ => ido "shm_unlink" [AS SHM_NAME] ≫= fun _ => iexit 1
  else
  print_udata before_text p ≫= fun _ =>
  f ← ifork;
  match f with
  | FailedFork => iperror "fork" ≫= fun _ => iexit 1
  | InChild => child p shmfd
  | InParent _ =>
      iwait ≫= fun _ =>
      print_udata after_text p ≫= fun _ =>
      ido "munmap" [AI p] ≫= fun _ =>
      ido "close" [AI shmfd] ≫= fun _ =>
      ido "shm_unlink" [AS SHM_NAME] ≫= fun _ =>
      mret 0
  end.

Definition programs (f : string) : option (iprog Z) := if String.eqb f "opencsf_shm" then Some main else None.

Definition start : istate := IState [started "opencsf_shm"] (Ipc [] [] 1).

(** *** Every schedule *)

Definition udata_line (what nm : string) (lat longt alt : Z) : ievent :=
  IeOut stdout (cat [what; " location "; dquote; nm; dquote; ":("; fmt_d lat; ","; fmt_d longt; ","; fmt_d alt; ")"; nl]).

Definition correct (pid : nat -> Z) (s : istate) : Prop :=
  (stuck programs pid s ->
     all_done s /\ ended 0 s <> Some Killed /\
     (names (ikern s) = [] <-> ~ ("fork", -1) ∈ calls_of programs pid 0 s)) /\
  (ended 0 s = Some (Exited 0) ->
     udata_line before_text EmptyString 0 0 0 ∈ log_of programs pid 0 s /\
     udata_line after_text "blore" 77 13 900 ∈ log_of programs pid 0 s).

#[export] Instance csfshm_correct_dec pid s : Decision (correct pid s).
Proof. unfold correct. apply _. Defined.

Lemma csfshm_explored pid : explore programs pid (fun s => bool_decide (correct pid s)) 28 [start] = true.
Proof. vm_compute. reflexivity. Qed.

(** What the child stores in the shared structure is what the parent prints after it:
    every run ends, without a fault; a parent that succeeds printed zeros before and the
    child's values afterwards; the object is removed unless fork failed. *)
Theorem csf_shm_shared pid m s : nsteps (istep programs pid) m start s ->
  (m <= 27)%nat /\
  (stuck programs pid s ->
     all_done s /\ ended 0 s <> Some Killed /\
     (names (ikern s) = [] <-> ~ ("fork", -1) ∈ calls_of programs pid 0 s)) /\
  (ended 0 s = Some (Exited 0) ->
     udata_line before_text EmptyString 0 0 0 ∈ log_of programs pid 0 s /\
     udata_line after_text "blore" 77 13 900 ∈ log_of programs pid 0 s).
Proof.
  intros Hm. destruct (explore_all _ _ _ _ _ _ _ (csfshm_explored pid) Hm) as [Hn H]. split; [lia|exact H].
Qed.

(** The first alternative of every call. *)
Definition final : istate :=
  Eval vm_compute in default start (run_choices programs (fun _ => 0) (replicate 27 0%nat) start).

Lemma csf_shm_shared_witness : let pid i := 100 + Z.of_nat i in
  nsteps (istep programs pid) 27 start final /\ ended 0 final = Some (Exited 0) /\ (27 <= 27)%nat.
Proof.
  cbn zeta. assert (nsteps (istep programs (fun i => 100 + Z.of_nat i)) 27 start final) as Hm.
  { apply (run_choices_nsteps programs _ (replicate 27 0%nat)). vm_compute. reflexivity. }
  split; [exact Hm|]. split; [reflexivity|].
  by apply (csf_shm_shared (fun i => 100 + Z.of_nat i) 27 final Hm).
Defined.

End CsfShm.

(** ** chatgpt4_posix_shmem_sem_example: writer.c and reader.c *)

Module WriterReader.

Definition SHM_NAME : string := "/my_shm".
Definition SEM_NAME : string := "/my_sem".
Definition SHM_SIZE : Z := 1024.
Definition message : string := "Hello from writer process!".

(** [!ptr] does not see MAP_FAILED. *)
Definition writer_main : iprog Z :=
  shm_fd ← isys "shm_open" [AS SHM_NAME; AI (Z.lor O_CREAT 2)];
  if shm_fd <? 0 then iperror "shm_open() failed" ≫= fun _ => iexit 1
  else
  r ← isys "ftruncate" [AI shm_fd; AI SHM_SIZE];
  if r <? 0 then iperror "ftruncate() failed" ≫= fun _ => ido "close" [AI shm_fd] ≫= fun _ => iexit 1
  else
  ptr ← isys "mmap" [AI shm_fd];
  if ptr =? 0 then iperror "mmap() failed" ≫= fun _ => ido "close" [AI shm_fd] ≫= fun _ => iexit 1
  else
  sem ← open_sem SEM_NAME O_CREAT 0 (iperror "sem_open() failed");
  ido "store" [AI ptr; AI 0; AB (bytes_of message ++ [0])] ≫= fun _ =>
  iprintf (cat ["Writer: Message written to shared memory."; nl]) ≫= fun _ =>
  ido "sem_post" [AI sem] ≫= fun _ =>
  ido "sem_close" [AI sem] ≫= fun _ =>
  ido "munmap" [AI ptr] ≫= fun _ =>
  ido "close" [AI shm_fd] ≫= fun _ =>
  mret 0.

Definition reader_main : iprog Z :=
  shm_fd ← isys "shm_open" [AS SHM_NAME; AI 0];
  if shm_fd <? 0 then iperror "shm_open() failed" ≫= fun _ => iexit 1
  else
  ptr ← isys "mmap" [AI shm_fd];
  if ptr =? 0 then iperror "mmap() failed" ≫= fun _ => ido "close" [AI shm_fd] ≫= fun _ => iexit 1
  else
  sem ← open_sem SEM_NAME (Z.lor O_CREAT O_EXCL) 0 (iperror "sem_open() failed");
  r ← icall "sem_wait" [AI sem];
  if fst r <? 0 then iperror "sem_wait() failed" ≫= fun _ => mret (- errno_of r)
  else
  t ← icall "loadstr" [AI ptr; AI 0];
  iprintf (cat ["Reader: Read message: "; text_of (snd t); nl]) ≫= fun _ =>
  ido "sem_close" [AI sem] ≫= fun _ =>
  ido "munmap" [AI ptr] ≫= fun _ =>
  ido "close" [AI shm_fd] ≫= fun _ =>
  mret 0.

Definition programs (f : string) : option (iprog Z) :=
  if String.eqb f "writer" then Some writer_main else if String.eqb f "reader" then Some reader_main else None.

Definition start : istate := IState [started "writer"; started "reader"] (Ipc [] [] 1).

(** *** Every schedule *)

Definition read_line (t : string) : ievent := IeOut stdout (cat ["Reader: Read message: "; t; nl]).

Definition correct (pid : nat -> Z) (s : istate) : Prop :=
  (Forall (fun e => e = read_line message \/ e ∈ map IePerror ["shm_open() failed"; "sem_open() failed"; "sem_wait() failed"]) (log_of programs pid 1 s)) /\
  (read_line message ∈ log_of programs pid 1 s -> ("sem_post", 0) ∈ calls_of programs pid 0 s) /\
  (stuck programs pid s ->
     ended 0 s <> None /\
     (~ all_done s -> ~ ("sem_post", 0) ∈ calls_of programs pid 0 s)) /\
  (ended 1 s = Some (Exited 0) -> read_line message ∈ log_of programs pid 1 s) /\
  (ended 1 s = Some Killed -> ("mmap", -1) ∈ calls_of programs pid 1 s \/ ("sem_open", 0) ∈ calls_of programs pid 1 s).

#[export] Instance writerreader_correct_dec pid s : Decision (correct pid s).
Proof. unfold correct. apply _. Defined.

Lemma writerreader_explored pid : explore programs pid (fun s => bool_decide (correct pid s)) 23 [start] = true.
Proof. vm_compute. reflexivity. Qed.

(** The reader prints the writer's message or an error, never anything else.  In every
    schedule of the two programs, started at the same time, and whichever calls fail: a
    message is printed only after the writer stored it and posted, a reader that succeeds
    has printed it, and it waits for ever only if the writer never posted.  It is killed
    only after a failure of mmap or sem_open that the program does not notice. *)
Theorem reader_gets_message pid m s : nsteps (istep programs pid) m start s ->
  (m <= 22)%nat /\
  (Forall (fun e => e = read_line message \/ e ∈ map IePerror ["shm_open() failed"; "sem_open() failed"; "sem_wait() failed"]) (log_of programs pid 1 s)) /\
  (read_line message ∈ log_of programs pid 1 s -> ("sem_post", 0) ∈ calls_of programs pid 0 s) /\
  (stuck programs pid s ->
     ended 0 s <> None /\
     (~ all_done s -> ~ ("sem_post", 0) ∈ calls_of programs pid 0 s)) /\
  (ended 1 s = Some (Exited 0) -> read_line message ∈ log_of programs pid 1 s) /\
  (ended 1 s = Some Killed -> ("mmap", -1) ∈ calls_of programs pid 1 s \/ ("sem_open", 0) ∈ calls_of programs pid 1 s).
Proof.
  intros Hm. destruct (explore_all _ _ _ _ _ _ _ (writerreader_explored pid) Hm) as [Hn H]. split; [lia|exact H].
Qed.

(** The first alternative of every call. *)
Definition final : istate :=
  Eval vm_compute in default start (run_choices programs (fun _ => 0) (replicate 22 0%nat) start).

Lemma reader_gets_message_witness : let pid i := 100 + Z.of_nat i in
  nsteps (istep programs pid) 22 start final /\ ended 1 final = Some (Exited 0) /\ (22 <= 22)%nat.
Proof.
  cbn zeta. assert (nsteps (istep programs (fun i => 100 + Z.of_nat i)) 22 start final) as Hm.
  { apply (run_choices_nsteps programs _ (replicate 22 0%nat)). vm_compute. reflexivity. }
  split; [exact Hm|]. split; [reflexivity|].
  by apply (reader_gets_message (fun i => 100 + Z.of_nat i) 22 final Hm).
Defined.

End WriterReader.

(** ** named_sem_demo.c *)

Module NamedSem.

Definition SEM_NAME : string := "/my_named_semaphore".

Definition write_to_file (msg : string) : iprog unit :=
  f ← isys "fopen" [AS "output.txt"; AS "a"];
  if f =? 0 then iperror "fopen" ≫= fun _ => iexit 1
  else
    ido "fprintf" [AI f; AS (cat [msg; nl])] ≫= fun _ =>
    ido "fclose" [AI f].

(** [n] turns of the loop. *)
Fixpoint turns (sem : Z) (msg : string) (n : nat) : iprog unit :=
  match n with
  | O => mret tt
  | S n' =>
      ido "sem_wait" [AI sem] ≫= fun _ =>
      write_to_file msg ≫= fun _ =>
      ido "sem_post" [AI sem] ≫= fun _ =>
      ido "usleep" [AI 100000] ≫= fun _ =>
      turns sem msg n'
  end.

Definition main : iprog Z :=
  ido "sem_unlink" [AS SEM_NAME] ≫= fun _ =>
  ido "unlink" [AS "output.txt"] ≫= fun _ =>
  sem ← isys "sem_open" [AS SEM_NAME; AI (Z.lor O_CREAT O_EXCL); AI 1];
  if sem =? SEM_FAILED then iperror "sem_open" ≫= fun _ => iexit 1
  else
  f ← ifork;
  match f with
  | FailedFork =>
      iperror "fork" ≫= fun _ =>
      ido "sem_close" [AI sem] ≫= fun _ =>
      ido "sem_unlink" [AS SEM_NAME] ≫= fun _ =>
      iexit 1
  | InChild =>
      turns sem "Child writing" 5 ≫= fun _ =>
      ido "sem_close" [AI sem] ≫= fun _ =>
      mret 0
  | InParent _ =>
      turns sem "Parent writing" 5 ≫= fun _ =>
      iwait ≫= fun _ =>
      ido "sem_close" [AI sem] ≫= fun _ =>
      ido "sem_unlink" [AS SEM_NAME] ≫= fun _ =>
      mret 0
  end.

Definition programs (f : string) : option (iprog Z) := if String.eqb f "named_sem_demo" then Some main else None.

Definition start : istate := IState [started "named_sem_demo"] (Ipc [] [] 1).

(** *** Every schedule *)

Definition count (c : string * Z) (l : list (string * Z)) : Z :=
  zlen (List.filter (fun x => bool_decide (x = c)) l).

(** How often process [i] has taken the semaphore and not given it back. *)
Definition holds (progs : string -> option (iprog Z)) (pid : nat -> Z) (i : nat) (s : istate) : Z :=
  count ("sem_wait", 0) (calls_of progs pid i s) - count ("sem_post", 0) (calls_of progs pid i s).

(** Between fopen and fclose. *)
Definition file_open (progs : string -> option (iprog Z)) (pid : nat -> Z) (i : nat) (s : istate) : Prop :=
  last (calls_of progs pid i s) = Some ("fopen", 1) \/ last (calls_of progs pid i s) = Some ("fprintf", 0).

#[export] Instance file_open_dec progs pid i s : Decision (file_open progs pid i s).
Proof. unfold file_open. apply _. Defined.

Definition correct (pid : nat -> Z) (s : istate) : Prop :=
  (~ (file_open programs pid 0 s /\ file_open programs pid 1 s)) /\
  (file_open programs pid 0 s -> holds programs pid 0 s = 1) /\ (file_open programs pid 1 s -> holds programs pid 1 s = 1) /\
  (stuck programs pid s -> ~ all_done s ->
     Exists (fun c => c = ("fopen", 0) \/ c = ("sem_post", -1)) (calls_of programs pid 0 s ++ calls_of programs pid 1 s)) /\
  (ended 0 s = Some (Exited 0) -> ended 1 s = Some (Exited 0) ->
     count ("fprintf", 0) (calls_of programs pid 0 s) = 5 /\ count ("fprintf", 0) (calls_of programs pid 1 s) = 5 /\
     names (ikern s) = []).

#[export] Instance namedsem_correct_dec pid s : Decision (correct pid s).
Proof. unfold correct. apply _. Defined.

(** The parent takes the semaphore and opens the file; the child's sem_wait is
    interrupted and it opens the file too. *)
Lemma named_sem_both pid : exists s, rtc (istep programs pid) start s /\ wait_failed s /\
  file_open programs pid 0 s /\ file_open programs pid 1 s.
Proof.
  destruct (run_choices programs pid [0; 0; 0; 0; 0; 0; 1; 1]%nat start) as [s|] eqn:E; [|by vm_compute in E].
  exists s. split; [eapply rtc_nsteps_2, run_choices_nsteps, E|]. vm_compute in E. injection E as <-.
  split_and!; decide_true.
Qed.

Lemma namedsem_explored pid : explore_calm programs pid (fun s => bool_decide (correct pid s)) 71 [start] = true.
Proof. vm_compute. reflexivity. Qed.

(** C28: Parent and child never have the file open at the same time as long as no sem_wait
    fails: whoever has the file open holds the semaphore.  In every schedule, whichever
    of the other calls fail, a run without a failing sem_wait ends within 70 steps; it
    blocks only when fopen failed, because the process then exits without posting, or
    sem_post itself failed; when both succeed each has written five lines and the
    semaphore is removed.  The condition is needed: the program does not look at what
    sem_wait returns, and after a failing one both have the file open. *)
Theorem named_sem_exclusive pid :
  (forall m s, nsteps (istep programs pid) m start s -> ~ wait_failed s ->
    (m <= 70)%nat /\
    (~ (file_open programs pid 0 s /\ file_open programs pid 1 s)) /\
    (file_open programs pid 0 s -> holds programs pid 0 s = 1) /\ (file_open programs pid 1 s -> holds programs pid 1 s = 1) /\
    (stuck programs pid s -> ~ all_done s ->
       Exists (fun c => c = ("fopen", 0) \/ c = ("sem_post", -1)) (calls_of programs pid 0 s ++ calls_of programs pid 1 s)) /\
    (ended 0 s = Some (Exited 0) -> ended 1 s = Some (Exited 0) ->
       count ("fprintf", 0) (calls_of programs pid 0 s) = 5 /\ count ("fprintf", 0) (calls_of programs pid 1 s) = 5 /\
       names (ikern s) = [])) /\
  (exists s, rtc (istep programs pid) start s /\ wait_failed s /\
     file_open programs pid 0 s /\ file_open programs pid 1 s).
Proof.
  split.
  - intros m s Hm Hw. destruct (explore_calm_all _ _ _ _ _ _ _ (namedsem_explored pid) Hm Hw) as [Hn H].
    split; [lia|exact H].
  - apply named_sem_both.
Qed.

(** The first alternative of every call. *)
Definition final : istate :=
  Eval vm_compute in default start (run_choices programs (fun _ => 0) (replicate 70 0%nat) start).

Lemma named_sem_exclusive_witness : let pid i := 100 + Z.of_nat i in
  nsteps (istep programs pid) 70 start final /\ ended 0 final = Some (Exited 0) /\
  count ("fprintf", 0) (calls_of programs (fun i => 100 + Z.of_nat i) 1 final) = 5.
Proof.
  cbn zeta. assert (nsteps (istep programs (fun i => 100 + Z.of_nat i)) 70 start final) as Hm.
  { apply (run_choices_nsteps programs _ (replicate 70 0%nat)). vm_compute. reflexivity. }
  split; [exact Hm|]. split; [reflexivity|].
  assert (Hw : ~ wait_failed final) by decide_true.
  by apply (proj1 (named_sem_exclusive (fun i => 100 + Z.of_nat i)) 70%nat final Hm Hw).
Defined.

End NamedSem.

(** ** wr_fifo.c and rd_fifo.c *)

Module Fifo.

Definition myfifo : string := "./myfifo".
Definition MAX_BYTES : Z := 1024.
Definition msg : string := "Hi FIFO, wassup".

(** [open(myfifo, ...)] *)
Definition open_fifo (writing : Z) : iprog Z :=
  h ← isys "fifo_come" [AS myfifo; AI writing];
  if h =? -1 then mret (-1) else isys "fifo_meet" [AI h; AI writing].

Definition writer_main : iprog Z :=
  ido "unlink" [AS myfifo] ≫= fun _ =>
  r ← isys "mkfifo" [AS myfifo];
  if r =? -1 then iperror "mkfifo failed" ≫= fun _ => iexit 1
  else
  fd ← open_fifo 1;
  if fd =? -1 then iperror "open failed" ≫= fun _ => ido "unlink" [AS myfifo] ≫= fun _ => iexit 1
  else
  ido "fifo_write" [AI fd; AB (bytes_of msg)] ≫= fun _ =>
  ido "fifo_close_w" [AI fd] ≫= fun _ =>
  mret 0.

Definition reader_main (argv0 : string) : iprog Z :=
  fd ← open_fifo 0;
  if fd =? -1 then iperror "open failed" ≫= fun _ => iexit 1
  else
  r ← icall "fifo_read" [AI fd; AI MAX_BYTES];
  if fst r =? -1 then iperror "read failed" ≫= fun _ => iexit 1
  else
  ido "close" [AI fd] ≫= fun _ =>
  match cstr_of (overlay (snd r) (uninit MAX_BYTES)) with
  | None => IUndef (UB_uninit "buf" (fst r))
  | Some t => iprintf (cat [argv0; ": Received data:"; nl; text_of t; nl]) ≫= fun _ => mret 0
  end.

Definition programs (argv0 f : string) : option (iprog Z) :=
  if String.eqb f "wr_fifo" then Some writer_main else if String.eqb f "rd_fifo" then Some (reader_main argv0) else None.

Definition start : istate := IState [started "wr_fifo"; started "rd_fifo"] (Ipc [] [] 1).

(** *** Every schedule *)

(** What the reader's read stored. *)
Definition received (s : istate) : list (list Z) :=
  match iprocs s !! 1%nat with
  | Some p => List.filter (fun d => 1 <? zlen d) (map snd (i_hist p))
  | None => []
  end.

Definition correct (argv0 : string) (pid : nat -> Z) (s : istate) : Prop :=
  (received s = [] \/ received s = [bytes_of msg]) /\
  ended 1 s <> Some (Exited 0) /\
  (ended 1 s = Some Undefined <-> ended 1 s <> None /\ ("fifo_meet", 1) ∈ calls_of (programs argv0) pid 1 s) /\
  (stuck (programs argv0) pid s -> ended 1 s = None -> ("fifo_come", -1) ∈ calls_of (programs argv0) pid 0 s).

#[export] Instance fifo_correct_dec (argv0 : string) pid s : Decision (correct argv0 pid s).
Proof. unfold correct. apply _. Defined.

Lemma fifo_explored (argv0 : string) pid : explore (programs argv0) pid (fun s => bool_decide (correct argv0 pid s)) 13 [start] = true.
Proof. vm_compute. reflexivity. Qed.

(** The bytes that come out of the fifo are those that went in, but rd_fifo.c never prints
    them in a defined way: once it has opened the fifo it ends by printing a buffer that
    has no NUL after the data.  In every schedule and whichever calls fail; the reader
    waits for ever only if the writer could not open the fifo. *)
Theorem fifo_pair (argv0 : string) pid m s : nsteps (istep (programs argv0) pid) m start s ->
  (m <= 12)%nat /\
  (received s = [] \/ received s = [bytes_of msg]) /\
  ended 1 s <> Some (Exited 0) /\
  (ended 1 s = Some Undefined <-> ended 1 s <> None /\ ("fifo_meet", 1) ∈ calls_of (programs argv0) pid 1 s) /\
  (stuck (programs argv0) pid s -> ended 1 s = None -> ("fifo_come", -1) ∈ calls_of (programs argv0) pid 0 s).
Proof.
  intros Hm. destruct (explore_all _ _ _ _ _ _ _ (fifo_explored argv0 pid) Hm) as [Hn H]. split; [lia|exact H].
Qed.

(** The first alternative of every call. *)
Definition final : istate :=
  Eval vm_compute in default start (run_choices (programs "rd_fifo") (fun _ => 0) (replicate 12 0%nat) start).

Lemma fifo_pair_witness : let pid i := 100 + Z.of_nat i in
  nsteps (istep (programs "rd_fifo") pid) 12 start final /\ received final = [bytes_of msg] /\ (12 <= 12)%nat.
Proof.
  cbn zeta. assert (nsteps (istep (programs "rd_fifo") (fun i => 100 + Z.of_nat i)) 12 start final) as Hm.
  { apply (run_choices_nsteps (programs "rd_fifo") _ (replicate 12 0%nat)). vm_compute. reflexivity. }
  split; [exact Hm|]. split; [reflexivity|].
  by apply (fifo_pair "rd_fifo" (fun i => 100 + Z.of_nat i) 12 final Hm).
Defined.

(** A fifo left by an earlier run: the reader opens it before the writer replaces it, and
    both wait for ever. *)
Lemma fifo_stale argv0 pid : exists s,
  rtc (istep (programs argv0) pid) (IState (iprocs start) (Ipc [OFifo false false false []] [(myfifo, 0%nat)] 1)) s /\
  stuck (programs argv0) pid s /\ ended 0 s = None /\ ended 1 s = None.
Proof.
  destruct (run_choices (programs argv0) pid [1; 0; 0; 0]%nat
    (IState (iprocs start) (Ipc [OFifo false false false []] [(myfifo, 0%nat)] 1))) as [s|] eqn:E; [|by vm_compute in E].
  exists s. split; [eapply rtc_nsteps_2, run_choices_nsteps, E|]. vm_compute in E. by injection E as <-.
Qed.

End Fifo.

(** ** msg1_w.c and msg1_r.c *)

Module Msg1.

Definition KEY_VAL : Z := 154326.
Definition MSGSZ_MAX : Z := 180.

Section Code.
Context (argv0 : string).

Definition get_queue : iprog Z :=
  r ← icall "msgget" [AI KEY_VAL; AI (Z.lor (Z.lor IPC_CREAT IPC_EXCL) 384)];
  if fst r =? -1 then
    if errno_of r =? EEXIST then
      iprintf (cat ["MQ exists, try to fetch it..."; nl]) ≫= fun _ =>
      id ← isys "msgget" [AI KEY_VAL; AI 0];
      if id =? -1 then iperror "msgget failure" ≫= fun _ => iexit 1 else mret id
    else iperror "msgget failure" ≫= fun _ => iexit 1
  else mret (fst r).

(** mtext of a message: at most MSGSZ_MAX bytes, up to the NUL that strncpy leaves. *)
Definition send (id pid type : Z) (text : string) : iprog unit :=
  n ← isys "msgsnd" [AI id; AI type; AB (ztake MSGSZ_MAX (bytes_of text))];
  if n =? -1 then iperror "msgsnd" ≫= fun _ => iexit 1
  else iprintf (cat [argv0; " ["; fmt_d pid; "] : type "; fmt_d type; " msg sent"; nl]).

Definition text2 : string := "Message of type 2".
Definition text5 : string := "Message of type 5!".

Definition writer_main : iprog Z :=
  pid ← igetpid;
  id ← get_queue;
  iprintf (cat [argv0; " ["; fmt_d pid; "] : MQ id="; fmt_d id; nl]) ≫= fun _ =>
  send id pid 2 text2 ≫= fun _ =>
  send id pid 5 text5 ≫= fun _ =>
  iexit 0.

(** [fuel] bounds the number of interruptions. *)
Fixpoint msgrcv_r (fuel : nat) (msqid msgsz msgtyp msgflg : Z) : iprog answer :=
  match fuel with
  | O => IUndef (UB_overflow "fuel")
  | S fuel' =>
      r ← icall "msgrcv" [AI msqid; AI msgsz; AI msgtyp; AI msgflg];
      if (fst r =? -1) && (errno_of r =? EINTR) then msgrcv_r fuel' msqid msgsz msgtyp msgflg else mret r
  end.

(** "Type %ld: Msg: %.*s" of a message: its type and at most [n] bytes up to a NUL. *)
Definition show (r : answer) : string :=
  let txt := default [] (cstr_of (init (ztake (fst r) (tl (snd r))) ++ [Some 0])) in
  cat ["Type "; fmt_d (hd 0 (snd r)); ": Msg: "; dquote; text_of txt; dquote; nl].

Definition receive (fuel : nat) (id size type flags : Z) : iprog answer :=
  r ← msgrcv_r fuel id size type flags;
  if fst r =? -1 then iperror "msgrcv" ≫= fun _ => iexit 1 else mret r.

Definition reader_main (fuel : nat) : iprog Z :=
  pid ← igetpid;
  id ← isys "msgget" [AI KEY_VAL; AI 0];
  if id =? -1 then iperror "msgget" ≫= fun _ => iexit 1
  else
  let me := cat [argv0; " ["; fmt_d pid; "]"] in
  iprintf (cat [me; ": id="; fmt_d id; nl]) ≫= fun _ =>
  r ← receive fuel id MSGSZ_MAX 0 0;
  iprintf (cat [me; ": Type 0 msg read of "; fmt_d (fst r); " bytes; "; show r]) ≫= fun _ =>
  r ← receive fuel id MSGSZ_MAX 5 0;
  iprintf (cat [me; ": Type 5 msg read of "; fmt_d (fst r); " bytes; "; show r]) ≫= fun _ =>
  iprintf (cat [me; ": Read Type 2 msg for 10 bytes"; nl]) ≫= fun _ =>
  r ← receive fuel id 10 2 MSG_NOERROR;
  iprintf (cat [me; ": Type 2 msg read for 10 bytes; "; fmt_d (fst r); " bytes actually read; "; show r]) ≫= fun _ =>
  iexit 0.

Definition programs (fuel : nat) (f : string) : option (iprog Z) :=
  if String.eqb f "msg1_w" then Some writer_main else if String.eqb f "msg1_r" then Some (reader_main fuel) else None.

End Code.

(** The messages of one run of the writer. *)
Definition sent : list (Z * list Z) := [(2, bytes_of text2); (5, bytes_of text5)].

(** A reader and a writer, on a queue left by earlier runs. *)
Definition start (q : option (list (Z * list Z))) : istate :=
  IState [started "msg1_r"; started "msg1_w"]
    match q with
    | Some q => Ipc [OMq q] [(key_name KEY_VAL, 0%nat)] 0
    | None => Ipc [] [] 0
    end.

(** *** Every schedule *)

(** What the reader's msgrcv stored: a type and a text. *)
Definition received (s : istate) : list (list Z) :=
  match iprocs s !! 0%nat with
  | Some p => List.filter (fun d => 1 <? zlen d) (map snd (i_hist p))
  | None => []
  end.

Definition expected : list (list Z) := [2 :: bytes_of text2; 5 :: bytes_of text5; 2 :: ztake 10 (bytes_of text2)].

Definition alone_correct (argv0 : string) (fuel : nat) (pid : nat -> Z) (s : istate) : Prop :=
  received s `prefix_of` take 2 expected /\ ended 0 s <> Some (Exited 0) /\
  (stuck (programs argv0 (S fuel)) pid s -> ended 1 s = Some (Exited 0) -> ended 0 s = None ->
     received s = take 2 expected /\ objs (ikern s) = [OMq []]).

#[export] Instance alone_dec argv0 fuel pid s : Decision (alone_correct argv0 fuel pid s).
Proof. unfold alone_correct. apply _. Defined.

Lemma alone_explored argv0 fuel pid :
  explore (programs argv0 (S fuel)) pid (fun s => bool_decide (alone_correct argv0 fuel pid s)) 15 [start None] = true.
Proof. vm_compute. reflexivity. Qed.

(** After one run of msg1_w.c the reader takes both messages, unchanged and in the order
    type 2, type 5, and then waits for ever for a second message of type 2: it never
    ends with success. *)
Theorem msg1_one_writer argv0 fuel pid m s : nsteps (istep (programs argv0 (S fuel)) pid) m (start None) s ->
  (m <= 14)%nat /\
  received s `prefix_of` take 2 expected /\ ended 0 s <> Some (Exited 0) /\
  (stuck (programs argv0 (S fuel)) pid s -> ended 1 s = Some (Exited 0) -> ended 0 s = None ->
     received s = take 2 expected /\ objs (ikern s) = [OMq []]).
Proof.
  intros Hm. destruct (explore_all _ _ _ _ _ _ _ (alone_explored argv0 fuel pid) Hm) as [Hn H]. split; [lia|exact H].
Qed.

Definition again_correct (argv0 : string) (fuel : nat) (pid : nat -> Z) (s : istate) : Prop :=
  received s `prefix_of` expected /\
  (ended 0 s = Some (Exited 0) -> received s = expected) /\
  (stuck (programs argv0 (S fuel)) pid s -> ended 1 s = Some (Exited 0) ->
     ended 0 s = Some (Exited 0) /\ objs (ikern s) = [OMq [(5, bytes_of text5)]] \/ ended 0 s = Some (Exited 1)).

#[export] Instance again_dec argv0 fuel pid s : Decision (again_correct argv0 fuel pid s).
Proof. unfold again_correct. apply _. Defined.

Lemma again_explored argv0 fuel pid :
  explore (programs argv0 (S fuel)) pid (fun s => bool_decide (again_correct argv0 fuel pid s)) 20 [start (Some sent)] = true.
Proof. vm_compute. reflexivity. Qed.

(** Messages by type.  On a queue that an earlier run of msg1_w.c filled, with the writer
    running again at the same time, and in every schedule whichever calls fail: the
    reader receives the first message of all, then the first of type 5, then the first
    ten bytes of the next one of type 2, unchanged, and nothing else; once the writer has
    sent its messages the reader ends, with success unless it could not open the
    queue, and what is left on the queue is the other message of type 5. *)
Theorem msg1_by_type argv0 fuel pid m s : nsteps (istep (programs argv0 (S fuel)) pid) m (start (Some sent)) s ->
  (m <= 19)%nat /\
  received s `prefix_of` expected /\
  (ended 0 s = Some (Exited 0) -> received s = expected) /\
  (stuck (programs argv0 (S fuel)) pid s -> ended 1 s = Some (Exited 0) ->
     ended 0 s = Some (Exited 0) /\ objs (ikern s) = [OMq [(5, bytes_of text5)]] \/ ended 0 s = Some (Exited 1)).
Proof.
  intros Hm. destruct (explore_all _ _ _ _ _ _ _ (again_explored argv0 fuel pid) Hm) as [Hn H]. split; [lia|exact H].
Qed.

(** The first alternative of every call. *)
Definition final : istate :=
  Eval vm_compute in
    default (start None) (run_choices (programs "msg1" 1) (fun _ => 0) (replicate 19 0%nat) (start (Some sent))).

Lemma msg1_by_type_witness : let pid i := 100 + Z.of_nat i in
  nsteps (istep (programs "msg1" 1) pid) 19 (start (Some sent)) final /\ ended 0 final = Some (Exited 0) /\
  received final = expected.
Proof.
  cbn zeta. assert (nsteps (istep (programs "msg1" 1) (fun i => 100 + Z.of_nat i)) 19 (start (Some sent)) final) as Hm.
  { apply (run_choices_nsteps (programs "msg1" 1) _ (replicate 19 0%nat)). vm_compute. reflexivity. }
  split; [exact Hm|]. split; [reflexivity|].
  by apply (msg1_by_type "msg1" 0 (fun i => 100 + Z.of_nat i) 19 final Hm).
Defined.

End Msg1.
