(* ===== verification/Segv.v ===== *)
(** src/signalling/handle_segfault: handle_segv.c and handle_segv_altstack.c make an access
    to a bad address and report the SIGSEGV that it raises.  The fault is synchronous: the
    access is a call, and when the kernel answers that it faulted, with the contents of
    the siginfo, the handler runs at once.  The text of psiginfo and the addresses of
    main and of a local variable are parameters. *)
From S2P Require Import Prelude CMonad CLib.

Definition SIGSEGV : Z := 11.
Definition rubbish_uaddr : Z := 5246816.
Definition rubbish_kaddr : Z := 18446474173670752256.

Record siginfo := Siginfo { si_errno : Z; si_code : Z; si_addr : Z }.

Definition info_of (d : list Z) : siginfo := Siginfo (nth 0 d 0) (nth 1 d 0) (nth 2 d 0).

(** [%016lx] *)
Definition ADDR_FMT (a : Z) : string :=
  let ds := hex_digits 16 (wrapu 64 a) in
  cat [rep (16 - length ds) 48; text_of ds].

(** Both programs name the same causes, but for the last two. *)
Definition origin (code : Z) : option string :=
  if code =? 0 then Some "user"
  else if code =? 128 then Some "kernel"
  else if code =? -1 then Some "queue"
  else if code =? -2 then Some "timer"
  else if code =? -3 then Some "mesgq"
  else if code =? -4 then Some "async io"
  else if code =? -5 then Some "sigio"
  else if code =? -6 then Some "t[g]kill"
  else if code =? 1 then Some "SEGV_MAPERR: address not mapped to object"
  else if code =? 2 then Some "SEGV_ACCERR: invalid permissions for mapped object"
  else None.

Definition first_char (s : string) : Z := to_char (hd 0 (bytes_of s)).

(** [tolower(arg[0]) == ch], and [tolower(arg[0] == ch)], which is another thing. *)
Definition letter (arg : string) (ch : Z) : bool := tolower (first_char arg) =? ch.
Definition letter2 (arg : string) (ch : Z) : bool := negb (tolower (if first_char arg =? ch then 1 else 0) =? 0).

Section Code.
Context {K : Type} {HK : Kernel K}.
Context (main_addr : Z).

(** The four accesses of main; [deref] is the access to a word. *)
Definition attempt (deref : string -> Z -> C K Z) (usage : C K unit) (argv : list string) : C K unit :=
  let a := arg_n argv 1 in
  let b := arg_n argv 2 in
  if letter a 117 && letter2 b 114 then
    printf (cat ["Attempting to read contents of arbitrary usermode va uptr = 0x"; ADDR_FMT rubbish_uaddr; ":"; nl]);;
    v ← deref "load" rubbish_uaddr;
    printf (cat ["*uptr = 0x"; ADDR_FMT v; nl])
  else if letter a 117 && letter2 b 119 then
    printf (cat ["Attempting to write into arbitrary usermode va uptr (&main actually) = 0x"; ADDR_FMT main_addr; ":"; nl]);;
    deref "store 40" main_addr;;
    mret tt
  else if letter a 107 && letter2 b 114 then
    printf (cat ["Attempting to read contents of arbitrary kernel va kptr = 0x"; ADDR_FMT rubbish_kaddr; ":"; nl]);;
    v ← deref "load" rubbish_kaddr;
    printf (cat ["*kptr = 0x"; ADDR_FMT v; nl])
  else if letter a 107 && letter2 b 119 then
    printf (cat ["Attempting to write into arbitrary kernel va kptr = 0x"; ADDR_FMT rubbish_kaddr; ":"; nl]);;
    deref "store 98" rubbish_kaddr;;
    mret tt
  else usage.

End Code.

(** ** handle_segv.c *)

Module Plain.

Section Code.
Context {K : Type} {HK : Kernel K}.
Context (main_addr : Z).

Definition cause (code : Z) : string := default "-none-" (origin code).

(** [c] is the static counter. *)
Definition myfault {A} (c signum : Z) (si : siginfo) : C K A :=
  printf (cat ["*** myfault: ["; fmt_d (c + 1); "] received signal "; fmt_d signum; ". errno="; fmt_d (si_errno si); nl;
               " Cause/Origin: (si_code="; fmt_d (si_code si); "): "]);;
  printf (cat [cause (si_code si); nl]);;
  printf (cat [" Faulting addr=0x"; ADDR_FMT (si_addr si); nl]);;
  exit 1.

Definition usage_text (nm : string) : string :=
  cat ["Usage: "; nm; " u|k r|w"; nl; "u => user mode"; nl; "k => kernel mode"; nl; " r => read attempt"; nl; " w => write attempt"; nl].

Definition usage (nm : string) : C K unit := fprintf stderr (usage_text nm).

(** An access; it faults at most once, because the handler does not return. *)
Definition deref (op : string) (addr : Z) : C K Z :=
  r ← syscall (Csys op [AI addr]);
  if ret r =? -1 then myfault 0 SIGSEGV (info_of (out r)) else mret (hd 0 (out r)).

(** SA_RESTART | SA_SIGINFO, empty mask. *)
Definition main (argv : list string) : C K unit :=
  (if negb (argc argv =? 3) then usage (arg_n argv 0);; exit 1 else mret tt);;
  r ← sys "sigaction" [AI SIGSEGV; AS "myfault"; AI 268435460; AI 0];
  (if r =? -1 then perror "sigaction";; exit 1 else mret tt);;
  attempt main_addr deref (usage (arg_n argv 0)) argv;;
  exit 0.

End Code.

End Plain.

(** ** handle_segv_altstack.c *)

Module AltStack.

Section Code.
Context {K : Type} {HK : Kernel K}.
Context (main_addr act_addr : Z) (psiginfo_text : siginfo -> string).

Definition rule : string := "------------------------------------------------------------".

Definition cause (code : Z) : string :=
  if code =? 3 then "SEGV_BNDERR: failed address bound checks"
  else if code =? 4 then "SEGV_PKUERR: access denied by memory-protection keys"
  else default "-none-" (origin code).

Definition FATAL {A} (msg : string) : C K A := fprintf stderr (cat [msg; nl]);; exit 1.

(** The signal that is raised stays pending while the handler runs. *)
Definition myfault (signum : Z) (si : siginfo) : C K unit :=
  fprintf stderr (cat ["myfault():"; nl; "------------------- FATAL signal ---------------------------"; nl]);;
  fprintf stderr (cat [" myfault: received signal "; fmt_d signum; ". errno="; fmt_d (si_errno si); nl;
                       " Cause/Origin: (si_code="; fmt_d (si_code si); "): "]);;
  fprintf stderr (cat [cause (si_code si); nl]);;
  fprintf stderr (cat [" Faulting instr or address = 0x"; ADDR_FMT (si_addr si); nl]);;
  fprintf stderr (cat [rule; nl]);;
  fprintf stderr (psiginfo_text si);;
  fprintf stderr (cat [rule; nl]);;
  r ← sys "signal" [AI SIGSEGV; AS "SIG_DFL"];
  (if r =? -1 then FATAL "signal -reverting SIGSEGV to default- failed" else mret tt);;
  r ← sys "raise" [AI SIGSEGV];
  if negb (r =? 0) then FATAL "raise SIGSEGV failed" else mret tt.

(** After the handler the pending signal is delivered, with its default action. *)
Definition deref (op : string) (addr : Z) : C K Z :=
  r ← syscall (Csys op [AI addr]);
  if ret r =? -1 then myfault SIGSEGV (info_of (out r));; halt_with (HKilled SIGSEGV) else mret (hd 0 (out r)).

Definition setup_altsigstack (stack_sz : Z) : C K Z :=
  printf (cat ["Alt signal stack size = "; fmt_d stack_sz; " bytes"; nl]);;
  p ← syscall (Cmalloc stack_sz);
  if ret p =? 0 then
    printf (cat ["malloc("; fmt_d stack_sz; ") for alt sig stack failed"; nl]);; mret (- ENOMEM)
  else
    r ← sys "sigaltstack" [AI (ret p); AI stack_sz];
    if r =? -1 then
      printf (cat ["sigaltstack for size "; fmt_d stack_sz; " failed!"; nl]);;
      e ← get_errno;
      mret (- e)
    else
      printf (cat ["Alt signal stack uva (user virt addr) = "; fmt_p (ret p); nl]);;
      mret 0.

Definition usage_text (nm : string) : string :=
  cat ["Usage: "; nm; " u|k r|w"; nl; "u => in user VAS"; nl; "k => in kernel VAS"; nl; " r => read attempt"; nl; " w => write attempt"; nl].

Definition usage (nm : string) : C K unit := fprintf stderr (usage_text nm).

(** SA_RESTART | SA_SIGINFO | SA_ONSTACK, full mask. *)
Definition main (argv : list string) : C K unit :=
  (if negb (argc argv =? 3) then usage (arg_n argv 0);; exit 1 else mret tt);;
  printf (cat ["Regular stack uva eg (user virt addr) = "; fmt_p act_addr; nl]);;
  s ← setup_altsigstack (10 * 1024 * 1024);
  (if s <? 0 then fprintf stderr (cat [arg_n argv 0; ": setting up alt sig stack failed"; nl]);; exit 1 else mret tt);;
  r ← sys "sigaction" [AI SIGSEGV; AS "myfault"; AI 402653188; AI (2 ^ 64 - 1)];
  (if r =? -1 then perror "sigaction";; exit 1 else mret tt);;
  attempt main_addr deref (usage (arg_n argv 0)) argv;;
  exit 0.

End Code.

End AltStack.

(** ** What is asked for *)

(** The access that the arguments select: its name, the address, the line that announces
    it and, for a read, what comes before the value. *)
Definition selected (main_addr : Z) (argv : list string) : option (string * Z * string * option string) :=
  let user := (first_char (arg_n argv 1) =? 117) || (first_char (arg_n argv 1) =? 85) in
  let kernel := (first_char (arg_n argv 1) =? 107) || (first_char (arg_n argv 1) =? 75) in
  let rd := first_char (arg_n argv 2) =? 114 in
  let wr := first_char (arg_n argv 2) =? 119 in
  let say what a := cat ["Attempting to "; what; " = 0x"; ADDR_FMT a; ":"; nl] in
  if user && rd then Some ("load", rubbish_uaddr, say "read contents of arbitrary usermode va uptr" rubbish_uaddr, Some "*uptr = 0x")
  else if user && wr then Some ("store 40", main_addr, say "write into arbitrary usermode va uptr (&main actually)" main_addr, None)
  else if kernel && rd then Some ("load", rubbish_kaddr, say "read contents of arbitrary kernel va kptr" rubbish_kaddr, Some "*kptr = 0x")
  else if kernel && wr then Some ("store 98", rubbish_kaddr, say "write into arbitrary kernel va kptr" rubbish_kaddr, None)
  else None.

Lemma letter2_eq b ch : letter2 b ch = (first_char b =? ch).
Proof. unfold letter2. by destruct (first_char b =? ch). Qed.

Lemma letter_eq a ch : 97 <= ch <= 122 -> letter a ch = (first_char a =? ch) || (first_char a =? ch - 32).
Proof.
  intros Hc. unfold letter, tolower. destruct ((65 <=? first_char a) && (first_char a <=? 90)) eqn:E;
    destruct (Z.eqb_spec (first_char a) ch), (Z.eqb_spec (first_char a) (ch - 32)); cbn [orb]; zbool; cbn in E; try done; lia.
Qed.

(** What a value read is printed as. *)
Definition value_events (label : option string) (v : Z) : list event :=
  match label with Some l => [EvOut stdout (cat [l; ADDR_FMT v; nl])] | None => [] end.

Section Attempt.
Context {K : Type} {HK : Kernel K}.

Lemma wp_attempt main_addr deref usage argv (Q : outcome unit -> world K -> Prop) w :
  match selected main_addr argv with
  | None => wp usage Q w
  | Some (op, addr, line, label) =>
      wp (deref op addr)
        (post (fun v w' => Q (Done tt) (World (kern w') (errno w') (trace w' ++ value_events label v))) (fun h w' => Q (Halt h) w'))
        (World (kern w) (errno w) (trace w ++ [EvOut stdout line]))
  end -> wp (attempt main_addr deref usage argv) Q w.
Proof.
  unfold attempt, selected. rewrite !letter2_eq, !letter_eq by lia.
  change (117 - 32) with 85. change (107 - 32) with 75.
  set (user := _ || (_ =? 85)). set (kernel := _ || (_ =? 75)). set (r := _ =? 114). set (wr := _ =? 119).
  assert (forall x, value_events None x = []) as Hn by done.
  assert (forall o w', post (fun _ w0 => Q (Done tt) (World (kern w0) (errno w0) (trace w0 ++ []))) (fun h w0 => Q (Halt h) w0) o w' ->
    post (fun _ w0 => wp (mret tt) Q w0) (fun h w0 => Q (Halt h) w0) (o : outcome Z) w') as Hwr.
  { intros [v|h] [k e t]; cbn [post kern errno trace]; [|done]. rewrite app_nil_r. intros H. by apply wp_ret. }
  destruct (user && r); [intros H|destruct (user && wr); [intros H|destruct (kernel && r); [intros H|destruct (kernel && wr); [intros H|done]]]].
  - wp_step. wp_step. wp_step. exact H.
  - wp_step. wp_step. wp_step. eapply wp_mono; [|exact H]. apply Hwr.
  - wp_step. wp_step. wp_step. exact H.
  - wp_step. wp_step. wp_step. eapply wp_mono; [|exact H]. apply Hwr.
Qed.

End Attempt.

(** ** The runs *)

(** What the handler of handle_segv.c prints. *)
Definition plain_report (si : siginfo) : list event :=
  [EvOut stdout (cat ["*** myfault: ["; fmt_d 1; "] received signal "; fmt_d SIGSEGV; ". errno="; fmt_d (si_errno si); nl;
                      " Cause/Origin: (si_code="; fmt_d (si_code si); "): "]);
   EvOut stdout (cat [Plain.cause (si_code si); nl]);
   EvOut stdout (cat [" Faulting addr=0x"; ADDR_FMT (si_addr si); nl])].

(** What the handler of handle_segv_altstack.c prints. *)
Definition alt_report (psiginfo_text : siginfo -> string) (si : siginfo) : list event :=
  map (EvOut stderr)
    [cat ["myfault():"; nl; "------------------- FATAL signal ---------------------------"; nl];
     cat [" myfault: received signal "; fmt_d SIGSEGV; ". errno="; fmt_d (si_errno si); nl;
          " Cause/Origin: (si_code="; fmt_d (si_code si); "): "];
     cat [AltStack.cause (si_code si); nl];
     cat [" Faulting instr or address = 0x"; ADDR_FMT (si_addr si); nl];
     cat [AltStack.rule; nl]; psiginfo_text si; cat [AltStack.rule; nl]].

(** The run of handle_segv.c from the setting of the handler on. *)
Definition plain_run (main_addr : Z) (argv : list string) (o : outcome unit) (tr : list event) : Prop :=
  match selected main_addr argv with
  | None => o = Halt (HExit 0) /\ tr = [EvOut stderr (Plain.usage_text (arg_n argv 0))]
  | Some (op, addr, line, label) =>
      exists r,
        if ret r =? -1 then
          o = Halt (HExit 1) /\ tr = [EvOut stdout line; EvCall (Csys op [AI addr]) r] ++ plain_report (info_of (out r))
        else
          o = Halt (HExit 0) /\ tr = [EvOut stdout line; EvCall (Csys op [AI addr]) r] ++ value_events label (hd 0 (out r))
  end.

(** Wrong arguments, a handler that could not be set, or the run. *)
Definition plain_spec (main_addr : Z) (argv : list string) (o : outcome unit) (tr : list event) : Prop :=
  (argc argv <> 3 /\ o = Halt (HExit 1) /\ tr = [EvOut stderr (Plain.usage_text (arg_n argv 0))]) \/
  (argc argv = 3 /\ exists rs tr1,
     tr = EvCall (Csys "sigaction" [AI SIGSEGV; AS "myfault"; AI 268435460; AI 0]) rs :: tr1 /\
     if ret rs =? -1 then o = Halt (HExit 1) /\ tr1 = [EvPerror "sigaction" (err rs)]
     else plain_run main_addr argv o tr1).

(** The run of handle_segv_altstack.c from the setting of the handler on. *)
Definition alt_run (psiginfo_text : siginfo -> string) (main_addr : Z) (argv : list string) (o : outcome unit) (tr : list event) : Prop :=
  match selected main_addr argv with
  | None => o = Halt (HExit 0) /\ tr = [EvOut stderr (AltStack.usage_text (arg_n argv 0))]
  | Some (op, addr, line, label) =>
      exists r tr1, tr = [EvOut stdout line; EvCall (Csys op [AI addr]) r] ++ tr1 /\
        if ret r =? -1 then
          exists tr2, tr1 = alt_report psiginfo_text (info_of (out r)) ++ tr2 /\
            (o = Halt (HKilled SIGSEGV) /\ (forall s t, EvOut s t ∉ tr2) \/
             o = Halt (HExit 1) /\ exists c r', EvCall c r' ∈ tr2 /\ ret r' <> 0)
        else o = Halt (HExit 0) /\ tr1 = value_events label (hd 0 (out r))
  end.

Definition alt_stack_size : Z := 10 * 1024 * 1024.

(** Wrong arguments, an alternate stack or a handler that could not be set, or the run. *)
Definition alt_spec (psiginfo_text : siginfo -> string) (main_addr act_addr : Z) (argv : list string)
    (o : outcome unit) (tr : list event) : Prop :=
  let sz := fmt_d alt_stack_size in
  let failed := EvOut stderr (cat [arg_n argv 0; ": setting up alt sig stack failed"; nl]) in
  (argc argv <> 3 /\ o = Halt (HExit 1) /\ tr = [EvOut stderr (AltStack.usage_text (arg_n argv 0))]) \/
  (argc argv = 3 /\ exists rm tr1,
     tr = [EvOut stdout (cat ["Regular stack uva eg (user virt addr) = "; fmt_p act_addr; nl]);
           EvOut stdout (cat ["Alt signal stack size = "; sz; " bytes"; nl]); EvCall (Cmalloc alt_stack_size) rm] ++ tr1 /\
     if ret rm =? 0 then
       o = Halt (HExit 1) /\ tr1 = [EvOut stdout (cat ["malloc("; sz; ") for alt sig stack failed"; nl]); failed]
     else exists ra tr2,
       tr1 = EvCall (Csys "sigaltstack" [AI (ret rm); AI alt_stack_size]) ra :: tr2 /\
       if ret ra =? -1 then
         o = Halt (HExit 1) /\ tr2 = [EvOut stdout (cat ["sigaltstack for size "; sz; " failed!"; nl]); failed]
       else exists rs tr3,
         tr2 = [EvOut stdout (cat ["Alt signal stack uva (user virt addr) = "; fmt_p (ret rm); nl]);
                EvCall (Csys "sigaction" [AI SIGSEGV; AS "myfault"; AI 402653188; AI (2 ^ 64 - 1)]) rs] ++ tr3 /\
         if ret rs =? -1 then o = Halt (HExit 1) /\ tr3 = [EvPerror "sigaction" (err rs)]
         else alt_run psiginfo_text main_addr argv o tr3).

(** Every run of handle_segv.c: wrong arguments, a handler that could not be set, or the
    access that the arguments select.  An access that faults is reported with the cause
    and the address that the kernel gives, and the program exits with 1 from its handler,
    never going on after the access. *)
Theorem segv_reported {K} `{HK : Kernel K} main_addr argv (w : world K) :
  exists o w' tr, Plain.main main_addr argv w = (o, w') /\ trace w' = trace w ++ tr /\ plain_spec main_addr argv o tr.
Proof.
  apply wp_trace. unfold plain_spec, Plain.main, Plain.usage. destruct (Z.eqb_spec (argc argv) 3) as [Ha|Ha]; cbn [negb].
  2:{ wp_go. leaf. left. done. }
  wp_seq. destruct (ret r =? -1) eqn:Er.
  { wp_go. leaf. right. split; [done|]. exists r. eexists. split; [reflexivity|]. rewrite Er. split; [done|].
    cbn [errno after]. change (call_failed _ _) with (ret r =? -1). by rewrite Er. }
  wp_step. wp_step. apply wp_attempt. unfold plain_run.
  destruct (selected main_addr argv) as [[[[op addr] line] label]|] eqn:Es.
  - unfold Plain.deref. wp_seq. destruct (ret r0 =? -1) eqn:E0.
    + unfold Plain.myfault. wp_go. leaf. right. split; [done|]. exists r. eexists. split; [reflexivity|]. rewrite Er.
      exists r0. by rewrite E0.
    + wp_go. leaf. right. split; [done|]. exists r. eexists. split; [reflexivity|]. rewrite Er. exists r0. by rewrite E0.
  - wp_go. leaf. right. split; [done|]. exists r. eexists. split; [reflexivity|]. by rewrite Er.
Qed.

(** The handler ends the program or returns with the signal pending. *)
Lemma wp_alt_fault {K} `{HK : Kernel K} psiginfo_text si (Q : outcome unit -> world K -> Prop) w :
  (forall o w' tr, trace w' = trace w ++ alt_report psiginfo_text si ++ tr ->
     o = Done tt /\ (forall s t, EvOut s t ∉ tr) \/ o = Halt (HExit 1) /\ (exists c r, EvCall c r ∈ tr /\ ret r <> 0) ->
     Q o w') ->
  wp (AltStack.myfault psiginfo_text SIGSEGV si) Q w.
Proof.
  intros HQ. unfold AltStack.myfault, AltStack.FATAL. wp_seq. destruct (Z.eqb_spec (ret r) (-1)) as [Er|Er].
  { wp_go. eapply HQ; [cbn [trace after]; rewrite <- !app_assoc; reflexivity|].
    right. split; [done|]. eexists _, r. split; [by ev_in|lia]. }
  wp_seq. destruct (Z.eqb_spec (ret r0) 0) as [E0|E0]; cbn [negb].
  - wp_go. eapply HQ; [cbn [trace after]; rewrite <- !app_assoc; reflexivity|].
    left. split; [done|]. intros s t. cbn [app]. rewrite !not_elem_of_cons. split_and!; [done|done|apply not_elem_of_nil].
  - wp_go. eapply HQ; [cbn [trace after]; rewrite <- !app_assoc; reflexivity|].
    right. split; [done|]. eexists _, r0. split; [by ev_in|done].
Qed.

Lemma wp_alt_attempt {K} `{HK : Kernel K} psiginfo_text main_addr argv (Q : outcome unit -> world K -> Prop) w :
  (forall o w' tr, trace w' = trace w ++ tr -> alt_run psiginfo_text main_addr argv o tr -> Q o w') ->
  wp (attempt main_addr (AltStack.deref psiginfo_text) (AltStack.usage (arg_n argv 0)) argv;; exit 0) Q w.
Proof.
  intros HQ. wp_step. apply wp_attempt. unfold alt_run in HQ.
  destruct (selected main_addr argv) as [[[[op addr] line] label]|] eqn:Es.
  - unfold AltStack.deref. wp_seq. destruct (ret r =? -1) eqn:E0.
    + wp_step. apply wp_alt_fault. intros o w' tr Ht Ho.
      assert (o = Done tt \/ exists h, o = Halt h) as [-> | [h ->]] by naive_solver.
      * destruct Ho as [[_ Ho] | [? _]]; [|done]. cbn [post]. wp_step. eapply HQ.
        { rewrite Ht. cbn [trace after]. rewrite <- !app_assoc. reflexivity. }
        exists r. eexists. split; [reflexivity|]. rewrite E0. eexists. split; [reflexivity|]. by left.
      * destruct Ho as [[? _] | [? Ho]]; [done|]. cbn [post]. eapply HQ.
        { rewrite Ht. cbn [trace after]. rewrite <- !app_assoc. reflexivity. }
        exists r. eexists. split; [reflexivity|]. rewrite E0. eexists. split; [reflexivity|]. by right.
    + wp_go. eapply HQ; [cbn [trace after]; rewrite <- !app_assoc; reflexivity|].
      exists r. eexists. split; [reflexivity|]. by rewrite E0.
  - unfold AltStack.usage. wp_go. by eapply HQ.
Qed.

(** Every run of handle_segv_altstack.c: wrong arguments, an alternate stack or a handler
    that could not be set, each reported and ended with 1 before any access; or the
    access that the arguments select.  An access that faults is reported in full, with
    the cause and the address that the kernel gives; the process then dies from SIGSEGV,
    as it would have without the handler, or exits with 1 if the default action could not
    be restored or the signal not be raised; it never goes on after the access. *)
Theorem segv_altstack_reported {K} `{HP : PosixKernel K} main_addr act_addr psiginfo_text argv (w : world K) :
  exists o w' tr, AltStack.main main_addr act_addr psiginfo_text argv w = (o, w') /\ trace w' = trace w ++ tr /\
    alt_spec psiginfo_text main_addr act_addr argv o tr.
Proof.
  apply wp_trace. unfold alt_spec, AltStack.main, AltStack.setup_altsigstack. cbn zeta.
  destruct (Z.eqb_spec (argc argv) 3) as [Ha|Ha]; cbn [negb].
  2:{ unfold AltStack.usage. wp_go. leaf. by left. }
  wp_seq. rename r into rm. destruct (ret rm =? 0) eqn:Em.
  { wp_seq. change (- ENOMEM <? 0) with true. wp_go. leaf. right. split; [done|]. exists rm. eexists. split; [reflexivity|]. by rewrite Em. }
  wp_call. apply wp_syscall_posix. intros ra ka [Hf _] Hka. cbn [post]. wp_seq. destruct (ret ra =? -1) eqn:Era.
  { wp_seq. cbn [errno after]. change (call_failed _ (ret ra)) with (ret ra =? -1) in *. rewrite Era. specialize (Hf Era).
    destruct (Z.ltb_spec (- err ra) 0); [|lia]. wp_go. leaf. right. split; [done|]. exists rm. eexists. split; [reflexivity|].
    rewrite Em. exists ra. eexists. split; [reflexivity|]. by rewrite Era. }
  wp_seq. change (0 <? 0) with false. wp_seq. rename r into rs. destruct (ret rs =? -1) eqn:Ers.
  { wp_go. leaf. right. split; [done|]. exists rm. eexists. split; [reflexivity|]. rewrite Em. exists ra. eexists.
    split; [reflexivity|]. rewrite Era. exists rs. eexists. split; [reflexivity|]. rewrite Ers. split; [done|].
    cbn [errno after]. change (call_failed _ (ret rs)) with (ret rs =? -1). by rewrite Ers. }
  wp_step. apply wp_alt_attempt. intros o w' tr Ht Hr. eexists. split.
  { rewrite Ht. cbn [trace after]. rewrite <- !app_assoc. reflexivity. }
  right. split; [done|]. exists rm. eexists. split; [reflexivity|]. rewrite Em. exists ra. eexists. split; [reflexivity|].
  rewrite Era. exists rs. eexists. split; [reflexivity|]. by rewrite Ers.
Qed.

(** A kernel on which every access faults, at an address that is not mapped. *)
Definition EFAULT : Z := 14.

Definition unmapped : Kernel unit := fun c _ =>
  match c with
  | Cmalloc _ => (Resp 4096 0 [], tt)
  | Cread _ _ => (Resp (-1) EFAULT [], tt)
  | Csys "load" [AI a] | Csys "store 40" [AI a] | Csys "store 98" [AI a] => (Resp (-1) EFAULT [0; 1; a], tt)
  | _ => (Resp 0 EFAULT [], tt)
  end.

#[local] Instance unmapped_kernel : Kernel unit := unmapped.

#[local] Instance unmapped_posix : PosixKernel unit.
Proof.
  intros c k. unfold kstep, unmapped_kernel.
  assert (call_failed c (ret (fst (unmapped c k))) = true -> err (fst (unmapped c k)) = EFAULT) as He.
  { destruct c; cbn; try done. unfold unmapped. repeat (case_match; try done). }
  split; [intros ->%He; done|]. destruct c; cbn; try done; first [by left | lia | right; unfold zlen; lia | by right].
Qed.

Lemma segv_altstack_reported_witness : exists w' tr,
  AltStack.main 4198400 140737488 (fun _ => "psiginfo") ["segv"; "K"; "read"] (World tt 0 []) = (Halt (HKilled SIGSEGV), w') /\
  trace w' = tr /\ alt_spec (fun _ => "psiginfo") 4198400 140737488 ["segv"; "K"; "read"] (Halt (HKilled SIGSEGV)) tr.
Proof.
  destruct (segv_altstack_reported 4198400 140737488 (fun _ => "psiginfo") ["segv"; "K"; "read"] (World tt 0 []))
    as (o & w' & tr & E & Ht & Hs).
  assert (o = Halt (HKilled SIGSEGV)) as -> by (apply (f_equal fst) in E; vm_compute in E; by symmetry in E).
  exists w', tr. split; [exact E|]. split; [exact Ht|exact Hs].
Defined.

(** The second argument is compared before it is put in lower case: an upper case letter
    selects nothing. *)
Lemma segv_upper_case a : selected a ["segv"; "U"; "R"] = None /\ selected a ["segv"; "U"; "r"] <> None.
Proof. done. Qed.
