(* ===== verification/SavedIds.v ===== *)
(** src/setuid_caps/savedset_ids/savedset_ids.c: a set-user-ID root program that gives its
    privilege up for a while and takes it back.  The kernel keeps the credentials of the
    process; seteuid follows POSIX: a privileged process may take any ID, another one its
    real or saved ID. *)
From S2P Require Import Prelude CMonad CLib.

Definition PATH_MAX : Z := 4096.
Definition EPERM : Z := 1.

Section Code.
Context {K : Type} {HK : Kernel K}.

Definition ids_line (ruid euid rgid egid : Z) : string :=
  cat ["Now: RUID="; fmt_d (to_int ruid); " EUID="; fmt_d (to_int euid); nl;
       "     RGID="; fmt_d (to_int rgid); " EGID="; fmt_d (to_int egid); nl].

Definition SHOWIDS : C K unit :=
  ruid ← sys "getuid" [];
  euid ← sys "geteuid" [];
  rgid ← sys "getgid" [];
  egid ← sys "getegid" [];
  printf (ids_line ruid euid rgid egid).

Definition main (argv : list string) : C K unit :=
  let name := arg_n argv 0 in
  cmd ← syscall (Cmalloc PATH_MAX);
  (if ret cmd =? 0 then halt_with HAbort else mret tt);;
  printf (cat ["First make sure that "; name; " is an SUID-root binary"; nl]);;
  sys "system" [AS (snprintf 128 (cat ["ls -l "; name]))];;
  SHOWIDS;;
  e ← sys "geteuid" [];
  (if negb (e =? 0) then
     fprintf stderr (cat [name; ": not a setuid-root executable, aborting now ..."; nl;
                          " [Tip: do: sudo chown root:root "; name; " ; sudo chmod u+s "; name; nl; " and rerun]."; nl]);;
     syscall (Cfree (ret cmd));;
     exit 1
   else mret tt);;
  printf (cat ["1. Ok, we're effectively running as root! (euid==0)"; nl]);;
  orig_euid ← sys "geteuid" [];
  printf (cat ["2. Changing Effective UID back to my "; dquote; "original"; dquote;
               " UID now...(and going to sleep for 10s...)"; nl]);;
  u ← sys "getuid" [];
  r ← sys "seteuid" [AI u];
  (if r =? -1 then perror "seteuid [1] failed";; syscall (Cfree (ret cmd));; exit 1 else mret tt);;
  SHOWIDS;;
  sys "sleep" [AI 10];;
  printf (cat ["3. Now reverting to my saved 'superior' privileges..."; nl]);;
  r ← sys "seteuid" [AI orig_euid];
  (if r =? -1 then perror "seteuid [2] failed";; syscall (Cfree (ret cmd));; exit 1 else mret tt);;
  SHOWIDS;;
  printf (cat ["4. Exiting ..."; nl]);;
  syscall (Cfree (ret cmd));;
  exit 0.

End Code.

(** ** Credentials *)

Record creds := Creds { ruid : Z; euid : Z; suid : Z; rgid : Z; egid : Z }.

(** [asleep] is what the effective ID was whenever the process slept. *)
Record cstate := Cstate { cred : creds; asleep : list Z }.

Definition set_euid (c : creds) (u : Z) : creds := Creds (ruid c) u (suid c) (rgid c) (egid c).

(** May [c] take the effective ID [u]? *)
Definition may_take (c : creds) (u : Z) : bool := (euid c =? 0) || (u =? ruid c) || (u =? suid c).

#[export] Instance cred_kernel : Kernel cstate := fun call k =>
  let c := cred k in
  match call with
  | Cmalloc _ => (Resp 4096 0 [], k)
  | Csys "getuid" _ => (Resp (ruid c) 0 [], k)
  | Csys "geteuid" _ => (Resp (euid c) 0 [], k)
  | Csys "getgid" _ => (Resp (rgid c) 0 [], k)
  | Csys "getegid" _ => (Resp (egid c) 0 [], k)
  | Csys "seteuid" [AI u] =>
      if may_take c u then (Resp 0 0 [], Cstate (set_euid c u) (asleep k)) else (Resp (-1) EPERM [], k)
  | Csys "sleep" _ => (Resp 0 0 [], Cstate c (asleep k ++ [euid c]))
  | _ => (Resp 0 0 [], k)
  end.

Lemma wp_cred_call c r k' (Q : outcome resp -> world cstate -> Prop) w :
  cred_kernel c (kern w) = (r, k') -> Q (Done r) (after c r k' w) -> wp (syscall c) Q w.
Proof. intros E HQ. apply wp_syscall. intros r0 k0 E0. unfold kstep in E0. congruence. Qed.

(** What was printed. *)
Definition lines (tr : list event) : list string :=
  omap (fun e => match e with EvOut stdout t => Some t | _ => None end) tr.

Definition shown (c : creds) : string := ids_line (ruid c) (euid c) (rgid c) (egid c).

(** ** What a run shows *)

(** The greeting; the lines of a privileged run up to its sleep, and from there on. *)
Definition greeting (name : string) (c : creds) : list string :=
  [cat ["First make sure that "; name; " is an SUID-root binary"; nl]; shown c].

Definition dropping (c : creds) : list string :=
  [cat ["1. Ok, we're effectively running as root! (euid==0)"; nl];
   cat ["2. Changing Effective UID back to my "; dquote; "original"; dquote;
        " UID now...(and going to sleep for 10s...)"; nl];
   shown (set_euid c (ruid c));
   cat ["3. Now reverting to my saved 'superior' privileges..."; nl]].

Definition regained (c : creds) : list string := [shown c; cat ["4. Exiting ..."; nl]].

Definition ids_spec (name : string) (c : creds) (slept : list Z) (o : outcome unit) (k : cstate) (tr : list event) : Prop :=
  if negb (euid c =? 0) then
    o = Halt (HExit 1) /\ k = Cstate c slept /\ lines tr = greeting name c
  else
    asleep k = slept ++ [ruid c] /\
    if (ruid c =? 0) || (suid c =? 0) then
      o = Halt (HExit 0) /\ cred k = c /\ lines tr = greeting name c ++ dropping c ++ regained c
    else
      o = Halt (HExit 1) /\ cred k = set_euid c (ruid c) /\ lines tr = greeting name c ++ dropping c.

(** From [w0] the program has come to [w]: the kernel is [k], the lines [ls] were printed. *)
Definition reached (w0 : world cstate) (k : cstate) (ls : list string) (w : world cstate) : Prop :=
  kern w = k /\ exists tr, trace w = trace w0 ++ tr /\ lines tr = ls.

Section Steps.
Context (w0 : world cstate) (c : creds) (slept : list Z) (ls : list string) (w : world cstate).
Hypothesis Hw : reached w0 (Cstate c slept) ls w.

Lemma reached_emit e (Q : outcome unit -> world cstate -> Prop) :
  (forall w', reached w0 (Cstate c slept) (ls ++ lines [e]) w' -> Q (Done tt) w') -> wp (emit e) Q w.
Proof.
  destruct Hw as (Ek & tr & Et & El). intros HQ. apply wp_emit, HQ. split; [done|]. exists (tr ++ [e]).
  cbn [trace]. split; [by rewrite Et, app_assoc|]. unfold lines in *. by rewrite omap_app, El.
Qed.

Lemma reached_call cl r k' (Q : outcome resp -> world cstate -> Prop) :
  cred_kernel cl (Cstate c slept) = (r, k') -> (forall w', reached w0 k' ls w' -> Q (Done r) w') -> wp (syscall cl) Q w.
Proof.
  destruct Hw as (Ek & tr & Et & El). intros E HQ. eapply wp_cred_call; [by rewrite Ek|]. apply HQ. split; [done|].
  exists (tr ++ [EvCall cl r]). cbn [trace after]. split; [by rewrite Et, app_assoc|].
  unfold lines in *. rewrite omap_app, El. apply app_nil_r.
Qed.

Lemma reached_sys name args r k' (Q : outcome Z -> world cstate -> Prop) :
  cred_kernel (Csys name args) (Cstate c slept) = (r, k') ->
  (forall w', reached w0 k' ls w' -> Q (Done (ret r)) w') -> wp (sys name args) Q w.
Proof. intros E HQ. unfold sys. wp_call. eapply reached_call; [done|]. intros. cbn [post]. wp_step. by apply HQ. Qed.

End Steps.

Ltac ids_step :=
  repeat match goal with |- wp (_ ≫= _) _ _ => apply wp_bind | _ => progress cbn [post ret Z.eqb negb orb] end;
  try unfold perror, printf, fprintf;
  lazymatch goal with
  | H : reached _ _ _ ?w |- wp (emit _) _ ?w =>
      eapply reached_emit; [exact H|]; clear H; cbn [lines omap list_omap]; rewrite ?app_nil_r; intros ? H
  | |- wp get_errno _ _ => apply wp_get_errno
  | H : reached _ _ _ ?w |- wp (sys _ _) _ ?w => eapply reached_sys; [exact H|reflexivity|]; clear H; intros ? H
  | H : reached _ _ _ ?w |- wp (syscall _) _ ?w => eapply reached_call; [exact H|reflexivity|]; clear H; intros ? H
  | |- wp (mret _) _ _ => apply wp_ret
  | |- wp (exit _) _ _ => apply wp_exit
  end.

Lemma wp_SHOWIDS w0 c slept ls w (Q : outcome unit -> world cstate -> Prop) :
  reached w0 (Cstate c slept) ls w ->
  (forall w', reached w0 (Cstate c slept) (ls ++ [shown c]) w' -> Q (Done tt) w') -> wp SHOWIDS Q w.
Proof. intros H HQ. unfold SHOWIDS. repeat ids_step. by apply HQ. Qed.

Ltac ids_show := apply wp_bind;
  match goal with H : reached _ _ _ ?w |- wp SHOWIDS _ ?w => eapply wp_SHOWIDS; [exact H|]; clear H; intros ? H end; cbn [post].

Lemma seteuid_granted c slept u :
  may_take c u = true -> cred_kernel (Csys "seteuid" [AI u]) (Cstate c slept) = (Resp 0 0 [], Cstate (set_euid c u) slept).
Proof. intros H. cbn -[may_take]. by rewrite H. Qed.

Lemma seteuid_refused c slept u :
  may_take c u = false -> cred_kernel (Csys "seteuid" [AI u]) (Cstate c slept) = (Resp (-1) EPERM [], Cstate c slept).
Proof. intros H. cbn -[may_take]. by rewrite H. Qed.

Lemma may_take_back c : may_take (set_euid c (ruid c)) 0 = (ruid c =? 0) || (suid c =? 0).
Proof. unfold may_take. cbn [set_euid euid ruid suid]. rewrite !(Z.eqb_sym 0). by destruct (ruid c =? 0). Qed.

Lemma set_euid_back c u : euid c = 0 -> set_euid (set_euid c u) 0 = c.
Proof. destruct c. cbn. by intros ->. Qed.

(** The whole program.  Started without the effective ID of root it says so and exits
    with 1, its credentials unchanged.  Started with it, it is asleep with the real ID as
    its effective one; it then has root's effective ID back exactly when root is its saved
    or its real ID, and ends with the credentials it began with. *)
Theorem saved_ids_regained argv (w : world cstate) :
  exists o w' tr, main argv w = (o, w') /\ trace w' = trace w ++ tr /\
    ids_spec (arg_n argv 0) (cred (kern w)) (asleep (kern w)) o (kern w') tr.
Proof.
  assert (reached w (Cstate (cred (kern w)) (asleep (kern w))) [] w) as H.
  { split; [by destruct (kern w)|]. exists []. by rewrite app_nil_r. }
  revert H. generalize (asleep (kern w)) as slept. generalize (cred (kern w)) as c. intros c slept H.
  enough (wp (main argv) (fun o w' => exists k ls, reached w k ls w' /\ forall tr, lines tr = ls -> ids_spec (arg_n argv 0) c slept o k tr) w) as Hm.
  { apply wp_run in Hm as (o & w' & E & k & ls & (Ek & tr & Et & El) & Hs). exists o, w', tr. subst k. auto. }
  unfold main, ids_spec. cbn zeta. do 4 ids_step. ids_show. ids_step. cbn [post ret cred]. 
  destruct (euid c =? 0) eqn:Ee; cbn [negb]. 2:{ repeat ids_step. cbn [post]. eexists _, _. split; [exact H|]. done. }
  apply Z.eqb_eq in Ee. do 5 ids_step. cbn [post ret cred]. rewrite Ee.
  apply wp_bind. eapply reached_sys; [exact H|apply seteuid_granted; unfold may_take; by rewrite Ee|].
  clear H. intros ? H. cbn [post ret]. change (0 =? -1) with false. ids_step. cbn [post]. ids_show. do 2 ids_step.
  cbn [post asleep cred]. apply wp_bind.
  rewrite <- may_take_back. destruct (may_take (set_euid c (ruid c)) 0) eqn:Em.
  - eapply reached_sys; [exact H|apply seteuid_granted, Em|]. clear H. intros ? H. cbn [post ret].
    change (0 =? -1) with false. ids_step. cbn [post]. ids_show. repeat ids_step. cbn [post].
    eexists _, _. split; [exact H|]. intros tr ->. cbn [cred asleep]. rewrite set_euid_back by done. done.
  - eapply reached_sys; [exact H|apply seteuid_refused, Em|]. clear H. intros ? H. cbn [post ret].
    change (-1 =? -1) with true. repeat ids_step. cbn [post]. eexists _, _. split; [exact H|]. intros tr ->. done.
Qed.
