(* ===== verification/SigQueue.v ===== *)
(** src/signalling/sigq: sigq_snd.c sends an integer with a real-time signal, sigq_rcv.c
    reports every one that arrives.  Programs, their system (any number of senders and a
    receiver, in any order), and what comes through. *)
From S2P Require Import Prelude CMonad CLib Decimal.

(** ** strtol with base 0 *)

Definition ERANGE : Z := 34.
Definition ESRCH : Z := 3.

Definition digit_of (c : Z) : Z :=
  if isdigit c then c - 48
  else if (97 <=? c) && (c <=? 122) then c - 87
  else if (65 <=? c) && (c <=? 90) then c - 55
  else 36.

(** The value of the longest prefix of digits, and its length. *)
Fixpoint number (base acc : Z) (n : nat) (bs : list Z) : Z * nat :=
  match bs with
  | b :: bs' => if digit_of b <? base then number base (base * acc + digit_of b) (S n) bs' else (acc, n)
  | [] => (acc, n)
  end.

(** The base that the first characters select, and how many characters are the prefix. *)
Definition detect (bs : list Z) : Z * nat :=
  match bs with
  | 48 :: x :: d :: _ => if ((x =? 120) || (x =? 88)) && (digit_of d <? 16) then (16, 2%nat) else (8, 0%nat)
  | 48 :: _ => (8, 0%nat)
  | _ => (10, 0%nat)
  end.

Definition sign (bs : list Z) : bool * list Z :=
  match bs with 45 :: ds => (true, ds) | 43 :: ds => (false, ds) | ds => (false, ds) end.

Record strtol_result := Strtol { s_val : Z; s_err : Z; s_digits : bool }.

(** [strtol(s, &endptr, 0)] with errno 0 before: the value, errno, and whether endptr is
    past the start. *)
Definition strtol0 (s : string) : strtol_result :=
  let '(neg, ds) := sign (skip_space (bytes_of s)) in
  let '(base, pre) := detect ds in
  let '(v, n) := number base 0 0 (drop pre ds) in
  let z := if neg then - v else v in
  Strtol (Z.max LONG_MIN (Z.min LONG_MAX z)) (if (LONG_MIN <=? z) && (z <=? LONG_MAX) then 0 else ERANGE)
         (negb (Nat.eqb n 0)).

(** ** The programs *)

Definition SIGRTMIN : Z := 34.
Definition SIGTOUSE : Z := SIGRTMIN + 3.

Section Code.
Context {K : Type} {HK : Kernel K}.

Definition warning (v : Z) : string := if v <? 0 then " !WARNING! it's -ve (possible IoF)" else "".

Definition snd_main (argv : list string) : C K unit :=
  (if negb (argc argv =? 3) then
     fprintf stderr (cat ["Usage: "; arg_n argv 0; " pid-to-send-to value-to-send[int]"; nl]);; exit 1
   else mret tt);;
  set_errno 0;;
  let r := strtol0 (arg_n argv 2) in
  (if s_err r =? 0 then mret tt else set_errno (s_err r));;
  let sival_int := to_int (s_val r) in
  e ← get_errno;
  (if ((e =? ERANGE) && ((sival_int =? LONG_MAX) || (sival_int =? LONG_MIN))) || (negb (e =? 0) && (sival_int =? 0)) then
     perror "strtol";; exit 1
   else mret tt);;
  (if negb (s_digits r) then fprintf stderr (cat ["No digits were found"; nl]);; exit 1 else mret tt);;
  let sival_int := to_int (Z.land (wrapu 32 sival_int) (2 ^ 32 - 1)) in
  e ← get_errno;
  (if ((e =? ERANGE) && ((sival_int =? INT_MAX) || (sival_int =? INT_MIN))) || (negb (e =? 0) && (sival_int =? 0)) then
     perror "strtol";; exit 1
   else mret tt);;
  printf (cat [arg_n argv 0; ": integer being transmitted: "; fmt_d sival_int; warning sival_int; nl]);;
  q ← sys "sigqueue" [AI (to_int (atol (arg_n argv 1))); AI SIGTOUSE; AI sival_int];
  (if q =? -1 then perror "sigqueue failed";; exit 1 else mret tt);;
  exit 0.

Definition catcher (signum si_pid si_uid sival_int : Z) : C K unit :=
  pid ← sys "getpid" [];
  printf (cat [fmt_d pid; ": received signal # "; fmt_d signum; " from "; fmt_d si_pid; ":RUID "; fmt_d (to_int si_uid); nl;
               "Value recieved: "; fmt_d sival_int; nl]).

(** pause returns after a handler ran: the answer holds the signal's siginfo.  Any other
    signal ends the process. *)
Definition turn : C K unit :=
  r ← syscall (Csys "pause" []);
  match out r with
  | [signum; si_pid; si_uid; v] => catcher signum si_pid si_uid v
  | _ => halt_with (HKilled (ret r))
  end.

Definition rcv_main (fuel : nat) (argv : list string) : C K unit :=
  r ← sys "sigaction" [AI SIGTOUSE; AS "catcher"; AI 268435460; AI 0];
  (if r =? -1 then perror "sigaction failure";; exit 1 else mret tt);;
  pid ← sys "getpid" [];
  printf (cat ["Hey, in "; arg_n argv 0; "["; fmt_d pid; "]! Pausing now ... [^C to exit..]"; nl]);;
  loop fuel (fun _ : unit => turn;; mret (inl tt : unit + unit)) tt;;
  exit 0.

End Code.

(** ** The sender *)

(** Masking an int with 0xffffffff changes nothing. *)
Lemma mask_int z : to_int (Z.land (wrapu 32 (to_int z)) (2 ^ 32 - 1)) = to_int z.
Proof.
  change (2 ^ 32 - 1) with (Z.ones 32). rewrite Z.land_ones by lia. unfold to_int, wraps, wrapu.
  change (2 ^ (32 - 1)) with 2147483648. change (2 ^ 32) with 4294967296.
  rewrite Z.mod_mod, Zplus_mod_idemp_l by lia.
  set (x := (z + 2147483648) mod 4294967296). replace (x - 2147483648 + 2147483648) with x by lia.
  subst x. by rewrite Z.mod_mod by lia.
Qed.

Lemma number_len base bs : forall acc n v m, number base acc n bs = (v, m) -> (n <= m)%nat /\ (m = n -> v = acc).
Proof.
  induction bs as [|b bs IH]; intros acc n v m; cbn [number]; [intros [= -> ->]; split; [lia|done]|].
  destruct (_ <? _); [|intros [= -> ->]; split; [lia|done]]. intros [? _]%IH. split; [lia|]. lia.
Qed.

(** No digits give 0 without an error; an error is a saturated value. *)
Lemma strtol0_facts s :
  (s_digits (strtol0 s) = false -> s_val (strtol0 s) = 0 /\ s_err (strtol0 s) = 0) /\
  (s_err (strtol0 s) = 0 \/
   s_err (strtol0 s) = ERANGE /\ (s_val (strtol0 s) = LONG_MAX \/ s_val (strtol0 s) = LONG_MIN)).
Proof.
  unfold strtol0. destruct (sign _) as [neg ds].
  destruct (detect ds) as [base pre]. destruct (number base 0 0 (drop pre ds)) as [v n] eqn:En.
  destruct (number_len _ _ _ _ _ _ En) as [_ Hv]. cbn [s_val s_err s_digits].
  set (z := if neg then - v else v). split.
  - intros H. apply negb_false_iff, Nat.eqb_eq in H. assert (z = 0) as -> by (subst z; rewrite (Hv H); by destruct neg). done.
  - unfold LONG_MIN, LONG_MAX. destruct (_ && _) eqn:E; [by left|]. right. split; [done|]. zbool; lia.
Qed.

Section Sender.
Context {K : Type} {HK : Kernel K}.

(** What an invocation does.  The value that is sent is the text's, reduced to an int;
    text without digits and values below every long are refused. *)
Definition snd_spec (argv : list string) (k : K) (o : outcome unit) (k' : K) (tr : list event) : Prop :=
  let r := strtol0 (arg_n argv 2) in
  let v := to_int (s_val r) in
  if negb (argc argv =? 3) then
    o = Halt (HExit 1) /\ k' = k /\ tr = [EvOut stderr (cat ["Usage: "; arg_n argv 0; " pid-to-send-to value-to-send[int]"; nl])]
  else if negb (s_digits r) then o = Halt (HExit 1) /\ k' = k /\ tr = [EvOut stderr (cat ["No digits were found"; nl])]
  else if negb (s_err r =? 0) && (s_val r =? LONG_MIN) then o = Halt (HExit 1) /\ k' = k /\ tr = [EvPerror "strtol" ERANGE]
  else let call := Csys "sigqueue" [AI (to_int (atol (arg_n argv 1))); AI SIGTOUSE; AI v] in
    exists q tr1, kstep call k = (q, k') /\
    tr = [EvOut stdout (cat [arg_n argv 0; ": integer being transmitted: "; fmt_d v; warning v; nl]);
          EvCall call q] ++ tr1 /\
    if ret q =? -1 then o = Halt (HExit 1) /\ tr1 = [EvPerror "sigqueue failed" (err q)] else o = Halt (HExit 0) /\ tr1 = [].

(** The error tests of the program see a value below every long, because it becomes 0,
    and not one above, which becomes -1. *)
Lemma first_test e z : e = 0 \/ e = ERANGE /\ (z = LONG_MAX \/ z = LONG_MIN) ->
  ((e =? ERANGE) && ((to_int z =? LONG_MAX) || (to_int z =? LONG_MIN))) || (negb (e =? 0) && (to_int z =? 0)) =
  negb (e =? 0) && (z =? LONG_MIN).
Proof. intros [-> |[-> [-> | ->]]]; done. Qed.

Lemma second_test e z : e = 0 \/ e = ERANGE /\ z = LONG_MAX ->
  ((e =? ERANGE) && ((to_int z =? INT_MAX) || (to_int z =? INT_MIN))) || (negb (e =? 0) && (to_int z =? 0)) = false.
Proof. intros [-> |[-> ->]]; done. Qed.

Lemma snd_main_spec argv (w : world K) : exists o w' tr,
  snd_main argv w = (o, w') /\ trace w' = trace w ++ tr /\ snd_spec argv (kern w) o (kern w') tr.
Proof.
  enough (wp (snd_main argv) (fun o w' => exists tr, trace w' = trace w ++ tr /\ snd_spec argv (kern w) o (kern w') tr) w) as Hm.
  { apply wp_run in Hm as (o & w' & E & tr & Hm). by exists o, w', tr. }
  unfold snd_spec, snd_main. destruct (argc argv =? 3); cbn [negb]; [|wp_go; by leaf].
  set (r := strtol0 (arg_n argv 2)). destruct (strtol0_facts (arg_n argv 2)) as [Hd He]. fold r in Hd, He.
  assert (forall Q w, (forall w', errno w' = s_err r -> kern w' = kern w -> trace w' = trace w -> Q (Done tt) w') ->
    errno w = 0 -> wp (if s_err r =? 0 then mret tt else @set_errno K (s_err r)) Q w) as Hset.
  { intros Q w0 HQ H0. destruct (Z.eqb_spec (s_err r) 0) as [E|E]; wp_go; apply HQ; cbn; congruence. }
  wp_step. wp_step. wp_step. wp_step. wp_step. apply Hset; [|done]. intros w' Ee Ek Et. rewrite mask_int.
  wp_step. wp_step. wp_step. rewrite Ee, first_test by done.
  destruct (negb (s_err r =? 0) && (s_val r =? LONG_MIN)) eqn:E1.
  { assert (s_err r = ERANGE) as EE by (destruct He as [H|[H _]]; [by rewrite H in E1|done]).
    assert (s_digits r = true) as -> by (destruct (s_digits r); [done|]; destruct Hd as [_ H]; [done|]; by rewrite H in EE).
    wp_go. rewrite Ee, EE. cbn [trace kern]. eexists. by rewrite Et, Ek. }
  wp_step. destruct (negb (s_digits r)) eqn:E2.
  { wp_go. cbn [trace kern]. eexists. by rewrite Et, Ek. }
  wp_step. wp_step. wp_step. wp_step. wp_step. rewrite Ee, second_test.
  2:{ destruct He as [H|[H [H'|H']]]; [by left|by right|]. by rewrite H, H' in E1. }
  wp_seq. cbn [kern] in *. rewrite Ek in Hk.
  destruct (ret r0 =? -1) eqn:E0; wp_go; cbn [trace kern after errno]; eexists; rewrite Et, <- !app_assoc;
    (split; [reflexivity|]); exists r0; eexists; (split; [exact Hk|]); (split; [reflexivity|]); rewrite E0; [|done].
  change (call_failed _ (ret r0)) with (ret r0 =? -1). by rewrite E0.
Qed.

End Sender.

(** ** What printf writes, strtol reads *)

Lemma pretty_go_lead x : (x <> 0)%N -> forall s, exists b l, bytes_of (pretty_N_go x s) = b :: l /\ b <> 48.
Proof.
  induction (N.lt_wf_0 x) as [x _ IH]. intros Hx s. rewrite pretty_N_go_step by lia.
  destruct (decide (x / 10 = 0)%N) as [E|E]; [|by apply IH; [apply N.div_lt; lia|]].
  rewrite E, pretty_N_go_0. cbn [bytes_of]. eexists _, _. split; [reflexivity|].
  assert (x < 10)%N by (apply N.div_small_iff in E; lia). destruct (digit_char (x mod 10)) as [_ Hc]; [by apply N.mod_lt|].
  rewrite N.mod_small in * by done. lia.
Qed.

Lemma fmt_d_lead z : 0 < z -> exists b l, bytes_of (fmt_d z) = b :: l /\ b <> 48.
Proof.
  intros Hz. assert (fmt_d z = pretty (Z.to_N z)) as -> by (destruct z; [done|reflexivity|lia]).
  unfold pretty, pretty_N. case_decide; [lia|]. apply pretty_go_lead. lia.
Qed.

Lemma number_dec bs : is_dec bs -> forall acc n, number 10 acc n bs = (digits_val acc bs, (n + length bs)%nat).
Proof.
  induction 1 as [|b bs Hb _ IH]; intros acc n; cbn [number digits_val length]; [by rewrite Nat.add_0_r|].
  assert (digit_of b = b - 48) as -> by (unfold digit_of; by rewrite Hb). rewrite Hb. unfold isdigit in Hb.
  destruct (Z.ltb_spec (b - 48) 10); [|zbool; lia]. rewrite IH. f_equal. lia.
Qed.

Lemma digit_cases b : isdigit b = true ->
  b = 48 \/ b = 49 \/ b = 50 \/ b = 51 \/ b = 52 \/ b = 53 \/ b = 54 \/ b = 55 \/ b = 56 \/ b = 57.
Proof. unfold isdigit. intros. zbool; lia. Qed.

Ltac digit_cases H := apply digit_cases in H as [-> |[-> |[-> |[-> |[-> |[-> |[-> |[-> |[-> | ->]]]]]]]]].

Lemma sign_dec b l : isdigit b = true -> sign (skip_space (b :: l)) = (false, b :: l).
Proof. intros H. by digit_cases H. Qed.

Lemma detect_dec b l : isdigit b = true -> b <> 48 -> detect (b :: l) = (10, 0%nat).
Proof. intros H ?. by digit_cases H. Qed.

(** Decimal digits with a first digit that is not 0. *)
Lemma number_fmt_d z : 0 < z -> exists n, (let '(base, pre) := detect (bytes_of (fmt_d z)) in
  number base 0 0 (drop pre (bytes_of (fmt_d z)))) = (z, S n).
Proof.
  intros Hz. destruct (fmt_d_dec z ltac:(lia)) as (Hd & Hv & _). destruct (fmt_d_lead z Hz) as (b & l & E & Hb).
  rewrite E in *. rewrite detect_dec by (done || by apply Forall_inv in Hd). cbn [drop].
  rewrite number_dec, Hv by done. by eexists.
Qed.

Lemma strtol0_fmt_d z : LONG_MIN <= z <= LONG_MAX -> strtol0 (fmt_d z) = Strtol z 0 true.
Proof.
  intros Hz. destruct (Z.lt_trichotomy z 0) as [H|[-> |H]]; [|done|].
  - destruct (number_fmt_d (- z) ltac:(lia)) as (n & En).
    assert (fmt_d z = String (Ascii.ascii_of_N 45) (fmt_d (- z))) as -> by (destruct z; [done|done|reflexivity]).
    unfold strtol0. cbn [bytes_of]. change (byte_of_ascii (Ascii.ascii_of_N 45)) with 45.
    change (sign (skip_space (45 :: ?l))) with (true, l). cbv iota beta.
    destruct (detect _) as [base pre]. rewrite En. rewrite Z.opp_involutive. rewrite (proj2 (Z.leb_le _ _) (proj1 Hz)), (proj2 (Z.leb_le _ _) (proj2 Hz)).
    cbn [andb]. f_equal. lia.
  - destruct (number_fmt_d z H) as (n & En). destruct (fmt_d_dec z ltac:(lia)) as (Hd & _).
    unfold strtol0. destruct (fmt_d_lead z H) as (b & l & E & _). rewrite E in *. apply Forall_inv in Hd.
    rewrite sign_dec by done. destruct (detect _) as [base pre]. rewrite En.
    rewrite (proj2 (Z.leb_le _ _) (proj1 Hz)), (proj2 (Z.leb_le _ _) (proj2 Hz)). cbn [andb]. f_equal. lia.
Qed.

(** ** Senders and receiver together *)

Record siginfo := Siginfo { i_sig : Z; i_pid : Z; i_uid : Z; i_val : Z }.

(** [rpid] is the receiver, which has set its handler; [me] and [uid] are the caller's;
    at most [cap] signals can be queued. *)
Record qstate := Qstate { rpid : Z; me : Z; uid : Z; cap : nat; queue : list siginfo }.

Definition with_queue (k : qstate) (q : list siginfo) : qstate := Qstate (rpid k) (me k) (uid k) (cap k) q.

Definition caller (k : qstate) (p u : Z) : qstate := Qstate (rpid k) p u (cap k) (queue k).

(** Real-time signals are queued, each with its value, and delivered in order. *)
#[export] Instance q_kernel : Kernel qstate := fun c k =>
  match c with
  | Csys "getpid" _ => (Resp (me k) 0 [], k)
  | Csys "sigqueue" [AI p; AI sig; AI v] =>
      if negb (p =? rpid k) then (Resp (-1) ESRCH [], k)
      else if (cap k <=? length (queue k))%nat then (Resp (-1) EAGAIN [], k)
      else (Resp 0 0 [], with_queue k (queue k ++ [Siginfo sig (me k) (uid k) v]))
  | Csys "pause" _ =>
      match queue k with
      | i :: q => (Resp (-1) EINTR [i_sig i; i_pid i; i_uid i; i_val i], with_queue k q)
      | [] => (Resp 2 0 [], k)
      end
  | _ => (Resp 0 0 [], k)
  end.

Definition outs (tr : list event) : list string :=
  omap (fun e => match e with EvOut stdout t => Some t | _ => None end) tr.

(** What the receiver prints for a signal. *)
Definition report (rpid : Z) (i : siginfo) : string :=
  cat [fmt_d rpid; ": received signal # "; fmt_d (i_sig i); " from "; fmt_d (i_pid i); ":RUID "; fmt_d (to_int (i_uid i)); nl;
       "Value recieved: "; fmt_d (i_val i); nl].

(** A process runs the sender, or the receiver comes back from its pause. *)
Inductive action := Send (pid uid : Z) (argv : list string) | Receive.

Record qsys := Qsys { kq : qstate; printed : list string; codes : list (outcome unit) }.

Definition act (s : qsys) (a : action) : qsys :=
  match a with
  | Send p u argv =>
      let '(o, w) := snd_main argv (World (caller (kq s) p u) 0 []) in Qsys (kern w) (printed s) (codes s ++ [o])
  | Receive =>
      match queue (kq s) with
      | [] => s
      | _ :: _ =>
          let '(_, w) := turn (World (caller (kq s) (rpid (kq s)) 0) 0 []) in
          Qsys (kern w) (printed s ++ outs (trace w)) (codes s)
      end
  end.

Definition acts (s : qsys) (l : list action) : qsys := fold_left act l s.

Definition start (rpid : Z) (cap : nat) : qsys := Qsys (Qstate rpid 0 0 cap []) [] [].

(** A request to send the int [v]. *)
Record request := Request { r_pid : Z; r_uid : Z; r_name : string; r_val : Z }.

Definition send (rpid : Z) (r : request) : action := Send (r_pid r) (r_uid r) [r_name r; fmt_d rpid; fmt_d (r_val r)].

Definition sent (r : request) : siginfo := Siginfo SIGTOUSE (r_pid r) (r_uid r) (r_val r).

Definition is_int (z : Z) : Prop := INT_MIN <= z <= INT_MAX.

(** The sender queues the value it was given. *)
Lemma send_queues k p u name v :
  is_int (rpid k) -> is_int v -> (length (queue k) < cap k)%nat ->
  exists w, snd_main [name; fmt_d (rpid k); fmt_d v] (World (caller k p u) 0 []) = (Halt (HExit 0), w) /\
    kern w = with_queue (caller k p u) (queue k ++ [Siginfo SIGTOUSE p u v]).
Proof.
  intros Hr Hv Hc. destruct (snd_main_spec [name; fmt_d (rpid k); fmt_d v] (World (caller k p u) 0 [])) as (o & w & tr & E & _ & Hs).
  unfold snd_spec in Hs. cbn [arg_n nth] in Hs. change (argc _) with 3 in Hs. cbn [Z.eqb Pos.eqb negb] in Hs.
  assert (LONG_MIN <= v <= LONG_MAX) as Hl by (unfold is_int, INT_MIN, INT_MAX, LONG_MIN, LONG_MAX in *; lia).
  rewrite strtol0_fmt_d in Hs by done. cbn [s_digits s_err s_val negb Z.eqb andb] in Hs. rewrite (to_int_id v) in Hs by done.
  change (to_int (atol ?s)) with (atoi s) in Hs. rewrite atoi_fmt_d in Hs by done. destruct Hs as (q & tr1 & Ek & _ & Ho).
  unfold kstep, q_kernel in Ek. cbn [kern caller rpid queue cap] in Ek. rewrite Z.eqb_refl in Ek. cbn [negb] in Ek.
  rewrite (proj2 (Nat.leb_gt _ _) Hc) in Ek. injection Ek as <- Ek. cbn [ret Z.eqb] in Ho. destruct Ho as [-> _].
  exists w. split; [exact E|]. by rewrite <- Ek.
Qed.

(** The receiver reports the first of the queue. *)
Lemma turn_reports k i q : queue k = i :: q ->
  exists w, turn (World (caller k (rpid k) 0) 0 []) = (Done tt, w) /\
    kern w = with_queue (caller k (rpid k) 0) q /\ outs (trace w) = [report (rpid k) i].
Proof.
  destruct k as [rp m u c qs]. cbn [queue]. intros ->. eexists. split; [reflexivity|]. done.
Qed.

Definition action_of (rpid : Z) (o : option request) : action :=
  match o with Some r => send rpid r | None => Receive end.

(** After the requests [rs]: what was printed and what is queued are the requests in order,
    and every sender has exited with 0. *)
Record in_order (rp : Z) (c : nat) (rs : list request) (s : qsys) : Prop := InOrder {
  io_rpid : rpid (kq s) = rp;
  io_cap : cap (kq s) = c;
  io_log : printed s ++ map (report rp) (queue (kq s)) = map (fun r => report rp (sent r)) rs;
  io_len : (length (queue (kq s)) <= length rs)%nat;
  io_codes : codes s = replicate (length rs) (Halt (HExit 0)) }.

Lemma in_order_send rp c rs s r : is_int rp -> is_int (r_val r) -> (length rs < c)%nat ->
  in_order rp c rs s -> in_order rp c (rs ++ [r]) (act s (send rp r)).
Proof.
  intros Hp Hv Hl [Er Ec El Hq Eo]. unfold send, act. destruct (send_queues (kq s) (r_pid r) (r_uid r) (r_name r) (r_val r)) as (w & E & Ek);
    [by rewrite Er|done|rewrite Ec; lia|]. rewrite Er in E. rewrite E, Ek. constructor; cbn; try done.
  - by rewrite !map_app, app_assoc, El.
  - rewrite !length_app. cbn. lia.
  - by rewrite Eo, length_app, replicate_add.
Qed.

Lemma in_order_receive rp c rs s : in_order rp c rs s ->
  in_order rp c rs (act s Receive) /\ length (queue (kq (act s Receive))) = pred (length (queue (kq s))).
Proof.
  intros [Er Ec El Hq Eo]. unfold act. destruct (queue (kq s)) as [|i q] eqn:Eq.
  { split; [|by rewrite Eq]. constructor; rewrite ?Eq; done. }
  destruct (turn_reports (kq s) i q Eq) as (w & E & Ek & Et). rewrite E, Ek, Et, Er. split; [|done].
  constructor; cbn in *; try done; [|lia]. by rewrite <- app_assoc.
Qed.

Lemma in_order_run rp c : is_int rp -> forall l rs s,
  Forall (fun r => is_int (r_val r)) (omap id l) -> (length (rs ++ omap id l) <= c)%nat ->
  in_order rp c rs s -> in_order rp c (rs ++ omap id l) (acts s (map (action_of rp) l)).
Proof.
  intros Hp. induction l as [|[r|] l IH]; intros rs s Hv Hl Hs; cbn [map omap list_omap id] in *; [by rewrite app_nil_r|..].
  - inversion_clear Hv. rewrite length_app in Hl. cbn in Hl. rewrite cons_middle, app_assoc. cbn [acts fold_left].
    apply IH; [done|rewrite !length_app in *; cbn; lia|].
    apply in_order_send; [done..|lia|done].
  - cbn [acts fold_left]. apply IH; [done..|]. by apply in_order_receive.
Qed.

Lemma receive_all rp c rs n : forall s, in_order rp c rs s -> (length (queue (kq s)) <= n)%nat ->
  printed (acts s (replicate n Receive)) = map (fun r => report rp (sent r)) rs.
Proof.
  induction n as [|n IH]; intros s Hs Hn; cbn [replicate acts fold_left].
  - destruct Hs as [_ _ El _ _]. destruct (queue (kq s)); [|cbn in Hn; lia]. cbn in El. by rewrite app_nil_r in El.
  - destruct (in_order_receive _ _ _ _ Hs) as [Hs' E]. apply IH; [done|]. lia.
Qed.



(** A number above every long passes the tests of the program and is sent as -1; an int
    that does not fit is reduced; a number below every long is refused. *)
Lemma snd_overflow :
  map (fun v => outs (trace (snd (snd_main ["snd"; "42"; v] (World (Qstate 42 7 0 9 []) 0 []))))
    ++ map (fun i => fmt_d (i_val i)) (queue (kern (snd (snd_main ["snd"; "42"; v] (World (Qstate 42 7 0 9 []) 0 []))))))
    ["9223372036854775808"; "4294967298"; "-9223372036854775809"; "0x10"] =
  [[cat ["snd: integer being transmitted: -1 !WARNING! it's -ve (possible IoF)"; nl]; "-1"];
   [cat ["snd: integer being transmitted: 2"; nl]; "2"]; [];
   [cat ["snd: integer being transmitted: 16"; nl]; "16"]].
Proof. vm_compute. reflexivity. Qed.

(** The receiver alone: it reports what is queued and goes on until a fatal signal. *)
Lemma turn_step rp u c i q e tr : exists e',
  turn (World (Qstate rp rp u c (i :: q)) e tr) =
  (Done tt, World (Qstate rp rp u c q) e'
     (tr ++ [EvCall (Csys "pause" []) (Resp (-1) EINTR [i_sig i; i_pid i; i_uid i; i_val i])] ++
            [EvCall (Csys "getpid" []) (Resp rp 0 [])] ++ [EvOut stdout (report rp i)])).
Proof. eexists. rewrite !app_assoc. reflexivity. Qed.

Lemma wp_rcv_loop rp u c q : forall e tr,
  wp (loop (S (length q)) (fun _ : unit => turn;; mret (inl tt : unit + unit)) tt)
     (fun o w' => o = Halt (HKilled 2) /\ outs (trace w') = outs tr ++ map (report rp) q) (World (Qstate rp rp u c q) e tr).
Proof.
  unfold outs. induction q as [|i q IH]; intros e tr.
  { cbn [length loop]. do 2 apply wp_bind. unfold turn. wp_seq. injection Hk as <- <-. cbn [out ret]. wp_step.
    cbn [post trace after]. split; [done|]. by rewrite omap_app. }
  cbn [length]. generalize (S (length q)) as n, IH. clear IH. intros n IH. cbn [loop]. do 2 apply wp_bind.
  destruct (turn_step rp u c i q e tr) as [e' E]. eapply wp_of_run; [exact E|]. cbn [post]. wp_step. cbn [post].
  eapply wp_mono; [|apply IH]. intros o w' [-> ->]. split; [done|].
  rewrite omap_app. cbn. by rewrite <- app_assoc.
Qed.

Lemma rcv_main_reports rp u c q argv :
  exists w, rcv_main (S (length q)) argv (World (Qstate rp rp u c q) 0 []) = (Halt (HKilled 2), w) /\
    outs (trace w) = cat ["Hey, in "; arg_n argv 0; "["; fmt_d rp; "]! Pausing now ... [^C to exit..]"; nl] :: map (report rp) q.
Proof.
  enough (wp (rcv_main (S (length q)) argv) (fun o w' => o = Halt (HKilled 2) /\ outs (trace w') =
    cat ["Hey, in "; arg_n argv 0; "["; fmt_d rp; "]! Pausing now ... [^C to exit..]"; nl] :: map (report rp) q) (World (Qstate rp rp u c q) 0 [])) as H.
  { apply wp_run in H as (o & w & E & -> & H). by exists w. }
  unfold rcv_main. wp_seq. injection Hk as <- <-. cbn [ret]. change (0 =? -1) with false. wp_seq.
  injection Hk as <- <-. cbn [kern after ret].
  eapply wp_mono; [|apply wp_rcv_loop]. intros o w' [-> H]. cbn [post]. split; [done|exact H].
Qed.
