(* ===== verification/MyshSimple.v ===== *)
(** src/fork/mysh_simple/mysh_simple.c: the shell without arguments.  The buffer and the
    reading of a line are those of mysh.c ([Mysh]); a command is one word, and the two
    shells do the same with it. *)
From S2P Require Import Prelude CMonad CLib Mysh.

Section Code.
Context {K : Type} {HK : Kernel K}.

Definition Dprint (MYDEBUG : bool) (txt : string) : C K unit :=
  if negb MYDEBUG then mret tt else fprintf stderr txt.

(** fork, and what child and parent do; execlp returns only when it fails. *)
Definition run (cmd : list Z) : C K unit :=
  f ← sys "fork" [];
  if f =? -1 then perror "fork failed"
  else if f =? 0 then
    r ← sys "execlp" [AB cmd; AB cmd];
    (if r =? -1 then perror "exec failure";; exit 1 else halt_with (HExec (Some (text_of cmd)) [text_of cmd]))
  else
    r ← sys "wait" [];
    if r =? -1 then perror "wait";; exit 1 else mret tt.

(** One turn of [while (1)]; the state is [cmd]. *)
Definition iter (MYDEBUG : bool) (cmd : mem) : C K (mem + unit) :=
  printf PROMPT;;
  fflush stdout;;
  r ← syscall (Csys "fgets" [AI LEN]);
  if ret r =? 0 then mret (inl cmd)
  else
    cmd ← copy_in "cmd" cmd 0 (out r ++ [0]);
    s ← cstr "cmd" cmd 0;
    cmd ← wr "cmd" cmd (zlen s - 1) 0;
    s ← cstr "cmd" cmd 0;
    Dprint MYDEBUG (cat ["cmd: len="; fmt_d (to_int (zlen s)); ", cmd="; text_of s; nl]);;
    c ← rd "cmd" cmd 0;
    if c =? 0 then mret (inl cmd)
    else if strncmp (length s) (text_of s) "q" =? 0 then
      printf (cat ["q pressed."; nl]);;
      exit 0
    else
      run s;;
      mret (inl cmd).

Definition main (fuel : nat) (argv : list string) : C K unit :=
  let MYDEBUG := (1 <? argc argv) && (strcmp (arg_n argv 1) "-d" =? 0) in
  loop fuel (iter MYDEBUG) (uninit LEN).

End Code.

(** ** One turn *)

(** The answer [f] of fork decides what a turn does with the command [s]. *)
Definition simple_forked (s : list Z) (f : Z) (o : outcome (mem + unit)) : Prop :=
  match o with
  | Done (inl cmd) => f <> 0 /\ zlen cmd = LEN
  | Done (inr _) => False
  | Halt h =>
      (f = 0 /\ (h = HExec (Some (text_of s)) [text_of s] \/ h = HExit 1)) \/ (f <> 0 /\ f <> -1 /\ h = HExit 1)
  end.

Definition simple_turn {K} `{Kernel K} (s : list Z) (k : K) (o : outcome (mem + unit)) : Prop :=
  if decide (s = []) then exists cmd, o = Done (inl cmd) /\ zlen cmd = LEN
  else if decide (s = [113]) then o = Halt (HExit 0)
  else simple_forked s (ret (fst (kstep (Csys "fork" []) k))) o.

Section Turn.
Context {K : Type} {HK : Kernel K}.

Lemma wp_simple_run s cmd (w : world K) : zlen cmd = LEN ->
  wp (run s;; mret (inl cmd)) (fun o _ => simple_forked s (ret (fst (kstep (Csys "fork" []) (kern w)))) o) w.
Proof.
  intros Hl. unfold run. wp_seq. rewrite Hk. cbn [fst]. unfold simple_forked. destruct (Z.eqb_spec (ret r) (-1)) as [E|E].
  { wp_seq. split; [lia|done]. }
  destruct (Z.eqb_spec (ret r) 0) as [E0|E0]; wp_seq; wp_step; wp_seq; auto 10.
Qed.

Lemma wp_simple_iter dbg cmd (w : world K) r k s c :
  zlen cmd = LEN -> kstep fgets (kern w) = (r, k) -> ret r <> 0 -> text_line r -> out r = s ++ [c] ->
  wp (iter dbg cmd) (fun o _ => simple_turn s k o) w.
Proof.
  intros Hl Hk Hr Ht Ho. destruct (Ht Hr) as (Hlen & Hnz & Hby). rewrite Ho in *. unfold iter, simple_turn.
  do 5 wp_step. apply wp_syscall. cbn [kern]. intros r' k' E.
  unfold fgets in Hk. rewrite Hk in E. injection E as <- <-. cbn [post].
  destruct (Z.eqb_spec (ret r) 0); [done|]. rewrite Ho. apply wp_chop_line; [done..|]. intros tl Hl'.
  apply Forall_app in Hnz as [Hnz _]. apply Forall_app in Hby as [Hby _].
  wp_step. eapply wp_cstr; [by apply cstr_of_init|]. cbn [post].
  wp_step. unfold Dprint. apply wp_prints_only.
  { destruct (negb dbg); [apply prints_only_ret|apply prints_only_emit]. }
  intros tr'. cbn [post]. wp_step. eapply wp_rd; [apply (znth_line_at [])|]. cbn [post].
  destruct (decide (s = [])) as [->|Hs].
  { cbn [nth]. change (0 =? 0) with true. wp_seq. by eexists. }
  destruct s as [|b s]; [done|]. cbn [nth]. inversion Hnz; subst. destruct (Z.eqb_spec b 0); [done|].
  pose proof (strncmp_q (b :: s) Hby Hnz Hs) as Hq.
  destruct (Z.eqb_spec (strncmp (length (b :: s)) (text_of (b :: s)) "q") 0) as [Eq|Eq].
  { rewrite (proj1 Hq Eq). destruct (decide _); [|done]. by wp_seq. }
  destruct (decide (b :: s = [113])) as [E|_]; [tauto|]. by apply wp_simple_run.
Qed.

End Turn.

(** One turn: an empty line is ignored, "q" exits with 0, and any other line is executed
    as it stands, blanks included, by a child that the parent waits for. *)
Theorem mysh_simple_turn {K} `{Kernel K} dbg cmd (w : world K) r k s c :
  zlen cmd = LEN -> kstep fgets (kern w) = (r, k) -> ret r <> 0 -> text_line r -> out r = s ++ [c] ->
  simple_turn s k (fst (iter dbg cmd w)).
Proof. intros. by eapply wp_simple_iter. Qed.

(** The ways the process can end. *)
Definition simple_end (h : halt) : Prop :=
  h = HFuel \/ h = HExit 0 \/ h = HExit 1 \/ exists f, h = HExec (Some f) [f].

(** On any text input the shell stays inside [cmd] and ends only by "q", a failed wait or
    exec, or by becoming the command. *)
Theorem mysh_simple_safe {K} `{Kernel K} fuel argv (w : world K) :
  (forall k : K, text_line (fst (kstep fgets k))) ->
  exists h w', main fuel argv w = (Halt h, w') /\ simple_end h.
Proof.
  intros Hf. unfold main. set (dbg := _ && _).
  enough (wp (loop fuel (iter dbg) (uninit LEN)) (fun o _ => exists h, o = Halt h /\ simple_end h) w)
    as (o & w' & E & h & -> & Hh)%wp_run by (by exists h, w').
  apply (wp_loop (fun cmd _ => zlen cmd = LEN)); [by intros; exists HFuel; split; [|left]| |done].
  clear w. intros cmd w Hl. destruct (kstep fgets (kern w)) as [r k] eqn:E. pose proof (Hf (kern w)) as Ht. rewrite E in Ht.
  cbn [fst] in Ht. destruct (decide (ret r = 0)) as [E0|Hr].
  - unfold iter. do 5 wp_step. apply wp_syscall. cbn [kern]. intros r' k' E'. unfold fgets in E. rewrite E in E'.
    injection E' as <- <-. cbn [post]. rewrite E0. change (0 =? 0) with true. by wp_seq.
  - destruct (Ht Hr) as (Hlen & _ & _).
    destruct (exists_last (l := out r)) as (s & c & Ho); [intros E0; rewrite E0, zlen_nil in Hlen; lia|].
    eapply wp_mono; [|by eapply wp_simple_iter]. unfold simple_turn, simple_end. intros o w' Ht'.
    destruct (decide (s = [])); [by destruct Ht' as (cmd' & -> & ?)|].
    destruct (decide (s = [113])); [subst o; exists (HExit 0); auto|].
    destruct o as [[cmd'|z]|h]; cbn [post simple_forked] in *; [tauto|done|]. exists h. split; [done|].
    destruct Ht' as [[_ [->| ->]]|(_ & _ & ->)]; eauto 10.
Qed.

(** ** The two shells *)

Lemma split_blanks_one s : Forall (fun c => c <> SEP) s -> forall cur, cur ++ s <> [] -> split_blanks cur s = [cur ++ s].
Proof.
  induction 1 as [|b s Hb _ IH]; intros cur Hc; cbn [split_blanks]; [rewrite app_nil_r in *; by destruct cur|].
  destruct (Z.eqb_spec b SEP); [done|]. rewrite IH by (rewrite <- app_assoc; by destruct cur). by rewrite <- app_assoc.
Qed.

(** With a command that is one word, child and parent of both shells can end in the same
    ways (once mysh.c has its rusage). *)
Lemma shells_agree e s f h : s <> [] -> Forall (fun c => c <> SEP) s -> rusage e <> 0 ->
  simple_forked s f (Halt h) <-> forked e s f (Halt h).
Proof.
  intros Hs Hb Hr. unfold simple_forked, forked, child_end, tokens. rewrite split_blanks_one by done. cbn [app map].
  tauto.
Qed.
