(* ===== verification/UnixSock.v ===== *)
(** src/ipc/net_sockets/unix_domain: unix_svr.c forks for every client and greets it,
    unix_cli.c connects and prints what it reads.  The server's handler of SIGCHLD only
    prints; it runs where the server waits: the answer of accept holds the signals that
    arrived meanwhile. *)
From S2P Require Import Prelude CMonad CLib.

Definition SOCKET_NAME : string := "/run/sockname.sk".
Definition msg : string := "hello, unix domain socket world".
Definition SHUT_RDWR : Z := 2.
Definition SIGCHLD : Z := 17.
Definition BUFSIZE : Z := 80.

Section Code.
Context {K : Type} {HK : Kernel K}.

Definition die {A} (m : string) : C K A := perror m;; exit 1.

(** Both programs start with this test. *)
Definition need_root (name : string) : C K unit :=
  e ← sys "geteuid" [];
  bad ← (if negb (e =? 0) then mret true else u ← sys "getuid" []; mret (negb (u =? 0)));
  if (bad : bool) then fprintf stderr (cat [name; ": requires root (to create sock file under /run)."; nl]);; exit 1
  else mret tt.

Definition sig_child (signum : Z) : C K unit :=
  printf (cat ["sig_child(): signal "; fmt_d signum; ": using SA_NOCLDWAIT, so no zombie, no problem!"; nl]).

Fixpoint handle (sigs : list Z) : C K unit :=
  match sigs with
  | [] => mret tt
  | s :: sigs' => sig_child s;; handle sigs'
  end.

Definition child_server (sd ns : Z) : C K unit :=
  syscall (Cclose sd);;
  r ← syscall (Cwrite ns (bytes_of msg));
  (if ret r =? -1 then die "write error" else mret tt);;
  s ← sys "shutdown" [AI ns; AI SHUT_RDWR];
  (if s <? 0 then die "shutdown" else mret tt);;
  exit 0.

(** One turn of the server. *)
Definition serve (sd : Z) : C K unit :=
  r ← syscall (Csys "accept" [AI sd]);
  handle (out r);;
  let ns := ret r in
  (if ns =? -1 then die "socket accept error" else mret tt);;
  f ← sys "fork" [];
  if f =? -1 then perror "fork error";; fflush stdout
  else if f =? 0 then child_server sd ns
  else syscall (Cclose ns);; mret tt.

(** SA_RESTART | SA_NOCLDSTOP | SA_NOCLDWAIT *)
Definition svr_main (fuel : nat) (argv : list string) : C K unit :=
  need_root (arg_n argv 0);;
  sys "unlink" [AS SOCKET_NAME];;
  sd ← sys "socket" [];
  (if sd =? -1 then die "socket creation error" else mret tt);;
  r ← sys "bind" [AI sd; AS SOCKET_NAME];
  (if r =? -1 then die "socket bind error" else mret tt);;
  r ← sys "listen" [AI sd; AI 5];
  (if r =? -1 then die "socket listen error" else mret tt);;
  r ← sys "sigaction" [AI SIGCHLD; AS "sig_child"; AI 268435459; AI 0];
  (if r =? -1 then die "signal handling error" else mret tt);;
  loop fuel (fun _ : unit => serve sd;; mret (inl tt : unit + unit)) tt.

(** The client from the connection on. *)
Definition fetch (sd : Z) : C K unit :=
  r ← syscall (Cread sd BUFSIZE);
  (if ret r =? -1 then die "socket read error" else mret tt);;
  buf ← copy_in "buf" (uninit BUFSIZE) 0 (out r);
  buf ← wr "buf" buf (ret r) 0;
  s ← cstr "buf" buf 0;
  printf (cat ["Client: received msg from server:"; nl; dquote; text_of s; dquote; nl]);;
  c ← sys "shutdown" [AI sd; AI SHUT_RDWR];
  (if c <? 0 then die "shutdown" else mret tt);;
  exit 0.

Definition cli_main (argv : list string) : C K unit :=
  need_root (arg_n argv 0);;
  sd ← sys "socket" [];
  (if sd =? -1 then die "socket error" else mret tt);;
  r ← sys "connect" [AI sd; AS SOCKET_NAME];
  (if r =? -1 then die "socket connect error" else mret tt);;
  fetch sd.

End Code.

(** ** Specifications *)

Definition sig_line (s : Z) : event :=
  EvOut stdout (cat ["sig_child(): signal "; fmt_d s; ": using SA_NOCLDWAIT, so no zombie, no problem!"; nl]).

(** The end of both programs, after the shutdown that answered [c]. *)
Definition shut_spec (sd : Z) (o : outcome unit) (tr : list event) : Prop :=
  exists c, if ret c <? 0 then exists e, o = Halt (HExit 1) /\ tr = [EvCall (Csys "shutdown" [AI sd; AI SHUT_RDWR]) c; EvPerror "shutdown" e]
            else o = Halt (HExit 0) /\ tr = [EvCall (Csys "shutdown" [AI sd; AI SHUT_RDWR]) c].

Definition child_spec (sd ns : Z) (o : outcome unit) (tr : list event) : Prop :=
  exists rc r tr1, tr = [EvCall (Cclose sd) rc; EvCall (Cwrite ns (bytes_of msg)) r] ++ tr1 /\
    if ret r =? -1 then o = Halt (HExit 1) /\ tr1 = [EvPerror "write error" (err r)] else shut_spec ns o tr1.

(** One turn: a client that is accepted is greeted by a child, and the parent closes its
    copy of the connection, but not when fork failed. *)
Definition serve_spec (sd : Z) (o : outcome unit) (tr : list event) : Prop :=
  exists r tr1, tr = EvCall (Csys "accept" [AI sd]) r :: map sig_line (out r) ++ tr1 /\
    if ret r =? -1 then o = Halt (HExit 1) /\ tr1 = [EvPerror "socket accept error" (err r)]
    else exists f tr2, tr1 = EvCall (Csys "fork" []) f :: tr2 /\
      if ret f =? -1 then o = Done tt /\ tr2 = [EvPerror "fork error" (err f); EvFlush stdout]
      else if ret f =? 0 then child_spec sd (ret r) o tr2
      else o = Done tt /\ exists rc, tr2 = [EvCall (Cclose (ret r)) rc].

Definition received_line (s : list Z) : string :=
  cat ["Client: received msg from server:"; nl; dquote; text_of s; dquote; nl].

(** The client prints what it read up to the first NUL; a read that fills the buffer makes
    it write behind its end. *)
Definition fetch_spec (sd : Z) (o : outcome unit) (tr : list event) : Prop :=
  exists r tr1, tr = EvCall (Cread sd BUFSIZE) r :: tr1 /\
    if ret r =? -1 then o = Halt (HExit 1) /\ tr1 = [EvPerror "socket read error" (err r)]
    else ret r = zlen (out r) /\
      ((ret r = BUFSIZE /\ o = Halt (HUB (UB_bounds "buf" BUFSIZE)) /\ tr1 = []) \/
       (ret r < BUFSIZE /\ exists s tr2, cstr_of (init (out r) ++ [Some 0]) = Some s /\
          tr1 = EvOut stdout (received_line s) :: tr2 /\ shut_spec sd o tr2)).

Section Specs.
Context {K : Type} {HK : Kernel K}.

Lemma wp_shut sd (w : world K) :
  wp (c ← sys "shutdown" [AI sd; AI SHUT_RDWR]; (if c <? 0 then die "shutdown" else mret tt);; exit 0)
    (adds w (shut_spec sd)) w.
Proof.
  unfold die, adds, shut_spec. wp_seq. destruct (ret r <? 0) eqn:E; wp_seq; leaf; exists r; rewrite E; [|done].
  eexists. split; [done|]. reflexivity.
Qed.

Lemma wp_child_server sd ns (w : world K) : wp (child_server sd ns) (adds w (child_spec sd ns)) w.
Proof.
  unfold child_server, child_spec. wp_seq. destruct (ret r0 =? -1) eqn:E.
  - unfold die. wp_seq. leaf. exists r, r0. eexists. split; [reflexivity|]. rewrite E. split; [done|]. cbn [errno after].
    change (call_failed _ (ret r0)) with (ret r0 =? -1). by rewrite E.
  - wp_step. eapply wp_adds; [apply wp_shut|]. intros o w' tr Et Ho. eexists. split.
    + rewrite Et. cbn [trace after]. rewrite <- !app_assoc. reflexivity.
    + exists r, r0, tr. split; [done|]. by rewrite E.
Qed.

Lemma wp_handle sigs : forall (Q : outcome unit -> world K -> Prop) w,
  Q (Done tt) (World (kern w) (errno w) (trace w ++ map sig_line sigs)) -> wp (handle sigs) Q w.
Proof.
  induction sigs as [|s sigs IH]; intros Q w HQ; cbn [handle map] in *.
  - apply wp_ret. rewrite app_nil_r in HQ. by destruct w.
  - unfold sig_child. wp_step. wp_step. apply IH. cbn [kern errno trace]. by rewrite <- app_assoc.
Qed.

Lemma wp_unix_serve sd (w : world K) : wp (serve sd) (adds w (serve_spec sd)) w.
Proof.
  unfold serve, serve_spec. wp_seq. apply wp_handle. cbn [post]. wp_seq.
  destruct (ret r =? -1) eqn:Er.
  { unfold die. wp_seq. leaf. exists r. eexists. split; [reflexivity|]. rewrite Er. split; [done|]. cbn [errno after].
    change (call_failed _ (ret r)) with (ret r =? -1). by rewrite Er. }
  wp_seq. destruct (ret r0 =? -1) eqn:Ef.
  { wp_seq. leaf. exists r. eexists. split; [reflexivity|]. rewrite Er. exists r0. eexists. split; [reflexivity|]. rewrite Ef.
    split; [done|]. cbn [errno after]. change (call_failed _ (ret r0)) with (ret r0 =? -1). by rewrite Ef. }
  destruct (ret r0 =? 0) eqn:E0.
  - eapply wp_adds; [apply wp_child_server|]. intros o w' tr Et Ho. eexists. split.
    { rewrite Et. cbn [trace after]. rewrite <- !app_assoc. reflexivity. }
    exists r. eexists. split; [reflexivity|]. rewrite Er. exists r0, tr. split; [done|]. by rewrite Ef, E0.
  - wp_seq. leaf. exists r. eexists. split; [reflexivity|]. rewrite Er. exists r0. eexists. split; [reflexivity|].
    rewrite Ef, E0. split; [done|]. by eexists.
Qed.

Lemma wp_fetch `{!PosixKernel K} sd (w : world K) : wp (fetch sd) (adds w (fetch_spec sd)) w.
Proof.
  unfold fetch, fetch_spec. wp_call. apply wp_syscall_posix. intros r k [_ Hr] Hk. cbn [post]. wp_step.
  destruct (Z.eqb_spec (ret r) (-1)) as [E|E].
  { unfold die. wp_seq. leaf. exists r. eexists. split; [reflexivity|]. rewrite E. split; [done|]. cbn [errno after].
    change (call_failed _ (ret r)) with (ret r =? -1). by rewrite E. }
  destruct Hr as [|(H0 & Hl & _)]; [done|]. wp_step. cbn [post]. rewrite <- Hl in *. apply wp_terminated_then; [lia|..].
  - intros s Hs Ht. wp_step. wp_step. eapply wp_adds; [apply wp_shut|]. intros o w' tr Et Ho. eexists. split.
    { rewrite Et. cbn [trace after]. rewrite <- !app_assoc. reflexivity. }
    exists r. eexists. split; [reflexivity|]. destruct (Z.eqb_spec (ret r) (-1)); [lia|]. split; [done|]. right. split; [lia|].
    by exists s, tr.
  - intros Hs. leaf. exists r. eexists. split; [reflexivity|]. destruct (Z.eqb_spec (ret r) (-1)); [lia|]. split; [done|]. left.
    split; [lia|done].
Qed.

End Specs.

(** ** Server and client together *)

(** The connection carries bytes that the server's write accepted: the client reads a first
    part of them. *)
Definition wired (ns sd : Z) (trs trc : list event) : Prop :=
  forall rw rr, EvCall (Cwrite ns (bytes_of msg)) rw ∈ trs -> EvCall (Cread sd BUFSIZE) rr ∈ trc ->
    ret rw <> -1 -> ret rr <> -1 -> exists n, out rr = ztake n (ztake (ret rw) (bytes_of msg)).

Lemma msg_prefix n m : exists rest, bytes_of msg = ztake n (ztake m (bytes_of msg)) ++ rest.
Proof.
  unfold ztake. rewrite take_take. eexists. symmetry. apply take_drop.
Qed.

Lemma msg_nonzero : nonzero (bytes_of msg).
Proof. repeat constructor; done. Qed.

(** What the client prints of a first part of the greeting: all of it. *)
Lemma prefix_printed n m bs : bs = ztake n (ztake m (bytes_of msg)) ->
  zlen bs < BUFSIZE /\ cstr_of (init bs ++ [Some 0]) = Some bs /\ bs = ztake (zlen bs) (bytes_of msg).
Proof.
  intros ->. destruct (msg_prefix n m) as (rest & E). set (bs := ztake n _) in *. split_and!.
  - apply (f_equal zlen) in E. rewrite zlen_app in E. pose proof (zlen_nonneg rest). change (zlen (bytes_of msg)) with 31 in E.
    unfold BUFSIZE. lia.
  - apply cstr_of_init. pose proof msg_nonzero as H. rewrite E in H. by apply Forall_app in H as [? _].
  - rewrite E. unfold ztake, zlen. by rewrite Nat2Z.id, take_app_length.
Qed.

Lemma shut_no_io sd o tr : shut_spec sd o tr ->
  (o = Halt (HExit 0) \/ o = Halt (HExit 1)) /\ (forall c r, EvCall c r ∈ tr -> c = Csys "shutdown" [AI sd; AI SHUT_RDWR]).
Proof.
  intros (c & Hs). destruct (ret c <? 0); [destruct Hs as (e & -> & ->)|destruct Hs as [-> ->]];
    (split; [auto|]); intros c' r' Hin; repeat (apply elem_of_cons in Hin as [Hin|Hin]; [by simplify_eq|]); by apply elem_of_nil in Hin.
Qed.

(** Server and client of the Unix domain demo, joined by the connection: both end, the
    client never leaves its buffer, and what it prints is the part of the greeting that its
    read delivered, the whole greeting if all of it was. *)
Theorem unix_greeting {Ks Kc} `{HKs : Kernel Ks} `{HKc : PosixKernel Kc} lsd ns sd (ws : world Ks) (wc : world Kc) :
  exists os ws' trs oc wc' trc,
    child_server lsd ns ws = (os, ws') /\ trace ws' = trace ws ++ trs /\
    fetch sd wc = (oc, wc') /\ trace wc' = trace wc ++ trc /\
    (os = Halt (HExit 0) \/ os = Halt (HExit 1)) /\
    (wired ns sd trs trc -> forall rw, EvCall (Cwrite ns (bytes_of msg)) rw ∈ trs -> ret rw <> -1 ->
       (oc = Halt (HExit 0) \/ oc = Halt (HExit 1)) /\
       forall rr, EvCall (Cread sd BUFSIZE) rr ∈ trc -> ret rr <> -1 ->
         EvOut stdout (received_line (ztake (ret rr) (bytes_of msg))) ∈ trc).
Proof.
  destruct (wp_run _ _ _ (wp_child_server lsd ns ws)) as (os & ws' & Es & trs & Hts & Hs).
  destruct (wp_run _ _ _ (wp_fetch sd wc)) as (oc & wc' & Ec & trc & Htc & Hc).
  exists os, ws', trs, oc, wc', trc. split_and!; [done..| |].
  { destruct Hs as (? & r & tr1 & _ & Hs). destruct (ret r =? -1); [destruct Hs; auto|by apply shut_no_io in Hs as [? _]]. }
  intros Hwire rw Hrw Hok. destruct Hc as (r & tr1 & -> & Hc).
  assert (ret r <> -1 -> exists n m, out r = ztake n (ztake m (bytes_of msg))) as Hpre.
  { intros Hr. destruct (Hwire rw r Hrw (list_elem_of_here _ _) Hok Hr) as [n E]. eauto. }
  destruct (Z.eqb_spec (ret r) (-1)) as [Er|Er].
  { destruct Hc as [-> ->]. split; [auto|]. intros rr [[= ->]|Hin]%elem_of_cons; [done|].
    by apply list_elem_of_singleton in Hin. }
  destruct Hpre as (n & m & Hpre); [done|]. destruct (prefix_printed _ _ _ Hpre) as (Hlt & Hs' & Heq).
  destruct Hc as (El & [(Eb & _)|(_ & s & tr2 & Hcs & -> & Hsh)]); [unfold BUFSIZE in *; lia|].
  assert (s = out r) as -> by congruence. apply shut_no_io in Hsh as [Ho Hno]. split; [done|].
  intros rr Hin _. apply elem_of_cons in Hin as [[= ->]|[Hin|Hin]%elem_of_cons]; [|done|by apply Hno in Hin].
  rewrite El, <- Heq. apply list_elem_of_further, list_elem_of_here.
Qed.

(** ** The server's descriptors *)

Definition count (f : event -> bool) (tr : list event) : nat := length (List.filter f tr).

Definition accepted (e : event) : bool :=
  match e with EvCall (Csys "accept" _) r => negb (ret r =? -1) | _ => false end.

Definition closed (e : event) : bool := match e with EvCall (Cclose _) _ => true | _ => false end.

Definition unforked (e : event) : bool :=
  match e with EvCall (Csys "fork" _) r => ret r =? -1 | _ => false end.

(** Connections that were accepted and not closed are those whose fork failed. *)
Definition balanced (tr : list event) : Prop := count accepted tr = (count closed tr + count unforked tr)%nat.

Lemma count_app f a b : count f (a ++ b) = (count f a + count f b)%nat.
Proof. unfold count. by rewrite List.filter_app, length_app. Qed.

Lemma balanced_app a b : balanced a -> balanced b -> balanced (a ++ b).
Proof. unfold balanced. rewrite !count_app. lia. Qed.

Lemma count_lines f sigs : (forall t, f (EvOut stdout t) = false) -> count f (map sig_line sigs) = 0%nat.
Proof. intros Hf. induction sigs as [|s sigs IH]; [done|]. unfold count in *. cbn [map List.filter]. unfold sig_line at 1. by rewrite Hf. Qed.

Lemma serve_balanced sd o tr : serve_spec sd o tr ->
  (o = Done tt -> balanced tr) /\ (o = Done tt \/ o = Halt (HExit 0) \/ o = Halt (HExit 1)).
Proof.
  intros (r & tr1 & -> & Hs). destruct (ret r =? -1) eqn:Er; [destruct Hs as [-> _]; split; [done|auto]|].
  destruct Hs as (f & tr2 & -> & Hs).
  assert (forall g, (forall t, g (EvOut stdout t) = false) ->
    count g (EvCall (Csys "accept" [AI sd]) r :: map sig_line (out r) ++ EvCall (Csys "fork" []) f :: tr2) =
    (count g [EvCall (Csys "accept" [AI sd]) r] + count g [EvCall (Csys "fork" []) f] + count g tr2)%nat) as Hc.
  { intros g Hg. pose proof (count_app g [EvCall (Csys "accept" [AI sd]) r] (map sig_line (out r) ++ EvCall (Csys "fork" []) f :: tr2)) as E1.
    pose proof (count_app g [EvCall (Csys "fork" []) f] tr2) as E2. cbn [app] in *.
    rewrite count_app, count_lines in E1 by done. lia. }
  destruct (ret f =? -1) eqn:Ef; [|destruct (ret f =? 0)].
  - destruct Hs as [-> ->]. split; [intros _|auto]. unfold balanced. rewrite !Hc by done. unfold count. cbn. by rewrite Er, Ef.
  - destruct Hs as (? & r' & tr3 & _ & Hs). destruct (ret r' =? -1); [destruct Hs as [-> _]; split; [done|auto]|].
    apply shut_no_io in Hs as [[->| ->] _]; (split; [done|auto]).
  - destruct Hs as (-> & rc & ->). split; [intros _|auto]. unfold balanced. rewrite !Hc by done. unfold count. cbn. by rewrite Er, Ef.
Qed.

(** The loop of the server, for as long as it runs: it ends only when accept fails or in a
    child; while it goes on, a connection stays open in it for every fork that failed,
    and for no other client. *)
Theorem unix_server_descriptors {K} `{Kernel K} fuel sd (w : world K) :
  exists o w' tr, loop fuel (fun _ : unit => serve sd;; mret (inl tt : unit + unit)) tt w = (o, w') /\ trace w' = trace w ++ tr /\
    (o = Halt HFuel /\ balanced tr \/ o = Halt (HExit 0) \/ o = Halt (HExit 1)).
Proof.
  apply wp_trace. eapply (wp_loop (fun _ w' => exists tr, trace w' = trace w ++ tr /\ balanced tr)).
  - intros _ w' (tr & Et & Hb). eauto 10.
  - intros _ w' (tr & Et & Hb). wp_step. eapply wp_adds; [apply wp_unix_serve|]. intros o w2 tr2 Et2 Hs.
    apply serve_balanced in Hs as [Hs Ho]. rewrite Et, <- app_assoc in Et2. destruct Ho as [->|Ho].
    + wp_step. eexists. split; [exact Et2|]. apply balanced_app; auto.
    + assert (exists h, o = Halt h) as [h ->] by naive_solver. cbn [post]. eexists. split; [exact Et2|]. naive_solver.
  - exists []. by rewrite app_nil_r.
Qed.

(** ** The whole programs *)

Lemma wp_need_root {K} `{Kernel K} name (Q : outcome unit -> world K -> Prop) w :
  (forall w', Q (Done tt) w') -> (forall w', Q (Halt (HExit 1)) w') -> wp (need_root name) Q w.
Proof. intros H1 H2. unfold need_root. wp_go; auto. Qed.

(** Whatever happens the client ends with 0 or 1, unless its read fills the whole buffer. *)
Theorem unix_client_ends {K} `{PosixKernel K} argv (w : world K) :
  exists o w', cli_main argv w = (o, w') /\
    (o = Halt (HExit 0) \/ o = Halt (HExit 1) \/
     o = Halt (HUB (UB_bounds "buf" BUFSIZE)) /\ exists sd r, EvCall (Cread sd BUFSIZE) r ∈ trace w' /\ ret r = BUFSIZE).
Proof.
  apply wp_run. unfold cli_main, die. wp_step. apply wp_need_root; [|intros w1; cbn [post]; auto]. intros w1. cbn [post].
  wp_seq. destruct (ret r =? -1); [wp_seq; auto|]. wp_seq. destruct (ret r0 =? -1); [wp_seq; auto|]. wp_seq.
  eapply wp_adds; [apply wp_fetch|]. intros o w' tr Et (r' & tr1 & -> & Ho).
  destruct (ret r' =? -1); [destruct Ho as [-> _]; auto|]. destruct Ho as (_ & [(Eb & -> & ->)|(_ & s & tr2 & _ & _ & Hsh)]).
  - right. right. split; [done|]. exists (ret r), r'. split; [|done]. rewrite Et. apply elem_of_app. right. apply list_elem_of_here.
  - apply shut_no_io in Hsh as [? _]. tauto.
Qed.

(** The server refuses to run without root, ends with 1 when its socket cannot be set up,
    and otherwise serves for ever. *)
Theorem unix_server_ends {K} `{Kernel K} fuel argv (w : world K) :
  exists o w', svr_main fuel argv w = (o, w') /\ (o = Halt HFuel \/ o = Halt (HExit 0) \/ o = Halt (HExit 1)).
Proof.
  apply wp_run. unfold svr_main, die. wp_step. apply wp_need_root; [|intros w1; cbn [post]; auto]. intros w1. cbn [post].
  do 4 (wp_seq; match goal with |- wp (if ret ?r =? -1 then _ else _) _ _ => destruct (ret r =? -1); [wp_seq; auto|] end). wp_seq.
  match goal with |- wp _ _ ?w' => destruct (unix_server_descriptors fuel (ret r0) w') as (o & w2 & tr & E & _ & Ho) end.
  eapply wp_of_run; [exact E|]. tauto.
Qed.
