(* ===== verification/Nano.v ===== *)
(** src/signalling/nano.c: sleeping for ten seconds while signals arrive, with sleep(3),
    which a signal cuts short, and with nanosleep(2) called again for the time that
    remains; and src/signalling/sleepsafe.c, a function that does the latter.  A call that a signal interrupts answers with the signal, whose handler
    runs before the call returns, and with the time that is left. *)
From S2P Require Import Prelude CMonad CLib.

Definition SIGINT : Z := 2.
Definition SIGQUIT : Z := 3.
Definition nsec : Z := 10.

(** A struct timespec. *)
Record timespec := Timespec { tv_sec : Z; tv_nsec : Z }.

Section Code.
Context {K : Type} {HK : Kernel K}.

Definition sig (signum : Z) : C K unit := printf (cat ["**Signal "; fmt_d signum; " interruption!**"; nl]).

(** sleep(3) returns the seconds left; it was interrupted when there are any. *)
Definition sleep (n : Z) : C K Z :=
  r ← syscall (Csys "sleep" [AI n]);
  match out r with
  | [signum] => sig signum;; mret (ret r)
  | _ => mret (ret r)
  end.

(** nanosleep(&req, &rem): its value, and what it stores in rem when a signal ends it. *)
Definition nanosleep (req rem : timespec) : C K (Z * timespec) :=
  r ← syscall (Csys "nanosleep" [AI (tv_sec req); AI (tv_nsec req)]);
  match out r with
  | [signum; s; n] => sig signum;; mret (ret r, Timespec s n)
  | _ => mret (ret r, rem)
  end.

(** The loop of sleepsafe; the state is req and rem. *)
Definition sleep_iter (verbose : bool) (st : timespec * timespec) : C K (timespec * timespec + unit) :=
  let '(req, rem) := st in
  '(r, rem) ← nanosleep req rem;
  e ← get_errno;
  if (r =? -1) && (e =? EINTR) then
    (if verbose then
       printf (cat ["nanosleep interrupted: rem time: "; fmt_0wd 7 (tv_sec rem); "."; fmt_0wd 7 (tv_nsec rem); nl])
     else mret tt);;
    mret (inl (rem, rem))
  else mret (inr tt).

Definition sleepsafe (fuel : nat) (rem0 : timespec) (sec nsec : Z) (verbose : bool) : C K Z :=
  loop fuel (sleep_iter verbose) (Timespec sec nsec, rem0);;
  mret 0.

(** main of sleepsafe.c. *)
Definition safe_main (fuel : nat) (rem0 : timespec) (argv : list string) : C K unit :=
  (if argc argv <? 3 then
     fprintf stderr (cat ["Usage: "; arg_n argv 0; " sleep_seconds sleep_nanoseconds"; nl]);; exit 1
   else mret tt);;
  let sec := atoi (arg_n argv 1) in
  let nsec := atoi (arg_n argv 2) in
  printf (cat ["sleep for "; fmt_d sec; "."; fmt_d nsec; " s now..."; nl]);;
  sleepsafe fuel rem0 sec nsec true;;
  exit 0.

(** The loop of nano.c. *)
Definition nano_iter : timespec * timespec -> C K (timespec * timespec + unit) := sleep_iter true.

Definition main (fuel : nat) (rem0 : timespec) (argv : list string) : C K unit :=
  (if argc argv =? 1 then
     fprintf stderr (cat ["Usage: "; arg_n argv 0; " option=[0|1]"; nl; "0 : uses the sleep(3) function"; nl;
                          "1 : uses the nanosleep(2) syscall"; nl]);;
     exit 1
   else mret tt);;
  a ← sys "sigaction" [AI SIGINT; AS "sig"; AI 268435456; AI 0];
  bad ← (if negb (a =? 0) then mret true else b ← sys "sigaction" [AI SIGQUIT; AS "sig"; AI 268435456; AI 0]; mret (b =? -1));
  (if (bad : bool) then perror "sigaction failure";; exit 1 else mret tt);;
  printf (cat ["sleep for "; fmt_d nsec; " s now..."; nl]);;
  (if atoi (arg_n argv 1) =? 0 then
     ret ← sleep nsec;
     printf (cat ["sleep returned "; fmt_d (wrapu 32 ret); nl])
   else if atoi (arg_n argv 1) =? 1 then loop fuel nano_iter (Timespec nsec 0, rem0)
   else mret tt);;
  exit 0.

End Code.

(** ** Time *)

Definition NSEC_PER_SEC : Z := 1000000000.

Definition nanos (t : timespec) : Z := tv_sec t * NSEC_PER_SEC + tv_nsec t.

(** What the kernel promises of nanosleep: it returns 0 when the time is over; a signal
    makes it fail with EINTR after some time, and it stores what is left, a normal
    timespec; any other failure stores nothing. *)
Definition nanosleep_ok (s n : Z) (r : resp) : Prop :=
  (ret r = 0 /\ out r = []) \/
  (ret r = -1 /\ err r = EINTR /\ exists signum s' n', out r = [signum; s'; n'] /\
     0 <= s' /\ 0 <= n' < NSEC_PER_SEC /\ nanos (Timespec s' n') < nanos (Timespec s n)) \/
  (ret r = -1 /\ err r <> EINTR /\ out r = []).

Class SleepKernel (K : Type) {HK : Kernel K} :=
  sleep_ok : forall s n (k : K), nanosleep_ok s n (fst (kstep (Csys "nanosleep" [AI s; AI n]) k)).

(** How long a call slept. *)
Definition slept_call (s n : Z) (r : resp) : Z :=
  match out r with
  | [_; s'; n'] => nanos (Timespec s n) - nanos (Timespec s' n')
  | _ => if ret r =? 0 then nanos (Timespec s n) else 0
  end.

Definition slept (tr : list event) : Z :=
  foldr (fun e acc => match e with EvCall (Csys "nanosleep" [AI s; AI n]) r => slept_call s n r + acc | _ => acc end) 0 tr.

(** The signals that interrupted, and the handler's lines. *)
Definition interruptions (tr : list event) : nat :=
  length (List.filter (fun e => match e with EvCall (Csys "nanosleep" _) r => ret r =? -1 | _ => false end) tr).

Definition failed_otherwise (tr : list event) : Prop :=
  exists c r, EvCall c r ∈ tr /\ ret r = -1 /\ err r <> EINTR.

Lemma slept_app a b : slept (a ++ b) = slept a + slept b.
Proof.
  unfold slept. induction a as [|e a IH]; [done|]. cbn [app foldr]. rewrite IH.
  repeat (case_match; try done); lia.
Qed.

Lemma slept_out s t : slept [EvOut s t] = 0.
Proof. done. Qed.

Section Sleeping.
Context {K : Type} {HK : Kernel K} {HS : SleepKernel K}.

Definition normal (t : timespec) : Prop := 0 <= tv_sec t /\ 0 <= tv_nsec t < NSEC_PER_SEC.

(** A call of nanosleep and its test: the time is over, a signal left less of it, or the
    call failed. *)
Lemma wp_sleep_iter verbose req rem (Q : outcome (timespec * timespec + unit) -> world K -> Prop) w :
  (forall w' tr, trace w' = trace w ++ tr -> slept tr = nanos req -> Q (Done (inr tt)) w') ->
  (forall w' tr rem', trace w' = trace w ++ tr -> normal rem' -> nanos rem' < nanos req -> slept tr + nanos rem' = nanos req ->
     Q (Done (inl (rem', rem'))) w') ->
  (forall w' tr, trace w' = trace w ++ tr -> failed_otherwise tr -> Q (Done (inr tt)) w') ->
  wp (sleep_iter verbose (req, rem)) Q w.
Proof.
  intros H1 H2 H3. unfold sleep_iter, nanosleep. wp_seq. pose proof (HS (tv_sec req) (tv_nsec req) (kern w)) as Hok.
  rewrite Hk in Hok. cbn [fst] in Hok. destruct req as [s n]. cbn [tv_sec tv_nsec] in *.
  destruct Hok as [(Er & Eo)|[(Er & Ee & sg & s' & n' & Eo & Hs & Hn & Hlt)|(Er & Ee & Eo)]]; rewrite Eo, Er.
  - change (0 =? -1) with false. cbn [andb]. wp_seq. eapply H1; [reflexivity|]. cbn. unfold slept_call. rewrite Eo, Er. cbn. lia.
  - unfold sig. wp_seq. cbn [errno after]. rewrite Er, Ee. change (call_failed _ (-1)) with true. change (-1 =? -1) with true.
    cbv iota. change (EINTR =? EINTR) with true. cbn [andb]. wp_step.
    destruct verbose; wp_seq;
      (eapply (H2 _ _ (Timespec s' n')); [cbn [trace after]; rewrite <- !app_assoc; reflexivity|done|done|];
       cbn; unfold slept_call; rewrite Eo; lia).
  - wp_seq. cbn [errno after]. rewrite Er. change (call_failed _ (-1)) with true. change (-1 =? -1) with true. cbv iota. cbn [andb].
    destruct (Z.eqb_spec (err r) EINTR); [done|]. wp_seq. eapply H3; [reflexivity|]. exists (Csys "nanosleep" [AI s; AI n]), r.
    split; [apply list_elem_of_here|done].
Qed.

Lemma failed_app a b : failed_otherwise b -> failed_otherwise (a ++ b).
Proof. intros (c & r & Hin & H). exists c, r. split; [|done]. apply elem_of_app. by right. Qed.

(** The loop ends, having slept the whole time. *)
Lemma wp_sleep_loop verbose fuel req rem0 (w : world K) : normal req -> nanos req < Z.of_nat fuel ->
  wp (loop fuel (sleep_iter verbose) (req, rem0))
     (fun o w' => o = Done tt /\ exists tr, trace w' = trace w ++ tr /\ (slept tr = nanos req \/ failed_otherwise tr)) w.
Proof.
  intros Hn Hf.
  assert (forall t, normal t -> 0 <= nanos t) as Hpos by (intros [s n] [? ?]; unfold nanos, NSEC_PER_SEC in *; cbn in *; lia).
  apply (wp_loop_total (fun st w' => normal (fst st) /\ exists tr, trace w' = trace w ++ tr /\ slept tr + nanos (fst st) = nanos req)
    (fun st _ => Z.to_nat (nanos (fst st)))).
  - intros [q rem] w1 (Hq & tr & Et & El). cbn [fst] in *. apply wp_sleep_iter.
    + intros w' tr' Et' Es. cbn [post]. split; [done|]. exists (tr ++ tr'). rewrite Et', Et, <- app_assoc, slept_app. split; [done|]. left. lia.
    + intros w' tr' rem' Et' Hr' Hlt Es. cbn [post fst]. split; [|pose proof (Hpos _ Hr'); lia]. split; [done|]. exists (tr ++ tr').
      rewrite Et', Et, <- app_assoc, slept_app. split; [done|lia].
    + intros w' tr' Et' Hx. cbn [post]. split; [done|]. exists (tr ++ tr'). rewrite Et', Et, <- app_assoc. split; [done|]. right. by apply failed_app.
  - split; [done|]. exists []. rewrite app_nil_r. split; [done|]. cbn. lia.
  - cbn [fst]. pose proof (Hpos _ Hn). lia.
Qed.

End Sleeping.


(** A kernel on which one signal arrives, when a second was slept. *)
#[local] Instance once_kernel : Kernel bool := fun c k =>
  match c with
  | Csys "nanosleep" [AI s; AI n] =>
      if k && (1 <=? s) && (0 <=? n) && (n <? NSEC_PER_SEC) then (Resp (-1) EINTR [SIGINT; s - 1; n], false)
      else (Resp 0 0 [], k)
  | _ => (Resp 0 0 [], k)
  end.

#[local] Instance once_sleeps : SleepKernel bool.
Proof.
  intros s n k. unfold nanosleep_ok. change (kstep ?c k) with (once_kernel c k). cbn [once_kernel].
  destruct (k && (1 <=? s) && (0 <=? n) && (n <? NSEC_PER_SEC)) eqn:E; [|by left].
  rewrite !andb_true_iff, !Z.leb_le, Z.ltb_lt in E. destruct E as [[[_ H1] H2] H3]. right. left. cbn [fst ret err out].
  split; [done|]. split; [done|]. exists SIGINT, (s - 1), n. unfold nanos, NSEC_PER_SEC in *. cbn [tv_sec tv_nsec].
  split; [done|]. lia.
Qed.


(** With option 0 the program sleeps once: what a signal left of the ten seconds is
    printed, and lost. *)
Lemma nano_sleep_once {K} `{Kernel K} fuel rem0 argv (w : world K) :
  1 < argc argv -> atoi (arg_n argv 1) = 0 ->
  exists o w' tr, main fuel rem0 argv w = (o, w') /\ trace w' = trace w ++ tr /\
    (o = Halt (HExit 1) \/
     o = Halt (HExit 0) /\ exists r, EvCall (Csys "sleep" [AI nsec]) r ∈ tr /\
       EvOut stdout (cat ["sleep returned "; fmt_d (wrapu 32 (ret r)); nl]) ∈ tr).
Proof.
  intros Ha Hopt. apply wp_trace. unfold main, sleep. destruct (Z.eqb_spec (argc argv) 1); [lia|]. rewrite Hopt.
  wp_seq. destruct (negb (ret r =? 0)); [wp_seq|wp_seq; destruct (ret r0 =? -1)]; wp_seq; [leaf; by left..|].
  change (0 =? 0) with true. cbv iota. wp_seq. unfold sig. wp_go; leaf; right; (split; [done|]); exists r1; split; ev_in.
Qed.

(** The fraction of a second is printed without its leading zeros: 9.005 seconds read as
    if they were 9.5. *)
Lemma nano_fraction : cat [fmt_0wd 7 9; "."; fmt_0wd 7 5000000] = "0000009.5000000".
Proof. reflexivity. Qed.

(** sleepsafe.c sleeps exactly the time it is given, whatever signals arrive, unless
    nanosleep fails for another reason; it exits with 0 in both cases. *)
Theorem sleepsafe_sleeps {K} `{HS : SleepKernel K} fuel rem0 argv (w : world K) :
  let req := Timespec (atoi (arg_n argv 1)) (atoi (arg_n argv 2)) in
  normal req -> nanos req < Z.of_nat fuel ->
  exists o w' tr, safe_main fuel rem0 argv w = (o, w') /\ trace w' = trace w ++ tr /\
    if argc argv <? 3 then o = Halt (HExit 1) /\ slept tr = 0
    else o = Halt (HExit 0) /\ (slept tr = nanos req \/ failed_otherwise tr).
Proof.
  intros req Hn Hf. apply wp_trace. unfold safe_main, sleepsafe. destruct (argc argv <? 3); [by wp_seq; leaf|].
  wp_seq. eapply wp_mono; [|by apply wp_sleep_loop]. intros o w' (-> & tr & Et & Hs). cbn [post]. wp_seq.
  eexists. split; [rewrite Et; cbn [trace after]; rewrite <- !app_assoc; reflexivity|]. split; [done|].
  rewrite !slept_app. destruct Hs as [Hs|Hs]; [left; rewrite Hs; done|right; by repeat apply failed_app].
Qed.
