(* ===== verification/ShowIp.v ===== *)
(** src/ipc/net_sockets/inet_domain/beej_newer/showip_getaddrinfo/showip.c: the addresses
    of a host.  The list that getaddrinfo gives, the texts of inet_ntop and of gai_strerror
    are parameters. *)
From S2P Require Import Prelude CMonad CLib.

Definition AF_INET : Z := 2.

(** An element of the list; the port is in network byte order. *)
Record addrinfo := Addrinfo {
  ai_family : Z; ai_protocol : Z; sin_addr : list Z; sin_port : Z; ai_canonname : option string }.

Definition ntohs (p : Z) : Z := Z.lor (Z.shiftl (Z.land p 255) 8) (Z.land (Z.shiftr p 8) 255).

Section Code.
Context {K : Type} {HK : Kernel K}.
Context (gai_strerror : Z -> string) (inet_ntop : Z -> list Z -> string).

(** Printing a null pointer with %s is undefined. *)
Definition show (p : addrinfo) : C K unit :=
  let port := ntohs (sin_port p) in
  let ipver := if ai_family p =? AF_INET then "IPv4" else "IPv6" in
  let ipstr := inet_ntop (ai_family p) (sin_addr p) in
  let proto := if ai_protocol p =? 6 then Some "tcp" else if ai_protocol p =? 17 then Some "udp" else None in
  (match proto with
   | Some proto => printf (cat [" "; ipver; ": "; ipstr; " "; proto])
   | None => undefined (UB_null "proto")
   end);;
  (if negb (port =? 0) then printf (cat [" port "; fmt_d port; nl]) else printf nl);;
  match ai_canonname p with
  | Some c => printf (cat [" canonname: "; c; nl])
  | None => mret tt
  end.

Fixpoint show_all (res : list addrinfo) : C K unit :=
  match res with
  | [] => mret tt
  | p :: res' => show p;; show_all res'
  end.

Definition main (res : list addrinfo) (argv : list string) : C K Z :=
  if negb (argc argv =? 3) then
    fprintf stderr (cat ["usage: showip hostname service"; nl]);; mret 1
  else
    status ← sys "getaddrinfo" [AS (arg_n argv 1); AS (arg_n argv 2)];
    if negb (status =? 0) then
      fprintf stderr (cat ["getaddrinfo: "; gai_strerror status; nl]);; mret 2
    else
      printf (cat ["IP addresses for "; arg_n argv 1; ":"; arg_n argv 2; nl; nl]);;
      show_all res;;
      sys "freeaddrinfo" [];;
      mret 0.

End Code.

(** ** What is shown *)

(** The port as the host reads it. *)
Lemma ntohs_swaps hi lo : 0 <= hi < 256 -> 0 <= lo < 256 -> ntohs (lo * 256 + hi) = hi * 256 + lo.
Proof.
  intros Hh Hl. unfold ntohs. change 255 with (Z.ones 8). rewrite Z.shiftl_mul_pow2, Z.shiftr_div_pow2, !Z.land_ones by lia.
  change (2 ^ 8) with 256.
  replace ((lo * 256 + hi) mod 256) with hi by (rewrite Z.add_comm, Z.mod_add by lia; by rewrite Z.mod_small by lia).
  replace ((lo * 256 + hi) / 256) with lo by (rewrite Z.add_comm, Z.div_add by lia; rewrite Z.div_small by lia; lia).
  rewrite (Z.mod_small lo) by lia. rewrite <- Z.add_lor_land.
  replace (Z.land (hi * 256) lo) with 0; [lia|]. apply Z.bits_inj'. intros i Hi. rewrite Z.land_spec, Z.bits_0.
  change 256 with (2 ^ 8). destruct (Z.lt_ge_cases i 8).
  - by rewrite Z.mul_pow2_bits_low by lia.
  - destruct (Z.eq_dec lo 0) as [->|]; [by rewrite Z.bits_0, andb_false_r|].
    rewrite (Z.bits_above_log2 lo i), andb_false_r; [done|lia|]. apply Z.log2_lt_pow2; [lia|].
    apply (Z.lt_le_trans _ (2 ^ 8)); [lia|]. by apply Z.pow_le_mono_r.
Qed.

(** An entry that can be shown, and its lines. *)
Definition shown (p : addrinfo) : bool := (ai_protocol p =? 6) || (ai_protocol p =? 17).

Definition entry (inet_ntop : Z -> list Z -> string) (p : addrinfo) : list string :=
  [cat [" "; if ai_family p =? AF_INET then "IPv4" else "IPv6"; ": "; inet_ntop (ai_family p) (sin_addr p); " ";
        if ai_protocol p =? 6 then "tcp" else "udp"];
   if ntohs (sin_port p) =? 0 then nl else cat [" port "; fmt_d (ntohs (sin_port p)); nl]] ++
  match ai_canonname p with Some c => [cat [" canonname: "; c; nl]] | None => [] end.

Fixpoint until_bad (l : list addrinfo) : list addrinfo :=
  match l with [] => [] | p :: l' => if shown p then p :: until_bad l' else [] end.

(** The run that got the list [res]: every entry in order, up to the first one whose
    protocol is neither TCP nor UDP, where the program leaves defined behaviour. *)
Definition shows_list (inet_ntop : Z -> list Z -> string) (res : list addrinfo) (o : outcome Z) (tr : list event) : Prop :=
  exists tr1, tr = map (EvOut stdout) (concat (map (entry inet_ntop) (until_bad res))) ++ tr1 /\
    if forallb shown res then o = Done 0 /\ exists r, tr1 = [EvCall (Csys "freeaddrinfo" []) r]
    else o = Halt (HUB (UB_null "proto")) /\ tr1 = [].

Section Shown.
Context {K : Type} {HK : Kernel K}.
Context (gai_strerror : Z -> string) (inet_ntop : Z -> list Z -> string).

Lemma wp_show_addr p (Q : outcome unit -> world K -> Prop) w :
  (if shown p then Q (Done tt) (World (kern w) (errno w) (trace w ++ map (EvOut stdout) (entry inet_ntop p)))
   else Q (Halt (HUB (UB_null "proto"))) w) ->
  wp (show inet_ntop p) Q w.
Proof.
  unfold show, shown, entry. intros HQ. wp_step.
  destruct (ai_protocol p =? 6) eqn:E6; [|destruct (ai_protocol p =? 17) eqn:E17; [|wp_step; exact HQ]];
    cbn [orb] in HQ; wp_step; wp_step; destruct (ntohs (sin_port p) =? 0); cbn [negb]; wp_step;
    destruct (ai_canonname p); wp_step; cbn [kern errno trace app map] in *; rewrite <- ?app_assoc; exact HQ.
Qed.

Lemma wp_show_all res : forall (Q : outcome unit -> world K -> Prop) w,
  (let w' := World (kern w) (errno w) (trace w ++ map (EvOut stdout) (concat (map (entry inet_ntop) (until_bad res)))) in
   if forallb shown res then Q (Done tt) w' else Q (Halt (HUB (UB_null "proto"))) w') ->
  wp (show_all inet_ntop res) Q w.
Proof.
  induction res as [|p res IH]; intros Q w; cbn [show_all until_bad map concat forallb].
  { cbn zeta. rewrite app_nil_r. intros HQ. apply wp_ret. by destruct w. }
  intros HQ. wp_step. apply wp_show_addr. destruct (shown p); cbn [map concat andb] in HQ.
  - cbn [post]. apply IH. cbn [kern errno trace] in *. by rewrite <- app_assoc, <- map_app.
  - cbn [post]. cbn zeta in HQ. rewrite app_nil_r in HQ. by destruct w.
Qed.

End Shown.

(** The whole program: wrong arguments, a host that is not found, or the list. *)
Theorem showip_shows {K} `{Kernel K} gai_strerror inet_ntop res argv (w : world K) :
  exists o w' tr, main gai_strerror inet_ntop res argv w = (o, w') /\ trace w' = trace w ++ tr /\
    if negb (argc argv =? 3) then o = Done 1 /\ tr = [EvOut stderr (cat ["usage: showip hostname service"; nl])]
    else exists r tr1, tr = EvCall (Csys "getaddrinfo" [AS (arg_n argv 1); AS (arg_n argv 2)]) r :: tr1 /\
      if negb (ret r =? 0) then o = Done 2 /\ tr1 = [EvOut stderr (cat ["getaddrinfo: "; gai_strerror (ret r); nl])]
      else exists tr2, tr1 = EvOut stdout (cat ["IP addresses for "; arg_n argv 1; ":"; arg_n argv 2; nl; nl]) :: tr2 /\
        shows_list inet_ntop res o tr2.
Proof.
  apply wp_trace. unfold main, shows_list. destruct (argc argv =? 3); cbn [negb]; [|wp_go; by leaf].
  wp_seq. destruct (ret r =? 0) eqn:E; cbn [negb].
  2:{ wp_go. leaf. exists r. eexists. split; [reflexivity|]. by rewrite E. }
  wp_step. wp_step. wp_step. apply wp_show_all. cbn [post kern errno trace after]. destruct (forallb shown res) eqn:Ef.
  - wp_go. leaf. exists r. eexists. split; [reflexivity|]. rewrite E. eexists. split; [reflexivity|].
    eexists. split; [reflexivity|]. split; [done|]. by eexists.
  - leaf. exists r. eexists. split; [reflexivity|]. rewrite E. eexists. split; [reflexivity|].
    exists []. by rewrite app_nil_r.
Qed.

(** An entry for a raw socket, which the hints do not exclude, is enough. *)
Lemma showip_raw_entry : until_bad [Addrinfo 2 6 [127; 0; 0; 1] 20480 None; Addrinfo 2 0 [127; 0; 0; 1] 20480 None] =
  [Addrinfo 2 6 [127; 0; 0; 1] 20480 None] /\ ntohs 20480 = 80.
Proof. done. Qed.
