(* ===== verification/Pipes.v ===== *)
(** src/ipc/pipes/unnamed_pipes: pipe1.c, in which a parent sends a line to its child, and
    pipe-dup2.c, which is the shell's "who | wc -l".  After fork the two processes of
    pipe1.c are separate runs, joined by what the pipe carries; for pipe-dup2.c the kernel
    keeps the table of descriptors. *)
From S2P Require Import Prelude CMonad CLib.
From stdpp Require Import gmap.
#[local] Open Scope Z_scope.

Module Pipe1.

Definition MAX : Z := 80.

Section Code.
Context {K : Type} {HK : Kernel K}.

Definition child (fd0 fd1 : Z) : C K Z :=
  syscall (Cclose fd1);;
  r ← syscall (Cread fd0 MAX);
  (if ret r =? -1 then perror "child read";; syscall (Cclose fd0);; exit 1 else mret tt);;
  buffer ← copy_in "buffer" (uninit MAX) 0 (out r);
  buffer ← wr "buffer" buffer (ret r) 0;
  s ← cstr "buffer" buffer 0;
  printf (cat ["Child: your line was: "; dquote; text_of s; dquote; nl]);;
  syscall (Cclose fd0);;
  exit 0.

(** When fgets fails [line] stays as it was. *)
Definition parent (fd0 fd1 : Z) : C K Z :=
  syscall (Cclose fd0);;
  printf "Enter line: ";;
  l ← syscall (Csys "fgets" [AI MAX]);
  line ← (if ret l =? 0 then mret (uninit MAX) else copy_in "line" (uninit MAX) 0 (out l ++ [0]));
  printf (cat ["Parent: Writing your line to child with pipe..."; nl]);;
  s ← cstr "line" line 0;
  w ← syscall (Cwrite fd1 s);
  (if ret w =? -1 then perror "parent write";; syscall (Cclose fd1);; exit 1 else mret tt);;
  syscall (Cclose fd1);;
  sys "wait" [];;
  exit 0.

Definition main (argv : list string) : C K Z :=
  fprintf stderr (cat ["Now creating pipe.."; nl]);;
  p ← syscall (Csys "pipe" []);
  (if negb (ret p =? 0) then perror (arg_n argv 0);; exit 1 else mret tt);;
  let fd0 := nth 0 (out p) 0 in
  let fd1 := nth 1 (out p) 0 in
  pid ← sys "fork" [];
  if pid =? -1 then perror (arg_n argv 0);; exit 1
  else if pid =? 0 then child fd0 fd1
  else parent fd0 fd1.

End Code.

(** ** The two processes *)

Definition line_of (s : list Z) : event := EvOut stdout (cat ["Child: your line was: "; dquote; text_of s; dquote; nl]).

(** The child prints what it read; a read that fills the buffer makes it write behind
    its end. *)
Definition child_spec (fd0 fd1 : Z) (o : outcome Z) (tr : list event) : Prop :=
  exists c r tr1, tr = [EvCall (Cclose fd1) c; EvCall (Cread fd0 MAX) r] ++ tr1 /\
    if ret r =? -1 then o = Halt (HExit 1) /\ exists c', tr1 = [EvPerror "child read" (err r); EvCall (Cclose fd0) c']
    else ret r = zlen (out r) /\
      ((ret r = MAX /\ o = Halt (HUB (UB_bounds "buffer" MAX)) /\ tr1 = []) \/
       (ret r < MAX /\ exists s c', cstr_of (init (out r) ++ [Some 0]) = Some s /\ tr1 = [line_of s; EvCall (Cclose fd0) c'] /\
          o = Halt (HExit 0))).

(** fgets stores at most 79 bytes; here a line of text. *)
Definition gets_line (r : resp) : Prop := ret r <> 0 -> zlen (out r) < MAX /\ nonzero (out r).

(** The parent writes the line it was given; without a line it reads an array that was
    never written. *)
Definition parent_spec (fd0 fd1 : Z) (o : outcome Z) (tr : list event) : Prop :=
  exists c l tr1, tr = [EvCall (Cclose fd0) c; EvOut stdout "Enter line: "; EvCall (Csys "fgets" [AI MAX]) l;
      EvOut stdout (cat ["Parent: Writing your line to child with pipe..."; nl])] ++ tr1 /\ gets_line l /\
    if ret l =? 0 then o = Halt (HUB (UB_bounds "line" MAX)) /\ tr1 = []
    else exists w tr2, tr1 = EvCall (Cwrite fd1 (out l)) w :: tr2 /\
      if ret w =? -1 then o = Halt (HExit 1) /\ exists c', tr2 = [EvPerror "parent write" (err w); EvCall (Cclose fd1) c']
      else o = Halt (HExit 0) /\ exists c' r, tr2 = [EvCall (Cclose fd1) c'; EvCall (Csys "wait" []) r].

Lemma wp_pipe1_child {K} `{PosixKernel K} fd0 fd1 (w : world K) : wp (child fd0 fd1) (adds w (child_spec fd0 fd1)) w.
Proof.
  unfold child, child_spec. wp_call. apply wp_syscall. intros c kc _. cbn [post]. wp_call. apply wp_syscall_posix.
  intros r k [_ Hr] Hk. cbn [post]. wp_step. destruct (Z.eqb_spec (ret r) (-1)) as [E|E].
  { wp_seq. leaf. exists c, r. eexists. split; [reflexivity|]. rewrite E. split; [done|]. exists r0. cbn [errno after].
    change (call_failed _ (ret r)) with (ret r =? -1). by rewrite E. }
  destruct Hr as [|(H0 & Hl & _)]; [done|]. wp_step. rewrite <- Hl in E |- *. apply wp_terminated_then; [lia|..].
  - intros s Hs Ht. wp_seq. leaf. exists c, r. eexists. split; [reflexivity|]. destruct (Z.eqb_spec (ret r) (-1)); [lia|].
    split; [done|]. right. split; [lia|]. by exists s, r0.
  - intros Hs. leaf. exists c, r. eexists. split; [reflexivity|]. destruct (Z.eqb_spec (ret r) (-1)); [lia|]. split; [done|].
    left. split; [lia|done].
Qed.

Lemma wp_pipe1_parent {K} `{Kernel K} fd0 fd1 (w : world K) :
  (forall k : K, gets_line (fst (kstep (Csys "fgets" [AI MAX]) k))) ->
  wp (parent fd0 fd1) (adds w (parent_spec fd0 fd1)) w.
Proof.
  intros Hg. unfold parent, parent_spec. wp_seq. pose proof (Hg (kern (after (Cclose fd0) r k w))) as Hl.
  cbn [kern after] in *. rewrite Hk0 in Hl. cbn [fst] in Hl. destruct (Z.eqb_spec (ret r0) 0) as [E|E].
  { wp_seq. leaf. exists r, r0. eexists. split; [reflexivity|]. split; [done|]. by rewrite E. }
  destruct (Hl E) as [Hlen Hnz]. pose proof (zlen_nonneg (out r0)).
  apply wp_copy_in; [lia|rewrite zlen_snoc, zlen_uninit; unfold MAX in *; lia|]. cbn [post]. wp_step. wp_step. wp_step.
  assert (cstr_of (zdrop 0 (blit (uninit MAX) 0 (out r0 ++ [0]))) = Some (out r0)) as Hc.
  { rewrite zdrop_0. unfold blit. change (ztake 0 ?m) with (@nil (option Z)). rewrite init_app, <- app_assoc. cbn [app].
    by apply cstr_of_init. }
  eapply wp_cstr; [exact Hc|]. cbn [post]. wp_seq. destruct (ret r1 =? -1) eqn:Ew; wp_seq; leaf; exists r, r0; eexists;
    (split; [reflexivity|]); (split; [done|]); (destruct (Z.eqb_spec (ret r0) 0); [done|]); exists r1; eexists; (split; [reflexivity|]); rewrite Ew;
    (split; [done|]); eauto.
  exists r2. cbn [errno after]. change (call_failed _ (ret r1)) with (ret r1 =? -1). by rewrite Ew.
Qed.

(** The pipe delivers to the child's one read what the parent's write was given. *)
Definition piped (fd0 fd1 : Z) (trp trc : list event) : Prop :=
  forall s w r, EvCall (Cwrite fd1 s) w ∈ trp -> EvCall (Cread fd0 MAX) r ∈ trc -> ret w <> -1 -> ret r <> -1 -> out r = s.

(** Where an event of a literal list is. *)
Ltac in_list H := repeat (apply elem_of_cons in H as [H|H]; [try discriminate H|]); try (by apply elem_of_nil in H).

Lemma parent_wrote fd0 fd1 o tr l s w : parent_spec fd0 fd1 o tr ->
  EvCall (Csys "fgets" [AI MAX]) l ∈ tr -> EvCall (Cwrite fd1 s) w ∈ tr -> s = out l /\ zlen s < MAX /\ nonzero s.
Proof.
  intros (c & l0 & tr1 & -> & Hg & Hp) Hl Hw. cbn [app] in *. unfold gets_line in Hg.
  destruct (Z.eqb_spec (ret l0) 0) as [E|E]; [destruct Hp as [_ ->]; in_list Hw|].
  destruct Hp as (w0 & tr2 & -> & Hp). destruct (Hg E) as [H1 H2].
  assert (l = l0 /\ s = out l0) as [-> ->]; [|done].
  destruct (ret w0 =? -1); [destruct Hp as (_ & c' & ->)|destruct Hp as (_ & c' & r & ->)]; in_list Hl; in_list Hw; by simplify_eq.
Qed.

(** Both processes always end.  When the pipe carries the line, the child prints exactly
    the line that was typed, and does not leave its buffer. *)
Theorem pipe1_line {Kp Kc} `{HKp : Kernel Kp} `{HKc : PosixKernel Kc} fd0 fd1 (wp0 : world Kp) (wc0 : world Kc) :
  (forall k : Kp, gets_line (fst (kstep (Csys "fgets" [AI MAX]) k))) ->
  exists op wp1 trp oc wc1 trc,
    parent fd0 fd1 wp0 = (op, wp1) /\ trace wp1 = trace wp0 ++ trp /\
    child fd0 fd1 wc0 = (oc, wc1) /\ trace wc1 = trace wc0 ++ trc /\
    (piped fd0 fd1 trp trc -> forall l s w r, EvCall (Csys "fgets" [AI MAX]) l ∈ trp -> EvCall (Cwrite fd1 s) w ∈ trp ->
       ret w <> -1 -> EvCall (Cread fd0 MAX) r ∈ trc -> ret r <> -1 ->
       oc = Halt (HExit 0) /\ line_of (out l) ∈ trc).
Proof.
  intros Hg. destruct (wp_run _ _ _ (wp_pipe1_parent fd0 fd1 wp0 Hg)) as (op & wp1 & Ep & trp & Htp & Hp).
  destruct (wp_run _ _ _ (wp_pipe1_child fd0 fd1 wc0)) as (oc & wc1 & Ec & trc & Htc & Hc).
  exists op, wp1, trp, oc, wc1, trc. split_and!; [done..|]. intros Hpipe l s w r Hl Hw Hwok Hr Hrok.
  pose proof (Hpipe _ _ _ Hw Hr Hwok Hrok) as Eo. destruct (parent_wrote _ _ _ _ _ _ _ Hp Hl Hw) as (-> & Hlen & Hnz).
  destruct Hc as (c & r0 & tr1 & -> & Hc). cbn [app] in *.
  assert (r = r0) as ->.
  { destruct (ret r0 =? -1); [destruct Hc as (_ & c' & ->)|destruct Hc as (_ & [(_ & _ & ->)|(_ & s & c' & _ & -> & _)])];
      in_list Hr; by simplify_eq. }
  destruct (Z.eqb_spec (ret r0) (-1)); [done|]. destruct Hc as (El & [(Em & _)|(_ & s & c' & Hs & -> & ->)]); [rewrite Eo in El; lia|].
  rewrite Eo in *. rewrite cstr_of_init in Hs by done. simplify_eq. split; [done|]. ev_in.
Qed.

End Pipe1.

Module Dup2.

Definition STDIN_FILENO : Z := 0.
Definition STDOUT_FILENO : Z := 1.

Section Code.
Context {K : Type} {HK : Kernel K}.

(** execl and execlp return only when they fail. *)
Definition child (fd0 fd1 : Z) : C K unit :=
  syscall (Cclose fd1);;
  sys "dup2" [AI fd0; AI STDIN_FILENO];;
  syscall (Cclose fd0);;
  r ← sys "execl" [AS "/usr/bin/wc"; AS "wc"; AS "-l"];
  if r =? -1 then perror "dup: exec1";; exit 1 else halt_with (HExec (Some "/usr/bin/wc") ["wc"; "-l"]).

Definition parent (fd0 fd1 : Z) : C K unit :=
  syscall (Cclose fd0);;
  sys "dup2" [AI fd1; AI STDOUT_FILENO];;
  syscall (Cclose fd1);;
  r ← sys "execlp" [AS "who"; AS "who"];
  if r =? -1 then perror "dup: execlp";; exit 1 else halt_with (HExec (Some "who") ["who"]).

Definition main : C K unit :=
  p ← syscall (Csys "pipe" []);
  (if ret p =? -1 then perror "dup : pipe";; exit 1 else mret tt);;
  let fd0 := nth 0 (out p) 0 in
  let fd1 := nth 1 (out p) 0 in
  f ← sys "fork" [];
  if f =? -1 then perror "dup2: fork";; exit 1
  else if f =? 0 then child fd0 fd1
  else parent fd0 fd1.

End Code.

(** ** Descriptors *)

(** What a descriptor stands for: an end of the pipe, or something else. *)
Inductive target := PipeRd | PipeWr | Other (n : Z).

#[export] Instance target_eq_dec : EqDecision target.
Proof. solve_decision. Defined.

(** [p0] and [p1] are the numbers that pipe gives, [forked] the answer of fork, [execs]
    that of the exec functions. *)
Record ktab := Ktab { fds : gmap Z target; p0 : Z; p1 : Z; forked : Z; execs : Z }.

Definition with_fds (k : ktab) (t : gmap Z target) : ktab := Ktab t (p0 k) (p1 k) (forked k) (execs k).

Definition dup2 (t : gmap Z target) (a b : Z) : gmap Z target :=
  match t !! a with Some x => if a =? b then t else <[b := x]> t | None => t end.

#[export] Instance tab_kernel : Kernel ktab := fun c k =>
  match c with
  | Csys "pipe" _ => (Resp 0 0 [p0 k; p1 k], with_fds k (<[p1 k := PipeWr]> (<[p0 k := PipeRd]> (fds k))))
  | Csys "fork" _ => (Resp (forked k) EAGAIN [], k)
  | Csys "dup2" [AI a; AI b] => (Resp (if decide (is_Some (fds k !! a)) then b else -1) EBADF [], with_fds k (dup2 (fds k) a b))
  | Cclose fd => (Resp (if decide (is_Some (fds k !! fd)) then 0 else -1) EBADF [], with_fds k (delete fd (fds k)))
  | Csys "execl" _ | Csys "execlp" _ => (Resp (execs k) EIO [], k)
  | _ => (Resp 0 0 [], k)
  end.

Lemma wp_tab_call c r k' (Q : outcome resp -> world ktab -> Prop) w :
  tab_kernel c (kern w) = (r, k') -> Q (Done r) (after c r k' w) -> wp (syscall c) Q w.
Proof. intros E HQ. apply wp_syscall. intros r0 k0 E0. unfold kstep in E0. congruence. Qed.

Ltac tab_call := wp_call; eapply wp_tab_call; [reflexivity|]; cbn [post ret out nth kern after].

(** The table of the process that reads from the pipe, and of the one that writes. *)
Definition reader_fds (t : gmap Z target) : gmap Z target := <[STDIN_FILENO := PipeRd]> t.
Definition writer_fds (t : gmap Z target) : gmap Z target := <[STDOUT_FILENO := PipeWr]> t.

Definition dup2_end (k : ktab) (o : outcome unit) (t : gmap Z target) : Prop :=
  if forked k =? -1 then o = Halt (HExit 1)
  else if forked k =? 0 then
    t = reader_fds (fds k) /\ o = Halt (if execs k =? -1 then HExit 1 else HExec (Some "/usr/bin/wc") ["wc"; "-l"])
  else t = writer_fds (fds k) /\ o = Halt (if execs k =? -1 then HExit 1 else HExec (Some "who") ["who"]).

Lemma dup2_insert t a b x : t !! a = Some x -> a <> b -> dup2 t a b = <[b := x]> t.
Proof. intros E Hn. unfold dup2. rewrite E. by destruct (Z.eqb_spec a b). Qed.

(** Closing the end [b], moving the end [a] to [n] and closing [a] leaves [n]. *)
Lemma moved_end (t : gmap Z target) a b n x y : t !! a = None -> t !! b = None -> a <> b -> a <> n -> b <> n ->
  delete a (dup2 (delete b (<[a := x]> (<[b := y]> t))) a n) = <[n := x]> t.
Proof.
  intros Ha Hb Hab Han Hbn. rewrite (dup2_insert _ a n x); [|by simplify_map_eq|done].
  apply map_eq. intros i. destruct (decide (i = n)) as [->|]; [by simplify_map_eq|].
  destruct (decide (i = a)) as [->|]; [by simplify_map_eq|]. destruct (decide (i = b)) as [->|]; by simplify_map_eq.
Qed.

(** With the three standard descriptors open, the child runs "wc -l" with the pipe as
    its standard input, the parent "who" with the pipe as its standard output, and the
    tables are otherwise what they were: neither holds another end of the pipe, so that
    wc sees the end of its input when who ends. *)
Theorem dup2_pipeline (k : ktab) e tr :
  (forall fd, 0 <= fd <= 2 -> is_Some (fds k !! fd)) -> fds k !! p0 k = None -> fds k !! p1 k = None -> p0 k <> p1 k ->
  exists o w', main (World k e tr) = (o, w') /\ dup2_end k o (fds (kern w')).
Proof.
  intros Hstd H0 H1 Hne. apply wp_run. unfold main, dup2_end.
  assert (forall fd, 0 <= fd <= 2 -> p0 k <> fd /\ p1 k <> fd) as Hbig.
  { intros fd Hfd. destruct (Hstd fd Hfd) as [x Hx]. split; intros <-; congruence. }
  destruct (Hbig 0 ltac:(lia)) as [H00 H10]. destruct (Hbig 1 ltac:(lia)) as [H01 H11].
  tab_call. change (0 =? -1) with false. tab_call. wp_seq. cbn [with_fds forked].
  destruct (forked k =? -1) eqn:Ef. { by wp_seq. }
  destruct (forked k =? 0).
  - unfold child. do 4 tab_call. cbn [with_fds execs fds].
    rewrite (insert_insert_ne (fds k)) by done. rewrite moved_end by done. wp_seq.
    destruct (execs k =? -1); wp_seq; done.
  - unfold parent. do 4 tab_call. cbn [with_fds execs fds].
    rewrite moved_end by done. wp_seq. destruct (execs k =? -1); wp_seq; done.
Qed.

(** Three standard descriptors, and the next two for the pipe. *)
Definition usual : ktab := Ktab {[0 := Other 0; 1 := Other 1; 2 := Other 2]} 3 4 0 0.

Lemma dup2_pipeline_witness : exists o w',
  main (World usual 0 []) = (o, w') /\ dup2_end usual o (fds (kern w')).
Proof.
  apply (dup2_pipeline usual); [|done..].
  intros fd Hfd. cbn [fds usual]. assert (fd = 0 \/ fd = 1 \/ fd = 2) as [->|[->| ->]] by lia; by eexists.
Defined.

(** Started without a standard input, the program gives the number 0 to the pipe: dup2
    does nothing, the close that follows removes it, and wc has no input at all. *)
Lemma dup2_no_stdin :
  let k := Ktab {[1 := Other 1; 2 := Other 2]} 0 3 0 0 in
  fds (kern (snd (main (World k 0 [])))) = {[1 := Other 1; 2 := Other 2]} /\ fst (main (World k 0 [])) = Halt (HExec (Some "/usr/bin/wc") ["wc"; "-l"]).
Proof. split; [|done]. apply map_eq. intros i. cbn. by simplify_map_eq. Qed.

End Dup2.
