(* ===== verification/SemSimple.v ===== *)
(** src/ipc/SYS_V_ipc/sem/simple/sem1.c: the first version of the semaphore program.  Its
    operations are those of [SemV], so that the protocol is the one proved there; here, the program, and that it touches the file under the lock. *)
From S2P Require Import Prelude CMonad CLib Decimal SemV.

Definition MY_KEY : Z := 123654.
Definition SLEEP_TIME : Z := 5.
Definition BUF : Z := 255.
Definition buf2 : string := "This is the sample record written to end of file by sem1.".

Definition semop_lock : list sembuf := [Sembuf 0 0 0; Sembuf 0 1 SEM_UNDO].
Definition semop_unlock : list sembuf := [Sembuf 0 (-1) (Z.lor IPC_NOWAIT SEM_UNDO)].

Section Code.
Context {K : Type} {HK : Kernel K}.

(** The semaphore is created, or fetched if it exists. *)
Definition get_sem : C K Z :=
  id ← sys "semget" [AI MY_KEY; AI 1; AI (Z.lor (Z.lor IPC_CREAT IPC_EXCL) 438)];
  if id =? -1 then
    perror "Semaphore create";;
    e ← get_errno;
    (if negb (e =? EEXIST) then perror "semget failure";; exit 1 else mret tt);;
    id ← sys "semget" [AI MY_KEY; AI 1; AI 0];
    if id =? -1 then perror "Semaphore create";; exit 1 else mret id
  else mret id.

Definition record_text (pid : Z) (dtbuf : list Z) : list Z :=
  bytes_of (cat [nl; "---"; nl; "Sem1: PID "; fmt_d pid; ": "]) ++ dtbuf ++ bytes_of (cat [": "; buf2; nl]).

(** The text written to the file.  Without a date, semop is told that the array
    semop_unlock, which has one element, has two. *)
Definition make_text (name : string) : C K (list Z) :=
  fp ← sys "popen" [AS "date"; AS "r"];
  (if fp =? 0 then undefined (UB_null "fp") else mret tt);;
  r ← syscall (Csys "fgets" [AI 80; AI fp]);
  if ret r =? 0 then
    fprintf stderr (cat [name; ": fgets failed!"; nl]);;
    undefined (UB_bounds "semop_unlock" 1)
  else
    sys "pclose" [AI fp];;
    pid ← sys "getpid" [];
    buf ← copy_in "buf" (uninit BUF) 0 (record_text pid (out r) ++ [0]);
    cstr "buf" buf 0.

Definition unlock (id : Z) : C K unit :=
  u ← syscall (semop_call id semop_unlock);
  if ret u <? 0 then perror "sem unlock error";; exit 1 else mret tt.

Definition main (argv : list string) : C K unit :=
  (if negb (argc argv =? 2) then fprintf stderr (cat ["Usage: "; arg_n argv 0; " filename"; nl]);; exit 2 else mret tt);;
  id ← get_sem;
  printf (cat [nl; "Sem1: Fetched semaphore..id = "; fmt_d id; nl]);;
  printf (cat [nl; "Sem1: Locking resource (file "; arg_n argv 1; ")..."]);;
  l ← syscall (semop_call id semop_lock);
  (if ret l <? 0 then perror "sem lock error";; exit 1 else mret tt);;
  printf (cat [nl; "Sem1: File locked.."]);;
  printf (cat [nl; "Sem1: File processing is taking place now.."]);;
  fflush stdout;;
  f ← syscall (Copen (arg_n argv 1) O_APPEND_CREAT 420);
  let fd := ret f in
  (if fd =? -1 then perror "File open failure";; exit 1 else mret tt);;
  buf ← make_text (arg_n argv 0);
  n ← syscall (Cwrite fd buf);
  (if ret n =? -1 then perror "File write failed";; syscall (Cclose fd);; unlock id;; exit 1 else mret tt);;
  sys "sleep" [AI SLEEP_TIME];;
  syscall (Cclose fd);;
  printf (cat [nl; "Sem1: Processing done - Write of "; fmt_d (ret n); " bytes"; nl]);;
  unlock id;;
  printf (cat [nl; "Sem1: File (semaphore) unlocked"; nl; "Sem1 exiting.."]);;
  exit 0.

End Code.

(** The operations are those of the later version. *)
Lemma semop_same : semop_lock = semlock /\ semop_unlock = [semunlock].
Proof. done. Qed.

(** ** The text fits *)

Lemma record_fits pid dtbuf : - 2 ^ 31 <= pid < 2 ^ 31 -> zlen dtbuf <= 79 -> zlen (record_text pid dtbuf) < BUF.
Proof.
  intros Hp Hd. assert (strlen (fmt_d pid) <= 11) as Hlen.
  { destruct (Z.le_gt_cases 0 pid).
    - destruct (fmt_d_dec pid) as (_ & _ & _ & H'); [done|]. specialize (H' 10 ltac:(lia)). lia.
    - destruct (fmt_d_dec (- pid)) as (_ & _ & _ & H'); [lia|]. specialize (H' 10 ltac:(lia)).
      assert (fmt_d pid = "-" +:+ fmt_d (- pid)) as -> by (destruct pid; [done|done|reflexivity]). rewrite strlen_app.
      change (strlen "-") with 1. lia. }
  unfold record_text. rewrite !zlen_app, !zlen_bytes_of. unfold cat. cbn [foldr]. rewrite !strlen_app.
  unfold BUF. repeat match goal with |- context [strlen ?s] => let v := eval vm_compute in (strlen s) in
    lazymatch v with Z0 => change (strlen s) with v | Zpos _ => change (strlen s) with v end end. lia.
Qed.

Lemma record_nonzero pid dtbuf : nonzero dtbuf -> nonzero (record_text pid dtbuf).
Proof.
  intros Hd. unfold record_text, cat. cbn [foldr]. rewrite !bytes_of_app. unfold nonzero in *.
  repeat (apply Forall_app; split); try done; try apply fmt_d_no_nul; cbn; repeat constructor; done.
Qed.

(** ** The lock *)

(** What the program relies on: fgets gives a line of at most 79 bytes without NUL, and a
    process number is an int. *)
Definition date_ok (r : resp) : Prop := ret r <> 0 -> zlen (out r) <= 79 /\ nonzero (out r).

Section Runs.
Context {K : Type} {HK : Kernel K}.
Hypothesis Hdate : forall fp (k : K), date_ok (fst (kstep (Csys "fgets" [AI 80; AI fp]) k)).
Hypothesis Hpid : forall (k : K), - 2 ^ 31 <= ret (fst (kstep (Csys "getpid" []) k)) < 2 ^ 31.

(** Calls that are neither operations on the semaphore nor on the file. *)
Ltac quiet Hw := cbn [after trace]; rewrite ?monitor_snoc, Hw; reflexivity.

Lemma wp_get_sem h (Q : outcome Z -> world K -> Prop) w :
  monitor (trace w) = Some h -> (forall id w', monitor (trace w') = Some h -> Q (Done id) w') ->
  (forall w', monitor (trace w') = Some h -> Q (Halt (HExit 1)) w') -> wp get_sem Q w.
Proof.
  intros Hw HD HH. unfold get_sem. wp_go; [apply HH|apply HH|apply HD|apply HD]; quiet Hw.
Qed.

(** The endings of make_text other than a text. *)
Definition no_text (h : halt) : Prop := h = HUB (UB_null "fp") \/ h = HUB (UB_bounds "semop_unlock" 1).

Lemma wp_make_text name h (Q : outcome (list Z) -> world K -> Prop) w :
  monitor (trace w) = Some h -> (forall t w', monitor (trace w') = Some h -> Q (Done t) w') ->
  (forall hl w', no_text hl -> monitor (trace w') = Some h -> Q (Halt hl) w') -> wp (make_text name) Q w.
Proof.
  intros Hw HD HH. unfold make_text. wp_seq. destruct (ret r =? 0).
  { wp_seq. apply HH; [by left|quiet Hw]. }
  wp_seq. pose proof (Hdate (ret r) (kern (after (Csys "popen" [AS "date"; AS "r"]) r k w))) as Hd. rewrite Hk0 in Hd. cbn [fst] in Hd.
  destruct (Z.eqb_spec (ret r0) 0) as [E|E].
  { wp_seq. apply HH; [by right|quiet Hw]. }
  wp_seq. destruct (Hd E) as [Hlen Hnz].
  match goal with H : kstep (Csys "getpid" []) ?k = _ |- _ => pose proof (Hpid k) as Hp; rewrite H in Hp end. cbn [fst] in Hp.
  pose proof (record_fits _ _ Hp Hlen) as Hf.
  apply wp_copy_in; [lia|rewrite zlen_snoc, zlen_uninit by (unfold BUF; lia); lia|]. cbn [post].
  assert (nonzero (record_text (ret r2) (out r0))) as Hrec.
  { by apply record_nonzero. }
  eapply wp_cstr.
  { rewrite zdrop_0. unfold blit. change (ztake 0 ?m) with (@nil (option Z)). rewrite init_app, <- app_assoc. cbn [app].
    by apply cstr_of_init. }
  apply HD. quiet Hw.
Qed.

(** Where the program ends: the monitor is satisfied, and an exit with 0 has released the
    lock. *)
Definition simple_end (o : outcome unit) (w : world K) : Prop :=
  exists hl h, o = Halt hl /\ monitor (trace w) = Some h /\
    (hl = HExit 0 /\ h = false \/ hl = HExit 1 \/ hl = HExit 2 \/ no_text hl).

Lemma wp_unlock h id (Q : outcome unit -> world K -> Prop) w :
  monitor (trace w) = Some h -> (forall w', monitor (trace w') = Some false -> Q (Done tt) w') ->
  (forall w' h', monitor (trace w') = Some h' -> Q (Halt (HExit 1)) w') -> wp (unlock id) Q w.
Proof.
  intros Hw HD HH. unfold unlock. rewrite (proj2 semop_same). wp_seq. destruct (Z.ltb_spec (ret r) 0) as [E|E]; wp_seq.
  - eapply HH. cbn [after trace]. rewrite !monitor_snoc, Hw. cbn [mbind option_bind]. rewrite mon_unlock. reflexivity.
  - apply HD. cbn [after trace]. rewrite !monitor_snoc, Hw. cbn [mbind option_bind]. rewrite mon_unlock.
    destruct (Z.eqb_spec (ret r) (-1)); [lia|done].
Qed.

Lemma wp_sem_simple argv (w : world K) : monitor (trace w) = Some false -> wp (main argv) simple_end w.
Proof.
  intros Hw. assert (forall hl h w', monitor (trace w') = Some h -> hl = HExit 1 \/ hl = HExit 2 \/ no_text hl -> simple_end (Halt hl) w') as Hend.
  { intros hl h w' Hm Hh. exists hl, h. tauto. }
  unfold main. rewrite (proj1 semop_same). destruct (argc argv =? 2); cbn [negb].
  2:{ wp_seq. eapply Hend; [quiet Hw|auto]. }
  wp_step. wp_step. wp_step. eapply wp_get_sem; [exact Hw| |intros w' Hw'; eapply Hend; eauto].
  clear w Hw. intros id w Hw. cbn [post]. wp_seq. destruct (Z.ltb_spec (ret r) 0) as [E|E].
  { wp_seq. eapply Hend; [|auto]. cbn [after trace]. rewrite !monitor_snoc, Hw. cbn [mbind option_bind].
    change (mon ?h (EvOut _ _)) with (Some h). cbn [mbind option_bind]. rewrite mon_lock. reflexivity. }
  match goal with |- wp _ _ ?w1 => assert (monitor (trace w1) = Some true) as Hl; [|revert Hl; generalize w1] end.
  { cbn [after trace]. rewrite !monitor_snoc, Hw. cbn [mbind option_bind]. change (mon ?h (EvOut _ _)) with (Some h).
    cbn [mbind option_bind]. rewrite mon_lock. destruct (Z.eqb_spec (ret r) (-1)); [lia|done]. }
  clear w Hw r k Hk E. intros w Hw.
  do 8 wp_step. apply wp_file_op; [done|quiet Hw|]. clear w Hw. intros f w Hw. cbn [post]. wp_step. destruct (ret f =? -1).
  { wp_seq. eapply Hend; [quiet Hw|auto]. }
  wp_step. wp_step. eapply wp_make_text; [exact Hw| |intros hl w' Hn Hw'; eapply Hend; eauto].
  clear w Hw. intros t w Hw. cbn [post]. wp_step. apply wp_file_op; [done|done|]. clear w Hw. intros n w Hw. cbn [post]. wp_step.
  destruct (ret n =? -1).
  { do 4 wp_step. wp_step. wp_step. apply wp_file_op; [done|quiet Hw|]. intros c w' Hw'. cbn [post]. wp_step.
    eapply wp_unlock; [exact Hw'|intros w2 Hw2; cbn [post]; wp_step; eapply Hend; eauto|intros; eapply Hend; eauto]. }
  do 5 wp_step. wp_step. wp_step. apply wp_file_op; [done|quiet Hw|]. intros c w' Hw'. cbn [post]. do 3 wp_step.
  eapply wp_unlock; [quiet Hw'| |intros; eapply Hend; eauto]. intros w2 Hw2. cbn [post]. wp_seq.
  exists (HExit 0), false. split; [done|]. split; [quiet Hw2|auto].
Qed.

End Runs.

(** Whatever the kernel answers, the program opens, writes and closes the file only while
    it holds the semaphore, exits with 0 only after it released it, and does not overrun
    its record; it leaves defined behaviour only when popen or fgets fails. *)
Theorem sem_simple_guarded {K} `{Kernel K} argv (w : world K) :
  (forall fp (k : K), date_ok (fst (kstep (Csys "fgets" [AI 80; AI fp]) k))) ->
  (forall (k : K), - 2 ^ 31 <= ret (fst (kstep (Csys "getpid" []) k)) < 2 ^ 31) ->
  trace w = [] -> exists o w', main argv w = (o, w') /\ simple_end o w'.
Proof. intros Hd Hp Hw. apply wp_run. apply wp_sem_simple; [done|done|by rewrite Hw]. Qed.

(** A kernel on which everything succeeds. *)
Definition all_well : Kernel unit := fun c _ =>
  match c with
  | Csys "fgets" _ => (Resp 1 0 (bytes_of "Mon"), tt)
  | Cwrite _ d => (Resp (zlen d) 0 [], tt)
  | _ => (Resp 7 0 [], tt)
  end.

Lemma sem_simple_guarded_witness :
  fst (@main unit all_well ["sem1"; "f"] (World tt 0 [])) = Halt (HExit 0) /\
  exists o w', @main unit all_well ["sem1"; "f"] (World tt 0 []) = (o, w') /\ simple_end o w'.
Proof.
  split; [vm_compute; reflexivity|].
  apply (@sem_simple_guarded unit all_well ["sem1"; "f"] (World tt 0 [])); [|cbn; lia|done].
  intros fp k _. split; [done|repeat constructor; done].
Defined.
