(* ===== verification/Envp.v ===== *)
(** src/exec/2_exec_envp/envp.c: printenv is executed with an environment in which TERM
    is changed.  The environment of the process is a parameter. *)
From S2P Require Import Prelude CMonad CLib.

Definition MAXENV : Z := 4096.

Section Code.
Context {K : Type} {HK : Kernel K}.

(** [envp[i] = v] *)
Definition set_env (envp : list (option string)) (i : Z) (v : option string) : C K (list (option string)) :=
  match znth envp i with
  | None => undefined (UB_bounds "envp" i)
  | Some _ => mret (zset envp i v)
  end.

(** The copy of the pointers, from number [i] on, and the NULL behind them. *)
Fixpoint copy_env (envp : list (option string)) (i : Z) (environ : list string) : C K (list (option string) * Z) :=
  match environ with
  | [] => envp ← set_env envp i None; mret (envp, i)
  | e :: environ' => envp ← set_env envp i (Some e); copy_env envp (i + 1) environ'
  end.

(** The search; it stops before the last variable. *)
Fixpoint find_term (fuel : nat) (envp : list (option string)) (i j : Z) : C K Z :=
  match fuel with
  | O => halt_with HFuel
  | S fuel' =>
      if j <? i - 1 then
        match znth envp j with
        | Some (Some e) =>
            if negb (strncmp 5 "TERM=" e =? 0) then find_term fuel' envp i (j + 1) else mret j
        | Some None => undefined (UB_null "envp[j]")
        | None => undefined (UB_bounds "envp" j)
        end
      else mret j
  end.

(** The strings up to the first NULL. *)
Fixpoint strings_of (envp : list (option string)) : list string :=
  match envp with Some e :: l => e :: strings_of l | _ => [] end.

Definition main (environ : list string) (argv : list string) : C K unit :=
  '(envp, i) ← copy_env (replicate (Z.to_nat MAXENV) None) 0 environ;
  j ← find_term (S (Z.to_nat i)) envp i 0;
  (if i - 1 <=? j then
     fprintf stderr (cat [arg_n argv 0; ": env variable TERM not found. Aborting.."; nl]);; exit 1
   else mret tt);;
  envp ← set_env envp j (Some "TERM=dialup");
  r ← sys "execle" (AS "/usr/bin/printenv" :: AS "printenv" :: map AS (strings_of envp));
  if r <? 0 then perror (arg_n argv 0);; exit 1
  else halt_with (HExec (Some "/usr/bin/printenv") ["printenv"]).

End Code.

(** ** What is executed *)

Definition is_term (e : string) : bool := strncmp 5 "TERM=" e =? 0.

(** The number of the first TERM variable, the length of the list if there is none. *)
Fixpoint term_pos (l : list string) : nat :=
  match l with [] => O | e :: l' => if is_term e then O else S (term_pos l') end.

(** The array with [l] in front. *)
Definition env_array (l : list string) : list (option string) :=
  map Some l ++ replicate (Z.to_nat MAXENV - length l) None.

Lemma zlen_env_array l : zlen l <= MAXENV -> zlen (env_array l) = MAXENV.
Proof. unfold env_array, zlen, MAXENV. intros. rewrite length_app, length_map, length_replicate. lia. Qed.

Lemma env_array_snoc l e : zlen l < MAXENV -> zset (env_array l) (zlen l) (Some e) = env_array (l ++ [e]).
Proof.
  unfold env_array, zset, zlen, MAXENV. intros Hl. destruct (Z.ltb_spec (Z.of_nat (length l)) 0); [lia|].
  rewrite Nat2Z.id, map_app, length_app, insert_app_r_alt by (rewrite length_map; lia). rewrite length_map, Nat.sub_diag.
  cbn [map length]. rewrite <- app_assoc. f_equal.
  destruct (Z.to_nat 4096 - length l)%nat as [|n] eqn:E; [lia|]. cbn [replicate insert list_insert app]. f_equal. f_equal. lia.
Qed.

Lemma env_array_null l : zset (env_array l) (zlen l) None = env_array l.
Proof.
  unfold env_array, zset, zlen. destruct (Z.ltb_spec (Z.of_nat (length l)) 0); [lia|].
  rewrite Nat2Z.id, insert_app_r_alt by (rewrite length_map; lia). rewrite length_map, Nat.sub_diag.
  by destruct (Z.to_nat MAXENV - length l)%nat.
Qed.

Lemma strings_of_map l tl : strings_of (map Some l ++ replicate tl None) = l.
Proof. induction l as [|e l IH]; cbn; [by destruct tl|]. by rewrite IH. Qed.

Section Runs.
Context {K : Type} {HK : Kernel K}.

Lemma wp_set_env envp i v (Q : outcome (list (option string)) -> world K -> Prop) w :
  (if (0 <=? i) && (i <? zlen envp) then Q (Done (zset envp i v)) w else Q (Halt (HUB (UB_bounds "envp" i))) w) ->
  wp (set_env envp i v) Q w.
Proof.
  unfold set_env. intros HQ. destruct (Z.leb_spec 0 i) as [H0|H0]; cbn [andb] in HQ.
  - destruct (Z.ltb_spec i (zlen envp)) as [H1|H1].
    + destruct (znth_Some envp i) as [x Hx]; [lia|]. rewrite Hx. by wp_step.
    + unfold znth. destruct (Z.ltb_spec i 0); [lia|]. rewrite lookup_ge_None_2 by (unfold zlen in *; lia). by wp_step.
  - unfold znth. destruct (Z.ltb_spec i 0); [|lia]. by wp_step.
Qed.

Lemma wp_copy_env environ : forall l (Q : outcome (list (option string) * Z) -> world K -> Prop) w,
  zlen l <= MAXENV ->
  (if zlen (l ++ environ) <? MAXENV then Q (Done (env_array (l ++ environ), zlen (l ++ environ))) w
   else Q (Halt (HUB (UB_bounds "envp" MAXENV))) w) ->
  wp (copy_env (env_array l) (zlen l) environ) Q w.
Proof.
  induction environ as [|e environ IH]; intros l Q w Hl HQ; cbn [copy_env]; wp_step; apply wp_set_env;
    rewrite zlen_env_array by done; pose proof (zlen_nonneg l); (destruct (Z.leb_spec 0 (zlen l)); [|lia]); cbn [andb].
  - rewrite app_nil_r in HQ. destruct (Z.ltb_spec (zlen l) MAXENV).
    + rewrite env_array_null. cbn [post]. by wp_step.
    + cbn [post]. by assert (zlen l = MAXENV) as -> by lia.
  - destruct (Z.ltb_spec (zlen l) MAXENV).
    + rewrite env_array_snoc by done. cbn [post]. rewrite <- (zlen_snoc l e). apply IH; [rewrite zlen_snoc; lia|].
      by rewrite <- app_assoc.
    + cbn [post]. assert (zlen l = MAXENV) as -> by lia. rewrite zlen_app in HQ. pose proof (zlen_nonneg (e :: environ)).
      by destruct (Z.ltb_spec (zlen l + zlen (e :: environ)) MAXENV); [lia|].
Qed.

Lemma removelast_len (env : list string) : zlen env - 1 <= zlen (removelast env) <= Z.max 0 (zlen env - 1).
Proof.
  destruct (decide (env = [])) as [->|Hne]; [done|].
  pose proof (f_equal zlen (app_removelast_last "" Hne)) as E. rewrite zlen_snoc in E. lia.
Qed.

(** Variable number [zlen pre] of the array. *)
Lemma env_array_at pre e l env : pre ++ e :: l = removelast env -> znth (env_array env) (zlen pre) = Some (Some e).
Proof.
  intros Hp. assert (env <> []) as Hne by (intros ->; by destruct pre).
  rewrite (app_removelast_last "" Hne), <- Hp. unfold env_array. rewrite !map_app. cbn [map]. unfold znth, zlen.
  destruct (Z.ltb_spec (Z.of_nat (length pre)) 0); [lia|]. rewrite Nat2Z.id, <- !app_assoc.
  rewrite lookup_app_r by (rewrite length_map; lia). by rewrite length_map, Nat.sub_diag.
Qed.

Lemma wp_find_term env : forall l pre fuel (Q : outcome Z -> world K -> Prop) w,
  pre ++ l = removelast env -> (length l < fuel)%nat ->
  Q (Done (zlen pre + Z.of_nat (term_pos l))) w ->
  wp (find_term fuel (env_array env) (zlen env) (zlen pre)) Q w.
Proof.
  induction l as [|e l IH]; intros pre [|fuel] Q w Hp Hf HQ; cbn [length] in Hf; try lia; cbn [find_term term_pos] in *;
    pose proof (removelast_len env) as Hr; rewrite <- Hp in Hr.
  - rewrite app_nil_r in Hr. destruct (Z.ltb_spec (zlen pre) (zlen env - 1)); [lia|]. wp_step. by rewrite Z.add_0_r in HQ.
  - rewrite zlen_app, zlen_cons in Hr. pose proof (zlen_nonneg l). pose proof (zlen_nonneg pre).
    destruct (Z.ltb_spec (zlen pre) (zlen env - 1)); [|lia]. rewrite (env_array_at _ _ _ _ Hp). fold (is_term e).
    destruct (is_term e); cbn [negb] in *; [wp_step; by rewrite Z.add_0_r in HQ|].
    rewrite <- (zlen_snoc pre e). apply IH; [by rewrite <- app_assoc|lia|]. rewrite zlen_snoc. by replace (zlen pre + 1 + Z.of_nat (term_pos l)) with (zlen pre + Z.of_nat (S (term_pos l))) by lia.
Qed.

End Runs.

(** The environment handed to printenv. *)
Definition dialup (environ : list string) : list string := <[term_pos (removelast environ) := "TERM=dialup"]> environ.

Definition envp_spec (environ argv : list string) (o : outcome unit) (tr : list event) : Prop :=
  if MAXENV <=? zlen environ then o = Halt (HUB (UB_bounds "envp" MAXENV)) /\ tr = []
  else if existsb is_term (removelast environ) then
    exists r, let call := EvCall (Csys "execle" (AS "/usr/bin/printenv" :: AS "printenv" :: map AS (dialup environ))) r in
      if ret r <? 0 then exists e, o = Halt (HExit 1) /\ tr = [call; EvPerror (arg_n argv 0) e]
      else o = Halt (HExec (Some "/usr/bin/printenv") ["printenv"]) /\ tr = [call]
  else o = Halt (HExit 1) /\ tr = [EvOut stderr (cat [arg_n argv 0; ": env variable TERM not found. Aborting.."; nl])].

Lemma term_pos_found l : existsb is_term l = true <-> (term_pos l < length l)%nat.
Proof.
  induction l as [|e l IH]; cbn; [split; [done|lia]|]. destruct (is_term e); cbn; [split; [lia|done]|]. rewrite IH. lia.
Qed.

Lemma dialup_array env j : (j < length env)%nat ->
  zset (env_array env) (Z.of_nat j) (Some "TERM=dialup") = map Some (<[j := "TERM=dialup"]> env) ++ replicate (Z.to_nat MAXENV - length env) None.
Proof.
  intros Hj. unfold zset, env_array. destruct (Z.ltb_spec (Z.of_nat j) 0); [lia|]. rewrite Nat2Z.id.
  rewrite insert_app_l by (rewrite length_map; lia). f_equal. symmetry. apply (list_fmap_insert Some).
Qed.

(** Printenv gets exactly the environment of the process with the first TERM variable
    replaced, if there is one before the last variable; a TERM that comes last is not
    found, and an environment of 4096 variables or more overruns the array. *)
Theorem envp_replaces_term {K} `{Kernel K} environ argv (w : world K) :
  exists o w' tr, main environ argv w = (o, w') /\ trace w' = trace w ++ tr /\ envp_spec environ argv o tr.
Proof.
  apply wp_trace. unfold main, envp_spec. wp_step. change 0 with (zlen (@nil string)) at 1.
  change (replicate (Z.to_nat MAXENV) None) with (env_array []). apply wp_copy_env; [done|]. cbn [app].
  destruct (Z.ltb_spec (zlen environ) MAXENV) as [Hl|Hl]; destruct (Z.leb_spec MAXENV (zlen environ)); try lia.
  2:{ cbn [post]. exists []. by rewrite app_nil_r. }
  cbn [post]. wp_step. change 0 with (zlen (@nil string)) at 1.
  apply (wp_find_term environ (removelast environ) []); [done| |].
  { pose proof (removelast_len environ). unfold zlen in *. lia. }
  cbn [post]. change (zlen (@nil string)) with 0. rewrite Z.add_0_l. wp_step.
  pose proof (removelast_len environ) as Hr. pose proof (term_pos_found (removelast environ)) as Hf.
  destruct (existsb is_term (removelast environ)).
  - pose proof (proj1 Hf eq_refl) as Hlt. destruct (Z.leb_spec (zlen environ - 1) (Z.of_nat (term_pos (removelast environ)))); [unfold zlen in *; lia|].
    wp_step. wp_step. apply wp_set_env. rewrite zlen_env_array by lia.
    destruct (Z.leb_spec 0 (Z.of_nat (term_pos (removelast environ)))); [|lia].
    destruct (Z.ltb_spec (Z.of_nat (term_pos (removelast environ))) MAXENV); [|unfold zlen in *; lia]. cbn [andb post].
    rewrite dialup_array by (unfold zlen in *; lia). rewrite strings_of_map. wp_seq.
    destruct (ret r <? 0) eqn:E; wp_seq; leaf; exists r; rewrite E; [eexists; split; [done|]; reflexivity|done].
  - destruct (Z.leb_spec (zlen environ - 1) (Z.of_nat (term_pos (removelast environ)))) as [|Hx]; [by wp_seq; leaf|].
    assert (false = true) as [=]. apply Hf. unfold zlen in *. lia.
Qed.

(** A TERM variable in the last place is not found. *)
Lemma term_last : existsb is_term (removelast ["HOME=/root"; "TERM=xterm"]) = false /\
  dialup ["TERM=xterm"; "HOME=/root"] = ["TERM=dialup"; "HOME=/root"].
Proof. done. Qed.
