(* ===== verification/EthFrame.v ===== *)
(** src/ipc/net_sockets/raw_sock/raw_sock_ethframe.c: one Ethernet frame with a text as its
    payload.  The header is built as in raw_eth_ipv4_udp_tx.c ([RawSock.eth_header]). *)
From S2P Require Import Prelude CMonad CLib RawSock.

Definition payload : string := "Hello, Ethernet!".
Definition dest_mac : list Z := replicate 6 255.

Section Code.
Context {K : Type} {HK : Kernel K}.

Definition main : C K Z :=
  let ifname := "wlo1" in
  sockfd ← sys "socket" [AI 17; AI 3; AI 768];
  (if sockfd =? -1 then perror "socket";; exit 1 else mret tt);;
  if_idx ← syscall (Csys "ioctl" [AI sockfd; AS "SIOCGIFINDEX"; AS ifname]);
  (if ret if_idx <? 0 then perror "SIOCGIFINDEX";; exit 1 else mret tt);;
  if_mac ← syscall (Csys "ioctl" [AI sockfd; AS "SIOCGIFHWADDR"; AS ifname]);
  (if ret if_mac <? 0 then perror "SIOCGIFHWADDR";; exit 1 else mret tt);;
  '(sendbuf, tx_len) ← eth_header (uninit ETH_FRAME_LEN) (sa_data if_mac);
  let payload_len := strlen payload in
  sendbuf ← copy_in "sendbuf" sendbuf tx_len (bytes_of payload);
  let tx_len := tx_len + payload_len in
  frame ← slice "sendbuf" sendbuf 0 tx_len;
  s ← sys "sendto" [AI sockfd; AB frame; AI 0; AI (nth 0 (out if_idx) 0); AI 6; AB dest_mac];
  (if s <? 0 then perror "sendto";; syscall (Cclose sockfd);; exit 1 else mret tt);;
  printf (cat ["Packet sent successfully"; nl]);;
  syscall (Cclose sockfd);;
  mret 0.

End Code.

(** ** The frame *)

(** Destination, source, type, payload. *)
Definition eth_frame (src : list Z) (data : list Z) : list Z := dest_mac ++ src ++ [8; 0] ++ data.

Lemma sa_data_len r : zlen (sa_data r) = 6.
Proof. unfold sa_data, zlen. rewrite length_take, length_app, length_replicate. lia. Qed.

Section Frame.
Context {K : Type} {HK : Kernel K}.

(** A copy behind the bytes written so far. *)
Lemma wp_append obj xs m off bs (Q : outcome mem -> world K -> Prop) w :
  off = zlen xs -> zlen xs + zlen bs <= zlen m -> Q (Done (overlay (xs ++ bs) m)) w ->
  wp (copy_in obj (overlay xs m) off bs) Q w.
Proof.
  intros -> Hl HQ. pose proof (zlen_nonneg xs). pose proof (zlen_nonneg bs).
  apply wp_copy_in; [lia|rewrite zlen_overlay; lia|]. by rewrite overlay_blit.
Qed.

(** The bytes written so far. *)
Lemma wp_slice_overlay obj xs m n (Q : outcome (list Z) -> world K -> Prop) w :
  n = zlen xs -> Q (Done xs) w -> wp (slice obj (overlay xs m) 0 n) Q w.
Proof.
  intros -> HQ. unfold slice. rewrite zdrop_0. unfold overlay, ztake, zlen. rewrite Nat2Z.id, take_app_length' by (by rewrite length_init).
  assert (mapM id (init xs) = Some xs) as ->.
  { unfold init. clear HQ. induction xs as [|x xs IH]; [done|]. cbn. change (mapM id (map Some xs)) with (mapM (M := option) id (map Some xs)).
    rewrite IH. done. }
  rewrite Z.eqb_refl. by wp_step.
Qed.

Lemma wp_eth_header src (Q : outcome (mem * Z) -> world K -> Prop) w : zlen src = 6 ->
  Q (Done (overlay (dest_mac ++ src ++ [8; 0]) (uninit ETH_FRAME_LEN), ETH_HDR_LEN)) w ->
  wp (eth_header (uninit ETH_FRAME_LEN) src) Q w.
Proof.
  intros Hs HQ. assert (zlen (uninit ETH_FRAME_LEN) = ETH_FRAME_LEN) as Hl by done. unfold ETH_FRAME_LEN in *.
  unfold eth_header. rewrite <- (overlay_nil (uninit 1514)).
  wp_step. apply wp_append; [done|rewrite Hl; done|]. cbn [post app]. wp_step.
  apply wp_append; [done|rewrite Hl, Hs; done|]. cbn [post]. wp_step.
  apply wp_wr_overlay; [rewrite zlen_app, Hs; done|rewrite zlen_app, Hs, Hl; done|]. cbn [post]. wp_step.
  apply wp_wr_overlay; [rewrite !zlen_app, Hs; done|rewrite !zlen_app, Hs, Hl; done|]. cbn [post]. wp_step.
  rewrite <- !app_assoc. exact HQ.
Qed.

(** Every ending, with the frame that is sent. *)
Definition frame_spec (o : outcome Z) (tr : list event) : Prop :=
  (o = Halt (HExit 1) /\ forall args r, EvCall (Csys "sendto" args) r ∉ tr) \/
  exists sd ri rm rs tr1 tr2, tr = tr1 ++ [EvCall (Csys "ioctl" [AI sd; AS "SIOCGIFINDEX"; AS "wlo1"]) ri;
       EvCall (Csys "ioctl" [AI sd; AS "SIOCGIFHWADDR"; AS "wlo1"]) rm;
       EvCall (Csys "sendto" [AI sd; AB (eth_frame (sa_data rm) (bytes_of payload)); AI 0; AI (nth 0 (out ri) 0); AI 6; AB dest_mac]) rs] ++ tr2 /\
    exists c, if ret rs <? 0 then exists e, o = Halt (HExit 1) /\ tr2 = [EvPerror "sendto" e; EvCall (Cclose sd) c]
    else o = Done 0 /\ tr2 = [EvOut stdout (cat ["Packet sent successfully"; nl]); EvCall (Cclose sd) c].

End Frame.

(** The program sends exactly one frame, to the broadcast address, from the address of
    the interface, of type 0x0800 and with the text; its socket is closed afterwards; it
    ends with 1 without sending when the socket or the interface is not there. *)
Theorem eth_frame_sent {K} `{Kernel K} (w : world K) :
  exists o w' tr, main w = (o, w') /\ trace w' = trace w ++ tr /\ frame_spec o tr.
Proof.
  apply wp_trace. unfold main, frame_spec. cbn zeta.
  wp_seq. destruct (ret r =? -1); [wp_seq; leaf; left; split; [done|]; intros args r' Hin; cbn in Hin; set_solver|].
  wp_seq. destruct (ret r0 <? 0); [wp_seq; leaf; left; split; [done|]; intros args r' Hin; cbn in Hin; set_solver|].
  wp_seq. destruct (ret r1 <? 0); [wp_seq; leaf; left; split; [done|]; intros args r' Hin; cbn in Hin; set_solver|].
  wp_step. wp_step. apply wp_eth_header; [apply sa_data_len|]. cbn [post]. wp_step.
  apply wp_append; [rewrite !zlen_app, sa_data_len; done|rewrite !zlen_app, sa_data_len; done|]. cbn [post]. wp_step.
  apply wp_slice_overlay; [rewrite !zlen_app, sa_data_len; done|]. cbn [post].
  rewrite <- !app_assoc. wp_seq. destruct (ret r2 <? 0) eqn:E; wp_seq; leaf; right;
    exists (ret r), r0, r1, r2; eexists [_], _; (split; [reflexivity|]); eexists; rewrite E; [|done].
  eexists. split; [done|]. reflexivity.
Qed.
