(* ===== verification/Strtoul.v ===== *)
(** strtoul of the C library, for the bases the programs use, and what it makes of the
    text of a hexadecimal conversion. *)
From S2P Require Import Prelude CMonad CLib Decimal.

Definition digit_val (c : Z) : option Z :=
  if (48 <=? c) && (c <=? 57) then Some (c - 48)
  else if (97 <=? c) && (c <=? 122) then Some (c - 87)
  else if (65 <=? c) && (c <=? 90) then Some (c - 55)
  else None.

Definition digit_in (base c : Z) : option Z :=
  match digit_val c with Some d => if d <? base then Some d else None | None => None end.

Fixpoint based_val (base acc : Z) (bs : list Z) : Z :=
  match bs with
  | b :: bs' => match digit_in base b with Some d => based_val base (base * acc + d) bs' | None => acc end
  | [] => acc
  end.

(** The base that a number is in and its digits: 0x is allowed for base 16, and decides
    it, as a leading 0 does, for base 0. *)
Definition base_of (base : Z) (bs : list Z) : Z * list Z :=
  match bs with
  | 48 :: x :: d :: bs' =>
      if ((x =? 120) || (x =? 88)) && ((base =? 16) || (base =? 0)) && bool_decide (is_Some (digit_in 16 d))
      then (16, d :: bs')
      else if base =? 0 then (8, bs) else (base, bs)
  | 48 :: _ => if base =? 0 then (8, bs) else (base, bs)
  | _ => if base =? 0 then (10, bs) else (base, bs)
  end.

(** Saturates at the largest value; a minus negates in the unsigned type. *)
Definition strtoul (base : Z) (s : string) : Z :=
  let value ds := let '(b, ds) := base_of base ds in based_val b 0 ds in
  let clamp v := Z.min (2 ^ 64 - 1) v in
  match skip_space (bytes_of s) with
  | 45 :: ds => let v := value ds in if 2 ^ 64 - 1 <? v then 2 ^ 64 - 1 else wrapu 64 (- v)
  | 43 :: ds => clamp (value ds)
  | ds => clamp (value ds)
  end.

(** ** Reading back a hexadecimal text *)

Lemma based_val_app base acc l l' : Forall (fun b => is_Some (digit_in base b)) l ->
  based_val base acc (l ++ l') = based_val base (based_val base acc l) l'.
Proof. intros H. revert acc. induction H as [|b l [d Hd] _ IH]; intros acc; cbn; [done|]. rewrite Hd. apply IH. Qed.

Lemma hexdigit_in d : 0 <= d < 16 -> digit_in 16 (hexdigit d) = Some d.
Proof.
  intros Hd. unfold hexdigit, digit_in, digit_val. destruct (Z.ltb_spec d 10); zbool; cbn [andb]; zbool; try lia; f_equal; lia.
Qed.

Lemma hex_digits_in n z : Forall (fun b => is_Some (digit_in 16 b)) (hex_digits n z).
Proof.
  revert z. induction n as [|n IH]; intros z; cbn [hex_digits]; [constructor|]. apply Forall_app. split.
  - destruct (z / 16 =? 0); [constructor|apply IH].
  - constructor; [|constructor]. exists (z mod 16). apply hexdigit_in. apply Z.mod_pos_bound. lia.
Qed.

Lemma based_val_hex n z : 0 <= z < 16 ^ Z.of_nat n -> based_val 16 0 (hex_digits n z) = z.
Proof.
  revert z. induction n as [|n IH]; intros z Hz; [cbn in *; lia|]. cbn [hex_digits].
  rewrite based_val_app by (destruct (z / 16 =? 0); [constructor|apply hex_digits_in]). cbn [based_val].
  rewrite hexdigit_in by (apply Z.mod_pos_bound; lia). pose proof (Z.div_mod z 16 ltac:(lia)).
  destruct (Z.eqb_spec (z / 16) 0) as [E|E]; cbn [based_val]; [lia|]. rewrite IH; [lia|].
  rewrite Nat2Z.inj_succ, Z.pow_succ_r in Hz by lia. split; [apply Z.div_pos; lia|]. apply Z.div_lt_upper_bound; lia.
Qed.

Lemma hex_digits_len n z : (length (hex_digits n z) <= n)%nat.
Proof.
  revert z. induction n as [|n IH]; intros z; cbn [hex_digits]; [done|]. rewrite length_app. cbn [length].
  destruct (z / 16 =? 0); [cbn; lia|]. specialize (IH (z / 16)). lia.
Qed.

Lemma hex_digits_cons n z : exists d ds, hex_digits (S n) z = d :: ds.
Proof. cbn [hex_digits]. destruct (_ ++ [_]) as [|d ds] eqn:E; [by apply app_nil in E as [_ E]|eauto]. Qed.

Lemma hex_digits_bytes n z : Forall byte_ok (hex_digits n z).
Proof.
  eapply Forall_impl; [apply hex_digits_in|]. intros b [d Hd]. unfold digit_in, digit_val in Hd. unfold byte_ok.
  revert Hd. zbool; cbn [andb]; zbool; try done; lia.
Qed.

(** Printed with 0x%x and read back with base 16, an unsigned int is itself. *)
Lemma strtoul_hex z : strtoul 16 ("0x" +:+ text_of (fmt_x z)) = wrapu 32 z.
Proof.
  assert (0 <= wrapu 32 z < 2 ^ 32) as Hz by (apply Z.mod_pos_bound; lia).
  unfold strtoul. rewrite bytes_of_app, bytes_of_text_of by apply hex_digits_bytes.
  change (bytes_of "0x") with [48; 120]. cbn -[fmt_x based_val Z.min].
  unfold fmt_x. destruct (hex_digits_cons 7 (wrapu 32 z)) as (d & ds & E). rewrite E. cbn -[based_val Z.min].
  rewrite bool_decide_eq_true_2. 2:{ pose proof (hex_digits_in 8 (wrapu 32 z)) as H. rewrite E in H. by inversion H. }
  rewrite <- E, based_val_hex by (change (16 ^ Z.of_nat 8) with (2 ^ 32); done). apply Z.min_r. lia.
Qed.

(** snprintf keeps a text that fits. *)
Lemma snprintf_fits n s : strlen s < n -> snprintf n s = s.
Proof.
  intros Hl. unfold snprintf. rewrite <- (text_of_bytes_of (String.substring _ _ s)), bytes_of_substring, take_ge, text_of_bytes_of; [done|].
  rewrite <- zlen_bytes_of in Hl. unfold zlen in Hl. lia.
Qed.
