(* ===== verification/StackMem.v ===== *)
(** src/signalling/handle_segfault/stackmem_corrupt/stackmem_corrupt.c: the program asks how
    large its stack is, overwrites it and reports the SIGSEGV that follows.  As in
    [Segv] the access is a call that may answer that it faulted; the addresses of the
    local variables, the size of a page and the text of psiginfo are parameters. *)
From S2P Require Import Prelude CMonad CLib Decimal Strtoul Segv.

Section Code.
Context {K : Type} {HK : Kernel K}.
Context (top_addr stack_addr pgsz : Z) (psiginfo_text : siginfo -> string).

Definition rule : string := "------------------------------------------------------------".

(** SEGV_BNDERR and SEGV_PKUERR are compiled out. *)
Definition cause (code : Z) : string := default "-none-" (origin code).

(** SA_RESTART | SA_SIGINFO; the signal that is raised stays pending while the handler
    runs. *)
Definition myfault (signum : Z) (si : siginfo) : C K unit :=
  fprintf stderr (cat [nl; "------------------- FATAL signal ---------------------------"; nl]);;
  fprintf stderr (cat [" myfault: received signal "; fmt_d signum; ". errno="; fmt_d (si_errno si); nl;
                       " Cause/Origin: (si_code="; fmt_d (si_code si); "): "]);;
  fprintf stderr (cat [cause (si_code si); nl]);;
  fprintf stderr (cat [" Faulting instr or address = "; fmt_p (si_addr si); nl]);;
  fprintf stderr (cat [rule; nl]);;
  fprintf stderr (psiginfo_text si);;
  fprintf stderr (cat [rule; nl]);;
  r ← sys "sigaction" [AI SIGSEGV; AS "SIG_DFL"; AI 268435460; AI 0];
  (if r =? -1 then perror "sigaction";; exit 1 else mret tt);;
  r ← sys "raise" [AI SIGSEGV];
  if negb (r =? 0) then fprintf stderr "raise SIGSEGV failed";; exit 1 else mret tt.

Definition setup_altsigstack (stack_sz : Z) : C K Z :=
  printf (cat ["Alt signal stack size = "; fmt_d stack_sz; " bytes"; nl]);;
  p ← syscall (Cmalloc stack_sz);
  if ret p =? 0 then
    printf (cat ["malloc("; fmt_d stack_sz; ") for alt sig stack failed"; nl]);; mret (- ENOMEM)
  else
    r ← sys "sigaltstack" [AI (ret p); AI stack_sz];
    if r =? -1 then
      printf (cat ["sigaltstack for size "; fmt_d stack_sz; " failed!"; nl]);;
      e ← get_errno;
      mret (- e)
    else mret 0.

(** [memset] of memory that belongs to no object: it faults, or what the frames of the
    callers hold is gone.  After the handler the pending signal is delivered, with its
    default action. *)
Definition overwrite (start c n : Z) : C K unit :=
  r ← syscall (Csys "memset" [AI start; AI c; AI n]);
  if ret r =? -1 then myfault SIGSEGV (info_of (out r));; halt_with (HKilled SIGSEGV)
  else undefined (UB_bounds "stack" start).

Definition fn : string := "write_underflow_corruptstack".

Definition write_underflow_corruptstack : C K unit :=
  printf (cat [fn; "(): approx stack top (~ curr sp) is "; fmt_p top_addr; nl]);;
  l ← syscall (Csys "prlimit" [AI 0; AI 3]);
  if ret l <? 0 then perror "prlimit failed"
  else
  printf (cat [fn; "(): stack resource limits: soft="; fmt_d (nth 0 (out l) 0); ", hard="; fmt_d (nth 1 (out l) 0); nl]);;
  me ← sys "getpid" [];
  let cmd := snprintf 128 (cat ["./getmapsize "; fmt_d me; " stack"]) in
  fp ← sys "popen" [AS cmd; AS "r"];
  if fp =? 0 then perror "popen failed"
  else
  sz ← syscall (Csys "fgets" [AI 9; AI fp]);
  if ret sz =? 0 then undefined (UB_null "atoi")
  else
  let stacksz := atoi (text_of (out sz)) in
  if stacksz <=? 0 then
    sys "pclose" [AI fp];;
    fprintf stderr (cat [fn; "():getting actual stack size failed"; nl])
  else
  sys "pclose" [AI fp];;
  printf (cat [fn; "():actual process (T0 thread) stack size = "; fmt_d stacksz; " (0x"; text_of (fmt_x stacksz); ") bytes"; nl]);;
  (if negb (Z.rem stacksz pgsz =? 0) then
     printf (cat [fn; "():WARNING:actual stack size isn't a rounded page size"; nl])
   else mret tt);;
  let stacksz_hexstr := snprintf 18 ("0x" +:+ text_of (fmt_x stacksz)) in
  let stacksz_hex := strtoul 16 stacksz_hexstr in
  let stackptr := stack_addr in
  printf (cat [fn; "():actual start of stack is 0x"; text_of (hex_digits 16 (wrapu 64 (stackptr - stacksz_hex))); nl]);;
  overwrite (wrapu 64 (stackptr - stacksz_hex)) 120 stacksz.

(** SA_RESTART | SA_SIGINFO | SA_ONSTACK, empty mask.  The array of main only makes the
    stack large. *)
Definition main (argv0 : string) : C K unit :=
  printf (cat [argv0; ": setting up an alt sigstack and trapping SIGSEGV now..."; nl]);;
  s ← setup_altsigstack (10 * 1024 * 1024);
  (if s <? 0 then fprintf stderr (cat [argv0; ": setting up alt sig stack failed"; nl]);; exit 1 else mret tt);;
  r ← sys "sigaction" [AI SIGSEGV; AS "myfault"; AI 402653188; AI 0];
  (if r =? -1 then perror "sigaction";; exit 1 else mret tt);;
  printf (cat ["Running "; argv0; " testcase now..."; nl]);;
  write_underflow_corruptstack;;
  sys "pause" [];;
  exit 0.

End Code.

(** ** The runs *)

Definition report (psiginfo_text : siginfo -> string) (si : siginfo) : list event :=
  map (EvOut stderr)
    [cat [nl; "------------------- FATAL signal ---------------------------"; nl];
     cat [" myfault: received signal "; fmt_d SIGSEGV; ". errno="; fmt_d (si_errno si); nl;
          " Cause/Origin: (si_code="; fmt_d (si_code si); "): "];
     cat [cause (si_code si); nl];
     cat [" Faulting instr or address = "; fmt_p (si_addr si); nl];
     cat [rule; nl]; psiginfo_text si; cat [rule; nl]].

(** After the report: the default action, raised again. *)
Definition reset_call : call := Csys "sigaction" [AI SIGSEGV; AS "SIG_DFL"; AI 268435460; AI 0].
Definition raise_call : call := Csys "raise" [AI SIGSEGV].

Definition reraise (o : outcome unit) (tr : list event) : Prop :=
  exists ra, if ret ra =? -1 then o = Halt (HExit 1) /\ tr = [EvCall reset_call ra; EvPerror "sigaction" (err ra)]
  else exists rr, if ret rr =? 0 then o = Halt (HKilled SIGSEGV) /\ tr = [EvCall reset_call ra; EvCall raise_call rr]
  else o = Halt (HExit 1) /\ tr = [EvCall reset_call ra; EvCall raise_call rr; EvOut stderr "raise SIGSEGV failed"].

(** A run in which nothing was overwritten. *)
Definition no_write (tr : list event) : Prop := forall args r, EvCall (Csys "memset" args) r ∉ tr.

(** The run of the function: it returns without writing when something fails that it
    checks; the size is not a line; or exactly the [sz] bytes below the variable [stack]
    are written, where [sz] is what the script printed. *)
Definition corrupt_spec (stack_addr : Z) (psiginfo_text : siginfo -> string) (o : outcome unit) (tr : list event) : Prop :=
  (o = Done tt /\ no_write tr) \/
  (o = Halt (HUB (UB_null "atoi")) /\ no_write tr /\ exists tr1 fp r, tr = tr1 ++ [EvCall (Csys "fgets" [AI 9; AI fp]) r] /\ ret r = 0) \/
  (exists sz rl fp r tr1 tr2, tr = tr1 ++ EvCall (Csys "memset" [AI (wrapu 64 (stack_addr - sz)); AI 120; AI sz]) r :: tr2 /\
     no_write tr1 /\ EvCall (Csys "fgets" [AI 9; AI fp]) rl ∈ tr1 /\ sz = atoi (text_of (out rl)) /\ 0 < sz <= INT_MAX /\
     if ret r =? -1 then exists tr3, tr2 = report psiginfo_text (info_of (out r)) ++ tr3 /\ reraise o tr3
     else o = Halt (HUB (UB_bounds "stack" (wrapu 64 (stack_addr - sz)))) /\ tr2 = []).

Section Runs.
Context {K : Type} {HK : Kernel K}.
Context (top_addr stack_addr pgsz : Z) (psiginfo_text : siginfo -> string).

(** The access and, when it faults, the handler. *)
Lemma wp_overwrite start c n (w : world K) :
  wp (overwrite psiginfo_text start c n) (adds w (fun o tr =>
    exists r tr1, tr = EvCall (Csys "memset" [AI start; AI c; AI n]) r :: tr1 /\
      if ret r =? -1 then exists tr2, tr1 = report psiginfo_text (info_of (out r)) ++ tr2 /\ reraise o tr2
      else o = Halt (HUB (UB_bounds "stack" start)) /\ tr1 = [])) w.
Proof.
  unfold overwrite, myfault, reraise. wp_seq. destruct (ret r =? -1) eqn:Er.
  - wp_step. do 7 (wp_step; wp_step; cbn [kern errno trace after]). wp_seq. destruct (ret r0 =? -1) eqn:E0.
    { wp_seq. leaf. exists r. eexists. split; [reflexivity|]. rewrite Er. eexists. split; [reflexivity|]. exists r0. rewrite E0.
      split; [done|]. cbn [errno after]. change (call_failed _ (ret r0)) with (ret r0 =? -1). by rewrite E0. }
    wp_seq. destruct (ret r1 =? 0) eqn:E1; cbn [negb]; wp_seq; leaf; exists r; eexists; (split; [reflexivity|]); rewrite Er;
      eexists; (split; [reflexivity|]); exists r0; rewrite E0; exists r1; by rewrite E1.
  - wp_seq. leaf. exists r. eexists. split; [reflexivity|]. by rewrite Er.
Qed.

Definition is_write (e : event) : bool :=
  match e with EvCall (Csys f _) _ => String.eqb f "memset" | _ => false end.

Lemma no_write_all tr : Forall (fun e => is_write e = false) tr -> no_write tr.
Proof. intros H args r Hin. rewrite Forall_forall in H. by apply H in Hin. Qed.

(** A literal list of events without a [memset]. *)
Local Ltac none := apply no_write_all; repeat (constructor; [reflexivity|]); constructor.

Lemma hex_size z : 0 < z <= INT_MAX -> strtoul 16 (snprintf 18 ("0x" +:+ text_of (fmt_x z))) = z.
Proof.
  intros Hz. rewrite snprintf_fits, strtoul_hex; [apply Z.mod_small; unfold INT_MAX in Hz; lia|].
  rewrite <- zlen_bytes_of, bytes_of_app, bytes_of_text_of by apply hex_digits_bytes. rewrite zlen_app.
  pose proof (hex_digits_len 8 (wrapu 32 z)). unfold fmt_x, zlen. cbn [length bytes_of]. lia.
Qed.

Lemma wp_corrupt (w : world K) :
  wp (write_underflow_corruptstack top_addr stack_addr pgsz psiginfo_text) (adds w (corrupt_spec stack_addr psiginfo_text)) w.
Proof.
  unfold write_underflow_corruptstack, corrupt_spec. cbn zeta.
  wp_seq. rename r into rl. destruct (ret rl <? 0); [wp_seq; leaf; left; split; [done|none]|].
  wp_seq. rename r0 into rp. destruct (ret rp =? 0); [wp_seq; leaf; left; split; [done|none]|].
  wp_seq. rename r0 into rz. destruct (Z.eqb_spec (ret rz) 0) as [Ez|Ez].
  { wp_seq. leaf. right. left. split; [done|]. split; [none|]. eexists [_; _; _; _; _], _, rz. split; [reflexivity|done]. }
  destruct (Z.leb_spec (atoi (text_of (out rz))) 0) as [Hs|Hs]; [wp_seq; leaf; left; split; [done|none]|].
  assert (0 < atoi (text_of (out rz)) <= INT_MAX) as Hr by (split; [done|apply to_int_range]).
  rewrite hex_size by done. remember (atoi (text_of (out rz))) as sz eqn:Esz.
  wp_seq. destruct (negb (Z.rem sz pgsz =? 0)); wp_seq; (eapply wp_adds; [apply wp_overwrite|]);
    intros o w' tr Ht (r' & tr1 & -> & Hend); (eexists; split; [rewrite Ht; cbn [after trace]; rewrite <- ?app_assoc; reflexivity|]);
    right; right; exists sz, rz, (ret rp), r'.
  - eexists [_; _; _; _; _; _; _; _; _; _], tr1. split; [reflexivity|]. split; [none|]. split; [do 5 apply list_elem_of_further; apply list_elem_of_here|]. done.
  - eexists [_; _; _; _; _; _; _; _; _], tr1. split; [reflexivity|]. split; [none|]. split; [do 5 apply list_elem_of_further; apply list_elem_of_here|]. done.
Qed.

End Runs.

(** Every run of stackmem_corrupt.c, from the alternate stack on. *)
Definition stackmem_spec (stack_addr : Z) (psiginfo_text : siginfo -> string) (argv0 : string)
    (o : outcome unit) (tr : list event) : Prop :=
  exists rm tr1,
    tr = [EvOut stdout (cat [argv0; ": setting up an alt sigstack and trapping SIGSEGV now..."; nl]);
          EvOut stdout (cat ["Alt signal stack size = "; fmt_d alt_stack_size; " bytes"; nl]); EvCall (Cmalloc alt_stack_size) rm] ++ tr1 /\
    let failed := EvOut stderr (cat [argv0; ": setting up alt sig stack failed"; nl]) in
    if ret rm =? 0 then
      o = Halt (HExit 1) /\ tr1 = [EvOut stdout (cat ["malloc("; fmt_d alt_stack_size; ") for alt sig stack failed"; nl]); failed]
    else exists ra tr2, tr1 = EvCall (Csys "sigaltstack" [AI (ret rm); AI alt_stack_size]) ra :: tr2 /\
    if ret ra =? -1 then
      o = Halt (HExit 1) /\ tr2 = [EvOut stdout (cat ["sigaltstack for size "; fmt_d alt_stack_size; " failed!"; nl]); failed]
    else exists rs tr3, tr2 = EvCall (Csys "sigaction" [AI SIGSEGV; AS "myfault"; AI 402653188; AI 0]) rs :: tr3 /\
    if ret rs =? -1 then o = Halt (HExit 1) /\ tr3 = [EvPerror "sigaction" (err rs)]
    else exists oc trc tr4, tr3 = EvOut stdout (cat ["Running "; argv0; " testcase now..."; nl]) :: trc ++ tr4 /\
      corrupt_spec stack_addr psiginfo_text oc trc /\
      match oc with
      | Done _ => o = Halt (HExit 0) /\ exists rp, tr4 = [EvCall (Csys "pause" []) rp]
      | Halt h => o = Halt h /\ tr4 = []
      end.

(** stackmem_corrupt.c sets up its alternate stack and its handler, or ends with 1 before
    anything else; then it overwrites exactly the bytes from the variable [stack]
    downwards that the script says the stack has.  The write that faults is reported in
    full, with the cause and the address the kernel gives, the default action is set
    again without the alternate stack and the signal raised, and the process dies from
    SIGSEGV, or ends with 1 when one of the two calls fails; it does not go on after the
    write.  When the size cannot be found it writes nothing and ends with 0. *)
Theorem stackmem_reported {K} `{HP : PosixKernel K} top_addr stack_addr pgsz psiginfo_text argv0 (w : world K) :
  exists o w' tr, main top_addr stack_addr pgsz psiginfo_text argv0 w = (o, w') /\ trace w' = trace w ++ tr /\
    stackmem_spec stack_addr psiginfo_text argv0 o tr.
Proof.
  apply wp_trace. unfold stackmem_spec, main, setup_altsigstack. cbn zeta.
  wp_seq. rename r into rm. destruct (ret rm =? 0) eqn:Em.
  { wp_seq. change (- ENOMEM <? 0) with true. wp_seq. leaf. exists rm. eexists. split; [reflexivity|]. by rewrite Em. }
  wp_call. apply wp_syscall_posix. intros ra ka [Hf _] Hka. cbn [post]. wp_seq. destruct (ret ra =? -1) eqn:Era.
  { wp_seq. cbn [errno after]. change (call_failed _ (ret ra)) with (ret ra =? -1) in *. rewrite Era. specialize (Hf Era).
    destruct (Z.ltb_spec (- err ra) 0); [|lia]. wp_seq. leaf. exists rm. eexists. split; [reflexivity|].
    rewrite Em. exists ra. eexists. split; [reflexivity|]. by rewrite Era. }
  wp_seq. change (0 <? 0) with false. wp_seq. rename r into rs. destruct (ret rs =? -1) eqn:Ers.
  { wp_seq. leaf. exists rm. eexists. split; [reflexivity|]. rewrite Em. exists ra. eexists.
    split; [reflexivity|]. rewrite Era. exists rs. eexists. split; [reflexivity|]. rewrite Ers. split; [done|].
    cbn [errno after]. change (call_failed _ (ret rs)) with (ret rs =? -1). by rewrite Ers. }
  wp_seq. eapply wp_adds; [apply wp_corrupt|]. intros oc w' trc Ht Hc. destruct oc as [[]|h]; cbn [post].
  - wp_seq. eexists. split; [cbn [after trace]; rewrite Ht; cbn [after trace]; rewrite <- ?app_assoc; reflexivity|].
    exists rm. eexists. split; [reflexivity|]. rewrite Em. exists ra. eexists. split; [reflexivity|]. rewrite Era.
    exists rs. eexists. split; [reflexivity|]. rewrite Ers. exists (Done tt), trc. eexists. split; [reflexivity|]. split; [exact Hc|]. split; [done|]. by eexists.
  - eexists. split; [rewrite Ht; cbn [after trace]; rewrite <- ?app_assoc; reflexivity|].
    exists rm. eexists. split; [reflexivity|]. rewrite Em. exists ra. eexists. split; [reflexivity|]. rewrite Era.
    exists rs. eexists. split; [reflexivity|]. rewrite Ers. exists (Halt h), trc, []. split; [by rewrite app_nil_r|]. done.
Qed.
