(* ===== verification/Zombies.v ===== *)
(** src/signalling/zombies_clear_traditional.c and src/signalling/zombies_clear_linux26.c:
    a parent that does not wait for its child, and what becomes of the zombie.  The
    programs run on the machine of [Proc]; the theorems are about every schedule. *)
From S2P Require Import Prelude CMonad CLib Decimal Proc SigCrit ForkDemo.

Definition parent_text (me : Z) : string := cat ["parent: "; fmt_d me; nl].
Definition child_text (me : Z) : string := cat ["child: "; fmt_d me; nl].

(** The child's case of both programs: [n] turns of its delay loop. *)
Definition child (n : nat) : prog Z :=
  me ← pcall1 Getpid;
  pprintf (child_text me) ≫= fun _ =>
  DELAY_LOOP 99 n ≫= fun _ =>
  pexit 0.

(** The fields of a process that was updated. *)
Ltac fields :=
  unfold goto, with_act, with_mask, with_pend, block;
  cbn [p_pid p_ppid p_code p_mem p_blocked p_mask p_pend p_act p_zombie].

(** ** What the delay loop does *)

Definition delaying (val : Z) (code : Z) (n : nat) : prog unit :=
  pbind (fun r => Exit r) (pbind (fun _ : unit => pexit code) (DELAY_LOOP val n)).

Lemma delaying_S val code n : delaying val code (S n) =
  Out stdout (chr (to_uchar val)) (Call (Nanosleep 100000000) (fun _ => delaying val code n)).
Proof. reflexivity. Qed.

Lemma delaying_out pid m val code n :
  transcript pid (delaying val code n) m = Some (replicate n (EOut stdout (chr (to_uchar val))) ++ [EExit (exit_status code)]).
Proof.
  induction n as [|n IH]; [done|]. rewrite delaying_S. cbn [transcript]. by rewrite IH.
Qed.

(** What a child [b] of [n] turns does. *)
Definition child_out (n : nat) (b : Z) : list pevent :=
  EOut stdout (child_text b) :: replicate n (EOut stdout "c") ++ [EExit 0].

Lemma delay_child_transcript n b m : transcript b (pbind (fun r => Exit r) (child n)) m = Some (child_out n b).
Proof.
  change (cons (EOut stdout (child_text b)) <$> transcript b (delaying 99 0 n) m = Some (child_out n b)).
  by rewrite delaying_out.
Qed.

(** ** Logs and fresh numbers *)

Lemma proj_of_own a X : proj a (map (pair a) X) = X.
Proof. exact (proj_map a [] X). Qed.

Lemma proj_of_other a b X : b <> a -> proj b (map (pair a) X) = [].
Proof. exact (proj_map_other b a [] X). Qed.

Lemma fresh_one o p : fresh o [p] = true -> 1 < o /\ o <> p_pid p /\ o <> p_ppid p.
Proof.
  unfold fresh. cbn [existsb]. intros [Hb%Z.ltb_lt Hn%negb_true_iff]%andb_prop.
  apply orb_false_iff in Hn as [[H1%Z.eqb_neq H2%Z.eqb_neq]%orb_false_iff _]. split; [done|]. by split; apply not_eq_sym.
Qed.

(** ** A child that lives on its own *)

(** Child [b] of [n] turns is alive, its parent is [x]. *)
Record alive_kid (n : nat) (b x : Z) (log : list (Z * pevent)) (q : proc) : Prop := AliveKid {
  ak_pid : p_pid q = b;
  ak_ppid : p_ppid q = x;
  ak_alive : dead q = false;
  ak_pend : p_pend q = 0;
  ak_out : exists t, transcript b (p_code q) (p_mem q) = Some t /\ proj b log ++ t = child_out n b }.

(** It ends with status 0 when it has done all, or goes on. *)
Lemma delay_kid_moves n b x T ps log q s' : alive_kid n b x log q -> moves T (Sys ps log) q s' ->
  s' = do_exit (Sys ps log) q 0 /\ proj b log ++ [EExit 0] = child_out n b \/
  exists q' es, s' = Sys (put_proc q' ps) (log ++ map (pair b) es) /\
    alive_kid n b x (log ++ map (pair b) es) q'.
Proof.
  intros [E1 E2 E3 E4 (t & Et & Eo)] [_ Hm].
  assert (forall q' es t', advanced q q' -> t = es ++ t' -> transcript b (p_code q') (p_mem q') = Some t' ->
    alive_kid n b x (log ++ map (pair b) es) q') as Hgo.
  { intros q' es t' (H1 & H2 & H3 & H4 & H5 & H6) -> Ht'. constructor; [congruence..| | |].
    - unfold dead in *. by rewrite H6.
    - congruence.
    - exists t'. split; [done|]. by rewrite proj_map, <- app_assoc. }
  rewrite <- E1 in Et. destruct Hm as [(o & Hr) | [(sig & o & Hd & _) | Hw]].
  - destruct (transcript_run _ _ _ _ _ _ Et Hr) as [(st & -> & ->) | (q' & es & t' & -> & Ha & Hes & Ht')].
    + left. assert (exit_status st = 0) as Est.
      { unfold child_out in Eo. rewrite app_comm_cons in Eo. by apply app_inj_tail in Eo as [_ [= ->]]. }
      rewrite Est in *. done.
    + right. exists q', es. rewrite E1 in Ht' |- *. split; [done|]. by eapply Hgo.
  - by rewrite deliverable_none in Hd.
  - destruct (transcript_wake _ _ _ _ Et Hw) as (q' & -> & Ha & Ht'). right. exists q', []. cbn [map].
    rewrite app_nil_r. split; [done|]. rewrite <- (app_nil_r log). apply (Hgo q' [] t); [done..|]. by rewrite <- E1.
Qed.

Lemma alive_kid_log n b x log q a es : b <> a -> alive_kid n b x log q -> alive_kid n b x (log ++ map (pair a) es) q.
Proof. intros Hn [E1 E2 E3 E4 E5]. constructor; [done..|]. by rewrite proj_map_other. Qed.

(** ** A program that sets an action for SIGCHLD and forks *)

Definition acts1 (act : sigact) : Z -> sigact := fun x => if x =? SIGCHLD then act else act_default.

Section Starting.
Context (a pp : Z) (Ha : 1 < a) (Hpp : 1 < pp) (Hne : pp <> a).

Definition pid_ok (b : Z) : Prop := 1 < b /\ b <> a /\ b <> pp.

(** The death of the parent, whose own parent is outside. *)
Lemma parent_exit p cs log st : p_pid p = a -> p_ppid p = pp ->
  (forall q, In q cs -> p_pid q <> a /\ p_pid q <> pp) ->
  do_exit (Sys (p :: cs) log) p st = Sys (with_zombie p st :: disown a cs) (log ++ [(a, EExit st)]).
Proof.
  intros Ea Ep Hcs. assert (forall q, In q (disown a cs) -> p_pid q <> a /\ p_pid q <> pp) as Hd.
  { intros q (q0 & Hq & E & _)%in_disown. rewrite E. auto. }
  unfold do_exit, add_log. cbn [procs plog]. rewrite Ea, Ep. f_equal. rewrite (proj2 (Z.eqb_neq pp 1)) by lia.
  assert (disown a (p :: cs) = p :: disown a cs) as ->.
  { unfold disown. cbn. by rewrite Ep, (proj2 (Z.eqb_neq pp a)) by done; cbn; rewrite Ep, (proj2 (Z.eqb_neq pp a)) by done. }
  assert (find_pid pp (p :: disown a cs) = None) as ->.
  { unfold find_pid. destruct (List.find _ _) as [q|] eqn:E; [|done]. apply List.find_some in E as [[<- | Hq] Eq%Z.eqb_eq]; [congruence|].
    by destruct (Hd q Hq). }
  rewrite put_cons_same by done. f_equal. apply put_none. intros q Hq. cbn. rewrite Ea. by apply Hd.
Qed.

Section Codes.
Context (T : table) (act : sigact) (n : nat) (rest A0 A1 A2 A3 : prog unit).

(** [A0] to [A3] are main before each of its calls: sigaction, getpid, printf, fork; the
    parent goes on with [rest]. *)
Definition codes : Prop :=
  (exists k, A0 = Call (Sigaction SIGCHLD act) k /\ k (0, 0) = A1) /\
  (exists k, A1 = Call Getpid k /\ k (a, 0) = A2) /\
  A2 = Out stdout (parent_text a) A3 /\
  (exists k, A3 = Call Fork k /\ k (-1, 0) = Perror "fork failed" (Exit 1) /\
     k (0, 0) = pbind (fun r => Exit r) (child n) /\ forall b, 1 < b -> k (b, 0) = rest).

(** The parent before the child is there. *)
Inductive early : prog unit -> (Z -> sigact) -> list pevent -> Prop :=
| early_0 : early A0 (fun _ => act_default) []
| early_1 : early A1 (acts1 act) []
| early_2 : early A2 (acts1 act) []
| early_3 : early A3 (acts1 act) [EOut stdout (parent_text a)]
| early_4 : early (Perror "fork failed" (Exit 1)) (acts1 act) [EOut stdout (parent_text a)]
| early_5 : early (Exit 1) (acts1 act) [EOut stdout (parent_text a); EPerror "fork failed"].

(** The parent alone: before the fork, or after one that failed. *)
Inductive starting : sys -> Prop :=
| starting_at code acts blk X : early code acts X ->
    starting (Sys [Proc a pp code mem0 blk 0 0 acts None] (map (pair a) X))
| starting_failed p : dead p = true -> p_pid p = a ->
    starting (Sys [p] (map (pair a) [EOut stdout (parent_text a); EPerror "fork failed"; EExit 256])).

(** The child is there. *)
Definition forked_now (s : sys) : Prop :=
  exists b q, pid_ok b /\ alive_kid n b a (map (pair a) [EOut stdout (parent_text a)]) q /\
    s = Sys [Proc a pp rest mem0 false 0 0 (acts1 act) None; q] (map (pair a) [EOut stdout (parent_text a)]).

Lemma early_step code acts blk X s' : codes -> early code acts X ->
  moves T (Sys [Proc a pp code mem0 blk 0 0 acts None] (map (pair a) X)) (Proc a pp code mem0 blk 0 0 acts None) s' ->
  starting s' \/ forked_now s'.
Proof.
  intros Hcodes He (_ & [(o & Hr) | [(sig & o & Hd & _) | Hw]]).
  2: by rewrite deliverable_none in Hd.
  2: { unfold wake in Hw. cbn [p_blocked p_code] in Hw. destruct blk; [|done]. destruct Hcodes as ((k0 & E0 & _) & (k1 & E1 & _) & E2 & (k3 & E3 & _)).
    destruct He; by rewrite ?E0, ?E1, ?E2, ?E3 in Hw. }
  destruct Hcodes as ((k0 & E0 & E0') & (k1 & E1 & E1') & E2 & (k3 & E3 & E3f & E3c & E3p)).
  assert (forall code' acts' X', early code' acts' X' ->
    starting (Sys [Proc a pp code' mem0 false 0 0 acts' None] (map (pair a) X'))) as Hgo by (intros; by apply starting_at).
  unfold run1 in Hr. cbn [p_code] in Hr. destruct He.
  - rewrite E0 in Hr. injection Hr as <-. rewrite put_first by done. fields. rewrite E0'. left. exact (Hgo _ _ _ early_1).
  - rewrite E1 in Hr. injection Hr as <-. rewrite put_first by done. fields. rewrite E1'. left. exact (Hgo _ _ _ early_2).
  - rewrite E2 in Hr. injection Hr as <-. rewrite put_first by done. left. exact (Hgo _ _ _ early_3).
  - rewrite E3 in Hr. cbn [do_call procs] in Hr. destruct (fresh o _) eqn:Ef; injection Hr as <-.
    + apply fresh_one in Ef as (Hb & Hn1 & Hn2).
      cbn [app]. rewrite put_first by (done || (intros q [<- | []]; done)). fields.
      rewrite E3c, E3p by done.
      right. eexists o, _. split; [done|]. split; [|reflexivity]. constructor; [done..|]. exists (child_out n o).
      split; [apply delay_child_transcript|]. by rewrite proj_of_other.
    + rewrite put_first by done. fields. rewrite E3f. left. exact (Hgo _ _ _ early_4).
  - injection Hr as <-. rewrite put_first by done. left. exact (Hgo _ _ _ early_5).
  - injection Hr as <-. rewrite parent_exit by done. left. by apply starting_failed.
Qed.

Lemma starting_step s p s' : codes -> starting s -> In p (procs s) -> moves T s p s' -> starting s' \/ forked_now s'.
Proof.
  intros Hc [code acts blk X He|p0 Hd _] [<- | []] Hm; [by eapply early_step|]. destruct Hm as [? _]. congruence.
Qed.

Lemma starting_seen s : starting s ->
  proj a (plog s) `prefix_of` [EOut stdout (parent_text a); EPerror "fork failed"; EExit 256] /\ map p_pid (procs s) = [a].
Proof.
  intros [code acts blk X He|p Hd Ep]; cbn [plog procs]; rewrite proj_of_own; (split; [|cbn; congruence]); [|done].
  destruct He; by eexists.
Qed.

End Codes.
End Starting.

(** ** zombies_clear_traditional.c *)

Module Traditional.

Definition pid_text (me : Z) : string := cat [nl; "PID: "; fmt_d me; nl].
Definition cleared (pid : Z) : string := cat [nl; "** Zombie "; fmt_d pid; " cleared **"; nl].

(** One turn of [while ((pid = wait3(0, WNOHANG, 0)) != -1)]. *)
Definition clear_iter (_ : unit) : prog (unit + unit) :=
  pid ← pcall1 (Wait true);
  if pid =? -1 then mret (inr tt)
  else pprintf (cleared pid) ≫= fun _ => mret (inl tt).

Definition clearzomb (fuel : nat) (signum : Z) : prog unit :=
  me ← pcall1 Getpid;
  pprintf (pid_text me) ≫= fun _ =>
  ploop fuel clear_iter tt.

Definition functions (fuel : nat) : table := fun f sig =>
  if String.eqb f "clearzomb" then clearzomb fuel sig else Forever "".

Definition usage (argv0 : string) : string :=
  cat ["Usage: "; argv0; " option{0|1}"; nl;
       " 0 : don't trap SIGCHLD and thus the zombie will happen"; nl;
       " 1 : do trap SIGCHLD and thus clear the zombie"; nl].

Definition act : sigact := Sigact (SIG_FN "clearzomb") sigemptyset (Z.lor SA_RESTART SA_NOCLDSTOP).

Definition set_handler : prog unit :=
  r ← pcall1 (Sigaction SIGCHLD act);
  if r =? -1 then pperror "sigaction failed" ≫= fun _ => pexit 1 else mret tt.

Definition main (argv : list string) : prog Z :=
  if argc argv <? 2 then pfprintf stderr (usage (arg_n argv 0)) ≫= fun _ => pexit 1
  else
  let clear_zombie := if atoi (arg_n argv 1) =? 1 then 1 else 0 in
  (if clear_zombie =? 1 then set_handler else mret tt) ≫= fun _ =>
  me ← pcall1 Getpid;
  pprintf (parent_text me) ≫= fun _ =>
  n ← pcall1 Fork;
  if n =? -1 then pperror "fork failed" ≫= fun _ => pexit 1
  else if n =? 0 then child 25
  else DELAY_LOOP 112 50 ≫= fun _ => pexit 0.

(** *** The states *)

Section Run.
Context (fuel : nat) (Hfuel : (2 <= fuel)%nat) (argv : list string) (a pp : Z).
Context (Ha : 1 < a) (Hpp : 1 < pp) (Hne : pp <> a).

Definition P : pevent := EOut stdout "p".

(** What the handler does to the child [b]. *)
Definition handler_out (b : Z) : list pevent :=
  [EHandler SIGCHLD; EOut stdout (pid_text a); EReap b 0; EOut stdout (cleared b)].

(** The parent's events: [n] letters, then [h] events of the handler, then [m] letters. *)
Definition hist (b : Z) (h n m : nat) : list pevent :=
  EOut stdout (parent_text a) :: replicate n P ++ take h (handler_out b) ++ replicate m P.

(** Main between its calls. *)
Definition A0 : prog unit := pbind (fun r => Exit r)
  (set_handler ≫= fun _ =>
   me ← pcall1 Getpid;
   pprintf (parent_text me) ≫= fun _ =>
   n ← pcall1 Fork;
   if n =? -1 then pperror "fork failed" ≫= fun _ => pexit 1
   else if n =? 0 then child 25
   else DELAY_LOOP 112 50 ≫= fun _ => pexit 0).
Definition A1 : prog unit := next (0, 0) A0.
Definition A2 : prog unit := next (a, 0) A1.
Definition A3 : prog unit := next (0, 0) A2.

Lemma trad_codes : codes a act 25 (delaying 112 0 50) A0 A1 A2 A3.
Proof.
  split; [by eexists|]. split; [by eexists|]. split; [done|]. eexists. split; [reflexivity|]. split; [done|].
  split; [done|]. intros b Hb. cbn -[DELAY_LOOP]. by rewrite (proj2 (Z.eqb_neq b (-1))), (proj2 (Z.eqb_neq b 0)) by lia.
Qed.

(** SIGCHLD alone, as a mask and as what is pending. *)
Definition CH : Z := 65536.

Definition par (code : prog unit) (blk : bool) (mask pend : Z) : proc :=
  Proc a pp code mem0 blk mask pend (acts1 act) None.

(** Main with [j] letters written. *)
Inductive outer : prog unit -> nat -> Prop :=
| outer_delay k j : (k + j = 50)%nat -> outer (delaying 112 0 k) j
| outer_sleep k j : (k + j = 50)%nat -> outer (Call (Nanosleep 100000000) (fun _ => delaying 112 0 k)) j.

(** The handler from its loop on, with [k0] after it. *)
Definition clear (f : nat) (k0 : prog unit) : prog unit := pbind (fun _ => k0) (ploop f clear_iter tt).

Definition clear_k (f : nat) (k0 : prog unit) : Z * Z -> prog unit :=
  match clear (S f) k0 with Call _ k => k | _ => fun _ => Ret tt end.

Lemma clear_S f k0 : clear (S f) k0 = Call (Wait true) (clear_k f k0).
Proof. done. Qed.

Lemma clear_none f k0 x : clear_k f k0 (-1, x) = k0.
Proof. done. Qed.

Lemma clear_some f k0 b x : b <> -1 -> clear_k f k0 (b, x) = Out stdout (cleared b) (clear f k0).
Proof. intros Hb. unfold clear_k. cbn. by rewrite (proj2 (Z.eqb_neq b (-1))). Qed.

Inductive kid_state := KAlive | KZombie | KGone.

(** Outside of the handler, with [j] letters written: what is pending and what was done. *)
Inductive main_at (b : Z) : kid_state -> Z -> nat -> list pevent -> Prop :=
| main_alive n : main_at b KAlive 0 n (hist b 0 n 0)
| main_zombie n : main_at b KZombie CH n (hist b 0 n 0)
| main_gone n m : main_at b KGone 0 (n + m) (hist b 4 n m).

(** Where the parent is: its code, its mask, what is pending and what it has done.  A
    zombie is there only as long as the signal is pending or the handler has not asked. *)
Inductive at_par (b : Z) : kid_state -> prog unit -> Z -> Z -> list pevent -> Prop :=
| par_main ks code pend j X : main_at b ks pend j X -> outer code j -> at_par b ks code 0 pend X
| par_h0 code n : outer code n ->
    at_par b KZombie (pbind (fun _ => Sigreturn 0 code) (clearzomb fuel SIGCHLD)) CH 0 (hist b 1 n 0)
| par_h1 code n : outer code n ->
    at_par b KZombie (Out stdout (pid_text a) (clear fuel (Sigreturn 0 code))) CH 0 (hist b 1 n 0)
| par_h2 code n : outer code n -> at_par b KZombie (clear fuel (Sigreturn 0 code)) CH 0 (hist b 2 n 0)
| par_h3 code n f : outer code n -> (1 <= f)%nat ->
    at_par b KGone (Out stdout (cleared b) (clear f (Sigreturn 0 code))) CH 0 (hist b 3 n 0)
| par_h4 code n f : outer code n -> (1 <= f)%nat -> at_par b KGone (clear f (Sigreturn 0 code)) CH 0 (hist b 4 n 0)
| par_h5 code n : outer code n -> at_par b KGone (Sigreturn 0 code) CH 0 (hist b 4 n 0).

(** The rest of the table. *)
Inductive kid_ok (b : Z) (log : list (Z * pevent)) : kid_state -> list proc -> Prop :=
| kid_alive q : alive_kid 25 b a log q -> kid_ok b log KAlive [q]
| kid_zombie q : p_pid q = b -> p_ppid q = a -> p_zombie q = Some 0 -> proj b log = child_out 25 b ->
    kid_ok b log KZombie [q]
| kid_gone : proj b log = child_out 25 b -> kid_ok b log KGone [].

(** The rest of the table once the parent is dead. *)
Inductive left_ok (b : Z) (log : list (Z * pevent)) : list proc -> Prop :=
| left_alive q : alive_kid 25 b 1 log q -> left_ok b log [q]
| left_gone : proj b log = child_out 25 b -> left_ok b log [].

Inductive inv : sys -> Prop :=
| inv_early s : starting a pp act A0 A1 A2 A3 s -> inv s
| inv_run b ks code blk mask pend cs log : pid_ok a pp b -> kid_ok b log ks cs -> at_par b ks code mask pend (proj a log) ->
    inv (Sys (par code blk mask pend :: cs) log)
| inv_over b h n m p cs log : pid_ok a pp b -> (n + m = 50)%nat -> (h = 0 /\ m = 0 \/ h = 4)%nat ->
    dead p = true -> p_pid p = a -> p_ppid p = pp -> proj a log = hist b h n m ++ [EExit 0] -> left_ok b log cs ->
    inv (Sys (p :: cs) log).

(** *** Steps *)

Lemma hist_p b n : hist b 0 n 0 ++ [P] = hist b 0 (S n) 0.
Proof. unfold hist. cbn [take replicate app]. rewrite !app_nil_r. cbn. by rewrite <- replicate_S_end. Qed.

Lemma hist_p_after b n m : hist b 4 n m ++ [P] = hist b 4 n (S m).
Proof. unfold hist. rewrite (replicate_S_end m). cbn. by rewrite <- app_assoc. Qed.

Lemma hist_handler b h n e : handler_out b !! h = Some e -> hist b h n 0 ++ [e] = hist b (S h) n 0.
Proof. intros E. unfold hist. rewrite (take_S_r _ _ _ E). cbn. by rewrite !app_nil_r, <- app_assoc. Qed.

Lemma hist_4_0 b n : hist b 4 n 0 = hist b 4 (n + 0) 0.
Proof. by rewrite Nat.add_0_r. Qed.

(** What the kid does changes nothing for the parent, but for its death. *)
Lemma run_kid b code blk q mask pend log s' : pid_ok a pp b -> alive_kid 25 b a log q ->
  at_par b KAlive code mask pend (proj a log) ->
  moves (functions fuel) (Sys [par code blk mask pend; q] log) q s' -> inv s'.
Proof.
  intros Hb Hk Hat Hm. assert (exists n, outer code n /\ mask = 0 /\ pend = 0 /\ proj a log = hist b 0 n 0) as (n & Ho & -> & -> & EX)
    by (inversion Hat as [? ? ? ? ? Hmain| | | | | |]; subst; inversion Hmain; subst; eauto 6).
  destruct Hb as (Hb1 & Hba & Hbp).
  destruct (delay_kid_moves _ _ _ _ _ _ _ _ Hk Hm) as [(-> & Eo) | (q' & es & -> & Hk')]; destruct Hk as [E1 E2 E3 E4 _].
  - rewrite (child_exit (par code blk 0 0)); [|unfold par; fields; congruence || lia || done..|intros c [<- | []]; unfold par; fields; split; congruence].
    cbn [put_proc map]. rewrite Z.eqb_refl. apply (inv_run b KZombie); [done|..].
    + apply kid_zombie; [done..|]. by rewrite E1, proj_own.
    + rewrite proj_other, EX by congruence. eapply par_main; [apply main_zombie|done].
  - rewrite put_cons_other by (destruct Hk' as [-> _ _ _ _]; done). cbn [put_proc map].
    rewrite (proj2 (Z.eqb_eq (p_pid q) (p_pid q'))) by (destruct Hk'; congruence).
    apply (inv_run b KAlive); [done|by constructor|]. by rewrite proj_map_other.
Qed.

(** After the handler main goes on where it was; a sleep is over. *)
Lemma resume_main code blk pend restart o n : outer code n -> outer (resume (par code blk 0 pend) restart o) n.
Proof.
  intros Ho. unfold resume, par. fields. destruct blk; [|done]. destruct Ho as [k j Hk|k j Hk]; [|by constructor].
  destruct k; [by apply (outer_delay 0)|by apply (outer_delay (S k))].
Qed.

Lemma kid_ids b log ks cs q : pid_ok a pp b -> kid_ok b log ks cs -> In q cs -> p_pid q = b /\ p_ppid q = a.
Proof. intros _ [q' [E1 E2 _ _ _]|q' E1 E2 _ _|_]; [intros [<- | []]; done..|intros []]. Qed.

Lemma kid_log b log ks cs es : pid_ok a pp b -> kid_ok b log ks cs -> kid_ok b (log ++ map (pair a) es) ks cs.
Proof.
  intros (_ & Hb & _) [q Hk|q E1 E2 E3 E4|E]; constructor; try done; try (by rewrite proj_map_other).
  by apply alive_kid_log.
Qed.

Lemma main_grow b ks pend j X : main_at b ks pend j X -> main_at b ks pend (S j) (X ++ [P]).
Proof.
  intros [n|n|n m]; rewrite ?hist_p, ?hist_p_after; [constructor..|]. rewrite <- Nat.add_succ_r. constructor.
Qed.

Definition run_state (code : prog unit) (blk : bool) (mask pend : Z) (cs : list proc) (log : list (Z * pevent)) : sys :=
  Sys (par code blk mask pend :: cs) log.

Section Parent.
Context (b : Z) (log : list (Z * pevent)) (Hb : pid_ok a pp b).

(** The parent takes a step and writes [es]. *)
Lemma clearing_goes ks cs code blk mask pend code' blk' mask' pend' es :
  kid_ok b log ks cs -> at_par b ks code' mask' pend' (proj a log ++ es) ->
  inv (Sys (put_proc (par code' blk' mask' pend') (par code blk mask pend :: cs)) (log ++ map (pair a) es)).
Proof.
  intros Hk Hat. rewrite put_cons_same, put_none by
    (done || (intros q Hq; rewrite (proj1 (kid_ids _ _ _ _ _ Hb Hk Hq)); by destruct Hb as (_ & ? & _))).
  apply (inv_run b ks); [done|by apply kid_log|]. by rewrite proj_map.
Qed.

(** The same without writing. *)
Lemma par_silent ks cs code blk mask pend code' blk' mask' pend' :
  kid_ok b log ks cs -> at_par b ks code' mask' pend' (proj a log) ->
  inv (put (run_state code blk mask pend cs log) (par code' blk' mask' pend')).
Proof.
  intros Hk Hat. pose proof (clearing_goes ks cs code blk mask pend code' blk' mask' pend' [] Hk) as H. cbn [map] in H.
  rewrite !app_nil_r in H. by apply H.
Qed.

(** The death of the parent: a living child is adopted, a dead one is gone. *)
Lemma par_exits ks cs blk pend : kid_ok b log ks cs -> main_at b ks pend 50 (proj a log) ->
  inv (do_exit (run_state (Exit 0) blk 0 pend cs log) (par (Exit 0) blk 0 pend) 0).
Proof.
  intros Hk Hmain. unfold run_state. destruct Hb as (Hb1 & Hba & Hbp).
  rewrite (parent_exit a pp) by (done || (intros q Hq; rewrite (proj1 (kid_ids _ _ _ _ _ Hb Hk Hq)); done)).
  assert (exists h n m, (n + m = 50)%nat /\ (h = 0 /\ m = 0 \/ h = 4)%nat /\ proj a log = hist b h n m) as (h & n & m & H1 & H2 & H3).
  { inversion Hmain as [n|n|n m]; subst; [exists 0%nat, 50%nat, 0%nat..|exists 4%nat, n, m]; auto. }
  apply (inv_over b h n m); [done..|by rewrite proj_own, H3|].
  destruct Hk as [q Hk|q E1 E2 E3 E4|E].
  - destruct Hk as [E1 E2 E3 E4 E5]. unfold disown. cbn. rewrite E2, Z.eqb_refl, E3. cbn. rewrite E2, Z.eqb_refl.
    apply left_alive. constructor; [done..|]. by rewrite proj_other.
  - unfold disown. cbn. rewrite E2, Z.eqb_refl. unfold dead. rewrite E3. cbn. apply left_gone. by rewrite proj_other.
  - apply left_gone. by rewrite proj_other.
Qed.

Lemma pmain_run ks cs code blk pend j o s' : kid_ok b log ks cs -> main_at b ks pend j (proj a log) -> outer code j ->
  run1 (functions fuel) (run_state code blk 0 pend cs log) (par code blk 0 pend) o = Some s' -> inv s'.
Proof.
  intros Hk Hmain Ho. unfold run1. cbn [p_code par]. destruct Ho as [k j Hk'|k j Hk'].
  - destruct k as [|k]; [intros [= <-]; assert (j = 50%nat) as -> by lia; by apply (par_exits ks)|].
    rewrite delaying_S. intros [= <-]. rewrite <- delaying_S.
    apply (clearing_goes ks cs _ blk 0 pend _ false 0 pend [P] Hk). eapply par_main; [by apply main_grow|].
    apply (outer_sleep k). lia.
  - cbn [do_call p_blocked]. destruct blk; [done|]. intros [= <-].
    apply (par_silent ks cs _ false 0 pend _ true 0 pend Hk). eapply par_main; [done|]. by apply outer_sleep.
Qed.

Lemma pmain_wake ks cs code blk pend j s' : kid_ok b log ks cs -> main_at b ks pend j (proj a log) -> outer code j ->
  wake (run_state code blk 0 pend cs log) (par code blk 0 pend) = Some s' -> inv s'.
Proof.
  intros Hk Hmain Ho. unfold wake. cbn [p_code par p_blocked]. destruct blk; [|done]. destruct Ho as [k j Hk'|k j Hk'].
  - destruct k as [|k]; [done|by rewrite delaying_S].
  - intros [= <-]. apply (par_silent ks cs _ true 0 pend _ false 0 pend Hk). eapply par_main; [done|]. by apply outer_delay.
Qed.

(** The signal is delivered only when there is a zombie. *)
Lemma pmain_deliver ks cs code blk pend j sig o s' : kid_ok b log ks cs -> main_at b ks pend j (proj a log) -> outer code j ->
  deliverable (par code blk 0 pend) sig = true ->
  deliver (functions fuel) (run_state code blk 0 pend cs log) (par code blk 0 pend) sig o = Some s' -> inv s'.
Proof.
  intros Hk Hmain Ho Hd Hr. remember (proj a log) as X eqn:EX. destruct Hmain as [n|n|n m];
    [by rewrite deliverable_none in Hd| |by rewrite deliverable_none in Hd].
  assert (sig = SIGCHLD) as ->.
  { apply (deliverable_only SIGCHLD (par code blk 0 CH)); [|done]. apply (only_add SIGCHLD 0); [done|apply only_0]. }
  unfold deliver in Hr. cbn [p_act par] in Hr. change (acts1 act SIGCHLD) with act in Hr. cbn [sa_handler act] in Hr.
  injection Hr as <-. apply (clearing_goes KZombie cs code blk 0 CH _ false CH 0 [EHandler SIGCHLD] Hk).
  rewrite <- EX, (hist_handler b 0) by done. apply par_h0. by apply resume_main.
Qed.

(** wait3 of a parent with a dead child fetches it. *)
Lemma wait_zombie code blk q k o s' : p_pid q = b -> p_ppid q = a -> p_zombie q = Some 0 ->
  do_wait (run_state code blk CH 0 [q] log) (par code blk CH 0) o true k = Some s' ->
  s' = Sys [par (k (b, 0)) false CH 0] (log ++ [(a, EReap b 0)]).
Proof.
  intros E1 E2 E3. unfold do_wait, run_state. cbn [procs find_pid List.find p_pid par].
  destruct (Z.eqb_spec a o) as [<- | Hao].
  - cbn. unfold child_of. fields. rewrite E2, Z.eqb_refl. unfold dead. rewrite E3. cbn. by rewrite ?andb_false_r.
  - rewrite E1. destruct (Z.eqb_spec b o) as [<- | Hbo].
    + destruct q as [x1 x2 x3 x4 x5 x6 x7 x8 x9]. cbn in E1, E2, E3. subst. rewrite Z.eqb_refl. intros [= <-].
      unfold put, add_log, del_pid. cbn -[Z.eqb]. rewrite Z.eqb_refl, (proj2 (Z.eqb_neq a b)) by done. cbn -[Z.eqb]. by rewrite Z.eqb_refl.
    + cbn. unfold child_of. fields. rewrite E2, Z.eqb_refl. unfold dead. rewrite E3. cbn. by rewrite ?andb_false_r.
Qed.

(** wait3 of a parent without children fails. *)
Lemma wait_none code blk k o s' :
  do_wait (run_state code blk CH 0 [] log) (par code blk CH 0) o true k = Some s' ->
  s' = Sys [par (k (-1, 0)) false CH 0] log.
Proof.
  unfold do_wait, run_state, child_of, par. cbn -[Z.eqb]. rewrite (proj2 (Z.eqb_neq pp a)) by done. cbn -[Z.eqb]. destruct (a =? o); intros [= <-]; unfold put; cbn -[Z.eqb];
    by rewrite Z.eqb_refl.
Qed.

Lemma parent_run ks cs code blk mask pend o s' : kid_ok b log ks cs -> at_par b ks code mask pend (proj a log) ->
  run1 (functions fuel) (run_state code blk mask pend cs log) (par code blk mask pend) o = Some s' -> inv s'.
Proof.
  intros Hk Hat Hr. remember (proj a log) as X eqn:EX.
  destruct Hat as [ks code pend j X Hmain Ho|code n Ho|code n Ho|code n Ho|code n f Ho Hf|code n f Ho Hf|code n Ho];
    [subst X; by eapply pmain_run|..]; unfold run1 in Hr; cbn [p_code par] in Hr.
  - injection Hr as <-. apply (par_silent KZombie cs _ blk CH 0 _ false CH 0 Hk). rewrite <- EX. by apply par_h1.
  - injection Hr as <-. apply (clearing_goes KZombie cs _ blk CH 0 _ false CH 0 [_] Hk). rewrite <- EX.
    rewrite (hist_handler b 1) by done. by apply par_h2.
  - destruct fuel as [|f]; [lia|]. rewrite clear_S in Hr. cbn [do_call] in Hr. inversion Hk as [|q E1 E2 E3 E4|]; subst cs.
    apply wait_zombie in Hr as ->; [|done..]. rewrite clear_some by (destruct Hb; lia).
    apply (inv_run b KGone); [done|apply kid_gone; rewrite proj_other by (by destruct Hb as (_ & ? & _)); done|].
    rewrite proj_own, <- EX, (hist_handler b 2) by done. apply par_h3; [done|lia].
  - injection Hr as <-. apply (clearing_goes KGone cs _ blk CH 0 _ false CH 0 [_] Hk). rewrite <- EX.
    rewrite (hist_handler b 3) by done. by apply par_h4.
  - destruct f as [|f]; [lia|]. rewrite clear_S in Hr. cbn [do_call] in Hr. inversion Hk as [| |E]; subst cs.
    apply wait_none in Hr as ->. rewrite clear_none. apply (inv_run b KGone); [done..|]. rewrite <- EX. by apply par_h5.
  - injection Hr as <-. apply (par_silent KGone cs _ blk CH 0 _ false 0 0 Hk). rewrite <- EX.
    apply (par_main b _ _ _ (n + 0)); [constructor|by rewrite Nat.add_0_r].
Qed.

Lemma clearing_moves ks cs code blk mask pend s' : kid_ok b log ks cs -> at_par b ks code mask pend (proj a log) ->
  moves (functions fuel) (run_state code blk mask pend cs log) (par code blk mask pend) s' -> inv s'.
Proof.
  intros Hk Hat (_ & [(o & Hr) | [(sig & o & Hd & Hr) | Hw]]); [by eapply parent_run|..].
  - remember (proj a log) as X eqn:EX.
    destruct Hat as [ks code pend j X Hmain Ho| | | | | |]; try (by rewrite deliverable_none in Hd). subst X. by eapply pmain_deliver.
  - remember (proj a log) as X eqn:EX. destruct Hat as [ks code pend j X Hmain Ho|n|n|n|n|code n f Ho Hf|n];
      [subst X; by eapply pmain_wake|..]; unfold wake in Hw; cbn [p_blocked par p_code] in Hw; (destruct blk; [|done]); try done.
    + destruct fuel; [lia|done].
    + destruct f; [lia|done].
Qed.

(** The child after the death of its parent. *)
Lemma left_moves h n m p q s' : (n + m = 50)%nat -> (h = 0 /\ m = 0 \/ h = 4)%nat -> dead p = true -> p_pid p = a ->
  p_ppid p = pp -> proj a log = hist b h n m ++ [EExit 0] -> alive_kid 25 b 1 log q ->
  moves (functions fuel) (Sys [p; q] log) q s' -> inv s'.
Proof.
  intros H1 H2 Hd Ep Epp EX Hk Hm. destruct Hb as (Hb1 & Hba & Hbp).
  destruct (delay_kid_moves _ _ _ _ _ _ _ _ Hk Hm) as [(-> & Eo) | (q' & es & -> & Hk')].
  - destruct Hk as [E1 E2 E3 E4 _]. unfold do_exit, add_log. cbn [procs plog].
    rewrite disown_none by (intros r [<- | [<- | []]]; congruence || lia). rewrite E2. cbn -[Z.eqb].
    rewrite E1, Ep, !Z.eqb_refl, (proj2 (Z.eqb_neq a b)) by done. cbn [negb].
    apply (inv_over b h n m); [done..|by rewrite proj_other|]. apply left_gone. by rewrite proj_own.
  - rewrite put_cons_other by (destruct Hk' as [-> _ _ _ _]; congruence). cbn [put_proc map].
    rewrite (proj2 (Z.eqb_eq (p_pid q) (p_pid q'))) by (destruct Hk, Hk'; congruence).
    apply (inv_over b h n m); [done..|by rewrite proj_map_other|]. by apply left_alive.
Qed.

End Parent.

Lemma trad_step s m s' : internal m = true -> inv s -> step (functions fuel) s m = Some s' -> inv s'.
Proof.
  intros Hm Hi (p & Hin & Hmv)%step_moves; [|done].
  destruct Hi as [s0 Hs0|b ks code blk mask pend cs log Hb Hk Hat|b h n m0 p0 cs log Hb H1 H2 Hd0 Ep Epp EX Hl].
  - destruct (starting_step a pp Hpp Hne _ act 25 _ A0 A1 A2 A3 _ _ _ trad_codes Hs0 Hin Hmv) as [H | (b & q & Hb & Hq & ->)];
      [by apply inv_early|]. apply (inv_run b KAlive); [done|by constructor|]. rewrite proj_of_own.
    apply (par_main b _ _ _ 0); [exact (main_alive b 0)|by apply outer_delay].
  - destruct Hin as [<- | Hin]; [by eapply clearing_moves|].
    inversion Hk as [q Hq|q E1 E2 E3 E4|]; subst; [destruct Hin as [<- | []]..|done].
    + by eapply run_kid.
    + destruct Hmv as [Hd _]. unfold dead in Hd. by rewrite E3 in Hd.
  - destruct Hin as [<- | Hin]; [destruct Hmv as [? _]; congruence|].
    inversion Hl as [q Hq|]; subst; [|done]. destruct Hin as [<- | []]. by eapply left_moves.
Qed.

(** *** A zombie can be cleared at once *)

(** The parent needs [n] moves of its own to be without its child. *)
Definition clears (n : nat) (s : sys) : Prop :=
  exists ms s1, length ms = n /\ Forall (fun m => mover m = Some a) ms /\ steps (functions fuel) s ms = Some s1 /\
    map p_pid (procs s1) = [a].

Lemma clears_S n s m s1 : mover m = Some a -> step (functions fuel) s m = Some s1 -> clears n s1 -> clears (S n) s.
Proof.
  intros Hm Hs (ms & s2 & Hl & Hf & Hr & Hp). exists (m :: ms), s2. cbn. rewrite Hs. split; [by rewrite Hl|]. by split; [constructor|].
Qed.

Section Clear.
Context (b : Z) (q : proc) (Hb : pid_ok a pp b) (E1 : p_pid q = b) (E2 : p_ppid q = a) (E3 : p_zombie q = Some 0).

Lemma first_put code blk mask pend code' blk' mask' pend' log :
  put (Sys [par code blk mask pend; q] log) (par code' blk' mask' pend') = Sys [par code' blk' mask' pend'; q] log.
Proof. apply put_first; [done|]. intros r [<- | []]. rewrite E1. by destruct Hb as (_ & ? & _). Qed.

Lemma clears_h2 code blk log : clears 1 (Sys [par (clear fuel code) blk CH 0; q] log).
Proof.
  destruct fuel as [|f] eqn:Ef; [lia|]. destruct q as [x1 x2 x3 x4 x5 x6 x7 x8 x9]. cbn in E1, E2, E3. subst.
  destruct Hb as (Hb1 & Hba & Hbp). eexists [Run a b], _. split; [done|]. split; [by constructor|]. unfold steps, step, run1, find_pid, do_call, do_wait, find_pid, par.
  cbn -[Z.eqb clear functions]. rewrite Z.eqb_refl. cbn -[Z.eqb clear functions]. rewrite clear_S. cbn -[Z.eqb clear_k functions].
  rewrite (proj2 (Z.eqb_neq a b)), Z.eqb_refl by congruence. cbn -[Z.eqb clear_k functions]. rewrite Z.eqb_refl. split; [reflexivity|].
  cbn -[Z.eqb]. by rewrite Z.eqb_refl.
Qed.

Lemma run_first code blk mask pend log o :
  step (functions fuel) (Sys [par code blk mask pend; q] log) (Run a o) =
  run1 (functions fuel) (Sys [par code blk mask pend; q] log) (par code blk mask pend) o.
Proof. cbn [step procs find_pid List.find p_pid par]. by rewrite Z.eqb_refl. Qed.

Lemma clears_h1 code blk log : clears 2 (Sys [par (Out stdout (pid_text a) (clear fuel code)) blk CH 0; q] log).
Proof.
  eapply (clears_S 1 _ (Run a 0)); [done|rewrite run_first; reflexivity|].
  change (goto _ _) with (par (clear fuel code) false CH 0). rewrite first_put. apply clears_h2.
Qed.

Lemma clears_h0 code blk log : clears 3 (Sys [par (pbind (fun _ => code) (clearzomb fuel SIGCHLD)) blk CH 0; q] log).
Proof.
  eapply (clears_S 2 _ (Run a 0)); [done|rewrite run_first; reflexivity|].
  change (goto _ _) with (par (Out stdout (pid_text a) (clear fuel code)) false CH 0). rewrite first_put. apply clears_h1.
Qed.

Lemma clears_main code blk log : clears 4 (Sys [par code blk 0 CH; q] log).
Proof.
  eapply (clears_S 3 _ (Deliver a SIGCHLD 0)); [done| |].
  - cbn [step procs find_pid List.find p_pid par]. rewrite Z.eqb_refl. cbn [dead p_zombie].
    change (deliverable _ SIGCHLD) with true. reflexivity.
  - change (functions fuel "clearzomb" SIGCHLD) with (clearzomb fuel SIGCHLD).
    match goal with |- context [resume ?p ?r ?o] => generalize (resume p r o); intros code0 end.
    change (goto _ _) with (par (pbind (fun _ => Sigreturn 0 code0) (clearzomb fuel SIGCHLD)) false CH 0). rewrite first_put.
    apply clears_h0.
Qed.

End Clear.

(** *** What holds after every schedule *)

(** Child [b] was created; the parent wrote [n] letters before and [m] letters after
    [h] events of the handler. *)
Record after_fork (b : Z) (h n m : nat) (s : sys) : Prop := AfterFork {
  af_order : (0 < m -> h = 4)%nat;
  af_parent : proj a (plog s) = hist b h n m \/
    (n + m = 50)%nat /\ (h = 0 \/ h = 4)%nat /\ proj a (plog s) = hist b h n m ++ [EExit 0];
  af_child : proj b (plog s) `prefix_of` child_out 25 b;
  af_table : forall q, In q (procs s) -> p_pid q = a \/ p_pid q = b;
  af_zombie : forall q, In q (procs s) -> p_pid q = b -> dead q = true ->
    p_zombie q = Some 0 /\ proj b (plog s) = child_out 25 b /\ (h <= 2)%nat /\
    exists n, (n <= 4)%nat /\ clears n s }.

Lemma kid_alive_prefix b x log q : alive_kid 25 b x log q -> proj b log `prefix_of` child_out 25 b.
Proof. intros [_ _ _ _ (t & _ & E)]. by exists t. Qed.

Lemma kid_prefix b log ks cs : kid_ok b log ks cs -> proj b log `prefix_of` child_out 25 b.
Proof. intros [q Hk|q _ _ _ ->| ->]; [by eapply kid_alive_prefix|done..]. Qed.

(** The events of a living parent, and how far the handler is when there is a zombie. *)
Lemma at_par_hist b ks code blk mask pend cs log : pid_ok a pp b -> kid_ok b log ks cs -> at_par b ks code mask pend (proj a log) ->
  exists h n m, (0 < m -> h = 4)%nat /\ proj a log = hist b h n m /\
    (ks = KZombie -> (h <= 2)%nat /\ exists n, (n <= 4)%nat /\ clears n (Sys (par code blk mask pend :: cs) log)).
Proof.
  intros Hb Hk Hat. remember (proj a log) as X eqn:EX.
  assert (ks = KZombie -> exists q, cs = [q] /\ p_pid q = b /\ p_ppid q = a /\ p_zombie q = Some 0) as Hz.
  { intros ->. inversion Hk; subst. eauto. }
  destruct Hat as [ks code pend j X Hmain Ho|code n Ho|code n Ho|code n Ho|code n f Ho Hf|code n f Ho Hf|code n Ho].
  1: destruct Hmain as [n|n|n m]; [exists 0%nat, n, 0%nat..|exists 4%nat, n, m]; (split; [lia|]); (split; [done|]);
     intros E; try done; (split; [lia|]); destruct (Hz E) as (q & -> & E1 & E2 & E3); exists 4%nat; split; [lia|]; by eapply clears_main.
  - exists 1%nat, n, 0%nat. split; [lia|]. split; [done|]. intros E. split; [lia|]. destruct (Hz E) as (q & -> & E1 & E2 & E3).
    exists 3%nat. split; [lia|]. by eapply clears_h0.
  - exists 1%nat, n, 0%nat. split; [lia|]. split; [done|]. intros E. split; [lia|]. destruct (Hz E) as (q & -> & E1 & E2 & E3).
    exists 2%nat. split; [lia|]. by eapply clears_h1.
  - exists 2%nat, n, 0%nat. split; [lia|]. split; [done|]. intros E. split; [lia|]. destruct (Hz E) as (q & -> & E1 & E2 & E3).
    exists 1%nat. split; [lia|]. by eapply clears_h2.
  - exists 3%nat, n, 0%nat. split; [lia|]. by split.
  - exists 4%nat, n, 0%nat. split; [lia|]. by split.
  - exists 4%nat, n, 0%nat. split; [lia|]. by split.
Qed.

Lemma inv_after s : inv s ->
  proj a (plog s) `prefix_of` [EOut stdout (parent_text a); EPerror "fork failed"; EExit 256] /\ map p_pid (procs s) = [a] \/
  exists b h n m, 1 < b /\ b <> a /\ after_fork b h n m s.
Proof.
  intros [s0 Hs0|b ks code blk mask pend cs log Hb Hk Hat|b h n m p cs log Hb H1 H2 Hd Ep Epp EX Hl].
  - left. by eapply starting_seen.
  - right. destruct (at_par_hist b ks code blk mask pend cs log Hb Hk Hat) as (h & n & m & Hm & EX & Hz).
    exists b, h, n, m. split; [by destruct Hb|]. split; [by destruct Hb as (_ & ? & _)|].
    constructor; [done|by left|by eapply kid_prefix|..]; cbn [procs plog].
    + intros q [<- | Hq]; [by left|]. right. by destruct (kid_ids _ _ _ _ _ Hb Hk Hq).
    + intros q [<- | Hq] Eq Hdq; [done|]. destruct Hk as [q' [_ _ Hal _ _]|q' E1 E2 E3 E4|]; [|destruct Hq as [<- | []]|done].
      * destruct Hq as [<- | []]. congruence.
      * split; [done|]. split; [done|]. by apply Hz.
  - right. exists b, h, n, m. split; [by destruct Hb|]. split; [by destruct Hb as (_ & ? & _)|]. constructor; cbn [procs plog].
    + intros. lia.
    + right. split; [done|]. split; [|done]. lia.
    + destruct Hl as [q Hk| ->]; [by eapply kid_alive_prefix|done].
    + intros q [<- | Hq]; [by left|]. right. destruct Hl as [q' [E _ _ _ _]|]; [|done]. by destruct Hq as [<- | []].
    + intros q [<- | Hq] Eq Hdq; [destruct Hb as (_ & ? & _); congruence|].
      destruct Hl as [q' [_ _ E _ _]|]; [|done]. destruct Hq as [<- | []]. congruence.
Qed.

Definition start : sys := Sys [boot a pp (main argv)] [].

Lemma trad_start : 2 <= argc argv -> atoi (arg_n argv 1) = 1 -> inv start.
Proof.
  intros Hc Ho. unfold start, boot, main. rewrite (proj2 (Z.ltb_ge (argc argv) 2)), Ho by lia.
  apply inv_early. exact (starting_at a pp act A0 A1 A2 A3 A0 _ false [] (early_0 _ _ _ _ _ _)).
Qed.

End Run.

(** C21: the option 1 of zombies_clear_traditional.c clears the zombie.  In every schedule,
    once the child is there, the parent writes its letters with at most one run of the
    handler among them: it says its number, fetches the child, with status 0, and says
    that it cleared it, before main writes the next letter; both programs' texts are
    prefixes of what the source says.  A dead child in the table is one that has done
    all its work and exited with 0, whose signal is still pending or whose handler has
    not asked yet, and the parent alone clears it within four moves; when the handler
    is through, or the parent has ended, there is no zombie. *)
Theorem zombie_cleared fuel argv a pp ms s' :
  (2 <= fuel)%nat -> 2 <= argc argv -> atoi (arg_n argv 1) = 1 -> 1 < a -> 1 < pp -> pp <> a ->
  Forall (fun m => internal m = true) ms -> steps (functions fuel) (start argv a pp) ms = Some s' ->
  proj a (plog s') `prefix_of` [EOut stdout (parent_text a); EPerror "fork failed"; EExit 256] /\ map p_pid (procs s') = [a] \/
  exists b h n m, 1 < b /\ b <> a /\ after_fork fuel a b h n m s'.
Proof.
  intros Hf Hc Ho Ha Hpp Hn Hm Hs. eapply inv_after; [done..|].
  eapply (moves_inv (functions fuel) (fun m => internal m = true)); [|by apply (trad_start fuel)|done..].
  intros s m s1 H1 H2. by apply trad_step.
Qed.

Definition eg_start : sys := start ["zombies"; "1"] 100 50.

(** The child dies while the parent sleeps after its first letter; then the handler
    runs, and the parent goes on. *)
Definition eg_moves : list move :=
  [Run 100 0; Run 100 0; Run 100 0; Run 100 101; Run 100 0; Run 100 0; Run 101 0; Run 101 0] ++
  concat (replicate 25 [Run 101 0; Run 101 0; Wake 101]) ++ [Run 101 0].

Definition eg_moves2 : list move := eg_moves ++
  [Deliver 100 SIGCHLD 0; Run 100 0; Run 100 0; Run 100 101; Run 100 0; Run 100 0; Run 100 0; Run 100 0].

Definition seen (s : sys) : list bool * list pevent := (map dead (procs s), proj 100 (plog s)).

Lemma eg_seen : seen <$> steps (functions 3) eg_start eg_moves = Some ([false; true], hist 100 101 0 1 0).
Proof. vm_compute. reflexivity. Qed.

Lemma eg_seen2 : seen <$> steps (functions 3) eg_start eg_moves2 = Some ([false], hist 100 101 4 1 1).
Proof. vm_compute. reflexivity. Qed.

Lemma eg_internal : forallb internal eg_moves = true.
Proof. vm_compute. reflexivity. Qed.

Lemma zombie_cleared_witness : exists s1,
  steps (functions 3) eg_start eg_moves = Some s1 /\ map dead (procs s1) = [false; true] /\
  exists b h n m, 1 < b /\ after_fork 3 100 b h n m s1.
Proof.
  destruct (fmap_Some_1 _ _ _ eg_seen) as (s1 & E & Es). injection Es as Hd Hp. exists s1. split; [exact E|]. split; [exact (eq_sym Hd)|].
  destruct (zombie_cleared 3 ["zombies"; "1"] 100 50 eg_moves s1) as [[_ H1] | (b & h & n & m & Hb & _ & Haf)];
    [lia|by vm_compute|by vm_compute|lia|lia|lia| |exact E| |].
  - apply Forall_forall. intros m Hm. apply (proj1 (forallb_forall internal eg_moves) eg_internal). by apply list_elem_of_In.
  - exfalso. destruct (procs s1) as [|? [|]]; cbn in Hd, H1; congruence.
  - exists b, h, n, m. split; [exact Hb|exact Haf].
Defined.

(** With a second child that is alive, wait3 answers 0 and not -1: the loop of the
    handler does not end, it says that it cleared zombie 0, turn after turn, for as long
    as that child lives. *)
Lemma handler_spins fuel a pp q k0 n : 1 < a -> 1 < p_pid q -> p_pid q <> a -> p_ppid q = a -> dead q = false -> pp <> a ->
  forall blk log, (0 < n)%nat ->
  steps (functions fuel) (Sys [par a pp (clear n k0) blk CH 0; q] log) (concat (replicate n [Run a 0; Run a 0])) =
  Some (Sys [par a pp (clear 0 k0) false CH 0; q] (log ++ map (pair a) (replicate n (EOut stdout (cleared 0))))).
Proof.
  intros Ha Hq Hqa Eq Hd Hpp. induction n as [|n IH]; intros blk log Hn; [lia|].
  assert (steps (functions fuel) (Sys [par a pp (clear (S n) k0) blk CH 0; q] log) [Run a 0; Run a 0] =
    Some (Sys [par a pp (clear n k0) false CH 0; q] (log ++ [(a, EOut stdout (cleared 0))]))) as Hturn.
  { assert (forall code blk, step (functions fuel) (Sys [par a pp code blk CH 0; q] log) (Run a 0) =
      run1 (functions fuel) (Sys [par a pp code blk CH 0; q] log) (par a pp code blk CH 0) 0) as Hrun.
    { intros code blk0. cbn [step procs find_pid List.find p_pid par]. by rewrite Z.eqb_refl. }
    assert (forall code code' blk, put (Sys [par a pp code blk CH 0; q] log) (par a pp code' false CH 0) =
      Sys [par a pp code' false CH 0; q] log) as Hput.
    { intros. apply put_first; [done|]. by intros r [<- | []]. }
    cbn [steps]. rewrite Hrun. unfold run1 at 1. cbn [p_code par]. rewrite clear_S. cbn [do_call]. unfold do_wait.
    cbn [procs find_pid List.find p_pid par]. rewrite (proj2 (Z.eqb_neq a 0)), (proj2 (Z.eqb_neq (p_pid q) 0)) by lia.
    unfold child_of. cbn [existsb p_ppid p_pid dead p_zombie par]. rewrite Eq, Hd, (proj2 (Z.eqb_neq pp a)), Z.eqb_refl by done.
    cbn [andb orb negb answer]. rewrite clear_some by done.
    change (goto _ _) with (par a pp (Out stdout (cleared 0) (clear n k0)) false CH 0).
    rewrite <- clear_S. fold (par a pp (clear (S n) k0) blk CH 0). rewrite Hput, Hrun. unfold run1. cbn [p_code par].
    change (goto _ _) with (par a pp (clear n k0) false CH 0).
    fold (par a pp (Out stdout (cleared 0) (clear n k0)) false CH 0). by rewrite Hput. }
  cbn [replicate concat]. rewrite steps_app, Hturn. destruct n as [|n]; [done|].
  rewrite IH by lia. rewrite <- app_assoc. done.
Qed.

End Traditional.

(** ** zombies_clear_linux26.c *)

Module NoCldWait.

Definition act : sigact :=
  Sigact SIG_DFL sigemptyset (Z.lor (Z.lor SA_RESTART SA_NOCLDSTOP) SA_NOCLDWAIT).

(** The body of [while (1) pause();] *)
Definition functions : table := fun f x => if String.eqb f "pause_loop" then pause_loop x else Forever "".

Definition main : prog Z :=
  r ← pcall1 (Sigaction SIGCHLD act);
  if r =? -1 then pperror "sigaction failed" ≫= fun _ => pexit 1
  else
  me ← pcall1 Getpid;
  pprintf (parent_text me) ≫= fun _ =>
  n ← pcall1 Fork;
  if n =? -1 then pperror "fork failed" ≫= fun _ => pexit 1
  else if n =? 0 then child 250
  else Forever "pause_loop".

Section Run.
Context (a pp : Z) (Ha : 1 < a) (Hpp : 1 < pp) (Hne : pp <> a).

Definition A0 : prog unit := pbind (fun r => Exit r) main.
Definition A1 : prog unit := next (0, 0) A0.
Definition A2 : prog unit := next (a, 0) A1.
Definition A3 : prog unit := next (0, 0) A2.

Lemma nocld_codes : codes a act 250 (Forever "pause_loop") A0 A1 A2 A3.
Proof.
  split; [by eexists|]. split; [by eexists|]. split; [done|]. eexists. split; [reflexivity|]. split; [done|].
  split; [done|]. intros b Hb. cbn -[DELAY_LOOP]. by rewrite (proj2 (Z.eqb_neq b (-1))), (proj2 (Z.eqb_neq b 0)) by lia.
Qed.

Inductive pauses : prog unit -> Prop :=
| pauses_loop : pauses (Forever "pause_loop")
| pauses_pause : pauses pausing.

Definition par (code : prog unit) (blk : bool) (pend : Z) : proc := Proc a pp code mem0 blk 0 pend (acts1 act) None.

Inductive kid_ok (b : Z) (log : list (Z * pevent)) : list proc -> Prop :=
| kid_alive q : alive_kid 250 b a log q -> kid_ok b log [q]
| kid_gone : proj b log = child_out 250 b -> kid_ok b log [].

Inductive inv : sys -> Prop :=
| inv_early s : starting a pp act A0 A1 A2 A3 s -> inv s
| inv_run b code blk pend cs log : pid_ok a pp b -> pauses code -> only SIGCHLD pend -> kid_ok b log cs ->
    proj a log = [EOut stdout (parent_text a)] -> inv (Sys (par code blk pend :: cs) log).

(** The death of the child: it is gone at once. *)
Lemma kid_dies b code blk pend q log : pid_ok a pp b -> alive_kid 250 b a log q ->
  do_exit (Sys [par code blk pend; q] log) q 0 =
  Sys [par code blk (sigaddset pend SIGCHLD)] (log ++ [(b, EExit 0)]).
Proof.
  intros (Hb1 & Hba & Hbp) [E1 E2 E3 E4 _]. unfold do_exit, add_log. cbn [procs plog]. rewrite E1, E2. f_equal.
  rewrite disown_none by (unfold par; intros r [<- | [<- | []]]; fields; congruence). rewrite (proj2 (Z.eqb_neq a 1)) by lia.
  cbn [find_pid List.find p_pid par]. rewrite Z.eqb_refl.
  unfold del_pid. cbn [List.filter p_pid par]. rewrite E1, Z.eqb_refl, (proj2 (Z.eqb_neq a b)) by congruence. cbn -[Z.eqb].
  change (auto_reap (acts1 act SIGCHLD)) with true. unfold post_signal. cbn -[Z.eqb sigaddset]. by rewrite Z.eqb_refl.
Qed.

Lemma pausing_goes b code blk pend code' blk' pend' cs log : pid_ok a pp b -> pauses code' -> only SIGCHLD pend' -> kid_ok b log cs ->
  proj a log = [EOut stdout (parent_text a)] ->
  inv (put (Sys (par code blk pend :: cs) log) (par code' blk' pend')).
Proof.
  intros Hb Hc Hp Hk EX. rewrite put_first; [by apply (inv_run b)|done|]. destruct Hb as (_ & Hba & _).
  destruct Hk as [q [E1 _ _ _ _]|]; [intros r [<- | []]; cbn; congruence|intros r []].
Qed.

Lemma pausing_moves b code blk pend cs log s' : pid_ok a pp b -> pauses code -> only SIGCHLD pend -> kid_ok b log cs ->
  proj a log = [EOut stdout (parent_text a)] -> moves functions (Sys (par code blk pend :: cs) log) (par code blk pend) s' ->
  inv s'.
Proof.
  intros Hb Hc Hp Hk EX (_ & [(o & Hr) | [(sig & o & Hd & Hr) | Hw]]).
  - unfold run1 in Hr. cbn [p_code par] in Hr. destruct Hc.
    + injection Hr as <-. apply (pausing_goes b _ blk pend pausing false pend cs log); [done|constructor|done..].
    + cbn [pausing do_call p_blocked] in Hr. destruct blk; [done|]. injection Hr as <-.
      apply (pausing_goes b _ false pend pausing true pend cs log); [done|constructor|done..].
  - assert (sig = SIGCHLD) as -> by (by apply (deliverable_only SIGCHLD (par code blk pend))). injection Hr as <-.
    apply (pausing_goes b code blk pend code blk (sigdelset pend SIGCHLD) cs log); [done..| |done|done]. by apply only_del.
  - unfold wake in Hw. cbn [p_blocked par p_code] in Hw. destruct blk; [|done]. by destruct Hc.
Qed.

Lemma nocld_step s m s' : internal m = true -> inv s -> step functions s m = Some s' -> inv s'.
Proof.
  intros Hm Hi (p & Hin & Hmv)%step_moves; [|done]. destruct Hi as [s0 Hs0|b code blk pend cs log Hb Hc Hp Hk EX].
  - destruct (starting_step a pp Hpp Hne _ act 250 _ A0 A1 A2 A3 _ _ _ nocld_codes Hs0 Hin Hmv) as [H | (b & q & Hb & Hq & ->)];
      [by apply inv_early|]. apply (inv_run b (Forever "pause_loop") false 0); [done|constructor|apply only_0|by constructor|].
    apply proj_of_own.
  - destruct Hin as [<- | Hin]; [by eapply pausing_moves|]. destruct Hk as [q Hq|]; [|done]. destruct Hin as [<- | []].
    pose proof Hb as (Hb1 & Hba & Hbp).
    destruct (delay_kid_moves _ _ _ _ _ _ _ _ Hq Hmv) as [(-> & Eo) | (q' & es & -> & Hq')].
    + rewrite (kid_dies b) by done. apply (inv_run b); [done|done|by apply only_add| |by rewrite proj_other].
      apply kid_gone. by rewrite proj_own.
    + rewrite put_cons_other by (destruct Hq' as [-> _ _ _ _]; done). cbn [put_proc map].
      rewrite (proj2 (Z.eqb_eq (p_pid q) (p_pid q'))) by (destruct Hq, Hq'; congruence).
      apply (inv_run b); [done..|by constructor|by rewrite proj_map_other].
Qed.

End Run.

(** SA_NOCLDWAIT leaves no zombie: in every schedule of zombies_clear_linux26.c, once the
    child is there, the parent is alive and pauses, and the child is alive, having done
    a part of its work, or it has done all of it and is gone from the table.  No dead
    process is ever in the table. *)
Theorem no_zombie_ever a pp ms s' : 1 < a -> 1 < pp -> pp <> a -> Forall (fun m => internal m = true) ms ->
  steps functions (Sys [boot a pp main] []) ms = Some s' ->
  proj a (plog s') `prefix_of` [EOut stdout (parent_text a); EPerror "fork failed"; EExit 256] /\ map p_pid (procs s') = [a] \/
  exists b p cs, 1 < b /\ b <> a /\ procs s' = p :: cs /\ p_pid p = a /\ dead p = false /\
    proj a (plog s') = [EOut stdout (parent_text a)] /\
    (cs = [] /\ proj b (plog s') = child_out 250 b \/
     exists q, cs = [q] /\ p_pid q = b /\ dead q = false /\ proj b (plog s') `prefix_of` child_out 250 b).
Proof.
  intros Ha Hpp Hn Hm Hs. assert (inv a pp s') as Hi.
  { eapply (moves_inv functions (fun m => internal m = true)); [|apply inv_early|done..].
    - intros s m s1 H1 H2. by apply nocld_step.
    - exact (starting_at a pp act (A0) (A1) (A2 a) (A3 a) A0 _ false [] (early_0 _ _ _ _ _ _)). }
  destruct Hi as [s0 Hs0|b code blk pend cs log (Hb1 & Hba & _) Hc Hp Hk EX]; [left; by eapply starting_seen|].
  right. exists b, (par a pp code blk pend), cs. split; [done|]. split; [done|]. split; [done|]. split; [done|].
  split; [done|]. split; [done|]. destruct Hk as [q [E1 E2 E3 E4 (t & _ & Et)]|E]; [right|by left].
  exists q. split; [done|]. split; [done|]. split; [done|]. by exists t.
Qed.

End NoCldWait.
