(* ===== verification/ThrdDemos.v ===== *)
(** Thread programs of src/pthreads whose threads only call the system: real-time
    priorities (sched/sched_pthrd_rtprio/sched_pthrd_rtprio.c), thread attributes
    (misc/pthrd_attr_getset/attr_setget.c), stack sizes (llnl-tut-prgs/stacksz.c), many
    threads (misc/cr8ManyThrds), resource limits (misc/rlim_pthrds/rlim_threads.c) and
    fork in a thread (misc/forking_MT_prcs/mt_fork_exec.c).  Each thread function and
    each main is a program of its own; what a theorem says of one holds on every kernel,
    hence whatever the other threads do. *)
From S2P Require Import Prelude CMonad CLib Decimal Common Strtoul.

Definition puts {K} (txt : string) : C K unit := printf (cat [txt; nl]).

Definition pthread_exit {K A} : C K A := halt_with HThreadExit.

(** ** sched_pthrd_rtprio.c *)

Module RtPrio.

Section Code.
Context {K : Type} {HK : Kernel K}.

Definition SCHED_FIFO : Z := 1.

(** [p.sched_priority] is an int. *)
Definition set_priority (pri : Z) : C K unit :=
  r ← sys "pthread_setschedparam" [AI SCHED_FIFO; AI (to_int pri)];
  when (negb (r =? 0)) (perror "pthread_setschedparam").

Definition thrd_p2 (msg : Z) : C K unit :=
  me ← sys "getpid" [];
  printf (cat ["  RT Thread p2 (LWP "; fmt_d me; ") here in function thrd_p2()"; nl;
               "   setting sched policy to SCHED_FIFO and RT priority to "; fmt_d msg; " in 2 seconds.."; nl]);;
  sys "sleep" [AI 2];;
  set_priority msg;;
  puts "  p2: working";;
  DELAY_LOOP 50 350;;
  puts "  p2: exiting..";;
  pthread_exit.

Definition thrd_p3 (msg : Z) : C K unit :=
  let pri := msg + 10 in
  me ← sys "getpid" [];
  printf (cat ["  RT Thread p3 (LWP "; fmt_d me; ") here in function thrd_p3()"; nl;
               " setting sched policy to SCHED_FIFO and RT priority HIGHER to "; fmt_d pri; " in 4 seconds.."; nl]);;
  set_priority pri;;
  sys "sleep" [AI 4];;
  puts "  p3: working";;
  DELAY_LOOP 51 210;;
  puts "  p3: exiting..";;
  pthread_exit.

Definition note : string :=
  cat [nl; "Note: to create true (soft) RT threads, and have it run as expected, you need to:"; nl;
       chr 9; "1. run this program as superuser -OR- have the capability CAP_SYS_NICE (better!)"; nl;
       chr 9; "2. ensure it runs on a single CPU core (use taskset -c02 <prg-name>)"; nl].

(** The creation of one of the threads. *)
Definition create (name fn : string) (rt_pri : Z) : C K unit :=
  me ← sys "getpid" [];
  printf (cat ["main() thread ("; fmt_d me; "): now creating realtime pthread "; name; ".."; nl]);;
  r ← sys "pthread_create" [AS fn; AI rt_pri];
  if negb (r =? 0) then perror "pthread creation";; exit 1 else mret tt.

Definition main (argv : list string) : C K unit :=
  min ← sys "sched_get_priority_min" [AI SCHED_FIFO];
  (if min =? -1 then perror "sched_get_priority_min failure";; exit 1 else mret tt);;
  max ← sys "sched_get_priority_max" [AI SCHED_FIFO];
  (if max =? -1 then perror "sched_get_priority_max failure";; exit 1 else mret tt);;
  (if argc argv =? 1 then
     fprintf stderr (cat ["Usage: "; arg_n argv 0; " realtime-priority["; fmt_d min; "-"; fmt_d (max - 11); "]"; nl]);; exit 1
   else mret tt);;
  let rt_pri := atoi (arg_n argv 1) in
  (if (rt_pri <? min) || (max - 11 <? rt_pri) then
     fprintf stderr (cat [arg_n argv 0; ": Priority value passed ("; fmt_d rt_pri; ") out of range ["; fmt_d min; "-";
                          fmt_d (max - 10); "]."; nl]);; exit 1
   else mret tt);;
  printf note;;
  create "p2" "thrd_p2" rt_pri;;
  create "p3" "thrd_p3" rt_pri;;
  DELAY_LOOP 109 400;;
  pthread_exit.

End Code.

(** The priorities that are set and the threads that are created. *)
Definition set_of (e : event) : list (Z * Z) :=
  match e with EvCall (Csys "pthread_setschedparam" [AI pol; AI p]) _ => [(pol, p)] | _ => [] end.
Definition sets (tr : list event) : list (Z * Z) := concat (map set_of tr).

Definition create_of (e : event) : list (string * Z) :=
  match e with EvCall (Csys "pthread_create" [AS fn; AI p]) _ => [(fn, p)] | _ => [] end.
Definition creates (tr : list event) : list (string * Z) := concat (map create_of tr).

(** The letters of a delay loop. *)
Definition letters (c : Z) (ws : list resp) : list event := map (EvCall (Cwrite STDOUT_FILENO [c])) ws.

Section Runs.
Context {K : Type} {HK : Kernel K}.

Lemma wp_delay val count (Q : outcome unit -> world K -> Prop) w : 0 <= count ->
  (forall ws w', length ws = Z.to_nat count -> trace w' = trace w ++ letters (to_uchar val) ws -> Q (Done tt) w') ->
  wp (DELAY_LOOP val count) Q w.
Proof.
  intros Hc HQ. eapply wp_mono; [|by apply DELAY_LOOP_writes]. intros o w' (-> & ws & Hl & Ht). by eapply HQ.
Qed.

Lemma sets_letters c ws : sets (letters c ws) = [].
Proof. by induction ws. Qed.

Lemma creates_letters c ws : creates (letters c ws) = [].
Proof. by induction ws. Qed.

Lemma sets_app t1 t2 : sets (t1 ++ t2) = sets t1 ++ sets t2.
Proof. unfold sets. by rewrite map_app, concat_app. Qed.

Lemma rt_creates_app t1 t2 : creates (t1 ++ t2) = creates t1 ++ creates t2.
Proof. unfold creates. by rewrite map_app, concat_app. Qed.

(** One call, with the int of the priority; a failure is only reported. *)
Lemma wp_set_priority pri (Q : outcome unit -> world K -> Prop) w :
  (forall w' tr, trace w' = trace w ++ tr -> sets tr = [(SCHED_FIFO, to_int pri)] -> Q (Done tt) w') -> wp (set_priority pri) Q w.
Proof.
  intros HQ. unfold set_priority. wp_seq. destruct (negb (ret r =? 0)); wp_seq; (eapply HQ; [cbn [trace after]; rewrite <- ?app_assoc; reflexivity|done]).
Qed.

(** Each thread sets one priority and ends. *)
Lemma thrd_p2_sets pri (w : world K) :
  wp (thrd_p2 pri) (adds w (fun o tr => o = Halt HThreadExit /\ sets tr = [(SCHED_FIFO, to_int pri)])) w.
Proof.
  unfold thrd_p2, puts. wp_seq. apply wp_set_priority. intros w1 t1 H1 E1. cbn [post]. wp_seq.
  apply wp_delay; [lia|]. intros ws w2 _ H2. cbn [post]. wp_seq. eexists. split.
  - cbn [trace]. rewrite H2. cbn [trace]. rewrite H1. cbn [trace after]. rewrite <- !app_assoc. reflexivity.
  - split; [done|]. rewrite !sets_app, E1, sets_letters. done.
Qed.

Lemma thrd_p3_sets pri (w : world K) :
  wp (thrd_p3 pri) (adds w (fun o tr => o = Halt HThreadExit /\ sets tr = [(SCHED_FIFO, to_int (pri + 10))])) w.
Proof.
  unfold thrd_p3, puts. cbn zeta. wp_seq. apply wp_set_priority. intros w1 t1 H1 E1. cbn [post]. wp_seq.
  apply wp_delay; [lia|]. intros ws w2 _ H2. cbn [post]. wp_seq. eexists. split.
  - cbn [trace]. rewrite H2. cbn [trace after]. rewrite H1. cbn [trace after]. rewrite <- !app_assoc. reflexivity.
  - split; [done|]. rewrite !sets_app, E1, sets_letters. done.
Qed.

Lemma wp_create name fn pri (w : world K) :
  wp (create name fn pri) (adds w (fun o tr => creates tr = [(fn, pri)] /\ (o = Done tt \/ o = Halt (HExit 1)))) w.
Proof. unfold create. wp_seq. destruct (negb (ret r0 =? 0)); wp_seq; leaf; auto. Qed.

(** What main creates, with the bounds the system gave it. *)
Definition main_spec (argv : list string) (o : outcome unit) (tr : list event) : Prop :=
  (o = Halt (HExit 1) /\ creates tr = []) \/
  exists mn mx, EvCall (Csys "sched_get_priority_min" [AI SCHED_FIFO]) mn ∈ tr /\
    EvCall (Csys "sched_get_priority_max" [AI SCHED_FIFO]) mx ∈ tr /\
    let pri := atoi (arg_n argv 1) in
    ret mn <= pri <= ret mx - 11 /\
    (o = Halt (HExit 1) /\ creates tr `prefix_of` [("thrd_p2", pri); ("thrd_p3", pri)] \/
     o = Halt HThreadExit /\ creates tr = [("thrd_p2", pri); ("thrd_p3", pri)]).

Lemma main_creates argv (w : world K) : wp (main argv) (adds w (main_spec argv)) w.
Proof.
  unfold main, main_spec. cbn zeta. wp_seq. rename r into mn. destruct (ret mn =? -1); [wp_seq; leaf; by left|].
  wp_seq. rename r into mx. destruct (ret mx =? -1); [wp_seq; leaf; by left|]. wp_seq.
  destruct (argc argv =? 1); [wp_seq; leaf; by left|]. wp_seq.
  destruct ((atoi (arg_n argv 1) <? ret mn) || (ret mx - 11 <? atoi (arg_n argv 1))) eqn:Hr; [wp_seq; leaf; by left|].
  apply orb_false_iff in Hr as [H1%Z.ltb_ge H2%Z.ltb_ge]. set (pri := atoi (arg_n argv 1)) in *.
  wp_seq. eapply wp_adds; [apply wp_create|]. intros o1 w1 t1 Ht1 (E1 & Ho1).
  assert (forall tr, EvCall (Csys "sched_get_priority_min" [AI SCHED_FIFO]) mn ∈
    (EvCall (Csys "sched_get_priority_min" [AI SCHED_FIFO]) mn :: EvCall (Csys "sched_get_priority_max" [AI SCHED_FIFO]) mx :: tr) /\
    EvCall (Csys "sched_get_priority_max" [AI SCHED_FIFO]) mx ∈
    (EvCall (Csys "sched_get_priority_min" [AI SCHED_FIFO]) mn :: EvCall (Csys "sched_get_priority_max" [AI SCHED_FIFO]) mx :: tr)) as Hin.
  { intros tr. split; [apply list_elem_of_here|apply list_elem_of_further, list_elem_of_here]. }
  destruct Ho1 as [-> | ->]; cbn [post].
  2:{ eexists. split; [rewrite Ht1; cbn [trace after]; rewrite <- !app_assoc; reflexivity|]. right. exists mn, mx.
      split; [apply Hin|]. split; [apply Hin|]. split; [lia|]. left. split; [done|]. rewrite !rt_creates_app, E1. cbn. by eexists. }
  wp_seq. eapply wp_adds; [apply wp_create|]. intros o2 w2 t2 Ht2 (E2 & Ho2). destruct Ho2 as [-> | ->]; cbn [post].
  2:{ eexists. split; [rewrite Ht2, Ht1; cbn [trace after]; rewrite <- !app_assoc; reflexivity|]. right. exists mn, mx.
      split; [apply Hin|]. split; [apply Hin|]. split; [lia|]. left. split; [done|]. by rewrite !rt_creates_app, E1, E2. }
  wp_step. apply wp_delay; [lia|]. intros ws w3 _ H3. cbn [post]. unfold pthread_exit. wp_seq.
  eexists. split; [rewrite H3, Ht2, Ht1; cbn [trace after]; rewrite <- !app_assoc; reflexivity|]. right. exists mn, mx.
  split; [apply Hin|]. split; [apply Hin|]. split; [lia|]. right. split; [done|]. by rewrite !rt_creates_app, E1, E2, creates_letters.
Qed.

End Runs.

Definition thread {K} `{Kernel K} (fn : string) : Z -> C K unit := if String.eqb fn "thrd_p2" then thrd_p2 else thrd_p3.

(** No thread of sched_pthrd_rtprio.c gets the highest real-time priority: main creates
    its threads only with a priority between the system's lowest and eleven below its
    highest, and each of them, on every kernel, sets exactly one priority, with the
    policy SCHED_FIFO, from the lowest to one below the highest, and ends. *)
Theorem rt_priorities_in_range {K} `{Kernel K} argv (w : world K) :
  exists o w' tr, main argv w = (o, w') /\ trace w' = trace w ++ tr /\ main_spec argv o tr /\
    forall fn pri, (fn, pri) ∈ creates tr -> exists mn mx,
      EvCall (Csys "sched_get_priority_min" [AI SCHED_FIFO]) mn ∈ tr /\
      EvCall (Csys "sched_get_priority_max" [AI SCHED_FIFO]) mx ∈ tr /\
      (ret mx <= INT_MAX -> forall w1 : world K, exists w1' tr1 p, thread fn pri w1 = (Halt HThreadExit, w1') /\
        trace w1' = trace w1 ++ tr1 /\ sets tr1 = [(SCHED_FIFO, p)] /\ ret mn <= p <= ret mx - 1).
Proof.
  destruct (wp_run _ _ _ (main_creates argv w)) as (o & w' & E & tr & Ht & Hs). exists o, w', tr. split_and!; [done..|].
  intros fn pri Hin. destruct Hs as [[_ Hn] | (mn & mx & H1 & H2 & Hb & Hc)]; [rewrite Hn in Hin; by apply not_elem_of_nil in Hin|].
  exists mn, mx. split_and!; [done..|]. intros Hmx w1. set (p0 := atoi (arg_n argv 1)) in *. cbn zeta in Hb.
  pose proof (to_int_range (strtol10 (arg_n argv 1))) as Hp0. change (to_int _) with p0 in Hp0.
  assert ((fn = "thrd_p2" \/ fn = "thrd_p3") /\ pri = p0) as [Hfn ->].
  { assert ((fn, pri) ∈ [("thrd_p2", p0); ("thrd_p3", p0)]) as Hin'.
    { destruct Hc as [[_ [t Et]] | [_ Et]]; [rewrite Et; apply elem_of_app; by left|by rewrite <- Et]. }
    rewrite !elem_of_cons in Hin'. set_solver. }
  destruct Hfn as [-> | ->].
  - destruct (wp_run _ _ _ (thrd_p2_sets p0 w1)) as (o1 & w1' & E1 & tr1 & Ht1 & -> & Es).
    exists w1', tr1, p0. split_and!; [done|done| |lia|lia]. rewrite Es, to_int_id; [done|lia].
  - destruct (wp_run _ _ _ (thrd_p3_sets p0 w1)) as (o1 & w1' & E1 & tr1 & Ht1 & -> & Es).
    exists w1', tr1, (p0 + 10). split_and!; [done|done| |lia|lia]. rewrite Es, to_int_id; [done|lia].
Qed.

End RtPrio.

(** ** cr8ManyThrds.c *)

Module ManyThrds.

Section Code.
Context {K : Type} {HK : Kernel K}.
Context (strerror strerrorname_np : Z -> string).

Definition PrintStuff (threadnum : Z) : C K unit :=
  printf (cat ["Thread "; fmt_0wd 5 threadnum; nl]);;
  sys "pause" [];;
  pthread_exit.

(** [for (t = 0; t < n; t++)] with an array of [size] elements; [failed] reports. *)
Definition spawn (size n : Z) (failed : Z -> Z -> C K unit) : C K unit :=
  loop (S (Z.to_nat n)) (fun t =>
    if t <? n then
      if size <=? t then undefined (UB_bounds "threads" t)
      else
        rc ← sys "pthread_create" [AS "PrintStuff"; AI t];
        (if negb (rc =? 0) then failed t rc;; exit 1 else mret tt);;
        mret (inl (t + 1))
    else mret (inr tt)) 0.

(** The argument of both programs. *)
Definition num_threads (max_threads : Z) (argv : list string) : C K Z :=
  (if negb (argc argv =? 2) then printf (cat ["Usage: "; arg_n argv 0; " num-threads-to-create"; nl]);; exit 1 else mret tt);;
  let numthrds := atoi (arg_n argv 1) in
  (if (numthrds <=? 0) || (max_threads <? numthrds) then printf (cat [arg_n argv 0; ": num-threads invalid"; nl]);; exit 1
   else mret tt);;
  mret numthrds.

Definition MAX_THREADS : Z := 1270000.

Definition failed (argv0 : string) (t rc : Z) : C K unit :=
  printf (cat [argv0; ": Thrd # "; fmt_d t; nl]);;
  fprintf stderr (cat ["ERROR: return code from pthread_create() is "; fmt_d rc; nl; "strerror() says:"; strerror rc; nl]);;
  printf (cat ["err = "; strerrorname_np rc; nl]);;
  perror "perror(): pthread_create failed".

(** misc/cr8ManyThrds/cr8ManyThrds.c *)
Definition main (argv : list string) : C K unit :=
  numthrds ← num_threads MAX_THREADS argv;
  threads ← syscall (Cmalloc (8 * numthrds));
  (if ret threads =? 0 then printf (cat [arg_n argv 0; ": out of memory!"; nl]);; exit 1 else mret tt);;
  spawn numthrds numthrds (failed (arg_n argv 0));;
  syscall (Cfree (ret threads));;
  pthread_exit.

(** misc/cr8ManyThrds/buggy_manythrds/cr8ManyThrds.c: the array has five elements. *)
Definition MAX_THREADS_buggy : Z := 127000.

Definition failed_buggy (argv0 : string) (t rc : Z) : C K unit :=
  printf (cat [argv0; ": Thrd # "; fmt_d t; ": ERROR: return code from pthread_create() is "; fmt_d rc; nl]);;
  perror "pthread_create failed".

Definition main_buggy (argv : list string) : C K unit :=
  numthrds ← num_threads MAX_THREADS_buggy argv;
  spawn 5 numthrds (failed_buggy (arg_n argv 0));;
  sys "pause" [];;
  pthread_exit.

End Code.

(** The threads that were created, in order. *)
Definition created (rs : list resp) : list event :=
  imap (fun i r => EvCall (Csys "pthread_create" [AS "PrintStuff"; AI (Z.of_nat i)]) r) rs.

Definition all_zero (rs : list resp) : Prop := Forall (fun r => ret r = 0) rs.

(** What the loop does: all threads, up to a failure, or up to the end of the array. *)
Definition spawn_spec (size n : Z) (o : outcome unit) (tr : list event) : Prop :=
  exists rs, all_zero rs /\
    ((zlen rs = n /\ n <= Z.max 0 size /\ o = Done tt /\ tr = created rs) \/
     (exists r tr1, zlen rs < Z.min size n /\ ret r <> 0 /\ o = Halt (HExit 1) /\ tr = created (rs ++ [r]) ++ tr1) \/
     (zlen rs = Z.max 0 size /\ size < n /\ o = Halt (HUB (UB_bounds "threads" (zlen rs))) /\ tr = created rs)).

Section Runs.
Context {K : Type} {HK : Kernel K}.

Lemma prints_only_perror msg (w : world K) : exists tr, perror msg w = (Done tt, World (kern w) (errno w) (trace w ++ tr)).
Proof. by eexists. Qed.

Lemma failed_prints se sn argv0 t rc : prints_only (K := K) (failed se sn argv0 t rc).
Proof. unfold failed. repeat (apply prints_only_bind; [apply prints_only_emit|]). intros w. apply prints_only_perror. Qed.

Lemma failed_buggy_prints argv0 t rc : prints_only (K := K) (failed_buggy argv0 t rc).
Proof. unfold failed_buggy. repeat (apply prints_only_bind; [apply prints_only_emit|]). intros w. apply prints_only_perror. Qed.

Lemma created_snoc rs r : created (rs ++ [r]) = created rs ++ [EvCall (Csys "pthread_create" [AS "PrintStuff"; AI (zlen rs)]) r].
Proof. unfold created. rewrite imap_app. cbn. by rewrite Nat.add_0_r. Qed.

Lemma wp_spawn size n fl (w : world K) : 0 <= n -> (forall t rc, prints_only (fl t rc)) ->
  wp (spawn size n fl) (adds w (spawn_spec size n)) w.
Proof.
  intros Hn Hfl. unfold spawn.
  apply (wp_loop_total
    (fun t w' => exists rs, t = zlen rs /\ t <= n /\ t <= Z.max 0 size /\ all_zero rs /\ trace w' = trace w ++ created rs)
    (fun t _ => Z.to_nat (n - t))).
  2:{ exists []. split_and!; [done|done|lia|constructor|by rewrite app_nil_r]. }
  2:{ lia. }
  intros t w' (rs & -> & Htn & Hts & Hz & Ht). pose proof (zlen_nonneg rs). destruct (Z.ltb_spec (zlen rs) n) as [Hl|Hl].
  2:{ wp_seq. exists (created rs). split; [done|]. exists rs. split; [done|]. left. split_and!; [lia|lia|done|done]. }
  destruct (Z.leb_spec size (zlen rs)) as [Hs|Hs].
  { wp_seq. exists (created rs). split; [done|]. exists rs. split; [done|]. right. right. split_and!; [lia|lia|done|done]. }
  wp_seq. destruct (Z.eqb_spec (ret r) 0) as [Er|Er]; cbn [negb].
  - wp_seq. split; [|lia]. exists (rs ++ [r]). rewrite zlen_app. cbn [zlen length]. split_and!.
    + reflexivity.
    + change (zlen [r]) with 1. lia.
    + change (zlen [r]) with 1. lia.
    + apply Forall_app. split; [done|]. by constructor.
    + cbn [trace after]. by rewrite Ht, created_snoc, app_assoc.
  - wp_seq. apply wp_prints_only; [apply Hfl|]. intros tr1. cbn [post]. wp_seq.
    eexists. split; [cbn [trace after]; rewrite Ht, <- !app_assoc; reflexivity|]. exists rs. split; [done|]. right. left.
    exists r, tr1. split_and!; [lia|done|done|]. by rewrite created_snoc, <- app_assoc.
Qed.

(** A wrong number ends the program; else it goes on with the number. *)
Lemma wp_num_threads mx argv (Q : outcome Z -> world K -> Prop) w :
  (argc argv = 2 -> 0 < atoi (arg_n argv 1) <= mx -> Q (Done (atoi (arg_n argv 1))) w) ->
  (forall txt w', trace w' = trace w ++ [EvOut stdout txt] -> Q (Halt (HExit 1)) w') ->
  wp (num_threads mx argv) Q w.
Proof.
  intros HQ HX. unfold num_threads. cbn zeta. wp_seq. destruct (Z.eqb_spec (argc argv) 2) as [Ha|Ha]; cbn [negb].
  2:{ wp_seq. by eapply HX. }
  wp_seq. destruct ((atoi (arg_n argv 1) <=? 0) || (mx <? atoi (arg_n argv 1))) eqn:Hr; [wp_seq; by eapply HX|].
  apply orb_false_iff in Hr as [H1%Z.leb_gt H2%Z.ltb_ge]. wp_seq. by apply HQ.
Qed.

End Runs.

(** What cr8ManyThrds.c does: nothing for a wrong number or without memory; else the
    threads, and the memory is given back. *)
Definition many_spec (argv : list string) (o : outcome unit) (tr : list event) : Prop :=
  let n := atoi (arg_n argv 1) in
  (o = Halt (HExit 1) /\ exists txt, tr = [EvOut stdout txt]) \/
  argc argv = 2 /\ 0 < n <= MAX_THREADS /\ exists rm tr1, tr = EvCall (Cmalloc (8 * n)) rm :: tr1 /\
    if ret rm =? 0 then o = Halt (HExit 1) /\ tr1 = [EvOut stdout (cat [arg_n argv 0; ": out of memory!"; nl])]
    else exists rs, all_zero rs /\
      ((zlen rs = n /\ o = Halt HThreadExit /\ exists rf, tr1 = created rs ++ [EvCall (Cfree (ret rm)) rf]) \/
       (exists r tr2, zlen rs < n /\ ret r <> 0 /\ o = Halt (HExit 1) /\ tr1 = created (rs ++ [r]) ++ tr2)).

(** cr8ManyThrds.c creates as many threads as it is asked for, numbered from 0 in order,
    and stops at the first that cannot be created; every element it stores is inside of
    the array it allocated for that number. *)
Theorem many_threads_created {K} `{Kernel K} se sn argv (w : world K) :
  exists o w' tr, main se sn argv w = (o, w') /\ trace w' = trace w ++ tr /\ many_spec argv o tr.
Proof.
  apply wp_trace. unfold main, many_spec. cbn zeta. wp_step. apply wp_num_threads.
  2:{ intros txt w' Ht. cbn [post]. exists [EvOut stdout txt]. split; [done|]. left. split; [done|]. by eexists. }
  intros Ha Hn. cbn [post]. wp_seq. rename r into rm. destruct (ret rm =? 0) eqn:Em.
  { wp_seq. leaf. right. split_and!; [done|lia|lia|]. exists rm. eexists. split; [reflexivity|]. by rewrite Em. }
  wp_seq. eapply wp_adds; [apply wp_spawn; [lia|intros; apply failed_prints]|].
  intros o w' tr Ht (rs & Hz & [(Hl & _ & -> & ->) | [(r & tr1 & Hl & Hr & -> & ->) | (_ & ? & _)]]); cbn [post]; [..|lia].
  - unfold pthread_exit. wp_seq. eexists. split; [cbn [trace after]; rewrite Ht; cbn [trace after]; rewrite <- !app_assoc; reflexivity|].
    right. split_and!; [done|lia|lia|]. exists rm. eexists. split; [reflexivity|]. rewrite Em. exists rs. split; [done|].
    left. split_and!; [done|done|]. by eexists.
  - eexists. split; [rewrite Ht; cbn [trace after]; rewrite <- !app_assoc; reflexivity|].
    right. split_and!; [done|lia|lia|]. exists rm. eexists. split; [reflexivity|]. rewrite Em. exists rs. split; [done|].
    right. exists r, tr1. split_and!; [lia|done|done|]. done.
Qed.

(** The buggy program, asked for more than five threads, writes behind its array of five
    unless one of the first five cannot be created. *)
Lemma buggy_overruns {K} `{Kernel K} argv (w : world K) : argc argv = 2 -> 5 < atoi (arg_n argv 1) <= MAX_THREADS_buggy ->
  exists o w' tr rs, main_buggy argv w = (o, w') /\ trace w' = trace w ++ tr /\ all_zero rs /\
    (o = Halt (HUB (UB_bounds "threads" 5)) /\ zlen rs = 5 /\ tr = created rs \/
     o = Halt (HExit 1) /\ zlen rs < 5 /\ exists r tr1, ret r <> 0 /\ tr = created (rs ++ [r]) ++ tr1).
Proof.
  intros Ha Hn. enough (exists o w' tr, main_buggy argv w = (o, w') /\ trace w' = trace w ++ tr /\ exists rs, all_zero rs /\
    (o = Halt (HUB (UB_bounds "threads" 5)) /\ zlen rs = 5 /\ tr = created rs \/
     o = Halt (HExit 1) /\ zlen rs < 5 /\ exists r tr1, ret r <> 0 /\ tr = created (rs ++ [r]) ++ tr1)) as (o & w' & tr & E & Ht & rs & Hz & Hc)
    by (by exists o, w', tr, rs).
  apply wp_trace. unfold main_buggy, num_threads. cbn zeta. rewrite Ha. cbn [Z.eqb Pos.eqb negb].
  rewrite (proj2 (Z.leb_gt (atoi (arg_n argv 1)) 0)), (proj2 (Z.ltb_ge MAX_THREADS_buggy (atoi (arg_n argv 1)))) by lia. cbn [orb].
  wp_seq. eapply wp_adds; [apply wp_spawn; [lia|intros; apply failed_buggy_prints]|].
  intros o w' tr Ht (rs & Hz & [(Hl & ? & -> & ->) | [(r & tr1 & Hl & Hr & -> & ->) | (Hl & _ & -> & ->)]]); cbn [post]; [lia|..].
  - eexists. split; [exact Ht|]. exists rs. split; [done|]. right. split_and!; [done|lia|]. by exists r, tr1.
  - eexists. split; [exact Ht|]. exists rs. split; [done|]. left. rewrite Hl. done.
Qed.

End ManyThrds.

(** ** stacksz.c *)

Module StackSz.

Definition N : Z := 100.
Definition NTHREADS : Z := 2.

Section Code.
Context {K : Type} {HK : Kernel K}.

(** The array is only filled; QP prints nothing. *)
Definition dowork (tag : Z) : C K unit :=
  printf (cat [nl; "In thread #"; fmt_d tag; ":"; nl; "sizeof(double) = "; fmt_d 8; "; so stack mem = "; fmt_d (8 * N * N); nl]);;
  pthread_exit.

(** One turn of the loop: a thread is created and waited for. *)
Definition turn (j : Z) : C K unit :=
  c ← syscall (Csys "pthread_create" [AS "dowork"; AI j]);
  (if negb (ret c =? 0) then
     printf (cat ["ERROR; return code from pthread_create() is "; fmt_d (ret c); nl]);; exit 1
   else mret tt);;
  rc ← sys "pthread_join" [AI (nth 0 (out c) 0)];
  if negb (rc =? 0) then
    printf (cat ["ERROR; return code from pthread_join() is "; fmt_d rc; nl]);; exit 1
  else mret tt.

Definition main (argv : list string) : C K unit :=
  (if negb (argc argv =? 2) then
     fprintf stderr (cat ["Usage: "; arg_n argv 0; " stacksize_in_KB"; nl]);; exit 1
   else mret tt);;
  sys "pthread_attr_init" [];;
  sys "pthread_attr_setdetachstate" [AI 0];;
  g ← syscall (Csys "pthread_attr_getstacksize" []);
  let stacksize := if ret g =? 0 then nth 0 (out g) 0 else 0 in
  printf (cat ["platform default MAX stacksize = "; fmt_d stacksize; " (="; fmt_d (stacksize / 1024); " Kb =";
               fmt_d (stacksize / (1024 * 1024)); " Mb), setting max stacksz to "; fmt_d (atoi (arg_n argv 1)); " Kb"; nl]);;
  match ck_int (atoi (arg_n argv 1) * 1024) with
  | None => undefined (UB_overflow "stacksize")
  | Some z =>
      let stacksize := wrapu 64 z in
      s ← sys "pthread_attr_setstacksize" [AI stacksize];
      (if negb (s =? 0) then
         printf (cat ["pthread_attr_setstacksize ("; fmt_d stacksize; " bytes) failed!"; nl]);; exit 1
       else mret tt);;
      loop (S (Z.to_nat NTHREADS)) (fun j => if j <? NTHREADS then turn j;; mret (inl (j + 1)) else mret (inr tt)) 0;;
      sys "pthread_attr_destroy" [];;
      pthread_exit
  end.

End Code.

(** Thread [j] was created and joined. *)
Definition joined (j : Z) (c r : resp) : list event :=
  [EvCall (Csys "pthread_create" [AS "dowork"; AI j]) c; EvCall (Csys "pthread_join" [AI (nth 0 (out c) 0)]) r].

(** The turn ended well, or the program with it. *)
Definition turn_spec (j : Z) (o : outcome unit) (tr : list event) : Prop :=
  exists c, (ret c <> 0 /\ o = Halt (HExit 1) /\ exists txt, tr = [EvCall (Csys "pthread_create" [AS "dowork"; AI j]) c; EvOut stdout txt]) \/
  exists r, ret c = 0 /\ (ret r <> 0 /\ o = Halt (HExit 1) /\ (exists txt, tr = joined j c r ++ [EvOut stdout txt]) \/
                         ret r = 0 /\ o = Done tt /\ tr = joined j c r).

Definition size_call (z : Z) : call := Csys "pthread_attr_setstacksize" [AI (wrapu 64 z)].

(** The run after the texts. *)
Definition stack_run (kb : Z) (o : outcome unit) (tr : list event) : Prop :=
  (kb * 1024 < INT_MIN \/ INT_MAX < kb * 1024) /\ o = Halt (HUB (UB_overflow "stacksize")) /\ tr = [] \/
  INT_MIN <= kb * 1024 <= INT_MAX /\ exists s tr1, tr = EvCall (size_call (kb * 1024)) s :: tr1 /\
    ((ret s <> 0 /\ o = Halt (HExit 1) /\ exists txt, tr1 = [EvOut stdout txt]) \/
     (ret s = 0 /\ ((o = Halt (HExit 1) /\ turn_spec 0 o tr1) \/
        exists c0 r0 tr2, tr1 = joined 0 c0 r0 ++ tr2 /\
          ((o = Halt (HExit 1) /\ turn_spec 1 o tr2) \/
           exists c1 r1 d, o = Halt HThreadExit /\ tr2 = joined 1 c1 r1 ++ [EvCall (Csys "pthread_attr_destroy" []) d])))).

Definition stack_spec (argv : list string) (o : outcome unit) (tr : list event) : Prop :=
  argc argv <> 2 /\ o = Halt (HExit 1) \/
  argc argv = 2 /\ exists ri rd g txt tr1,
    tr = [EvCall (Csys "pthread_attr_init" []) ri; EvCall (Csys "pthread_attr_setdetachstate" [AI 0]) rd;
          EvCall (Csys "pthread_attr_getstacksize" []) g; EvOut stdout txt] ++ tr1 /\ stack_run (atoi (arg_n argv 1)) o tr1.

Section Runs.
Context {K : Type} {HK : Kernel K}.

Lemma wp_turn j (w : world K) : wp (turn j) (adds w (turn_spec j)) w.
Proof.
  unfold turn, turn_spec. wp_seq. rename r into c. destruct (Z.eqb_spec (ret c) 0) as [Ec|Ec]; cbn [negb].
  2:{ wp_seq. leaf. exists c. left. split_and!; [done..|]. by eexists. }
  wp_seq. destruct (Z.eqb_spec (ret r) 0) as [Er|Er]; cbn [negb]; wp_seq; leaf; exists c; right; exists r; (split; [done|]).
  - by right.
  - left. split_and!; [done..|]. by eexists.
Qed.

Lemma ck_int_cases z : ck_int z = Some z /\ INT_MIN <= z <= INT_MAX \/ ck_int z = None /\ (z < INT_MIN \/ INT_MAX < z).
Proof. unfold ck_int. zbool; cbn; auto; right; split; auto; lia. Qed.

(** The loop is its two turns. *)
Lemma wp_turns (Q : outcome unit -> world K -> Prop) w :
  wp (turn 0;; turn 1) Q w ->
  wp (loop (S (Z.to_nat NTHREADS)) (fun j => if j <? NTHREADS then turn j;; mret (inl (j + 1)) else mret (inr tt)) 0) Q w.
Proof.
  unfold wp. enough (loop (S (Z.to_nat NTHREADS)) (fun j => if j <? NTHREADS then turn j;; mret (inl (j + 1)) else mret (inr tt)) 0 w =
    (turn 0;; turn 1) w) as -> by done.
  cbn -[turn]. unfold mbind, C_bind. destruct (turn 0 w) as [[[]|h] w1]; [|done]. change (Z.to_nat NTHREADS) with 2%nat.
  cbn -[turn]. unfold mbind, C_bind. change (0 + 1) with 1. change (1 <? NTHREADS) with true. cbv iota beta.
  by destruct (turn 1 w1) as [[[]|h] w2].
Qed.

Lemma wp_stack_run kb (w : world K) :
  wp (match ck_int (kb * 1024) with
      | None => undefined (UB_overflow "stacksize")
      | Some z =>
          s ← sys "pthread_attr_setstacksize" [AI (wrapu 64 z)];
          (if negb (s =? 0) then
             printf (cat ["pthread_attr_setstacksize ("; fmt_d (wrapu 64 z); " bytes) failed!"; nl]);; exit 1
           else mret tt);;
          loop (S (Z.to_nat NTHREADS)) (fun j => if j <? NTHREADS then turn j;; mret (inl (j + 1)) else mret (inr tt)) 0;;
          sys "pthread_attr_destroy" [];;
          pthread_exit
      end) (adds w (stack_run kb)) w.
Proof.
  unfold stack_run. destruct (ck_int_cases (kb * 1024)) as [[-> Hr] | [-> Hr]].
  2:{ apply wp_halt. exists []. split; [by rewrite app_nil_r|]. by left. }
  wp_seq. rename r into s. destruct (Z.eqb_spec (ret s) 0) as [Es|Es]; cbn [negb].
  2:{ wp_seq. leaf. right. split; [done|]. exists s. eexists. split; [reflexivity|]. left. split_and!; [done..|]. by eexists. }
  wp_seq. apply wp_turns, wp_bind. eapply wp_adds; [apply wp_turn|]. intros o0 w0 t0 Ht0 Hs0.
  assert (o0 = Halt (HExit 1) \/ exists c r, o0 = Done tt /\ t0 = joined 0 c r) as [-> | (c0 & r0 & -> & ->)].
  { destruct Hs0 as (c & [(_ & -> & _) | (r & _ & [(_ & -> & _) | (_ & -> & ->)])]); [by left|by left|]. right. eauto. }
  { cbn [post]. eexists. split; [rewrite Ht0; cbn [after trace]; rewrite <- app_assoc; reflexivity|]. right. split; [done|]. exists s.
    eexists. split; [reflexivity|]. right. split; [done|]. by left. }
  cbn [post]. eapply wp_adds; [apply wp_turn|]. intros o1 w1 t1 Ht1 Hs1.
  assert (o1 = Halt (HExit 1) \/ exists c r, o1 = Done tt /\ t1 = joined 1 c r) as [-> | (c1 & r1 & -> & ->)].
  { destruct Hs1 as (c & [(_ & -> & _) | (r & _ & [(_ & -> & _) | (_ & -> & ->)])]); [by left|by left|]. right. eauto. }
  { cbn [post]. eexists. split; [rewrite Ht1, Ht0; cbn [after trace]; rewrite <- !app_assoc; reflexivity|]. right. split; [done|]. exists s.
    eexists. split; [reflexivity|]. right. split; [done|]. right. exists c0, r0, t1. split; [done|]. by left. }
  cbn [post]. unfold pthread_exit. wp_seq. eexists. split; [cbn [after trace]; rewrite Ht1, Ht0; cbn [after trace]; rewrite <- !app_assoc; reflexivity|].
  right. split; [done|]. exists s. eexists. split; [reflexivity|]. right. split; [done|]. right. exists c0, r0. eexists. split; [reflexivity|].
  right. by eexists _, _, _.
Qed.

End Runs.

(** stacksz.c sets the stack size it is given, in kilobytes, once, and then has its two
    threads one after the other: each is waited for before the next is created, and the
    attributes are destroyed when both are done; a call that fails ends it with 1.  A
    size of 2 GB or more overflows the int it is computed in. *)
Theorem stack_threads_in_turn {K} `{Kernel K} argv (w : world K) :
  exists o w' tr, main argv w = (o, w') /\ trace w' = trace w ++ tr /\ stack_spec argv o tr.
Proof.
  apply wp_trace. unfold main, stack_spec. cbn zeta. wp_seq. destruct (Z.eqb_spec (argc argv) 2) as [Ha|Ha]; cbn [negb].
  2:{ wp_seq. leaf. by left. }
  wp_call. wp_step. wp_call. wp_step. wp_call. wp_step. wp_call.
  eapply wp_adds; [apply wp_stack_run|]. intros o w' tr Ht Hs.
  eexists. split; [rewrite Ht; cbn [after trace]; rewrite <- !app_assoc; reflexivity|]. right. split; [done|].
  by eexists _, _, _, _, tr.
Qed.

End StackSz.

(** ** attr_setget.c *)

Module AttrGetSet.

Definition PTHREAD_CREATE_DETACHED : Z := 1.
Definition PTHREAD_EXPLICIT_SCHED : Z := 1.

Definition detach_text (i : Z) : string :=
  if i =? 1 then "PTHREAD_CREATE_DETACHED" else if i =? 0 then "PTHREAD_CREATE_JOINABLE" else "???".
Definition scope_text (i : Z) : string :=
  if i =? 0 then "PTHREAD_SCOPE_SYSTEM" else if i =? 1 then "PTHREAD_SCOPE_PROCESS" else "???".
Definition inherit_text (i : Z) : string :=
  if i =? 0 then "PTHREAD_INHERIT_SCHED" else if i =? 1 then "PTHREAD_EXPLICIT_SCHED" else "???".
Definition policy_text (i : Z) : string :=
  if i =? 0 then "SCHED_OTHER" else if i =? 1 then "SCHED_FIFO" else if i =? 2 then "SCHED_RR" else "???".

Section Code.
Context {K : Type} {HK : Kernel K}.

Definition handle_error_en {A} (en : Z) (msg : string) : C K A :=
  set_errno en;; perror msg;; exit 1.

(** A call on the attributes [attr] that returns an error number. *)
Definition attr_call (fn : string) (args : list arg) : C K (list Z) :=
  r ← syscall (Csys fn args);
  if negb (ret r =? 0) then handle_error_en (ret r) fn else mret (out r).

Definition display_pthread_attr (attr prefix : string) : C K unit :=
  i ← attr_call "pthread_attr_getdetachstate" [AS attr];
  printf (cat [prefix; "Detach state        = "; detach_text (nth 0 i 0); nl]);;
  i ← attr_call "pthread_attr_getscope" [AS attr];
  printf (cat [prefix; "Scope               = "; scope_text (nth 0 i 0); nl]);;
  i ← attr_call "pthread_attr_getinheritsched" [AS attr];
  printf (cat [prefix; "Inherit scheduler   = "; inherit_text (nth 0 i 0); nl]);;
  i ← attr_call "pthread_attr_getschedpolicy" [AS attr];
  printf (cat [prefix; "Scheduling policy   = "; policy_text (nth 0 i 0); nl]);;
  i ← attr_call "pthread_attr_getschedparam" [AS attr];
  printf (cat [prefix; "Scheduling priority = "; fmt_d (nth 0 i 0); nl]);;
  v ← attr_call "pthread_attr_getguardsize" [AS attr];
  printf (cat [prefix; "Guard size          = "; fmt_d (nth 0 v 0); " bytes"; nl]);;
  s ← attr_call "pthread_attr_getstack" [AS attr];
  printf (cat [prefix; "Stack address       = "; fmt_p (nth 0 s 0); nl]);;
  printf (cat [prefix; "Stack size          = 0x"; text_of (fmt_x (nth 1 s 0)); " ("; fmt_d (wrapu 32 (nth 1 s 0)); ") bytes"; nl]).

Definition thread_start : C K unit :=
  attr_call "pthread_getattr_np" [AS "gattr"];;
  printf (cat ["Thread attributes:"; nl]);;
  display_pthread_attr "gattr" (chr 9);;
  exit 0.

(** [strtoul] into an int; [posix_memalign] takes it as a size_t. *)
Definition set_attrs (arg : string) : C K unit :=
  attr_call "pthread_attr_init" [AS "attr"];;
  attr_call "pthread_attr_setdetachstate" [AS "attr"; AI PTHREAD_CREATE_DETACHED];;
  attr_call "pthread_attr_setinheritsched" [AS "attr"; AI PTHREAD_EXPLICIT_SCHED];;
  let stack_size := to_int (strtoul 0 arg) in
  pg ← sys "sysconf" [AS "_SC_PAGESIZE"];
  sp ← attr_call "posix_memalign" [AI pg; AI (wrapu 64 stack_size)];
  printf (cat ["posix_memalign() allocated at "; fmt_p (nth 0 sp 0); nl]);;
  attr_call "pthread_attr_setstack" [AS "attr"; AI (nth 0 sp 0); AI (wrapu 64 stack_size)];;
  mret tt.

Definition main (argv : list string) : C K unit :=
  let attrp := if 1 <? argc argv then "attr" else "NULL" in
  when (1 <? argc argv) (set_attrs (arg_n argv 1));;
  attr_call "pthread_create" [AS attrp; AS "thread_start"];;
  when (1 <? argc argv) (attr_call "pthread_attr_destroy" [AS attrp];; mret tt);;
  sys "pause" [];;
  exit 0.

End Code.

(** *** The attributes of a thread *)

Record attrs := Attrs {
  a_detach : Z; a_scope : Z; a_inherit : Z; a_policy : Z; a_prio : Z; a_guard : Z; a_stack : Z; a_size : Z }.

(** The lines that show them. *)
Definition shown (x : attrs) : list string :=
  map (fun l => cat (chr 9 :: l))
  [["Detach state        = "; detach_text (a_detach x); nl];
   ["Scope               = "; scope_text (a_scope x); nl];
   ["Inherit scheduler   = "; inherit_text (a_inherit x); nl];
   ["Scheduling policy   = "; policy_text (a_policy x); nl];
   ["Scheduling priority = "; fmt_d (a_prio x); nl];
   ["Guard size          = "; fmt_d (a_guard x); " bytes"; nl];
   ["Stack address       = "; fmt_p (a_stack x); nl];
   ["Stack size          = 0x"; text_of (fmt_x (a_size x)); " ("; fmt_d (wrapu 32 (a_size x)); ") bytes"; nl]].

(** A system with the attributes of main, those of the created thread and those it
    fetched; [mem] is where the next block is allocated, 0 when there is no memory. *)
Record asys := Asys { attr_obj : attrs; thr_obj : attrs; gattr_obj : attrs; mem : Z }.

Definition PTHREAD_STACK_MIN : Z := 16384.

Section System.
Context (default_attrs : attrs).

Definition with_detach (x : attrs) (v : Z) : attrs :=
  Attrs v (a_scope x) (a_inherit x) (a_policy x) (a_prio x) (a_guard x) (a_stack x) (a_size x).
Definition with_inherit (x : attrs) (v : Z) : attrs :=
  Attrs (a_detach x) (a_scope x) v (a_policy x) (a_prio x) (a_guard x) (a_stack x) (a_size x).
Definition with_stack (x : attrs) (p n : Z) : attrs :=
  Attrs (a_detach x) (a_scope x) (a_inherit x) (a_policy x) (a_prio x) (a_guard x) p n.

Definition set_attr (s : asys) (x : attrs) : asys := Asys x (thr_obj s) (gattr_obj s) (mem s).

(** A stack below the minimum is not accepted. *)
Definition attr_step : Kernel asys := fun c s =>
  let ok out s := (Resp 0 0 out, s) in
  let g := gattr_obj s in
  match c with
  | Csys "pthread_attr_init" [AS "attr"] => ok [] (set_attr s default_attrs)
  | Csys "pthread_attr_setdetachstate" [AS "attr"; AI v] => ok [] (set_attr s (with_detach (attr_obj s) v))
  | Csys "pthread_attr_setinheritsched" [AS "attr"; AI v] => ok [] (set_attr s (with_inherit (attr_obj s) v))
  | Csys "sysconf" _ => (Resp 4096 0 [], s)
  | Csys "posix_memalign" _ => if mem s =? 0 then (Resp ENOMEM 0 [], s) else ok [mem s] s
  | Csys "pthread_attr_setstack" [AS "attr"; AI p; AI n] =>
      if n <? PTHREAD_STACK_MIN then (Resp EINVAL 0 [], s) else ok [] (set_attr s (with_stack (attr_obj s) p n))
  | Csys "pthread_create" [AS "attr"; _] => ok [] (Asys (attr_obj s) (attr_obj s) g (mem s))
  | Csys "pthread_create" [AS "NULL"; _] => ok [] (Asys (attr_obj s) default_attrs g (mem s))
  | Csys "pthread_getattr_np" [AS "gattr"] => ok [] (Asys (attr_obj s) (thr_obj s) (thr_obj s) (mem s))
  | Csys "pthread_attr_getdetachstate" _ => ok [a_detach g] s
  | Csys "pthread_attr_getscope" _ => ok [a_scope g] s
  | Csys "pthread_attr_getinheritsched" _ => ok [a_inherit g] s
  | Csys "pthread_attr_getschedpolicy" _ => ok [a_policy g] s
  | Csys "pthread_attr_getschedparam" _ => ok [a_prio g] s
  | Csys "pthread_attr_getguardsize" _ => ok [a_guard g] s
  | Csys "pthread_attr_getstack" _ => ok [a_stack g; a_size g] s
  | _ => ok [] s
  end.

(** What a program wrote to standard output. *)
Definition out_of (e : event) : list string := match e with EvOut stdout t => [t] | _ => [] end.
Definition output (tr : list event) : list string := concat (map out_of tr).

Lemma output_app t1 t2 : output (t1 ++ t2) = output t1 ++ output t2.
Proof. unfold output. by rewrite map_app, concat_app. Qed.

#[local] Instance attr_kernel : Kernel asys := attr_step.

(** A call that succeeds, and one that fails. *)
Lemma wp_attr_ok fn args o s' (Q : outcome (list Z) -> world asys -> Prop) w :
  attr_step (Csys fn args) (kern w) = (Resp 0 0 o, s') ->
  Q (Done o) (after (Csys fn args) (Resp 0 0 o) s' w) -> wp (attr_call fn args) Q w.
Proof.
  intros E HQ. unfold attr_call. wp_step. apply wp_syscall. intros r k Hk. change (kstep _ _) with (attr_step (Csys fn args) (kern w)) in Hk.
  rewrite E in Hk. injection Hk as <- <-. cbn [post ret]. wp_seq. exact HQ.
Qed.

Lemma wp_attr_fails fn args rc s' (Q : outcome (list Z) -> world asys -> Prop) w : rc <> 0 ->
  attr_step (Csys fn args) (kern w) = (Resp rc 0 [], s') ->
  Q (Halt (HExit 1)) (World s' rc (trace w ++ [EvCall (Csys fn args) (Resp rc 0 []); EvPerror fn rc])) -> wp (attr_call fn args) Q w.
Proof.
  intros Hrc E HQ. unfold attr_call, handle_error_en. wp_step. apply wp_syscall. intros r k Hk.
  change (kstep _ _) with (attr_step (Csys fn args) (kern w)) in Hk. rewrite E in Hk. injection Hk as <- <-. cbn [post ret].
  rewrite (proj2 (Z.eqb_neq rc 0)) by done. cbn [negb]. wp_seq. cbn [after trace kern errno] in *. rewrite <- app_assoc. exact HQ.
Qed.

Local Ltac attr_ok := wp_step; eapply wp_attr_ok; [reflexivity|]; cbn [post].

(** The thread shows the attributes it was created with. *)
Lemma thread_shows (w : world asys) :
  wp thread_start (adds w (fun o tr => o = Halt (HExit 0) /\ output tr = cat ["Thread attributes:"; nl] :: shown (thr_obj (kern w)))) w.
Proof.
  unfold thread_start, display_pthread_attr. destruct w as [[at' th ga me] e t]. cbn [kern thr_obj].
  attr_ok. wp_step. wp_step. wp_step. cbn [after kern errno trace].
  do 7 (attr_ok; do 2 wp_step; cbn [after kern errno trace]). wp_seq. leaf. done.
Qed.

(** The size that is asked for. *)
Definition asked (argv : list string) : Z := wrapu 64 (to_int (strtoul 0 (arg_n argv 1))).

(** The attributes main makes. *)
Definition made (p n : Z) : attrs :=
  with_stack (with_inherit (with_detach default_attrs PTHREAD_CREATE_DETACHED) PTHREAD_EXPLICIT_SCHED) p n.

Lemma main_sets argv (w : world asys) : 1 < argc argv ->
  wp (main argv) (fun o w' =>
    if (mem (kern w) =? 0) || (asked argv <? PTHREAD_STACK_MIN) then
      o = Halt (HExit 1) /\ thr_obj (kern w') = thr_obj (kern w) /\
      errno w' = if mem (kern w) =? 0 then ENOMEM else EINVAL
    else o = Halt (HExit 0) /\ thr_obj (kern w') = made (mem (kern w)) (asked argv)) w.
Proof.
  intros Ha. unfold main, set_attrs, when. cbn zeta. rewrite (proj2 (Z.ltb_lt 1 (argc argv))) by done.
  destruct w as [[at' th ga me] e t]. cbn [kern thr_obj mem]. fold (asked argv).
  wp_step. attr_ok. attr_ok. attr_ok. wp_step. unfold sys. wp_step. apply wp_syscall. intros r k Hk.
  cbn [after kern errno trace] in Hk. cbn in Hk. injection Hk as <- <-. cbn [post ret]. wp_step. cbn [after kern errno trace].
  destruct (Z.eqb_spec me 0) as [Em|Em]; cbn [orb].
  { wp_step. eapply wp_attr_fails; [|cbn -[Z.eqb asked]; rewrite (proj2 (Z.eqb_eq me 0)) by done; reflexivity|done]. done. }
  wp_step. eapply (wp_attr_ok _ _ [me]); [cbn -[Z.eqb asked]; rewrite (proj2 (Z.eqb_neq me 0)) by done; reflexivity|].
  cbn [post]. wp_step. wp_step. cbn [after kern errno trace]. destruct (asked argv <? PTHREAD_STACK_MIN) eqn:En.
  { wp_step. eapply (wp_attr_fails _ _ EINVAL); [done|cbn -[Z.ltb asked]; rewrite En; reflexivity|]. done. }
  wp_step. eapply (wp_attr_ok _ _ []); [cbn -[Z.ltb asked]; rewrite En; reflexivity|]. cbn [post after kern errno trace]. wp_step.
  cbn [nth]. attr_ok. wp_step. attr_ok. wp_seq. cbn in Hk. injection Hk as <- <-. done.
Qed.

(** What attr_setget.c sets is what its thread shows: with a stack that the system
    accepts, main ends only after its pause and its thread, whenever it runs, shows a
    detached thread with explicit scheduling, the stack at the address that was
    allocated and of the size that was given, and the defaults of the system in the
    other lines, and exits with 0.  Without memory, or with a stack that is too small,
    main exits with 1, the error number in errno, and creates no thread. *)
Theorem attrs_round_trip argv (w : world asys) : 1 < argc argv ->
  exists o w', main argv w = (o, w') /\
    if (mem (kern w) =? 0) || (asked argv <? PTHREAD_STACK_MIN) then
      o = Halt (HExit 1) /\ thr_obj (kern w') = thr_obj (kern w) /\
      errno w' = if mem (kern w) =? 0 then ENOMEM else EINVAL
    else o = Halt (HExit 0) /\
      forall e t, exists w1 tr, thread_start (World (kern w') e t) = (Halt (HExit 0), w1) /\ trace w1 = t ++ tr /\
        output tr = cat ["Thread attributes:"; nl] :: shown (made (mem (kern w)) (asked argv)).
Proof.
  intros Ha. destruct (wp_run _ _ _ (main_sets argv w Ha)) as (o & w' & E & Hc). exists o, w'. split; [done|].
  destruct (_ || _); [done|]. destruct Hc as (-> & Ht). split; [done|]. intros e t.
  destruct (wp_run _ _ _ (thread_shows (World (kern w') e t))) as (o1 & w1 & E1 & tr & Htr & -> & Ho).
  exists w1, tr. cbn [trace kern] in Htr, Ho. rewrite <- Ht. split; [exact E1|]. split; [exact Htr|exact Ho].
Qed.

End System.
End AttrGetSet.

(** ** rlim_threads.c *)

Module RlimThrds.

Definition RLIMIT_NOFILE : Z := 7.
Definition DELAY : Z := 2.

(** A [struct rlimit], if it was filled. *)
Definition rlim := option (Z * Z).

Section Code.
Context {K : Type} {HK : Kernel K}.

(** The limit that is queried is always RLIMIT_NOFILE; the structure keeps its contents
    when the query fails. *)
Definition query_rlimit (limit : Z) (old : rlim) : C K (Z * rlim) :=
  r ← syscall (Csys "getrlimit" [AI RLIMIT_NOFILE]);
  if ret r =? -1 then perror "getrlimit failed";; mret (-1, old)
  else mret (0, Some (nth 0 (out r) 0, nth 1 (out r) 0)).

Definition limits_text (who : string) (cur max : Z) : string :=
  cat [who; ": RLIMIT_NOFILE currently set to:"; nl;
       chr 9; "Soft limit : "; fmt_d (to_int cur); nl; chr 9; "Hard limit : "; fmt_d (to_int max); nl].

Definition show (who obj : string) (l : rlim) : C K unit :=
  match l with
  | None => undefined (UB_uninit obj 0)
  | Some (cur, max) => printf (limits_text who cur max)
  end.

Definition thrd_p2 : C K unit :=
  printf (cat ["  thrd_p2(): sleeping for "; fmt_d DELAY; " s.."; nl]);;
  sys "sleep" [AI DELAY];;
  q ← query_rlimit RLIMIT_NOFILE None;
  show "  thrd_p2()" "rlim2" (snd q);;
  printf (cat ["  thrd_p2(): now sleeping for 5s.."; nl]);;
  sys "sleep" [AI 5];;
  q ← query_rlimit RLIMIT_NOFILE (snd q);
  show "  thrd_p2()" "rlim2" (snd q);;
  printf "  thrd_p2(): exiting..";;
  pthread_exit.

Definition main : C K Z :=
  me ← sys "getpid" [];
  printf (cat ["p1 (pid "; fmt_d me; " - the main() thread): now creating pthread p2.."; nl]);;
  r ← sys "pthread_create" [AS "thrd_p2"; AI 0];
  (if negb (r =? 0) then perror "pthread creation";; exit 1 else mret tt);;
  q ← query_rlimit RLIMIT_NOFILE None;
  show "main" "rlim" (snd q);;
  printf (cat ["main: now sleeping for 3s..."; nl]);;
  sys "sleep" [AI 3];;
  printf (cat ["main: now setting RLIMIT_NOFILE to 500"; nl]);;
  s ← sys "setrlimit" [AI RLIMIT_NOFILE; AI 500; AI 800];
  if s =? -1 then perror "main: setrlimit failed";; mret (-1)
  else
  printf (limits_text "main" 500 800);;
  printf (cat ["main: now sleeping for 5s..."; nl]);;
  sys "sleep" [AI 5];;
  printf (cat ["main thread exiting.."; nl]);;
  pthread_exit.

End Code.

(** What a query shows, with [old] from an earlier one. *)
Definition answer (old : rlim) (r : resp) : rlim :=
  if ret r =? -1 then old else Some (nth 0 (out r) 0, nth 1 (out r) 0).

(** The answers to the queries of a run. *)
Definition query_of (e : event) : list resp := match e with EvCall (Csys "getrlimit" _) r => [r] | _ => [] end.
Definition queries (tr : list event) : list resp := concat (map query_of tr).

(** The limits that are shown. *)
Definition shows (who : string) (l : rlim) (tr : list event) : Prop :=
  match l with Some (c, m) => EvOut stdout (limits_text who c m) ∈ tr | None => False end.

(** The thread shows what the system answers at each query; what it shows after a second
    query that failed are the limits of the first, and a first query that fails makes it
    read a structure that nobody filled. *)
Theorem rlim_thread_shows {K} `{Kernel K} (w : world K) :
  exists o w' tr, thrd_p2 w = (o, w') /\ trace w' = trace w ++ tr /\
    ((exists r1, queries tr = [r1] /\ ret r1 = -1 /\ o = Halt (HUB (UB_uninit "rlim2" 0))) \/
     (exists r1 r2 c m tr1 tr2, queries tr = [r1; r2] /\ answer None r1 = Some (c, m) /\ o = Halt HThreadExit /\
        tr = tr1 ++ tr2 /\ queries tr1 = [r1] /\ shows "  thrd_p2()" (Some (c, m)) tr1 /\
        shows "  thrd_p2()" (answer (Some (c, m)) r2) tr2)).
Proof.
  apply wp_trace. unfold thrd_p2, query_rlimit, pthread_exit, answer. wp_seq. rename r0 into r1. destruct (Z.eqb_spec (ret r1) (-1)) as [E1|E1].
  { wp_seq. cbn [snd show]. wp_seq. leaf. left. by exists r1. }
  wp_seq. cbn [snd show]. wp_seq. rename r0 into rs, r2 into r2. destruct (Z.eqb_spec (ret r2) (-1)) as [E2|E2];
    wp_seq; cbn [snd show]; wp_seq; leaf; right; exists r1, r2; eexists _, _, [_; _; _; _], _;
    (split; [done|]); rewrite (proj2 (Z.eqb_neq (ret r1) (-1))) by done; (split; [done|]); (split; [done|]); (split; [reflexivity|]);
    (split; [done|]); (split; [do 3 apply list_elem_of_further; apply list_elem_of_here|]).
  - rewrite (proj2 (Z.eqb_eq (ret r2) (-1))) by done. do 4 apply list_elem_of_further; apply list_elem_of_here.
  - rewrite (proj2 (Z.eqb_neq (ret r2) (-1))) by done. do 3 apply list_elem_of_further; apply list_elem_of_here.
Qed.

End RlimThrds.

(** ** mt_fork_exec.c *)

Module ForkExec.

Section Code.
Context {K : Type} {HK : Kernel K}.

Definition thrd_p2 : C K unit :=
  printf (cat ["thrd_p2(): will terminate in 2s..."; nl]);;
  sys "sleep" [AI 2];;
  pthread_exit.

(** The child: execl returns only when it fails. *)
Definition child (fname : string) : C K unit :=
  me ← sys "getpid" [];
  printf (cat ["In child: PID "; fmt_d me; ". Exec-ing evince now ..."; nl]);;
  r ← sys "execl" [AS "/usr/bin/evince"; AS "evince PDF reader"; AS fname];
  if r <? 0 then perror "execl failed!";; exit 1
  else halt_with (HExec (Some "/usr/bin/evince") ["evince PDF reader"; fname]).

Definition thrd_p3 (msg : option string) : C K unit :=
  match msg with
  | None => fprintf stderr (cat ["thrd_p3(): PDF-file-to-view absent?"; nl]);; exit 1
  | Some fname =>
      me ← sys "getpid" [];
      printf (cat ["thrd_p3(): PID "; fmt_d me; "...fname="; fname; nl]);;
      printf (cat ["+++ Worker thread 2: fork() in 3 seconds..."; nl]);;
      sys "sleep" [AI 3];;
      n ← sys "fork" [];
      (if n =? -1 then perror "fork failed";; exit 1
       else if n =? 0 then child fname
       else
         printf (cat ["worker 2: waiting for child..."; nl]);;
         d ← sys "wait" [];
         printf (cat ["worker 2: child "; fmt_d d; " died..."; nl]));;
      pthread_exit
  end.

Definition create (name fn arg : string) : C K resp :=
  printf (cat ["p1 (the main() thread): now creating pthread "; name; ".."; nl]);;
  r ← syscall (Csys "pthread_create" [AS fn; AS arg]);
  (if negb (ret r =? 0) then perror "pthread creation";; exit 1 else mret tt);;
  mret r.

Definition join (name : string) (t : Z) : C K unit :=
  r ← sys "pthread_join" [AI t];
  (if negb (r =? 0) then perror "pthread join";; exit 1 else mret tt);;
  printf (cat ["p1: "; name; " has joined up"; nl]).

Definition main (argv : list string) : C K unit :=
  (if argc argv =? 1 then fprintf stderr (cat ["Usage: "; arg_n argv 0; " PDF-file-to-view"; nl]);; exit 1 else mret tt);;
  fd ← syscall (Copen (arg_n argv 1) 0 0);
  (if ret fd =? -1 then
     fprintf stderr (cat [arg_n argv 0; ": PDF-file-to-view "; chr 34; arg_n argv 1; chr 34; " not existing or unreadable?"; nl]);;
     perror "File open failed";; exit 1
   else mret tt);;
  syscall (Cclose (ret fd));;
  p2 ← create "p2" "thrd_p2" (arg_n argv 1);
  p3 ← create "p3" "thrd_p3" (arg_n argv 1);
  printf (cat ["p1: threads p2 and p3 created..."; nl]);;
  fflush stdout;;
  printf (cat ["main: join-ing ..."; nl]);;
  join "p2" (nth 0 (out p2) 0);;
  join "p3" (nth 0 (out p3) 0);;
  exit 0.

End Code.

(** The forks, waits and execs of a run, in order. *)
Inductive step := SFork (r : Z) | SWait (r : Z) | SExec (args : list arg) (r : Z).
Definition step_of (e : event) : list step :=
  match e with
  | EvCall (Csys "fork" _) r => [SFork (ret r)]
  | EvCall (Csys "wait" _) r => [SWait (ret r)]
  | EvCall (Csys "execl" args) r => [SExec args (ret r)]
  | _ => []
  end.
Definition steps_of (tr : list event) : list step := concat (map step_of tr).

(** The worker forks once.  Its copy in the child becomes the reader with the file, or
    exits with 1, and never returns into the thread's code; the worker itself waits once
    for its child and ends; when there is no child the whole process exits with 1. *)
Theorem worker_forks_once {K} `{Kernel K} fname (w : world K) :
  exists o w' tr, thrd_p3 (Some fname) w = (o, w') /\ trace w' = trace w ++ tr /\
    exists n, let evince := [AS "/usr/bin/evince"; AS "evince PDF reader"; AS fname] in
      (n = -1 /\ steps_of tr = [SFork n] /\ o = Halt (HExit 1)) \/
      (n = 0 /\ exists r, steps_of tr = [SFork n; SExec evince r] /\
         o = Halt (if r <? 0 then HExit 1 else HExec (Some "/usr/bin/evince") ["evince PDF reader"; fname])) \/
      (n <> -1 /\ n <> 0 /\ exists c, steps_of tr = [SFork n; SWait c] /\ o = Halt HThreadExit).
Proof.
  apply wp_trace. unfold thrd_p3, child, pthread_exit. cbn zeta. wp_seq. rename r1 into rn. destruct (Z.eqb_spec (ret rn) (-1)) as [E1|E1].
  { wp_seq. leaf. exists (ret rn). by left. }
  destruct (Z.eqb_spec (ret rn) 0) as [E0|E0].
  - wp_seq. destruct (ret r2 <? 0) eqn:Er; wp_seq; leaf; exists (ret rn); right; left; (split; [done|]); exists (ret r2); by rewrite Er.
  - wp_seq. leaf. exists (ret rn). right. right. split; [done|]. split; [done|]. by exists (ret r1).
Qed.

(** The threads that are created and joined. *)
Inductive tstep := TCreate (fn file : string) (r : resp) | TJoin (t : Z) (r : resp).
Definition tstep_of (e : event) : list tstep :=
  match e with
  | EvCall (Csys "pthread_create" [AS fn; AS f]) r => [TCreate fn f r]
  | EvCall (Csys "pthread_join" [AI t]) r => [TJoin t r]
  | _ => []
  end.
Definition tsteps (tr : list event) : list tstep := concat (map tstep_of tr).

(** main ends with 0 only when both threads, created with the file it could open, have
    been joined, each by its own number; else with 1 after the first call that failed. *)
Theorem both_joined {K} `{Kernel K} argv (w : world K) :
  exists o w' tr, main argv w = (o, w') /\ trace w' = trace w ++ tr /\
    let f := arg_n argv 1 in
    exists c2 c3 j2 j3, let all := [TCreate "thrd_p2" f c2; TCreate "thrd_p3" f c3; TJoin (nth 0 (out c2) 0) j2; TJoin (nth 0 (out c3) 0) j3] in
      tsteps tr `prefix_of` all /\
      (o = Halt (HExit 1) \/ o = Halt (HExit 0) /\ tsteps tr = all /\ ret c2 = 0 /\ ret c3 = 0 /\ ret j2 = 0 /\ ret j3 = 0).
Proof.
  apply wp_trace. unfold main, create, join. cbn zeta.
  set (z := Resp 0 0 []).
  wp_seq. destruct (argc argv =? 1); [wp_seq; leaf; exists z, z, z, z; split; [apply prefix_nil|by left]|].
  wp_seq. rename r into fd. destruct (ret fd =? -1); [wp_seq; leaf; exists z, z, z, z; split; [apply prefix_nil|by left]|].
  wp_seq. rename r0 into c2. destruct (Z.eqb_spec (ret c2) 0) as [E2|E2]; cbn [negb].
  2:{ wp_seq. leaf. exists c2, z, z, z. split; [by eexists|by left]. }
  wp_seq. rename r0 into c3. destruct (Z.eqb_spec (ret c3) 0) as [E3|E3]; cbn [negb].
  2:{ wp_seq. leaf. exists c2, c3, z, z. split; [by eexists|by left]. }
  wp_seq. rename r0 into j2. destruct (Z.eqb_spec (ret j2) 0) as [F2|F2]; cbn [negb].
  2:{ wp_seq. leaf. exists c2, c3, j2, z. split; [by eexists|by left]. }
  wp_seq. rename r0 into j3. destruct (Z.eqb_spec (ret j3) 0) as [F3|F3]; cbn [negb]; wp_seq; leaf; exists c2, c3, j2, j3; (split; [done|]).
  - right. done.
  - by left.
Qed.

End ForkExec.
