(* ===== verification/Sanodef.v ===== *)
(** src/signalling/sanodef.c: a handler that takes a while, with and without SA_NODEFER.
    The program runs on the machine of [Proc]; somebody at the keyboard sends SIGINT at any
    time.  The value of the stack pointer is a parameter; of the two arguments of the
    printf in the handler, stack() is evaluated first.  What is printed appears at once,
    so that the fflush has no effect. *)
From S2P Require Import Prelude CMonad CLib Decimal Proc SigCrit ForkDemo Zombies.

Definition MAX : Z := 8.

Definition s : loc := LVar "s".

Section Code.
Context (sp : string).

(** What the handler prints. *)
Definition caught (signum : Z) : string := cat [nl; "sighdlr: caught signal "; fmt_d signum; ","].
Definition s_text (v : Z) : string := cat [" s="; fmt_d v; " ; stack "; sp; " :"].

(** On x86-64; the accumulator holds the stack pointer. *)
Definition stack : prog string := pprintf (cat ["X86:"; nl]) ≫= fun _ => mret sp.

Definition sighdlr (signum : Z) : prog unit :=
  pprintf (caught signum) ≫= fun _ =>
  if signum =? SIGINT then
    v ← pget s;
    pset s (to_int (v + 1)) ≫= fun _ =>
    v ← pget s;
    (if MAX <=? v then pset s 1 else mret tt) ≫= fun _ =>
    saved ← pget s;
    p ← stack;
    v ← pget s;
    pprintf (cat [" s="; fmt_d v; " ; stack "; p; " :"]) ≫= fun _ =>
    DELAY_LOOP (saved + 48) 30 ≫= fun _ =>
    pprintf "*"
  else mret tt.

Definition functions : table := fun f x => if String.eqb f "sighdlr" then sighdlr x else pause_loop x.

Definition usage (argv0 : string) : string :=
  cat ["Usage: "; argv0; " [option]"; nl; "option=0 : don't use SA_NODEFER flag (default sigaction style)"; nl;
       "option=1 : use SA_NODEFER flag (will process signal immd)"; nl].

Definition used (opt : Z) : string := cat ["SA_NODEFER used? "; if opt =? 0 then "no" else "yes"; nl].
Definition awaiting : string := cat [nl; "Process awaiting signals"; nl].

Definition act (opt : Z) : sigact :=
  Sigact (SIG_FN "sighdlr") sigemptyset (if opt =? 1 then Z.lor SA_NODEFER SA_RESTART else if opt =? 0 then SA_RESTART else 0).

Definition main (argv : list string) : prog Z :=
  if argc argv =? 1 then pfprintf stderr (usage (arg_n argv 0)) ≫= fun _ => pexit 1
  else
  let opt := atoi (arg_n argv 1) in
  pprintf (used opt) ≫= fun _ =>
  r ← pcall1 (Sigaction SIGINT (act opt));
  if r =? -1 then pperror (arg_n argv 0) ≫= fun _ => pexit 1
  else
  pfprintf stderr awaiting ≫= fun _ =>
  Forever "pause_loop".

End Code.

(** ** A handler that nothing interrupts *)

(** What is left of a handler: its events, the memory when it returns, the mask and the
    code it returns to. *)
Fixpoint until_return (c : prog unit) (m : pmem) : option (list pevent * (pmem * Z * prog unit)) :=
  match c with
  | Out st t k => prod_map (cons (EOut st t)) id <$> until_return k m
  | Get l k => match m l with Some v => until_return (k v) m | None => None end
  | Set_ l v k => until_return k (mem_set m l v)
  | Call (Nanosleep _) k => until_return (k (0, 0)) m
  | Sigreturn mask k => Some ([], (m, mask, k))
  | _ => None
  end.

(** A step of the handler is the next part of it, or its return. *)
Lemma until_run T sy p o sy' t fin : until_return (p_code p) (p_mem p) = Some (t, fin) -> run1 T sy p o = Some sy' ->
  (exists m mask k, fin = (m, mask, k) /\ t = [] /\ sy' = put sy (goto (with_mask (with_mem p m) mask) k)) \/
  (exists p' es t', sy' = Sys (put_proc p' (procs sy)) (plog sy ++ map (pair (p_pid p)) es) /\ advanced p p' /\
     t = es ++ t' /\ until_return (p_code p') (p_mem p') = Some (t', fin)).
Proof.
  set (next := fun s1 => exists p' es t', s1 = Sys (put_proc p' (procs sy)) (plog sy ++ map (pair (p_pid p)) es) /\
    advanced p p' /\ t = es ++ t' /\ until_return (p_code p') (p_mem p') = Some (t', fin)).
  assert (forall p', advanced p p' -> until_return (p_code p') (p_mem p') = Some (t, fin) -> next (put sy p')) as Hgo.
  { intros p' Ha Ht. exists p', [], t. cbn [map]. by rewrite app_nil_r. }
  intros Et. unfold run1. destruct (p_code p) as [| |st txt k|txt k|l k|l v k|c k| |mask k] eqn:Ec; cbn [until_return] in Et; try done.
  - intros [= <-]. destruct (until_return k (p_mem p)) as [[t' fin']|] eqn:Et'; [|done]. cbn in Et. injection Et as <- <-. right.
    by exists (goto p k), [EOut st txt], t'.
  - destruct (p_mem p l) as [v|]; [|done]. intros [= <-]. right. by apply Hgo.
  - intros [= <-]. right. by apply Hgo.
  - intros E. right. destruct c; try done. cbn [do_call] in E. destruct (p_blocked p); [done|]. injection E as <-.
    apply Hgo; [done|]. cbn. by rewrite Ec.
  - intros [= <-]. injection Et as <- <-. left. exists (p_mem p), mask, k. split; [done|]. split; [done|].
    destruct p. done.
Qed.

Lemma until_wake sy p sy' t fin : until_return (p_code p) (p_mem p) = Some (t, fin) -> wake sy p = Some sy' ->
  exists p', sy' = Sys (put_proc p' (procs sy)) (plog sy) /\ advanced p p' /\ until_return (p_code p') (p_mem p') = Some (t, fin).
Proof.
  intros Et. unfold wake. destruct (p_blocked p); [|done].
  destruct (p_code p) as [| | | | | |[] k| |] eqn:Ec; try done; intros [= <-]; by exists (goto p (k (0, 0))).
Qed.

(** ** The runs of the handler *)

Definition digit (v : Z) : pevent := EOut stdout (chr (to_uchar (v + 48))).

(** The counter goes from 1 to 7 and starts again. *)
Definition succ_s (v : Z) : Z := if MAX <=? v + 1 then 1 else v + 1.
Fixpoint cnt (n : nat) : Z := match n with O => 0 | S k => succ_s (cnt k) end.

Lemma cnt_cycle n : cnt (S n) = Z.of_nat n mod 7 + 1.
Proof.
  induction n as [|n IH]; [done|]. change (cnt (S (S n))) with (succ_s (cnt (S n))). rewrite IH. unfold succ_s, MAX.
  rewrite Nat2Z.inj_succ. pose proof (Z.mod_pos_bound (Z.of_nat n) 7 ltac:(lia)). pose proof (Z.div_mod (Z.of_nat n) 7 ltac:(lia)).
  destruct (Z.leb_spec 8 (Z.of_nat n mod 7 + 1 + 1)).
  - rewrite <- (Z.mod_unique (Z.succ (Z.of_nat n)) 7 (Z.of_nat n / 7 + 1) 0); lia.
  - rewrite <- (Z.mod_unique (Z.succ (Z.of_nat n)) 7 (Z.of_nat n / 7) (Z.of_nat n mod 7 + 1)); lia.
Qed.

Lemma cnt_range n : 0 <= cnt n < MAX.
Proof.
  destruct n as [|n]; [done|]. rewrite cnt_cycle. pose proof (Z.mod_pos_bound (Z.of_nat n) 7 ltac:(lia)). unfold MAX. lia.
Qed.

Section Runs.
Context (sp : string) (argv : list string) (a pp : Z) (Ha : 1 < a) (Hpp : 1 < pp) (Hne : pp <> a).
Context (Hargc : argc argv <> 1) (Hopt : atoi (arg_n argv 1) = 0).

(** The text of the run with count [v], after its start. *)
Definition body (v : Z) : list pevent :=
  [EOut stdout (caught SIGINT); EOut stdout (cat ["X86:"; nl]); EOut stdout (s_text sp v)] ++ replicate 30 (digit v) ++ [EOut stdout "*"].

(** The [n]th run, whole. *)
Definition run (n : nat) : list pevent := EHandler SIGINT :: body (cnt n).

(** Whole runs with the lines of main between them; has main said that it waits? *)
Inductive told : list pevent -> nat -> bool -> Prop :=
| told_used : told [EOut stdout (used 0)] 0 false
| told_run X n b : told X n b -> told (X ++ run (S n)) (S n) b
| told_awaiting X n : told X n false -> told (X ++ [EOut stderr awaiting]) n true.

Lemma until_delay (f : unit -> prog unit) (g : unit -> prog unit) v n m :
  until_return (pbind f (pbind g (DELAY_LOOP (v + 48) n))) m =
  prod_map (app (replicate n (digit v))) id <$> until_return (pbind f (g tt)) m.
Proof.
  induction n as [|n IH].
  - cbn [DELAY_LOOP]. change (until_return (pbind f (g tt)) m = prod_map (app []) id <$> until_return (pbind f (g tt)) m).
    by destruct (until_return _ m) as [[t x]|].
  - change (prod_map (cons (digit v)) id <$> until_return (pbind f (pbind g (DELAY_LOOP (v + 48) n))) m =
      prod_map (app (replicate (S n) (digit v))) id <$> until_return (pbind f (g tt)) m).
    rewrite IH. destruct (until_return (pbind f (g tt)) m) as [[t x]|]; reflexivity.
Qed.

Lemma handler_until n m k : m s = Some (cnt n) ->
  exists m', until_return (pbind (fun _ => Sigreturn 0 k) (sighdlr sp SIGINT)) m = Some (body (cnt (S n)), (m', 0, k)) /\
    m' s = Some (cnt (S n)).
Proof.
  intros Hm. pose proof (cnt_range n) as Hr. unfold MAX in Hr. cbn [cnt]. unfold succ_s.
  unfold sighdlr. change (SIGINT =? SIGINT) with true. cbv iota.
  cbn -[DELAY_LOOP cnt to_int Z.leb caught]. rewrite Hm. cbn -[DELAY_LOOP cnt to_int Z.leb caught].
  rewrite to_int_id by (unfold INT_MIN, INT_MAX; lia). 
  destruct (MAX <=? cnt n + 1) eqn:E; cbn -[DELAY_LOOP cnt to_int Z.leb caught].
  - eexists. rewrite until_delay. cbn -[cnt to_int Z.leb caught]. split; [reflexivity|done].
  - eexists. rewrite until_delay. cbn -[cnt to_int Z.leb caught]. split; [reflexivity|done].
Qed.

(** *** The states *)

Definition B0 : prog unit := pbind (fun r => Exit r) (main argv).
Definition B1 : prog unit := next (0, 0) B0.
Definition B2 : prog unit := next (0, 0) B1.

Definition acts1 : Z -> sigact := fun x => if x =? SIGINT then act 0 else act_default.

Lemma nodefer_codes :
  B0 = Out stdout (used 0) B1 /\ (exists k, B1 = Call (Sigaction SIGINT (act 0)) k /\ k (0, 0) = B2) /\
  B2 = Out stderr awaiting (Forever "pause_loop").
Proof.
  unfold B2, B1, B0, main. rewrite (proj2 (Z.eqb_neq (argc argv) 1)), Hopt by done. split; [done|]. split; [by eexists|done].
Qed.

(** Main before the handler is set, and after it. *)
Inductive early : prog unit -> list pevent -> Prop :=
| early_0 : early B0 []
| early_1 : early B1 [EOut stdout (used 0)].

Inductive outer : prog unit -> bool -> Prop :=
| outer_2 : outer B2 false
| outer_forever : outer (Forever "pause_loop") true
| outer_pause : outer pausing true.

(** Only SIGINT is sent. *)
Definition proc_of (code : prog unit) (m : pmem) (blk : bool) (mask pend : Z) : proc := Proc a pp code m blk mask pend acts1 None.

Inductive inv : sys -> Prop :=
| inv_early code m blk pend X : early code X -> m s = Some 0 -> only SIGINT pend ->
    inv (Sys [Proc a pp code m blk 0 pend (fun _ => act_default) None] (map (pair a) X))
| inv_killed p X : dead p = true -> X `prefix_of` [EOut stdout (used 0)] -> inv (Sys [p] (map (pair a) (X ++ [EExit SIGINT])))
| inv_main code m blk pend X n b : outer code b -> told X n b -> m s = Some (cnt n) -> only SIGINT pend ->
    inv (Sys [proc_of code m blk 0 pend] (map (pair a) X))
| inv_handler code0 code m blk mask pend X0 R n b t m' : outer code0 b -> told X0 n b -> only SIGINT pend -> sigismember mask SIGINT = true ->
    until_return code m = Some (t, (m', 0, code0)) -> m' s = Some (cnt (S n)) -> R ++ t = run (S n) ->
    inv (Sys [proc_of code m blk mask pend] (map (pair a) (X0 ++ R))).

Lemma solo p p' log : p_pid p' = p_pid p -> put (Sys [p] log) p' = Sys [p'] log.
Proof. intros E. by apply put_first. Qed.

(** The memory and the code a process was updated to. *)
Lemma advanced_proc code m blk mask pend p' : advanced (proc_of code m blk mask pend) p' ->
  p' = proc_of (p_code p') (p_mem p') (p_blocked p') mask pend.
Proof. destruct p'. unfold advanced. cbn. by intros (-> & -> & -> & -> & -> & ->). Qed.

Lemma early_moves code m blk pend X s' : early code X -> m s = Some 0 -> only SIGINT pend ->
  moves (functions sp) (Sys [Proc a pp code m blk 0 pend (fun _ => act_default) None] (map (pair a) X))
    (Proc a pp code m blk 0 pend (fun _ => act_default) None) s' -> inv s'.
Proof.
  intros He Hm Hp (_ & [(o & Hr) | [(sig & o & Hd & Hr) | Hw]]).
  - destruct nodefer_codes as (E0 & (k & E1 & E1') & E2). unfold run1 in Hr. cbn [p_code] in Hr. destruct He.
    + rewrite E0 in Hr. injection Hr as <-. rewrite solo by done. exact (inv_early B1 m false pend _ early_1 Hm Hp).
    + rewrite E1 in Hr. injection Hr as <-. rewrite solo by done. fields. rewrite E1'.
      exact (inv_main B2 m false pend _ 0 false outer_2 told_used Hm Hp).
  - assert (sig = SIGINT) as -> by (by eapply (deliverable_only SIGINT (Proc a pp code m blk 0 pend (fun _ => act_default) None))).
    injection Hr as <-. cbn [p_act sa_handler act_default]. change (default_ignored SIGINT) with false. cbv iota.
    assert (forall p st log, p_pid p = a -> p_ppid p = pp -> do_exit (Sys [Proc a pp code m blk 0 pend (fun _ => act_default) None] log) p st =
      Sys [with_zombie p st] (log ++ [(a, EExit st)])) as Hx.
    { intros p st log E1 E2. unfold do_exit, add_log. cbn [procs plog]. rewrite E1, E2. rewrite disown_none by (by intros q [<- | []]).
      rewrite (proj2 (Z.eqb_neq pp 1)) by lia. unfold find_pid. cbn [List.find p_pid]. rewrite (proj2 (Z.eqb_neq a pp)) by congruence.
      f_equal. apply put_cons_same. cbn. congruence. }
    rewrite Hx by done. change [(a, EExit SIGINT)] with (map (pair a) [EExit SIGINT]). rewrite <- List.map_app.
    apply inv_killed; [done|]. destruct He; by eexists.
  - unfold wake in Hw. cbn [p_blocked p_code] in Hw. destruct blk; [|done]. destruct nodefer_codes as (E0 & (k & E1 & _) & _).
    destruct He; [by rewrite E0 in Hw|by rewrite E1 in Hw].
Qed.

Lemma resume_waiting code m blk pend o b : outer code b -> outer (resume (proc_of code m blk 0 pend) true o) b.
Proof.
  intros Ho. unfold resume. cbn [p_blocked proc_of p_code]. destruct blk; [|done]. destruct nodefer_codes as (_ & _ & E2).
  destruct Ho; [rewrite E2; rewrite <- E2; constructor|constructor|cbn; constructor].
Qed.

Lemma main_moves code m blk pend X n b s' : outer code b -> told X n b -> m s = Some (cnt n) -> only SIGINT pend ->
  moves (functions sp) (Sys [proc_of code m blk 0 pend] (map (pair a) X)) (proc_of code m blk 0 pend) s' -> inv s'.
Proof.
  intros Ho Ht Hm Hp (_ & [(o & Hr) | [(sig & o & Hd & Hr) | Hw]]); destruct nodefer_codes as (_ & _ & E2).
  - unfold run1 in Hr. cbn [p_code proc_of] in Hr. destruct Ho.
    + rewrite E2 in Hr. injection Hr as <-. rewrite solo by done. unfold add_log. cbn [procs plog].
      change [(a, EOut stderr awaiting)] with (map (pair a) [EOut stderr awaiting]). rewrite <- List.map_app.
      refine (inv_main (Forever "pause_loop") m false pend _ n true outer_forever _ Hm Hp). by constructor.
    + injection Hr as <-. rewrite solo by done. exact (inv_main pausing m false pend _ n true outer_pause Ht Hm Hp).
    + cbn [pausing do_call p_blocked] in Hr. destruct blk; [done|]. injection Hr as <-. rewrite solo by done.
      exact (inv_main pausing m true pend _ n true outer_pause Ht Hm Hp).
  - assert (sig = SIGINT) as -> by (by eapply (deliverable_only SIGINT (proc_of code m blk 0 pend))).
    unfold deliver in Hr. cbn [p_act proc_of] in Hr. change (acts1 SIGINT) with (act 0) in Hr. cbn [sa_handler act] in Hr.
    injection Hr as <-. rewrite solo by done. unfold add_log. cbn [procs plog].
    change [(a, EHandler SIGINT)] with (map (pair a) [EHandler SIGINT]). rewrite <- List.map_app.
    change (functions sp "sighdlr" SIGINT) with (sighdlr sp SIGINT).
    destruct (handler_until n m (resume (proc_of code m blk 0 pend) true o) Hm) as (m' & Eu & Em').
    refine (inv_handler _ _ m false _ (sigdelset pend SIGINT) X [_] n b _ m' (resume_waiting code m blk pend o b Ho) Ht _ _ Eu Em' _).
    + by apply only_del.
    + done.
    + done.
  - unfold wake in Hw. cbn [p_blocked proc_of p_code] in Hw. destruct blk; [|done]. destruct Ho; [by rewrite E2 in Hw|done..].
Qed.

Lemma handler_moves code0 code m blk mask pend X0 R n b t m' s' : outer code0 b -> told X0 n b -> only SIGINT pend ->
  sigismember mask SIGINT = true -> until_return code m = Some (t, (m', 0, code0)) -> m' s = Some (cnt (S n)) -> R ++ t = run (S n) ->
  moves (functions sp) (Sys [proc_of code m blk mask pend] (map (pair a) (X0 ++ R))) (proc_of code m blk mask pend) s' -> inv s'.
Proof.
  intros Ho Ht Hp Hmask Hu Hm' EX (_ & [(o & Hr) | [(sig & o & Hd & Hr) | Hw]]).
  - destruct (until_run _ _ (proc_of code m blk mask pend) _ _ _ _ Hu Hr) as [(m1 & mk & k & [= <- <- <-] & -> & ->) | (p' & es & t' & -> & Hadv & -> & Hu')].
    + rewrite solo by done. rewrite app_nil_r in EX. subst R.
      refine (inv_main code0 m' false pend _ (S n) b Ho _ Hm' Hp). by constructor.
    + rewrite (advanced_proc _ _ _ _ _ _ Hadv). cbn [procs plog]. change (p_pid _) with a. rewrite <- List.map_app.
      unfold put_proc. cbn [map p_pid proc_of]. rewrite Z.eqb_refl.
      rewrite <- app_assoc. eapply (inv_handler code0 _ _ _ _ _ X0 (R ++ es) n b t' m'); [done..|]. by rewrite <- app_assoc.
  - assert (sig = SIGINT) as -> by (by eapply (deliverable_only SIGINT (proc_of code m blk mask pend))).
    unfold deliverable in Hd. cbn [p_mask proc_of] in Hd. by rewrite Hmask, andb_false_r in Hd.
  - destruct (until_wake _ (proc_of code m blk mask pend) _ _ _ Hu Hw) as (p' & -> & Hadv & Hu'). rewrite (advanced_proc _ _ _ _ _ _ Hadv).
    unfold put_proc. cbn [procs plog map p_pid proc_of]. rewrite Z.eqb_refl.
    by eapply (inv_handler code0 _ _ _ _ _ X0 R n b t m').
Qed.

(** Somebody at the keyboard. *)
Definition allowed (m : move) : Prop := match m with Send _ sig => sig = SIGINT | _ => True end.

(** SIGINT to the only process. *)
Lemma send_solo p log pid s' : dead p = false -> step (functions sp) (Sys [p] log) (Send pid SIGINT) = Some s' ->
  s' = Sys [with_pend p (sigaddset (p_pend p) SIGINT)] log.
Proof.
  intros Hd. cbn [step procs find_pid List.find]. destruct (p_pid p =? pid) eqn:E; [|done]. rewrite Hd. intros [= <-].
  unfold post_signal. cbn [map]. by rewrite E, Hd.
Qed.

Lemma nodefer_step sy m s' : allowed m -> inv sy -> step (functions sp) sy m = Some s' -> inv s'.
Proof.
  intros Hm Hi E. destruct (internal m) eqn:Eint.
  - destruct (step_moves _ _ _ _ Eint E) as (p & Hin & Hmv).
    destruct Hi as [code me blk pend X He Hme Hp|p0 X Hd HX|code me blk pend X n b Ho Ht Hme Hp|
      code0 code me blk mask pend X0 R n b t m' Ho Ht Hp Hmask Hu Hm' EX]; destruct Hin as [<- | []].
    + by eapply early_moves.
    + destruct Hmv. congruence.
    + by eapply main_moves.
    + by eapply handler_moves.
  - destruct m as [| | |pid sig]; try done. cbn in Hm. subst sig. assert (forall x, only SIGINT x -> only SIGINT (sigaddset x SIGINT)) as Hadd
      by (intros; by apply only_add).
    destruct Hi as [code me blk pend X He Hme Hp|p0 X Hd HX|code me blk pend X n b Ho Ht Hme Hp|
      code0 code me blk mask pend X0 R n b t m' Ho Ht Hp Hmask Hu Hm' EX].
    + apply send_solo in E as ->; [|done]. apply (inv_early code me blk (sigaddset pend SIGINT) X He Hme). by apply Hadd.
    + cbn [step procs find_pid List.find] in E. destruct (p_pid p0 =? pid); [by rewrite Hd in E|done].
    + apply send_solo in E as ->; [|done]. refine (inv_main code me blk (sigaddset pend SIGINT) X n b Ho Ht Hme _). by apply Hadd.
    + apply send_solo in E as ->; [|done].
      refine (inv_handler code0 code me blk mask (sigaddset pend SIGINT) X0 R n b t m' Ho Ht _ Hmask Hu Hm' EX). by apply Hadd.
Qed.

(** Static variables are zero before main starts. *)
Definition start : sys := Sys [with_mem (boot a pp (main argv)) (mem_set (fun _ => None) s 0)] [].

End Runs.

(** C22: without SA_NODEFER the handler of sanodef.c is never interrupted by its own signal.
    However often and whenever SIGINT is sent, the events of the process are main's lines
    and whole runs of the handler, and at the end a run that is not over yet: run number n
    says that it caught signal 2, shows the count (n - 1) mod 7 + 1, writes its digit 30
    times and ends with an asterisk, before the next run starts.  A SIGINT that comes
    before the handler is set kills the process. *)
Theorem handlers_deferred sp argv a pp ms s' :
  argc argv <> 1 -> atoi (arg_n argv 1) = 0 -> 1 < a -> 1 < pp -> pp <> a -> Forall allowed ms ->
  steps (functions sp) (start argv a pp) ms = Some s' ->
  exists X, plog s' = map (pair a) X /\
    (X = [] \/ X = [EOut stdout (used 0)] \/ X = [EExit SIGINT] \/ X = [EOut stdout (used 0); EExit SIGINT] \/
     exists X0 n b j, told sp X0 n b /\ X = X0 ++ take j (run sp (S n))).
Proof.
  intros Hc Ho Ha Hpp Hn Hm Hs. assert (inv sp argv a pp s') as Hi.
  { eapply (moves_inv (functions sp) allowed); [| |done..].
    - intros sy m s1 H1 H2. by apply nodefer_step.
    - exact (inv_early sp argv a pp _ _ false 0 [] (early_0 argv) eq_refl (only_0 _)). }
  destruct Hi as [code me blk pend X He Hme Hp|p0 X Hd [t HX]|code me blk pend X n b Hou Ht Hme Hp|
    code0 code me blk mask pend X0 R n b t m' Hou Ht Hp Hmask Hu Hm' EX]; eexists; (split; [reflexivity|]).
  - destruct He; [by left|by right; left].
  - destruct X as [|x [|y X]]; [by right; right; left| |by destruct X]. cbn in HX. injection HX as <- _. by right; right; right; left.
  - do 4 right. exists X, n, b, 0%nat. by rewrite app_nil_r.
  - do 4 right. exists X0, n, b, (length R). by rewrite <- EX, take_app_length.
Qed.

(** SIGINT twice during the first run: one more run, after it. *)
Definition run_moves : list move := repeat (Run 100 0) 9 ++ concat (repeat [Run 100 0; Run 100 0; Wake 100] 30) ++ [Run 100 0; Run 100 0].

Definition eg_moves : list move :=
  [Run 100 0; Run 100 0; Run 100 0; Send 100 SIGINT; Deliver 100 SIGINT 0; Send 100 SIGINT; Run 100 0; Send 100 SIGINT] ++
  tail (tail run_moves) ++ [Deliver 100 SIGINT 0].

Lemma eg_deferred : plog <$> steps (functions "0x7ffe") (start ["sanodef"; "0"] 100 50) eg_moves =
  Some (map (pair 100) ([EOut stdout (used 0); EOut stderr awaiting] ++ run "0x7ffe" 1 ++ [EHandler SIGINT])).
Proof. vm_compute. reflexivity. Qed.

(** With SA_NODEFER the second run starts inside of the first. *)
Definition nested_moves : list move :=
  [Run 100 0; Run 100 0; Run 100 0; Send 100 SIGINT; Deliver 100 SIGINT 0; Run 100 0; Send 100 SIGINT; Deliver 100 SIGINT 0; Run 100 0].

Lemma eg_nested : plog <$> steps (functions "0x7ffe") (start ["sanodef"; "1"] 100 50) nested_moves =
  Some (map (pair 100) [EOut stdout (used 1); EOut stderr awaiting; EHandler SIGINT; EOut stdout (caught SIGINT);
                        EHandler SIGINT; EOut stdout (caught SIGINT)]).
Proof. vm_compute. reflexivity. Qed.

Lemma handlers_deferred_witness : exists s',
  steps (functions "0x7ffe") (start ["sanodef"; "0"] 100 50) eg_moves = Some s' /\
  exists X, plog s' = map (pair 100) X /\
    (X = [] \/ X = [EOut stdout (used 0)] \/ X = [EExit SIGINT] \/ X = [EOut stdout (used 0); EExit SIGINT] \/
     exists X0 n b j, told "0x7ffe" X0 n b /\ X = X0 ++ take j (run "0x7ffe" (S n))).
Proof.
  destruct (fmap_Some_1 _ _ _ eg_deferred) as (s' & E & _). exists s'. split; [exact E|].
  apply (handlers_deferred "0x7ffe" ["sanodef"; "0"] 100 50 eg_moves s'); [done|by vm_compute|lia|lia|lia| |exact E].
  vm_compute. repeat constructor.
Defined.
